(* ===== verification/_CoqProject ===== *)
-Q . S2P
Prelude.v
State.v
Ring.v
CString.v
Log.v
Float32.v
ProtocolTypes.v
ProtocolUtil.v
Validate.v
Codec.v
SpscQueue.v
AudioCapture.v
AudioBuffer.v
WorkerQueue.v
Hallucination.v
SegmentBuilder.v
Vad.v
Sha256.v
ModelDownload.v
ModelFetch.v
ModelFetchProperties.v
ModelFetchLock.v
TranslateText.v
TranslateTiers.v
TranslateAsync.v
HttpTransfer.v
HttpProgress.v
HttpProperties.v
WorkerConfig.v
TranslationDiag.v
WhisperEngine.v
WorkerSession.v
SourceDecoder.v
SourceDecoderHandles.v
SourceDecoderProperties.v
SourceDecoderProgress.v
WorkerSafety.v
WorkerLifecycle.v
WorkerStart.v
WorkerBlame.v
WorkerReader.v
IpcSocket.v
IpcSocketHandles.v
IpcSocketProperties.v
IpcSocketProgress.v
LogPolicy.v
LogPolicyProperties.v
Platform.v
PlatformProperties.v
WorkerClient.v
WorkerClientWire.v
AudioPath.v
WorkerClientLaunch.v
WorkerClientReceive.v
Presenter.v
Benchmark.v
PluginPaths.v
Sender.v
SenderSafety.v
PluginModule.v
PluginSafety.v
PluginProperties.v
