(* ===== verification/Prelude.v ===== *)
(** * vlc-whisper: a verification library

    vlc-whisper shows live captions in the VLC player. A plugin inside the player (an
    audio filter, [src/plugin/]) taps the audio and draws the captions; a worker
    process ([src/worker/]) recognises the speech with whisper.cpp and may have it
    translated; the two speak a framed binary protocol over a private socket or pipe
    ([src/protocol/]). This library models the C code of all three as executable
    definitions and proves what makes them correct. Paths below are under [src/].

    ** The parts and their files

    Shared ground.
    - [Prelude] (this file): sizes in [Z], machine-width integers with their
      wrap-around, lists, automation; [Ring]: windows of circular arrays; [CString]:
      NUL-terminated byte strings and the C library's functions on them; [Float32]:
      comparisons of floats by their bit patterns; [State]: the state monad of the
      components that thread one mutable state through many calls, with [keeps], the
      rule by which a relation between the states before and after is established
      call by call.

    The protocol ([protocol/]).
    - [ProtocolTypes], [ProtocolUtil], [Validate], [Codec]: the messages, their helper
      functions, validation, encoders and decoders. Every other part that sends or
      receives goes through these.
    - [IpcSocket] ([vw_ipc_socket_linux.c]): the local socket that carries the frames as
      records. [IpcSocketHandles], [IpcSocketProperties], [IpcSocketProgress] have its
      properties and compose it with the worker's reader.
    - [Log] ([vw_log.c]): the sinks of diagnostic events, which both programs use.

    The worker ([worker/]).
    - [WorkerReader]: the reader thread of [vw_worker.c], which reassembles frames and
      pushes them to [WorkerQueue] ([vw_worker_queue.c]).
    - [WorkerSession]: the main loop of [vw_worker.c], which pops them: it authenticates
      the plugin, collects the audio in [AudioBuffer] ([vw_audio_buffer.c]) or from a
      media source, cuts it with [Vad] ([vw_vad.c]), transcribes it with
      [WhisperEngine] ([vw_whisper_engine.c]), passes the texts through [Hallucination]
      and [SegmentBuilder] ([vw_hallucination_filter.c], [vw_segment_builder.c]) and
      sends the cues, translated by [TranslateAsync] ([vw_translate_async.c]) if asked.
      [WorkerSafety] and [WorkerLifecycle] prove its properties.
    - [TranslationDiag], [WorkerBlame]: the build puts an adapter between the session and
      the translation ([vw_worker_translation_diag_override.h]) that tells the plugin why
      translations fail; the first models it, the second runs the session with it.
    - [SourceDecoder] ([vw_source_decoder_ffmpeg.c]): the media source, over FFmpeg's
      calls. [SourceDecoderProperties] shows what a read returns, [SourceDecoderHandles]
      that all is released, [SourceDecoderProgress] that a read returns.
    - [TranslateText], [TranslateTiers] ([vw_translate.c]): what is sent to and read
      from the translation services, and the fallback from one to the next.
    - [HttpTransfer] ([posix_http_request] of [vw_translate.c] and
      [vw_translate_pipe_policy.h]): a request through a curl child on pipes, with
      [HttpProperties] and, for termination, [HttpProgress].
    - [Sha256], [ModelDownload] ([vw_sha256.c], [vw_model_catalog.h],
      [vw_model_download.c]): fetching a model and publishing it once verified.
    - [ModelFetch] (the rest of [vw_model_download.c]): the curl child, the file lock, the
      directories, starting and freeing a download, with [ModelFetchProperties] and, over
      several workers, [ModelFetchLock].
    - [WorkerConfig] ([vw_worker_config.c]): the worker's command line. [WorkerStart]: what
      [vw_worker_run] does before and after its loop, and that it gives back what it took.
    - [LogPolicy] ([vw_worker_log_policy.c] and [main.c]): the worker's log file and the
      process around [vw_worker_run], with [LogPolicyProperties].

    The plugin ([plugin/]).
    - [AudioCapture] ([vw_audio_capture.c]) in VLC's audio callback converts blocks to
      16 kHz mono chunks for [SpscQueue] ([vw_queue.c]), which the sender thread empties.
    - [WorkerClient] ([vw_worker_client.c]): launching the worker and speaking the
      protocol with it. [Platform] ([vw_platform_linux.c]) starts and ends its process,
      with [PlatformProperties]. [WorkerClientWire] composes it with the worker's reader,
      [AudioPath] the capture with both and the worker's loop, [WorkerClientLaunch] with
      the worker's command line; [WorkerClientReceive] has the receive loops' properties.
    - [Presenter] ([vw_caption_presenter.c]): drawing cues; [Benchmark]
      ([vw_benchmark.c]): the session report.
    - [PluginPaths], [Sender], [PluginModule] ([vw_whisper_module.c] and the headers
      the build forces in before it): path discovery, the sender thread, the filter's
      callbacks. [SenderSafety], [PluginSafety] and [PluginProperties] prove what holds
      over a filter instance's life.
    ** How states and operations correspond to the code

    A C struct is a [Record] with the fields' names, an enumeration an [Inductive] with
    the source's constructors, a function a [Definition] or [Fixpoint] with the source's
    name wherever it is a function of its own; the long bodies ([vw_worker_run],
    [vw_plugin_sender_thread], [vw_plugin_filter], the open and close callbacks) are cut
    at their blocks, and the cut is composed as the source orders it. Buffers with a size
    check keep it and fail as the code does. Threads share state only in locked regions
    or through atomics: each such region or access is one step, and the theorems range
    over every order of steps ([SpscQueue], [ModelDownload], [TranslateAsync],
    [WorkerLifecycle], [PluginModule]).

    What the program calls outside itself is a class whose instance is any environment:
    [WorkerEnv] (transport, whisper.cpp, decoder, clock), [ClientEnv] (transport, clock,
    random source, processes), [VlcEnv], [ConfigEnv] and [ThreadEnv] (VLC), [OsEnv] (file
    system), [ModuleEnv] (the loader), [ProcEnv] (pipes, children), [SockEnv] (sockets),
    [AvEnv] (FFmpeg), [DownloadEnv], [PlatformEnv], [LogEnv] and [StartEnv] (files, locks,
    processes and allocation for the parts of those names). The operations act on a state of the environment's own and answer
    what they like; theorems hold for every instance and the witnesses run the definitions
    on a scripted one. Where a loop ends only because the system does not fail for ever, a
    class of laws says what is used: [Progress] (time passes, a child's output is finite),
    [Paced] (the same for sockets), [Finite] (a media file is); [Files] says what the calls on
    a directory do to it.

    ** What the theorems show

    - The protocol: what is encoded decodes to the same message, decoding never reads or
      writes out of its buffers and yields only validated messages ([Codec]); what the
      client writes is what the worker's reader queues, however the stream is cut, and
      what either side sends is well formed and numbered without gaps ([WorkerReader],
      [WorkerClientWire], [WorkerSafety]).
    - The sound: the samples a block of VLC's audio is resampled to are the samples the
      worker appends to its buffer, each chunk at its time ([AudioPath]).
    - The transport carries every frame whole to the worker's reader, accepts no one but
      the user's own processes and leaves nothing behind ([IpcSocketProperties],
      [IpcSocketHandles]).
    - Queues and buffers refine lists under every interleaving of their atomic steps, and
      account for what they drop ([SpscQueue], [WorkerQueue], [AudioBuffer],
      [AudioCapture], [TranslateAsync]).
    - The worker: nothing but the greeting's answer precedes authentication, the session
      invariant, captions only for the current session, the tail of the audio is used up,
      cues are ordered and numbered ([WorkerSafety], [WorkerLifecycle], [SegmentBuilder],
      [Vad]).
    - What the worker takes from outside: audio read from a file tiles the time asked for
      ([SourceDecoderProperties]), an answer is the whole of what an accepted transfer
      sent ([HttpProperties]), both release what they hold and return
      ([SourceDecoderHandles], [SourceDecoderProgress], [HttpProgress]); a translation
      that failed is blamed once, never on a broken transport ([WorkerBlame]).
    - What the worker leaves behind: nothing it acquired, on any path ([WorkerStart]); no
      child of a download and no second download of a model ([ModelFetchProperties],
      [ModelFetchLock]); of its old logs, the newest ([LogPolicyProperties]). The plugin
      forgets no child while its table has room ([PlatformProperties]), and no event reaches
      an instance that is gone ([Log]).
    - The plugin: over every life of a filter instance, captions only for the current
      session, one preview per seek while paused, every caption accounted for, the audio
      handed on in order, references given back, workers greeted and replaced within
      bounds ([PluginProperties]); the presenter's pacing and references ([Presenter]).
    - Reference definitions: hashing in pieces is hashing the padded message ([Sha256]),
      a cut stream is reassembled as the whole one ([WorkerReader]), both sides agree on
      command lines and model files ([WorkerClientLaunch], [PluginPaths]).

    ** Fuel and bounds

    Loops that are not structural take fuel, an upper bound of the iterations:
    - [emit_loop] ([AudioCapture]) gets the number of output samples the accumulator still
      owes; [notes_loop], [utf8_safe_len_loop], [segments_loop] and the parsers of
      [TranslateText] the length of the text, of which each iteration uses a byte;
      [decimal_loop] 20 digits, enough for 64 bits; [close_gap] the ring's capacity.
    - The worker's flush loop gets what the buffered audio needs ([worker_tail_complete]
      proves that the tail is used up); reading a frame gets the size of what is yet to
      arrive ([client_loops_end] proves that more changes nothing); a download's states
      strictly descend ([download_terminates]).
    - A wait for a child gets its time over the slices of 10 ms, plus two
      ([wait_process_returns]); the table of unreaped children its length.
    - The other loops on system calls ([HttpTransfer], [IpcSocket], [SourceDecoder],
      [ModelFetch], [vw_platform_get_random_bytes]) take their
      fuel as an argument and mark or return that it ran out; [transfer_terminates],
      [socket_calls_return] and [decoder_read_returns] say how much is enough.
    - The loops that empty the capture queue get its content plus one; the close's wait for
      the last captions gets 482, one more than the slices of 25 ms its 12 s hold, and the
      size of what is yet to arrive.
    Integers that can wrap in C are wrapped ([u8] to [u64], [i32], [i64]); what cannot is
    proved in range where a theorem needs it.

    ** Not modelled

    - Calls of [vw_log_event] (and the switches that gate them), frees of memory, and
      failures of allocations, except where a branch on one is translated.
    - In the parts that use them, the environment stands for the transport, the decoder,
      processes and HTTP transfers also where another file models these; what they rely on
      is what that file proves (records that fit what the reader asks for, for example).
    - [vw_quality_hooks.c] and the quality runner ([tools/]): marker files and the scoring
      of a corpus, which measure the program and are not part of it.
    - The branches for Windows ([vw_platform_win32.c], [vw_ipc_pipe_win32.c],
      [vw_source_decoder_mf.c] and the [_WIN32] parts of the other files): the library
      follows the Linux build.
    - Third-party code: whisper.cpp, ggml, FFmpeg, VLC, curl; the Lua settings dialog
      ([lua/]), the build scripts, tests, samples and spikes. *)

From Stdlib Require String.
From Stdlib Require Import Ascii.
Export (notations) String.
From Stdlib Require Export ZArith Lia ZifyBool.
From stdpp Require Export base tactics option list numbers.

#[global] Open Scope Z_scope.

(** ** Sizes and indices

    A C [size_t] or array length is a [Z]; the list operations below take their
    lengths in [Z] so that the bounds of the code stay in one sort. *)

Definition zlen {A} (l : list A) : Z := Z.of_nat (length l).
Definition ztake {A} (n : Z) (l : list A) : list A := take (Z.to_nat n) l.
Definition zdrop {A} (n : Z) (l : list A) : list A := drop (Z.to_nat n) l.
Definition zreplicate {A} (n : Z) (x : A) : list A := replicate (Z.to_nat n) x.

(** [znth l i] is the byte [l[i]] of a C array; the arrays the code indexes are
    NUL-terminated or bounds-checked, so the default is never what it reads. *)
Definition znth (l : list Z) (i : Z) : Z := nth (Z.to_nat i) l 0.

(** ** Machine-width integers *)

Definition u8 (z : Z) : Z := z mod 2 ^ 8.
Definition u16 (z : Z) : Z := z mod 2 ^ 16.
Definition u32 (z : Z) : Z := z mod 2 ^ 32.
Definition u64 (z : Z) : Z := z mod 2 ^ 64.
Definition swrap (w z : Z) : Z := (z + 2 ^ (w - 1)) mod 2 ^ w - 2 ^ (w - 1).
Definition i16 (z : Z) : Z := swrap 16 z.
Definition i32 (z : Z) : Z := swrap 32 z.
Definition i64 (z : Z) : Z := swrap 64 z.

Definition UINT64_MAX : Z := 2 ^ 64 - 1.
Definition INT64_MAX : Z := 2 ^ 63 - 1.
Definition INT64_MIN : Z := - 2 ^ 63.

Definition is_unsigned (w z : Z) : Prop := 0 <= z < 2 ^ w.
Definition is_signed (w z : Z) : Prop := - 2 ^ (w - 1) <= z < 2 ^ (w - 1).

#[global] Instance is_unsigned_dec w z : Decision (is_unsigned w z).
Proof. unfold is_unsigned. apply _. Defined.
#[global] Instance is_signed_dec w z : Decision (is_signed w z).
Proof. unfold is_signed. apply _. Defined.

(** A byte string: every element is an unsigned 8-bit value. *)
Definition is_bytes (l : list Z) : Prop := Forall (is_unsigned 8) l.
(** A fixed-size byte array [uint8_t a[n]]. *)
Definition is_array (n : Z) (l : list Z) : Prop := zlen l = n /\ is_bytes l.

#[global] Instance is_bytes_dec l : Decision (is_bytes l).
Proof. unfold is_bytes. apply _. Defined.
#[global] Instance is_array_dec n l : Decision (is_array n l).
Proof. unfold is_array. apply _. Defined.

(** ** System calls *)

(** The [errno]s the code tells apart: [EAGAIN] and [EWOULDBLOCK] are one. *)
Inductive errno := EINTR | EAGAIN | OtherError.
Inductive exit_status := Exited (code : Z) | Signaled (sig : Z).
(** [waitpid]: the child is reaped, still runs (0), or the call failed. *)
Inductive wait_answer := WaitDone (status : exit_status) | WaitRunning | WaitError (e : errno).

(** ** Tactics *)

(** One case split on the innermost [if] or [match] of a hypothesis or the goal. *)
Ltac case_if H :=
  match type of H with
  | context [if ?b then _ else _] =>
      lazymatch b with
      | context [if _ then _ else _] => fail
      | context [match _ with _ => _ end] => fail
      | _ => let E := fresh "Hc" in destruct b eqn:E; try discriminate H
      end
  end.
Ltac case_ifs H := repeat case_if H.

Ltac case_goal :=
  match goal with
  | |- context [if ?b then _ else _] =>
      lazymatch b with
      | context [if _ then _ else _] => fail
      | context [match _ with _ => _ end] => fail
      | _ => let E := fresh "Hc" in destruct b eqn:E
      end
  end.

(** Turn the boolean comparisons of the code into facts [lia] reads. *)
Ltac bool_to_prop :=
  repeat match goal with
  | H : andb _ _ = true |- _ => apply andb_prop in H; destruct H
  | H : orb _ _ = false |- _ => apply orb_false_elim in H; destruct H
  | H : negb _ = true |- _ => apply negb_true_iff in H
  | H : negb _ = false |- _ => apply negb_false_iff in H
  | H : (_ <? _) = true |- _ => apply Z.ltb_lt in H
  | H : (_ <? _) = false |- _ => apply Z.ltb_ge in H
  | H : (_ <=? _) = true |- _ => apply Z.leb_le in H
  | H : (_ <=? _) = false |- _ => apply Z.leb_gt in H
  | H : (_ =? _) = true |- _ => apply Z.eqb_eq in H
  | H : (_ =? _) = false |- _ => apply Z.eqb_neq in H
  end.

(** Invert [Some x = Some y] and pairs, then substitute. *)
Ltac inv_some :=
  repeat match goal with
  | H : Some _ = Some _ |- _ => injection H as H; try subst
  | H : (_, _) = (_, _) |- _ => injection H as H; try subst
  | H : None = Some _ |- _ => discriminate H
  | H : Some _ = None |- _ => discriminate H
  end.

(** Decide a closed proposition by computing its [Decision] instance. *)
Ltac vm_decide :=
  match goal with |- ?P => refine (@bool_decide_unpack P _ _); vm_compute; exact I end.

(** Arithmetic over list lengths. *)
Ltac zlen_unfold := unfold zlen, ztake, zdrop, zreplicate in *;
  rewrite ?length_app, ?length_take, ?length_drop, ?length_replicate in *.
Ltac zlia := zlen_unfold; simpl length in *; lia.

(** ** Multisets as lists *)

(** [l] without the first [x] in it. *)
Fixpoint take_out {A} `{!EqDecision A} (x : A) (l : list A) : option (list A) :=
  match l with
  | [] => None
  | y :: l => if decide (y = x) then Some l else (y ::.) <$> take_out x l
  end.
Lemma take_out_in {A} `{!EqDecision A} (x : A) l : x ∈ l -> exists l', take_out x l = Some l' /\ l ≡ₚ x :: l'.
Proof.
  induction 1 as [l|x y l Hin (l' & He & Hp)]; cbn [take_out]; [by rewrite decide_True; eauto|].
  case_decide as Hx; subst; [eauto|]. rewrite He. eexists. split; [done|]. rewrite Hp. apply Permutation_swap.
Qed.

(** ** Lemmas on sizes *)

Section sizes.
Context {A : Type}.
Implicit Types l k : list A.

Lemma zlen_nonneg l : 0 <= zlen l.
Proof. zlia. Qed.
Lemma zlen_nil : zlen (@nil A) = 0.
Proof. reflexivity. Qed.
Lemma zlen_cons x l : zlen (x :: l) = 1 + zlen l.
Proof. zlia. Qed.
Lemma zlen_app l k : zlen (l ++ k) = zlen l + zlen k.
Proof. zlia. Qed.
Lemma zlen_replicate n (x : A) : 0 <= n -> zlen (zreplicate n x) = n.
Proof. intros; zlia. Qed.
Lemma zlen_ztake n l : 0 <= n <= zlen l -> zlen (ztake n l) = n.
Proof. intros; zlia. Qed.
Lemma zlen_ztake_le n l : 0 <= n -> zlen (ztake n l) <= n.
Proof. intros; zlia. Qed.
Lemma zlen_zdrop n l : 0 <= n <= zlen l -> zlen (zdrop n l) = zlen l - n.
Proof. intros; zlia. Qed.
Lemma ztake_app_exact n l k : zlen l = n -> ztake n (l ++ k) = l.
Proof. intros <-. unfold ztake, zlen. rewrite Nat2Z.id. apply take_app_length. Qed.
Lemma zdrop_app_exact n l k : zlen l = n -> zdrop n (l ++ k) = k.
Proof. intros <-. unfold zdrop, zlen. rewrite Nat2Z.id. apply drop_app_length. Qed.
Lemma ztake_all n l : zlen l <= n -> ztake n l = l.
Proof. intros. unfold ztake. apply take_ge. zlia. Qed.
Lemma ztake_zdrop n l : ztake n l ++ zdrop n l = l.
Proof. apply take_drop. Qed.
Lemma zlen_zero l : zlen l = 0 -> l = [].
Proof. destruct l; [done|]. rewrite zlen_cons. pose proof (zlen_nonneg l). lia. Qed.
End sizes.

(** ** Lemmas on widths *)

Lemma u8_id z : is_unsigned 8 z -> u8 z = z.
Proof. apply Z.mod_small. Qed.
Lemma u16_id z : is_unsigned 16 z -> u16 z = z.
Proof. apply Z.mod_small. Qed.
Lemma u32_id z : is_unsigned 32 z -> u32 z = z.
Proof. apply Z.mod_small. Qed.
Lemma u64_id z : is_unsigned 64 z -> u64 z = z.
Proof. apply Z.mod_small. Qed.
Lemma swrap_id w z : 0 < w -> is_signed w z -> swrap w z = z.
Proof.
  intros Hw [H1 H2]. unfold swrap.
  assert (2 ^ w = 2 * 2 ^ (w - 1)) as Hp
    by (rewrite <- Z.pow_succ_r by lia; f_equal; lia).
  rewrite Z.mod_small by lia. lia.
Qed.
Lemma swrap_signed w z : 0 < w -> is_signed w (swrap w z).
Proof.
  intros Hw. unfold swrap, is_signed.
  assert (2 ^ w = 2 * 2 ^ (w - 1)) as Hp
    by (rewrite <- Z.pow_succ_r by lia; f_equal; lia).
  assert (0 < 2 ^ w) by (apply Z.pow_pos_nonneg; lia).
  pose proof (Z.mod_pos_bound (z + 2 ^ (w - 1)) (2 ^ w)). lia.
Qed.
Lemma i64_id z : is_signed 64 z -> i64 z = z.
Proof. intros; apply swrap_id; [lia|done]. Qed.
Lemma i64_signed z : is_signed 64 (i64 z).
Proof. apply swrap_signed. lia. Qed.
Lemma swrap_mod w z : 0 < w -> swrap w (z mod 2 ^ w) = swrap w z.
Proof. intros. unfold swrap. by rewrite Zplus_mod_idemp_l. Qed.
Lemma mod_unsigned w z : 0 <= w -> is_unsigned w (z mod 2 ^ w).
Proof. intros. unfold is_unsigned. apply Z.mod_pos_bound, Z.pow_pos_nonneg; lia. Qed.

(** ** Byte strings *)

Lemma is_bytes_nil : is_bytes [].
Proof. constructor. Qed.
Lemma is_bytes_app l k : is_bytes (l ++ k) <-> is_bytes l /\ is_bytes k.
Proof. apply Forall_app. Qed.
Lemma is_bytes_cons x l : is_bytes (x :: l) <-> is_unsigned 8 x /\ is_bytes l.
Proof. apply Forall_cons_iff. Qed.
Lemma is_bytes_take n l : is_bytes l -> is_bytes (ztake n l).
Proof. apply Forall_take. Qed.
Lemma is_bytes_drop n l : is_bytes l -> is_bytes (zdrop n l).
Proof. apply Forall_drop. Qed.
Lemma is_bytes_zeros n : is_bytes (zreplicate n 0).
Proof. apply Forall_replicate. unfold is_unsigned; lia. Qed.

(** Little-endian words: what [memcpy] of an [n]-byte integer produces. *)
Fixpoint le_enc (n : nat) (z : Z) : list Z :=
  match n with
  | O => []
  | S n => z mod 256 :: le_enc n (z / 256)
  end.

Fixpoint le_dec (bs : list Z) : Z :=
  match bs with
  | [] => 0
  | b :: bs => b + 256 * le_dec bs
  end.

Lemma le_enc_length n z : length (le_enc n z) = n.
Proof. revert z; induction n; intros; simpl; auto. Qed.
Lemma zlen_le_enc n z : zlen (le_enc n z) = Z.of_nat n.
Proof. unfold zlen. by rewrite le_enc_length. Qed.
Lemma le_enc_bytes n z : is_bytes (le_enc n z).
Proof.
  revert z; induction n as [|n IH]; intros z; simpl; [constructor|].
  constructor; [apply (mod_unsigned 8); lia | apply IH].
Qed.
Lemma le_dec_enc n z : le_dec (le_enc n z) = z mod 2 ^ (8 * Z.of_nat n).
Proof.
  revert z; induction n as [|n IH]; intros z; [by rewrite Z.mod_1_r|].
  cbn [le_enc le_dec]. rewrite IH.
  replace (2 ^ (8 * Z.of_nat (S n))) with (256 * 2 ^ (8 * Z.of_nat n)).
  - symmetry. apply Z.rem_mul_r; [lia|]. apply Z.pow_pos_nonneg; lia.
  - change 256 with (2 ^ 8). rewrite <- Z.pow_add_r by lia. f_equal. lia.
Qed.
Lemma le_dec_bound bs : is_bytes bs -> is_unsigned (8 * zlen bs) (le_dec bs).
Proof.
  induction bs as [|b bs IH]; intros Hb; unfold is_unsigned in *; simpl; [zlia|].
  apply is_bytes_cons in Hb as [Hb Hbs]. specialize (IH Hbs).
  rewrite zlen_cons. pose proof (zlen_nonneg bs).
  replace (8 * (1 + zlen bs)) with (8 + 8 * zlen bs) by lia.
  rewrite Z.pow_add_r by lia. unfold is_unsigned in Hb. change (2 ^ 8) with 256 in *. nia.
Qed.

#[global] Arguments le_enc : simpl never.
#[global] Arguments le_dec : simpl never.

(** ** C strings

    [cstr l] is the string a [char] array holds: the bytes before its first NUL
    (all of them when there is none, as for [strnlen] at the capacity). *)
Fixpoint cstr (l : list Z) : list Z :=
  match l with
  | [] => []
  | c :: l => if c =? 0 then [] else c :: cstr l
  end.

Definition strnlen (l : list Z) (max : Z) : Z := zlen (cstr (ztake max l)).
Definition strlen (l : list Z) : Z := zlen (cstr l).

(** A string with its NUL padding up to a fixed capacity. *)
Definition cpad (n : Z) (s : list Z) : list Z := s ++ zreplicate (n - zlen s) 0.

Definition no_nul (l : list Z) : Prop := Forall (fun c => c <> 0) l.

Lemma cstr_no_nul l : no_nul (cstr l).
Proof.
  induction l as [|c l IH]; simpl; [constructor|].
  destruct (Z.eqb_spec c 0); constructor; auto.
Qed.
Lemma cstr_id l : no_nul l -> cstr l = l.
Proof.
  induction 1 as [|c l Hc _ IH]; simpl; [done|].
  destruct (Z.eqb_spec c 0); [done|]. by rewrite IH.
Qed.
Lemma cstr_app_nul l k : no_nul l -> cstr (l ++ 0 :: k) = l.
Proof.
  induction 1 as [|c l Hc _ IH]; simpl; [done|].
  destruct (Z.eqb_spec c 0); [done|]. by rewrite IH.
Qed.
Lemma cstr_length l : zlen (cstr l) <= zlen l.
Proof.
  induction l as [|c l IH]; simpl; [done|].
  destruct (c =? 0); rewrite ?zlen_cons, ?zlen_nil; pose proof (zlen_nonneg l); lia.
Qed.
Lemma cstr_bytes l : is_bytes l -> is_bytes (cstr l).
Proof.
  induction 1 as [|c l Hc _ IH]; simpl; [constructor|].
  destruct (c =? 0); [constructor|]. by constructor.
Qed.
Lemma cstr_prefix l : ztake (zlen (cstr l)) l = cstr l.
Proof.
  induction l as [|c l IH]; simpl; [done|].
  destruct (c =? 0); [done|]. rewrite zlen_cons. unfold ztake in *.
  replace (Z.to_nat (1 + zlen (cstr l))) with (S (Z.to_nat (zlen (cstr l)))) by zlia.
  simpl. by rewrite IH.
Qed.
Lemma zlen_cpad n s : zlen s <= n -> zlen (cpad n s) = n.
Proof. intros. unfold cpad. rewrite zlen_app, zlen_replicate by lia. lia. Qed.
Lemma cstr_padded s k : zlen (cstr (s ++ zreplicate k 0)) <= zlen s.
Proof.
  induction s as [|c s IH]; simpl.
  - unfold zreplicate. by destruct (Z.to_nat k).
  - destruct (c =? 0); rewrite ?zlen_cons, ?zlen_nil; pose proof (zlen_nonneg s); lia.
Qed.
(** A text cut to fit is terminated. *)
Lemma strnlen_cut n s : 0 < n -> strnlen (cpad n (ztake (n - 1) s)) n < n.
Proof.
  intros Hn. pose proof (zlen_ztake_le (n - 1) s ltac:(lia)). unfold strnlen.
  replace (ztake n (cpad n (ztake (n - 1) s))) with (cpad n (ztake (n - 1) s)).
  - unfold cpad. pose proof (cstr_padded (ztake (n - 1) s) (n - zlen (ztake (n - 1) s))). lia.
  - unfold ztake at 2. rewrite take_ge; [done|]. pose proof (zlen_cpad n (ztake (n - 1) s) ltac:(lia)) as E. unfold zlen in E. lia.
Qed.

(** The bytes of a string literal of the source. *)
Definition str (s : String.string) : list Z :=
  map (fun c => Z.of_N (N_of_ascii c)) (String.list_ascii_of_string s).
Arguments str s%_string_scope.

(** ** The shared hint database *)
Create HintDb vw.
Create Rewrite HintDb vw.
#[export] Hint Resolve zlen_nonneg is_bytes_nil is_bytes_take is_bytes_drop
  is_bytes_zeros le_enc_bytes cstr_bytes cstr_no_nul i64_signed : vw.
#[export] Hint Rewrite @zlen_nil @zlen_cons @zlen_app zlen_le_enc : vw.
