(* ===== verification/State.v ===== *)
(** * State and record update

    The state monad of the components that thread one mutable state through many
    calls, record update for their states, and the rules by which a property of
    every call is established call by call. *)

From stdpp Require Import relations.
From S2P Require Import Prelude.
#[local] Open Scope Z_scope.

(** ** Record update

    [r <| f := v |>] is [r] with field [f] replaced. A record gives its eta expansion
    once, from which [setter] makes the instance of each field. *)

Class Setter {R T : Type} (proj : R -> T) := set_field : T -> R -> R.
Arguments set_field {R T} proj {_} _ _ /.
Class Settable (R : Type) := eta : R -> R.
Ltac setter :=
  lazymatch goal with
  | |- @Setter ?R _ ?proj =>
      let v := fresh "v" in let r := fresh "r" in intros v r;
      let i := constr:(ltac:(typeclasses eauto) : Settable R) in
      let e := eval red in (i r) in
      lazymatch e with context C [proj r] => let e := context C [v] in exact e end
  end.
Notation "r <| f := v |>" := (set_field f v r) (at level 1, left associativity,
  format "r  <| f  :=  v |>").

(** ** The state monad *)

Definition M (S A : Type) : Type := S -> A * S.

#[global] Instance M_ret {S} : MRet (M S) := fun A a s => (a, s).
#[global] Instance M_bind {S} : MBind (M S) := fun A B f m s => let '(a, s) := m s in f a s.

Section operations.
Context {S : Type}.

Definition gets {A} (f : S -> A) : M S A := fun s => (f s, s).
Definition modify (f : S -> S) : M S unit := fun s => (tt, f s).
Definition skip : M S unit := mret tt.
Definition when (b : bool) (m : M S unit) : M S unit := if b then m else skip.

(** A loop over a list. *)
Fixpoint for_each {A} (l : list A) (body : A -> M S unit) : M S unit :=
  match l with
  | [] => skip
  | x :: l => body x ;; for_each l body
  end.

(** [while (body ())]: [fuel] bounds the iterations. *)
Fixpoint loop (fuel : nat) (body : M S bool) : M S unit :=
  match fuel with
  | O => skip
  | Datatypes.S fuel => go ← body; if go : bool then loop fuel body else skip
  end.
End operations.

Lemma bind_run {S A B} (m : M S A) (f : A -> M S B) s :
  (m ≫= f) s = f (fst (m s)) (snd (m s)).
Proof. unfold mbind, M_bind. by destruct (m s). Qed.

(** The last of a sequence of calls. *)
Lemma then_run2 {S A B C} (a : M S A) (b : M S B) (c : M S C) s :
  (a ;; b ;; c) s = c (snd ((a ;; b) s)).
Proof. by rewrite !bind_run. Qed.
Lemma then_run3 {S A B C D} (a : M S A) (b : M S B) (c : M S C) (d : M S D) s :
  (a ;; b ;; c ;; d) s = d (snd ((a ;; b ;; c) s)).
Proof. by rewrite !bind_run. Qed.

(** ** Relations every call respects *)

Definition keeps {S A} (R : relation S) (m : M S A) : Prop := forall s, R s (snd (m s)).

Create HintDb keeps.

Section keeps.
Context {S : Type} (R : relation S) `{!PreOrder R}.

Lemma keeps_ret {A} (a : A) : keeps R (mret a).
Proof. intros s. simpl. reflexivity. Qed.
Lemma keeps_gets {A} (f : S -> A) : keeps R (gets f).
Proof. intros s. simpl. reflexivity. Qed.
Lemma keeps_skip : keeps R skip.
Proof. apply keeps_ret. Qed.
Lemma keeps_bind {A B} (m : M S A) (f : A -> M S B) :
  keeps R m -> (forall a, keeps R (f a)) -> keeps R (m ≫= f).
Proof. intros Hm Hf s. rewrite bind_run. etrans; [apply Hm|apply Hf]. Qed.
Lemma keeps_modify (f : S -> S) : (forall s, R s (f s)) -> keeps R (modify f).
Proof. intros Hf s. apply Hf. Qed.
Lemma keeps_if {A} (b : bool) (m1 m2 : M S A) : keeps R m1 -> keeps R m2 -> keeps R (if b then m1 else m2).
Proof. by destruct b. Qed.
Lemma keeps_when (b : bool) (m : M S unit) : keeps R m -> keeps R (when b m).
Proof. intros. apply keeps_if; [done|apply keeps_skip]. Qed.
Lemma keeps_option {A B} (o : option A) (f : A -> M S B) (m : M S B) :
  (forall a, keeps R (f a)) -> keeps R m -> keeps R (match o with Some a => f a | None => m end).
Proof. intros; by destruct o. Qed.
Lemma keeps_for_each {A} (l : list A) (body : A -> M S unit) :
  (forall a, keeps R (body a)) -> keeps R (for_each l body).
Proof.
  intros Hb. induction l as [|x l IH]; [apply keeps_skip|]. cbn [for_each]. by apply keeps_bind.
Qed.
Lemma keeps_loop fuel (body : M S bool) : keeps R body -> keeps R (loop fuel body).
Proof.
  intros Hb. induction fuel as [|fuel IH]; [apply keeps_skip|]. cbn [loop].
  apply keeps_bind; [done|]. intros []; [done|apply keeps_skip].
Qed.
End keeps.

(** Decompose a call into the calls it is made of; those it cannot take apart are
    looked up in the hint database. *)
Ltac keeps_step :=
  lazymatch goal with
  | |- keeps ?R (mbind _ _) => apply (keeps_bind R); [|intros ?]
  | |- keeps ?R (when _ _) => apply (keeps_when R)
  | |- keeps ?R (for_each _ _) => apply (keeps_for_each R); intros ?
  | |- keeps ?R (loop _ _) => apply (keeps_loop R)
  | |- keeps ?R (mret _) => apply (keeps_ret R)
  | |- keeps ?R skip => apply (keeps_skip R)
  | |- keeps ?R (gets _) => apply (keeps_gets R)
  | |- keeps _ (match ?x with _ => _ end) => let E := fresh "E" in destruct x eqn:E
  | |- _ => solve [auto with keeps]
  end.
Ltac keeps_steps := cbv zeta; repeat (keeps_step; cbv beta zeta).

(** ** Assertions before and after a call *)

Definition triple {S A} (P : S -> Prop) (m : M S A) (Q : A -> S -> Prop) : Prop :=
  forall s, P s -> Q (fst (m s)) (snd (m s)).

Section triple.
Context {S : Type}.
Implicit Types P : S -> Prop.

Lemma triple_ret {A} P (a : A) : triple P (mret a) (fun x s => x = a /\ P s).
Proof. by intros s Hs. Qed.
Lemma triple_bind {A B} P (m : M S A) (f : A -> M S B) Q1 Q2 :
  triple P m Q1 -> (forall a, triple (Q1 a) (f a) Q2) -> triple P (m ≫= f) Q2.
Proof. intros Hm Hf s Hs. rewrite bind_run. apply Hf, Hm, Hs. Qed.
Lemma triple_modify P (f : S -> S) Q : (forall s, P s -> Q (f s)) -> triple P (modify f) (fun _ => Q).
Proof. intros Hf s Hs. by apply Hf. Qed.
Lemma triple_if {A} P (b : bool) (m1 m2 : M S A) Q :
  (b = true -> triple P m1 Q) -> (b = false -> triple P m2 Q) -> triple P (if b then m1 else m2) Q.
Proof. destruct b; auto. Qed.
Lemma triple_weaken {A} P P' (m : M S A) Q Q' :
  triple P' m Q' -> (forall s, P s -> P' s) -> (forall a s, Q' a s -> Q a s) -> triple P m Q.
Proof. intros Hm HP HQ s Hs. by apply HQ, Hm, HP. Qed.
End triple.
