(* ===== verification/Ring.v ===== *)
(** * Ring buffers

    The program keeps its queues in arrays indexed modulo their size. [ring_read]
    is the window of [n] consecutive slots from an index; the lemmas say what
    the array writes of the code do to it. *)

From S2P Require Import Prelude.

Section ring.
Context {A : Type} (d : A).
Implicit Types (slots : list A) (x : A).

Definition slot slots (i : Z) : A := nth (Z.to_nat i) slots d.
Definition set_slot slots (i : Z) x : list A := <[Z.to_nat i := x]> slots.

Fixpoint ring_read slots (start : Z) (n : nat) : list A :=
  match n with
  | O => []
  | S n => slot slots (start mod zlen slots) :: ring_read slots (start + 1) n
  end.

Lemma zlen_set_slot slots i x : zlen (set_slot slots i x) = zlen slots.
Proof. unfold zlen, set_slot. by rewrite length_insert. Qed.

Lemma slot_set_same slots i x : 0 <= i < zlen slots -> slot (set_slot slots i x) i = x.
Proof.
  intros. unfold slot, set_slot. apply nth_lookup_Some, list_lookup_insert_eq. zlia.
Qed.
Lemma slot_set_other slots i j x :
  0 <= i -> 0 <= j -> i <> j -> slot (set_slot slots i x) j = slot slots j.
Proof.
  intros. unfold slot, set_slot. rewrite !nth_lookup, list_lookup_insert_ne by lia. done.
Qed.

Lemma ring_read_length slots start n : length (ring_read slots start n) = n.
Proof. revert start; induction n; intros; simpl; auto. Qed.
Lemma zlen_ring_read slots start n : zlen (ring_read slots start n) = Z.of_nat n.
Proof. unfold zlen. by rewrite ring_read_length. Qed.

Lemma ring_read_mod slots start n :
  ring_read slots (start mod zlen slots) n = ring_read slots start n.
Proof.
  destruct (Z.eq_dec (zlen slots) 0) as [E|Hne].
  - by rewrite E, Z.mod_0_r.
  - revert start. induction n as [|n IH]; intros start; [done|]. simpl.
    rewrite Zmod_mod. f_equal. rewrite <- (IH (start mod zlen slots + 1)), <- (IH (start + 1)).
    by rewrite Zplus_mod_idemp_l.
Qed.

Lemma ring_read_snoc slots start n :
  ring_read slots start (S n)
  = ring_read slots start n ++ [slot slots ((start + Z.of_nat n) mod zlen slots)].
Proof.
  revert start. induction n as [|n IH]; intros start.
  - simpl. by rewrite Z.add_0_r.
  - change (ring_read slots start (S (S n)))
      with (slot slots (start mod zlen slots) :: ring_read slots (start + 1) (S n)).
    rewrite IH. by replace (start + 1 + Z.of_nat n) with (start + Z.of_nat (S n)) by lia.
Qed.

(** Writing outside the window leaves it as it was. *)
Lemma ring_read_set_out slots start n k x :
  0 <= k -> 0 < zlen slots ->
  (forall i, 0 <= i < Z.of_nat n -> (start + i) mod zlen slots <> k) ->
  ring_read (set_slot slots k x) start n = ring_read slots start n.
Proof.
  intros Hk HN. revert start. induction n as [|n IH]; intros start Hout; [done|].
  simpl. rewrite zlen_set_slot. f_equal.
  - apply slot_set_other; [done|by apply Z.mod_pos_bound|].
    specialize (Hout 0). rewrite Z.add_0_r in Hout. intros ->. by apply Hout; [lia|].
  - apply IH. intros i Hi. replace (start + 1 + i) with (start + (i + 1)) by lia.
    apply Hout. lia.
Qed.

Lemma mod_distinct start i j N :
  0 < N -> 0 <= i -> i < j -> j - i < N -> (start + i) mod N <> (start + j) mod N.
Proof.
  intros HN Hi Hij Hd E.
  assert ((j - i) mod N = 0) as H0.
  { replace (j - i) with ((start + j) - (start + i)) by lia.
    rewrite Zminus_mod, E, Z.sub_diag. by apply Z.mod_0_l; lia. }
  rewrite Z.mod_small in H0 by lia. lia.
Qed.

(** Writing the slot after a window that does not fill the array appends. *)
Lemma ring_read_push slots start n x :
  0 < zlen slots -> Z.of_nat n < zlen slots ->
  ring_read (set_slot slots ((start + Z.of_nat n) mod zlen slots) x) start (S n)
  = ring_read slots start n ++ [x].
Proof.
  intros HN Hn. pose proof (Z.mod_pos_bound (start + Z.of_nat n) (zlen slots) HN).
  rewrite ring_read_snoc, zlen_set_slot, slot_set_same by lia. f_equal.
  apply ring_read_set_out; [lia|done|]. intros i Hi. apply mod_distinct; lia.
Qed.

(** Overwriting the oldest slot of a full window drops it and appends. *)
Lemma ring_read_overwrite slots start n x :
  zlen slots = Z.of_nat (S n) ->
  ring_read (set_slot slots (start mod zlen slots) x) (start + 1) (S n)
  = tail (ring_read slots start (S n)) ++ [x].
Proof.
  intros HN. simpl tail. assert (0 < zlen slots) by lia.
  replace (start mod zlen slots) with ((start + 1 + Z.of_nat n) mod zlen slots).
  - apply ring_read_push; lia.
  - replace (start + 1 + Z.of_nat n) with (start + 1 * zlen slots) by lia. by rewrite Z_mod_plus_full.
Qed.

(** Windows and list indices. *)
Lemma ring_read_lookup_nat slots n : forall start k,
  (k < n)%nat ->
  ring_read slots start n !! k = Some (slot slots ((start + Z.of_nat k) mod zlen slots)).
Proof.
  induction n as [|n IH]; intros start [|k] Hk; try lia; simpl.
  - by rewrite Z.add_0_r.
  - rewrite IH by lia. do 3 f_equal. lia.
Qed.
Lemma ring_read_lookup slots start n k :
  0 <= k < Z.of_nat n ->
  ring_read slots start n !! Z.to_nat k = Some (slot slots ((start + k) mod zlen slots)).
Proof. intros. rewrite ring_read_lookup_nat by lia. by rewrite Z2Nat.id by lia. Qed.

(** Writing inside a window that does not wrap onto itself updates one element. *)
Lemma ring_read_set slots start n k x :
  0 < zlen slots -> (k < n)%nat -> Z.of_nat n <= zlen slots ->
  ring_read (set_slot slots ((start + Z.of_nat k) mod zlen slots) x) start n
  = <[k := x]> (ring_read slots start n).
Proof.
  intros HN Hk Hn. apply list_eq. intros j.
  pose proof (Z.mod_pos_bound (start + Z.of_nat k) (zlen slots) HN).
  pose proof (Z.mod_pos_bound (start + Z.of_nat j) (zlen slots) HN).
  destruct (decide (j < n)%nat) as [Hj|Hj].
  - rewrite ring_read_lookup_nat, zlen_set_slot by done.
    destruct (decide (j = k)) as [->|Hne].
    + rewrite slot_set_same by done. rewrite list_lookup_insert_eq; [done|].
      by rewrite ring_read_length.
    + rewrite slot_set_other; [|lia|lia|].
      * rewrite list_lookup_insert_ne by done. by rewrite ring_read_lookup_nat.
      * destruct (decide (j < k)%nat).
        -- intros E. symmetry in E. revert E. apply mod_distinct; lia.
        -- apply mod_distinct; lia.
  - rewrite !lookup_ge_None_2; [done| |];
      rewrite ?length_insert, ring_read_length; lia.
Qed.

Lemma ring_read_take slots start n k :
  (k <= n)%nat -> ring_read slots start k = take k (ring_read slots start n).
Proof.
  revert start k. induction n as [|n IH]; intros start [|k] Hk; try done; [lia|].
  simpl. f_equal. apply IH. lia.
Qed.
Lemma ring_read_drop slots start n k :
  (k <= n)%nat ->
  ring_read slots (start + Z.of_nat k) (n - k) = drop k (ring_read slots start n).
Proof.
  revert start n. induction k as [|k IH]; intros start n Hk.
  - by rewrite Z.add_0_r, Nat.sub_0_r, drop_0.
  - destruct n as [|n]; [lia|]. simpl. rewrite <- IH by lia. f_equal. lia.
Qed.

(** Moving everything after slot [i] one slot down, [n] slots in all. *)
Fixpoint ring_shift (capacity : Z) slots (i : Z) (n : nat) : list A :=
  match n with
  | O => slots
  | S n => ring_shift capacity
             (set_slot slots (i mod capacity) (slot slots ((i + 1) mod capacity))) (i + 1) n
  end.

(** Deleting after copying the next element down. *)
Lemma delete_shift (l : list A) k x :
  l !! S k = Some x -> delete (S k) (<[k := x]> l) = delete k l.
Proof.
  revert k. induction l as [|y l IH]; intros [|k] H; simpl in *; try done.
  - destruct l; simpl in *; [done|]. by injection H as <-.
  - by rewrite IH.
Qed.

Lemma ring_shift_spec cap n : forall slots start k,
  zlen slots = cap -> 0 <= start -> 0 < cap ->
  Z.of_nat k + Z.of_nat n + 1 <= cap ->
  zlen (ring_shift cap slots (start + Z.of_nat k) n) = cap /\
  ring_read (ring_shift cap slots (start + Z.of_nat k) n) start (k + n)
  = delete k (ring_read slots start (k + n + 1)).
Proof.
  induction n as [|n IH]; intros slots start k Hlen Hs Hcap Hk.
  - simpl. split; [done|]. rewrite Nat.add_0_r, Nat.add_1_r, ring_read_snoc.
    pose proof (ring_read_length slots start k) as E.
    rewrite <- E at 2. by rewrite delete_middle, app_nil_r.
  - simpl. replace (start + Z.of_nat k + 1) with (start + Z.of_nat (S k)) by lia.
    set (x := slot slots ((start + Z.of_nat (S k)) mod cap)).
    destruct (IH (set_slot slots ((start + Z.of_nat k) mod cap) x) start (S k)) as [H1 H2];
      [by rewrite zlen_set_slot|done|done|lia|].
    split; [done|]. replace (k + S n)%nat with (S k + n)%nat by lia. rewrite H2.
    rewrite <- Hlen, ring_read_set by lia. apply delete_shift.
    rewrite ring_read_lookup_nat by lia. by rewrite Hlen.
Qed.
End ring.

(** ** Rings with a head, a tail and a count *)

Section counted.
Context {A : Type} (d : A).
Implicit Types (slots : list A).

Record ring_ok (N : Z) slots (head tail count : Z) : Prop := {
  ring_ok_len : zlen slots = N;
  ring_ok_tail : 0 <= tail < N;
  ring_ok_count : 0 <= count <= N;
  ring_ok_head : head = (tail + count) mod N
}.

(** The elements, oldest first. *)
Definition ring_items slots (tail count : Z) : list A := ring_read d slots tail (Z.to_nat count).

Lemma ring_items_length N slots head tail count :
  ring_ok N slots head tail count -> zlen (ring_items slots tail count) = count.
Proof. intros []. unfold ring_items. rewrite zlen_ring_read. lia. Qed.

Lemma ring_ok_push N slots head tail count x :
  ring_ok N slots head tail count -> count < N ->
  ring_ok N (set_slot slots head x) ((head + 1) mod N) tail (count + 1)
  /\ ring_items (set_slot slots head x) tail (count + 1) = ring_items slots tail count ++ [x].
Proof.
  intros [H1 H2 H3 ->] Hr. split.
  - split; rewrite ?zlen_set_slot; try (done || lia). rewrite Zplus_mod_idemp_l. f_equal. lia.
  - unfold ring_items. replace (Z.to_nat (count + 1)) with (S (Z.to_nat count)) by lia.
    rewrite <- ring_read_push by lia. rewrite H1. by rewrite Z2Nat.id by lia.
Qed.

Lemma ring_ok_pop N slots head tail count :
  ring_ok N slots head tail count -> 0 < count ->
  ring_ok N slots head ((tail + 1) mod N) (count - 1)
  /\ ring_items slots tail count = slot d slots tail :: ring_items slots ((tail + 1) mod N) (count - 1).
Proof.
  intros [H1 H2 H3 ->] Hr. split.
  - split; try (done || lia); [apply Z.mod_pos_bound; lia|]. rewrite Zplus_mod_idemp_l. f_equal. lia.
  - unfold ring_items. replace (Z.to_nat count) with (S (Z.to_nat (count - 1))) by lia. simpl.
    rewrite H1, Z.mod_small by lia. f_equal. rewrite <- H1. by rewrite ring_read_mod.
Qed.

Lemma ring_ok_lookup N slots head tail count k :
  ring_ok N slots head tail count -> 0 <= k < count ->
  ring_items slots tail count !! Z.to_nat k = Some (slot d slots ((tail + k) mod N)).
Proof. intros [H1 _ _ _] Hk. unfold ring_items. rewrite <- H1. apply ring_read_lookup. lia. Qed.

(** Closing the gap at the [k]-th element. *)
Lemma ring_ok_remove N slots head tail count k :
  ring_ok N slots head tail count -> 0 <= k < count ->
  let slots' := ring_shift d N slots (tail + k) (Z.to_nat (count - 1 - k)) in
  ring_ok N slots' ((head + N - 1) mod N) tail (count - 1)
  /\ ring_items slots' tail (count - 1) = delete (Z.to_nat k) (ring_items slots tail count).
Proof.
  intros [H1 H2 H3 ->] Hk. unfold ring_items.
  destruct (ring_shift_spec d N (Z.to_nat (count - 1 - k)) slots tail (Z.to_nat k)) as [E1 E2]; [done|lia..|].
  rewrite Z2Nat.id in * by lia. split.
  - split; try (done || lia). replace ((tail + count) mod N + N - 1) with ((tail + count) mod N + (N - 1)) by lia.
    rewrite Zplus_mod_idemp_l. replace (tail + count + (N - 1)) with (tail + (count - 1) + 1 * N) by lia.
    by rewrite Z_mod_plus_full.
  - replace (Z.to_nat (count - 1)) with (Z.to_nat k + Z.to_nat (count - 1 - k))%nat by lia.
    rewrite E2. do 2 f_equal. lia.
Qed.
End counted.
