(* ===== verification/CString.v ===== *)
(** * C strings

    The character classes and string searches of the C library that the
    components share, on the bytes of a string without its NUL. A pointer into a
    string is the suffix that starts there. *)

From S2P Require Import Prelude.

(** [tolower] and [isspace] of the C locale. *)
Definition tolower (c : Z) : Z := if (65 <=? c) && (c <=? 90) then c + 32 else c.
Definition isspace (c : Z) : bool := (c =? 32) || ((9 <=? c) && (c <=? 13)).

Fixpoint trim_start (p : Z -> bool) (s : list Z) : list Z :=
  match s with
  | [] => []
  | c :: s' => if p c then trim_start p s' else s
  end.
Definition trim_end (p : Z -> bool) (s : list Z) : list Z := rev (trim_start p (rev s)).
Definition trim (p : Z -> bool) (s : list Z) : list Z := trim_end p (trim_start p s).

Fixpoint prefixb (p s : list Z) : bool :=
  match p, s with
  | [], _ => true
  | c :: p, d :: s => (c =? d) && prefixb p s
  | _, [] => false
  end.
(** [strstr(s, p) != NULL] *)
Fixpoint strstr (s p : list Z) : bool :=
  prefixb p s || match s with [] => false | _ :: s => strstr s p end.

(** [strstr(s, p)] and [strchr(s, c)]: the suffix at the first match. *)
Fixpoint strstr_from (s p : list Z) : option (list Z) :=
  if prefixb p s then Some s
  else match s with [] => None | _ :: s => strstr_from s p end.
Fixpoint strchr_from (s : list Z) (c : Z) : option (list Z) :=
  match s with
  | [] => None
  | d :: s' => if d =? c then Some s else strchr_from s' c
  end.

(** [strrchr(s, c)]: the index of the last [c]. *)
Fixpoint strrchr (s : list Z) (c : Z) : option Z :=
  match s with
  | [] => None
  | d :: s =>
      match strrchr s c with
      | Some i => Some (i + 1)
      | None => if d =? c then Some 0 else None
      end
  end.

(** [snprintf] of ["%d"] and the like. Each iteration of the loop writes a digit;
    [fuel] 20 is enough for 64 bits. *)
Fixpoint decimal_loop (fuel : nat) (n : Z) (acc : list Z) : list Z :=
  match fuel with
  | O => acc
  | S fuel =>
      let acc := 48 + n mod 10 :: acc in
      if n <? 10 then acc else decimal_loop fuel (n / 10) acc
  end.
Definition decimal (n : Z) : list Z :=
  if n <? 0 then 45 :: decimal_loop 20 (- n) [] else decimal_loop 20 n [].

(** ["%0*llu"] *)
Definition padded (width n : Z) : list Z :=
  let digits := decimal n in zreplicate (width - zlen digits) 48 ++ digits.

(** [strtol(s, &end, 10)] when it converts all of a non-empty string
    ([end != s && *end == '\0']); it saturates at the range of [long]. *)
Definition is_digit (c : Z) : bool := (48 <=? c) && (c <=? 57).
Definition digits_val (ds : list Z) : Z := fold_left (fun a c => a * 10 + (c - 48)) ds 0.
Definition strtol_whole (s : list Z) : option Z :=
  let s := trim_start isspace s in
  let '(negative, ds) :=
    match s with
    | c :: r => if c =? 45 then (true, r) else if c =? 43 then (false, r) else (false, s)
    | [] => (false, s)
    end in
  if (zlen ds =? 0) || negb (forallb is_digit ds) then None
  else Some (if negative : bool then Z.max INT64_MIN (- digits_val ds) else Z.min INT64_MAX (digits_val ds)).

(** [snprintf] into a buffer of [n] bytes: the text when it fits with its NUL. *)
Definition sized (n : Z) (s : list Z) : option (list Z) := if zlen s <? n then Some s else None.
Lemma prefixb_app p s : prefixb p (p ++ s) = true.
Proof. induction p as [|c p IH]; [done|]. cbn. by rewrite Z.eqb_refl. Qed.
Lemma prefixb_inv p : forall s, prefixb p s = true -> exists t, s = p ++ t.
Proof.
  induction p as [|c p IH]; intros s; [by exists s|]. destruct s as [|d s]; [done|]. cbn. rewrite andb_true_iff, Z.eqb_eq.
  intros [-> Hs]. destruct (IH s Hs) as [t ->]. by exists t.
Qed.
Lemma sized_inv n s t : sized n s = Some t -> t = s /\ zlen s < n.
Proof. unfold sized. case_goal; bool_to_prop; [intros [= ->]; by split|done]. Qed.

Lemma no_nul_app l k : no_nul (l ++ k) <-> no_nul l /\ no_nul k.
Proof. apply Forall_app. Qed.
Lemma no_nul_rev l : no_nul (rev l) <-> no_nul l.
Proof. unfold no_nul. rewrite !List.Forall_forall. by setoid_rewrite <- in_rev. Qed.
Lemma trim_start_suffix p l : exists k, l = k ++ trim_start p l.
Proof.
  induction l as [|c l [k IH]]; simpl; [by exists []|].
  destruct (p c); [|by exists []]. exists (c :: k). simpl. by rewrite <- IH.
Qed.
Lemma trim_start_no_nul p l : no_nul l -> no_nul (trim_start p l).
Proof. destruct (trim_start_suffix p l) as [k E]. rewrite E at 1. by intros [_ ?]%no_nul_app. Qed.

Lemma strrchr_bound s c i : strrchr s c = Some i -> 0 <= i < zlen s.
Proof.
  revert i. induction s as [|d s IH]; intros i; simpl; [done|]. rewrite zlen_cons.
  pose proof (zlen_nonneg s). destruct (strrchr s c) as [j|].
  - intros [= <-]. specialize (IH j eq_refl). lia.
  - destruct (d =? c); [|done]. intros [= <-]. lia.
Qed.

(** The printed digits read back as the number. *)
Lemma decimal_loop_spec fuel n acc :
  0 <= n < 10 ^ Z.of_nat fuel ->
  exists ds, decimal_loop fuel n acc = ds ++ acc /\ ds <> [] /\ forallb is_digit ds = true
    /\ digits_val ds = n \/ n = 0 /\ fuel = O.
Proof.
  revert n acc. induction fuel as [|fuel IH]; intros n acc Hn; [exists []; right; simpl in Hn; lia|].
  cbn [decimal_loop]. assert (is_digit (48 + n mod 10) = true) as Hd.
  { pose proof (Z.mod_pos_bound n 10). unfold is_digit. lia. }
  destruct (Z.ltb_spec n 10).
  - exists [48 + n mod 10]. left. cbn [forallb]. rewrite Hd. rewrite Z.mod_small by lia.
    split_and!; try done. unfold digits_val. cbn [fold_left]. lia.
  - rewrite Nat2Z.inj_succ, Z.pow_succ_r in Hn by lia.
    destruct (IH (n / 10) (48 + n mod 10 :: acc)) as (ds & [(E & Hne & Hf & Hv)|[Hz _]]).
    { split; [apply Z.div_pos; lia|]. apply Z.div_lt_upper_bound; lia. }
    + exists (ds ++ [48 + n mod 10]). left. rewrite E, <- app_assoc. split; [done|].
      split; [by destruct ds|]. rewrite forallb_app, Hf. cbn [forallb]. rewrite Hd. split; [done|].
      unfold digits_val in *. rewrite fold_left_app, Hv. cbn [fold_left]. pose proof (Z.div_mod n 10). lia.
    + exfalso. apply Z.div_small_iff in Hz; lia.
Qed.

Lemma decimal_spec n :
  0 <= n < 10 ^ 20 -> decimal n <> [] /\ forallb is_digit (decimal n) = true /\ digits_val (decimal n) = n.
Proof.
  intros Hn. unfold decimal. destruct (Z.ltb_spec n 0); [lia|].
  destruct (decimal_loop_spec 20 n [] Hn) as (ds & [(-> & Hne & Hf & Hv)|[_ [=]]]).
  by rewrite app_nil_r.
Qed.
Lemma strtol_decimal n : 0 <= n <= INT64_MAX -> strtol_whole (decimal n) = Some n.
Proof.
  intros Hn. destruct (decimal_spec n) as (Hne & Hf & Hv); [unfold INT64_MAX in Hn; lia|].
  unfold strtol_whole. destruct (decimal n) as [|c ds] eqn:E; [done|].
  cbn [forallb] in Hf. apply andb_prop in Hf as [Hc Hf]. unfold is_digit in Hc. cbn [trim_start].
  replace (isspace c) with false by (unfold isspace; lia).
  replace (c =? 45) with false by lia. replace (c =? 43) with false by lia.
  replace (zlen (c :: ds) =? 0) with false by (rewrite zlen_cons; pose proof (zlen_nonneg ds); lia).
  cbn [forallb]. replace (is_digit c) with true by (unfold is_digit; lia). rewrite Hf. simpl orb. cbv iota.
  rewrite Hv. f_equal. lia.
Qed.

(** How long printed numbers are. *)
Lemma decimal_small n : 0 <= n < 1000 -> zlen (decimal n) <= 3.
Proof.
  intros Hn. unfold decimal. replace (n <? 0) with false by lia. cbn [decimal_loop].
  repeat (case_goal; bool_to_prop; [unfold zlen; simpl; lia|]). exfalso.
  pose proof (Z.div_lt_upper_bound n 10 100). pose proof (Z.div_lt_upper_bound (n / 10) 10 10). lia.
Qed.
Lemma zlen_padded n : 0 <= n < 1000 -> zlen (padded 3 n) = 3.
Proof. intros Hn. unfold padded. pose proof (decimal_small n Hn). rewrite zlen_app, zlen_replicate; lia. Qed.
Lemma decimal_length_loop fuel n acc : zlen (decimal_loop fuel n acc) <= Z.of_nat fuel + zlen acc.
Proof.
  revert n acc. induction fuel as [|fuel IH]; intros n acc; cbn [decimal_loop]; [lia|].
  case_goal; [rewrite zlen_cons; lia|]. etrans; [apply IH|]. rewrite zlen_cons. lia.
Qed.
Lemma decimal_length_any n : zlen (decimal n) <= 21.
Proof.
  unfold decimal. pose proof (decimal_length_loop 20 n []) as H1. pose proof (decimal_length_loop 20 (- n) []) as H2.
  rewrite zlen_nil in *. case_goal; rewrite ?zlen_cons; lia.
Qed.
Lemma decimal_length n : 0 <= n -> zlen (decimal n) <= 20.
Proof. intros Hn. unfold decimal. replace (n <? 0) with false by lia. etrans; [apply decimal_length_loop|]. by rewrite zlen_nil. Qed.
