(* ===== verification/Log.v ===== *)
(** * Diagnostic events

    [src/protocol/src/vw_log.c]: the table of sinks, the log file and the writing of an
    event, and the adapter of [src/plugin/include/vw_plugin_log_scope_override.h] by which
    each plugin instance registers a sink of its own. Every function runs under one mutex
    (the switch is an atomic), so each is one step on the state; the text of an event is
    what [vsnprintf] makes of its format. *)

From stdpp Require Import relations.
From S2P Require Import Prelude.
From S2P Require Import CString.
From S2P Require Import State.
#[local] Open Scope Z_scope.

Definition VW_LOG_MAX_SINKS : nat := 16.

(** A callback and its data, both addresses: 0 is [NULL]. *)
Record vw_log_sink_entry_t := mk_sink { sk_sink : Z; sk_user_data : Z }.
#[global] Instance sink_entry_eq_dec : EqDecision vw_log_sink_entry_t.
Proof. solve_decision. Defined.

(** What comes out. *)
Inductive log_output :=
  | ToSink (to : vw_log_sink_entry_t) (level : Z) (event_id message : list Z)
  | ToStderr (line : list Z)
  | StderrFlushed
  | ToFile (file : Z) (line : list Z)
  | FileFlushed (file : Z).
#[global] Instance log_output_eq_dec : EqDecision log_output.
Proof. solve_decision. Defined.

(** [g_log_sinks] up to [g_log_sink_count], [g_log_file], [g_log_enabled]. *)
Record vw_log := mk_log { lg_sinks : list vw_log_sink_entry_t; lg_file : option Z; lg_enabled : bool; lg_out : list log_output }.
#[global] Instance settable_vw_log : Settable vw_log := fun s => mk_log (lg_sinks s) (lg_file s) (lg_enabled s) (lg_out s).
#[global] Instance set_lg_sinks : Setter lg_sinks := ltac:(setter).
#[global] Instance set_lg_file : Setter lg_file := ltac:(setter).
#[global] Instance set_lg_enabled : Setter lg_enabled := ltac:(setter).
#[global] Instance set_lg_out : Setter lg_out := ltac:(setter).
Definition new_log : vw_log := mk_log [] None false [].

Definition log_out (o : list log_output) (s : vw_log) : vw_log := s <| lg_out := lg_out s ++ o |>.

(** ** The sinks *)

(** The first index at which [p] holds. *)
Fixpoint index_of {A} (p : A -> bool) (l : list A) : option nat :=
  match l with
  | [] => None
  | x :: l => if p x then Some O else S <$> index_of p l
  end.

(** Already registered: by its data, or a callback without data. *)
Definition same_sink (sink user_data : Z) (e : vw_log_sink_entry_t) : bool :=
  (negb (user_data =? 0) && (sk_user_data e =? user_data))
  || ((user_data =? 0) && (sk_sink e =? sink) && (sk_user_data e =? 0)).
Definition register_sink (sink user_data : Z) (l : list vw_log_sink_entry_t) : list vw_log_sink_entry_t :=
  match index_of (same_sink sink user_data) l with
  | Some i => <[i := mk_sink sink user_data]> l
  | None =>
      if bool_decide (length l < VW_LOG_MAX_SINKS)%nat then l ++ [mk_sink sink user_data]
      else <[(VW_LOG_MAX_SINKS - 1)%nat := mk_sink sink user_data]> l
  end.
Definition unregister_sink (user_data : Z) (l : list vw_log_sink_entry_t) : list vw_log_sink_entry_t :=
  if negb (user_data =? 0) then
    match index_of (fun e => sk_user_data e =? user_data) l with
    | Some i => take i l ++ drop (S i) l
    | None => l
    end
  else take (length l - 1) l.
Definition vw_log_set_sink (sink user_data : Z) (s : vw_log) : vw_log :=
  s <| lg_sinks := if negb (sink =? 0) then register_sink sink user_data (lg_sinks s)
                   else unregister_sink user_data (lg_sinks s) |>.

(** The plugin's calls: an anonymous removal is the instance's own. *)
Definition vw_plugin_log_set_sink_scoped (sink user_data instance : Z) (s : vw_log) : vw_log :=
  if (sink =? 0) && (user_data =? 0) then vw_log_set_sink 0 instance s else vw_log_set_sink sink user_data s.

(** ** The file *)

Definition vw_log_set_enabled (enabled : bool) (s : vw_log) : vw_log := s <| lg_enabled := enabled |>.

Definition vw_log_set_file (file : option Z) (s : vw_log) : vw_log :=
  (match lg_file s with
   | Some old => if bool_decide (file = Some old) then s else log_out [FileFlushed old] s
   | None => s
   end) <| lg_file := file |>.

Definition vw_log_flush (s : vw_log) : vw_log :=
  log_out (match lg_file s with Some f => [FileFlushed f] | None => [] end ++ [StderrFlushed]) s.

(** ** Events *)

Definition vw_log_level_to_string (level : Z) : list Z :=
  if level =? 0 then str "DEBUG"
  else if level =? 1 then str "INFO"
  else if level =? 2 then str "WARN"
  else if level =? 3 then str "ERROR"
  else str "UNKNOWN".
Definition log_line (level : Z) (event_id message : list Z) : list Z :=
  str "[" ++ vw_log_level_to_string level ++ str "] [" ++ event_id ++ str "] " ++ message ++ [10].

Definition vw_log_write (level : Z) (event_id message : list Z) (s : vw_log) : vw_log :=
  let line := log_line level event_id message in
  log_out
    ((match lg_sinks s with
      | [] => [ToStderr line; StderrFlushed]
      | sinks => concat (map (fun e => if negb (sk_sink e =? 0) then [ToSink e level event_id message] else []) sinks)
      end)
     ++ match lg_file s with Some f => [ToFile f line; FileFlushed f] | None => [] end) s.

(** [formatted]: the whole text; the buffer holds 1024 bytes. *)
Definition vw_log_event (level : Z) (event_id : option (list Z)) (formatted : list Z) (s : vw_log) : vw_log :=
  if negb (lg_enabled s) then s
  else vw_log_write level (default (str "UNKNOWN_EVENT") event_id) (ztake 1023 formatted) s.

(** ** What the threads do, in any order of the locked regions *)

Inductive log_call :=
  | SetEnabled (enabled : bool)
  | SetSink (sink user_data : Z)
  | SetFile (file : option Z)
  | Flush
  | Write (level : Z) (event_id message : list Z).
#[global] Instance log_call_eq_dec : EqDecision log_call.
Proof. solve_decision. Defined.

(** An event's switch is read before the lock: the write may come after a later change. *)
Definition log_step (s : vw_log) (c : log_call) : vw_log :=
  match c with
  | SetEnabled enabled => vw_log_set_enabled enabled s
  | SetSink sink user_data => vw_log_set_sink sink user_data s
  | SetFile file => vw_log_set_file file s
  | Flush => vw_log_flush s
  | Write level event_id message => vw_log_write level event_id message s
  end.
Definition log_run (s : vw_log) (calls : list log_call) : vw_log := fold_left log_step calls s.

(** ** The sinks of an instance *)

Definition of_instance (user_data : Z) (l : list vw_log_sink_entry_t) : list vw_log_sink_entry_t :=
  filter (fun e => sk_user_data e = user_data) l.
(** What was delivered to it. *)
Definition delivered (user_data : Z) (out : list log_output) : list (Z * (Z * list Z * list Z)) :=
  omap (fun o => match o with
                 | ToSink e level event_id message =>
                     if bool_decide (sk_user_data e = user_data) then Some (sk_sink e, (level, event_id, message)) else None
                 | _ => None
                 end) out.
Definition written (calls : list log_call) : list (Z * list Z * list Z) :=
  omap (fun c => match c with Write level event_id message => Some (level, event_id, message) | _ => None end) calls.
Definition registers (c : log_call) : bool := match c with SetSink sink _ => negb (sink =? 0) | _ => false end.
Definition registrations (calls : list log_call) : nat := length (filter (fun c => registers c = true) calls).
(** Calls that do not register the instance, and calls of others. *)
Definition no_registration (user_data : Z) (c : log_call) : Prop :=
  match c with SetSink sink u => sink = 0 \/ u <> user_data | _ => True end.
Definition of_others (user_data : Z) (c : log_call) : Prop :=
  match c with SetSink sink u => u <> user_data /\ (sink = 0 -> u <> 0) | _ => True end.

(** ** Lemmas *)

Lemma index_of_some {A} (p : A -> bool) l : forall i, index_of p l = Some i ->
  exists a x b, l = a ++ x :: b /\ i = length a /\ p x = true.
Proof.
  induction l as [|y l IH]; intros i; cbn [index_of]; [done|]. destruct (p y) eqn:Hy.
  - intros [= <-]. by exists [], y, l.
  - destruct (index_of p l) as [j|]; [|done]. intros [= <-]. destruct (IH j eq_refl) as (a & x & b & -> & -> & Hx).
    by exists (y :: a), x, b.
Qed.
Lemma index_of_none {A} (p : A -> bool) l : index_of p l = None -> Forall (fun x => p x = false) l.
Proof.
  induction l as [|y l IH]; cbn [index_of]; [done|]. destruct (p y) eqn:Hy; [done|].
  destruct (index_of p l); [done|]. intros _. constructor; [done|by apply IH].
Qed.

Lemma drop_past {A} (a b : list A) x : drop (S (length a)) (a ++ x :: b) = b.
Proof. induction a as [|y a IH]; [done|exact IH]. Qed.

Section instance.
Context (ud : Z) (Hud : ud <> 0).

Lemma of_instance_app l k : of_instance ud (l ++ k) = of_instance ud l ++ of_instance ud k.
Proof. apply list.filter_app. Qed.
Lemma of_instance_one e : of_instance ud [e] = if bool_decide (sk_user_data e = ud) then [e] else [].
Proof. unfold of_instance. rewrite list.filter_cons, list.filter_nil. by case_decide; case_bool_decide. Qed.
Lemma of_instance_cons e l : of_instance ud (e :: l) = of_instance ud [e] ++ of_instance ud l.
Proof. by rewrite <- of_instance_app. Qed.
Lemma of_instance_none l : Forall (fun e => sk_user_data e <> ud) l -> of_instance ud l = [].
Proof.
  induction 1 as [|e l He _ IH]; [done|]. rewrite of_instance_cons, of_instance_one, IH. by case_bool_decide.
Qed.
Lemma of_instance_sublist l k : sublist l k -> (length (of_instance ud l) <= length (of_instance ud k))%nat.
Proof.
  induction 1 as [|e l k _ IH|e l k _ IH]; [done| |]; rewrite (of_instance_cons e k), length_app; [|lia].
  rewrite (of_instance_cons e l), length_app. lia.
Qed.

(** *** Registering *)

Lemma register_length sink u l : (length l <= VW_LOG_MAX_SINKS)%nat ->
  (length (register_sink sink u l) <= VW_LOG_MAX_SINKS /\ length (register_sink sink u l) <= S (length l))%nat.
Proof.
  intros Hl. unfold register_sink. destruct (index_of _ l); [rewrite length_insert; lia|].
  case_bool_decide; [rewrite length_app; cbn [length]; lia|rewrite length_insert; lia].
Qed.
(** The instance's own registration. *)
Lemma register_own sink l : (length (of_instance ud l) <= 1)%nat -> (length l <= VW_LOG_MAX_SINKS)%nat ->
  of_instance ud (register_sink sink ud l) = [mk_sink sink ud].
Proof.
  intros H1 Hn. unfold register_sink. destruct (index_of _ l) as [i|] eqn:Hi.
  - destruct (index_of_some _ _ _ Hi) as (a & x & b & -> & -> & Hx). assert (sk_user_data x = ud) as Hux by (unfold same_sink in Hx; lia).
    rewrite of_instance_app, (of_instance_cons x b), of_instance_one, bool_decide_eq_true_2, !length_app in H1 by done. cbn [length] in H1.
    rewrite insert_app_r_alt, Nat.sub_diag by lia. cbn [insert list_insert]. rewrite of_instance_app, (of_instance_cons _ b), of_instance_one.
    rewrite bool_decide_eq_true_2 by done. cbn [sk_user_data].
    destruct (of_instance ud a), (of_instance ud b); cbn [length] in H1; try lia. done.
  - assert (forall k, Forall (fun e => sk_user_data e <> ud) k -> of_instance ud (k ++ [mk_sink sink ud]) = [mk_sink sink ud]) as Hk.
    { intros k Hk. rewrite of_instance_app, of_instance_none, of_instance_one by done. by rewrite bool_decide_eq_true_2. }
    assert (Forall (fun e => sk_user_data e <> ud) l) as Hf.
    { eapply Forall_impl; [|exact (index_of_none _ _ Hi)]. cbv beta. unfold same_sink. intros e He. lia. }
    case_bool_decide as Hlt; [by apply Hk|].
    destruct l as [|last rest _] using rev_ind; [cbn in Hlt; unfold VW_LOG_MAX_SINKS in Hlt; lia|].
    rewrite length_app in Hlt, Hn. cbn [length] in Hlt, Hn. apply Forall_app in Hf as [Hf _].
    rewrite insert_app_r_alt by lia. replace (VW_LOG_MAX_SINKS - 1 - length rest)%nat with O by lia. by apply Hk.
Qed.
(** Another's: nothing changes, but a full table may lose the instance. *)
Lemma register_other sink u l : u <> ud -> (length l <= VW_LOG_MAX_SINKS)%nat ->
  (length (of_instance ud (register_sink sink u l)) <= length (of_instance ud l))%nat
  /\ ((length l < VW_LOG_MAX_SINKS)%nat -> of_instance ud (register_sink sink u l) = of_instance ud l).
Proof.
  intros Hu Hn. unfold register_sink. destruct (index_of _ l) as [i|] eqn:Hi.
  - destruct (index_of_some _ _ _ Hi) as (a & x & b & -> & -> & Hx). assert (sk_user_data x <> ud) as Hux by (unfold same_sink in Hx; lia).
    rewrite insert_app_r_alt, Nat.sub_diag by lia. cbn [insert list_insert].
    rewrite !of_instance_app, (of_instance_cons x b), (of_instance_cons (mk_sink _ _) b), !of_instance_one, !bool_decide_eq_false_2 by done.
    done.
  - case_bool_decide as Hlt.
    { rewrite of_instance_app, of_instance_one, bool_decide_eq_false_2, app_nil_r by done. done. }
    split; [|done]. destruct l as [|last rest _] using rev_ind; [cbn in Hlt; unfold VW_LOG_MAX_SINKS in Hlt; lia|].
    rewrite length_app in Hlt, Hn. cbn [length] in Hlt, Hn.
    rewrite insert_app_r_alt by lia. replace (VW_LOG_MAX_SINKS - 1 - length rest)%nat with O by lia. cbn [insert list_insert].
    rewrite !of_instance_app, (of_instance_one (mk_sink _ _)), bool_decide_eq_false_2, !length_app by done. cbn [length]. lia.
Qed.

(** *** Unregistering *)

Lemma unregister_sublist u l : sublist (unregister_sink u l) l.
Proof.
  unfold unregister_sink. case_goal; [|apply sublist_take]. destruct (index_of _ l) as [i|]; [|done]. rewrite <- delete_take_drop. apply sublist_delete.
Qed.
Lemma unregister_own l : (length (of_instance ud l) <= 1)%nat -> of_instance ud (unregister_sink ud l) = [].
Proof.
  intros H1. unfold unregister_sink. replace (negb (ud =? 0)) with true by lia. destruct (index_of _ l) as [i|] eqn:Hi.
  - destruct (index_of_some _ _ _ Hi) as (a & x & b & -> & -> & Hx). rewrite take_app_length.
    rewrite of_instance_app, (of_instance_cons x b), of_instance_one, bool_decide_eq_true_2, !length_app in H1 by lia. cbn [length] in H1.
    rewrite drop_past, of_instance_app.
    destruct (of_instance ud a), (of_instance ud b); cbn [length] in H1; try lia. done.
  - apply of_instance_none. eapply Forall_impl; [|exact (index_of_none _ _ Hi)]. cbv beta. lia.
Qed.
Lemma unregister_other u l : u <> ud -> u <> 0 -> of_instance ud (unregister_sink u l) = of_instance ud l.
Proof.
  intros Hu H0. unfold unregister_sink. replace (negb (u =? 0)) with true by lia. destruct (index_of _ l) as [i|] eqn:Hi; [|done].
  destruct (index_of_some _ _ _ Hi) as (a & x & b & -> & -> & Hx). rewrite take_app_length.
  rewrite drop_past.
  rewrite !of_instance_app, (of_instance_cons x b), of_instance_one, bool_decide_eq_false_2 by lia. done.
Qed.
End instance.

(** ** The table over any calls *)

Record log_ok (s : vw_log) : Prop := {
  ok_room : (length (lg_sinks s) <= VW_LOG_MAX_SINKS)%nat;
  ok_callable : Forall (fun e => sk_sink e <> 0) (lg_sinks s);
  ok_one : forall u, u <> 0 -> (length (of_instance u (lg_sinks s)) <= 1)%nat
}.

Lemma register_callable sink u l : sink <> 0 -> Forall (fun e => sk_sink e <> 0) l -> Forall (fun e => sk_sink e <> 0) (register_sink sink u l).
Proof.
  intros Hs Hl. unfold register_sink. destruct (index_of _ l); [by apply list.Forall_insert|].
  case_bool_decide; [by apply Forall_app; split; [|constructor]|by apply list.Forall_insert].
Qed.
Lemma set_sink_ok sink u s : log_ok s -> log_ok (vw_log_set_sink sink u s).
Proof.
  intros [Hn Hc H1]. unfold vw_log_set_sink. destruct (Z.eqb_spec sink 0) as [->|Hs]; cbn [negb].
  - set (l := unregister_sink _ _). pose proof (unregister_sublist u (lg_sinks s)) as Hl. fold l in Hl.
    split; cbn [lg_sinks set_field set_lg_sinks].
    + apply sublist_length in Hl. lia.
    + rewrite list.Forall_forall in Hc |- *. intros e He. apply Hc. eapply list.elem_of_sublist; eauto.
    + intros v Hv. pose proof (of_instance_sublist v _ _ Hl). specialize (H1 v Hv). lia.
  - split; cbn [lg_sinks set_field set_lg_sinks].
    + by apply register_length.
    + by apply register_callable.
    + intros v Hv. destruct (decide (u = v)) as [->|Hu]; [by rewrite register_own by auto|].
      pose proof (proj1 (register_other v Hv sink u (lg_sinks s) Hu Hn)). specialize (H1 v Hv). lia.
Qed.
Lemma log_step_sinks s c : match c with SetSink _ _ => True | _ => lg_sinks (log_step s c) = lg_sinks s end.
Proof. destruct c as [| |file| |]; try done. cbn. unfold vw_log_set_file. destruct (lg_file s); [|done]. by case_bool_decide. Qed.
Lemma log_ok_sinks s s' : lg_sinks s' = lg_sinks s -> log_ok s -> log_ok s'.
Proof. intros He [Hn Hc H1]. by split; rewrite He. Qed.
Lemma log_step_ok s c : log_ok s -> log_ok (log_step s c).
Proof.
  intros Hs. pose proof (log_step_sinks s c) as He. destruct c; try by apply (log_ok_sinks _ _ He). by apply set_sink_ok.
Qed.
Lemma log_run_ok calls : forall s, log_ok s -> log_ok (log_run s calls).
Proof. induction calls as [|c calls IH]; [done|]. intros s Hs. by apply IH, log_step_ok. Qed.
Lemma new_log_ok : log_ok new_log.
Proof. split; cbn; [unfold VW_LOG_MAX_SINKS; lia|constructor|lia]. Qed.
Lemma registrations_cons c calls : registrations (c :: calls) = ((if registers c then 1 else 0) + registrations calls)%nat.
Proof. unfold registrations. rewrite list.filter_cons. by case_decide; destruct (registers c). Qed.
Lemma log_step_length s c : log_ok s -> (length (lg_sinks (log_step s c)) <= length (lg_sinks s) + if registers c then 1 else 0)%nat.
Proof.
  intros [Hn _ _]. pose proof (log_step_sinks s c) as He. destruct c as [|sink u| | |]; try (rewrite He; lia).
  cbn [log_step registers vw_log_set_sink]. unfold vw_log_set_sink. cbn [lg_sinks set_field set_lg_sinks].
  destruct (negb (sink =? 0)); [pose proof (register_length sink u _ Hn); lia|].
  pose proof (sublist_length _ _ (unregister_sublist u (lg_sinks s))). lia.
Qed.
Lemma log_run_length calls : forall s, log_ok s -> (length (lg_sinks (log_run s calls)) <= length (lg_sinks s) + registrations calls)%nat.
Proof.
  induction calls as [|c calls IH]; intros s Hs; [cbn; lia|]. rewrite registrations_cons.
  pose proof (IH _ (log_step_ok s c Hs)). pose proof (log_step_length s c Hs). change (log_run s (c :: calls)) with (log_run (log_step s c) calls). lia.
Qed.

(** *** What an instance is given *)

Lemma delivered_app u l k : delivered u (l ++ k) = delivered u l ++ delivered u k.
Proof. apply omap_app. Qed.
Lemma delivered_out u o s : delivered u (lg_out (log_out o s)) = delivered u (lg_out s) ++ delivered u o.
Proof. apply delivered_app. Qed.
Lemma delivered_each u level event_id message l : Forall (fun e => sk_sink e <> 0) l ->
  delivered u (concat (map (fun e => if negb (sk_sink e =? 0) then [ToSink e level event_id message] else []) l))
  = map (fun e => (sk_sink e, (level, event_id, message))) (of_instance u l).
Proof.
  induction 1 as [|e l He _ IH]; [done|]. rewrite of_instance_cons, of_instance_one, map_app. cbn [map concat].
  rewrite delivered_app, IH. f_equal. replace (negb (sk_sink e =? 0)) with true by lia. cbn. by case_bool_decide.
Qed.
Definition writes_of (c : log_call) : list (Z * list Z * list Z) := written [c].
Lemma log_step_delivered u s c : log_ok s ->
  delivered u (lg_out (log_step s c))
  = delivered u (lg_out s) ++ flat_map (fun w => map (fun e => (sk_sink e, w)) (of_instance u (lg_sinks s))) (writes_of c).
Proof.
  intros [_ Hc _]. destruct c as [| |file| |level event_id message]; cbn [log_step writes_of written omap list_omap flat_map]; rewrite ?app_nil_r; [done|done| | |].
  - transitivity (delivered u (lg_out (match lg_file s with Some old => if bool_decide (file = Some old) then s else log_out [FileFlushed old] s | None => s end))); [done|].
    destruct (lg_file s); [|done]. case_bool_decide; [done|]. rewrite delivered_out. apply app_nil_r.
  - unfold vw_log_flush. rewrite delivered_out. by destruct (lg_file s); apply app_nil_r.
  - unfold vw_log_write. rewrite delivered_out, delivered_app. f_equal.
    replace (delivered u (match lg_file s with Some _ => _ | None => _ end)) with (@nil (Z * (Z * list Z * list Z))) by (by destruct (lg_file s)).
    rewrite app_nil_r. pose proof (delivered_each u level event_id message _ Hc) as Hd. destruct (lg_sinks s); [done|exact Hd].
Qed.

(** An instance that is not registered, and does not register, is given nothing. *)
Lemma silent_after u calls : u <> 0 -> forall s, log_ok s -> of_instance u (lg_sinks s) = [] -> Forall (no_registration u) calls ->
  delivered u (lg_out (log_run s calls)) = delivered u (lg_out s).
Proof.
  intros Hu. induction calls as [|c calls IH]; intros s Hs Hi; [done|]. rewrite list.Forall_cons. intros [Hc Hcs].
  change (log_run s (c :: calls)) with (log_run (log_step s c) calls). rewrite IH; [|by apply log_step_ok| |done].
  - rewrite log_step_delivered, Hi by done. cbn [map]. destruct (writes_of c) as [|? ws]; cbn [flat_map]; [by rewrite app_nil_r|].
    induction ws; cbn; [by rewrite app_nil_r|done].
  - pose proof (log_step_sinks s c) as He. destruct c as [|sink v| | |]; try by rewrite He.
    apply length_zero_iff_nil. unfold log_step, vw_log_set_sink. cbn [lg_sinks set_field set_lg_sinks].
    destruct (Z.eqb_spec sink 0) as [->|Hk]; cbn [negb].
    + pose proof (of_instance_sublist u _ _ (unregister_sublist v (lg_sinks s))). rewrite Hi in *. cbn in *. lia.
    + destruct Hc as [?|Hv]; [done|]. pose proof (proj1 (register_other u Hu sink v _ Hv (ok_room s Hs))). rewrite Hi in *. cbn in *. lia.
Qed.
(** One that is registered is given every event once, while the others are not too many. *)
Lemma served_after u sink calls : u <> 0 -> forall s, log_ok s -> of_instance u (lg_sinks s) = [mk_sink sink u] ->
  Forall (of_others u) calls -> (length (lg_sinks s) + registrations calls <= VW_LOG_MAX_SINKS)%nat ->
  delivered u (lg_out (log_run s calls)) = delivered u (lg_out s) ++ map (pair sink) (written calls).
Proof.
  intros Hu. induction calls as [|c calls IH]; intros s Hs Hi; [by rewrite app_nil_r|]. rewrite list.Forall_cons, registrations_cons.
  intros [Hc Hcs] Hn. change (log_run s (c :: calls)) with (log_run (log_step s c) calls). pose proof (log_step_length s c Hs) as Hl.
  rewrite IH; [|by apply log_step_ok| |done|lia].
  - rewrite log_step_delivered, Hi by done. rewrite <- app_assoc. f_equal. by destruct c.
  - pose proof (log_step_sinks s c) as He. destruct c as [|k v| | |]; try by rewrite He. destruct Hc as [Hv Hk0].
    unfold log_step, vw_log_set_sink. cbn [lg_sinks set_field set_lg_sinks registers] in *.
    destruct (Z.eqb_spec k 0) as [->|Hk]; cbn [negb] in *.
    + rewrite unregister_other by auto. done.
    + rewrite (proj2 (register_other u Hu k v _ Hv (ok_room s Hs))) by lia. done.
Qed.


(** With 16 instances a 17th takes the place of the last, which then is given nothing. *)
Example seventeenth_sink :
  let s := log_run new_log (map (fun i => SetSink 9 i) (seqZ 1 17)) in
  of_instance 16 (lg_sinks s) = [] /\ map sk_user_data (lg_sinks s) = seqZ 1 15 ++ [17].
Proof. by split. Qed.
