(* ===== verification/Float32.v ===== *)
(** * Single-precision comparisons

    A C [float] is its 32-bit pattern. A finite binary32 value is an integer
    multiple of 2^-149, so [f32_scaled] is that integer, exact on normal and
    subnormal patterns alike, and comparisons of values are comparisons of
    integers. *)

From Stdlib Require Export SpecFloat.
From S2P Require Import Prelude.

Definition f32_exponent (b : Z) : Z := Z.land (Z.shiftr b 23) 0xFF.
Definition f32_mantissa (b : Z) : Z := Z.land b 0x7FFFFF.
Definition f32_negative (b : Z) : bool := Z.testbit b 31.
Definition f32_isfinite (b : Z) : bool := negb (f32_exponent b =? 0xFF).
Definition f32_isnan (b : Z) : bool := (f32_exponent b =? 0xFF) && negb (f32_mantissa b =? 0).
Definition f32_scaled (b : Z) : Z :=
  let m := if f32_exponent b =? 0 then f32_mantissa b else 0x800000 + f32_mantissa b in
  let e := if f32_exponent b =? 0 then 0 else f32_exponent b - 1 in
  (if f32_negative b then -1 else 1) * (m * 2 ^ e).
(** The scaled value of a small integer constant such as [16.0f]. *)
Definition f32_const (n : Z) : Z := n * 2 ^ 149.

(** [a < b] on floats: false when either is a NaN; an infinity lies beyond
    every finite value (its pattern scales to 2^277). *)
Definition f32_ltb (a b : Z) : bool :=
  negb (f32_isnan a) && negb (f32_isnan b) && (f32_scaled a <? f32_scaled b).
(** [a > n] for an integer constant [n]. *)
Definition f32_gt_const (a n : Z) : bool := negb (f32_isnan a) && (f32_const n <? f32_scaled a).

Definition f32_one : Z := 0x3F800000.

Example f32_one_value : f32_scaled f32_one = f32_const 1.
Proof. reflexivity. Qed.
Example f32_four_value : f32_scaled 0x40800000 = f32_const 4.
Proof. reflexivity. Qed.
Example f32_inf_large : f32_gt_const 0x7F800000 16 = true.
Proof. reflexivity. Qed.

(** ** Values and arithmetic

    The IEEE value of a pattern, for the places where the code computes with
    floats: [SFmul], [SFadd] and [SFdiv] round to nearest, ties to even. *)

Definition f32_to_spec (b : Z) : spec_float :=
  let s := f32_negative b in
  if f32_exponent b =? 0xFF then (if f32_mantissa b =? 0 then S754_infinity s else S754_nan)
  else if f32_exponent b =? 0 then
    match f32_mantissa b with Zpos m => S754_finite s m (-149) | _ => S754_zero s end
  else match 0x800000 + f32_mantissa b with
       | Zpos m => S754_finite s m (f32_exponent b - 150)
       | _ => S754_zero s
       end.

(** The conversion [(int32_t)x] of a float in range: truncation toward zero.
    (Of a NaN, which C leaves undefined, the x86 instruction yields
    [INT32_MIN]; a clamped sample is otherwise always in range.) *)
Definition spec_trunc (x : spec_float) : Z :=
  match x with
  | S754_zero _ => 0
  | S754_finite s m e =>
      (if s then -1 else 1) * (if 0 <=? e then Zpos m * 2 ^ e else Zpos m / 2 ^ (- e))
  | _ => - 2 ^ 31
  end.

(** A [float] widened to [double] (exact), and a [double] narrowed to [float]. *)
Definition spec_convert (prec emax : Z) (x : spec_float) : spec_float :=
  match x with
  | S754_finite s m e => binary_normalize prec emax (if s then Zneg m else Zpos m) e s
  | _ => x
  end.

(** An unsigned integer below 2^53 as a [double]. *)
Definition spec_of_Z (n : Z) : spec_float := binary_normalize 53 1024 n 0 false.

#[global] Arguments f32_const : simpl never.
#[global] Arguments f32_scaled : simpl never.
#[global] Arguments f32_gt_const : simpl never.
#[global] Arguments f32_ltb : simpl never.

(** ** Normalised samples

    The pattern of [pcm16 / 32768.0f]: the division by a power of two is exact. *)
Definition f32_of_s16 (k : Z) : Z :=
  if k =? 0 then 0
  else
    let m := Z.abs k in
    let e := Z.log2 m in
    (if k <? 0 then 2 ^ 31 else 0) + (e + 112) * 2 ^ 23 + (m * 2 ^ (23 - e) - 2 ^ 23).

(** [a >= b] on floats. *)
Definition f32_geb (a b : Z) : bool :=
  negb (f32_isnan a) && negb (f32_isnan b) && (f32_scaled b <=? f32_scaled a).

(** The fields of a pattern built from its sign, exponent and mantissa. *)
Lemma f32_fields (s : bool) E m :
  0 <= E < 2 ^ 8 -> 0 <= m < 2 ^ 23 ->
  let b := (if s then 2 ^ 31 else 0) + E * 2 ^ 23 + m in
  f32_exponent b = E /\ f32_mantissa b = m /\ f32_negative b = s.
Proof.
  intros HE Hm b.
  assert (b / 2 ^ 23 = (if s then 256 else 0) + E) as Hd.
  { subst b. replace ((if s then 2 ^ 31 else 0) + E * 2 ^ 23 + m)
      with (m + ((if s then 256 else 0) + E) * 2 ^ 23) by (destruct s; lia).
    rewrite Z.div_add, Z.div_small by lia. lia. }
  assert (b mod 2 ^ 23 = m) as Hr.
  { subst b. replace ((if s then 2 ^ 31 else 0) + E * 2 ^ 23 + m)
      with (m + ((if s then 256 else 0) + E) * 2 ^ 23) by (destruct s; lia).
    rewrite Z.mod_add, Z.mod_small by lia. done. }
  unfold f32_exponent, f32_mantissa, f32_negative. split_and!.
  - rewrite Z.shiftr_div_pow2, Hd by lia. change 0xFF with (Z.ones 8). rewrite Z.land_ones by lia.
    destruct s; [|by apply Z.mod_small]. replace (256 + E) with (E + 1 * 2 ^ 8) by lia.
    rewrite Z.mod_add by lia. by apply Z.mod_small.
  - change 0x7FFFFF with (Z.ones 23). by rewrite Z.land_ones by lia.
  - rewrite Z.testbit_odd, Z.shiftr_div_pow2 by lia. change (2 ^ 31) with (2 ^ 23 * 2 ^ 8) at 1.
    rewrite <- Z.div_div, Hd by lia. destruct s.
    + replace (256 + E) with (E + 1 * 2 ^ 8) by lia. by rewrite Z.div_add, Z.div_small by lia.
    + by rewrite Z.div_small by lia.
Qed.

Lemma f32_of_s16_exact k :
  - 32768 <= k <= 32768 -> f32_scaled (f32_of_s16 k) = k * 2 ^ 134 /\ f32_isnan (f32_of_s16 k) = false.
Proof.
  intros Hk. unfold f32_of_s16. destruct (Z.eqb_spec k 0) as [->|Hne]; [done|].
  set (m := Z.abs k). assert (0 < m <= 32768) as Hm by lia.
  pose proof (Z.log2_spec m ltac:(lia)) as [Hl Hu]. pose proof (Z.log2_nonneg m).
  assert (Z.log2 m <= 15) by (change 15 with (Z.log2 32768); apply Z.log2_le_mono; lia).
  set (e := Z.log2 m) in *. rewrite Z.pow_succ_r in Hu by lia.
  assert (2 ^ 23 = 2 ^ e * 2 ^ (23 - e)) as Hp by (rewrite <- Z.pow_add_r by lia; f_equal; lia).
  assert (0 < 2 ^ (23 - e)) by (apply Z.pow_pos_nonneg; lia).
  destruct (f32_fields (k <? 0) (e + 112) (m * 2 ^ (23 - e) - 2 ^ 23)) as (F1 & F2 & F3); [lia|nia|].
  unfold f32_scaled, f32_isnan. rewrite F1, F2, F3.
  replace (e + 112 =? 0) with false by lia. replace (e + 112 =? 0xFF) with false by lia.
  split; [|done]. replace (0x800000 + (m * 2 ^ (23 - e) - 2 ^ 23)) with (m * 2 ^ (23 - e)) by lia.
  rewrite <- Z.mul_assoc, <- Z.pow_add_r by lia. replace (23 - e + (e + 112 - 1)) with 134 by lia.
  destruct (Z.ltb_spec k 0); subst m; lia.
Qed.
