(* ===== verification/ProtocolTypes.v ===== *)
(** * Protocol messages

    The wire structures of [src/protocol/include/vw_protocol_types.h]: one
    [Record] per payload struct, one constructor of [message] per message type.
    A fixed-size array is the list of its bytes, a pointer is an [option] (NULL
    is [None]) of the bytes it points to, and a [float] is its 32-bit pattern. *)

From S2P Require Import Prelude.

Definition VW_PROTOCOL_MAGIC : Z := 0x564C4357.
Definition VW_PROTOCOL_VERSION_MAJOR : Z := 1.
Definition VW_PROTOCOL_VERSION_MINOR : Z := 6.
Definition VW_MAX_PAYLOAD_BYTES : Z := 1048576.
Definition VW_MAX_ERROR_MSG_BYTES : Z := 256.
Definition VW_MAX_MODEL_ID_BYTES : Z := 64.
Definition VW_MAX_SOURCE_URL_BYTES : Z := 1024.
Definition VW_AUTH_TOKEN_BYTES : Z := 32.
Definition VW_SESSION_ID_BYTES : Z := 16.
Definition VW_PATH_MAX_BYTES : Z := 4096.   (* Linux *)
Definition VW_MAX_TEXT_BYTES : Z := 1024.

(** Capability bits of HELLO_ACK. *)
Definition VW_CAPABILITY_PCM_S16LE_16K_MONO : Z := 1.
Definition VW_CAPABILITY_PARTIAL_SEGMENTS : Z := 2.
Definition VW_CAPABILITY_SEEK_RESET : Z := 4.
Definition VW_CAPABILITY_SOURCE_MODE : Z := 8.
Definition VW_CAPABILITY_TRANSLATION : Z := 16.

Definition VW_SOURCE_LIVE_AUDIO : Z := 0.
Definition VW_SOURCE_LOCAL_FILE : Z := 1.
Definition VW_SAMPLE_FORMAT_S16LE : Z := 1.

(** Error codes of ERROR frames. *)
Definition E_PROTOCOL_VERSION : Z := 1.
Definition E_AUTH : Z := 2.
Definition E_MODEL_MISSING : Z := 3.
Definition E_MODEL_INVALID : Z := 4.
Definition E_AUDIO_FORMAT : Z := 5.
Definition E_BACKPRESSURE : Z := 6.
Definition E_DISCONTINUITY : Z := 7.
Definition E_WORKER_CRASH : Z := 8.
Definition E_INTERNAL : Z := 9.
Definition E_SOURCE_OPEN : Z := 10.
Definition E_TRANSLATION_PROVIDER : Z := 11.
Definition E_TRANSLATION_TRANSPORT : Z := 12.
Definition E_TRANSLATION_PARSE : Z := 13.
Definition E_TRANSLATION_DEADLINE : Z := 14.
Definition E_TRANSLATION_LOCAL : Z := 15.
Definition VW_ERROR_MAX : Z := 15.

(** [vw_message_type_t]; the wire type is a [uint16_t]. *)
Definition VW_MSG_HELLO : Z := 1.
Definition VW_MSG_HELLO_ACK : Z := 2.
Definition VW_MSG_START_SESSION : Z := 3.
Definition VW_MSG_AUDIO_PCM : Z := 4.
Definition VW_MSG_PAUSE : Z := 5.
Definition VW_MSG_RESUME : Z := 6.
Definition VW_MSG_STOP_SESSION : Z := 7.
Definition VW_MSG_CAPTION_SEGMENT : Z := 8.
Definition VW_MSG_STATUS : Z := 9.
Definition VW_MSG_ERROR : Z := 10.
Definition VW_MSG_SHUTDOWN : Z := 11.
Definition VW_MSG_STARTED : Z := 12.
Definition VW_MSG_POSITION : Z := 13.
Definition VW_MSG_MODEL_CTRL : Z := 14.
Definition VW_MSG_MODEL_PROGRESS : Z := 15.
Definition VW_MSG_TRANSLATE_CTRL : Z := 16.

Record vw_frame_header_t := mk_header {
  hdr_magic : Z;            (* uint32_t *)
  hdr_major : Z;            (* uint16_t *)
  hdr_type : Z;             (* uint16_t *)
  hdr_payload_length : Z;   (* uint32_t *)
  hdr_sequence : Z          (* uint64_t *)
}.

(** [vw_session_id_t]: the sixteen bytes. *)
Definition vw_session_id_t := list Z.

Record vw_msg_hello_t := mk_hello {
  hello_min_major : Z;
  hello_max_major : Z;
  hello_auth_token : list Z;                (* [32] *)
  hello_client_version_length : Z;
  hello_client_version : option (list Z)    (* char* *)
}.

Record vw_msg_hello_ack_t := mk_hello_ack {
  ack_selected_major : Z;
  ack_selected_minor : Z;
  ack_capability_flags : Z;
  ack_worker_version_length : Z;
  ack_worker_version : option (list Z)      (* char* *)
}.

Record vw_msg_start_t := mk_start {
  start_session_id : vw_session_id_t;
  start_timeline_origin_pts_us : Z;         (* int64_t *)
  start_sample_rate : Z;
  start_channels : Z;
  start_sample_format : Z;
  start_model_id : list Z;                  (* char[64] *)
  start_language : list Z;                  (* char[16] *)
  start_source_kind : Z;
  start_source_url_len : Z;
  start_source_url : list Z                 (* char[1024] *)
}.

Record vw_msg_started_t := mk_started {
  started_session_id : vw_session_id_t;
  started_source_active : Z
}.

Definition VW_SOURCE_ACTIVE_INACTIVE : Z := 0.
Definition VW_SOURCE_ACTIVE_ACTIVE : Z := 1.

Definition VW_POSITION_FLAG_SEEK : Z := 1.
Definition VW_POSITION_FLAG_PAUSED : Z := 2.

Record vw_msg_position_t := mk_position {
  pos_session_id : vw_session_id_t;
  pos_current_pts_us : Z;                   (* int64_t *)
  pos_input_time_us : Z;                    (* int64_t *)
  pos_playback_rate : Z;                    (* float, as its 32 bits *)
  pos_flags : Z                             (* uint32_t *)
}.

Record vw_msg_audio_t := mk_audio {
  audio_session_id : vw_session_id_t;
  audio_start_pts_us : Z;                   (* int64_t *)
  audio_duration_us : Z;                    (* int64_t *)
  audio_pcm_bytes : Z;                      (* uint32_t *)
  audio_pcm_data : option (list Z)          (* const uint8_t* *)
}.

Record vw_msg_control_t := mk_control {
  ctl_session_id : vw_session_id_t;
  ctl_reason : Z                            (* uint16_t *)
}.

Definition VW_CTRL_REASON_USER_PAUSE : Z := 1.
Definition VW_CTRL_REASON_USER_RESUME : Z := 1.
Definition VW_CTRL_REASON_USER_STOP : Z := 1.
Definition VW_CTRL_REASON_SEEK_DISCONTINUITY : Z := 2.
Definition VW_CTRL_REASON_MEDIA_END : Z := 3.

Record vw_msg_status_t := mk_status {
  status_session_id : vw_session_id_t;
  status_state : Z;                         (* uint32_t *)
  status_queued_audio_us : Z;               (* int64_t *)
  status_inference_us : Z;                  (* int64_t *)
  status_dropped_audio_us : Z;              (* int64_t *)
  status_resolved_backend : list Z          (* char[16] *)
}.

Definition VW_MODEL_ACTION_DOWNLOAD : Z := 1.
Definition VW_MODEL_ACTION_ABORT : Z := 2.

Definition VW_MODEL_STAGE_IDLE : Z := 0.
Definition VW_MODEL_STAGE_DOWNLOADING : Z := 1.
Definition VW_MODEL_STAGE_VERIFYING : Z := 2.
Definition VW_MODEL_STAGE_DONE : Z := 3.
Definition VW_MODEL_STAGE_FAILED : Z := 4.
Definition VW_MODEL_STAGE_ABORTING : Z := 5.

Definition VW_MSG_MODEL_CTRL_PAYLOAD_BYTES : Z := 49.
Definition VW_MSG_MODEL_PROGRESS_PAYLOAD_BYTES : Z := 66.
Definition VW_MSG_TRANSLATE_CTRL_PAYLOAD_BYTES : Z := 50.

Record vw_msg_model_ctrl_t := mk_model_ctrl {
  mctl_session_id : vw_session_id_t;
  mctl_action : Z;                          (* uint8_t *)
  mctl_model_id : list Z                    (* char[32] *)
}.

Record vw_msg_model_progress_t := mk_model_progress {
  mprog_session_id : vw_session_id_t;
  mprog_stage : Z;                          (* uint8_t *)
  mprog_pct : Z;                            (* uint8_t *)
  mprog_bytes_done : Z;                     (* uint64_t *)
  mprog_bytes_total : Z;                    (* uint64_t *)
  mprog_model_id : list Z                   (* char[32] *)
}.

Record vw_msg_translate_ctrl_t := mk_translate_ctrl {
  tctl_session_id : vw_session_id_t;
  tctl_enabled : Z;                         (* uint8_t *)
  tctl_source_lang : list Z;                (* char[16] *)
  tctl_target_lang : list Z;                (* char[16] *)
  tctl_mode : Z                             (* uint8_t *)
}.

Record vw_msg_error_t := mk_error {
  err_session_id : vw_session_id_t;
  err_error_code : Z;                       (* uint32_t *)
  err_recoverable : Z;                      (* uint8_t *)
  err_message : list Z                      (* char[256] *)
}.

(** [is_final] is a C [bool], copied as its one byte. *)
Record vw_caption_segment_t := mk_segment {
  seg_session_id : vw_session_id_t;
  seg_segment_id : Z;                       (* uint64_t *)
  seg_start_pts_us : Z;                     (* int64_t *)
  seg_end_pts_us : Z;                       (* int64_t *)
  seg_is_final : Z;                         (* bool *)
  seg_text_utf8 : option (list Z);          (* char* *)
  seg_text_bytes : Z;                       (* uint16_t *)
  seg_translated_text_utf8 : option (list Z);
  seg_translated_text_bytes : Z;            (* uint16_t *)
  seg_translation_attempted : bool;
  seg_translation_latency_us : Z;           (* uint32_t *)
  seg_translation_tier : Z                  (* uint8_t *)
}.

(** A payload together with the [vw_message_type_t] that selects its struct. *)
Inductive message :=
  | HELLO (m : vw_msg_hello_t)
  | HELLO_ACK (m : vw_msg_hello_ack_t)
  | START_SESSION (m : vw_msg_start_t)
  | AUDIO_PCM (m : vw_msg_audio_t)
  | PAUSE (m : vw_msg_control_t)
  | RESUME (m : vw_msg_control_t)
  | STOP_SESSION (m : vw_msg_control_t)
  | CAPTION_SEGMENT (m : vw_caption_segment_t)
  | STATUS (m : vw_msg_status_t)
  | ERROR (m : vw_msg_error_t)
  | SHUTDOWN
  | STARTED (m : vw_msg_started_t)
  | POSITION (m : vw_msg_position_t)
  | MODEL_CTRL (m : vw_msg_model_ctrl_t)
  | MODEL_PROGRESS (m : vw_msg_model_progress_t)
  | TRANSLATE_CTRL (m : vw_msg_translate_ctrl_t).

Definition message_type (m : message) : Z :=
  match m with
  | HELLO _ => VW_MSG_HELLO
  | HELLO_ACK _ => VW_MSG_HELLO_ACK
  | START_SESSION _ => VW_MSG_START_SESSION
  | AUDIO_PCM _ => VW_MSG_AUDIO_PCM
  | PAUSE _ => VW_MSG_PAUSE
  | RESUME _ => VW_MSG_RESUME
  | STOP_SESSION _ => VW_MSG_STOP_SESSION
  | CAPTION_SEGMENT _ => VW_MSG_CAPTION_SEGMENT
  | STATUS _ => VW_MSG_STATUS
  | ERROR _ => VW_MSG_ERROR
  | SHUTDOWN => VW_MSG_SHUTDOWN
  | STARTED _ => VW_MSG_STARTED
  | POSITION _ => VW_MSG_POSITION
  | MODEL_CTRL _ => VW_MSG_MODEL_CTRL
  | MODEL_PROGRESS _ => VW_MSG_MODEL_PROGRESS
  | TRANSLATE_CTRL _ => VW_MSG_TRANSLATE_CTRL
  end.

(** The constants, for [autounfold] before [lia]. *)
Create HintDb vw_consts.
#[export] Hint Unfold
  VW_PROTOCOL_MAGIC VW_PROTOCOL_VERSION_MAJOR VW_PROTOCOL_VERSION_MINOR VW_MAX_PAYLOAD_BYTES 
  VW_MAX_ERROR_MSG_BYTES VW_MAX_MODEL_ID_BYTES VW_MAX_SOURCE_URL_BYTES VW_AUTH_TOKEN_BYTES 
  VW_SESSION_ID_BYTES VW_MAX_TEXT_BYTES VW_CAPABILITY_PCM_S16LE_16K_MONO 
  VW_CAPABILITY_PARTIAL_SEGMENTS VW_CAPABILITY_SEEK_RESET VW_CAPABILITY_SOURCE_MODE 
  VW_CAPABILITY_TRANSLATION VW_SOURCE_LIVE_AUDIO VW_SOURCE_LOCAL_FILE VW_SAMPLE_FORMAT_S16LE 
  E_PROTOCOL_VERSION E_AUTH E_MODEL_MISSING E_MODEL_INVALID E_AUDIO_FORMAT E_BACKPRESSURE 
  E_DISCONTINUITY E_WORKER_CRASH E_INTERNAL E_SOURCE_OPEN E_TRANSLATION_PROVIDER 
  E_TRANSLATION_TRANSPORT E_TRANSLATION_PARSE E_TRANSLATION_DEADLINE E_TRANSLATION_LOCAL 
  VW_ERROR_MAX VW_MSG_HELLO VW_MSG_HELLO_ACK VW_MSG_START_SESSION VW_MSG_AUDIO_PCM VW_MSG_PAUSE 
  VW_MSG_RESUME VW_MSG_STOP_SESSION VW_MSG_CAPTION_SEGMENT VW_MSG_STATUS VW_MSG_ERROR 
  VW_MSG_SHUTDOWN VW_MSG_STARTED VW_MSG_POSITION VW_MSG_MODEL_CTRL VW_MSG_MODEL_PROGRESS 
  VW_MSG_TRANSLATE_CTRL VW_SOURCE_ACTIVE_INACTIVE VW_SOURCE_ACTIVE_ACTIVE VW_POSITION_FLAG_SEEK 
  VW_POSITION_FLAG_PAUSED VW_CTRL_REASON_USER_PAUSE VW_CTRL_REASON_USER_RESUME 
  VW_CTRL_REASON_USER_STOP VW_CTRL_REASON_SEEK_DISCONTINUITY VW_CTRL_REASON_MEDIA_END 
  VW_MODEL_ACTION_DOWNLOAD VW_MODEL_ACTION_ABORT VW_MODEL_STAGE_IDLE VW_MODEL_STAGE_DOWNLOADING 
  VW_MODEL_STAGE_VERIFYING VW_MODEL_STAGE_DONE VW_MODEL_STAGE_FAILED VW_MODEL_STAGE_ABORTING 
  VW_MSG_MODEL_CTRL_PAYLOAD_BYTES VW_MSG_MODEL_PROGRESS_PAYLOAD_BYTES 
  VW_MSG_TRANSLATE_CTRL_PAYLOAD_BYTES : vw_consts.
