(* ===== verification/ProtocolUtil.v ===== *)
(** * Protocol helpers

    [src/protocol/include/vw_protocol_util.h]: saturating timestamp arithmetic
    and the length of the longest valid UTF-8 prefix of a buffer. *)

From S2P Require Import Prelude.

(** [__builtin_add_overflow] computes the exact sum, stores it wrapped and
    reports whether it did not fit. *)
Definition vw_saturating_add_i64 (a b : Z) : Z :=
  let res := i64 (a + b) in
  if negb (res =? a + b) then (if 0 <? b then INT64_MAX else INT64_MIN) else res.

Definition vw_saturating_sub_i64 (a b : Z) : Z :=
  let res := i64 (a - b) in
  if negb (res =? a - b) then (if b <? 0 then INT64_MAX else INT64_MIN) else res.

(** The lead byte of a multi-byte sequence: the number of continuation bytes,
    the initial code point bits and the least code point of that length. *)
Definition utf8_lead (c : Z) : option (nat * Z * Z) :=
  if Z.land c 0xE0 =? 0xC0 then Some (1%nat, Z.land c 0x1F, 0x80)
  else if Z.land c 0xF0 =? 0xE0 then Some (2%nat, Z.land c 0x0F, 0x800)
  else if Z.land c 0xF8 =? 0xF0 then Some (3%nat, Z.land c 0x07, 0x10000)
  else None.

(** The continuation-byte loop: the code point and the rest of the buffer. *)
Fixpoint utf8_cont (extra : nat) (code_point : Z) (p : list Z) : option (Z * list Z) :=
  match extra with
  | O => Some (code_point, p)
  | S extra =>
      match p with
      | [] => None
      | next :: p =>
          if negb (Z.land next 0xC0 =? 0x80) then None
          else utf8_cont extra (Z.lor (Z.shiftl code_point 6) (Z.land next 0x3F)) p
      end
  end.

(** Overlong, surrogate and out-of-range checks on the decoded code point. *)
Definition utf8_code_point_ok (code_point min_cp : Z) : bool :=
  negb (code_point <? min_cp)
  && negb ((0xD800 <=? code_point) && (code_point <=? 0xDFFF))
  && negb (0x10FFFF <? code_point).

(** The [while] loop of [vw_utf8_safe_len]; [p] is the buffer from index [len]
    and [fuel] bounds the iterations ([max_bytes] is enough: each one advances
    [len] by at least one and the loop stops at [max_bytes]). *)
Fixpoint utf8_safe_len_loop (fuel : nat) (p : list Z) (max_bytes len : Z) : Z :=
  match fuel with
  | O => len
  | S fuel =>
      if negb (len <? max_bytes) then len
      else match p with
      | [] => len
      | c :: p' =>
          if c =? 0 then len
          else if c <=? 0x7F then utf8_safe_len_loop fuel p' max_bytes (len + 1)
          else match utf8_lead c with
          | None => len
          | Some (extra, code_point, min_cp) =>
              if max_bytes <? len + 1 + Z.of_nat extra then len
              else match utf8_cont extra code_point p' with
              | None => len
              | Some (code_point, p'') =>
                  if negb (utf8_code_point_ok code_point min_cp) then len
                  else utf8_safe_len_loop fuel p'' max_bytes (len + 1 + Z.of_nat extra)
              end
          end
      end
  end.

(** [s] is NULL or a buffer that holds [max_bytes] bytes or a NUL before. *)
Definition vw_utf8_safe_len (s : option (list Z)) (max_bytes : Z) : Z :=
  match s with
  | None => 0
  | Some p =>
      if max_bytes =? 0 then 0
      else utf8_safe_len_loop (Z.to_nat max_bytes) p max_bytes 0
  end.

Example safe_len_ascii : vw_utf8_safe_len (Some (str "hello")) 3 = 3.
Proof. reflexivity. Qed.
Example safe_len_split : vw_utf8_safe_len (Some [0x61; 0xE2; 0x99; 0xAA; 0]) 3 = 1.
Proof. reflexivity. Qed.
Example safe_len_note : vw_utf8_safe_len (Some [0x61; 0xE2; 0x99; 0xAA; 0; 7]) 6 = 4.
Proof. reflexivity. Qed.
