(* ===== verification/Validate.v ===== *)
(** * Message validation

    [src/protocol/src/vw_protocol_validate.c]: the checks every decoded header
    and payload passes before the receiver acts on it. *)

From S2P Require Import Prelude.
From S2P Require Import ProtocolTypes.
From S2P Require Import ProtocolUtil.
From S2P Require Import Float32.

Definition vw_protocol_validate_header (h : vw_frame_header_t) : bool :=
  if negb (hdr_magic h =? VW_PROTOCOL_MAGIC) then false
  else if negb (hdr_major h =? VW_PROTOCOL_VERSION_MAJOR) then false
  else if VW_MAX_PAYLOAD_BYTES <? hdr_payload_length h then false
  else if (hdr_type h <? VW_MSG_HELLO) || (VW_MSG_TRANSLATE_CTRL <? hdr_type h) then false
  else true.

Definition is_ascii_letter (c : Z) : bool :=
  ((65 <=? c) && (c <=? 90)) || ((97 <=? c) && (c <=? 122)).

(** The primary-subtag loop: its length when every byte up to ['-'] or the end
    is a letter, [None] when another byte comes first. *)
Fixpoint primary_subtag (code : list Z) : option Z :=
  match code with
  | [] => Some 0
  | c :: code =>
      if c =? 45 then Some 0
      else if negb (is_ascii_letter c) then None
      else n ← primary_subtag code; Some (n + 1)
  end.

Definition is_valid_language_code (code : list Z) (allow_auto : bool) : bool :=
  let s := cstr (ztake 16 code) in
  let length := zlen s in
  if (length =? 0) || (16 <=? length) then false
  else if allow_auto && bool_decide (s = str "auto") then true
  else match primary_subtag s with
  | None => false
  | Some primary_length =>
      if (primary_length <? 2) || (3 <? primary_length) then false
      else if primary_length =? length then true
      else
        let subtag_length := length - primary_length - 1 in
        if (subtag_length <? 2) || (8 <? subtag_length) then false
        else forallb is_ascii_letter (zdrop (primary_length + 1) s)
  end.

(** The [for] loop of [is_valid_utf8] over the rest of the buffer; every
    iteration consumes a byte, so the buffer's length is enough fuel. *)
Fixpoint utf8_valid_loop (fuel : nat) (s : list Z) : bool :=
  match s, fuel with
  | [], _ => true
  | _, O => false
  | c :: s, S fuel =>
      if c <=? 0x7F then utf8_valid_loop fuel s
      else match utf8_lead c with
      | None => false
      | Some (extra, code_point, min_cp) =>
          if zlen s <? Z.of_nat extra then false
          else match utf8_cont extra code_point s with
          | None => false
          | Some (code_point, s) =>
              if negb (utf8_code_point_ok code_point min_cp) then false
              else utf8_valid_loop fuel s
          end
      end
  end.

Definition is_valid_utf8 (s : list Z) (len : Z) : bool :=
  utf8_valid_loop (Z.to_nat len) (ztake len s).

Definition is_empty_or_whitespace (s : list Z) (len : Z) : bool :=
  if len =? 0 then true
  else forallb (fun c => (c =? 32) || (c =? 10) || (c =? 13) || (c =? 9)) (ztake len s).

(** The length of a NUL-terminated string inside a [capacity]-byte array. *)
Definition vw_bounded_string_length (text : list Z) (capacity : Z) : option Z :=
  if capacity =? 0 then None
  else
    let length := strnlen text capacity in
    if length =? capacity then None else Some length.

(** ** Payload validation, one definition per message *)

Definition validate_hello (p : vw_msg_hello_t) : bool :=
  negb ((0 <? hello_client_version_length p) && bool_decide (hello_client_version p = None)).

Definition validate_hello_ack (p : vw_msg_hello_ack_t) : bool :=
  negb ((0 <? ack_worker_version_length p) && bool_decide (ack_worker_version p = None)).

Definition validate_start (p : vw_msg_start_t) : bool :=
  if negb (start_sample_rate p =? 16000) || negb (start_channels p =? 1)
     || negb (start_sample_format p =? VW_SAMPLE_FORMAT_S16LE) then false
  else if negb (is_valid_language_code (start_language p) false) then false
  else match vw_bounded_string_length (start_model_id p) VW_MAX_MODEL_ID_BYTES with
  | None => false
  | Some model_id_length =>
      if model_id_length =? 0 then false
      else match vw_bounded_string_length (start_source_url p) VW_MAX_SOURCE_URL_BYTES with
      | None => false
      | Some source_url_length =>
          if negb (start_source_url_len p =? source_url_length) then false
          else if start_source_kind p =? VW_SOURCE_LIVE_AUDIO then source_url_length =? 0
          else if start_source_kind p =? VW_SOURCE_LOCAL_FILE then 0 <? source_url_length
          else false
      end
  end.

(** [pcm_bytes + 1] and [expected_bytes + 1] are [uint32_t] sums. *)
Definition validate_audio (p : vw_msg_audio_t) : bool :=
  if (audio_duration_us p <=? 0) || (30000000 <? audio_duration_us p) then false
  else if negb (audio_pcm_bytes p mod 2 =? 0) then false
  else
    let expected_bytes := u32 (audio_duration_us p * 32 / 1000) in
    if (u32 (audio_pcm_bytes p + 1) <? expected_bytes)
       || (u32 (expected_bytes + 1) <? audio_pcm_bytes p) then false
    else negb ((0 <? audio_pcm_bytes p) && bool_decide (audio_pcm_data p = None)).

Definition validate_pause (p : vw_msg_control_t) : bool :=
  ctl_reason p =? VW_CTRL_REASON_USER_PAUSE.
Definition validate_resume (p : vw_msg_control_t) : bool :=
  ctl_reason p =? VW_CTRL_REASON_USER_RESUME.
Definition validate_stop (p : vw_msg_control_t) : bool :=
  (ctl_reason p =? VW_CTRL_REASON_USER_STOP)
  || (ctl_reason p =? VW_CTRL_REASON_SEEK_DISCONTINUITY)
  || (ctl_reason p =? VW_CTRL_REASON_MEDIA_END).

Definition validate_error (p : vw_msg_error_t) : bool :=
  (E_PROTOCOL_VERSION <=? err_error_code p) && (err_error_code p <=? VW_ERROR_MAX).

Definition validate_started (p : vw_msg_started_t) : bool :=
  negb (negb (started_source_active p =? VW_SOURCE_ACTIVE_INACTIVE)
        && negb (started_source_active p =? VW_SOURCE_ACTIVE_ACTIVE)).

Definition validate_position (p : vw_msg_position_t) : bool :=
  if (pos_current_pts_us p <? -10000000) || (315360000000000 <? pos_current_pts_us p) then false
  else if (pos_input_time_us p <? -1) || (315360000000000 <? pos_input_time_us p) then false
  else if negb (f32_isfinite (pos_playback_rate p))
          || (f32_scaled (pos_playback_rate p) <=? 0)
          || (f32_const 16 <? f32_scaled (pos_playback_rate p)) then false
  else if negb (Z.ldiff (pos_flags p) (Z.lor VW_POSITION_FLAG_SEEK VW_POSITION_FLAG_PAUSED) =? 0)
       then false
  else true.

(** The control-character loop over one caption text. *)
Definition no_control_chars (s : list Z) (len : Z) : bool :=
  forallb (fun c => negb ((c <? 0x20) && negb (c =? 10) && negb (c =? 32))) (ztake len s).

Definition valid_caption_text (s : option (list Z)) (len : Z) : bool :=
  match s with
  | None => false
  | Some s =>
      negb (is_empty_or_whitespace s len) && is_valid_utf8 s len && no_control_chars s len
  end.

Definition validate_segment (p : vw_caption_segment_t) : bool :=
  if seg_end_pts_us p <=? seg_start_pts_us p then false
  else if VW_MAX_TEXT_BYTES <? seg_text_bytes p then false
  else if seg_text_bytes p =? 0 then false (* empty: is_empty_or_whitespace *)
  else if negb (valid_caption_text (seg_text_utf8 p) (seg_text_bytes p)) then false
  else if (if 0 <? seg_translated_text_bytes p
           then (VW_MAX_TEXT_BYTES <? seg_translated_text_bytes p)
                || negb (valid_caption_text (seg_translated_text_utf8 p)
                                            (seg_translated_text_bytes p))
           else negb (bool_decide (seg_translated_text_utf8 p = None))) then false
  else if negb (seg_translation_attempted p)
          && ((0 <? seg_translated_text_bytes p) || (0 <? seg_translation_latency_us p)
              || (0 <? seg_translation_tier p)) then false
  else if 3 <? seg_translation_tier p then false
  else if (0 <? seg_translated_text_bytes p) && (seg_translation_tier p =? 0) then false
  else if (seg_translated_text_bytes p =? 0) && negb (seg_translation_tier p =? 0) then false
  else true.

Definition validate_translate_ctrl (p : vw_msg_translate_ctrl_t) : bool :=
  if 1 <? tctl_enabled p then false
  else if 1 <? tctl_mode p then false
  else if negb (is_valid_language_code (tctl_source_lang p) true) then false
  else if negb (is_valid_language_code (tctl_target_lang p) false) then false
  else true.

Definition validate_model_ctrl (p : vw_msg_model_ctrl_t) : bool :=
  negb (negb (mctl_action p =? VW_MODEL_ACTION_DOWNLOAD)
        && negb (mctl_action p =? VW_MODEL_ACTION_ABORT)).

Definition validate_model_progress (p : vw_msg_model_progress_t) : bool :=
  if VW_MODEL_STAGE_ABORTING <? mprog_stage p then false
  else if 100 <? mprog_pct p then false
  else if (mprog_bytes_total p =? 0) && negb (mprog_stage p =? VW_MODEL_STAGE_IDLE)
          && negb (mprog_stage p =? VW_MODEL_STAGE_FAILED) then false
  else true.

Definition vw_protocol_validate_payload (m : message) : bool :=
  match m with
  | HELLO p => validate_hello p
  | HELLO_ACK p => validate_hello_ack p
  | START_SESSION p => validate_start p
  | AUDIO_PCM p => validate_audio p
  | PAUSE p => validate_pause p
  | RESUME p => validate_resume p
  | STOP_SESSION p => validate_stop p
  | STATUS _ | SHUTDOWN => true
  | ERROR p => validate_error p
  | STARTED p => validate_started p
  | POSITION p => validate_position p
  | CAPTION_SEGMENT p => validate_segment p
  | TRANSLATE_CTRL p => validate_translate_ctrl p
  | MODEL_CTRL p => validate_model_ctrl p
  | MODEL_PROGRESS p => validate_model_progress p
  end.

(** ** UTF-8: the truncation and the validator agree *)

(** A continuation run that succeeds consumes [extra] non-NUL bytes, whatever
    follows them. *)
Lemma utf8_cont_split extra cp p cp' p' :
  utf8_cont extra cp p = Some (cp', p') ->
  exists q, p = q ++ p' /\ length q = extra /\ no_nul q
            /\ forall rest, utf8_cont extra cp (q ++ rest) = Some (cp', rest).
Proof.
  revert cp p. induction extra as [|extra IH]; intros cp p H; simpl in H.
  - injection H as <- <-. exists []. repeat split. constructor.
  - destruct p as [|next p]; [done|]. case_if H.
    apply IH in H as (q & -> & Hl & Hq & Hr). exists (next :: q).
    split; [done|]. split; [simpl; lia|]. split; [constructor; [by intros ->|done]|].
    intros rest. simpl. by rewrite Hc, Hr.
Qed.

(** One character of a valid string: its bytes, and the check on any rest. *)
Definition utf8_char (c : Z) (q : list Z) : Prop :=
  c <> 0 /\ no_nul q /\
  (c <= 0x7F /\ q = []
   \/ 0x7F < c /\ exists cp min_cp cp',
        utf8_lead c = Some (length q, cp, min_cp)
        /\ utf8_code_point_ok cp' min_cp = true
        /\ forall rest, utf8_cont (length q) cp (q ++ rest) = Some (cp', rest)).

Lemma utf8_valid_char fuel c q rest :
  utf8_char c q -> utf8_valid_loop (S fuel) (c :: q ++ rest) = utf8_valid_loop fuel rest.
Proof.
  intros (_ & _ & [[Hc ->]|(Hc & cp & min_cp & cp' & Hlead & Hok & Hcont)]); simpl.
  - by destruct (Z.leb_spec c 0x7F); [|lia].
  - destruct (Z.leb_spec c 0x7F); [lia|]. rewrite Hlead, Hcont, Hok, zlen_app.
    pose proof (zlen_nonneg rest). unfold zlen at 1.
    by destruct (Z.ltb_spec (Z.of_nat (length q) + zlen rest) (Z.of_nat (length q))); [lia|].
Qed.

Lemma utf8_safe_char fuel c q rest max len :
  utf8_char c q ->
  utf8_safe_len_loop (S fuel) (c :: q ++ rest) max len =
  if len + 1 + zlen q <=? max then utf8_safe_len_loop fuel rest max (len + 1 + zlen q) else len.
Proof.
  intros (Hnz & _ & [[Hc ->]|(Hc & cp & min_cp & cp' & Hlead & Hok & Hcont)]); simpl;
    rewrite ?zlen_nil; (destruct (Z.eqb_spec c 0); [done|]).
  - destruct (Z.leb_spec c 0x7F); [|lia]. rewrite Z.add_0_r.
    by destruct (Z.ltb_spec len max), (Z.leb_spec (len + 1) max); try lia.
  - destruct (Z.leb_spec c 0x7F); [lia|]. rewrite Hlead, Hcont, Hok. unfold zlen.
    destruct (Z.ltb_spec len max), (Z.leb_spec (len + 1 + Z.of_nat (length q)) max),
      (Z.ltb_spec max (len + 1 + Z.of_nat (length q))); try lia; done.
Qed.

Lemma utf8_valid_head fuel c s :
  c <> 0 -> utf8_valid_loop (S fuel) (c :: s) = true ->
  exists q rest, s = q ++ rest /\ utf8_char c q.
Proof.
  intros Hnz H. simpl in H. destruct (Z.leb_spec c 0x7F).
  - exists [], s. split; [done|]. split; [done|]. split; [constructor|]. by left.
  - destruct (utf8_lead c) as [[[extra cp] min_cp]|] eqn:Hlead; [|done]. case_if H.
    destruct (utf8_cont extra cp s) as [[cp' rest]|] eqn:Hcont; [|done]. case_if H.
    apply utf8_cont_split in Hcont as (q & -> & <- & Hq & Hr).
    exists q, rest. split; [done|]. split; [done|]. split; [done|]. right.
    split; [done|]. exists cp, min_cp, cp'. by rewrite negb_false_iff in Hc0.
Qed.

Lemma utf8_safe_head fuel c s max len :
  c <> 0 -> len < max -> utf8_safe_len_loop (S fuel) (c :: s) max len <> len ->
  exists q rest, s = q ++ rest /\ utf8_char c q /\ len + 1 + zlen q <= max.
Proof.
  intros Hnz Hlt H. simpl in H. destruct (Z.ltb_spec len max); [simpl in H|lia].
  destruct (Z.eqb_spec c 0); [done|]. destruct (Z.leb_spec c 0x7F).
  - exists [], s. split; [done|]. rewrite zlen_nil. split; [|lia].
    split; [done|]. split; [constructor|]. by left.
  - destruct (utf8_lead c) as [[[extra cp] min_cp]|] eqn:Hlead; [|done].
    destruct (Z.ltb_spec max (len + 1 + Z.of_nat extra)); [done|].
    destruct (utf8_cont extra cp s) as [[cp' rest]|] eqn:Hcont; [|done].
    destruct (utf8_code_point_ok cp' min_cp) eqn:Hok; [|done].
    apply utf8_cont_split in Hcont as (q & -> & <- & Hq & Hr).
    exists q, rest. split; [done|]. split; [|unfold zlen; lia]. split; [done|]. split; [done|].
    right. split; [done|]. by exists cp, min_cp, cp'.
Qed.

Lemma ztake_char n (c : Z) q rest :
  0 <= n -> ztake (1 + zlen q + n) (c :: q ++ rest) = c :: q ++ ztake n rest.
Proof.
  intros. unfold ztake. pose proof (zlen_nonneg q).
  replace (Z.to_nat (1 + zlen q + n)) with (S (length q + Z.to_nat n)) by zlia.
  simpl. f_equal. by rewrite take_app_add.
Qed.

Lemma utf8_safe_sound fuel p max len :
  0 <= len <= max ->
  let n := utf8_safe_len_loop fuel p max len - len in
  0 <= n <= max - len /\ n <= zlen p /\ no_nul (ztake n p)
  /\ forall f, n <= Z.of_nat f -> utf8_valid_loop f (ztake n p) = true.
Proof.
  revert p len. induction fuel as [|fuel IH]; intros p len Hlen n.
  { subst n. simpl. rewrite Z.sub_diag. pose proof (zlen_nonneg p).
    split_and!; [lia..|constructor|by intros []]. }
  destruct (decide (utf8_safe_len_loop (S fuel) p max len = len)) as [E|E].
  { subst n. rewrite E, Z.sub_diag. pose proof (zlen_nonneg p).
    split_and!; [lia..|constructor|by intros []]. }
  destruct p as [|c s]; [by simpl in E; destruct (negb _) in E|].
  assert (len < max /\ c <> 0) as [Hlt Hnz].
  { simpl in E. destruct (Z.ltb_spec len max); [|done]. split; [done|]. by intros ->. }
  apply utf8_safe_head in E as (q & rest & -> & Hc & Hmax); [|done..].
  pose proof (zlen_nonneg q). destruct (IH rest (len + 1 + zlen q)) as (H1 & H2 & H3 & H4); [lia|].
  subst n. rewrite (utf8_safe_char _ _ _ _ _ _ Hc). rewrite (proj2 (Z.leb_le _ _) Hmax).
  set (r := utf8_safe_len_loop fuel rest max (len + 1 + zlen q)) in *.
  replace (r - len) with (1 + zlen q + (r - (len + 1 + zlen q))) by lia.
  rewrite ztake_char, zlen_cons, zlen_app by lia. split_and!; [lia..| |].
  - destruct Hc as (? & ? & _). constructor; [done|]. by apply Forall_app.
  - intros [|f] Hf; [lia|]. rewrite (utf8_valid_char _ _ _ _ Hc). apply H4. lia.
Qed.

Lemma utf8_safe_complete fuel f p max len :
  0 <= len <= max -> max - len <= Z.of_nat fuel -> max - len <= zlen p ->
  no_nul (ztake (max - len) p) -> utf8_valid_loop f (ztake (max - len) p) = true ->
  utf8_safe_len_loop fuel p max len = max.
Proof.
  revert f p len. induction fuel as [|fuel IH]; intros f p len Hlen Hfuel Hp Hnul Hv.
  { simpl. lia. }
  destruct (Z.eq_dec len max) as [->|Hne].
  { simpl. by destruct (Z.ltb_spec max max); [lia|]. }
  destruct p as [|c s]; [rewrite zlen_nil in Hp; lia|].
  rewrite zlen_cons in Hp.
  assert (ztake (max - len) (c :: s) = c :: ztake (max - len - 1) s) as E.
  { unfold ztake. by replace (Z.to_nat (max - len)) with (S (Z.to_nat (max - len - 1))) by lia. }
  rewrite E in Hnul, Hv. apply Forall_cons_iff in Hnul as [Hnz Hnul].
  destruct f as [|f]; [done|].
  destruct (utf8_valid_head _ _ _ Hnz Hv) as (q & rest & Hs & Hc).
  rewrite Hs in Hv, Hnul. apply Forall_app in Hnul as [_ Hnul].
  rewrite (utf8_valid_char _ _ _ _ Hc) in Hv.
  pose proof (ztake_zdrop (max - len - 1) s) as Es. rewrite Hs in Es.
  assert (zlen q + zlen rest = max - len - 1) as El.
  { rewrite <- zlen_app, <- Hs. apply zlen_ztake. lia. }
  pose proof (zlen_nonneg rest). pose proof (zlen_nonneg q).
  rewrite <- Es, <- app_assoc, (utf8_safe_char _ _ _ _ _ _ Hc).
  destruct (Z.leb_spec (len + 1 + zlen q) max); [|lia].
  assert (ztake (max - (len + 1 + zlen q)) (rest ++ zdrop (max - len - 1) s) = rest) as Er.
  { replace (max - (len + 1 + zlen q)) with (zlen rest) by lia. by apply ztake_app_exact. }
  apply (IH f); rewrite ?Er; try done; try lia.
  rewrite zlen_app. pose proof (zlen_nonneg (zdrop (max - len - 1) s)). lia.
Qed.

(** The truncation [vw_utf8_safe_len] and the validator [is_valid_utf8] agree: the
    prefix it keeps stays within the buffer and the limit, holds no NUL and is
    valid UTF-8; and when the first [max] bytes already are valid UTF-8 without
    a NUL it keeps all of them. *)
Theorem utf8_safe_len_valid (p : list Z) (max : Z) :
  0 <= max ->
  let n := vw_utf8_safe_len (Some p) max in
  0 <= n <= max /\ n <= zlen p /\ no_nul (ztake n p) /\ is_valid_utf8 p n = true
  /\ (max <= zlen p -> no_nul (ztake max p) -> is_valid_utf8 p max = true -> n = max).
Proof.
  intros Hmax n. subst n. unfold vw_utf8_safe_len, is_valid_utf8.
  destruct (Z.eqb_spec max 0) as [->|Hne].
  { pose proof (zlen_nonneg p). split_and!; (lia || done || constructor). }
  destruct (utf8_safe_sound (Z.to_nat max) p max 0) as (H1 & H2 & H3 & H4); [lia|].
  rewrite Z.sub_0_r in *. split_and!; [lia..|done|apply H4; lia|].
  intros Hlen Hnul Hv.
  apply (utf8_safe_complete _ (Z.to_nat max)); rewrite ?Z.sub_0_r; try done; lia.
Qed.

(** "a", a quarter note in three bytes, then a truncated two-byte sequence. *)
Lemma utf8_safe_len_valid_witness :
  is_valid_utf8 [0x61; 0xE2; 0x99; 0xAA; 0xC3] (vw_utf8_safe_len (Some [0x61; 0xE2; 0x99; 0xAA; 0xC3]) 5)
  = true.
Proof. apply (utf8_safe_len_valid [0x61; 0xE2; 0x99; 0xAA; 0xC3] 5). lia. Defined.
