(* ===== verification/Codec.v ===== *)
(** * The wire codec

    [src/protocol/src/vw_protocol_codec.c]. An encoder appends to the bytes
    written so far and fails when the next field would pass the end of the
    buffer; a decoder reads from the bytes that are left and fails when a field
    is longer than they are. Both are small state-and-failure monads, so that
    each message's case reads as the macro sequence of the source. *)

From S2P Require Import Prelude.
From S2P Require Import ProtocolTypes.
From S2P Require Import Validate.

Declare Scope codec_scope.
Delimit Scope codec_scope with codec.

(** ** Encoding *)

(** [enc cap w]: the bytes written after the step, [w] before it, in a buffer of
    [cap] bytes; [None] is [return false]. *)
Definition enc : Type := Z -> list Z -> option (list Z).

Definition ENC_BYTES (bs : list Z) : enc := fun buffer_size written =>
  if buffer_size <? zlen written + zlen bs then None else Some (written ++ bs).
Definition ENC_FIELD (size : nat) (val : Z) : enc := ENC_BYTES (le_enc size val).
Definition enc_seq (a b : enc) : enc := fun cap w =>
  match a cap w with None => None | Some w => b cap w end.
Definition enc_done : enc := fun _ w => Some w.
(** [if (!cond) return false;] *)
Definition enc_require (cond : bool) : enc := fun _ w => if cond then Some w else None.

Notation "a '>>>' b" := (enc_seq a b) (at level 65, right associativity) : codec_scope.
Open Scope codec_scope.

(** The [length] bytes behind a [char*]. *)
Definition ptr_bytes (p : option (list Z)) (length : Z) : list Z := ztake length (default [] p).
(** [p->length > 0 && !p->ptr] fails the encoder. *)
Definition ptr_ok (p : option (list Z)) (length : Z) : bool :=
  negb ((0 <? length) && bool_decide (p = None)).

Definition encode_hello (p : vw_msg_hello_t) : enc :=
  enc_require (ptr_ok (hello_client_version p) (hello_client_version_length p)) >>>
  ENC_FIELD 2 (hello_min_major p) >>>
  ENC_FIELD 2 (hello_max_major p) >>>
  ENC_BYTES (hello_auth_token p) >>>
  ENC_FIELD 2 (hello_client_version_length p) >>>
  ENC_BYTES (ptr_bytes (hello_client_version p) (hello_client_version_length p)).

Definition encode_hello_ack (p : vw_msg_hello_ack_t) : enc :=
  enc_require (ptr_ok (ack_worker_version p) (ack_worker_version_length p)) >>>
  ENC_FIELD 2 (ack_selected_major p) >>>
  ENC_FIELD 2 (ack_selected_minor p) >>>
  ENC_FIELD 4 (ack_capability_flags p) >>>
  ENC_FIELD 2 (ack_worker_version_length p) >>>
  ENC_BYTES (ptr_bytes (ack_worker_version p) (ack_worker_version_length p)).

(** The length a bounded string is encoded with: [strnlen] clamped below the
    capacity. *)
Definition clamp_len (len capacity : Z) : Z :=
  if capacity <=? len then capacity - 1 else len.

Definition start_model_id_len (p : vw_msg_start_t) : Z :=
  clamp_len (strnlen (start_model_id p) VW_MAX_MODEL_ID_BYTES) VW_MAX_MODEL_ID_BYTES.
Definition start_lang_len (p : vw_msg_start_t) : Z :=
  clamp_len (strnlen (start_language p) 16) 16.
Definition start_url_len (p : vw_msg_start_t) : Z :=
  clamp_len (if 0 <? start_source_url_len p then start_source_url_len p
             else strnlen (start_source_url p) VW_MAX_SOURCE_URL_BYTES) VW_MAX_SOURCE_URL_BYTES.

Definition encode_start (p : vw_msg_start_t) : enc :=
  ENC_BYTES (start_session_id p) >>>
  ENC_FIELD 8 (start_timeline_origin_pts_us p) >>>
  ENC_FIELD 4 (start_sample_rate p) >>>
  ENC_FIELD 2 (start_channels p) >>>
  ENC_FIELD 2 (start_sample_format p) >>>
  ENC_FIELD 2 (start_model_id_len p) >>>
  ENC_BYTES (ztake (start_model_id_len p) (start_model_id p)) >>>
  ENC_FIELD 2 (start_lang_len p) >>>
  ENC_BYTES (ztake (start_lang_len p) (start_language p)) >>>
  ENC_FIELD 2 (start_source_kind p) >>>
  ENC_FIELD 2 (start_url_len p) >>>
  if 0 <? start_url_len p then ENC_BYTES (ztake (start_url_len p) (start_source_url p))
  else enc_done.

Definition encode_position (p : vw_msg_position_t) : enc :=
  ENC_BYTES (pos_session_id p) >>>
  ENC_FIELD 8 (pos_current_pts_us p) >>>
  ENC_FIELD 8 (pos_input_time_us p) >>>
  ENC_FIELD 4 (pos_playback_rate p) >>>
  ENC_FIELD 4 (pos_flags p).

Definition encode_audio (p : vw_msg_audio_t) : enc :=
  enc_require (ptr_ok (audio_pcm_data p) (audio_pcm_bytes p)) >>>
  ENC_BYTES (audio_session_id p) >>>
  ENC_FIELD 8 (audio_start_pts_us p) >>>
  ENC_FIELD 8 (audio_duration_us p) >>>
  ENC_FIELD 4 (audio_pcm_bytes p) >>>
  ENC_BYTES (ptr_bytes (audio_pcm_data p) (audio_pcm_bytes p)).

Definition encode_control (p : vw_msg_control_t) : enc :=
  ENC_BYTES (ctl_session_id p) >>>
  ENC_FIELD 2 (ctl_reason p).

Definition encode_segment (p : vw_caption_segment_t) : enc :=
  enc_require (ptr_ok (seg_text_utf8 p) (seg_text_bytes p)) >>>
  ENC_BYTES (seg_session_id p) >>>
  ENC_FIELD 8 (seg_segment_id p) >>>
  ENC_FIELD 8 (seg_start_pts_us p) >>>
  ENC_FIELD 8 (seg_end_pts_us p) >>>
  ENC_FIELD 1 (seg_is_final p) >>>
  ENC_FIELD 2 (seg_text_bytes p) >>>
  ENC_BYTES (ptr_bytes (seg_text_utf8 p) (seg_text_bytes p)) >>>
  enc_require (ptr_ok (seg_translated_text_utf8 p) (seg_translated_text_bytes p)) >>>
  if seg_translation_attempted p || (0 <? seg_translated_text_bytes p) then
    ENC_FIELD 2 (seg_translated_text_bytes p) >>>
    ENC_BYTES (ptr_bytes (seg_translated_text_utf8 p) (seg_translated_text_bytes p)) >>>
    ENC_FIELD 4 (seg_translation_latency_us p) >>>
    ENC_FIELD 1 (seg_translation_tier p)
  else enc_done.

Definition encode_translate_ctrl (p : vw_msg_translate_ctrl_t) : enc :=
  ENC_BYTES (tctl_session_id p) >>>
  ENC_FIELD 1 (tctl_enabled p) >>>
  ENC_BYTES (tctl_source_lang p) >>>
  ENC_BYTES (tctl_target_lang p) >>>
  ENC_FIELD 1 (tctl_mode p).

Definition encode_status (p : vw_msg_status_t) : enc :=
  ENC_BYTES (status_session_id p) >>>
  ENC_FIELD 4 (status_state p) >>>
  ENC_FIELD 8 (status_queued_audio_us p) >>>
  ENC_FIELD 8 (status_inference_us p) >>>
  ENC_FIELD 8 (status_dropped_audio_us p) >>>
  ENC_BYTES (status_resolved_backend p).

Definition encode_model_ctrl (p : vw_msg_model_ctrl_t) : enc :=
  ENC_BYTES (mctl_session_id p) >>>
  ENC_FIELD 1 (mctl_action p) >>>
  ENC_BYTES (mctl_model_id p).

Definition encode_model_progress (p : vw_msg_model_progress_t) : enc :=
  ENC_BYTES (mprog_session_id p) >>>
  ENC_FIELD 1 (mprog_stage p) >>>
  ENC_FIELD 1 (mprog_pct p) >>>
  ENC_FIELD 8 (mprog_bytes_done p) >>>
  ENC_FIELD 8 (mprog_bytes_total p) >>>
  ENC_BYTES (mprog_model_id p).

Definition encode_error (p : vw_msg_error_t) : enc :=
  ENC_BYTES (err_session_id p) >>>
  ENC_FIELD 4 (err_error_code p) >>>
  ENC_FIELD 1 (err_recoverable p) >>>
  enc_require (negb (VW_MAX_ERROR_MSG_BYTES <=? strnlen (err_message p) VW_MAX_ERROR_MSG_BYTES)) >>>
  ENC_BYTES (err_message p).

Definition encode_started (p : vw_msg_started_t) : enc :=
  ENC_BYTES (started_session_id p) >>>
  ENC_FIELD 1 (started_source_active p).

Definition encode_message (m : message) : enc :=
  match m with
  | HELLO p => encode_hello p
  | HELLO_ACK p => encode_hello_ack p
  | START_SESSION p => encode_start p
  | POSITION p => encode_position p
  | AUDIO_PCM p => encode_audio p
  | PAUSE p | RESUME p | STOP_SESSION p => encode_control p
  | CAPTION_SEGMENT p => encode_segment p
  | TRANSLATE_CTRL p => encode_translate_ctrl p
  | STATUS p => encode_status p
  | MODEL_CTRL p => encode_model_ctrl p
  | MODEL_PROGRESS p => encode_model_progress p
  | ERROR p => encode_error p
  | STARTED p => encode_started p
  | SHUTDOWN => enc_done
  end.

Definition vw_protocol_encode_payload (m : message) (buffer_size : Z) : option (list Z) :=
  encode_message m buffer_size [].

(** The header struct is packed, so its copy is its fields in order. *)
Definition header_bytes (h : vw_frame_header_t) : list Z :=
  le_enc 4 (hdr_magic h) ++ le_enc 2 (hdr_major h) ++ le_enc 2 (hdr_type h)
  ++ le_enc 4 (hdr_payload_length h) ++ le_enc 8 (hdr_sequence h).

Definition sizeof_header : Z := 20.

Definition vw_protocol_encode_header (h : vw_frame_header_t) (buffer_size : Z) : option (list Z) :=
  if buffer_size <? sizeof_header then None else Some (header_bytes h).

(** ** Decoding *)

(** [dec A]: a read from the bytes of the buffer that are left. *)
Definition dec (A : Type) : Type := list Z -> option (A * list Z).
Definition dec_ret {A} (a : A) : dec A := fun r => Some (a, r).
Definition dec_fail {A} : dec A := fun _ => None.
Definition dec_bind {A B} (m : dec A) (f : A -> dec B) : dec B := fun r =>
  match m r with None => None | Some (a, r) => f a r end.
Notation "'let*' x := m 'in' k" := (dec_bind m (fun x => k))
  (at level 10, x pattern, k at level 200) : codec_scope.

Definition DEC_BYTES (len : Z) : dec (list Z) := fun r =>
  if zlen r <? len then None else Some (ztake len r, zdrop len r).
Definition DEC_FIELD (size : nat) : dec Z := fun r =>
  match DEC_BYTES (Z.of_nat size) r with
  | None => None
  | Some (bs, r) => Some (le_dec bs, r)
  end.
(** A signed 64-bit field. *)
Definition DEC_I64 : dec Z := let* x := DEC_FIELD 8 in dec_ret (i64 x).
Definition DEC_PTR (len : Z) : dec (option (list Z)) := let* x := DEC_BYTES len in dec_ret (Some x).
(** [buffer_size - read_pos] *)
Definition dec_left : dec Z := fun r => Some (zlen r, r).
Definition dec_require (cond : bool) : dec unit := if cond then dec_ret tt else dec_fail.

(** [a[n] = '\0'] in an array of [n + 1] bytes. *)
Definition force_nul (n : Z) (a : list Z) : list Z := ztake n a ++ [0].

Definition decode_hello : dec message :=
  let* min_major := DEC_FIELD 2 in
  let* max_major := DEC_FIELD 2 in
  let* auth_token := DEC_BYTES VW_AUTH_TOKEN_BYTES in
  let* client_version_length := DEC_FIELD 2 in
  let* client_version := DEC_PTR client_version_length in
  dec_ret (HELLO (mk_hello min_major max_major auth_token client_version_length client_version)).

Definition decode_hello_ack : dec message :=
  let* selected_major := DEC_FIELD 2 in
  let* selected_minor := DEC_FIELD 2 in
  let* capability_flags := DEC_FIELD 4 in
  let* worker_version_length := DEC_FIELD 2 in
  let* worker_version := DEC_PTR worker_version_length in
  dec_ret (HELLO_ACK (mk_hello_ack selected_major selected_minor capability_flags
                                   worker_version_length worker_version)).

(** The optional source URL at the end of a START payload. *)
Definition decode_start_url : dec (Z * list Z) :=
  let* remaining := dec_left in
  if 0 <? remaining then
    let* url_len := DEC_FIELD 2 in
    let* _ := dec_require (negb (VW_MAX_SOURCE_URL_BYTES <=? url_len)) in
    let* url := DEC_BYTES url_len in
    dec_ret (url_len, cpad VW_MAX_SOURCE_URL_BYTES url)
  else dec_ret (0, zreplicate VW_MAX_SOURCE_URL_BYTES 0).

(** [memset(p, 0, sizeof( *p))] comes first: every array is zero past the bytes
    copied into it. *)
Definition decode_start : dec message :=
  let* session_id := DEC_BYTES VW_SESSION_ID_BYTES in
  let* origin := DEC_I64 in
  let* sample_rate := DEC_FIELD 4 in
  let* channels := DEC_FIELD 2 in
  let* sample_format := DEC_FIELD 2 in
  let* model_id_len := DEC_FIELD 2 in
  let* _ := dec_require (negb (VW_MAX_MODEL_ID_BYTES <=? model_id_len)) in
  let* model_id := DEC_BYTES model_id_len in
  let* lang_len := DEC_FIELD 2 in
  let* _ := dec_require (negb (16 <=? lang_len)) in
  let* language := DEC_BYTES lang_len in
  let* source_kind := DEC_FIELD 2 in
  let* url := decode_start_url in
  dec_ret (START_SESSION (mk_start session_id origin sample_rate channels sample_format
             (cpad VW_MAX_MODEL_ID_BYTES model_id) (cpad 16 language) source_kind
             (fst url) (snd url))).

Definition decode_position : dec message :=
  let* session_id := DEC_BYTES VW_SESSION_ID_BYTES in
  let* current_pts_us := DEC_I64 in
  let* input_time_us := DEC_I64 in
  let* playback_rate := DEC_FIELD 4 in
  let* flags := DEC_FIELD 4 in
  dec_ret (POSITION (mk_position session_id current_pts_us input_time_us playback_rate flags)).

Definition decode_audio : dec message :=
  let* session_id := DEC_BYTES VW_SESSION_ID_BYTES in
  let* start_pts_us := DEC_I64 in
  let* duration_us := DEC_I64 in
  let* pcm_bytes := DEC_FIELD 4 in
  let* pcm_data := DEC_PTR pcm_bytes in
  dec_ret (AUDIO_PCM (mk_audio session_id start_pts_us duration_us pcm_bytes pcm_data)).

Definition decode_control (wrap : vw_msg_control_t -> message) : dec message :=
  let* session_id := DEC_BYTES VW_SESSION_ID_BYTES in
  let* reason := DEC_FIELD 2 in
  dec_ret (wrap (mk_control session_id reason)).

(** The optional translation tail of a caption: exactly the length, the text,
    the latency and the tier. *)
Definition decode_segment_tail (base : option (list Z) -> Z -> bool -> Z -> Z -> message) : dec message :=
  let* remaining := dec_left in
  if 0 <? remaining then
    let* _ := dec_require (negb (remaining <? 2 + 4 + 1)) in
    let* translated_text_bytes := DEC_FIELD 2 in
    let* translated_text := (if 0 <? translated_text_bytes then DEC_PTR translated_text_bytes
                             else dec_ret None) in
    let* remaining := dec_left in
    let* _ := dec_require (remaining =? 4 + 1) in
    let* latency := DEC_FIELD 4 in
    let* tier := DEC_FIELD 1 in
    dec_ret (base translated_text translated_text_bytes true latency tier)
  else dec_ret (base None 0 false 0 0).

Definition decode_segment : dec message :=
  let* session_id := DEC_BYTES VW_SESSION_ID_BYTES in
  let* segment_id := DEC_FIELD 8 in
  let* start_pts_us := DEC_I64 in
  let* end_pts_us := DEC_I64 in
  let* is_final := DEC_FIELD 1 in
  let* text_bytes := DEC_FIELD 2 in
  let* text := DEC_PTR text_bytes in
  decode_segment_tail (fun translated translated_bytes attempted latency tier =>
    CAPTION_SEGMENT (mk_segment session_id segment_id start_pts_us end_pts_us is_final
                       text text_bytes translated translated_bytes attempted latency tier)).

Definition decode_translate_ctrl : dec message :=
  let* buffer_size := dec_left in
  let* _ := dec_require (buffer_size =? VW_MSG_TRANSLATE_CTRL_PAYLOAD_BYTES) in
  let* session_id := DEC_BYTES VW_SESSION_ID_BYTES in
  let* enabled := DEC_FIELD 1 in
  let* source_lang := DEC_BYTES 16 in
  let* target_lang := DEC_BYTES 16 in
  let* mode := DEC_FIELD 1 in
  dec_ret (TRANSLATE_CTRL (mk_translate_ctrl session_id enabled (force_nul 15 source_lang)
                             (force_nul 15 target_lang) mode)).

Definition decode_status_counters (backend : dec (list Z)) : dec message :=
  let* session_id := DEC_BYTES VW_SESSION_ID_BYTES in
  let* state := DEC_FIELD 4 in
  let* queued := DEC_I64 in
  let* inference := DEC_I64 in
  let* dropped := DEC_I64 in
  let* resolved_backend := backend in
  dec_ret (STATUS (mk_status session_id state queued inference dropped resolved_backend)).

Definition decode_status : dec message :=
  let* buffer_size := dec_left in
  if 60 <=? buffer_size then
    decode_status_counters (let* b := DEC_BYTES 16 in dec_ret (force_nul 15 b))
  else
    let* _ := dec_require (negb (buffer_size <? 44)) in
    decode_status_counters (dec_ret (zreplicate 16 0)).

Definition decode_model_ctrl : dec message :=
  let* buffer_size := dec_left in
  let* _ := dec_require (buffer_size =? VW_MSG_MODEL_CTRL_PAYLOAD_BYTES) in
  let* session_id := DEC_BYTES VW_SESSION_ID_BYTES in
  let* action := DEC_FIELD 1 in
  let* model_id := DEC_BYTES 32 in
  dec_ret (MODEL_CTRL (mk_model_ctrl session_id action (force_nul 31 model_id))).

Definition decode_model_progress : dec message :=
  let* buffer_size := dec_left in
  let* _ := dec_require (buffer_size =? VW_MSG_MODEL_PROGRESS_PAYLOAD_BYTES) in
  let* session_id := DEC_BYTES VW_SESSION_ID_BYTES in
  let* stage := DEC_FIELD 1 in
  let* pct := DEC_FIELD 1 in
  let* bytes_done := DEC_FIELD 8 in
  let* bytes_total := DEC_FIELD 8 in
  let* model_id := DEC_BYTES 32 in
  dec_ret (MODEL_PROGRESS (mk_model_progress session_id stage pct bytes_done bytes_total
                             (force_nul 31 model_id))).

(** [memchr(p->message, 0, VW_MAX_ERROR_MSG_BYTES)] *)
Definition has_nul (a : list Z) : bool := existsb (fun c => c =? 0) a.

Definition decode_error : dec message :=
  let* session_id := DEC_BYTES VW_SESSION_ID_BYTES in
  let* error_code := DEC_FIELD 4 in
  let* recoverable := DEC_FIELD 1 in
  let* text := DEC_BYTES VW_MAX_ERROR_MSG_BYTES in
  dec_ret (ERROR (mk_error session_id error_code recoverable
    (if negb (has_nul text) then force_nul (VW_MAX_ERROR_MSG_BYTES - 1) text else text))).

Definition decode_started : dec message :=
  let* buffer_size := dec_left in
  if buffer_size =? 1 then
    let* source_active := DEC_FIELD 1 in
    dec_ret (STARTED (mk_started (zreplicate 16 0) source_active))
  else
    let* session_id := DEC_BYTES VW_SESSION_ID_BYTES in
    let* source_active := DEC_FIELD 1 in
    dec_ret (STARTED (mk_started session_id source_active)).

Definition decode_message (type : Z) : dec message :=
  if type =? VW_MSG_HELLO then decode_hello
  else if type =? VW_MSG_HELLO_ACK then decode_hello_ack
  else if type =? VW_MSG_START_SESSION then decode_start
  else if type =? VW_MSG_POSITION then decode_position
  else if type =? VW_MSG_AUDIO_PCM then decode_audio
  else if type =? VW_MSG_PAUSE then decode_control PAUSE
  else if type =? VW_MSG_RESUME then decode_control RESUME
  else if type =? VW_MSG_STOP_SESSION then decode_control STOP_SESSION
  else if type =? VW_MSG_CAPTION_SEGMENT then decode_segment
  else if type =? VW_MSG_TRANSLATE_CTRL then decode_translate_ctrl
  else if type =? VW_MSG_STATUS then decode_status
  else if type =? VW_MSG_MODEL_CTRL then decode_model_ctrl
  else if type =? VW_MSG_MODEL_PROGRESS then decode_model_progress
  else if type =? VW_MSG_ERROR then decode_error
  else if type =? VW_MSG_STARTED then decode_started
  else if type =? VW_MSG_SHUTDOWN then dec_ret SHUTDOWN
  else dec_fail.

(** A decoded payload leaves no byte unread ([read_pos != buffer_size]). *)
Definition vw_protocol_decode_payload (type : Z) (buffer : list Z) : option message :=
  match decode_message type buffer with
  | Some (m, []) => Some m
  | _ => None
  end.

Definition decode_header_fields : dec vw_frame_header_t :=
  let* magic := DEC_FIELD 4 in
  let* major := DEC_FIELD 2 in
  let* type := DEC_FIELD 2 in
  let* payload_length := DEC_FIELD 4 in
  let* sequence := DEC_FIELD 8 in
  dec_ret (mk_header magic major type payload_length sequence).

(** The header read from the first bytes of the buffer, and its validation. *)
Definition vw_protocol_decode_header (buffer : list Z) : option vw_frame_header_t :=
  match decode_header_fields buffer with
  | Some (h, _) => if vw_protocol_validate_header h then Some h else None
  | None => None
  end.

(** ** Specification

    [layout m] is the payload a message is serialised to and [encodable m] the
    encoder's own checks; [wire_view m] is the message a decoder reads back:
    pointers are non-NULL, strings end at their NUL or at their clamped length. *)

Definition segment_has_tail (p : vw_caption_segment_t) : bool :=
  seg_translation_attempted p || (0 <? seg_translated_text_bytes p).

Definition layout (m : message) : list Z :=
  match m with
  | HELLO p =>
      le_enc 2 (hello_min_major p) ++ le_enc 2 (hello_max_major p) ++ hello_auth_token p
      ++ le_enc 2 (hello_client_version_length p)
      ++ ptr_bytes (hello_client_version p) (hello_client_version_length p)
  | HELLO_ACK p =>
      le_enc 2 (ack_selected_major p) ++ le_enc 2 (ack_selected_minor p)
      ++ le_enc 4 (ack_capability_flags p) ++ le_enc 2 (ack_worker_version_length p)
      ++ ptr_bytes (ack_worker_version p) (ack_worker_version_length p)
  | START_SESSION p =>
      start_session_id p ++ le_enc 8 (start_timeline_origin_pts_us p)
      ++ le_enc 4 (start_sample_rate p) ++ le_enc 2 (start_channels p)
      ++ le_enc 2 (start_sample_format p)
      ++ le_enc 2 (start_model_id_len p) ++ ztake (start_model_id_len p) (start_model_id p)
      ++ le_enc 2 (start_lang_len p) ++ ztake (start_lang_len p) (start_language p)
      ++ le_enc 2 (start_source_kind p) ++ le_enc 2 (start_url_len p)
      ++ (if 0 <? start_url_len p then ztake (start_url_len p) (start_source_url p) else [])
  | AUDIO_PCM p =>
      audio_session_id p ++ le_enc 8 (audio_start_pts_us p) ++ le_enc 8 (audio_duration_us p)
      ++ le_enc 4 (audio_pcm_bytes p) ++ ptr_bytes (audio_pcm_data p) (audio_pcm_bytes p)
  | PAUSE p | RESUME p | STOP_SESSION p => ctl_session_id p ++ le_enc 2 (ctl_reason p)
  | CAPTION_SEGMENT p =>
      seg_session_id p ++ le_enc 8 (seg_segment_id p) ++ le_enc 8 (seg_start_pts_us p)
      ++ le_enc 8 (seg_end_pts_us p) ++ le_enc 1 (seg_is_final p) ++ le_enc 2 (seg_text_bytes p)
      ++ ptr_bytes (seg_text_utf8 p) (seg_text_bytes p)
      ++ (if segment_has_tail p then
            le_enc 2 (seg_translated_text_bytes p)
            ++ ptr_bytes (seg_translated_text_utf8 p) (seg_translated_text_bytes p)
            ++ le_enc 4 (seg_translation_latency_us p) ++ le_enc 1 (seg_translation_tier p)
          else [])
  | STATUS p =>
      status_session_id p ++ le_enc 4 (status_state p) ++ le_enc 8 (status_queued_audio_us p)
      ++ le_enc 8 (status_inference_us p) ++ le_enc 8 (status_dropped_audio_us p)
      ++ status_resolved_backend p
  | ERROR p =>
      err_session_id p ++ le_enc 4 (err_error_code p) ++ le_enc 1 (err_recoverable p)
      ++ err_message p
  | SHUTDOWN => []
  | STARTED p => started_session_id p ++ le_enc 1 (started_source_active p)
  | POSITION p =>
      pos_session_id p ++ le_enc 8 (pos_current_pts_us p) ++ le_enc 8 (pos_input_time_us p)
      ++ le_enc 4 (pos_playback_rate p) ++ le_enc 4 (pos_flags p)
  | MODEL_CTRL p => mctl_session_id p ++ le_enc 1 (mctl_action p) ++ mctl_model_id p
  | MODEL_PROGRESS p =>
      mprog_session_id p ++ le_enc 1 (mprog_stage p) ++ le_enc 1 (mprog_pct p)
      ++ le_enc 8 (mprog_bytes_done p) ++ le_enc 8 (mprog_bytes_total p) ++ mprog_model_id p
  | TRANSLATE_CTRL p =>
      tctl_session_id p ++ le_enc 1 (tctl_enabled p) ++ tctl_source_lang p
      ++ tctl_target_lang p ++ le_enc 1 (tctl_mode p)
  end.

Definition encodable (m : message) : bool :=
  match m with
  | HELLO p => ptr_ok (hello_client_version p) (hello_client_version_length p)
  | HELLO_ACK p => ptr_ok (ack_worker_version p) (ack_worker_version_length p)
  | AUDIO_PCM p => ptr_ok (audio_pcm_data p) (audio_pcm_bytes p)
  | CAPTION_SEGMENT p =>
      ptr_ok (seg_text_utf8 p) (seg_text_bytes p)
      && ptr_ok (seg_translated_text_utf8 p) (seg_translated_text_bytes p)
  | ERROR p => strnlen (err_message p) VW_MAX_ERROR_MSG_BYTES <? VW_MAX_ERROR_MSG_BYTES
  | _ => true
  end.

Definition ptr_view (p : option (list Z)) (len : Z) : option (list Z) := Some (ptr_bytes p len).

Definition wire_view (m : message) : message :=
  match m with
  | HELLO p =>
      HELLO (mk_hello (hello_min_major p) (hello_max_major p) (hello_auth_token p)
        (hello_client_version_length p)
        (ptr_view (hello_client_version p) (hello_client_version_length p)))
  | HELLO_ACK p =>
      HELLO_ACK (mk_hello_ack (ack_selected_major p) (ack_selected_minor p)
        (ack_capability_flags p) (ack_worker_version_length p)
        (ptr_view (ack_worker_version p) (ack_worker_version_length p)))
  | START_SESSION p =>
      START_SESSION (mk_start (start_session_id p) (start_timeline_origin_pts_us p)
        (start_sample_rate p) (start_channels p) (start_sample_format p)
        (cpad VW_MAX_MODEL_ID_BYTES (ztake (start_model_id_len p) (start_model_id p)))
        (cpad 16 (ztake (start_lang_len p) (start_language p)))
        (start_source_kind p) (start_url_len p)
        (cpad VW_MAX_SOURCE_URL_BYTES (ztake (start_url_len p) (start_source_url p))))
  | AUDIO_PCM p =>
      AUDIO_PCM (mk_audio (audio_session_id p) (audio_start_pts_us p) (audio_duration_us p)
        (audio_pcm_bytes p) (ptr_view (audio_pcm_data p) (audio_pcm_bytes p)))
  | CAPTION_SEGMENT p =>
      let text := ptr_view (seg_text_utf8 p) (seg_text_bytes p) in
      if segment_has_tail p then
        CAPTION_SEGMENT (mk_segment (seg_session_id p) (seg_segment_id p) (seg_start_pts_us p)
          (seg_end_pts_us p) (seg_is_final p) text (seg_text_bytes p)
          (if 0 <? seg_translated_text_bytes p
           then ptr_view (seg_translated_text_utf8 p) (seg_translated_text_bytes p) else None)
          (seg_translated_text_bytes p) true (seg_translation_latency_us p)
          (seg_translation_tier p))
      else
        CAPTION_SEGMENT (mk_segment (seg_session_id p) (seg_segment_id p) (seg_start_pts_us p)
          (seg_end_pts_us p) (seg_is_final p) text (seg_text_bytes p) None 0 false 0 0)
  | STATUS p =>
      STATUS (mk_status (status_session_id p) (status_state p) (status_queued_audio_us p)
        (status_inference_us p) (status_dropped_audio_us p)
        (force_nul 15 (status_resolved_backend p)))
  | MODEL_CTRL p =>
      MODEL_CTRL (mk_model_ctrl (mctl_session_id p) (mctl_action p) (force_nul 31 (mctl_model_id p)))
  | MODEL_PROGRESS p =>
      MODEL_PROGRESS (mk_model_progress (mprog_session_id p) (mprog_stage p) (mprog_pct p)
        (mprog_bytes_done p) (mprog_bytes_total p) (force_nul 31 (mprog_model_id p)))
  | TRANSLATE_CTRL p =>
      TRANSLATE_CTRL (mk_translate_ctrl (tctl_session_id p) (tctl_enabled p)
        (force_nul 15 (tctl_source_lang p)) (force_nul 15 (tctl_target_lang p)) (tctl_mode p))
  | _ => m
  end.

(** The type invariant of a message: every integer at its width, every array at
    its size, every pointed-to buffer at least as long as the length beside it. *)
Definition wf_ptr (p : option (list Z)) (len : Z) : Prop :=
  match p with None => True | Some bs => len <= zlen bs /\ is_bytes bs end.

Definition wf_message (m : message) : Prop :=
  match m with
  | HELLO p =>
      is_unsigned 16 (hello_min_major p) /\ is_unsigned 16 (hello_max_major p)
      /\ is_array 32 (hello_auth_token p) /\ is_unsigned 16 (hello_client_version_length p)
      /\ wf_ptr (hello_client_version p) (hello_client_version_length p)
  | HELLO_ACK p =>
      is_unsigned 16 (ack_selected_major p) /\ is_unsigned 16 (ack_selected_minor p)
      /\ is_unsigned 32 (ack_capability_flags p) /\ is_unsigned 16 (ack_worker_version_length p)
      /\ wf_ptr (ack_worker_version p) (ack_worker_version_length p)
  | START_SESSION p =>
      is_array 16 (start_session_id p) /\ is_signed 64 (start_timeline_origin_pts_us p)
      /\ is_unsigned 32 (start_sample_rate p) /\ is_unsigned 16 (start_channels p)
      /\ is_unsigned 16 (start_sample_format p) /\ is_array 64 (start_model_id p)
      /\ is_array 16 (start_language p) /\ is_unsigned 16 (start_source_kind p)
      /\ is_unsigned 16 (start_source_url_len p) /\ is_array 1024 (start_source_url p)
  | AUDIO_PCM p =>
      is_array 16 (audio_session_id p) /\ is_signed 64 (audio_start_pts_us p)
      /\ is_signed 64 (audio_duration_us p) /\ is_unsigned 32 (audio_pcm_bytes p)
      /\ wf_ptr (audio_pcm_data p) (audio_pcm_bytes p)
  | PAUSE p | RESUME p | STOP_SESSION p =>
      is_array 16 (ctl_session_id p) /\ is_unsigned 16 (ctl_reason p)
  | CAPTION_SEGMENT p =>
      is_array 16 (seg_session_id p) /\ is_unsigned 64 (seg_segment_id p)
      /\ is_signed 64 (seg_start_pts_us p) /\ is_signed 64 (seg_end_pts_us p)
      /\ is_unsigned 8 (seg_is_final p) /\ is_unsigned 16 (seg_text_bytes p)
      /\ wf_ptr (seg_text_utf8 p) (seg_text_bytes p)
      /\ is_unsigned 16 (seg_translated_text_bytes p)
      /\ wf_ptr (seg_translated_text_utf8 p) (seg_translated_text_bytes p)
      /\ is_unsigned 32 (seg_translation_latency_us p) /\ is_unsigned 8 (seg_translation_tier p)
  | STATUS p =>
      is_array 16 (status_session_id p) /\ is_unsigned 32 (status_state p)
      /\ is_signed 64 (status_queued_audio_us p) /\ is_signed 64 (status_inference_us p)
      /\ is_signed 64 (status_dropped_audio_us p) /\ is_array 16 (status_resolved_backend p)
  | ERROR p =>
      is_array 16 (err_session_id p) /\ is_unsigned 32 (err_error_code p)
      /\ is_unsigned 8 (err_recoverable p) /\ is_array 256 (err_message p)
  | SHUTDOWN => True
  | STARTED p => is_array 16 (started_session_id p) /\ is_unsigned 8 (started_source_active p)
  | POSITION p =>
      is_array 16 (pos_session_id p) /\ is_signed 64 (pos_current_pts_us p)
      /\ is_signed 64 (pos_input_time_us p) /\ is_unsigned 32 (pos_playback_rate p)
      /\ is_unsigned 32 (pos_flags p)
  | MODEL_CTRL p =>
      is_array 16 (mctl_session_id p) /\ is_unsigned 8 (mctl_action p) /\ is_array 32 (mctl_model_id p)
  | MODEL_PROGRESS p =>
      is_array 16 (mprog_session_id p) /\ is_unsigned 8 (mprog_stage p)
      /\ is_unsigned 8 (mprog_pct p) /\ is_unsigned 64 (mprog_bytes_done p)
      /\ is_unsigned 64 (mprog_bytes_total p) /\ is_array 32 (mprog_model_id p)
  | TRANSLATE_CTRL p =>
      is_array 16 (tctl_session_id p) /\ is_unsigned 8 (tctl_enabled p)
      /\ is_array 16 (tctl_source_lang p) /\ is_array 16 (tctl_target_lang p)
      /\ is_unsigned 8 (tctl_mode p)
  end.

(** Every string array the message carries ends in a NUL inside its bounds. *)
Definition terminated (capacity : Z) (a : list Z) : Prop := zlen (cstr a) < capacity.

Definition strings_terminated (m : message) : Prop :=
  match m with
  | START_SESSION p =>
      terminated 64 (start_model_id p) /\ terminated 16 (start_language p)
      /\ terminated 1024 (start_source_url p)
  | STATUS p => terminated 16 (status_resolved_backend p)
  | ERROR p => terminated 256 (err_message p)
  | MODEL_CTRL p => terminated 32 (mctl_model_id p)
  | MODEL_PROGRESS p => terminated 32 (mprog_model_id p)
  | TRANSLATE_CTRL p => terminated 16 (tctl_source_lang p) /\ terminated 16 (tctl_target_lang p)
  | _ => True
  end.

(** ** The encoder against its layout

    [EncodesTo e g bs]: step [e] appends [bs] when its own checks [g] hold and
    the result fits, and fails otherwise. The instances follow the combinators,
    so the class search computes the guard and bytes of a whole encoder. *)
Class EncodesTo (e : enc) (g : bool) (bs : list Z) : Prop :=
  encodes_to : forall cap w, zlen w <= cap ->
    e cap w = if g && (zlen w + zlen bs <=? cap) then Some (w ++ bs) else None.

#[export] Instance encodes_bytes bs : EncodesTo (ENC_BYTES bs) true bs.
Proof.
  intros cap w Hw. unfold ENC_BYTES. simpl.
  destruct (Z.ltb_spec cap (zlen w + zlen bs)), (Z.leb_spec (zlen w + zlen bs) cap);
    (reflexivity || lia).
Qed.
#[export] Instance encodes_field n z : EncodesTo (ENC_FIELD n z) true (le_enc n z).
Proof. apply encodes_bytes. Qed.
#[export] Instance encodes_done : EncodesTo enc_done true [].
Proof.
  intros cap w Hw. unfold enc_done. rewrite app_nil_r, zlen_nil. simpl.
  destruct (Z.leb_spec (zlen w + 0) cap); [done|lia].
Qed.
#[export] Instance encodes_require g : EncodesTo (enc_require g) g [].
Proof.
  intros cap w Hw. unfold enc_require. rewrite app_nil_r, zlen_nil.
  destruct g; [|done]. simpl. destruct (Z.leb_spec (zlen w + 0) cap); [done|lia].
Qed.
#[export] Instance encodes_seq a b ga gb la lb :
  EncodesTo a ga la -> EncodesTo b gb lb -> EncodesTo (a >>> b) (ga && gb) (la ++ lb).
Proof.
  intros Ha Hb cap w Hw. unfold enc_seq. rewrite (Ha cap w Hw), zlen_app.
  destruct ga; [|done]. simpl.
  pose proof (zlen_nonneg lb). destruct (Z.leb_spec (zlen w + zlen la) cap).
  - rewrite Hb by (rewrite zlen_app; lia). rewrite zlen_app, app_assoc.
    by replace (zlen w + (zlen la + zlen lb)) with (zlen w + zlen la + zlen lb) by lia.
  - destruct gb; [|done]. simpl.
    destruct (Z.leb_spec (zlen w + (zlen la + zlen lb)) cap); [lia|done].
Qed.
#[export] Instance encodes_if (c : bool) a b ga gb la lb :
  EncodesTo a ga la -> EncodesTo b gb lb ->
  EncodesTo (if c then a else b) (if c then ga else gb) (if c then la else lb).
Proof. by destruct c. Qed.

Lemma encodes_eq e g bs g' bs' :
  EncodesTo e g bs -> g = g' -> bs = bs' -> EncodesTo e g' bs'.
Proof. by intros ? <- <-. Qed.

Lemma ltb_negb_leb a b : negb (a <=? b) = (b <? a).
Proof. apply eq_sym, Z.ltb_antisym. Qed.

#[export] Instance encodes_message m : EncodesTo (encode_message m) (encodable m) (layout m).
Proof.
  destruct m as [p|p|p|p|p|p|p|p|p|p| |p|p|p|p|p]; simpl;
    (eapply encodes_eq; [apply _ | simpl | simpl; rewrite ?app_nil_r; try done]);
    rewrite ?andb_true_r; try done.
  - by destruct (0 <? start_url_len p).
  - unfold segment_has_tail. destruct (_ || _); by rewrite ?andb_true_r.
  - apply ltb_negb_leb.
Qed.

(** ** Decoding a layout *)

Lemma dec_bytes_app len bs r : zlen bs = len -> DEC_BYTES len (bs ++ r) = Some (bs, r).
Proof.
  intros H. unfold DEC_BYTES. pose proof (zlen_nonneg r).
  rewrite zlen_app, ztake_app_exact, zdrop_app_exact by done.
  by destruct (Z.ltb_spec (zlen bs + zlen r) len); [lia|].
Qed.
Lemma dec_field_app n z r :
  DEC_FIELD n (le_enc n z ++ r) = Some (z mod 2 ^ (8 * Z.of_nat n), r).
Proof. unfold DEC_FIELD. by rewrite dec_bytes_app, le_dec_enc by apply zlen_le_enc. Qed.

Section decode_lemmas.
Context {B : Type}.
Implicit Types (f : Z -> dec B) (r bs : list Z).

Lemma bind_bytes (f : list Z -> dec B) len bs r :
  zlen bs = len -> dec_bind (DEC_BYTES len) f (bs ++ r) = f bs r.
Proof. intros H. unfold dec_bind. by rewrite dec_bytes_app. Qed.
Lemma bind_field f n z r :
  is_unsigned (8 * Z.of_nat n) z -> dec_bind (DEC_FIELD n) f (le_enc n z ++ r) = f z r.
Proof. intros H. unfold dec_bind. by rewrite dec_field_app, Z.mod_small. Qed.
Lemma bind_i64 f z r :
  is_signed 64 z -> dec_bind DEC_I64 f (le_enc 8 z ++ r) = f z r.
Proof.
  intros H. unfold dec_bind, DEC_I64. unfold dec_bind. rewrite dec_field_app.
  unfold dec_ret, i64. change (8 * Z.of_nat 8) with 64. by rewrite swrap_mod, swrap_id.
Qed.
Lemma bind_ptr (f : option (list Z) -> dec B) len bs r :
  zlen bs = len -> dec_bind (DEC_PTR len) f (bs ++ r) = f (Some bs) r.
Proof. intros H. unfold dec_bind, DEC_PTR. unfold dec_bind. by rewrite dec_bytes_app. Qed.
Lemma bind_left f r : dec_bind dec_left f r = f (zlen r) r.
Proof. done. Qed.
Lemma bind_require (f : unit -> dec B) (c : bool) r :
  c = true -> dec_bind (dec_require c) f r = f tt r.
Proof. by intros ->. Qed.
(** The last field of a payload. *)
Lemma bind_bytes_last (f : list Z -> dec B) len bs :
  zlen bs = len -> dec_bind (DEC_BYTES len) f bs = f bs [].
Proof. intros. rewrite <- (app_nil_r bs) at 1. by apply bind_bytes. Qed.
Lemma bind_field_last f n z :
  is_unsigned (8 * Z.of_nat n) z -> dec_bind (DEC_FIELD n) f (le_enc n z) = f z [].
Proof. intros. rewrite <- (app_nil_r (le_enc n z)). by apply bind_field. Qed.
Lemma bind_ptr_last (f : option (list Z) -> dec B) len bs :
  zlen bs = len -> dec_bind (DEC_PTR len) f bs = f (Some bs) [].
Proof. intros. rewrite <- (app_nil_r bs) at 1. by apply bind_ptr. Qed.
Lemma bind_some {A} (m : dec A) (f : A -> dec B) r a r' :
  m r = Some (a, r') -> dec_bind m f r = f a r'.
Proof. intros H. unfold dec_bind. by rewrite H. Qed.
Lemma bind_ret {A} (a : A) (f : A -> dec B) r : dec_bind (dec_ret a) f r = f a r.
Proof. done. Qed.
Lemma bind_assoc {A C} (m : dec A) (g : A -> dec C) (f : C -> dec B) r :
  dec_bind (dec_bind m g) f r = dec_bind m (fun x => dec_bind (g x) f) r.
Proof. unfold dec_bind. by destruct (m r) as [[??]|]. Qed.
End decode_lemmas.

Lemma zlen_ptr_bytes p len :
  ptr_ok p len = true -> 0 <= len -> wf_ptr p len -> zlen (ptr_bytes p len) = len.
Proof.
  unfold ptr_ok, ptr_bytes. intros Hok Hlen Hp. destruct p as [bs|]; simpl.
  - destruct Hp. by apply zlen_ztake.
  - rewrite bool_decide_eq_true_2, andb_true_r in Hok by done. bool_to_prop.
    unfold ztake. rewrite take_nil, zlen_nil. lia.
Qed.

(** Discharge the side conditions of one decoding step and go to the next. *)
Ltac wf_side :=
  unfold is_array, is_unsigned in *; autounfold with vw_consts in *;
  rewrite ?app_nil_l; autorewrite with vw in *; first [lia | simpl in *; lia].
Ltac dec_step :=
  first
    [ rewrite bind_left
    | rewrite bind_ret
    | rewrite bind_assoc
    | rewrite bind_field by wf_side
    | rewrite bind_i64 by assumption
    | rewrite bind_bytes by wf_side
    | rewrite bind_ptr by wf_side
    | rewrite bind_require by wf_side
    | rewrite bind_field_last by wf_side
    | rewrite bind_bytes_last by wf_side
    | rewrite bind_ptr_last by wf_side ].
Ltac dec_steps := cbn [layout wire_view]; rewrite <- ?app_assoc; repeat (rewrite ?app_nil_l; dec_step).

Lemma clamp_len_bounds len cap : 0 <= len -> 0 < cap -> 0 <= clamp_len len cap < cap.
Proof. intros. unfold clamp_len. destruct (Z.leb_spec cap len); lia. Qed.
Lemma strnlen_nonneg s max : 0 <= strnlen s max.
Proof. apply zlen_nonneg. Qed.

Lemma start_lens p :
  is_unsigned 16 (start_source_url_len p) ->
  0 <= start_model_id_len p < 64 /\ 0 <= start_lang_len p < 16 /\ 0 <= start_url_len p < 1024.
Proof.
  intros [Hu _]. repeat split; try apply clamp_len_bounds; try apply strnlen_nonneg; try done.
  all: destruct (0 <? start_source_url_len p); [done|apply strnlen_nonneg].
Qed.

Lemma decode_start_url_layout n url :
  zlen url = n -> 0 <= n < 1024 ->
  decode_start_url (le_enc 2 n ++ url) = Some ((n, cpad VW_MAX_SOURCE_URL_BYTES url), []).
Proof.
  intros Hn ?. unfold decode_start_url. rewrite bind_left, zlen_app, zlen_le_enc.
  destruct (Z.ltb_spec 0 (Z.of_nat 2 + zlen url)); [|lia]. by dec_steps.
Qed.

Lemma decode_start_layout p :
  wf_message (START_SESSION p) ->
  decode_start (layout (START_SESSION p)) = Some (wire_view (START_SESSION p), []).
Proof.
  intros (? & ? & ? & ? & ? & [? _] & [? _] & ? & Hu & [? _]).
  destruct (start_lens p Hu) as (? & ? & ?).
  assert (zlen (ztake (start_model_id_len p) (start_model_id p)) = start_model_id_len p)
    by (apply zlen_ztake; lia).
  assert (zlen (ztake (start_lang_len p) (start_language p)) = start_lang_len p)
    by (apply zlen_ztake; lia).
  assert (zlen (ztake (start_url_len p) (start_source_url p)) = start_url_len p)
    by (apply zlen_ztake; lia).
  assert ((if 0 <? start_url_len p then ztake (start_url_len p) (start_source_url p) else [])
          = ztake (start_url_len p) (start_source_url p)) as E.
  { destruct (Z.ltb_spec 0 (start_url_len p)); [done|].
    by replace (start_url_len p) with 0 by lia. }
  unfold decode_start. dec_steps. rewrite E.
  by erewrite bind_some by (by apply decode_start_url_layout).
Qed.

Lemma decode_segment_tail_layout base n text latency tier :
  is_unsigned 16 n -> zlen text = n -> is_unsigned 32 latency -> is_unsigned 8 tier ->
  decode_segment_tail base (le_enc 2 n ++ text ++ le_enc 4 latency ++ le_enc 1 tier)
  = Some (base (if 0 <? n then Some text else None) n true latency tier, []).
Proof.
  intros ? Hn ? ?. unfold decode_segment_tail. rewrite bind_left. autorewrite with vw.
  pose proof (zlen_nonneg text).
  match goal with |- context [if 0 <? ?k + _ then _ else _] => destruct (Z.ltb_spec 0 (k + (zlen text + (Z.of_nat 4 + Z.of_nat 1)))); [|lia] end.
  dec_steps. destruct (Z.ltb_spec 0 n).
  - by dec_steps.
  - rewrite (zlen_zero text) by lia. erewrite bind_some by reflexivity. by dec_steps.
Qed.

Lemma decode_segment_layout p :
  wf_message (CAPTION_SEGMENT p) -> encodable (CAPTION_SEGMENT p) = true ->
  decode_segment (layout (CAPTION_SEGMENT p)) = Some (wire_view (CAPTION_SEGMENT p), []).
Proof.
  intros (? & ? & ? & ? & ? & ? & ? & ? & ? & ? & ?) [Hok Hok']%andb_prop.
  assert (zlen (ptr_bytes (seg_text_utf8 p) (seg_text_bytes p)) = seg_text_bytes p)
    by (apply zlen_ptr_bytes; [done|wf_side|done]).
  assert (zlen (ptr_bytes (seg_translated_text_utf8 p) (seg_translated_text_bytes p))
          = seg_translated_text_bytes p) by (apply zlen_ptr_bytes; [done|wf_side|done]).
  unfold decode_segment. dec_steps.
  destruct (segment_has_tail p); [|done].
  by rewrite decode_segment_tail_layout.
Qed.

Lemma decode_status_layout p :
  wf_message (STATUS p) -> decode_status (layout (STATUS p)) = Some (wire_view (STATUS p), []).
Proof.
  intros (? & ? & ? & ? & ? & ?). unfold decode_status. rewrite bind_left.
  assert (zlen (layout (STATUS p)) = 60) as ->.
  { simpl. autorewrite with vw. wf_side. }
  change (60 <=? 60) with true. cbv iota. unfold decode_status_counters. by dec_steps.
Qed.

(** The decoder the message type selects. *)
Lemma decode_message_type m :
  decode_message (message_type m) =
  match m with
  | HELLO _ => decode_hello | HELLO_ACK _ => decode_hello_ack
  | START_SESSION _ => decode_start | AUDIO_PCM _ => decode_audio
  | PAUSE _ => decode_control PAUSE | RESUME _ => decode_control RESUME
  | STOP_SESSION _ => decode_control STOP_SESSION
  | CAPTION_SEGMENT _ => decode_segment | STATUS _ => decode_status | ERROR _ => decode_error
  | SHUTDOWN => dec_ret SHUTDOWN | STARTED _ => decode_started | POSITION _ => decode_position
  | MODEL_CTRL _ => decode_model_ctrl | MODEL_PROGRESS _ => decode_model_progress
  | TRANSLATE_CTRL _ => decode_translate_ctrl
  end.
Proof. by destruct m. Qed.

Lemma has_nul_strnlen a : zlen a = 256 -> (strnlen a 256 <? 256) = true -> has_nul a = true.
Proof.
  unfold strnlen. intros Ha. rewrite ztake_all by lia. rewrite <- Ha. clear Ha.
  induction a as [|c a IH]; [done|]. simpl. destruct (c =? 0) eqn:E; [done|].
  rewrite !zlen_cons. intros. apply IH. lia.
Qed.

Lemma decode_error_layout p :
  wf_message (ERROR p) -> encodable (ERROR p) = true ->
  decode_error (layout (ERROR p)) = Some (ERROR p, []).
Proof.
  intros (? & ? & ? & [Hlen ?]) Hnul. unfold decode_error. dec_steps.
  rewrite (has_nul_strnlen (err_message p) Hlen Hnul). by destruct p.
Qed.

Lemma decode_layout m :
  wf_message m -> encodable m = true ->
  decode_message (message_type m) (layout m) = Some (wire_view m, []).
Proof.
  intros Hwf Hok. rewrite decode_message_type.
  destruct m as [p|p|p|p|p|p|p|p|p|p| |p|p|p|p|p]; unfold wf_message in Hwf.
  - destruct Hwf as (? & ? & ? & ? & ?).
    pose proof (zlen_ptr_bytes _ _ Hok ltac:(wf_side) ltac:(done)).
    unfold decode_hello. by dec_steps.
  - destruct Hwf as (? & ? & ? & ? & ?).
    pose proof (zlen_ptr_bytes _ _ Hok ltac:(wf_side) ltac:(done)).
    unfold decode_hello_ack. by dec_steps.
  - by apply decode_start_layout.
  - destruct Hwf as (? & ? & ? & ? & ?).
    pose proof (zlen_ptr_bytes _ _ Hok ltac:(wf_side) ltac:(done)).
    unfold decode_audio. by dec_steps.
  - destruct Hwf, p. unfold decode_control. by dec_steps.
  - destruct Hwf, p. unfold decode_control. by dec_steps.
  - destruct Hwf, p. unfold decode_control. by dec_steps.
  - by apply decode_segment_layout.
  - by apply decode_status_layout.
  - by apply decode_error_layout.
  - done.
  - destruct Hwf as [[Hs ?] ?]. unfold decode_started. cbn [layout].
    rewrite bind_left, zlen_app, zlen_le_enc, Hs.
    change (16 + Z.of_nat 1 =? 1) with false. cbv iota. dec_steps. by destruct p.
  - destruct Hwf as (? & ? & ? & ? & ?), p. unfold decode_position. by dec_steps.
  - destruct Hwf as (? & ? & ?). unfold decode_model_ctrl. by dec_steps.
  - destruct Hwf as (? & ? & ? & ? & ? & ?). unfold decode_model_progress. by dec_steps.
  - destruct Hwf as (? & ? & ? & ? & ?). unfold decode_translate_ctrl. by dec_steps.
Qed.

(** ** What a decoder can return

    [dec_post m P]: on any bytes at all, a result of [m] satisfies [P] and
    leaves bytes. *)
Definition dec_post {A} (m : dec A) (P : A -> Prop) : Prop :=
  forall r a r', is_bytes r -> m r = Some (a, r') -> P a /\ is_bytes r'.

Lemma post_ret {A} (a : A) (P : A -> Prop) : P a -> dec_post (dec_ret a) P.
Proof. intros HP r a' r' Hr [= <- <-]. done. Qed.
Lemma post_bind {A B} (m : dec A) (f : A -> dec B) (P : A -> Prop) (Q : B -> Prop) :
  dec_post m P -> (forall a, P a -> dec_post (f a) Q) -> dec_post (dec_bind m f) Q.
Proof.
  intros Hm Hf r b r' Hr. unfold dec_bind. destruct (m r) as [[a r1]|] eqn:E; [|done].
  destruct (Hm _ _ _ Hr E). by apply Hf.
Qed.
Lemma post_left : dec_post dec_left (fun n => 0 <= n).
Proof. intros r a r' Hr [= <- <-]. auto using zlen_nonneg. Qed.
Lemma post_require (c : bool) : dec_post (dec_require c) (fun _ => c = true).
Proof. intros r a r' Hr. unfold dec_require. destruct c; [|done]. by intros [= <- <-]. Qed.
Lemma post_bytes len : 0 <= len -> dec_post (DEC_BYTES len) (is_array len).
Proof.
  intros ? r a r' Hr. unfold DEC_BYTES. destruct (Z.ltb_spec (zlen r) len); [done|].
  intros [= <- <-]. split; [|auto with vw]. split; [apply zlen_ztake; lia|auto with vw].
Qed.
Lemma post_field n : dec_post (DEC_FIELD n) (is_unsigned (8 * Z.of_nat n)).
Proof.
  intros r a r' Hr. unfold DEC_FIELD. destruct (DEC_BYTES _ r) as [[bs r1]|] eqn:E; [|done].
  intros [= <- <-]. apply post_bytes in E as [[Hl Hb] ?]; [|lia|done].
  split; [|done]. rewrite <- Hl. by apply le_dec_bound.
Qed.
Lemma post_i64 : dec_post DEC_I64 (is_signed 64).
Proof.
  eapply post_bind; [apply post_field|]. intros a _. apply post_ret, i64_signed.
Qed.
Lemma post_ptr len : 0 <= len ->
  dec_post (DEC_PTR len) (fun p => exists bs, p = Some bs /\ is_array len bs).
Proof.
  intros. eapply post_bind; [by apply post_bytes|]. intros a ?. apply post_ret; eauto.
Qed.
Lemma post_if {A} (c : bool) (m1 m2 : dec A) P :
  (c = true -> dec_post m1 P) -> (c = false -> dec_post m2 P) ->
  dec_post (if c then m1 else m2) P.
Proof. destruct c; auto. Qed.

Lemma array_cpad n len a : is_array len a -> len <= n -> is_array n (cpad n a).
Proof.
  intros [? ?] ?. split; [apply zlen_cpad; lia|]. unfold cpad.
  apply is_bytes_app. auto with vw.
Qed.
Lemma cstr_app_le a k : zlen (cstr (a ++ 0 :: k)) <= zlen a.
Proof.
  induction a as [|c a IH]; simpl; [done|]. destruct (c =? 0); rewrite ?zlen_cons, ?zlen_nil.
  - pose proof (zlen_nonneg a). lia.
  - lia.
Qed.
Lemma terminated_cpad n len a : is_array len a -> len < n -> terminated n (cpad n a).
Proof.
  intros [Hl _] ?. unfold terminated, cpad, zreplicate.
  destruct (Z.to_nat (n - zlen a)) eqn:E; [lia|]. simpl.
  pose proof (cstr_app_le a (replicate n0 0)). lia.
Qed.
Lemma array_force_nul n a : is_array (n + 1) a -> 0 <= n -> is_array (n + 1) (force_nul n a).
Proof.
  intros [Hl Hb] ?. unfold force_nul. split.
  - rewrite zlen_app, zlen_ztake by lia. done.
  - apply is_bytes_app. split; [auto with vw|]. by repeat constructor.
Qed.
Lemma terminated_force_nul n a :
  is_array (n + 1) a -> 0 <= n -> terminated (n + 1) (force_nul n a).
Proof.
  intros [Hl _] ?. unfold terminated, force_nul.
  pose proof (cstr_app_le (ztake n a) []). pose proof (zlen_ztake n a). lia.
Qed.
Lemma terminated_has_nul a n : zlen a = n -> has_nul a = true -> terminated n a.
Proof.
  intros <-. unfold terminated. induction a as [|c a IH]; [done|]. simpl.
  destruct (c =? 0); simpl; rewrite !zlen_cons, ?zlen_nil; [|intros; specialize (IH ltac:(done)); lia].
  intros _. pose proof (zlen_nonneg a). lia.
Qed.
Lemma wf_ptr_array len bs : is_array len bs -> wf_ptr (Some bs) len.
Proof. intros [? ?]. split; [lia|done]. Qed.
Lemma zeros_array n : 0 <= n -> is_array n (zreplicate n 0).
Proof. intros. split; [by apply zlen_replicate|auto with vw]. Qed.
#[export] Hint Resolve array_cpad terminated_cpad array_force_nul terminated_force_nul
  wf_ptr_array zeros_array : vw.

(** The postcondition of every message decoder. *)
Definition decoded (type : Z) (m : message) : Prop :=
  wf_message m /\ strings_terminated m /\ message_type m = type.

Ltac post_step :=
  lazymatch goal with
  | |- dec_post (dec_bind dec_left _) _ => eapply post_bind; [apply post_left|]
  | |- dec_post (dec_bind (dec_require _) _) _ => eapply post_bind; [apply post_require|]
  | |- dec_post (dec_bind (DEC_FIELD _) _) _ => eapply post_bind; [apply post_field|]
  | |- dec_post (dec_bind DEC_I64 _) _ => eapply post_bind; [apply post_i64|]
  | |- dec_post (dec_bind (DEC_BYTES _) _) _ => eapply post_bind; [apply post_bytes; wf_side|]
  | |- dec_post (dec_bind (DEC_PTR _) _) _ => eapply post_bind; [apply post_ptr; wf_side|]
  | |- dec_post (if _ then _ else _) _ => apply post_if
  | |- dec_post (dec_ret _) _ => apply post_ret
  end; simpl; intros.
Ltac post_steps := repeat post_step; destruct_and?; repeat match goal with H : exists _, _ |- _ => destruct H end;
  destruct_and?; subst.
Lemma post_control wrap t :
  (forall p, message_type (wrap p) = t /\ strings_terminated (wrap p) /\
     (is_array 16 (ctl_session_id p) /\ is_unsigned 16 (ctl_reason p) -> wf_message (wrap p))) ->
  dec_post (decode_control wrap) (decoded t).
Proof.
  intros Hw. unfold decode_control. post_steps. destruct (Hw (mk_control a a0)) as (? & ? & ?).
  unfold decoded. auto.
Qed.
Ltac decoded_done :=
  try unfold decoded; simpl; split_and!; try done;
  repeat match goal with
  | |- is_array ?n (cpad _ _) => eapply array_cpad; [eassumption|wf_side]
  | |- terminated ?n (cpad _ _) => eapply terminated_cpad; [eassumption|wf_side]
  | |- is_array _ (force_nul ?n _) => apply (array_force_nul n); [assumption|wf_side]
  | |- terminated _ (force_nul ?n _) => apply (terminated_force_nul n); [assumption|wf_side]
  | |- wf_ptr (Some _) _ => by apply wf_ptr_array
  | |- is_array _ (zreplicate _ _) => by apply zeros_array
  | H : is_array ?n ?x |- ?n <= zlen ?x => by destruct H; lia
  | H : is_array ?n ?x |- is_bytes ?x => by destruct H
  end.

Lemma post_hello : dec_post decode_hello (decoded VW_MSG_HELLO).
Proof. unfold decode_hello. post_steps. decoded_done. Qed.
Lemma post_hello_ack : dec_post decode_hello_ack (decoded VW_MSG_HELLO_ACK).
Proof. unfold decode_hello_ack. post_steps. decoded_done. Qed.
Lemma post_start_url :
  dec_post decode_start_url (fun u => is_unsigned 16 (fst u) /\ is_array 1024 (snd u)
                                      /\ terminated 1024 (snd u)).
Proof. unfold decode_start_url. post_steps; decoded_done. Qed.
Lemma post_start : dec_post decode_start (decoded VW_MSG_START_SESSION).
Proof.
  unfold decode_start. post_steps. eapply post_bind; [apply post_start_url|].
  intros [len url] (? & ? & ?). post_steps. decoded_done.
Qed.
Lemma post_position : dec_post decode_position (decoded VW_MSG_POSITION).
Proof. unfold decode_position. post_steps. decoded_done. Qed.
Lemma post_audio : dec_post decode_audio (decoded VW_MSG_AUDIO_PCM).
Proof. unfold decode_audio. post_steps. decoded_done. Qed.
Lemma post_segment_tail base Q :
  (forall text n attempted latency tier,
     wf_ptr text n -> is_unsigned 16 n -> is_unsigned 32 latency -> is_unsigned 8 tier ->
     Q (base text n attempted latency tier)) ->
  dec_post (decode_segment_tail base) Q.
Proof.
  intros HQ. unfold decode_segment_tail. post_steps.
  - eapply (post_bind _ _ (fun p => wf_ptr p a1)).
    + post_steps; [|done]. intros r x r' Hr Hx. eapply post_ptr in Hx as [(bs & -> & ?) ?]; [|wf_side|done].
      split; [by apply wf_ptr_array|done].
    + intros text ?. post_steps. by apply HQ.
  - by apply HQ.
Qed.
Lemma post_segment : dec_post decode_segment (decoded VW_MSG_CAPTION_SEGMENT).
Proof.
  unfold decode_segment. post_steps. apply post_segment_tail. intros. decoded_done.
Qed.
Lemma post_translate_ctrl : dec_post decode_translate_ctrl (decoded VW_MSG_TRANSLATE_CTRL).
Proof. unfold decode_translate_ctrl. post_steps. decoded_done. Qed.
Lemma post_status_counters backend :
  dec_post backend (fun b => is_array 16 b /\ terminated 16 b) ->
  dec_post (decode_status_counters backend) (decoded VW_MSG_STATUS).
Proof.
  intros Hb. unfold decode_status_counters. post_steps.
  eapply post_bind; [apply Hb|]. intros b [? ?]. post_steps. decoded_done.
Qed.
Lemma post_status : dec_post decode_status (decoded VW_MSG_STATUS).
Proof.
  unfold decode_status. post_steps; apply post_status_counters; post_steps; decoded_done.
Qed.
Lemma post_model_ctrl : dec_post decode_model_ctrl (decoded VW_MSG_MODEL_CTRL).
Proof. unfold decode_model_ctrl. post_steps. decoded_done. Qed.
Lemma post_model_progress : dec_post decode_model_progress (decoded VW_MSG_MODEL_PROGRESS).
Proof. unfold decode_model_progress. post_steps. decoded_done. Qed.
Lemma post_error : dec_post decode_error (decoded VW_MSG_ERROR).
Proof.
  unfold decode_error. post_steps. destruct (has_nul a2) eqn:E; simpl; decoded_done.
  match goal with H : is_array _ a2 |- _ => destruct H end. by apply terminated_has_nul.
Qed.
Lemma post_started : dec_post decode_started (decoded VW_MSG_STARTED).
Proof. unfold decode_started. post_steps; decoded_done. Qed.

Lemma post_message type : dec_post (decode_message type) (decoded type).
Proof.
  unfold decode_message.
  repeat (apply post_if; [intros ->%Z.eqb_eq | intros _]);
    auto using post_hello, post_hello_ack, post_start, post_position, post_audio, post_segment,
      post_translate_ctrl, post_status, post_model_ctrl, post_model_progress, post_error,
      post_started.
  1-3: by apply post_control; intros p; split_and!.
  - by apply post_ret.
  - done.
Qed.

(** ** Properties *)

Lemma encode_payload_layout m cap :
  0 <= cap ->
  vw_protocol_encode_payload m cap =
  if encodable m && (zlen (layout m) <=? cap) then Some (layout m) else None.
Proof.
  intros Hcap. unfold vw_protocol_encode_payload. by rewrite (encodes_message m cap []) by done.
Qed.

(** The payload encoder writes exactly the documented layout of the message, or fails: it
    fails when a pointer with a non-zero length is NULL, when an ERROR text has
    no NUL in its array, or when the layout is longer than the buffer; it never
    writes past [buffer_size]. *)
Theorem encode_payload_correct (m : message) (buffer_size : Z) :
  0 <= buffer_size ->
  vw_protocol_encode_payload m buffer_size =
  if encodable m && (zlen (layout m) <=? buffer_size) then Some (layout m) else None.
Proof.
  apply encode_payload_layout.
Qed.


(** C16: Whatever bytes a peer sends, a payload the decoder accepts is a well-formed
    message of the type asked for: integers in range, arrays at their size,
    lengths covered by the buffer behind each pointer, and every string array
    NUL-terminated inside its bounds. *)
Theorem decode_payload_safe (type : Z) (buffer : list Z) (m : message) :
  is_bytes buffer -> vw_protocol_decode_payload type buffer = Some m ->
  wf_message m /\ strings_terminated m /\ message_type m = type.
Proof.
  intros Hb. unfold vw_protocol_decode_payload.
  destruct (decode_message type buffer) as [[m' [|]]|] eqn:E; [|done..].
  intros [= <-]. by apply post_message in E as [? ?].
Qed.

Definition wf_header (h : vw_frame_header_t) : Prop :=
  is_unsigned 32 (hdr_magic h) /\ is_unsigned 16 (hdr_major h) /\ is_unsigned 16 (hdr_type h)
  /\ is_unsigned 32 (hdr_payload_length h) /\ is_unsigned 64 (hdr_sequence h).

Lemma decode_header_bytes h rest :
  wf_header h -> decode_header_fields (header_bytes h ++ rest) = Some (h, rest).
Proof.
  intros (? & ? & ? & ? & ?). unfold decode_header_fields, header_bytes. dec_steps. by destruct h.
Qed.

(** A header written to the wire is read back unchanged by the receiver exactly when
    it passes header validation, whatever payload follows it. *)
Theorem header_roundtrip (h : vw_frame_header_t) (buffer_size : Z) (bytes payload : list Z) :
  wf_header h -> vw_protocol_encode_header h buffer_size = Some bytes ->
  vw_protocol_decode_header (bytes ++ payload) =
  if vw_protocol_validate_header h then Some h else None.
Proof.
  intros Hwf He. unfold vw_protocol_encode_header in He. case_ifs He. injection He as <-.
  unfold vw_protocol_decode_header. by rewrite decode_header_bytes.
Qed.

(** ** Witnesses *)

Definition sample_segment : message :=
  CAPTION_SEGMENT (mk_segment (zreplicate 16 7) 1 1000000 2500000 1 (Some (str "hello")) 5
                     (Some (str "hallo")) 5 true 1200 2).

Lemma encode_payload_correct_witness :
  vw_protocol_encode_payload sample_segment 4096 = Some (layout sample_segment)
  /\ vw_protocol_encode_payload sample_segment 59 = None.
Proof.
  split.
  - exact (encode_payload_correct sample_segment 4096 ltac:(lia)).
  - exact (encode_payload_correct sample_segment 59 ltac:(lia)).
Defined.

Lemma sample_segment_wf : wf_message sample_segment.
Proof. vm_compute; repeat split; try done; repeat constructor; done. Qed.


Lemma decode_payload_safe_witness :
  wf_message (STARTED (mk_started (zreplicate 16 0) 1)) /\ True
  /\ message_type (STARTED (mk_started (zreplicate 16 0) 1)) = VW_MSG_STARTED.
Proof.
  apply (decode_payload_safe VW_MSG_STARTED [1]); [vm_decide|reflexivity].
Defined.

Definition sample_header : vw_frame_header_t := mk_header VW_PROTOCOL_MAGIC 1 VW_MSG_STATUS 60 42.

Lemma header_roundtrip_witness :
  vw_protocol_decode_header (header_bytes sample_header ++ [1; 2; 3]) = Some sample_header.
Proof.
  apply (header_roundtrip sample_header 20 (header_bytes sample_header) [1; 2; 3]);
    [|reflexivity].
  vm_compute; repeat split; try done.
Defined.
