(* ===== verification/SpscQueue.v ===== *)
(** * The single-producer single-consumer audio queue

    [src/plugin/src/vw_queue.c]: the ring through which the VLC audio callback
    hands chunks to the sender thread. The sequential operations come first,
    then the interleaving of one producer and one consumer at the granularity of
    the atomic accesses. *)

From S2P Require Import Prelude.
From S2P Require Import Ring.
From stdpp Require Import relations.
#[local] Open Scope Z_scope.

(** [vw_audio_chunk_t]: [pcm] holds the [bytes]/2 samples of [pcm_data] in use. *)
Record vw_audio_chunk_t := mk_chunk {
  chunk_start_pts_us : Z;
  chunk_duration_us : Z;
  chunk_sample_rate : Z;
  chunk_channels : Z;
  chunk_bytes : Z;
  chunk_pcm : list Z
}.

(** [pcm_data] as the bytes it is: 16-bit samples, the low byte first. *)
Definition s16_bytes (samples : list Z) : list Z := flat_map (le_enc 2) samples.
Lemma s16_bytes_length samples : zlen (s16_bytes samples) = 2 * zlen samples.
Proof.
  induction samples as [|x samples IH]; [done|]. unfold s16_bytes in *. cbn [flat_map].
  rewrite zlen_app, IH, zlen_cons, zlen_le_enc. lia.
Qed.
Lemma s16_bytes_are_bytes samples : is_bytes (s16_bytes samples).
Proof. induction samples as [|x samples IH]; [constructor|]. apply is_bytes_app. split; [apply le_enc_bytes|exact IH]. Qed.

Definition empty_chunk : vw_audio_chunk_t := mk_chunk 0 0 0 0 0 [].

Record vw_spsc_queue_t := mk_spsc {
  sq_ring_buffer : list vw_audio_chunk_t;
  sq_capacity_chunks : Z;
  sq_head : Z;
  sq_tail : Z;
  sq_audio_dropped_us : Z       (* _Atomic uint64_t *)
}.

Definition vw_spsc_queue_create (capacity_chunks : Z) : option vw_spsc_queue_t :=
  if capacity_chunks =? 0 then None
  else Some (mk_spsc (zreplicate (capacity_chunks + 1) empty_chunk) capacity_chunks 0 0 0).

Definition spsc_next (q : vw_spsc_queue_t) (i : Z) : Z := (i + 1) mod (sq_capacity_chunks q + 1).

(** [atomic_fetch_add] on the [uint64_t] counter; the [int64_t] duration is
    converted to it. *)
Definition spsc_drop (q : vw_spsc_queue_t) (chunk : vw_audio_chunk_t) : vw_spsc_queue_t :=
  mk_spsc (sq_ring_buffer q) (sq_capacity_chunks q) (sq_head q) (sq_tail q)
          (u64 (sq_audio_dropped_us q + chunk_duration_us chunk)).

Definition spsc_write (q : vw_spsc_queue_t) (chunk : vw_audio_chunk_t) : vw_spsc_queue_t :=
  mk_spsc (set_slot (sq_ring_buffer q) (sq_head q) chunk) (sq_capacity_chunks q)
          (sq_head q) (sq_tail q) (sq_audio_dropped_us q).
Definition spsc_publish (q : vw_spsc_queue_t) : vw_spsc_queue_t :=
  mk_spsc (sq_ring_buffer q) (sq_capacity_chunks q) (spsc_next q (sq_head q)) (sq_tail q)
          (sq_audio_dropped_us q).
Definition spsc_advance (q : vw_spsc_queue_t) : vw_spsc_queue_t :=
  mk_spsc (sq_ring_buffer q) (sq_capacity_chunks q) (sq_head q) (spsc_next q (sq_tail q))
          (sq_audio_dropped_us q).

Definition vw_spsc_queue_push (q : vw_spsc_queue_t) (chunk : vw_audio_chunk_t)
  : bool * vw_spsc_queue_t :=
  let next_head := spsc_next q (sq_head q) in
  if next_head =? sq_tail q then (false, spsc_drop q chunk)
  else (true, spsc_publish (spsc_write q chunk)).

Definition vw_spsc_queue_pop (q : vw_spsc_queue_t) : option vw_audio_chunk_t * vw_spsc_queue_t :=
  if sq_tail q =? sq_head q then (None, q)
  else (Some (slot empty_chunk (sq_ring_buffer q) (sq_tail q)), spsc_advance q).

Definition vw_spsc_queue_get_dropped_microseconds (q : option vw_spsc_queue_t) : Z :=
  match q with Some q => sq_audio_dropped_us q | None => 0 end.

(** ** Abstraction to a bounded FIFO *)

Definition spsc_size (q : vw_spsc_queue_t) : Z := sq_capacity_chunks q + 1.
Definition spsc_count (q : vw_spsc_queue_t) : Z := (sq_head q - sq_tail q) mod spsc_size q.
Definition spsc_contents (q : vw_spsc_queue_t) : list vw_audio_chunk_t :=
  ring_read empty_chunk (sq_ring_buffer q) (sq_tail q) (Z.to_nat (spsc_count q)).

Record spsc_inv (q : vw_spsc_queue_t) : Prop := {
  spsc_inv_cap : 0 < sq_capacity_chunks q;
  spsc_inv_len : zlen (sq_ring_buffer q) = spsc_size q;
  spsc_inv_head : 0 <= sq_head q < spsc_size q;
  spsc_inv_tail : 0 <= sq_tail q < spsc_size q
}.

(** The specification: a list and a capacity. *)
Record fifo := mk_fifo { fifo_cap : Z; fifo_items : list vw_audio_chunk_t; fifo_dropped : Z }.
Definition fifo_push (f : fifo) (c : vw_audio_chunk_t) : bool * fifo :=
  if zlen (fifo_items f) =? fifo_cap f
  then (false, mk_fifo (fifo_cap f) (fifo_items f) (u64 (fifo_dropped f + chunk_duration_us c)))
  else (true, mk_fifo (fifo_cap f) (fifo_items f ++ [c]) (fifo_dropped f)).
Definition fifo_pop (f : fifo) : option vw_audio_chunk_t * fifo :=
  match fifo_items f with
  | [] => (None, f)
  | c :: cs => (Some c, mk_fifo (fifo_cap f) cs (fifo_dropped f))
  end.
Definition spsc_abs (q : vw_spsc_queue_t) : fifo :=
  mk_fifo (sq_capacity_chunks q) (spsc_contents q) (sq_audio_dropped_us q).

Lemma spsc_count_bounds q : spsc_inv q -> 0 <= spsc_count q < spsc_size q.
Proof. intros [??? ?]. apply Z.mod_pos_bound. unfold spsc_size in *. lia. Qed.
Lemma zlen_contents q : spsc_inv q -> zlen (spsc_contents q) = spsc_count q.
Proof. intros H%spsc_count_bounds. unfold spsc_contents. rewrite zlen_ring_read. lia. Qed.

(** The window ends at [head]. *)
Lemma spsc_tail_count q : spsc_inv q -> (sq_tail q + spsc_count q) mod spsc_size q = sq_head q.
Proof.
  intros [???]. unfold spsc_count. rewrite Zplus_mod_idemp_r.
  replace (sq_tail q + (sq_head q - sq_tail q)) with (sq_head q) by lia.
  by apply Z.mod_small.
Qed.
(** The full test of [push]. *)
Lemma spsc_full_iff q : spsc_inv q ->
  (spsc_next q (sq_head q) =? sq_tail q) = (spsc_count q =? sq_capacity_chunks q).
Proof.
  intros Hq. pose proof (spsc_count_bounds q Hq) as Hc. pose proof (spsc_tail_count q Hq) as E.
  destruct Hq as [Hcap ? ? Ht]. unfold spsc_next. fold (spsc_size q) in *.
  rewrite <- E, Zplus_mod_idemp_l. unfold spsc_size in *.
  apply eq_true_iff_eq. rewrite !Z.eqb_eq. split; intros H.
  - rewrite <- (Z.mod_small (sq_tail q) (sq_capacity_chunks q + 1)) in H at 2 by lia.
    destruct (Z.eq_dec (spsc_count q) (sq_capacity_chunks q)); [done|]. exfalso.
    apply (mod_distinct (sq_tail q) 0 (spsc_count q + 1) (sq_capacity_chunks q + 1));
      rewrite ?Z.add_0_r, ?Z.add_assoc; lia.
  - rewrite H. replace (sq_tail q + sq_capacity_chunks q + 1)
      with (sq_tail q + 1 * (sq_capacity_chunks q + 1)) by lia.
    rewrite Z_mod_plus_full. by apply Z.mod_small.
Qed.
Lemma spsc_empty_iff q : spsc_inv q -> (sq_tail q =? sq_head q) = (spsc_count q =? 0).
Proof.
  intros Hq. pose proof (spsc_tail_count q Hq) as E. destruct Hq as [Hcap ? ? Ht].
  apply eq_true_iff_eq. rewrite !Z.eqb_eq. unfold spsc_count in *. split; intros H.
  - rewrite H, Z.sub_diag. apply Z.mod_0_l. unfold spsc_size. lia.
  - rewrite H, Z.add_0_r, Z.mod_small in E by done. done.
Qed.

Lemma spsc_count_publish q : spsc_inv q -> spsc_count q <> sq_capacity_chunks q ->
  spsc_count (spsc_publish q) = spsc_count q + 1.
Proof.
  intros Hq Hne. pose proof (spsc_count_bounds q Hq). destruct Hq as [Hcap ???].
  unfold spsc_count, spsc_publish, spsc_size, spsc_next in *; simpl in *.
  rewrite Zminus_mod_idemp_l.
  replace (sq_head q + 1 - sq_tail q) with (sq_head q - sq_tail q + 1) by lia.
  rewrite <- Zplus_mod_idemp_l. apply Z.mod_small. lia.
Qed.
Lemma spsc_count_advance q : spsc_inv q -> spsc_count q <> 0 ->
  spsc_count (spsc_advance q) = spsc_count q - 1.
Proof.
  intros Hq Hne. pose proof (spsc_count_bounds q Hq). destruct Hq as [Hcap ???].
  unfold spsc_count, spsc_advance, spsc_size, spsc_next in *; simpl in *.
  rewrite Zminus_mod_idemp_r.
  replace (sq_head q - (sq_tail q + 1)) with (sq_head q - sq_tail q - 1) by lia.
  rewrite <- Zminus_mod_idemp_l. apply Z.mod_small. lia.
Qed.

Lemma spsc_inv_write q c : spsc_inv q -> spsc_inv (spsc_write q c).
Proof. intros [???]. split; simpl; try done. by rewrite zlen_set_slot. Qed.
Lemma spsc_inv_publish q : spsc_inv q -> spsc_inv (spsc_publish q).
Proof.
  intros [???]. split; simpl; try done.
  apply Z.mod_pos_bound. unfold spsc_size; simpl; lia.
Qed.
Lemma spsc_inv_advance q : spsc_inv q -> spsc_inv (spsc_advance q).
Proof.
  intros [???]. split; simpl; try done.
  apply Z.mod_pos_bound. unfold spsc_size; simpl; lia.
Qed.
Lemma spsc_inv_drop q c : spsc_inv q -> spsc_inv (spsc_drop q c).
Proof. by intros []; split. Qed.

(** The producer's slot is outside the consumer's window. *)
Lemma spsc_contents_write q c : spsc_inv q -> spsc_contents (spsc_write q c) = spsc_contents q.
Proof.
  intros Hq. pose proof (spsc_count_bounds q Hq). pose proof (spsc_tail_count q Hq) as E.
  destruct Hq as [? Hlen ??]. unfold spsc_contents. change (spsc_count (spsc_write q c)) with (spsc_count q).
  simpl. apply ring_read_set_out; [lia|rewrite Hlen; lia|]. intros i Hi.
  rewrite <- E, Hlen. unfold spsc_size in *. apply mod_distinct; lia.
Qed.
(** Publishing makes the written slot the last item. *)
Lemma spsc_contents_publish q c :
  spsc_inv q -> spsc_count q <> sq_capacity_chunks q ->
  spsc_contents (spsc_publish (spsc_write q c)) = spsc_contents q ++ [c].
Proof.
  intros Hq Hne. pose proof (spsc_count_bounds q Hq) as Hc. pose proof (spsc_tail_count q Hq) as E.
  unfold spsc_contents. rewrite spsc_count_publish; [|by apply spsc_inv_write|done].
  change (spsc_count (spsc_write q c)) with (spsc_count q). simpl.
  destruct Hq as [? Hlen ??]. unfold spsc_size in *.
  replace (Z.to_nat (spsc_count q + 1)) with (S (Z.to_nat (spsc_count q))) by lia.
  rewrite <- ring_read_push by lia. do 3 f_equal. rewrite Hlen, <- E at 1. f_equal. lia.
Qed.
Lemma spsc_contents_pop q :
  spsc_inv q -> spsc_count q <> 0 ->
  spsc_contents q = slot empty_chunk (sq_ring_buffer q) (sq_tail q) :: spsc_contents (spsc_advance q).
Proof.
  intros Hq Hne. pose proof (spsc_count_bounds q Hq) as Hc.
  unfold spsc_contents. rewrite spsc_count_advance by done.
  replace (Z.to_nat (spsc_count q)) with (S (Z.to_nat (spsc_count q - 1))) by lia.
  destruct Hq as [? Hlen ??]. simpl. rewrite Hlen, Z.mod_small by done. f_equal.
  unfold spsc_next. fold (spsc_size q). by rewrite <- Hlen, ring_read_mod.
Qed.

(** What [pop] gives. *)
Lemma spsc_pop_spec q : spsc_inv q ->
  match vw_spsc_queue_pop q with
  | (Some c, q') => spsc_contents q = c :: spsc_contents q' /\ spsc_inv q'
  | (None, q') => spsc_contents q = [] /\ q' = q
  end.
Proof.
  intros Hq. unfold vw_spsc_queue_pop. rewrite spsc_empty_iff by done. destruct (Z.eqb_spec (spsc_count q) 0) as [E|E].
  - split; [|done]. unfold spsc_contents. by rewrite E.
  - split; [by apply spsc_contents_pop|by apply spsc_inv_advance].
Qed.
(** And [push]. *)
Lemma spsc_push_spec q c : spsc_inv q ->
  spsc_inv (snd (vw_spsc_queue_push q c))
  /\ spsc_contents (snd (vw_spsc_queue_push q c)) = spsc_contents q ++ (if fst (vw_spsc_queue_push q c) then [c] else []).
Proof.
  intros Hq. unfold vw_spsc_queue_push. rewrite spsc_full_iff by done.
  destruct (Z.eqb_spec (spsc_count q) (sq_capacity_chunks q)) as [E|E]; cbn [fst snd].
  - split; [by apply spsc_inv_drop|]. by rewrite app_nil_r.
  - split; [by apply spsc_inv_publish, spsc_inv_write|by apply spsc_contents_publish].
Qed.

(** ** Interleaving

    Each side runs its operation as the source orders its memory accesses: the
    producer checks for room, writes the slot, then stores [head]; the consumer
    checks for an item, reads the slot, then stores [tail]. *)
Inductive producer := P_idle | P_write (c : vw_audio_chunk_t) | P_publish (c : vw_audio_chunk_t).
Inductive consumer := C_idle | C_read | C_advance (c : vw_audio_chunk_t).

(** [sys_pushed] and [sys_popped] record the accepted and the returned chunks. *)
Record spsc_sys := mk_sys {
  sys_q : vw_spsc_queue_t;
  sys_p : producer;
  sys_c : consumer;
  sys_pushed : list vw_audio_chunk_t;
  sys_popped : list vw_audio_chunk_t
}.

Inductive spsc_step : spsc_sys -> spsc_sys -> Prop :=
  | step_push_room q cc ps po c :
      spsc_next q (sq_head q) <> sq_tail q ->
      spsc_step (mk_sys q P_idle cc ps po) (mk_sys q (P_write c) cc ps po)
  | step_push_full q cc ps po c :
      spsc_next q (sq_head q) = sq_tail q ->
      spsc_step (mk_sys q P_idle cc ps po) (mk_sys (spsc_drop q c) P_idle cc ps po)
  | step_push_write q cc ps po c :
      spsc_step (mk_sys q (P_write c) cc ps po) (mk_sys (spsc_write q c) (P_publish c) cc ps po)
  | step_push_publish q cc ps po c :
      spsc_step (mk_sys q (P_publish c) cc ps po)
                (mk_sys (spsc_publish q) P_idle cc (ps ++ [c]) po)
  | step_pop_some q pp ps po :
      sq_tail q <> sq_head q ->
      spsc_step (mk_sys q pp C_idle ps po) (mk_sys q pp C_read ps po)
  | step_pop_read q pp ps po :
      spsc_step (mk_sys q pp C_read ps po)
        (mk_sys q pp (C_advance (slot empty_chunk (sq_ring_buffer q) (sq_tail q))) ps po)
  | step_pop_advance q pp ps po c :
      spsc_step (mk_sys q pp (C_advance c) ps po)
                (mk_sys (spsc_advance q) pp C_idle ps (po ++ [c])).

Record sys_inv (s : spsc_sys) : Prop := {
  sys_inv_q : spsc_inv (sys_q s);
  sys_inv_p : match sys_p s with
    | P_idle => True
    | P_write _ => spsc_count (sys_q s) <> sq_capacity_chunks (sys_q s)
    | P_publish c => spsc_count (sys_q s) <> sq_capacity_chunks (sys_q s)
        /\ slot empty_chunk (sq_ring_buffer (sys_q s)) (sq_head (sys_q s)) = c
    end;
  sys_inv_c : match sys_c s with
    | C_idle => True
    | C_read => spsc_count (sys_q s) <> 0
    | C_advance c => spsc_count (sys_q s) <> 0
        /\ slot empty_chunk (sq_ring_buffer (sys_q s)) (sq_tail (sys_q s)) = c
    end;
  sys_inv_fifo : sys_pushed s = sys_popped s ++ spsc_contents (sys_q s)
}.

Lemma spsc_room_count q : spsc_inv q ->
  spsc_next q (sq_head q) <> sq_tail q <-> spsc_count q <> sq_capacity_chunks q.
Proof. intros Hq. pose proof (spsc_full_iff q Hq). lia. Qed.
Lemma spsc_item_count q : spsc_inv q -> sq_tail q <> sq_head q <-> spsc_count q <> 0.
Proof. intros Hq. pose proof (spsc_empty_iff q Hq). lia. Qed.

(** The write of the producer and the read of the consumer are on distinct slots. *)
Lemma spsc_write_tail q c :
  spsc_inv q -> spsc_count q <> 0 ->
  slot empty_chunk (sq_ring_buffer (spsc_write q c)) (sq_tail q)
  = slot empty_chunk (sq_ring_buffer q) (sq_tail q).
Proof.
  intros Hq Hne. apply spsc_item_count in Hne; [|done]. destruct Hq.
  simpl. apply slot_set_other; lia.
Qed.

(** A published slot that already holds its chunk: the last item. *)
Lemma spsc_contents_published q :
  spsc_inv q -> spsc_count q <> sq_capacity_chunks q ->
  spsc_contents (spsc_publish q)
  = spsc_contents q ++ [slot empty_chunk (sq_ring_buffer q) (sq_head q)].
Proof.
  intros Hq Hne. pose proof (spsc_count_bounds q Hq). pose proof (spsc_tail_count q Hq) as E.
  unfold spsc_contents. rewrite spsc_count_publish by done. simpl.
  replace (Z.to_nat (spsc_count q + 1)) with (S (Z.to_nat (spsc_count q))) by lia.
  rewrite ring_read_snoc. do 3 f_equal. destruct Hq as [? Hlen ??].
  rewrite Hlen, <- E. f_equal. lia.
Qed.

Lemma sys_inv_step s s' : spsc_step s s' -> sys_inv s -> sys_inv s'.
Proof.
  intros Hstep [Hq Hp Hc Hf]. destruct Hstep; simpl in *; split; simpl; try done.
  - by apply spsc_room_count.
  - by apply spsc_inv_drop.
  - by apply spsc_inv_write.
  - split; [done|]. destruct Hq. apply slot_set_same. lia.
  - destruct cc as [| |x]; [done|done|]. destruct Hc as [? <-]. split; [done|].
    by apply (spsc_write_tail q c).
  - rewrite Hf. f_equal. symmetry. by apply spsc_contents_write.
  - by apply spsc_inv_publish.
  - destruct Hp as [Hne _]. pose proof (spsc_count_bounds q Hq).
    destruct cc as [| |x]; [done|..]; rewrite spsc_count_publish by done; [lia|].
    destruct Hc. split; [lia|done].
  - destruct Hp as [Hne <-]. by rewrite spsc_contents_published, app_assoc, Hf.
  - by apply spsc_item_count.
  - by apply spsc_inv_advance.
  - destruct Hc as [Hne _]. pose proof (spsc_count_bounds q Hq). unfold spsc_size in *.
    destruct pp as [|x|x]; [done|..]; rewrite spsc_count_advance by done; [simpl; lia|].
    destruct Hp. split; [simpl; lia|done].
  - destruct Hc as [Hne <-]. rewrite (spsc_contents_pop q) in Hf by done.
    by rewrite Hf, <- app_assoc.
Qed.

Definition sys_start (q : vw_spsc_queue_t) : spsc_sys := mk_sys q P_idle C_idle [] [].

Lemma spsc_create_inv cap q : 0 < cap -> vw_spsc_queue_create cap = Some q ->
  spsc_inv q /\ spsc_contents q = [].
Proof.
  intros Hcap. unfold vw_spsc_queue_create. destruct (Z.eqb_spec cap 0); [lia|].
  intros [= <-]. split.
  - split; simpl; unfold spsc_size; simpl; rewrite ?zlen_replicate by lia; lia.
  - done.
Qed.

Lemma sys_inv_reach cap q s :
  0 < cap -> vw_spsc_queue_create cap = Some q -> rtc spsc_step (sys_start q) s -> sys_inv s.
Proof.
  intros Hcap Hq Hr. destruct (spsc_create_inv cap q Hcap Hq) as [Hi Hc].
  assert (sys_inv (sys_start q)) as H0 by (split; simpl; [done..|by rewrite Hc]).
  clear Hq Hi Hc. induction Hr; eauto using sys_inv_step.
Qed.

Lemma spsc_step_capacity s s' : spsc_step s s' ->
  sq_capacity_chunks (sys_q s') = sq_capacity_chunks (sys_q s).
Proof. by intros []. Qed.

(** C7: For every interleaving of one producer and one consumer of a created queue, the
    chunks handed to the consumer are exactly the accepted chunks in order, up
    to those still queued (none lost, duplicated, reordered or torn), and at
    most [capacity] chunks are queued. *)
Theorem spsc_interleaving_fifo (capacity : Z) (q : vw_spsc_queue_t) (s : spsc_sys) :
  0 < capacity -> vw_spsc_queue_create capacity = Some q ->
  rtc spsc_step (sys_start q) s ->
  sys_pushed s = sys_popped s ++ spsc_contents (sys_q s)
  /\ zlen (spsc_contents (sys_q s)) <= capacity.
Proof.
  intros Hcap Hq Hr. pose proof (sys_inv_reach _ _ _ Hcap Hq Hr) as [Hi _ _ Hf].
  split; [done|]. rewrite zlen_contents by done. pose proof (spsc_count_bounds _ Hi) as Hb.
  assert (sq_capacity_chunks (sys_q s) = capacity) as E; [|unfold spsc_size in Hb; lia].
  clear Hi Hf Hb. assert (sq_capacity_chunks (sys_q (sys_start q)) = capacity) as E.
  { unfold vw_spsc_queue_create in Hq. case_ifs Hq. by injection Hq as <-. }
  induction Hr; [done|]. apply IHHr. by erewrite spsc_step_capacity.
Qed.

(** The queue refines a bounded FIFO: on every state that satisfies its invariant,
    [push] appends the chunk or, when [capacity] chunks are queued, keeps the
    queue and adds the chunk's duration to the 64-bit dropped counter; [pop]
    removes the oldest chunk or reports empty; and the invariant is kept. *)
Theorem spsc_refines_fifo (q : vw_spsc_queue_t) (c : vw_audio_chunk_t) :
  spsc_inv q ->
  fifo_push (spsc_abs q) c
    = (fst (vw_spsc_queue_push q c), spsc_abs (snd (vw_spsc_queue_push q c)))
  /\ spsc_inv (snd (vw_spsc_queue_push q c))
  /\ fifo_pop (spsc_abs q) = (fst (vw_spsc_queue_pop q), spsc_abs (snd (vw_spsc_queue_pop q)))
  /\ spsc_inv (snd (vw_spsc_queue_pop q)).
Proof.
  intros Hq. unfold vw_spsc_queue_push, vw_spsc_queue_pop, fifo_push, fifo_pop.
  rewrite (spsc_full_iff q Hq), (spsc_empty_iff q Hq). simpl. rewrite zlen_contents by done.
  destruct (Z.eqb_spec (spsc_count q) (sq_capacity_chunks q)) as [Hfull|Hroom]; simpl.
  - split_and!; [done|by apply spsc_inv_drop|..];
      (destruct (Z.eqb_spec (spsc_count q) 0) as [E0|Hne]; simpl).
    all: try done; try by apply spsc_inv_advance.
    + pose proof (zlen_contents q Hq) as E. rewrite E0 in E. by rewrite (zlen_zero _ E).
    + by rewrite spsc_contents_pop.
  - split_and!; [|by apply spsc_inv_publish, spsc_inv_write|..].
    { unfold spsc_abs. by rewrite spsc_contents_publish. }
    all: destruct (Z.eqb_spec (spsc_count q) 0) as [E0|Hne]; simpl;
      try done; try by apply spsc_inv_advance.
    + pose proof (zlen_contents q Hq) as E. rewrite E0 in E. by rewrite (zlen_zero _ E).
    + by rewrite spsc_contents_pop.
Qed.

Definition sample_chunk (pts : Z) : vw_audio_chunk_t := mk_chunk pts 20000 16000 1 4 [1; -1].

Lemma spsc_interleaving_fifo_witness :
  exists q s, vw_spsc_queue_create 1 = Some q /\ rtc spsc_step (sys_start q) s
  /\ sys_pushed s = [sample_chunk 0]
  /\ sys_pushed s = sys_popped s ++ spsc_contents (sys_q s).
Proof.
  eexists _, _. split; [reflexivity|]. split.
  - eapply rtc_l; [apply (step_push_room _ _ _ _ (sample_chunk 0)); done|].
    eapply rtc_l; [apply step_push_write|]. eapply rtc_l; [apply step_push_publish|].
    eapply rtc_l; [apply step_pop_some; done|]. apply rtc_refl.
  - split; [reflexivity|].
    refine (proj1 (spsc_interleaving_fifo 1 _ _ _ eq_refl _)); [lia|].
    eapply rtc_l; [apply (step_push_room _ _ _ _ (sample_chunk 0)); done|].
    eapply rtc_l; [apply step_push_write|]. eapply rtc_l; [apply step_push_publish|].
    eapply rtc_l; [apply step_pop_some; done|]. apply rtc_refl.
Defined.

Definition one_slot_queue : vw_spsc_queue_t := mk_spsc [sample_chunk 5; empty_chunk] 1 1 0 7.

Lemma spsc_refines_fifo_witness :
  spsc_inv one_slot_queue
  /\ vw_spsc_queue_push one_slot_queue (sample_chunk 9) = (false, mk_spsc [sample_chunk 5; empty_chunk] 1 1 0 20007)
  /\ fifo_push (spsc_abs one_slot_queue) (sample_chunk 9) = (false, mk_fifo 1 [sample_chunk 5] 20007).
Proof.
  assert (spsc_inv one_slot_queue) as H by (split; vm_compute; done).
  split; [exact H|]. split; [reflexivity|].
  exact (proj1 (spsc_refines_fifo one_slot_queue (sample_chunk 9) H)).
Defined.
