(* ===== verification/AudioCapture.v ===== *)
(** * Audio capture: downmix, resampling and chunking

    [src/plugin/src/vw_audio_capture.c]: every VLC audio block is downmixed to
    mono, resampled to the target rate with an exact rational accumulator and
    pushed to the queue in chunks of at most 16 KiB. *)

From S2P Require Import Prelude.
From S2P Require Import Float32.
From S2P Require Import Ring.
From S2P Require Import SpscQueue.

Definition VW_AUDIO_CHUNK_MAX_PCM_BYTES : Z := 16384.
Definition VW_AUDIO_TARGET_RATE : Z := 16000.

Record vw_audio_capture_t := mk_capture {
  cap_target_sample_rate : Z;            (* uint32_t *)
  cap_target_channels : Z;
  cap_sample_remainder : Z;              (* uint32_t *)
  cap_last_pts_us : Z;
  cap_total_samples_processed : Z;       (* _Atomic uint64_t *)
  cap_total_input_frames : Z;            (* uint64_t *)
  cap_resample_acc : Z;                  (* uint32_t *)
  cap_resample_source_rate : Z;          (* uint32_t *)
  cap_reset_pending : option bool;       (* _Atomic bool*, NULL or its value *)
  cap_queue : option vw_spsc_queue_t;
  cap_playback_rate : option Z           (* _Atomic float*, NULL or its bits *)
}.

Inductive vw_audio_format_t := VW_AUDIO_FORMAT_S16 | VW_AUDIO_FORMAT_S32 | VW_AUDIO_FORMAT_FL32.

(** [pcm_data] is the array of samples at their type: signed values for S16 and
    S32, bit patterns for FL32. *)
Record vw_audio_input_t := mk_input {
  in_pcm_data : option (list Z);
  in_frame_count : Z;
  in_pts_us : Z;
  in_format : vw_audio_format_t;
  in_sample_rate : Z;
  in_channels : Z
}.

(** ** Sample conversion *)

Definition f32_minus_one : Z := 0xBF800000.
Definition f32_32767 : Z := 0x46FFFE00.

(** Clamp to [-1, 1], scale by [32767.0f] with one rounding, truncate. *)
Definition fl32_sample (bits : Z) : Z :=
  let sample := f32_to_spec bits in
  let sample := if SFltb (f32_to_spec f32_one) sample then f32_to_spec f32_one else sample in
  let sample := if SFltb sample (f32_to_spec f32_minus_one) then f32_to_spec f32_minus_one
                else sample in
  spec_trunc (SFmul 24 128 sample (f32_to_spec f32_32767)).

Definition input_sample (format : vw_audio_format_t) (raw : Z) : Z :=
  match format with
  | VW_AUDIO_FORMAT_FL32 => fl32_sample raw
  | VW_AUDIO_FORMAT_S16 => raw
  | VW_AUDIO_FORMAT_S32 => Z.shiftr raw 16
  end.

(** The channel sum of frame [in_idx]; [n] counts the channels left. *)
Fixpoint channel_sum (input : vw_audio_input_t) (pcm : list Z) (in_idx ch : Z) (n : nat) : Z :=
  match n with
  | O => 0
  | S n => input_sample (in_format input) (znth pcm (in_idx * in_channels input + ch))
           + channel_sum input pcm in_idx (ch + 1) n
  end.

(** The output sample made from frame [in_idx]: the truncated mean, clamped. *)
Definition mono_sample (input : vw_audio_input_t) (pcm : list Z) (in_idx : Z) : Z :=
  let sum := channel_sum input pcm in_idx 0 (Z.to_nat (in_channels input)) in
  let mono := Z.quot sum (in_channels input) in
  let mono := if 32767 <? mono then 32767 else mono in
  if mono <? -32768 then -32768 else mono.

(** ** The conversion loop *)

Definition max_out_frames_per_chunk : Z := VW_AUDIO_CHUNK_MAX_PCM_BYTES / 2.

(** The loop's variables: the accumulator, the samples of the chunk being
    filled, the running PTS, the chunks pushed so far and the sample count. *)
Record conv := mk_conv {
  cv_acc : Z;
  cv_out : list Z;
  cv_pts : Z;
  cv_pushed : list vw_audio_chunk_t;
  cv_total : Z
}.

Definition chunk_duration (target_rate frames : Z) : Z :=
  (frames * 1000000 + target_rate - 1) / target_rate.

(** Push the filled chunk and restart at the PTS that follows it. *)
Definition flush_chunk (target_rate : Z) (c : conv) : conv :=
  let duration := chunk_duration target_rate (zlen (cv_out c)) in
  mk_conv (cv_acc c) [] (cv_pts c + duration)
    (cv_pushed c ++ [mk_chunk (cv_pts c) duration target_rate 1 (zlen (cv_out c) * 2) (cv_out c)])
    (cv_total c).

(** The body of the [while (acc >= sample_rate)] loop. *)
Definition emit_sample (target_rate sample_rate x : Z) (c : conv) : conv :=
  let c := mk_conv (cv_acc c - sample_rate) (cv_out c ++ [x]) (cv_pts c) (cv_pushed c)
                   (cv_total c + 1) in
  if zlen (cv_out c) =? max_out_frames_per_chunk then flush_chunk target_rate c else c.

(** The [while] loop; [fuel] is at least its number of iterations. *)
Fixpoint emit_loop (fuel : nat) (target_rate sample_rate x : Z) (c : conv) : conv :=
  match fuel with
  | O => c
  | S fuel =>
      if sample_rate <=? cv_acc c
      then emit_loop fuel target_rate sample_rate x (emit_sample target_rate sample_rate x c)
      else c
  end.

(** One input frame: the accumulator gains [target_rate] and each full
    [sample_rate] of it emits one sample. *)
Definition conv_frame (target_rate : Z) (input : vw_audio_input_t) (pcm : list Z) (in_idx : Z)
    (c : conv) : conv :=
  let c := mk_conv (cv_acc c + target_rate) (cv_out c) (cv_pts c) (cv_pushed c) (cv_total c) in
  emit_loop (Z.to_nat (cv_acc c / in_sample_rate input)) target_rate (in_sample_rate input)
    (mono_sample input pcm in_idx) c.

(** The [for] loop over the frames from [in_idx]; [n] counts those left. *)
Fixpoint conv_frames (target_rate : Z) (input : vw_audio_input_t) (pcm : list Z) (in_idx : Z)
    (n : nat) (c : conv) : conv :=
  match n with
  | O => c
  | S n => conv_frames target_rate input pcm (in_idx + 1) n
             (conv_frame target_rate input pcm in_idx c)
  end.

(** The last, partial chunk. *)
Definition conv_finish (target_rate : Z) (c : conv) : conv :=
  if 0 <? zlen (cv_out c) then flush_chunk target_rate c else c.

(** ** [vw_audio_capture_process_block] *)

Definition cap_target_rate (cap : vw_audio_capture_t) : Z :=
  if cap_target_sample_rate cap =? 0 then VW_AUDIO_TARGET_RATE else cap_target_sample_rate cap.

(** The reset requested by the sender at a discontinuity. *)
Definition capture_reset (cap : vw_audio_capture_t) : vw_audio_capture_t :=
  match cap_reset_pending cap with
  | Some true =>
      mk_capture (cap_target_sample_rate cap) (cap_target_channels cap) 0 0
        (cap_total_samples_processed cap) 0 0 0 (Some false) (cap_queue cap)
        (cap_playback_rate cap)
  | _ => cap
  end.

(** Above 4x the block is counted and dropped. *)
Definition capture_throttled (cap : vw_audio_capture_t) (input : vw_audio_input_t)
  : vw_audio_capture_t :=
  mk_capture (cap_target_sample_rate cap) (cap_target_channels cap) (cap_sample_remainder cap)
    (in_pts_us input) (cap_total_samples_processed cap)
    (u64 (cap_total_input_frames cap + in_frame_count input)) (cap_resample_acc cap)
    (cap_resample_source_rate cap) (cap_reset_pending cap) (cap_queue cap) (cap_playback_rate cap).

(** The accumulator a block starts with: a source-rate change starts a new
    conversion phase. *)
Definition capture_start_acc (cap : vw_audio_capture_t) (input : vw_audio_input_t) : Z :=
  if cap_resample_source_rate cap =? in_sample_rate input then cap_resample_acc cap
  else if cap_target_rate cap <? in_sample_rate input
       then in_sample_rate input - cap_target_rate cap else 0.

Definition capture_convert (cap : vw_audio_capture_t) (input : vw_audio_input_t) (pcm : list Z)
  : conv :=
  conv_finish (cap_target_rate cap)
    (conv_frames (cap_target_rate cap) input pcm 0 (Z.to_nat (in_frame_count input))
       (mk_conv (capture_start_acc cap input) [] (in_pts_us input) [] 0)).

Definition push_all (q : vw_spsc_queue_t) (cs : list vw_audio_chunk_t) : vw_spsc_queue_t :=
  fold_left (fun q c => snd (vw_spsc_queue_push q c)) cs q.

Definition capture_done (cap : vw_audio_capture_t) (q : vw_spsc_queue_t)
    (input : vw_audio_input_t) (c : conv) : vw_audio_capture_t :=
  mk_capture (cap_target_sample_rate cap) (cap_target_channels cap) (u32 (cv_acc c)) (cv_pts c)
    (u64 (cap_total_samples_processed cap + cv_total c))
    (u64 (cap_total_input_frames cap + in_frame_count input)) (u32 (cv_acc c))
    (in_sample_rate input) (cap_reset_pending cap) (Some (push_all q (cv_pushed c)))
    (cap_playback_rate cap).

(** [None] pointers, empty blocks and zero rates or channel counts are refused. *)
Definition vw_audio_capture_process_block (cap : vw_audio_capture_t) (input : vw_audio_input_t)
  : bool * vw_audio_capture_t :=
  match cap_queue cap, in_pcm_data input with
  | Some q, Some pcm =>
      if in_frame_count input =? 0 then (false, cap)
      else if (in_sample_rate input =? 0) || (in_channels input =? 0) then (false, cap)
      else
        let cap := capture_reset cap in
        let current_rate := default f32_one (cap_playback_rate cap) in
        if f32_gt_const current_rate 4 then (true, capture_throttled cap input)
        else (true, capture_done cap q input (capture_convert cap input pcm))
  | _, _ => (false, cap)
  end.

(** ** Specification: the resampled stream *)

(** Reference resampler: frame [i] contributes as many copies of its mono sample
    as whole [R] fit into the accumulator after adding [T]. *)
Fixpoint resampled (f : Z -> Z) (T R acc i : Z) (n : nat) : list Z :=
  match n with
  | O => []
  | S n => replicate (Z.to_nat ((acc + T) / R)) (f i)
           ++ resampled f T R ((acc + T) mod R) (i + 1) n
  end.

(** Chunks that tile the timeline from [pts] to [finish], each at most 16 KiB. *)
Fixpoint contiguous (T pts : Z) (cs : list vw_audio_chunk_t) (finish : Z) : Prop :=
  match cs with
  | [] => finish = pts
  | c :: cs =>
      chunk_start_pts_us c = pts
      /\ chunk_duration_us c = chunk_duration T (zlen (chunk_pcm c))
      /\ chunk_bytes c = 2 * zlen (chunk_pcm c)
      /\ 0 < chunk_bytes c <= VW_AUDIO_CHUNK_MAX_PCM_BYTES
      /\ chunk_sample_rate c = T /\ chunk_channels c = 1
      /\ contiguous T (pts + chunk_duration_us c) cs finish
  end.

Definition conv_samples (c : conv) : list Z := concat (map chunk_pcm (cv_pushed c)) ++ cv_out c.

Record conv_inv (T pts : Z) (c : conv) : Prop := {
  conv_inv_chunks : contiguous T pts (cv_pushed c) (cv_pts c);
  conv_inv_out : zlen (cv_out c) < max_out_frames_per_chunk;
  conv_inv_total : cv_total c = zlen (conv_samples c)
}.

Lemma contiguous_snoc T pts cs mid c :
  contiguous T pts cs mid -> contiguous T mid [c] (mid + chunk_duration_us c) ->
  contiguous T pts (cs ++ [c]) (mid + chunk_duration_us c).
Proof.
  revert pts. induction cs as [|c' cs IH]; simpl; intros pts H Hc; [by subst|].
  destruct_and! H. split_and!; auto. 
Qed.

Lemma flush_chunk_samples T c : conv_samples (flush_chunk T c) = conv_samples c.
Proof.
  unfold conv_samples, flush_chunk; simpl.
  by rewrite map_app, concat_app; simpl; rewrite !app_nil_r.
Qed.

Lemma flush_chunk_inv T pts c :
  contiguous T pts (cv_pushed c) (cv_pts c) ->
  0 < zlen (cv_out c) <= max_out_frames_per_chunk ->
  cv_total c = zlen (conv_samples c) -> conv_inv T pts (flush_chunk T c).
Proof.
  intros Hc Hout Ht. split; [|done|by rewrite flush_chunk_samples].
  simpl. apply (contiguous_snoc T pts (cv_pushed c) (cv_pts c)
    (mk_chunk (cv_pts c) (chunk_duration T (zlen (cv_out c))) T 1 (zlen (cv_out c) * 2) (cv_out c)));
    [done|]. simpl. unfold max_out_frames_per_chunk, VW_AUDIO_CHUNK_MAX_PCM_BYTES in *.
  change (16384 / 2) with 8192 in *. split_and!; (done || lia).
Qed.

Lemma emit_sample_spec T R x pts c :
  conv_inv T pts c ->
  conv_inv T pts (emit_sample T R x c)
  /\ conv_samples (emit_sample T R x c) = conv_samples c ++ [x]
  /\ cv_acc (emit_sample T R x c) = cv_acc c - R.
Proof.
  intros [Hc Ho Ht]. unfold emit_sample; simpl.
  pose proof (zlen_nonneg (cv_out c)). autorewrite with vw.
  set (c' := mk_conv _ _ _ _ _).
  assert (conv_samples c' = conv_samples c ++ [x]) as Es
    by (unfold conv_samples; simpl; by rewrite app_assoc).
  assert (cv_total c' = zlen (conv_samples c')) as Et
    by (rewrite Es, zlen_app, <- Ht; reflexivity).
  destruct (Z.eqb_spec (zlen (cv_out c) + (1 + 0)) max_out_frames_per_chunk) as [E|E].
  - rewrite flush_chunk_samples. split_and!; [|done|done].
    apply flush_chunk_inv; simpl; autorewrite with vw; (done || lia).
  - split_and!; [|done|done]. split; simpl; autorewrite with vw; (done || lia).
Qed.

Lemma emit_loop_spec T R x pts k c :
  0 < R -> 0 <= cv_acc c -> cv_acc c / R = Z.of_nat k -> conv_inv T pts c ->
  let c' := emit_loop k T R x c in
  conv_inv T pts c' /\ conv_samples c' = conv_samples c ++ replicate k x
  /\ cv_acc c' = cv_acc c mod R.
Proof.
  intros HR. revert c. induction k as [|k IH]; intros c Ha Hk Hi; simpl.
  - rewrite app_nil_r. split_and!; [done..|]. symmetry. apply Z.mod_small.
    apply Z.div_small_iff in Hk; lia.
  - destruct (Z.leb_spec R (cv_acc c)).
    + destruct (emit_sample_spec T R x pts c Hi) as (Hi' & Hs' & Ha').
      assert (cv_acc c = cv_acc (emit_sample T R x c) + 1 * R) as E by lia.
      destruct (IH (emit_sample T R x c)) as (H1 & H2 & H3); [lia| |done|].
      { rewrite E, Z_div_plus_full in Hk by lia. lia. }
      split_and!; [done|by rewrite H2, Hs', <- app_assoc|].
      rewrite H3, E. by rewrite Z_mod_plus_full.
    + rewrite Z.div_small in Hk by lia. lia.
Qed.

Lemma conv_frame_spec T input pcm i pts c :
  0 < in_sample_rate input -> 0 <= T -> 0 <= cv_acc c -> conv_inv T pts c ->
  let c' := conv_frame T input pcm i c in
  conv_inv T pts c'
  /\ conv_samples c' = conv_samples c
       ++ replicate (Z.to_nat ((cv_acc c + T) / in_sample_rate input)) (mono_sample input pcm i)
  /\ cv_acc c' = (cv_acc c + T) mod in_sample_rate input.
Proof.
  intros HR HT Ha [Hc Ho Ht]. unfold conv_frame.
  set (c1 := mk_conv (cv_acc c + T) _ _ _ _).
  destruct (emit_loop_spec T (in_sample_rate input) (mono_sample input pcm i) pts
              (Z.to_nat (cv_acc c1 / in_sample_rate input)) c1) as (H1 & H2 & H3);
    [done|simpl; lia| |by split|by split_and!].
  rewrite Z2Nat.id; [done|]. apply Z.div_pos; simpl; lia.
Qed.

Lemma conv_frames_spec T input pcm n : forall i pts c,
  0 < in_sample_rate input -> 0 <= T -> 0 <= cv_acc c -> conv_inv T pts c ->
  let c' := conv_frames T input pcm i n c in
  conv_inv T pts c'
  /\ conv_samples c' = conv_samples c
       ++ resampled (mono_sample input pcm) T (in_sample_rate input) (cv_acc c) i n
  /\ (cv_acc c < in_sample_rate input ->
      cv_acc c' = (cv_acc c + Z.of_nat n * T) mod in_sample_rate input).
Proof.
  induction n as [|n IH]; intros i pts c HR HT Ha Hi; simpl.
  - rewrite app_nil_r. split_and!; [done..|]. intros. rewrite Z.mul_0_l, Z.add_0_r. symmetry.
    apply Z.mod_small. lia.
  - destruct (conv_frame_spec T input pcm i pts c HR HT Ha Hi) as (H1 & H2 & H3).
    pose proof (Z.mod_pos_bound (cv_acc c + T) (in_sample_rate input) HR) as Hm.
    destruct (IH (i + 1) pts (conv_frame T input pcm i c)) as (H4 & H5 & H6); [done..|lia|done|].
    split_and!; [done|by rewrite H5, H2, H3, app_assoc|]. intros _. rewrite H6 by lia.
    rewrite H3, Zplus_mod_idemp_l. f_equal. lia.
Qed.

Lemma conv_finish_spec T pts c :
  conv_inv T pts c ->
  contiguous T pts (cv_pushed (conv_finish T c)) (cv_pts (conv_finish T c))
  /\ concat (map chunk_pcm (cv_pushed (conv_finish T c))) = conv_samples c
  /\ cv_acc (conv_finish T c) = cv_acc c /\ cv_total (conv_finish T c) = zlen (conv_samples c).
Proof.
  intros [Hc Ho Ht]. unfold conv_finish. destruct (Z.ltb_spec 0 (zlen (cv_out c))).
  - destruct (flush_chunk_inv T pts c) as [H1 H2 H3]; [done|lia|done|].
    split_and!; [done| |done|done].
    rewrite <- (flush_chunk_samples T c). unfold conv_samples. simpl. by rewrite app_nil_r.
  - split_and!; [done| |done|done]. unfold conv_samples.
    rewrite (zlen_zero (cv_out c)), app_nil_r; [done|]. pose proof (zlen_nonneg (cv_out c)). lia.
Qed.

Lemma div_add_mod_split a T R k :
  0 < R -> (a + T) / R + ((a + T) mod R + k * T) / R = (a + (k + 1) * T) / R.
Proof.
  intros HR. pose proof (Z.div_mod (a + T) R).
  replace (a + (k + 1) * T) with ((a + T) mod R + k * T + (a + T) / R * R) by lia.
  rewrite Z_div_plus_full by lia. lia.
Qed.

(** The stream has exactly (acc + n T) / R samples: no rounding accumulates. *)
Lemma resampled_length f T R acc i n :
  0 < R -> 0 <= T -> 0 <= acc < R ->
  zlen (resampled f T R acc i n) = (acc + Z.of_nat n * T) / R.
Proof.
  intros HR HT. revert acc i. induction n as [|n IH]; intros acc i Hacc.
  - simpl. rewrite Z.mul_0_l, Z.add_0_r. symmetry. apply Z.div_small. lia.
  - simpl resampled. rewrite zlen_app, IH by (apply Z.mod_pos_bound; lia).
    unfold zlen. rewrite length_replicate, Z2Nat.id by (apply Z.div_pos; lia).
    rewrite div_add_mod_split by done. f_equal. lia.
Qed.

(** ** Properties of [vw_audio_capture_process_block] *)

Section block.
Context (cap : vw_audio_capture_t) (input : vw_audio_input_t)
        (q : vw_spsc_queue_t) (pcm : list Z).

(** An accepted block: pointers set, sizes positive, playback at most 4x. *)
Definition accepted_block : Prop :=
  cap_queue cap = Some q /\ in_pcm_data input = Some pcm /\ 0 < in_frame_count input
  /\ is_unsigned 32 (in_sample_rate input) /\ 0 < in_sample_rate input
  /\ 0 < in_channels input /\ is_unsigned 32 (cap_target_sample_rate cap)
  /\ f32_gt_const (default f32_one (cap_playback_rate cap)) 4 = false.

Lemma process_block_accepted :
  accepted_block ->
  vw_audio_capture_process_block cap input
  = (true, capture_done (capture_reset cap) q input (capture_convert (capture_reset cap) input pcm)).
Proof.
  intros (Hq & Hp & Hn & _ & HR & Hch & _ & Hr). revert Hr.
  unfold vw_audio_capture_process_block. rewrite Hq, Hp. destruct (Z.eqb_spec (in_frame_count input) 0); [lia|].
  destruct (Z.eqb_spec (in_sample_rate input) 0); [lia|].
  destruct (Z.eqb_spec (in_channels input) 0); [lia|]. cbn [orb]. intros Hr.
  replace (cap_playback_rate (capture_reset cap)) with (cap_playback_rate cap).
  - by rewrite Hr.
  - unfold capture_reset. by destruct (cap_reset_pending cap) as [[|]|].
Qed.

Lemma reset_target : cap_target_rate (capture_reset cap) = cap_target_rate cap.
Proof. unfold capture_reset. by destruct (cap_reset_pending cap) as [[|]|]. Qed.

Lemma cap_target_rate_nonneg :
  is_unsigned 32 (cap_target_sample_rate cap) -> 0 < cap_target_rate cap.
Proof.
  intros [? ?]. unfold cap_target_rate, VW_AUDIO_TARGET_RATE.
  destruct (Z.eqb_spec (cap_target_sample_rate cap) 0); lia.
Qed.

(** The whole conversion of an accepted block whose accumulator is in phase. *)
Lemma capture_convert_spec cap' :
  accepted_block -> cap_target_rate cap' = cap_target_rate cap ->
  0 <= capture_start_acc cap' input < in_sample_rate input ->
  let c := capture_convert cap' input pcm in
  let out := resampled (mono_sample input pcm) (cap_target_rate cap) (in_sample_rate input)
               (capture_start_acc cap' input) 0 (Z.to_nat (in_frame_count input)) in
  contiguous (cap_target_rate cap) (in_pts_us input) (cv_pushed c) (cv_pts c)
  /\ concat (map chunk_pcm (cv_pushed c)) = out /\ cv_total c = zlen out
  /\ cv_acc c = (capture_start_acc cap' input + in_frame_count input * cap_target_rate cap)
                mod in_sample_rate input.
Proof.
  intros (_ & _ & Hn & _ & HR & _ & HT%cap_target_rate_nonneg & _) Et Hacc.
  unfold capture_convert. rewrite Et.
  set (c0 := mk_conv (capture_start_acc cap' input) [] (in_pts_us input) [] 0).
  destruct (conv_frames_spec (cap_target_rate cap) input pcm (Z.to_nat (in_frame_count input)) 0
              (in_pts_us input) c0) as (H1 & H2 & H3); [done|lia|simpl; lia|by split|].
  destruct (conv_finish_spec _ _ _ H1) as (H4 & H5 & H6 & H7).
  rewrite H6, H7, H5, H2, H3 by (simpl; lia). rewrite Z2Nat.id by lia.
  by split_and!.
Qed.
End block.

(** C27: An accepted audio block is converted exactly: the chunks it pushes tile the
    timeline from the block's PTS without gap or overlap, none exceeds 16 KiB,
    and their samples in order are the downmixed frames, each repeated as often
    as the rational accumulator says. *)
Theorem capture_block_exact cap input q pcm :
  accepted_block cap input q pcm ->
  0 <= capture_start_acc (capture_reset cap) input < in_sample_rate input ->
  exists cap' chunks,
    vw_audio_capture_process_block cap input = (true, cap')
    /\ cap_queue cap' = Some (push_all q chunks)
    /\ contiguous (cap_target_rate cap) (in_pts_us input) chunks (cap_last_pts_us cap')
    /\ concat (map chunk_pcm chunks)
       = resampled (mono_sample input pcm) (cap_target_rate cap) (in_sample_rate input)
           (capture_start_acc (capture_reset cap) input) 0 (Z.to_nat (in_frame_count input)).
Proof.
  intros Ha Hacc. rewrite (process_block_accepted cap input q pcm Ha).
  destruct (capture_convert_spec cap input q pcm (capture_reset cap) Ha (reset_target cap) Hacc)
    as (H1 & H2 & _ & _).
  eexists _, (cv_pushed (capture_convert (capture_reset cap) input pcm)).
  split; [done|]. by split_and!.
Qed.

(** ** No drift across blocks *)

(** A capture in the middle of a stream at rate [R]: nothing pending, the
    accumulator in phase, the playback rate not above 4x. *)
Record steady (R : Z) (cap : vw_audio_capture_t) : Prop := {
  steady_queue : is_Some (cap_queue cap);
  steady_rate : cap_resample_source_rate cap = R;
  steady_acc : 0 <= cap_resample_acc cap < R;
  steady_reset : cap_reset_pending cap <> Some true;
  steady_target : is_unsigned 32 (cap_target_sample_rate cap);
  steady_speed : f32_gt_const (default f32_one (cap_playback_rate cap)) 4 = false
}.

Definition block_at (R : Z) (input : vw_audio_input_t) : Prop :=
  is_Some (in_pcm_data input) /\ in_sample_rate input = R
  /\ 0 < in_frame_count input /\ 0 < in_channels input.

Lemma div_mod_add_frames a T R n m :
  0 < R -> (a + n * T) / R + ((a + n * T) mod R + m * T) / R = (a + (n + m) * T) / R.
Proof.
  intros HR. pose proof (Z.div_mod (a + n * T) R).
  replace (a + (n + m) * T) with ((a + n * T) mod R + m * T + (a + n * T) / R * R) by lia.
  rewrite Z_div_plus_full by lia. lia.
Qed.

Lemma steady_step R cap input :
  is_unsigned 32 R -> 0 < R -> steady R cap -> block_at R input ->
  let cap' := snd (vw_audio_capture_process_block cap input) in
  steady R cap'
  /\ cap_target_rate cap' = cap_target_rate cap
  /\ cap_resample_acc cap' = (cap_resample_acc cap + in_frame_count input * cap_target_rate cap) mod R
  /\ cap_total_samples_processed cap'
     = u64 (cap_total_samples_processed cap
            + (cap_resample_acc cap + in_frame_count input * cap_target_rate cap) / R).
Proof.
  intros HR32 HR [[q Hq] Hsrc Hacc Hreset Ht Hspeed] ([pcm Hp] & HRi & Hn & Hch).
  assert (accepted_block cap input q pcm) as Ha
    by (unfold accepted_block; rewrite HRi; by split_and!).
  assert (capture_reset cap = cap) as Er
    by (unfold capture_reset; by destruct (cap_reset_pending cap) as [[|]|]).
  rewrite (process_block_accepted cap input q pcm Ha), Er. simpl snd.
  assert (capture_start_acc cap input = cap_resample_acc cap) as Es
    by (unfold capture_start_acc; by rewrite Hsrc, HRi, Z.eqb_refl).
  destruct (capture_convert_spec cap input q pcm cap Ha eq_refl) as (_ & _ & H3 & H4);
    [rewrite Es; lia|].
  pose proof (cap_target_rate_nonneg cap Ht) as HT.
  rewrite Es in H3, H4. rewrite HRi in H3, H4.
  rewrite resampled_length, Z2Nat.id in H3 by lia.
  pose proof (Z.mod_pos_bound (cap_resample_acc cap + in_frame_count input * cap_target_rate cap) R HR).
  assert (u32 (cv_acc (capture_convert cap input pcm)) = cv_acc (capture_convert cap input pcm)) as Eu.
  { apply u32_id. unfold is_unsigned in *. lia. }
  split_and!; simpl.
  - split; simpl; [eauto|done| |done|done|done]. rewrite Eu, H4. lia.
  - done.
  - by rewrite Eu.
  - by rewrite H3.
Qed.

Definition process_blocks (cap : vw_audio_capture_t) (inputs : list vw_audio_input_t)
  : vw_audio_capture_t :=
  fold_left (fun cap input => snd (vw_audio_capture_process_block cap input)) inputs cap.

Definition total_frames (inputs : list vw_audio_input_t) : Z :=
  foldr (fun input n => in_frame_count input + n) 0 inputs.

(** Resampling does not drift: over any sequence of blocks of a steady stream at rate
    [R], however it is cut, the number of samples produced is exactly
    (acc + frames * target) / R for the accumulator the stream started with, as
    counted in the 64-bit statistics. *)
Theorem capture_no_drift (R : Z) (cap : vw_audio_capture_t) (inputs : list vw_audio_input_t) :
  is_unsigned 32 R -> 0 < R -> steady R cap -> Forall (block_at R) inputs ->
  is_unsigned 64 (cap_total_samples_processed cap) ->
  cap_total_samples_processed (process_blocks cap inputs)
  = u64 (cap_total_samples_processed cap
         + (cap_resample_acc cap + total_frames inputs * cap_target_rate cap) / R).
Proof.
  intros HR32 HR Hs Hb. revert cap Hs.
  induction Hb as [|input inputs Hb _ IH]; intros cap Hs Hu; simpl.
  - destruct (steady_acc _ _ Hs). rewrite Z.mul_0_l, Z.add_0_r, Z.div_small, Z.add_0_r by lia.
    symmetry. by apply u64_id.
  - destruct (steady_step R cap input HR32 HR Hs Hb) as (H1 & H2 & H3 & H4).
    rewrite IH, H2, H3, H4; [|done|rewrite H4; apply (mod_unsigned 64); lia].
    unfold u64. rewrite Zplus_mod_idemp_l, <- Z.add_assoc, div_mod_add_frames by done. done.
Qed.

(** 48 kHz stereo S16: three frames make one output sample. *)
Definition stereo_block : vw_audio_input_t :=
  mk_input (Some [100; 300; 0; 0; -50; -51]) 3 1000 VW_AUDIO_FORMAT_S16 48000 2.
Definition fresh_capture : vw_audio_capture_t :=
  mk_capture 16000 1 0 0 0 0 32000 48000 (Some false)
    (Some (mk_spsc [empty_chunk; empty_chunk] 1 0 0 0)) (Some f32_one).

Lemma fresh_accepted :
  accepted_block fresh_capture stereo_block (mk_spsc [empty_chunk; empty_chunk] 1 0 0 0)
    [100; 300; 0; 0; -50; -51].
Proof. vm_compute. repeat split; done. Qed.

Lemma capture_block_exact_witness :
  exists cap' chunks,
    vw_audio_capture_process_block fresh_capture stereo_block = (true, cap')
    /\ concat (map chunk_pcm chunks) = [200]
    /\ contiguous 16000 1000 chunks (cap_last_pts_us cap').
Proof.
  destruct (capture_block_exact fresh_capture stereo_block _ _ fresh_accepted)
    as (cap' & chunks & H1 & _ & H3 & H4); [vm_compute; split; done|].
  exists cap', chunks. split; [exact H1|]. split; [exact H4|exact H3].
Defined.

Lemma capture_no_drift_witness :
  cap_total_samples_processed (process_blocks fresh_capture [stereo_block; stereo_block]) = 2.
Proof.
  rewrite (capture_no_drift 48000 fresh_capture [stereo_block; stereo_block]).
  - reflexivity.
  - vm_decide.
  - lia.
  - split; simpl; try done; try lia; by eexists.
  - assert (block_at 48000 stereo_block) by (repeat split; by eexists).
    by repeat constructor.
  - vm_decide.
Defined.
