(* ===== verification/AudioBuffer.v ===== *)
(** * The worker's audio buffer

    [src/worker/src/vw_audio_buffer.c]: a ring of samples whose oldest one has a
    known presentation time. At 16 kHz a sample lasts 62.5 microseconds, so the
    buffer keeps a half-microsecond remainder beside its start time. *)

From S2P Require Import Prelude.
From S2P Require Import Ring.

(** A sample is [pcm16 / 32768.0f]; the division by a power of two is exact, so
    it is represented by its numerator. *)
Record vw_audio_buffer_t := mk_abuf {
  ab_samples : list Z;           (* float[max_samples] *)
  ab_max_samples : Z;
  ab_head : Z;
  ab_count : Z;
  ab_start_pts_us : Z;           (* int64_t *)
  ab_start_pts_frac_us : Z;      (* int64_t, 0 or 1 half microseconds *)
  ab_dropped_samples : Z         (* uint64_t *)
}.

Definition vw_audio_buffer_create (max_samples : Z) : option vw_audio_buffer_t :=
  if max_samples =? 0 then None
  else Some (mk_abuf (zreplicate max_samples 0) max_samples 0 0 (-1) 0 0).

(** [/ 2] and [% 2] truncate toward zero in C. *)
Definition vw_audio_buffer_advance_pts (b : vw_audio_buffer_t) (samples : Z) : vw_audio_buffer_t :=
  let start := ab_start_pts_us b + samples * 62 in
  let frac := ab_start_pts_frac_us b + samples in
  mk_abuf (ab_samples b) (ab_max_samples b) (ab_head b) (ab_count b)
    (start + Z.quot frac 2) (Z.rem frac 2) (ab_dropped_samples b).

Definition vw_audio_buffer_clear (b : vw_audio_buffer_t) : vw_audio_buffer_t :=
  mk_abuf (ab_samples b) (ab_max_samples b) 0 0 (-1) 0 (ab_dropped_samples b).

(** One iteration of the append loop. *)
Definition append_sample (b : vw_audio_buffer_t) (norm : Z) : vw_audio_buffer_t :=
  let samples := set_slot (ab_samples b) (ab_head b) norm in
  let head := (ab_head b + 1) mod ab_max_samples b in
  if ab_count b <? ab_max_samples b then
    mk_abuf samples (ab_max_samples b) head (ab_count b + 1) (ab_start_pts_us b)
      (ab_start_pts_frac_us b) (ab_dropped_samples b)
  else
    vw_audio_buffer_advance_pts
      (mk_abuf samples (ab_max_samples b) head (ab_count b) (ab_start_pts_us b)
         (ab_start_pts_frac_us b) (u64 (ab_dropped_samples b + 1))) 1.

(** A gap of more than one sample between the expected and the given PTS is a
    discontinuity: the buffer restarts. *)
Definition append_discontinuity (b : vw_audio_buffer_t) (pts_us : Z) : bool :=
  let expected := ab_start_pts_us b + (ab_count b * 125 + ab_start_pts_frac_us b) / 2 in
  let delta := pts_us - expected in
  (delta <? -63) || (63 <? delta).

Definition append_anchor (b : vw_audio_buffer_t) (pts_us : Z) : vw_audio_buffer_t :=
  let b := if (0 <? ab_count b) && append_discontinuity b pts_us
           then vw_audio_buffer_clear b else b in
  if ab_count b =? 0 then
    mk_abuf (ab_samples b) (ab_max_samples b) (ab_head b) (ab_count b) pts_us 0
      (ab_dropped_samples b)
  else b.

Definition vw_audio_buffer_append_s16le (b : vw_audio_buffer_t) (pcm16 : option (list Z))
    (pts_us : Z) : bool * vw_audio_buffer_t :=
  match pcm16 with
  | None | Some [] => (false, b)
  | Some pcm => (true, fold_left append_sample pcm (append_anchor b pts_us))
  end.

Definition vw_audio_buffer_get_count (b : option vw_audio_buffer_t) : Z :=
  match b with Some b => ab_count b | None => 0 end.
Definition vw_audio_buffer_get_available := vw_audio_buffer_get_count.

Definition abuf_tail (b : vw_audio_buffer_t) : Z :=
  (ab_head b + ab_max_samples b - ab_count b) mod ab_max_samples b.

(** The copied samples and, when there are any, the start PTS. *)
Definition vw_audio_buffer_get_samples (b : vw_audio_buffer_t) (max_out : Z)
  : list Z * option Z :=
  if (max_out =? 0) || (ab_count b =? 0) then ([], None)
  else
    let to_copy := if ab_count b <? max_out then ab_count b else max_out in
    (ring_read 0 (ab_samples b) (abuf_tail b) (Z.to_nat to_copy), Some (ab_start_pts_us b)).

Definition vw_audio_buffer_drain (b : vw_audio_buffer_t) (sample_count : Z) : vw_audio_buffer_t :=
  if (sample_count =? 0) || (ab_count b =? 0) then b
  else
    let drained := if sample_count <? ab_count b then sample_count else ab_count b in
    let b := mk_abuf (ab_samples b) (ab_max_samples b) (ab_head b) (ab_count b - drained)
               (ab_start_pts_us b) (ab_start_pts_frac_us b) (ab_dropped_samples b) in
    let b := vw_audio_buffer_advance_pts b drained in
    if ab_count b =? 0 then vw_audio_buffer_clear b else b.

(** ** Abstraction: a timed sequence

    [contents] is the buffered samples, oldest first; [start2] is the time of the
    oldest one in half microseconds, so sample [i] is at [start2 + 125 * i]. *)

Definition contents (b : vw_audio_buffer_t) : list Z :=
  ring_read 0 (ab_samples b) (abuf_tail b) (Z.to_nat (ab_count b)).
Definition start2 (b : vw_audio_buffer_t) : Z := 2 * ab_start_pts_us b + ab_start_pts_frac_us b.

Record abuf_inv (b : vw_audio_buffer_t) : Prop := {
  abuf_inv_max : 0 < ab_max_samples b;
  abuf_inv_len : zlen (ab_samples b) = ab_max_samples b;
  abuf_inv_head : 0 <= ab_head b < ab_max_samples b;
  abuf_inv_count : 0 <= ab_count b <= ab_max_samples b;
  abuf_inv_frac : 0 <= ab_start_pts_frac_us b < 2
}.

(** The specification of [append]: keep the newest [cap] samples of the sequence
    and move its time by 62.5 microseconds per sample dropped. *)
Definition timed_append (cap : Z) (items : list Z) (t2 : Z) (new : list Z) (pts : Z) : list Z * Z :=
  let restart := (zlen items =? 0) || (63 <? Z.abs (pts - (t2 + 125 * zlen items) / 2)) in
  let items := if restart then [] else items in
  let t2 := if restart then 2 * pts else t2 in
  let dropped := Z.max 0 (zlen (items ++ new) - cap) in
  (zdrop dropped (items ++ new), t2 + 125 * dropped).

Lemma advance_start2 b k :
  0 <= ab_start_pts_frac_us b -> 0 <= k ->
  start2 (vw_audio_buffer_advance_pts b k) = start2 b + 125 * k
  /\ 0 <= ab_start_pts_frac_us (vw_audio_buffer_advance_pts b k) < 2.
Proof.
  intros. unfold start2, vw_audio_buffer_advance_pts; simpl.
  pose proof (Z.quot_rem' (ab_start_pts_frac_us b + k) 2).
  pose proof (Z.rem_bound_pos (ab_start_pts_frac_us b + k) 2). lia.
Qed.

Lemma zlen_ab_contents b : abuf_inv b -> zlen (contents b) = ab_count b.
Proof. intros []. unfold contents. rewrite zlen_ring_read. lia. Qed.

Lemma abuf_inv_clear b : abuf_inv b -> abuf_inv (vw_audio_buffer_clear b) /\ contents (vw_audio_buffer_clear b) = [].
Proof. intros []. split; [split; simpl; lia|done]. Qed.

Lemma abuf_tail_head b : abuf_inv b -> (abuf_tail b + ab_count b) mod ab_max_samples b = ab_head b.
Proof.
  intros []. unfold abuf_tail. rewrite Zplus_mod_idemp_l.
  replace (ab_head b + ab_max_samples b - ab_count b + ab_count b)
    with (ab_head b + 1 * ab_max_samples b) by lia.
  rewrite Z_mod_plus_full. by apply Z.mod_small.
Qed.

Lemma append_sample_room b x :
  abuf_inv b -> ab_count b < ab_max_samples b ->
  let b' := append_sample b x in
  abuf_inv b' /\ contents b' = contents b ++ [x] /\ start2 b' = start2 b
  /\ ab_count b' = ab_count b + 1 /\ ab_max_samples b' = ab_max_samples b.
Proof.
  intros Hi Hc. pose proof (abuf_tail_head b Hi) as Eh. destruct Hi as [H1 H2 H3 H4 H5].
  unfold append_sample. destruct (Z.ltb_spec (ab_count b) (ab_max_samples b)); [|lia].
  pose proof (Z.mod_pos_bound (ab_head b + 1) (ab_max_samples b) H1).
  split_and!; [|clear Eh|done..].
  - split; simpl; rewrite ?zlen_set_slot; lia.
  - unfold contents. simpl.
    replace (Z.to_nat (ab_count b + 1)) with (S (Z.to_nat (ab_count b))) by lia.
    rewrite <- ring_read_push by lia.
    assert (abuf_tail (mk_abuf (set_slot (ab_samples b) (ab_head b) x) (ab_max_samples b)
              ((ab_head b + 1) mod ab_max_samples b) (ab_count b + 1) (ab_start_pts_us b)
              (ab_start_pts_frac_us b) (ab_dropped_samples b)) = abuf_tail b) as ->.
    { unfold abuf_tail; simpl.
      replace ((ab_head b + 1) mod ab_max_samples b + ab_max_samples b - (ab_count b + 1))
        with ((ab_head b + 1) mod ab_max_samples b + (ab_max_samples b - (ab_count b + 1))) by lia.
      rewrite Zplus_mod_idemp_l. f_equal. lia. }
    do 2 f_equal. rewrite H2, Z2Nat.id by lia. symmetry. by apply abuf_tail_head.
Qed.

Lemma append_sample_full b x :
  abuf_inv b -> ab_count b = ab_max_samples b ->
  let b' := append_sample b x in
  abuf_inv b' /\ contents b' = tail (contents b) ++ [x] /\ start2 b' = start2 b + 125
  /\ ab_count b' = ab_count b /\ ab_max_samples b' = ab_max_samples b.
Proof.
  intros [H1 H2 H3 H4 H5] Hc. unfold append_sample.
  destruct (Z.ltb_spec (ab_count b) (ab_max_samples b)); [lia|].
  set (b1 := mk_abuf _ _ _ _ _ _ _).
  destruct (advance_start2 b1 1) as [E2 Hf]; [simpl; lia|lia|].
  pose proof (Z.mod_pos_bound (ab_head b + 1) (ab_max_samples b) H1).
  assert (forall h, 0 <= h < ab_max_samples b -> (h + ab_max_samples b - ab_max_samples b) mod ab_max_samples b = h) as Et.
  { intros h Hh. replace (h + ab_max_samples b - ab_max_samples b) with h by lia. by apply Z.mod_small. }
  split_and!; [split; simpl; rewrite ?zlen_set_slot; (done || lia)| |rewrite E2; unfold start2; simpl; lia|done..].
  unfold contents, abuf_tail; simpl. rewrite Hc, !Et by lia.
  replace (Z.to_nat (ab_max_samples b)) with (S (Z.to_nat (ab_max_samples b - 1))) by lia.
  rewrite <- ring_read_overwrite by (rewrite H2; lia).
  rewrite H2, (Z.mod_small (ab_head b)) by lia.
  rewrite <- (ring_read_mod _ (set_slot _ _ _) (ab_head b + 1)), zlen_set_slot, H2. done.
Qed.

Lemma zdrop_0 {A} (l : list A) : zdrop 0 l = l.
Proof. done. Qed.
Lemma zdrop_tail {A} (l : list A) (k : Z) : 0 <= k -> zdrop k (tail l) = zdrop (k + 1) l.
Proof.
  intros. unfold zdrop. replace (Z.to_nat (k + 1)) with (S (Z.to_nat k)) by lia.
  destruct l; [simpl; by rewrite ?drop_nil|done].
Qed.

(** The append loop, from any state. *)
Lemma append_samples_spec new : forall b,
  abuf_inv b ->
  let b' := fold_left append_sample new b in
  let dropped := Z.max 0 (zlen (contents b ++ new) - ab_max_samples b) in
  abuf_inv b' /\ contents b' = zdrop dropped (contents b ++ new)
  /\ start2 b' = start2 b + 125 * dropped /\ ab_max_samples b' = ab_max_samples b.
Proof.
  induction new as [|x new IH]; intros b Hi; simpl.
  - rewrite app_nil_r, zlen_ab_contents by done. destruct (abuf_inv_count b Hi).
    replace (Z.max 0 (ab_count b - ab_max_samples b)) with 0 by lia.
    split_and!; (done || lia).
  - destruct (Z.eq_dec (ab_count b) (ab_max_samples b)) as [Hf|Hr].
    + destruct (append_sample_full b x Hi Hf) as (Hi' & Hc & Hs & Hn & Hm).
      destruct (IH _ Hi') as (H1 & H2 & H3 & H4). rewrite Hc, Hm, Hs in *.
      assert (contents b <> []) as Hne.
      { pose proof (zlen_ab_contents b Hi). pose proof (abuf_inv_max b Hi). intros E.
        rewrite E, zlen_nil in *. lia. }
      destruct (contents b) as [|y l] eqn:Ec; [done|]. simpl tail in *.
      pose proof (zlen_ab_contents b Hi) as Hl. rewrite Ec in Hl.
      rewrite <- app_assoc in *. simpl app in *. autorewrite with vw in *.
      pose proof (zlen_nonneg new). pose proof (zlen_nonneg l).
      replace (Z.max 0 (1 + (zlen l + (1 + zlen new)) - ab_max_samples b))
        with (Z.max 0 (zlen l + (1 + zlen new) - ab_max_samples b) + 1) by lia.
      split_and!; [done| |lia|lia].
      rewrite H2. by rewrite <- zdrop_tail by lia.
    + destruct (abuf_inv_count b Hi).
      destruct (append_sample_room b x Hi) as (Hi' & Hc & Hs & Hn & Hm); [lia|].
      destruct (IH _ Hi') as (H1 & H2 & H3 & H4). rewrite Hc, Hm, Hs in *.
      rewrite <- app_assoc in *. simpl app in *. by split_and!.
Qed.

Lemma append_anchor_spec b pts :
  abuf_inv b ->
  let b' := append_anchor b pts in
  let restart := (zlen (contents b) =? 0)
                 || (63 <? Z.abs (pts - (start2 b + 125 * zlen (contents b)) / 2)) in
  abuf_inv b' /\ contents b' = (if restart then [] else contents b)
  /\ start2 b' = (if restart then 2 * pts else start2 b)
  /\ ab_max_samples b' = ab_max_samples b.
Proof.
  intros Hi. pose proof (zlen_ab_contents b Hi) as Hl. destruct (abuf_inv_clear b Hi) as [Hic Hcc].
  unfold append_anchor. rewrite Hl.
  assert (append_discontinuity b pts = (63 <? Z.abs (pts - (start2 b + 125 * ab_count b) / 2))) as ->.
  { unfold append_discontinuity, start2.
    replace (2 * ab_start_pts_us b + ab_start_pts_frac_us b + 125 * ab_count b)
      with (ab_count b * 125 + ab_start_pts_frac_us b + ab_start_pts_us b * 2) by lia.
    rewrite Z_div_plus_full by lia. lia. }
  destruct (abuf_inv_count b Hi).
  destruct (Z.eqb_spec (ab_count b) 0) as [E0|Hne]; simpl.
  - replace (0 <? ab_count b) with false by lia. simpl. rewrite E0. simpl.
    destruct Hi. split_and!; [split; simpl; lia|done|
      unfold start2; simpl; lia|done].
  - replace (0 <? ab_count b) with true by lia. simpl.
    destruct (63 <? _); simpl.
    + destruct Hic. split_and!; [split; simpl in *; lia|done|unfold start2; simpl; lia|done].
    + destruct (Z.eqb_spec (ab_count b) 0); [lia|]. by split_and!.
Qed.

Lemma quot_min (n m : Z) : (if n <? m then n else m) = Z.min n m.
Proof. destruct (Z.ltb_spec n m); lia. Qed.

Lemma drain_spec b n :
  abuf_inv b -> 0 <= n ->
  let k := Z.min n (ab_count b) in
  let b' := vw_audio_buffer_drain b n in
  abuf_inv b' /\ contents b' = zdrop k (contents b)
  /\ (contents b' <> [] -> start2 b' = start2 b + 125 * k)
  /\ ab_max_samples b' = ab_max_samples b.
Proof.
  intros Hi Hn. pose proof (zlen_ab_contents b Hi) as Hl. unfold vw_audio_buffer_drain.
  destruct (abuf_inv_count b Hi). rewrite quot_min. set (k := Z.min n (ab_count b)).
  destruct (Z.eqb_spec n 0) as [->|Hn0]; [|destruct (Z.eqb_spec (ab_count b) 0) as [E0|Hne]]; cbn [orb].
  1-2: assert (k = 0) as -> by (subst k; lia); split_and!; (done || lia).
  assert (0 < k <= ab_count b) as Hk by (subst k; lia).
  set (b1 := mk_abuf _ _ _ _ _ _ _).
  destruct (advance_start2 b1 k) as [E2 Hf]; [destruct Hi; simpl; lia|lia|].
  change (ab_count (vw_audio_buffer_advance_pts b1 k)) with (ab_count b - k).
  assert (abuf_inv (vw_audio_buffer_advance_pts b1 k)) as Hi1
    by (destruct Hi; split; simpl in *; (done || lia)).
  destruct (Z.eqb_spec (ab_count b - k) 0) as [Ez|Hz].
  - destruct (abuf_inv_clear _ Hi1) as [Hc1 Hc2]. split_and!; [done| |done|done].
    rewrite Hc2. symmetry. unfold zdrop. apply drop_ge. unfold zlen in Hl. lia.
  - split_and!; [done| |by intros _; rewrite E2|done].
    destruct Hi as [H1 H2 H3 H4 H5]. unfold contents, zdrop.
    rewrite <- ring_read_drop by lia.
    unfold abuf_tail; simpl. rewrite Z2Nat.id by lia.
    replace (Z.to_nat (ab_count b - k)) with (Z.to_nat (ab_count b) - Z.to_nat k)%nat by lia.
    rewrite <- (ring_read_mod _ _ (_ + k)), H2, Zplus_mod_idemp_l. do 2 f_equal. lia.
Qed.

(** C28: The buffer refines a timed sequence: appending keeps the newest [max_samples]
    samples and moves the start time by exactly 62.5 microseconds for every
    sample dropped (so every kept sample keeps its time), and restarts at the
    given PTS exactly when the buffer is empty or the PTS is more than one
    sample (63 us) from the expected one. *)
Theorem audio_buffer_append (b : vw_audio_buffer_t) (x : Z) (pcm : list Z) (pts_us : Z) :
  abuf_inv b ->
  let '(ok, b') := vw_audio_buffer_append_s16le b (Some (x :: pcm)) pts_us in
  ok = true /\ abuf_inv b'
  /\ (contents b', start2 b')
     = timed_append (ab_max_samples b) (contents b) (start2 b) (x :: pcm) pts_us.
Proof.
  intros Hi. unfold vw_audio_buffer_append_s16le, timed_append.
  destruct (append_anchor_spec b pts_us Hi) as (H1 & H2 & H3 & H4).
  destruct (append_samples_spec (x :: pcm) _ H1) as (H5 & H6 & H7 & _).
  split_and!; [done..|]. by rewrite H6, H7, H2, H3, H4.
Qed.

(** Reading and draining agree with the sequence: [get_samples] returns the oldest
    [max_out] samples and their time, [drain] removes exactly the oldest
    [sample_count], and the remaining samples keep their times. *)
Theorem audio_buffer_drain (b : vw_audio_buffer_t) (n : Z) :
  abuf_inv b -> 0 < n ->
  fst (vw_audio_buffer_get_samples b n) = ztake n (contents b)
  /\ fst (vw_audio_buffer_get_samples b n) ++ contents (vw_audio_buffer_drain b n) = contents b
  /\ abuf_inv (vw_audio_buffer_drain b n)
  /\ (contents (vw_audio_buffer_drain b n) <> [] ->
      start2 (vw_audio_buffer_drain b n) = start2 b + 125 * n).
Proof.
  intros Hi Hn. pose proof (zlen_ab_contents b Hi) as Hl. destruct (abuf_inv_count b Hi).
  destruct (drain_spec b n Hi) as (H1 & H2 & H3 & _); [lia|].
  assert (fst (vw_audio_buffer_get_samples b n) = ztake (Z.min n (ab_count b)) (contents b)) as E.
  { unfold vw_audio_buffer_get_samples, contents.
    destruct (Z.eqb_spec n 0); [lia|]. destruct (Z.eqb_spec (ab_count b) 0) as [E|]; simpl.
    - rewrite E. by rewrite Z.min_r by lia.
    - replace (if ab_count b <? n then ab_count b else n) with (Z.min n (ab_count b))
        by (destruct (Z.ltb_spec (ab_count b) n); lia).
      apply ring_read_take. lia. }
  assert (ztake (Z.min n (ab_count b)) (contents b) = ztake n (contents b)) as E'.
  { destruct (Z.min_spec n (ab_count b)) as [[? ->]|[? ->]]; [done|].
    by rewrite !ztake_all by lia. }
  split_and!; [by rewrite E, E'|rewrite E, H2; apply ztake_zdrop|done|].
  intros Hne. rewrite (H3 Hne). rewrite H2 in Hne.
  destruct (Z.min_spec n (ab_count b)) as [[? ->]|[? Em]]; [done|].
  exfalso. apply Hne. rewrite Em. unfold zdrop. apply drop_ge. unfold zlen in Hl. lia.
Qed.

(** A two-sample buffer holding samples 7 and 8 from 1000 us. *)
Definition sample_buffer : vw_audio_buffer_t := mk_abuf [8; 7] 2 1 2 1000 0 0.

Lemma sample_buffer_inv : abuf_inv sample_buffer.
Proof. split; vm_compute; try done; split; done. Qed.

Lemma audio_buffer_append_witness :
  contents (snd (vw_audio_buffer_append_s16le sample_buffer (Some [9]) 1125)) = [8; 9]
  /\ start2 (snd (vw_audio_buffer_append_s16le sample_buffer (Some [9]) 1125)) = 2125.
Proof.
  pose proof (audio_buffer_append sample_buffer 9 [] 1125 sample_buffer_inv) as H.
  destruct H as (_ & _ & H). split.
  - exact (f_equal fst H).
  - exact (f_equal snd H).
Defined.

Lemma audio_buffer_drain_witness :
  fst (vw_audio_buffer_get_samples sample_buffer 1) = [7]
  /\ start2 (vw_audio_buffer_drain sample_buffer 1) = 2125.
Proof.
  destruct (audio_buffer_drain sample_buffer 1 sample_buffer_inv) as (H1 & _ & _ & H2); [lia|].
  split; [exact H1|]. apply H2. discriminate.
Defined.
