(* ===== verification/WorkerQueue.v ===== *)
(** * The worker's inbound frame queue

    [src/worker/src/vw_worker_queue.c]: the bounded queue between the worker's
    reader thread and its main loop, with its overflow policy and its audio
    accounting. Every operation holds the mutex from its first access to its
    last, so each is one atomic step. *)

From S2P Require Import Prelude.
From S2P Require Import Ring.
From S2P Require Import ProtocolTypes.
From S2P Require Import Codec.

(** [vw_worker_frame_t]; a payload is NULL or an owned block. *)
Record vw_worker_frame_t := mk_frame {
  frame_type : Z;                  (* uint16_t *)
  frame_payload_len : Z;           (* uint32_t *)
  frame_payload : option (list Z)  (* uint8_t* *)
}.
Definition no_frame : vw_worker_frame_t := mk_frame 0 0 None.

Definition VW_WORKER_FRAME_QUEUE_CAPACITY : Z := 512.

(** [head] and [tail] grow without bound; a slot index is their remainder. *)
Record vw_worker_queue_t := mk_wq {
  wq_slots : list vw_worker_frame_t;
  wq_capacity : Z;
  wq_head : Z;
  wq_tail : Z;
  wq_dropped_audio_us : Z;         (* _Atomic uint64_t *)
  wq_queued_audio_us : Z           (* _Atomic uint64_t *)
}.

Definition vw_worker_queue_create (capacity : Z) : option vw_worker_queue_t :=
  if capacity =? 0 then None
  else Some (mk_wq (zreplicate capacity no_frame) capacity 0 0 0 0).

(** An undecodable payload counts as zero duration. *)
Definition vw_worker_queue_audio_duration_us (payload : option (list Z)) (payload_len : Z) : Z :=
  match payload with
  | None => 0
  | Some p =>
      match vw_protocol_decode_payload VW_MSG_AUDIO_PCM (ztake payload_len p) with
      | Some (AUDIO_PCM audio) => if 0 <? audio_duration_us audio then audio_duration_us audio else 0
      | _ => 0
      end
  end.

Definition vw_worker_queue_frame_audio_duration_us (type : Z) (payload : option (list Z))
    (payload_len : Z) : Z :=
  if type =? VW_MSG_AUDIO_PCM then vw_worker_queue_audio_duration_us payload payload_len else 0.

Definition frame_audio_us (f : vw_worker_frame_t) : Z :=
  vw_worker_queue_frame_audio_duration_us (frame_type f) (frame_payload f) (frame_payload_len f).

Section queue_steps.
Implicit Types q : vw_worker_queue_t.

Definition wq_slot q (i : Z) : vw_worker_frame_t := slot no_frame (wq_slots q) (i mod wq_capacity q).

(** Store a frame at [head], advance it and count its audio. *)
Definition wq_store q (f : vw_worker_frame_t) (incoming_audio_us : Z) : vw_worker_queue_t :=
  mk_wq (set_slot (wq_slots q) (wq_head q mod wq_capacity q) f) (wq_capacity q) (wq_head q + 1)
    (wq_tail q) (wq_dropped_audio_us q)
    (if 0 <? incoming_audio_us then u64 (wq_queued_audio_us q + incoming_audio_us)
     else wq_queued_audio_us q).

(** The first index from [i], within the next [n], whose frame satisfies [p]. *)
Fixpoint wq_find q (p : vw_worker_frame_t -> bool) (i : Z) (n : nat) : option Z :=
  match n with
  | O => None
  | S n => if p (wq_slot q i) then Some i else wq_find q p (i + 1) n
  end.
Definition wq_search q (p : vw_worker_frame_t -> bool) : option Z :=
  wq_find q p (wq_tail q) (Z.to_nat (wq_head q - wq_tail q)).

(** The loop that moves everything after [i] one slot down. *)
Definition wq_shift (capacity : Z) (slots : list vw_worker_frame_t) (i : Z) (n : nat)
  : list vw_worker_frame_t := ring_shift no_frame capacity slots i n.

(** Remove slot [i]: its audio moves from queued to dropped. *)
Definition wq_evict q (i : Z) (victim_audio_us : Z) : vw_worker_queue_t :=
  mk_wq (wq_shift (wq_capacity q) (wq_slots q) i (Z.to_nat (wq_head q - i - 1))) (wq_capacity q)
    (wq_head q - 1) (wq_tail q) (u64 (wq_dropped_audio_us q + victim_audio_us))
    (if 0 <? victim_audio_us then u64 (wq_queued_audio_us q - victim_audio_us)
     else wq_queued_audio_us q).

Definition is_audio (f : vw_worker_frame_t) : bool := frame_type f =? VW_MSG_AUDIO_PCM.
Definition is_type (t : Z) (f : vw_worker_frame_t) : bool := frame_type f =? t.
Definition superseded_by (type : Z) (f : vw_worker_frame_t) : bool :=
  (frame_type f =? VW_MSG_PAUSE) || (frame_type f =? VW_MSG_RESUME) || (frame_type f =? type).

(** The control frame an incoming control evicts from an all-control queue. *)
Definition wq_control_victim q (type : Z) : option Z :=
  if type =? VW_MSG_SHUTDOWN then Some (wq_tail q)
  else
    let required := (type =? VW_MSG_START_SESSION) || (type =? VW_MSG_STOP_SESSION) in
    match wq_search q (superseded_by type) with
    | Some i => Some i
    | None =>
        if required then wq_search q (fun f => negb (frame_type f =? VW_MSG_SHUTDOWN)) else None
    end.

(** The final store of the control path counts no audio. *)
Definition vw_worker_queue_push q (type : Z) (payload : option (list Z)) (payload_len : Z)
  : bool * vw_worker_queue_t :=
  let f := mk_frame type payload_len payload in
  let incoming_audio_us := vw_worker_queue_frame_audio_duration_us type payload payload_len in
  if wq_head q - wq_tail q <? wq_capacity q then (true, wq_store q f incoming_audio_us)
  else match wq_search q is_audio with
  | Some evict =>
      let victim := wq_slot q evict in
      let victim_audio_us :=
        vw_worker_queue_audio_duration_us (frame_payload victim) (frame_payload_len victim) in
      (true, wq_store (wq_evict q evict victim_audio_us) f incoming_audio_us)
  | None =>
      if type =? VW_MSG_AUDIO_PCM then
        (false, mk_wq (wq_slots q) (wq_capacity q) (wq_head q) (wq_tail q)
                  (u64 (wq_dropped_audio_us q + incoming_audio_us)) (wq_queued_audio_us q))
      else match wq_control_victim q type with
      | None => (false, q)
      | Some evict_ctrl =>
          (true, wq_store (wq_evict q evict_ctrl (frame_audio_us (wq_slot q evict_ctrl))) f 0)
      end
  end.

Definition vw_worker_queue_pop q : option vw_worker_frame_t * vw_worker_queue_t :=
  if wq_head q =? wq_tail q then (None, q)
  else
    let out := wq_slot q (wq_tail q) in
    let popped_audio_us := frame_audio_us out in
    (Some out, mk_wq (wq_slots q) (wq_capacity q) (wq_head q) (wq_tail q + 1)
       (wq_dropped_audio_us q)
       (if 0 <? popped_audio_us then u64 (wq_queued_audio_us q - popped_audio_us)
        else wq_queued_audio_us q)).

Definition vw_worker_queue_get_dropped_audio_us (q : option vw_worker_queue_t) : Z :=
  match q with Some q => wq_dropped_audio_us q | None => 0 end.
Definition vw_worker_queue_get_queued_audio_us (q : option vw_worker_queue_t) : Z :=
  match q with Some q => wq_queued_audio_us q | None => 0 end.
End queue_steps.

(** ** Specification on the list of queued frames *)

Definition wq_items (q : vw_worker_queue_t) : list vw_worker_frame_t :=
  ring_read no_frame (wq_slots q) (wq_tail q) (Z.to_nat (wq_head q - wq_tail q)).

Record wq_inv (q : vw_worker_queue_t) : Prop := {
  wq_inv_cap : 0 < wq_capacity q;
  wq_inv_len : zlen (wq_slots q) = wq_capacity q;
  wq_inv_tail : 0 <= wq_tail q <= wq_head q;
  wq_inv_count : wq_head q - wq_tail q <= wq_capacity q
}.

Fixpoint find_index (p : vw_worker_frame_t -> bool) (l : list vw_worker_frame_t) : option nat :=
  match l with
  | [] => None
  | f :: l => if p f then Some 0%nat else S <$> find_index p l
  end.

(** The frame a full queue gives up for an incoming one, if any. *)
Definition overflow_victim (items : list vw_worker_frame_t) (type : Z) : option nat :=
  match find_index is_audio items with
  | Some k => Some k
  | None =>
      if type =? VW_MSG_AUDIO_PCM then None
      else if type =? VW_MSG_SHUTDOWN then Some 0%nat
      else match find_index (superseded_by type) items with
      | Some k => Some k
      | None =>
          if (type =? VW_MSG_START_SESSION) || (type =? VW_MSG_STOP_SESSION)
          then find_index (fun f => negb (frame_type f =? VW_MSG_SHUTDOWN)) items else None
      end
  end.

Definition items_push (cap : Z) (items : list vw_worker_frame_t) (f : vw_worker_frame_t)
  : bool * list vw_worker_frame_t :=
  if zlen items <? cap then (true, items ++ [f])
  else match overflow_victim items (frame_type f) with
  | Some k => (true, delete k items ++ [f])
  | None => (false, items)
  end.

(** The audio a list of frames holds. *)
Definition audio_us (items : list vw_worker_frame_t) : Z :=
  foldr (fun f n => frame_audio_us f + n) 0 items.

(** ** Ring operations as list operations *)

Lemma zlen_items q : wq_inv q -> zlen (wq_items q) = wq_head q - wq_tail q.
Proof. intros []. unfold wq_items. rewrite zlen_ring_read. lia. Qed.

Lemma wq_slot_items q k :
  wq_inv q -> 0 <= k < wq_head q - wq_tail q ->
  wq_items q !! Z.to_nat k = Some (wq_slot q (wq_tail q + k)).
Proof.
  intros Hi Hk. unfold wq_items, wq_slot.
  rewrite <- (wq_inv_len q Hi). apply ring_read_lookup. lia.
Qed.

Lemma wq_find_index q p n : forall i,
  wq_find q p i n
  = (fun k => i + Z.of_nat k) <$>
    find_index p (map (wq_slot q) (map (fun j => i + Z.of_nat j) (seq 0 n))).
Proof.
  induction n as [|n IH]; intros i; [done|]. simpl.
  rewrite Z.add_0_r. destruct (p (wq_slot q i)); simpl; [by rewrite Z.add_0_r|].
  rewrite IH, <- seq_shift, !map_map.
  erewrite (map_ext _ (fun j => wq_slot q (i + Z.of_nat (S j)))).
  - destruct (find_index p _); simpl; [|done]. f_equal. lia.
  - intros j. f_equal. lia.
Qed.

Lemma items_map q : wq_inv q ->
  wq_items q = map (wq_slot q)
    (map (fun j => wq_tail q + Z.of_nat j) (seq 0 (Z.to_nat (wq_head q - wq_tail q)))).
Proof.
  intros Hi. apply list_eq. intros k.
  destruct (decide (Z.of_nat k < wq_head q - wq_tail q)) as [Hk|Hk].
  - rewrite <- (Nat2Z.id k) at 1. rewrite wq_slot_items by (done || lia).
    rewrite map_map. symmetry. rewrite list_lookup_fmap.
    rewrite (lookup_seq_lt 0) by lia. done.
  - rewrite !lookup_ge_None_2; [done| |].
    + rewrite !length_map, length_seq. lia.
    + pose proof (zlen_items q Hi). unfold zlen in *. lia.
Qed.

Lemma wq_search_items q p : wq_inv q ->
  wq_search q p = (fun k => wq_tail q + Z.of_nat k) <$> find_index p (wq_items q).
Proof. intros Hi. unfold wq_search. by rewrite wq_find_index, <- items_map. Qed.

Lemma find_index_lookup p l k :
  find_index p l = Some k -> exists f, l !! k = Some f /\ p f = true.
Proof.
  revert k. induction l as [|f l IH]; intros k; simpl; [done|].
  destruct (p f) eqn:E; [intros [= <-]; by exists f|].
  destruct (find_index p l) as [k'|]; [|done]. intros [= <-]. by apply IH.
Qed.
Lemma find_index_none p l : find_index p l = None -> Forall (fun f => p f = false) l.
Proof.
  induction l as [|f l IH]; simpl; [constructor|]. destruct (p f) eqn:E; [done|].
  destruct (find_index p l); [done|]. intros _. constructor; [done|by apply IH].
Qed.

Lemma wq_inv_evict q i us :
  wq_inv q -> wq_tail q <= i < wq_head q ->
  wq_inv (wq_evict q i us)
  /\ wq_items (wq_evict q i us) = delete (Z.to_nat (i - wq_tail q)) (wq_items q).
Proof.
  intros [H1 H2 H3 H4] Hi. unfold wq_items.
  destruct (ring_shift_spec no_frame (wq_capacity q) (Z.to_nat (wq_head q - i - 1)) (wq_slots q) (wq_tail q)
              (Z.to_nat (i - wq_tail q))) as [E1 E2]; [done|lia|done|lia|].
  replace (wq_tail q + Z.of_nat (Z.to_nat (i - wq_tail q))) with i in * by lia.
  split; [split; simpl; (done || lia)|]. simpl.
  replace (Z.to_nat (wq_head q - 1 - wq_tail q))
    with (Z.to_nat (i - wq_tail q) + Z.to_nat (wq_head q - i - 1))%nat by lia.
  unfold wq_shift. rewrite E2. do 2 f_equal. lia.
Qed.

Lemma wq_inv_store q f us :
  wq_inv q -> wq_head q - wq_tail q < wq_capacity q ->
  wq_inv (wq_store q f us) /\ wq_items (wq_store q f us) = wq_items q ++ [f].
Proof.
  intros [H1 H2 H3 H4] Hr. split; [split; simpl; rewrite ?zlen_set_slot; (done || lia)|].
  unfold wq_items. simpl.
  replace (Z.to_nat (wq_head q + 1 - wq_tail q)) with (S (Z.to_nat (wq_head q - wq_tail q))) by lia.
  rewrite <- ring_read_push by lia. do 2 f_equal. rewrite H2. f_equal. lia.
Qed.

(** Evict then store, as both overflow paths do. *)
Lemma wq_replace q k us us' f :
  wq_inv q -> (k < length (wq_items q))%nat ->
  let q' := wq_store (wq_evict q (wq_tail q + Z.of_nat k) us) f us' in
  wq_inv q' /\ wq_items q' = delete k (wq_items q) ++ [f].
Proof.
  intros Hi Hk. pose proof (zlen_items q Hi) as Hl. unfold zlen in Hl.
  destruct (wq_inv_evict q (wq_tail q + Z.of_nat k) us Hi) as [Hi' Hc]; [lia|].
  destruct (wq_inv_store (wq_evict q (wq_tail q + Z.of_nat k) us) f us') as [Hi'' Hc'];
    [done|destruct Hi; simpl; lia|].
  split; [done|]. rewrite Hc', Hc. do 2 f_equal. lia.
Qed.

Lemma find_index_lt p l k : find_index p l = Some k -> (k < length l)%nat.
Proof. intros (f & Hf & _)%find_index_lookup. by eapply lookup_lt_Some. Qed.

(** The control victim the code searches for is the specified one. *)
Lemma wq_control_victim_items q type : wq_inv q ->
  find_index is_audio (wq_items q) = None -> (type =? VW_MSG_AUDIO_PCM) = false ->
  wq_control_victim q type
  = (fun k => wq_tail q + Z.of_nat k) <$> overflow_victim (wq_items q) type.
Proof.
  intros Hi Ha Ht. unfold wq_control_victim, overflow_victim. rewrite Ha, Ht.
  rewrite !wq_search_items by done. destruct (type =? VW_MSG_SHUTDOWN).
  { simpl. by rewrite Z.add_0_r. }
  destruct (find_index (superseded_by type) (wq_items q)); [done|]. simpl.
  by destruct (_ || _).
Qed.

Lemma overflow_victim_lt items type k :
  items <> [] -> overflow_victim items type = Some k -> (k < length items)%nat.
Proof.
  intros Hne. unfold overflow_victim.
  destruct (find_index is_audio items) eqn:E1; [intros [= <-]; by eapply find_index_lt|].
  case_goal; [done|]. case_goal; [intros [= <-]; by destruct items; simpl; [|lia]|].
  destruct (find_index (superseded_by type) items) eqn:E2; [intros [= <-]; by eapply find_index_lt|].
  case_goal; [apply find_index_lt|done].
Qed.

Lemma push_refines q type payload len :
  wq_inv q ->
  let '(ok, q') := vw_worker_queue_push q type payload len in
  wq_inv q' /\ items_push (wq_capacity q) (wq_items q) (mk_frame type len payload) = (ok, wq_items q').
Proof.
  intros Hi. pose proof (zlen_items q Hi) as Hl. unfold vw_worker_queue_push, items_push.
  rewrite Hl, wq_search_items by done. pose proof (wq_inv_count q Hi). pose proof (wq_inv_cap q Hi).
  destruct (Z.ltb_spec (wq_head q - wq_tail q) (wq_capacity q)) as [Hr|Hf].
  { destruct (wq_inv_store q (mk_frame type len payload)
      (vw_worker_queue_frame_audio_duration_us type payload len) Hi Hr) as [H1 H2].
    by rewrite H2. }
  simpl frame_type.
  destruct (find_index is_audio (wq_items q)) as [k|] eqn:Ea; simpl.
  - pose proof (find_index_lt _ _ _ Ea) as Hk. unfold overflow_victim. rewrite Ea.
    edestruct (wq_replace q k) as [H1 H2]; [done..|]. split; [apply H1|]. by rewrite H2.
  - destruct (type =? VW_MSG_AUDIO_PCM) eqn:Et.
    { unfold overflow_victim. rewrite Ea, Et. split; [by destruct Hi; split|done]. }
    rewrite wq_control_victim_items by done.
    destruct (overflow_victim (wq_items q) type) as [k|] eqn:Ev; simpl; [|done].
    assert (k < length (wq_items q))%nat as Hk.
    { apply (overflow_victim_lt _ _ _) in Ev; [done|]. intros E. rewrite E, zlen_nil in Hl. lia. }
    edestruct (wq_replace q k) as [H1 H2]; [done..|]. split; [apply H1|]. by rewrite H2.
Qed.

Lemma pop_refines q :
  wq_inv q ->
  let '(out, q') := vw_worker_queue_pop q in
  wq_inv q' /\ out = head (wq_items q) /\ wq_items q' = tail (wq_items q).
Proof.
  intros Hi. unfold vw_worker_queue_pop. pose proof (zlen_items q Hi) as Hl.
  destruct (Z.eqb_spec (wq_head q) (wq_tail q)) as [E|E].
  - rewrite (zlen_zero (wq_items q)) by lia. done.
  - destruct Hi as [H1 H2 H3 H4]. split; [split; simpl; lia|]. unfold wq_items; simpl.
    replace (Z.to_nat (wq_head q - wq_tail q)) with (S (Z.to_nat (wq_head q - (wq_tail q + 1)))) by lia.
    simpl. unfold wq_slot. by rewrite H2.
Qed.

(** ** Audio accounting *)

Lemma audio_us_app l k : audio_us (l ++ k) = audio_us l + audio_us k.
Proof. induction l as [|f l IH]; simpl; [done|]. rewrite IH. lia. Qed.
Lemma audio_us_delete l k f :
  l !! k = Some f -> audio_us (delete k l) = audio_us l - frame_audio_us f.
Proof.
  revert k. induction l as [|g l IH]; intros [|k] H; simpl in *; try done.
  - injection H as ->. lia.
  - rewrite (IH k H). lia.
Qed.
Lemma frame_audio_nonneg f : 0 <= frame_audio_us f.
Proof.
  unfold frame_audio_us, vw_worker_queue_frame_audio_duration_us,
    vw_worker_queue_audio_duration_us.
  destruct (_ =? _); [|done]. destruct (frame_payload f); [|done].
  destruct (vw_protocol_decode_payload _ _) as [[]|]; try done.
  destruct (Z.ltb_spec 0 (audio_duration_us m)); lia.
Qed.
Lemma frame_audio_control f : is_audio f = false -> frame_audio_us f = 0.
Proof.
  unfold is_audio, frame_audio_us, vw_worker_queue_frame_audio_duration_us. by intros ->.
Qed.
Lemma frame_audio_is_audio f :
  is_audio f = true ->
  frame_audio_us f = vw_worker_queue_audio_duration_us (frame_payload f) (frame_payload_len f).
Proof.
  unfold is_audio, frame_audio_us, vw_worker_queue_frame_audio_duration_us. by intros ->.
Qed.

(** The counters describe the queue: [queued] is the audio it holds. *)
Record counters_inv (q : vw_worker_queue_t) : Prop := {
  counters_wq : wq_inv q;
  counters_queued : wq_queued_audio_us q = u64 (audio_us (wq_items q));
  counters_dropped : is_unsigned 64 (wq_dropped_audio_us q)
}.

Lemma u64_if_add a b n : 0 <= b -> a = u64 n -> (if 0 <? b then u64 (a + b) else a) = u64 (n + b).
Proof.
  intros Hb ->. unfold u64. destruct (Z.ltb_spec 0 b).
  - by rewrite Zplus_mod_idemp_l.
  - f_equal. lia.
Qed.
Lemma u64_if_sub a b n : 0 <= b -> a = u64 n -> (if 0 <? b then u64 (a - b) else a) = u64 (n - b).
Proof.
  intros Hb ->. unfold u64. destruct (Z.ltb_spec 0 b).
  - by rewrite Zminus_mod_idemp_l.
  - f_equal. lia.
Qed.

Lemma counters_store q f us :
  counters_inv q -> wq_head q - wq_tail q < wq_capacity q -> us = frame_audio_us f ->
  counters_inv (wq_store q f us) /\ wq_dropped_audio_us (wq_store q f us) = wq_dropped_audio_us q.
Proof.
  intros [Hi Hq Hd] Hr ->. destruct (wq_inv_store q f (frame_audio_us f) Hi Hr) as [H1 H2].
  split; [|done]. split; [done| |done]. rewrite H2, audio_us_app. simpl. rewrite Z.add_0_r.
  by apply u64_if_add; [apply frame_audio_nonneg|].
Qed.

Lemma counters_evict q k :
  counters_inv q -> (k < length (wq_items q))%nat ->
  let i := wq_tail q + Z.of_nat k in
  let us := frame_audio_us (wq_slot q i) in
  let q' := wq_evict q i us in
  counters_inv q' /\ wq_dropped_audio_us q' = u64 (wq_dropped_audio_us q + us)
  /\ audio_us (wq_items q') = audio_us (wq_items q) - us
  /\ wq_head q' - wq_tail q' < wq_capacity q'.
Proof.
  intros [Hi Hq Hd] Hk i us q'. pose proof (zlen_items q Hi) as Hl. unfold zlen in Hl.
  destruct (wq_inv_evict q i us Hi) as [H1 H2]; [lia|].
  replace (Z.to_nat (i - wq_tail q)) with k in H2 by lia.
  assert (audio_us (wq_items q') = audio_us (wq_items q) - us) as E.
  { subst q'. rewrite H2. apply audio_us_delete. rewrite <- (Nat2Z.id k).
    rewrite wq_slot_items by (done || lia). done. }
  split_and!; [|done|done|destruct Hi; simpl; lia].
  split; [done| |apply (mod_unsigned 64); lia]. rewrite E.
  by apply u64_if_sub; [apply frame_audio_nonneg|].
Qed.

(** ** Properties *)

(** C11: The queue refines a list: under its invariant [push] and [pop] do what the
    overflow policy says on the queued frames oldest first ([items_push]: append
    when there is room, otherwise remove the one victim and append, or refuse),
    FIFO order of the survivors included, and they keep the invariant. *)
Theorem worker_queue_refines q type payload len :
  wq_inv q ->
  items_push (wq_capacity q) (wq_items q) (mk_frame type len payload)
    = (fst (vw_worker_queue_push q type payload len),
       wq_items (snd (vw_worker_queue_push q type payload len)))
  /\ wq_inv (snd (vw_worker_queue_push q type payload len))
  /\ fst (vw_worker_queue_pop q) = head (wq_items q)
  /\ wq_items (snd (vw_worker_queue_pop q)) = tail (wq_items q)
  /\ wq_inv (snd (vw_worker_queue_pop q)).
Proof.
  intros Hi. pose proof (push_refines q type payload len Hi) as Hpush.
  pose proof (pop_refines q Hi) as Hpop.
  destruct (vw_worker_queue_push q type payload len), (vw_worker_queue_pop q).
  simpl. by destruct_and!.
Qed.

Lemma is_audio_at items k f :
  find_index is_audio items = None -> items !! k = Some f -> is_audio f = false.
Proof. intros H%find_index_none Hk. by eapply Forall_lookup_1 in H. Qed.

Lemma elem_of_delete_ne (l : list vw_worker_frame_t) k f g :
  l !! k = Some g -> f <> g -> f ∈ l -> f ∈ delete k l.
Proof.
  intros Hk Hne Hf. apply list_elem_of_lookup in Hf as [j Hj].
  rewrite delete_take_drop. rewrite elem_of_app.
  destruct (decide (j < k)%nat); [left|right].
  - apply list_elem_of_lookup. exists j. by rewrite lookup_take_lt.
  - assert (j <> k) by congruence. apply list_elem_of_lookup. exists (j - S k)%nat.
    rewrite lookup_drop. by replace (S k + (j - S k))%nat with j by lia.
Qed.

Lemma items_push_keeps cap items f g :
  g ∈ items -> is_audio g = false ->
  is_audio f = true \/ frame_type g = VW_MSG_SHUTDOWN /\ frame_type f <> VW_MSG_SHUTDOWN ->
  g ∈ snd (items_push cap items f).
Proof.
  intros Hg Hga Hcase. unfold items_push. destruct (zlen items <? cap); simpl.
  { apply elem_of_app. by left. }
  destruct (overflow_victim items (frame_type f)) as [k|] eqn:Ev; [simpl|done].
  apply elem_of_app; left. unfold overflow_victim in Ev.
  destruct (find_index is_audio items) as [k'|] eqn:Ea.
  { injection Ev as <-. apply find_index_lookup in Ea as (v & Hv & Hva).
    by eapply elem_of_delete_ne; [done|intros ->; congruence|]. }
  destruct Hcase as [Hf|[Hgs Hfs]]; [unfold is_audio in Hf; by rewrite Hf in Ev|].
  destruct (Z.eqb_spec (frame_type f) VW_MSG_AUDIO_PCM); [done|].
  destruct (Z.eqb_spec (frame_type f) VW_MSG_SHUTDOWN); [done|].
  destruct (find_index (superseded_by (frame_type f)) items) as [k'|] eqn:Es.
  - injection Ev as <-. apply find_index_lookup in Es as (v & Hv & Hvs).
    eapply elem_of_delete_ne; [done| |done]. intros <-. unfold superseded_by in Hvs.
    rewrite Hgs in Hvs.
    unfold VW_MSG_SHUTDOWN, VW_MSG_PAUSE, VW_MSG_RESUME in *. lia.
  - case_if Ev. apply find_index_lookup in Ev as (v & Hv & Hvs).
    eapply elem_of_delete_ne; [done| |done]. intros <-. by rewrite Hgs in Hvs.
Qed.

(** Overflow never costs a control for audio: whatever is pushed, no queued control
    frame is evicted while an AUDIO frame is queued, an incoming AUDIO frame
    evicts no control frame, and a queued SHUTDOWN is evicted only by a SHUTDOWN. *)
Theorem worker_queue_control_kept q type payload len g :
  wq_inv q -> g ∈ wq_items q -> is_audio g = false ->
  let q' := snd (vw_worker_queue_push q type payload len) in
  (type = VW_MSG_AUDIO_PCM -> g ∈ wq_items q')
  /\ (frame_type g = VW_MSG_SHUTDOWN -> type <> VW_MSG_SHUTDOWN -> g ∈ wq_items q')
  /\ ((exists a, a ∈ wq_items q /\ is_audio a = true) -> g ∈ wq_items q').
Proof.
  intros Hi Hg Hga q'. pose proof (push_refines q type payload len Hi) as H. subst q'.
  destruct (vw_worker_queue_push q type payload len) as [ok q'].
  destruct H as [_ E]. apply (f_equal snd) in E. simpl in *.
  split_and!; rewrite <- E; clear E.
  - intros ->. apply items_push_keeps; [done..|by left].
  - intros Hs Ht. apply items_push_keeps; [done..|by right].
  - intros (a & Ha & Haa). unfold items_push.
    destruct (_ <? _); simpl; [apply elem_of_app; by left|].
    unfold overflow_victim. destruct (find_index is_audio (wq_items q)) as [k|] eqn:Ea.
    + simpl. apply elem_of_app; left. apply find_index_lookup in Ea as (v & Hv & Hva).
      eapply elem_of_delete_ne; [done| |done]. intros ->. congruence.
    + apply find_index_none in Ea. rewrite Forall_forall in Ea.
      apply list_elem_of_In in Ha. apply Ea in Ha. congruence.
Qed.

(** Required directives land: START and STOP are accepted, at the end of the queue,
    unless the queue is full of SHUTDOWN frames only, and SHUTDOWN always is. *)
Theorem worker_queue_required_lands q type payload len :
  wq_inv q ->
  type = VW_MSG_SHUTDOWN
  \/ (type = VW_MSG_START_SESSION \/ type = VW_MSG_STOP_SESSION)
     /\ (zlen (wq_items q) < wq_capacity q
         \/ exists f, f ∈ wq_items q /\ frame_type f <> VW_MSG_SHUTDOWN) ->
  let '(ok, q') := vw_worker_queue_push q type payload len in
  ok = true /\ exists survivors, wq_items q' = survivors ++ [mk_frame type len payload].
Proof.
  intros Hi Hcase. pose proof (push_refines q type payload len Hi) as H.
  destruct (vw_worker_queue_push q type payload len) as [ok q'].
  destruct H as [_ E]. unfold items_push in E. simpl frame_type in E.
  destruct (Z.ltb_spec (zlen (wq_items q)) (wq_capacity q)) as [Hr|Hf].
  { injection E as <- <-. eauto. }
  destruct (overflow_victim (wq_items q) type) as [k|] eqn:Ev.
  { injection E as <- <-. eauto. }
  exfalso. clear E. unfold overflow_victim in Ev.
  destruct (find_index is_audio (wq_items q)); [done|].
  destruct Hcase as [->|[Ht Hc]]; [done|].
  destruct (find_index (superseded_by type) (wq_items q));
    destruct Ht as [-> | ->]; simpl in Ev; try done;
    apply find_index_none in Ev; rewrite Forall_forall in Ev;
    (destruct Hc as [Hc|(f & Hfi & Hft)]; [lia|]);
    apply list_elem_of_In, Ev in Hfi; by destruct (frame_type f =? VW_MSG_SHUTDOWN) eqn:?; lia.
Qed.

Lemma counters_push q type payload len :
  counters_inv q ->
  let q' := snd (vw_worker_queue_push q type payload len) in
  counters_inv q'
  /\ u64 (wq_dropped_audio_us q' + audio_us (wq_items q'))
     = u64 (wq_dropped_audio_us q + audio_us (wq_items q)
            + vw_worker_queue_frame_audio_duration_us type payload len).
Proof.
  intros Hc. set (f := mk_frame type len payload). unfold vw_worker_queue_push. fold f.
  change (vw_worker_queue_frame_audio_duration_us type payload len) with (frame_audio_us f).
  pose proof (counters_wq q Hc) as Hi. pose proof (zlen_items q Hi) as Hl.
  destruct (Z.ltb_spec (wq_head q - wq_tail q) (wq_capacity q)) as [Hr|Hf]; simpl snd.
  { destruct (counters_store q f _ Hc Hr eq_refl) as [H1 H2]. split; [done|].
    destruct (wq_inv_store q f (frame_audio_us f) Hi Hr) as [_ H3].
    rewrite H2, H3, audio_us_app. simpl. f_equal. lia. }
  rewrite wq_search_items by done.
  assert (forall k us', (k < length (wq_items q))%nat -> us' = frame_audio_us f ->
    let us := frame_audio_us (wq_slot q (wq_tail q + Z.of_nat k)) in
    let q' := wq_store (wq_evict q (wq_tail q + Z.of_nat k) us) f us' in
    counters_inv q' /\ u64 (wq_dropped_audio_us q' + audio_us (wq_items q'))
      = u64 (wq_dropped_audio_us q + audio_us (wq_items q) + frame_audio_us f)) as Hrep.
  { intros k us' Hk -> us q1. subst us q1. destruct (counters_evict q k Hc Hk) as (H1 & H2 & H3 & H4).
    destruct (counters_store _ f _ H1 H4 eq_refl) as [H5 H6].
    destruct (wq_inv_store _ f (frame_audio_us f) (counters_wq _ H1) H4) as [_ H7].
    split; [done|]. rewrite H6, H7, audio_us_app, H2, H3. unfold u64. rewrite Zplus_mod_idemp_l.
    simpl. f_equal. lia. }
  destruct (find_index is_audio (wq_items q)) as [k|] eqn:Ea; simpl fmap.
  - pose proof (find_index_lt _ _ _ Ea) as Hk. apply find_index_lookup in Ea as (v & Hv & Hva).
    rewrite <- (Nat2Z.id k), wq_slot_items in Hv by (done || unfold zlen in Hl; lia).
    injection Hv as Hv. cbn [snd]. rewrite <- frame_audio_is_audio by by rewrite Hv. by apply Hrep.
  - destruct (type =? VW_MSG_AUDIO_PCM) eqn:Et; cbn [snd].
    { destruct Hc as [? Hq Hd]. split.
      - split; [by destruct Hi; split|done|apply (mod_unsigned 64); lia].
      - unfold u64; simpl. rewrite Zplus_mod_idemp_l. f_equal. unfold wq_items; simpl. lia. }
    assert (frame_audio_us f = 0) as E0 by by apply frame_audio_control.
    rewrite wq_control_victim_items by done.
    destruct (overflow_victim (wq_items q) type) as [k|] eqn:Ev; simpl fmap; cbn [snd].
    + apply Hrep; [|done]. apply (overflow_victim_lt _ _ _) in Ev; [done|].
      intros E. rewrite E, zlen_nil in Hl. pose proof (wq_inv_cap q Hi). lia.
    + rewrite E0, Z.add_0_r. done.
Qed.

Lemma counters_pop q :
  counters_inv q ->
  let q' := snd (vw_worker_queue_pop q) in
  counters_inv q' /\ audio_us (wq_items q') = audio_us (wq_items q) - audio_us (take 1 (wq_items q)).
Proof.
  intros [Hi Hq Hd]. pose proof (pop_refines q Hi) as H. pose proof (zlen_items q Hi) as Hl.
  unfold vw_worker_queue_pop in *.
  destruct (Z.eqb_spec (wq_head q) (wq_tail q)) as [E|E]; simpl in *.
  - rewrite (zlen_zero (wq_items q)) by lia. simpl. split; [by split|done].
  - destruct H as (H1 & H2 & H3).
    assert (audio_us (tail (wq_items q)) = audio_us (wq_items q) - frame_audio_us (wq_slot q (wq_tail q))) as Ea.
    { destruct (wq_items q) as [|g l]; [done|]. injection H2 as ->. simpl. lia. }
    rewrite H3, Ea. split.
    + split; [done| |done]. rewrite H3, Ea. simpl.
      by apply u64_if_sub; [apply frame_audio_nonneg|].
    + destruct (wq_items q) as [|g l]; [done|]. injection H2 as ->. simpl. lia.
Qed.

(** The audio counters are exact: [queued_audio_us] is the total duration of the
    queued AUDIO frames, and no audio is lost from the books: after a push the
    dropped plus the queued audio has grown by the incoming frame's duration, and
    after a pop the queued audio has shrunk by the popped frame's (all modulo
    2^64, the counters' width). *)
Theorem worker_queue_accounting q type payload len :
  counters_inv q ->
  let incoming := vw_worker_queue_frame_audio_duration_us type payload len in
  let q' := snd (vw_worker_queue_push q type payload len) in
  let q'' := snd (vw_worker_queue_pop q) in
  counters_inv q'
  /\ u64 (wq_dropped_audio_us q' + audio_us (wq_items q'))
     = u64 (wq_dropped_audio_us q + audio_us (wq_items q) + incoming)
  /\ counters_inv q''
  /\ audio_us (wq_items q'') = audio_us (wq_items q) - audio_us (take 1 (wq_items q)).
Proof.
  intros Hc. set (f := mk_frame type len payload). intros incoming q' q''.
  assert (counters_inv q' /\ u64 (wq_dropped_audio_us q' + audio_us (wq_items q'))
     = u64 (wq_dropped_audio_us q + audio_us (wq_items q) + incoming)) as [H1 H2]
    by apply counters_push, Hc.
  assert (counters_inv q'' /\ audio_us (wq_items q'') = audio_us (wq_items q) - audio_us (take 1 (wq_items q)))
    as [H3 H4] by apply counters_pop, Hc.
  done.
Qed.

(** ** Witnesses *)

(** One second of audio, as the wire carries it (no samples are needed to account it). *)
Definition audio_payload (us : Z) : list Z := zreplicate 16 9 ++ le_enc 8 0 ++ le_enc 8 us ++ le_enc 4 0.
Definition audio_frame (us : Z) : vw_worker_frame_t :=
  mk_frame VW_MSG_AUDIO_PCM 36 (Some (audio_payload us)).
Definition ctrl_frame (type : Z) : vw_worker_frame_t := mk_frame type 18 (Some (zreplicate 18 1)).

(** A full queue of three: SHUTDOWN, one second of audio, START. *)
Definition full_queue : vw_worker_queue_t :=
  mk_wq [ctrl_frame VW_MSG_START_SESSION; ctrl_frame VW_MSG_SHUTDOWN; audio_frame 1000000] 3 7 4 0 1000000.

Lemma full_queue_inv : wq_inv full_queue.
Proof. split; vm_compute; try done; split; done. Qed.
Lemma full_queue_counters : counters_inv full_queue.
Proof. split; [exact full_queue_inv|reflexivity|vm_decide]. Qed.
Lemma full_queue_items :
  wq_items full_queue
  = [ctrl_frame VW_MSG_SHUTDOWN; audio_frame 1000000; ctrl_frame VW_MSG_START_SESSION].
Proof. reflexivity. Qed.

Lemma worker_queue_refines_witness :
  wq_items (snd (vw_worker_queue_push full_queue VW_MSG_PAUSE None 0))
  = [ctrl_frame VW_MSG_SHUTDOWN; ctrl_frame VW_MSG_START_SESSION; mk_frame VW_MSG_PAUSE 0 None].
Proof.
  pose proof (worker_queue_refines full_queue VW_MSG_PAUSE None 0 full_queue_inv) as [H _].
  exact (eq_sym (f_equal snd H)).
Defined.

Lemma worker_queue_control_kept_witness :
  ctrl_frame VW_MSG_SHUTDOWN ∈ wq_items (snd (vw_worker_queue_push full_queue VW_MSG_PAUSE None 0)).
Proof.
  refine (proj1 (proj2 (worker_queue_control_kept full_queue VW_MSG_PAUSE None 0
            (ctrl_frame VW_MSG_SHUTDOWN) full_queue_inv _ _)) _ _);
    [rewrite full_queue_items; by left|done..].
Defined.

Lemma worker_queue_required_lands_witness :
  fst (vw_worker_queue_push full_queue VW_MSG_STOP_SESSION None 0) = true.
Proof.
  pose proof (worker_queue_required_lands full_queue VW_MSG_STOP_SESSION None 0 full_queue_inv) as H.
  refine (proj1 (H _)). right. split; [by right|]. right.
  exists (audio_frame 1000000). split; [rewrite full_queue_items; by right; left|done].
Defined.

Lemma worker_queue_accounting_witness :
  audio_us (wq_items (snd (vw_worker_queue_push full_queue VW_MSG_AUDIO_PCM (Some (audio_payload 20000)) 36)))
  = 20000
  /\ audio_us (wq_items (snd (vw_worker_queue_pop full_queue))) = 1000000.
Proof.
  destruct (worker_queue_accounting full_queue VW_MSG_AUDIO_PCM (Some (audio_payload 20000)) 36
              full_queue_counters) as (_ & _ & _ & H).
  split; [reflexivity|exact H].
Defined.

(** A control that is neither PAUSE nor RESUME is dropped too when nothing it
    supersedes is queued: here a MODEL_CTRL meets a queue full of START frames. *)
Lemma model_ctrl_dropped :
  let q := mk_wq [ctrl_frame VW_MSG_START_SESSION] 1 1 0 0 0 in
  fst (vw_worker_queue_push q VW_MSG_MODEL_CTRL (Some (zreplicate 49 1)) 49) = false.
Proof. reflexivity. Qed.
