(* ===== verification/Hallucination.v ===== *)
(** * The non-speech filter

    [src/worker/src/vw_hallucination_filter.c]: Whisper sometimes emits sound
    descriptors or bare punctuation; the filter rejects them and keeps speech.
    A text is the bytes of a C string (without its NUL). *)

From S2P Require Import Prelude.
From S2P Require Import CString.

Definition is_alnum_ascii (c : Z) : bool :=
  ((97 <=? c) && (c <=? 122)) || ((65 <=? c) && (c <=? 90)) || ((48 <=? c) && (c <=? 57)).

Definition vw_hallucination_is_isolated_punctuation (text : list Z) : bool :=
  match text with
  | [] => true
  | _ => forallb (fun c => negb (is_alnum_ascii c) && negb (0x80 <=? c)) text
  end.

Fixpoint case_equals (s1 s2 : list Z) : bool :=
  match s1, s2 with
  | [], [] => true
  | c1 :: s1, c2 :: s2 => if negb (tolower c1 =? tolower c2) then false else case_equals s1 s2
  | _, _ => false
  end.

(** Brackets and dashes skipped around notes. *)
Definition note_padding (c : Z) : bool :=
  isspace c || existsb (fun d => c =? d) [91; 93; 40; 41; 45; 42; 126].

(** The scan of [is_only_musical_notes]; every iteration consumes a byte, so the
    length of the string is enough fuel. *)
Fixpoint notes_loop (fuel : nat) (p : list Z) (has_note : bool) : bool :=
  match p, fuel with
  | [], _ => has_note
  | _, O => false
  | c :: p', S fuel =>
      if note_padding c then notes_loop fuel p' has_note
      else match p with
      | 0xE2 :: 0x99 :: n :: p3 =>
          if (0xA9 <=? n) && (n <=? 0xAC) then notes_loop fuel p3 true else false
      | _ => false
      end
  end.

Definition is_only_musical_notes (s : list Z) : bool :=
  match s with [] => false | _ => notes_loop (length s) s false end.

Definition k_inner_tags : list (list Z) :=
  [str "music"; str "applause"; str "laughter"; str "silence"; str "cheering"; str "screaming";
   str "gasp"; str "sigh"; str "coughing"; str "sneezing"; str "blank_audio"; str "snicker";
   str "groan"; str "yawn"; str "pant"; str "whispering"; str "applause cheering";
   str "music playing"].

Definition bracket_pair (open close : Z) : bool :=
  ((open =? 91) && (close =? 93)) || ((open =? 40) && (close =? 41))
  || ((open =? 42) && (close =? 42)).

(** The bracketed text without its brackets; a one-byte text has no room for
    two, and the code's unsigned length difference then exceeds its limit. *)
Definition inner_text (trimmed : list Z) : option (list Z) :=
  if zlen trimmed <? 2 then None
  else Some (trim isspace (ztake (zlen trimmed - 2) (zdrop 1 trimmed))).

Definition is_inner_tag (trimmed : list Z) : bool :=
  match inner_text trimmed with
  | None => false
  | Some inner =>
      (0 <? zlen inner) && (zlen inner <=? 64) && existsb (case_equals inner) k_inner_tags
  end.

Definition vw_hallucination_is_non_speech_tag (text : list Z) : bool :=
  match trim_start isspace text with
  | [] => true
  | start =>
      let trimmed := trim_end isspace start in
      if 128 <? zlen trimmed then false
      else if is_only_musical_notes trimmed then true
      else if bracket_pair (znth trimmed 0) (znth trimmed (zlen trimmed - 1))
      then is_inner_tag trimmed else false
  end.

Definition vw_hallucination_is_phantom_text (text : list Z) : bool :=
  match text with
  | [] => true
  | _ =>
      if vw_hallucination_is_isolated_punctuation text then true
      else vw_hallucination_is_non_speech_tag text
  end.

Example phantom_music : vw_hallucination_is_phantom_text (str " [ MuSic ]") = true.
Proof. reflexivity. Qed.
Example phantom_dots : vw_hallucination_is_phantom_text (str "... -") = true.
Proof. reflexivity. Qed.
Example speech_kept : vw_hallucination_is_phantom_text (str "(no) music, please") = false.
Proof. reflexivity. Qed.
Example note_rejected : vw_hallucination_is_phantom_text [0xE2; 0x99; 0xAA; 0x20] = true.
Proof. reflexivity. Qed.

(** ** Speech is kept *)

Lemma trim_start_head p s : match trim_start p s with [] => True | c :: _ => p c = false end.
Proof. induction s as [|c s IH]; simpl; [done|]. destruct (p c) eqn:E; [apply IH|done]. Qed.

Lemma trim_end_cons p c s : p c = false -> exists s', trim_end p (c :: s) = c :: s'.
Proof.
  intros Hc. unfold trim_end. simpl rev.
  assert (forall l, exists l', trim_start p (l ++ [c]) = l' ++ [c]) as H.
  { induction l as [|x l [l' IH]]; simpl; [rewrite Hc; by exists []|].
    destruct (p x); [eauto|by exists (x :: l)]. }
  destruct (H (rev s)) as [l' ->]. rewrite rev_app_distr. simpl. eauto.
Qed.

(** The filter keeps speech: a text with an ASCII letter or digit whose first
    non-blank byte is neither an opening bracket, an asterisk nor part of a
    musical note or of the padding around notes is never rejected. *)
Theorem phantom_keeps_speech (text : list Z) (c : Z) (rest : list Z) :
  existsb is_alnum_ascii text = true ->
  trim_start isspace text = c :: rest ->
  note_padding c = false -> c <> 0xE2 ->
  vw_hallucination_is_phantom_text text = false.
Proof.
  intros Hal Ht Hpad He2. unfold vw_hallucination_is_phantom_text.
  destruct text as [|t0 text]; [done|].
  assert (vw_hallucination_is_isolated_punctuation (t0 :: text) = false) as ->.
  { unfold vw_hallucination_is_isolated_punctuation. apply not_true_is_false.
    rewrite forallb_forall. intros Hall. apply existsb_exists in Hal as (x & Hx & Hxa).
    specialize (Hall x Hx). by rewrite Hxa in Hall. }
  unfold vw_hallucination_is_non_speech_tag. rewrite Ht.
  assert (isspace c = false) as Hs by (unfold note_padding in Hpad; by apply orb_false_elim in Hpad as [? _]).
  destruct (trim_end_cons isspace c rest Hs) as [s' ->].
  case_goal; [done|].
  assert (is_only_musical_notes (c :: s') = false) as ->.
  { unfold is_only_musical_notes. simpl length. cbn [notes_loop]. rewrite Hpad.
    destruct c as [|c|c]; try done.
    repeat (destruct c as [c|c|]; try done). }
  assert (bracket_pair (znth (c :: s') 0) (znth (c :: s') (zlen (c :: s') - 1)) = false) as ->; [|done].
  change (znth (c :: s') 0) with c. unfold note_padding in Hpad.
  unfold bracket_pair. destruct (Z.eqb_spec c 91) as [->|]; [done|].
  destruct (Z.eqb_spec c 40) as [->|]; [done|]. by destruct (Z.eqb_spec c 42) as [->|].
Qed.

Lemma phantom_keeps_speech_witness :
  vw_hallucination_is_phantom_text (str " Music (live)") = false.
Proof.
  apply (phantom_keeps_speech (str " Music (live)") 77 (str "usic (live)")); (done || reflexivity).
Defined.
