(* ===== verification/SegmentBuilder.v ===== *)
(** * The caption segment builder

    [src/worker/src/vw_segment_builder.c]: turns Whisper hypotheses from
    overlapping windows into immutable final cues, dropping what earlier cues
    already cover. Texts are the bytes of C strings; allocations succeed. *)

From Stdlib Require Import Sorted.
From S2P Require Import Prelude.
From S2P Require Import CString.
From S2P Require Import Ring.
From S2P Require Import ProtocolTypes.
From S2P Require Import ProtocolUtil.
From S2P Require Import Hallucination.

Definition VW_SEGMENT_BUILDER_INITIAL_CAPACITY : Z := 32.
Definition VW_SEGMENT_HISTORY_CAPACITY : Z := 16.
Definition VW_SEGMENT_BUILDER_MAX_TEXT_BYTES : Z := 1024.
Definition VW_DEDUP_TIME_TOLERANCE_US : Z := 500000.

Record vw_history_entry_t := mk_hist {
  hist_start_pts_us : Z;
  hist_end_pts_us : Z;
  hist_text : list Z
}.
Definition no_hist : vw_history_entry_t := mk_hist 0 0 [].

(** A zeroed slot of the segment queue. *)
Definition no_segment : vw_caption_segment_t :=
  mk_segment (zreplicate 16 0) 0 0 0 0 None 0 None 0 false 0 0.

Record vw_segment_builder_t := mk_sb {
  sb_next_segment_id : Z;                          (* uint64_t *)
  sb_segment_queue : list vw_caption_segment_t;
  sb_capacity : Z;
  sb_head : Z;
  sb_count : Z;
  sb_history : list vw_history_entry_t;            (* [16] *)
  sb_history_head : Z;
  sb_history_count : Z;
  sb_covered_end_us : Z                            (* -1: none *)
}.

Definition vw_segment_builder_create : vw_segment_builder_t :=
  mk_sb 1 (zreplicate VW_SEGMENT_BUILDER_INITIAL_CAPACITY no_segment)
    VW_SEGMENT_BUILDER_INITIAL_CAPACITY 0 0 (zreplicate VW_SEGMENT_HISTORY_CAPACITY no_hist) 0 0 (-1).

Definition free_text (s : vw_caption_segment_t) : vw_caption_segment_t :=
  mk_segment (seg_session_id s) (seg_segment_id s) (seg_start_pts_us s) (seg_end_pts_us s)
    (seg_is_final s) None (seg_text_bytes s) (seg_translated_text_utf8 s)
    (seg_translated_text_bytes s) (seg_translation_attempted s) (seg_translation_latency_us s)
    (seg_translation_tier s).

(** The identifier counter survives a clear. *)
Definition vw_segment_builder_clear (b : vw_segment_builder_t) : vw_segment_builder_t :=
  mk_sb (sb_next_segment_id b) (map free_text (sb_segment_queue b)) (sb_capacity b) 0 0
    (zreplicate VW_SEGMENT_HISTORY_CAPACITY no_hist) 0 0 (-1).

Definition vw_segment_builder_get_last_segment (b : vw_segment_builder_t)
  : option vw_caption_segment_t :=
  if (sb_count b =? 0) || (sb_capacity b =? 0) then None
  else Some (slot no_segment (sb_segment_queue b) ((sb_head b + sb_capacity b - 1) mod sb_capacity b)).

(** The oldest pending slot. *)
Definition sb_tail (b : vw_segment_builder_t) : Z :=
  (sb_head b + sb_capacity b - sb_count b) mod sb_capacity b.

(** Doubling a full ring copies it oldest first to the front of a zeroed array. *)
Definition sb_grow (b : vw_segment_builder_t) : vw_segment_builder_t :=
  if sb_count b =? sb_capacity b then
    mk_sb (sb_next_segment_id b)
      (ring_read no_segment (sb_segment_queue b) (sb_tail b) (Z.to_nat (sb_count b))
       ++ zreplicate (sb_capacity b) no_segment)
      (sb_capacity b * 2) (sb_count b) (sb_count b) (sb_history b) (sb_history_head b)
      (sb_history_count b) (sb_covered_end_us b)
  else b.

(** The slot fields the enqueue writes; the others keep what the slot held. *)
Definition fill_slot (old : vw_caption_segment_t) (id : Z) (text : list Z) (start finish : Z)
  : vw_caption_segment_t :=
  mk_segment (seg_session_id old) id start finish 1 (Some text) (u16 (zlen text))
    (seg_translated_text_utf8 old) (seg_translated_text_bytes old)
    (seg_translation_attempted old) (seg_translation_latency_us old) (seg_translation_tier old).

Definition vw_segment_builder_enqueue (b : vw_segment_builder_t) (text : list Z) (start finish : Z)
  : vw_segment_builder_t :=
  let b := sb_grow b in
  let old := slot no_segment (sb_segment_queue b) (sb_head b) in
  mk_sb (u64 (sb_next_segment_id b + 1))
    (set_slot (sb_segment_queue b) (sb_head b) (fill_slot old (sb_next_segment_id b) text start finish))
    (sb_capacity b) ((sb_head b + 1) mod sb_capacity b) (sb_count b + 1) (sb_history b)
    (sb_history_head b) (sb_history_count b) (sb_covered_end_us b).

Definition vw_segment_builder_commit_history (b : vw_segment_builder_t) (text : list Z)
    (start finish : Z) : vw_segment_builder_t :=
  let copy_len := vw_utf8_safe_len (Some text) (VW_SEGMENT_BUILDER_MAX_TEXT_BYTES - 1) in
  mk_sb (sb_next_segment_id b) (sb_segment_queue b) (sb_capacity b) (sb_head b) (sb_count b)
    (set_slot (sb_history b) (sb_history_head b) (mk_hist start finish (ztake copy_len text)))
    ((sb_history_head b + 1) mod VW_SEGMENT_HISTORY_CAPACITY)
    (if sb_history_count b <? VW_SEGMENT_HISTORY_CAPACITY then sb_history_count b + 1
     else sb_history_count b)
    (if sb_covered_end_us b <? finish then finish else sb_covered_end_us b).

(** ** Text overlap *)

Definition is_blank (c : Z) : bool := (c =? 32) || (c =? 9) || (c =? 10) || (c =? 13).

(** The number of words that start in a text: a non-blank after a blank. *)
Fixpoint count_words (prev_blank : bool) (s : list Z) : Z :=
  match s with
  | [] => 0
  | c :: s => (if negb (is_blank c) && prev_blank then 1 else 0) + count_words (is_blank c) s
  end.

(** Whether the first [be] bytes of [cand] are a word-aligned prefix that equals
    a word-aligned suffix of [cue] and holds at least two words. *)
Definition tail_prefix_at (cue cand : list Z) (be : nat) : bool :=
  let clen := zlen cue in
  let alen := zlen cand in
  let n := Z.of_nat be in
  if (n <? alen) && negb (is_blank (znth cand n)) then false
  else if is_blank (znth cand (n - 1)) then false
  else if (clen <? n) || negb (bool_decide (zdrop (clen - n) cue = ztake n cand)) then false
  else
    let cue_start := clen - n in
    if (0 <? cue_start) && negb (is_blank (znth cue (cue_start - 1))) then false
    else 2 <=? count_words true (ztake n cand).

(** The loop over candidate word ends, longest first. *)
Fixpoint tail_prefix_loop (cue cand : list Z) (be : nat) : Z :=
  match be with
  | O => 0
  | S be' => if tail_prefix_at cue cand be then Z.of_nat be else tail_prefix_loop cue cand be'
  end.

Definition vw_segment_builder_tail_prefix_len (cue cand : list Z) : Z :=
  if (zlen cue =? 0) || (zlen cand =? 0) then 0 else tail_prefix_loop cue cand (length cand).

(** [TrimNone]: not applicable; [TrimDropped]: handled without a cue;
    [TrimQueued b]: the remainder was queued and committed. *)
Inductive trim_result :=
  | TrimNone
  | TrimDropped
  | TrimQueued (b : vw_segment_builder_t).

Definition vw_segment_builder_apply_tail_trim (b : vw_segment_builder_t) (text : list Z)
    (start_pts_us end_pts_us : Z) (cue_text : list Z) (cue_start_pts_us cue_end_pts_us : Z)
  : trim_result :=
  let near_cue :=
    ((cue_start_pts_us <? end_pts_us) && (start_pts_us <? cue_end_pts_us))
    || ((cue_end_pts_us - VW_DEDUP_TIME_TOLERANCE_US <=? start_pts_us)
        && (start_pts_us <=? cue_end_pts_us + VW_DEDUP_TIME_TOLERANCE_US)) in
  if negb near_cue then TrimNone
  else
    let m := vw_segment_builder_tail_prefix_len cue_text text in
    if m =? 0 then TrimNone
    else if (m =? zlen text) || (end_pts_us <=? cue_end_pts_us) then TrimDropped
    else match trim_start is_blank (zdrop m text) with
    | [] => TrimDropped
    | trimmed =>
        TrimQueued
          (vw_segment_builder_commit_history
             (vw_segment_builder_enqueue b trimmed cue_end_pts_us end_pts_us)
             trimmed cue_end_pts_us end_pts_us)
    end.

(** ** [vw_segment_builder_push_hypothesis] *)

Definition time_matches (start_pts_us end_pts_us cue_start cue_end : Z) : bool :=
  let start_diff := if cue_start <=? start_pts_us then start_pts_us - cue_start
                    else cue_start - start_pts_us in
  (start_diff <=? VW_DEDUP_TIME_TOLERANCE_US)
  || ((cue_start <? end_pts_us) && (start_pts_us <? cue_end)).

(** A decision of one deduplication stage: go on, or return. *)
Inductive stage :=
  | Continue
  | Return (queued : bool) (b : vw_segment_builder_t).

Definition of_trim (b : vw_segment_builder_t) (t : trim_result) : stage :=
  match t with
  | TrimNone => Continue
  | TrimDropped => Return false b
  | TrimQueued b' => Return true b'
  end.

Definition stage_then (s : stage) (k : stage) : stage :=
  match s with Continue => k | _ => s end.

(** The pending cue pushed last. *)
Definition check_last (b : vw_segment_builder_t) (text : list Z) (start_pts_us end_pts_us : Z)
  : stage :=
  match vw_segment_builder_get_last_segment b with
  | None => Continue
  | Some cue =>
      match seg_text_utf8 cue with
      | None => Continue
      | Some cue_text =>
          let matches := time_matches start_pts_us end_pts_us (seg_start_pts_us cue)
                           (seg_end_pts_us cue) in
          if matches && (bool_decide (cue_text = text) || strstr cue_text text) then Return false b
          else stage_then
            (of_trim b (vw_segment_builder_apply_tail_trim b text start_pts_us end_pts_us cue_text
                          (seg_start_pts_us cue) (seg_end_pts_us cue)))
            (if matches && strstr text cue_text then Return false b else Continue)
      end
  end.

(** One committed cue of the history. *)
Definition check_entry (b : vw_segment_builder_t) (text : list Z) (start_pts_us end_pts_us : Z)
    (hist : vw_history_entry_t) : stage :=
  if negb (time_matches start_pts_us end_pts_us (hist_start_pts_us hist) (hist_end_pts_us hist))
  then Continue
  else if bool_decide (hist_text hist = text) || strstr (hist_text hist) text then Return false b
  else stage_then
    (of_trim b (vw_segment_builder_apply_tail_trim b text start_pts_us end_pts_us (hist_text hist)
                  (hist_start_pts_us hist) (hist_end_pts_us hist)))
    (if strstr text (hist_text hist) then Return false b else Continue).

(** The history entry [i] places before the newest. *)
Definition history_entry (b : vw_segment_builder_t) (i : Z) : vw_history_entry_t :=
  slot no_hist (sb_history b)
    ((sb_history_head b + VW_SEGMENT_HISTORY_CAPACITY - 1 - i) mod VW_SEGMENT_HISTORY_CAPACITY).

(** The loop over the history, newest first; [n] entries are left. *)
Fixpoint check_history (b : vw_segment_builder_t) (text : list Z) (start_pts_us end_pts_us : Z)
    (i : Z) (n : nat) : stage :=
  match n with
  | O => Continue
  | S n => stage_then (check_entry b text start_pts_us end_pts_us (history_entry b i))
                      (check_history b text start_pts_us end_pts_us (i + 1) n)
  end.

(** The new cue, its start clamped to the coverage frontier. *)
Definition queue_cue (b : vw_segment_builder_t) (text : list Z) (start_pts_us end_pts_us : Z)
  : bool * vw_segment_builder_t :=
  let emit_start := if start_pts_us <? sb_covered_end_us b then sb_covered_end_us b
                    else start_pts_us in
  if end_pts_us <=? emit_start then (false, b)
  else (true, vw_segment_builder_commit_history
                (vw_segment_builder_enqueue b text emit_start end_pts_us) text emit_start end_pts_us).

(** The audio of the candidate is already captioned. *)
Definition already_covered (b : vw_segment_builder_t) (start_pts_us end_pts_us : Z) : bool :=
  (0 <=? sb_covered_end_us b) && (start_pts_us <? sb_covered_end_us b)
  && (end_pts_us <=? sb_covered_end_us b + VW_DEDUP_TIME_TOLERANCE_US).

Definition clean_text (text : list Z) : list Z := trim is_blank (cstr text).

Definition vw_segment_builder_push_hypothesis (b : vw_segment_builder_t) (text : option (list Z))
    (start_pts_us end_pts_us : Z) : bool * vw_segment_builder_t :=
  match text with
  | None => (false, b)
  | Some text =>
      if (start_pts_us <? 0) || (end_pts_us <=? start_pts_us) then (false, b)
      else
        let text := clean_text text in
        if (zlen text =? 0) || (VW_SEGMENT_BUILDER_MAX_TEXT_BYTES <=? zlen text) then (false, b)
        else if vw_hallucination_is_phantom_text text then (false, b)
        else if already_covered b start_pts_us end_pts_us then (false, b)
        else match stage_then (check_last b text start_pts_us end_pts_us)
                 (check_history b text start_pts_us end_pts_us 0 (Z.to_nat (sb_history_count b))) with
        | Return queued b => (queued, b)
        | Continue => queue_cue b text start_pts_us end_pts_us
        end
  end.

Definition vw_segment_builder_pop (b : vw_segment_builder_t)
  : option vw_caption_segment_t * vw_segment_builder_t :=
  if (sb_count b =? 0) || (sb_capacity b =? 0) then (None, b)
  else
    (Some (slot no_segment (sb_segment_queue b) (sb_tail b)),
     mk_sb (sb_next_segment_id b) (set_slot (sb_segment_queue b) (sb_tail b) no_segment)
       (sb_capacity b) (sb_head b) (sb_count b - 1) (sb_history b) (sb_history_head b)
       (sb_history_count b) (sb_covered_end_us b)).

(** ** The pending queue as a list *)

Definition sb_pending (b : vw_segment_builder_t) : list vw_caption_segment_t :=
  ring_read no_segment (sb_segment_queue b) (sb_tail b) (Z.to_nat (sb_count b)).

(** The committed entries in the history window, newest first. *)
Definition sb_committed (b : vw_segment_builder_t) : list vw_history_entry_t :=
  map (fun i => history_entry b (Z.of_nat i)) (seq 0 (Z.to_nat (sb_history_count b))).

Definition cue_ok (covered : Z) (s : vw_caption_segment_t) : Prop :=
  0 <= seg_start_pts_us s < seg_end_pts_us s /\ seg_end_pts_us s <= covered
  /\ seg_is_final s = 1
  /\ exists t, seg_text_utf8 s = Some t /\ seg_text_bytes s = zlen t
               /\ 0 < zlen t < VW_SEGMENT_BUILDER_MAX_TEXT_BYTES /\ no_nul t.

Definition entry_ok (covered : Z) (h : vw_history_entry_t) : Prop :=
  0 <= hist_start_pts_us h < hist_end_pts_us h /\ hist_end_pts_us h <= covered.

Record sb_inv (b : vw_segment_builder_t) : Prop := {
  sb_inv_cap : 0 < sb_capacity b;
  sb_inv_len : zlen (sb_segment_queue b) = sb_capacity b;
  sb_inv_head : 0 <= sb_head b < sb_capacity b;
  sb_inv_count : 0 <= sb_count b <= sb_capacity b;
  sb_inv_hlen : zlen (sb_history b) = VW_SEGMENT_HISTORY_CAPACITY;
  sb_inv_hhead : 0 <= sb_history_head b < VW_SEGMENT_HISTORY_CAPACITY;
  sb_inv_hcount : 0 <= sb_history_count b <= VW_SEGMENT_HISTORY_CAPACITY;
  sb_inv_covered : -1 <= sb_covered_end_us b;
  sb_inv_pending : Forall (cue_ok (sb_covered_end_us b)) (sb_pending b);
  sb_inv_committed : Forall (entry_ok (sb_covered_end_us b)) (sb_committed b)
}.

Lemma ring_tail_head head cap count :
  0 <= head < cap -> ((head + cap - count) mod cap + count) mod cap = head.
Proof.
  intros. rewrite Zplus_mod_idemp_l. replace (head + cap - count + count) with (head + 1 * cap) by lia.
  rewrite Z_mod_plus_full. by apply Z.mod_small.
Qed.
Lemma ring_tail_shift head cap count :
  ((head + 1) mod cap + cap - (count + 1)) mod cap = (head + cap - count) mod cap.
Proof.
  replace ((head + 1) mod cap + cap - (count + 1)) with ((head + 1) mod cap + (cap - (count + 1))) by lia.
  rewrite Zplus_mod_idemp_l. f_equal. lia.
Qed.

Lemma ring_read_front {A} (d : A) l k :
  ring_read d (l ++ k) 0 (length l) = l.
Proof.
  apply list_eq. intros i. destruct (decide (i < length l)%nat) as [Hi|Hi].
  - rewrite ring_read_lookup_nat by done. rewrite Z.add_0_l, zlen_app.
    rewrite Z.mod_small by (unfold zlen; lia).
    unfold slot. rewrite Nat2Z.id, nth_lookup, lookup_app_l by done.
    destruct (lookup_lt_is_Some_2 l i Hi) as [x Hx]. by rewrite Hx.
  - rewrite !lookup_ge_None_2; [done|lia|]. rewrite ring_read_length. lia.
Qed.

Lemma sb_grow_spec b :
  sb_inv b -> sb_inv (sb_grow b) /\ sb_pending (sb_grow b) = sb_pending b
  /\ sb_count (sb_grow b) < sb_capacity (sb_grow b)
  /\ sb_next_segment_id (sb_grow b) = sb_next_segment_id b
  /\ sb_covered_end_us (sb_grow b) = sb_covered_end_us b
  /\ sb_committed (sb_grow b) = sb_committed b.
Proof.
  intros Hi. unfold sb_grow. destruct (Z.eqb_spec (sb_count b) (sb_capacity b)) as [E|E].
  2: { split_and!; try done. destruct Hi. lia. }
  set (b' := mk_sb _ _ _ _ _ _ _ _ _).
  assert (sb_pending b' = sb_pending b) as Ep.
  { destruct Hi. unfold sb_pending at 1, sb_tail; simpl. rewrite E.
    replace (sb_capacity b + sb_capacity b * 2 - sb_capacity b) with (1 * (sb_capacity b * 2)) by lia.
    rewrite Z_mod_mult. unfold sb_pending. rewrite E.
    rewrite <- (ring_read_length no_segment (sb_segment_queue b) (sb_tail b) (Z.to_nat (sb_capacity b))) at 2.
    apply ring_read_front. }
  split_and!; try done; [|destruct Hi; simpl; lia].
  destruct Hi. split; try done; simpl; try lia.
  - rewrite zlen_app, zlen_ring_read, zlen_replicate by lia. lia.
  - by rewrite Ep.
Qed.

(** Enqueueing appends one cue and leaves coverage and history alone. *)
Lemma enqueue_spec b text start finish :
  sb_inv b ->
  exists old, let b' := vw_segment_builder_enqueue b text start finish in
  sb_pending b' = sb_pending b ++ [fill_slot old (sb_next_segment_id b) text start finish]
  /\ sb_next_segment_id b' = u64 (sb_next_segment_id b + 1)
  /\ sb_covered_end_us b' = sb_covered_end_us b /\ sb_committed b' = sb_committed b
  /\ 0 < sb_capacity b' /\ zlen (sb_segment_queue b') = sb_capacity b'
  /\ 0 <= sb_head b' < sb_capacity b' /\ 0 <= sb_count b' <= sb_capacity b'
  /\ zlen (sb_history b') = VW_SEGMENT_HISTORY_CAPACITY
  /\ 0 <= sb_history_head b' < VW_SEGMENT_HISTORY_CAPACITY
  /\ 0 <= sb_history_count b' <= VW_SEGMENT_HISTORY_CAPACITY.
Proof.
  intros Hi. destruct (sb_grow_spec b Hi) as (Hg & Hp & Hroom & Hid & Hcov & Hcom).
  unfold vw_segment_builder_enqueue. set (g := sb_grow b) in *.
  exists (slot no_segment (sb_segment_queue g) (sb_head g)). simpl.
  destruct Hg as [H1 H2 H3 H4 H5 H6 H7 _ _ _].
  split_and!; try done; try lia; try (rewrite zlen_set_slot; lia); try (apply Z.mod_pos_bound; lia).
  - rewrite <- Hp. unfold sb_pending, sb_tail; simpl. rewrite ring_tail_shift.
    replace (Z.to_nat (sb_count g + 1)) with (S (Z.to_nat (sb_count g))) by lia.
    rewrite <- ring_read_push by lia. rewrite Z2Nat.id, H2, ring_tail_head by lia. by rewrite Hid.
  - by rewrite Hid.
Qed.

Lemma mod16_prev h i :
  0 <= h < 16 -> 0 <= i < 16 ->
  ((h + 1) mod 16 + 16 - 1 - (i + 1)) mod 16 = (h + 16 - 1 - i) mod 16.
Proof.
  intros. replace ((h + 1) mod 16 + 16 - 1 - (i + 1)) with ((h + 1) mod 16 + (14 - i)) by lia.
  rewrite Zplus_mod_idemp_l. f_equal. lia.
Qed.

(** Committing makes the phrase the newest history entry. *)
Lemma commit_spec b text start finish :
  zlen (sb_history b) = VW_SEGMENT_HISTORY_CAPACITY ->
  0 <= sb_history_head b < VW_SEGMENT_HISTORY_CAPACITY ->
  0 <= sb_history_count b <= VW_SEGMENT_HISTORY_CAPACITY ->
  let b' := vw_segment_builder_commit_history b text start finish in
  exists e older,
  sb_committed b' = e :: older /\ sublist older (sb_committed b)
  /\ hist_start_pts_us e = start /\ hist_end_pts_us e = finish.
Proof.
  intros Hl Hh Hc b'.
  assert (exists x, sb_history b' = set_slot (sb_history b) (sb_history_head b) x
          /\ hist_start_pts_us x = start /\ hist_end_pts_us x = finish) as (x & Ex & Hxs & Hxe)
    by (eexists; split; [reflexivity|]; split; reflexivity).
  assert (sb_history_head b' = (sb_history_head b + 1) mod 16) as Ehead by reflexivity.
  set (n := Z.to_nat (sb_history_count b)).
  assert (exists m, Z.to_nat (sb_history_count b') = S m /\ (m <= n)%nat /\ (m < 16)%nat) as (m & Em & Hm & Hm').
  { subst b'. cbn [vw_segment_builder_commit_history sb_history_count].
    unfold VW_SEGMENT_HISTORY_CAPACITY in *. destruct (Z.ltb_spec (sb_history_count b) 16).
    - exists n. lia.
    - exists 15%nat. lia. }
  assert (map (fun i => history_entry b' (Z.of_nat i)) (seq 1 m)
          = map (fun i => history_entry b (Z.of_nat i)) (seq 0 m)) as Eold.
  { rewrite <- seq_shift, map_map. apply map_ext_in. intros i Hi%in_seq.
    unfold history_entry. rewrite Ehead, Ex. unfold VW_SEGMENT_HISTORY_CAPACITY in *.
    replace (Z.of_nat (S i)) with (Z.of_nat i + 1) by lia.
    rewrite mod16_prev by lia. apply slot_set_other; [lia|apply Z.mod_pos_bound; lia|].
    replace (sb_history_head b + 16 - 1 - Z.of_nat i) with (sb_history_head b + (15 - Z.of_nat i)) by lia.
    intros E. apply (mod_distinct (sb_history_head b) 0 (15 - Z.of_nat i + 1 - 1) 16); try lia.
    rewrite Z.add_0_r, (Z.mod_small (sb_history_head b)) by lia. rewrite E. f_equal. lia. }
  exists (history_entry b' 0), (map (fun i => history_entry b (Z.of_nat i)) (seq 0 m)).
  split; [unfold sb_committed; rewrite Em; cbn [seq map]; by rewrite Eold|].
  split.
  - unfold sb_committed. fold n. replace n with (m + (n - m))%nat by lia.
    rewrite seq_app, map_app. by apply sublist_inserts_r.
  - unfold history_entry. rewrite Ehead, Ex. unfold VW_SEGMENT_HISTORY_CAPACITY in *.
    replace ((sb_history_head b + 1) mod 16 + 16 - 1 - 0) with ((sb_history_head b + 1) mod 16 + 15) by lia.
    rewrite Zplus_mod_idemp_l. replace (sb_history_head b + 1 + 15) with (sb_history_head b + 1 * 16) by lia.
    rewrite Z_mod_plus_full, Z.mod_small by lia. rewrite slot_set_same by lia. done.
Qed.
Lemma Forall_sublist {A} (P : A -> Prop) l k : sublist l k -> Forall P k -> Forall P l.
Proof. induction 1; inversion 1; subst; auto. Qed.

(** Enqueueing and committing together: what every accepted cue does. *)
Lemma emit_spec b text start finish :
  sb_inv b -> no_nul text -> 0 < zlen text < VW_SEGMENT_BUILDER_MAX_TEXT_BYTES ->
  0 <= start < finish -> sb_covered_end_us b < finish ->
  exists old, let b' := vw_segment_builder_commit_history
                          (vw_segment_builder_enqueue b text start finish) text start finish in
  sb_inv b'
  /\ sb_pending b' = sb_pending b ++ [fill_slot old (sb_next_segment_id b) text start finish]
  /\ sb_next_segment_id b' = u64 (sb_next_segment_id b + 1)
  /\ sb_covered_end_us b' = finish.
Proof.
  intros Hi Hnn Hlen Hse Hcov.
  destruct (enqueue_spec b text start finish Hi) as (old & Hp & Hid & Hce & Hcom & Hrest).
  exists old. intros b'. set (q := vw_segment_builder_enqueue b text start finish) in *.
  destruct Hrest as (Q1 & Q2 & Q3 & Q4 & Q5 & Q6 & Q7).
  destruct (commit_spec q text start finish Q5 Q6 Q7) as (e & older & Hcb & Hsub & Hes & Hee).
  fold b' in Hcb.
  assert (sb_covered_end_us b' = finish) as Hcov'.
  { change (sb_covered_end_us b') with
      (if sb_covered_end_us q <? finish then finish else sb_covered_end_us q).
    rewrite Hce. destruct (Z.ltb_spec (sb_covered_end_us b) finish); lia. }
  assert (sb_pending b' = sb_pending q) as Hpq by reflexivity.
  split; [|by rewrite Hpq].
  destruct Hi as [I1 I2 I3 I4 I5 I6 I7 I8 I9 I10]. split; try done.
  - change (zlen (set_slot (sb_history q) (sb_history_head q)
      (mk_hist start finish (ztake (vw_utf8_safe_len (Some text) (VW_SEGMENT_BUILDER_MAX_TEXT_BYTES - 1)) text)))
      = VW_SEGMENT_HISTORY_CAPACITY). by rewrite zlen_set_slot.
  - change (0 <= (sb_history_head q + 1) mod VW_SEGMENT_HISTORY_CAPACITY < VW_SEGMENT_HISTORY_CAPACITY).
    by apply Z.mod_pos_bound.
  - change (0 <= (if sb_history_count q <? VW_SEGMENT_HISTORY_CAPACITY then sb_history_count q + 1
      else sb_history_count q) <= VW_SEGMENT_HISTORY_CAPACITY).
    destruct (Z.ltb_spec (sb_history_count q) VW_SEGMENT_HISTORY_CAPACITY); lia.
  - lia.
  - rewrite Hpq, Hp, Hcov'. apply Forall_app. split; [|apply Forall_singleton].
    + eapply Forall_impl; [|exact I9]. intros s (? & ? & ? & ?). split_and!; try done; lia.
    + split_and!; simpl; try lia. exists text. split_and!; try done; try lia.
      unfold VW_SEGMENT_BUILDER_MAX_TEXT_BYTES in *. apply u16_id. unfold is_unsigned. lia.
  - rewrite Hcb, Hcov'. constructor; [split; lia|].
    rewrite Hcom in Hsub. eapply Forall_sublist; [exact Hsub|].
    eapply Forall_impl; [|exact I10]. intros h (? & ?). split; lia.
Qed.

(** *** Text facts *)
Lemma clean_text_no_nul t : no_nul (clean_text t).
Proof.
  unfold clean_text, trim, trim_end. apply no_nul_rev, trim_start_no_nul, no_nul_rev.
  apply trim_start_no_nul, cstr_no_nul.
Qed.

(** What an accepted hypothesis does to the builder. *)
Definition cue_appended (b b' : vw_segment_builder_t) (text : list Z) (end_pts_us : Z) : Prop :=
  exists s,
  sb_pending b' = sb_pending b ++ [s]
  /\ seg_segment_id s = sb_next_segment_id b
  /\ sb_next_segment_id b' = u64 (sb_next_segment_id b + 1)
  /\ seg_end_pts_us s = end_pts_us /\ sb_covered_end_us b < end_pts_us
  /\ sb_covered_end_us b' = end_pts_us
  /\ exists p t, seg_text_utf8 s = Some t /\ text = p ++ t.

Definition push_ok (b : vw_segment_builder_t) (text : list Z) (end_pts_us : Z)
    (r : bool * vw_segment_builder_t) : Prop :=
  sb_inv (snd r) /\ if fst r then cue_appended b (snd r) text end_pts_us else snd r = b.

Definition stage_ok (b : vw_segment_builder_t) (text : list Z) (end_pts_us : Z) (s : stage) : Prop :=
  match s with Continue => True | Return ok b' => push_ok b text end_pts_us (ok, b') end.

Lemma stage_then_ok b text e s k :
  stage_ok b text e s -> stage_ok b text e k -> stage_ok b text e (stage_then s k).
Proof. by destruct s. Qed.

Lemma emit_appended b text p start finish :
  sb_inv b -> no_nul text -> 0 < zlen text < VW_SEGMENT_BUILDER_MAX_TEXT_BYTES ->
  0 <= start < finish -> sb_covered_end_us b < finish ->
  push_ok b (p ++ text) finish
    (true, vw_segment_builder_commit_history
             (vw_segment_builder_enqueue b text start finish) text start finish).
Proof.
  intros Hi Hn Hl Hs Hc. destruct (emit_spec b text start finish Hi Hn Hl Hs Hc) as (old & I & P & N & C).
  split; [exact I|]. eexists. split_and!; [exact P|done|exact N|done|done|exact C|].
  by exists p, text.
Qed.

Section push.
Context (b : vw_segment_builder_t) (text : list Z) (start_pts_us end_pts_us : Z).
Context (Hinv : sb_inv b) (Hnn : no_nul text).
Context (Hlen : 0 < zlen text < VW_SEGMENT_BUILDER_MAX_TEXT_BYTES).
Context (Hse : 0 <= start_pts_us < end_pts_us).
Context (Hnew : sb_covered_end_us b < end_pts_us).

Lemma refuse_ok : stage_ok b text end_pts_us (Return false b).
Proof. by split. Qed.

Lemma apply_tail_trim_ok cue_text cue_start cue_end :
  0 <= cue_end ->
  stage_ok b text end_pts_us
    (of_trim b (vw_segment_builder_apply_tail_trim b text start_pts_us end_pts_us cue_text cue_start cue_end)).
Proof.
  intros Hce. unfold vw_segment_builder_apply_tail_trim.
  set (m := vw_segment_builder_tail_prefix_len cue_text text).
  case_match; [done|]. case_match; [done|].
  destruct ((m =? zlen text) || (end_pts_us <=? cue_end)) eqn:Hd; [apply refuse_ok|].
  destruct (trim_start is_blank (zdrop m text)) as [|c l] eqn:Et; [apply refuse_ok|].
  destruct (trim_start_suffix is_blank (zdrop m text)) as [k Ek]. rewrite Et in Ek.
  assert (text = (ztake m text ++ k) ++ c :: l) as Etext.
  { rewrite <- app_assoc, <- Ek. symmetry. apply ztake_zdrop. }
  pose proof Hnn as Hn'. rewrite Etext in Hn'. apply no_nul_app in Hn' as [_ Hn'].
  apply orb_false_elim in Hd as [_ Hd].
  cbn [of_trim stage_ok]. rewrite Etext at 1. apply emit_appended; try done; [|lia].
  pose proof Hlen as Hl'. rewrite Etext, zlen_app in Hl'. pose proof (zlen_nonneg (ztake m text ++ k)).
  rewrite zlen_cons in *. pose proof (zlen_nonneg l). lia.
Qed.

Lemma get_last_in cue : vw_segment_builder_get_last_segment b = Some cue -> cue ∈ sb_pending b.
Proof.
  unfold vw_segment_builder_get_last_segment. intros H. case_if H. injection H as <-.
  destruct Hinv. apply orb_false_elim in Hc as [Hc _].
  apply list_elem_of_lookup. exists (Z.to_nat (sb_count b - 1)).
  unfold sb_pending. rewrite ring_read_lookup by lia. do 2 f_equal.
  unfold sb_tail. rewrite sb_inv_len0, Zplus_mod_idemp_l. f_equal. lia.
Qed.

Lemma check_last_ok : stage_ok b text end_pts_us (check_last b text start_pts_us end_pts_us).
Proof.
  unfold check_last. destruct (vw_segment_builder_get_last_segment b) as [cue|] eqn:E; [|done].
  apply get_last_in in E. destruct Hinv.
  pose proof (proj1 (list.Forall_forall _ _) sb_inv_pending0 cue E) as (Hc & _).
  destruct (seg_text_utf8 cue) as [t|]; [|done].
  case_match; [apply refuse_ok|].
  apply stage_then_ok; [apply apply_tail_trim_ok; lia|]. case_match; [apply refuse_ok|done].
Qed.

Lemma check_history_ok n : forall i,
  0 <= i -> i + Z.of_nat n <= sb_history_count b ->
  stage_ok b text end_pts_us (check_history b text start_pts_us end_pts_us i n).
Proof.
  induction n as [|n IH]; intros i Hi Hn; simpl; [done|].
  apply stage_then_ok; [|apply IH; lia]. unfold check_entry.
  assert (history_entry b i ∈ sb_committed b) as Hin.
  { unfold sb_committed. apply list_elem_of_In, in_map_iff. exists (Z.to_nat i).
    split; [by rewrite Z2Nat.id|]. apply in_seq. lia. }
  destruct Hinv. pose proof (proj1 (list.Forall_forall _ _) sb_inv_committed0 _ Hin) as (Hc & _).
  case_match; [done|]. case_match; [apply refuse_ok|].
  apply stage_then_ok; [apply apply_tail_trim_ok; lia|]. case_match; [apply refuse_ok|done].
Qed.

Lemma queue_cue_ok : push_ok b text end_pts_us (queue_cue b text start_pts_us end_pts_us).
Proof.
  unfold queue_cue. case_match eqn:E; [by split|].
  apply (emit_appended b text []); try done. revert E. case_match; lia.
Qed.
End push.

Lemma push_cases b t start_pts_us end_pts_us :
  sb_inv b ->
  push_ok b (clean_text t) end_pts_us
    (vw_segment_builder_push_hypothesis b (Some t) start_pts_us end_pts_us).
Proof.
  intros Hi. unfold vw_segment_builder_push_hypothesis.
  case_match eqn:Ht; [by split|]. apply orb_false_elim in Ht as [Hs He].
  cbv zeta. set (text := clean_text t).
  case_match eqn:Hl; [by split|]. apply orb_false_elim in Hl as [Hl0 Hl1].
  case_match; [by split|]. case_match eqn:Hcov; [by split|].
  pose proof (zlen_nonneg text). assert (0 < zlen text < VW_SEGMENT_BUILDER_MAX_TEXT_BYTES) as Hlen by lia.
  assert (no_nul text) as Hnn by apply clean_text_no_nul.
  assert (0 <= start_pts_us < end_pts_us) as Hse by lia.
  assert (sb_covered_end_us b < end_pts_us) as Hnew.
  { unfold already_covered, VW_DEDUP_TIME_TOLERANCE_US in Hcov.
    apply andb_false_elim in Hcov as [Hcov|Hcov]; [apply andb_false_elim in Hcov as [Hcov|Hcov]|]; lia. }
  assert (stage_ok b text end_pts_us
    (stage_then (check_last b text start_pts_us end_pts_us)
       (check_history b text start_pts_us end_pts_us 0 (Z.to_nat (sb_history_count b))))) as Hok.
  { apply stage_then_ok; [by apply check_last_ok|]. apply check_history_ok; try done.
    destruct Hi. lia. }
  destruct (stage_then _ _); [by apply queue_cue_ok|exact Hok].
Qed.

Lemma pop_spec b :
  sb_inv b ->
  match sb_pending b with
  | [] => vw_segment_builder_pop b = (None, b)
  | s :: rest =>
      exists b', vw_segment_builder_pop b = (Some s, b') /\ sb_inv b' /\ sb_pending b' = rest
      /\ sb_next_segment_id b' = sb_next_segment_id b /\ sb_covered_end_us b' = sb_covered_end_us b
  end.
Proof.
  intros Hi. unfold vw_segment_builder_pop. destruct Hi as [I1 I2 I3 I4 I5 I6 I7 I8 I9 I10].
  destruct (sb_pending b) as [|s rest] eqn:Ep.
  - apply (f_equal length) in Ep. unfold sb_pending in Ep. rewrite ring_read_length in Ep. simpl in Ep.
    destruct (Z.eqb_spec (sb_count b) 0); [done|lia].
  - pose proof (f_equal length Ep) as El. unfold sb_pending in El. rewrite ring_read_length in El.
    simpl in El. destruct (Z.eqb_spec (sb_count b) 0); [lia|].
    destruct (Z.eqb_spec (sb_capacity b) 0); [lia|]. simpl orb. cbv iota.
    assert (0 <= sb_tail b < sb_capacity b) as Ht by (apply Z.mod_pos_bound; lia).
    pose proof Ep as Ep'. unfold sb_pending in Ep'. rewrite El in Ep'. simpl in Ep'.
    injection Ep' as E1 E2. rewrite I2, Z.mod_small in E1 by done. rewrite E1.
    eexists. split; [reflexivity|]. set (b' := mk_sb _ _ _ _ _ _ _ _ _).
    assert (sb_pending b' = rest) as Ep'.
    { rewrite <- E2. unfold sb_pending, sb_tail; simpl.
      replace (Z.to_nat (sb_count b - 1)) with (length rest) by lia.
      replace (sb_head b + sb_capacity b - (sb_count b - 1))
        with (sb_head b + sb_capacity b - sb_count b + 1) by lia.
      rewrite <- Zplus_mod_idemp_l. fold (sb_tail b).
      rewrite <- I2 at 1. rewrite <- (zlen_set_slot (sb_segment_queue b) (sb_tail b) no_segment).
      rewrite ring_read_mod. apply ring_read_set_out; [lia|lia|].
      intros i Hr. rewrite I2. intros E. rewrite <- (Z.mod_small (sb_tail b) (sb_capacity b)) in E at 2 by lia.
      revert E. replace (sb_tail b + 1 + i) with (sb_tail b + (1 + i)) by lia.
      rewrite <- (Z.add_0_r (sb_tail b)) at 2. apply not_eq_sym. apply mod_distinct; lia. }
    split; [|done]. split; try done; simpl; try lia.
    + by rewrite zlen_set_slot.
    + rewrite Ep'. by inversion I9.
Qed.

(** A newly created builder is empty and well formed. *)
Lemma create_inv : sb_inv vw_segment_builder_create.
Proof. split; vm_compute; try done; try (split; [intros E|intros E]; discriminate); constructor. Qed.

(** *** Runs: a worker pushes hypotheses and pops cues in any order *)
Inductive sb_op :=
  | OpPush (text : option (list Z)) (start_pts_us end_pts_us : Z)
  | OpPop.

(** The cues popped so far and the builder. *)
Definition sb_step (st : list vw_caption_segment_t * vw_segment_builder_t) (op : sb_op)
  : list vw_caption_segment_t * vw_segment_builder_t :=
  match op with
  | OpPush t s e => (fst st, snd (vw_segment_builder_push_hypothesis (snd st) t s e))
  | OpPop => match vw_segment_builder_pop (snd st) with
             | (Some s, b) => (fst st ++ [s], b)
             | (None, b) => (fst st, b)
             end
  end.

Definition sb_run (ops : list sb_op) : list vw_caption_segment_t * vw_segment_builder_t :=
  fold_left sb_step ops ([], vw_segment_builder_create).

(** Every cue accepted so far: the popped ones and then the pending ones. *)
Definition sb_emitted (st : list vw_caption_segment_t * vw_segment_builder_t)
  : list vw_caption_segment_t := fst st ++ sb_pending (snd st).

Record timeline_ok (st : list vw_caption_segment_t * vw_segment_builder_t) (n : Z) : Prop := {
  tl_inv : sb_inv (snd st);
  tl_bound : zlen (sb_emitted st) <= n;
  tl_next : sb_next_segment_id (snd st) = 1 + zlen (sb_emitted st);
  tl_ids : map seg_segment_id (sb_emitted st) = seqZ 1 (zlen (sb_emitted st));
  tl_cues : Forall (cue_ok (sb_covered_end_us (snd st))) (sb_emitted st);
  tl_ends : StronglySorted Z.lt (map seg_end_pts_us (sb_emitted st))
}.

Lemma StronglySorted_snoc l x :
  StronglySorted Z.lt l -> Forall (fun y => y < x) l -> StronglySorted Z.lt (l ++ [x]).
Proof.
  induction 1 as [|y l Hl IH Hy]; intros HF; simpl; [repeat constructor|].
  inversion HF; subst. constructor; [auto|]. apply Forall_app. by split; [|constructor].
Qed.

Lemma timeline_append d b b' text e n :
  timeline_ok (d, b) n -> n + 1 < 2 ^ 64 - 1 -> sb_inv b' -> cue_appended b b' text e ->
  timeline_ok (d, b') (n + 1).
Proof.
  intros [I B N D C S] Hn I' (s & Hp & Hid & Hnext & He & Hlt & Hcov & _). simpl in *.
  assert (sb_emitted (d, b') = sb_emitted (d, b) ++ [s]) as Ee
    by (unfold sb_emitted; simpl; by rewrite Hp, app_assoc).
  pose proof (zlen_nonneg (sb_emitted (d, b))).
  split; simpl; rewrite ?Ee, ?zlen_app; change (zlen [s]) with 1; try done; try lia.
  - rewrite Hnext, N, u64_id by (unfold is_unsigned; lia). lia.
  - rewrite map_app, D, seqZ_app by lia. do 2 f_equal. simpl. rewrite Hid, N. done.
  - apply Forall_app. split.
    + eapply Forall_impl; [|exact C]. intros x (? & ? & ? & ?). split_and!; try done; lia.
    + destruct I' as [_ _ _ _ _ _ _ _ P _]. rewrite Hp in P. by apply Forall_app in P as [_ P].
  - rewrite map_app. apply StronglySorted_snoc; [done|]. apply Forall_map.
    eapply Forall_impl; [|exact C]. intros x (_ & ? & _). lia.
Qed.

Lemma timeline_step st op n :
  timeline_ok st n -> n + 1 < 2 ^ 64 - 1 -> timeline_ok (sb_step st op) (n + 1).
Proof.
  intros Ht Hn. destruct st as [d b]. destruct op as [t s e|]; simpl.
  - destruct t as [t|]; [|destruct Ht; split; simpl in *; auto; lia].
    pose proof (push_cases b t s e (tl_inv _ _ Ht)) as [I H].
    destruct (vw_segment_builder_push_hypothesis b (Some t) s e) as [[] b']; simpl in *.
    + by eapply timeline_append.
    + subst b'. destruct Ht. split; simpl in *; auto; lia.
  - pose proof (pop_spec b (tl_inv _ _ Ht)) as H. destruct (sb_pending b) as [|s rest] eqn:Ep.
    + rewrite H. destruct Ht. split; simpl in *; auto; lia.
    + destruct H as (b' & -> & I & Hp & Hid & Hcov).
      assert (sb_emitted (d ++ [s], b') = sb_emitted (d, b)) as Ee
        by (unfold sb_emitted; simpl; by rewrite Hp, Ep, <- app_assoc).
      destruct Ht. split; simpl in *; rewrite ?Ee, ?Hid, ?Hcov; auto; lia.
Qed.

(** ** Correctness *)

(** Pushing a hypothesis either refuses it and leaves the builder as it
    was, or queues exactly one final cue: it takes the next identifier, ends
    where the hypothesis ends, beyond everything captioned so far, moves the
    coverage frontier to its end, and its text is a suffix of the cleaned
    hypothesis. The builder stays well formed in both cases. *)
Theorem push_hypothesis_correct b t start_pts_us end_pts_us :
  sb_inv b ->
  let '(queued, b') := vw_segment_builder_push_hypothesis b (Some t) start_pts_us end_pts_us in
  sb_inv b' /\ (if queued then cue_appended b b' (clean_text t) end_pts_us else b' = b).
Proof.
  intros Hi. pose proof (push_cases b t start_pts_us end_pts_us Hi) as H.
  by destruct (vw_segment_builder_push_hypothesis _ _ _ _).
Qed.
Lemma push_hypothesis_correct_witness :
  fst (vw_segment_builder_push_hypothesis vw_segment_builder_create (Some (str " hello ")) 0 5) = true
  /\ let '(queued, b') := vw_segment_builder_push_hypothesis vw_segment_builder_create (Some (str " hello ")) 0 5 in
     sb_inv b' /\ (if queued then cue_appended vw_segment_builder_create b' (clean_text (str " hello ")) 5
                   else b' = vw_segment_builder_create).
Proof. split; [vm_compute; reflexivity|]. apply (push_hypothesis_correct _ _ _ _ create_inv). Defined.

(** Overlapping windows never repeat a caption: once a hypothesis has been
    accepted up to [e], every hypothesis that starts before [e] and ends within
    the tolerance after it is refused, whatever its text, and the builder does
    not change. *)
Theorem push_hypothesis_dedup b b' t s e t' s' e' :
  sb_inv b ->
  vw_segment_builder_push_hypothesis b (Some t) s e = (true, b') ->
  s' < e -> e' <= e + VW_DEDUP_TIME_TOLERANCE_US ->
  vw_segment_builder_push_hypothesis b' t' s' e' = (false, b').
Proof.
  intros Hi Hp Hs He. pose proof (push_cases b t s e Hi) as [_ H]. rewrite Hp in H; simpl in H.
  destruct H as (c & _ & _ & _ & _ & Hlt & Hcov & _).
  assert (0 <= e) by (destruct Hi; lia).
  unfold vw_segment_builder_push_hypothesis. destruct t' as [t'|]; [|done].
  case_match; [done|]. cbv zeta. do 2 (case_match; [done|]).
  replace (already_covered b' s' e') with true; [done|].
  unfold already_covered. rewrite Hcov. lia.
Qed.
Lemma push_hypothesis_dedup_witness :
  vw_segment_builder_push_hypothesis
    (snd (vw_segment_builder_push_hypothesis vw_segment_builder_create (Some (str "good morning")) 0 3000000))
    (Some (str "Good mornin' all")) 1000000 3400000
  = (false, snd (vw_segment_builder_push_hypothesis vw_segment_builder_create (Some (str "good morning")) 0 3000000)).
Proof.
  apply (push_hypothesis_dedup vw_segment_builder_create _ (str "good morning") 0 3000000);
    [apply create_inv|vm_compute; reflexivity|lia|unfold VW_DEDUP_TIME_TOLERANCE_US; lia].
Defined.

(** C12: For every sequence of pushes and pops from a new builder, the cues
    accepted so far, popped ones first, are numbered 1, 2, 3, ... without gaps,
    their end times strictly increase, and popping delivers them in that order:
    no accepted cue is lost, reordered or overwritten while the queue grows. *)
Theorem segment_builder_timeline ops :
  zlen ops < 2 ^ 64 - 1 ->
  let st := sb_run ops in
  map seg_segment_id (sb_emitted st) = seqZ 1 (zlen (sb_emitted st))
  /\ StronglySorted Z.lt (map seg_end_pts_us (sb_emitted st))
  /\ Forall (cue_ok (sb_covered_end_us (snd st))) (sb_emitted st).
Proof.
  intros Hn. cbv zeta. assert (timeline_ok (sb_run ops) (zlen ops)) as [].
  { unfold sb_run. rewrite <- (Z.add_0_l (zlen ops)).
    assert (timeline_ok ([], vw_segment_builder_create) 0) as H
      by (split; [apply create_inv|reflexivity..|constructor|constructor]).
    assert (0 + zlen ops < 2 ^ 64 - 1) as Hb by lia. clear Hn. revert H Hb.
    generalize ([] : list vw_caption_segment_t, vw_segment_builder_create) 0.
    induction ops as [|op ops IH]; intros st n H Hb; simpl; [by rewrite Z.add_0_r|].
    rewrite zlen_cons in *. pose proof (zlen_nonneg ops).
    replace (n + (1 + zlen ops)) with (n + 1 + zlen ops) in * by lia.
    apply IH; [|done]. apply timeline_step; [done|lia]. }
  done.
Qed.
Lemma segment_builder_timeline_witness :
  let st := sb_run [OpPush (Some (str "good morning")) 0 3000000; OpPop;
                    OpPush (Some (str "morning sir")) 2000000 3100000;
                    OpPush (Some (str "how are you")) 3200000 6000000] in
  map seg_segment_id (sb_emitted st) = seqZ 1 (zlen (sb_emitted st))
  /\ StronglySorted Z.lt (map seg_end_pts_us (sb_emitted st))
  /\ Forall (cue_ok (sb_covered_end_us (snd st))) (sb_emitted st).
Proof. apply (segment_builder_timeline _). vm_compute. reflexivity. Defined.

(** The prefix trim does not clamp to the coverage frontier: it can queue a cue
    that starts at the end of an older cue and overlaps a newer one. *)
Lemma trimmed_cue_overlaps :
  let st := sb_run [OpPush (Some (str "alpha beta gamma")) 0 4000000;
                    OpPush (Some (str "delta epsilon")) 5000000 9000000;
                    OpPush (Some (str "beta gamma zeta")) 3900000 10000000] in
  map (fun s => (seg_start_pts_us s, seg_end_pts_us s)) (sb_emitted st)
  = [(0, 4000000); (5000000, 9000000); (4000000, 10000000)].
Proof. vm_compute. reflexivity. Qed.
