(* ===== verification/Vad.v ===== *)
(** * Voice activity and chunk boundaries

    [src/worker/src/vw_vad.c]: where the worker cuts the buffered audio for
    inference. The Silero model (whisper.cpp) is a parameter: its detector and
    its segment times; the energy fallback and the choice of the cut are the
    program's own. *)

From S2P Require Import Prelude.
From S2P Require Import Float32.

Definition VW_VAD_MAX_TRAILING_SILENCE_SAMPLES : Z := 4800.
Definition VW_CHUNK_MIN_SAMPLES : Z := 96000.
Definition VW_CHUNK_MAX_SAMPLES : Z := 384000.
Definition VW_CHUNK_PAD_SAMPLES : Z := 2400.
Definition VW_CHUNK_MIN_SILENCE_GAP : Z := 4800.
Definition SIZE_MAX : Z := 2 ^ 64 - 1.

(** [0.01f] *)
Definition VW_VAD_ENERGY_THRESHOLD : Z := 0x3C23D70A.
(** [160.0f] *)
Definition f32_160 : Z := 0x43200000.

Definition f32_neg (b : Z) : bool := SFltb (f32_to_spec b) (S754_zero false).

(** The sum of squares in [double], sample by sample. *)
Fixpoint sum_squares (pcm : list Z) (sum_sq : spec_float) : spec_float :=
  match pcm with
  | [] => sum_sq
  | x :: pcm =>
      let x := spec_convert 53 1024 (f32_to_spec x) in
      sum_squares pcm (SFadd 53 1024 sum_sq (SFmul 53 1024 x x))
  end.

(** [pcm32] is NULL or the array of [sample_count] float patterns. *)
Definition vw_vad_detect_speech_energy (pcm32 : option (list Z)) (threshold : Z) : bool :=
  match pcm32 with
  | None => false
  | Some pcm =>
      if (zlen pcm =? 0) || f32_neg threshold then false
      else
        let sum_sq := sum_squares pcm (S754_zero false) in
        let mean_square :=
          spec_convert 24 128 (SFdiv 53 1024 sum_sq (spec_of_Z (zlen pcm))) in
        let threshold_sq := SFmul 24 128 (f32_to_spec threshold) (f32_to_spec threshold) in
        SFltb threshold_sq mean_square
  end.

(** What a loaded VAD context answers: whether detection ran, and the speech
    segments from the probabilities (NULL on failure), each with its start and
    end in hundredths of a second as float patterns. *)
Record vad_context := mk_vad {
  whisper_vad_detect_speech : list Z -> bool;
  whisper_vad_segments_from_probs : list Z -> option (list (Z * Z))
}.

Definition vw_vad_detect_speech (vctx : option vad_context) (pcm32 : option (list Z)) : bool :=
  match pcm32 with
  | None => false
  | Some pcm =>
      if zlen pcm =? 0 then false
      else match vctx with
      | Some v =>
          if negb (whisper_vad_detect_speech v pcm) then false
          else match whisper_vad_segments_from_probs v pcm with
          | None => false
          | Some segments => 0 <? zlen segments
          end
      | None => vw_vad_detect_speech_energy pcm32 VW_VAD_ENERGY_THRESHOLD
      end
  end.

(** [(size_t)(t_cs * 160.0f)] *)
Definition cs_to_sample (t_cs : Z) : Z :=
  u64 (spec_trunc (SFmul 24 128 (f32_to_spec t_cs) (f32_to_spec f32_160))).

(** A segment in samples. *)
Definition seg_samples (s : Z * Z) : Z * Z := (cs_to_sample (fst s), cs_to_sample (snd s)).

(** The silence drained when no speech was found. *)
Definition silence_drain (sample_count : Z) (is_eof : bool) : Z :=
  if is_eof || (sample_count <=? VW_CHUNK_PAD_SAMPLES) then sample_count
  else sample_count - VW_CHUNK_PAD_SAMPLES.

(** The cut after segment end [raw_seg_end] when the next segment starts at
    [next_start_sample]. *)
Definition gap_cut (raw_seg_end next_start_sample : Z) : Z :=
  let seg_end_sample := u64 (raw_seg_end + VW_CHUNK_PAD_SAMPLES) in
  let next_padded_start :=
    if VW_CHUNK_PAD_SAMPLES <? next_start_sample then next_start_sample - VW_CHUNK_PAD_SAMPLES
    else next_start_sample in
  let cut := u64 (seg_end_sample + next_padded_start) / 2 in
  if cut <? seg_end_sample then seg_end_sample else cut.

(** The cut after the last segment, at most 300 ms into the trailing silence. *)
Definition tail_cut (raw_seg_end sample_count : Z) : Z :=
  let seg_end_sample := u64 (raw_seg_end + VW_CHUNK_PAD_SAMPLES) in
  let max_cut := u64 (raw_seg_end + VW_VAD_MAX_TRAILING_SILENCE_SAMPLES) in
  let max_cut := if max_cut <? raw_seg_end then SIZE_MAX else max_cut in
  let cut := u64 (seg_end_sample + sample_count) / 2 in
  let cut := if max_cut <? cut then max_cut else cut in
  let cut := if sample_count <? cut then sample_count else cut in
  if cut <? seg_end_sample then seg_end_sample else cut.

(** Case C: the first segment end in range with a long enough pause after it;
    0 when there is none. *)
Fixpoint natural_cut (segs : list (Z * Z)) (sample_count : Z) (is_eof : bool) : Z :=
  match segs with
  | [] => 0
  | (_, raw_seg_end) :: rest =>
      let seg_end_sample := u64 (raw_seg_end + VW_CHUNK_PAD_SAMPLES) in
      if (VW_CHUNK_MIN_SAMPLES <=? seg_end_sample) && (seg_end_sample <=? VW_CHUNK_MAX_SAMPLES)
      then match rest with
      | (next_start_sample, _) :: _ =>
          if u64 (raw_seg_end + VW_CHUNK_MIN_SILENCE_GAP) <=? next_start_sample
          then gap_cut raw_seg_end next_start_sample
          else natural_cut rest sample_count is_eof
      | [] =>
          if (u64 (raw_seg_end + VW_CHUNK_MIN_SILENCE_GAP) <=? sample_count) || is_eof
          then tail_cut raw_seg_end sample_count
          else natural_cut rest sample_count is_eof
      end
      else natural_cut rest sample_count is_eof
  end.

(** A full buffer without a pause: the last segment end in range. *)
Definition forced_end (s : Z * Z) : bool :=
  let seg_end := u64 (snd s + VW_CHUNK_PAD_SAMPLES) in
  (seg_end <=? VW_CHUNK_MAX_SAMPLES) && (VW_CHUNK_MIN_SAMPLES <=? seg_end).

Definition forced_cut (segs : list (Z * Z)) : Z :=
  match List.find forced_end (rev segs) with
  | Some s => u64 (snd s + VW_CHUNK_PAD_SAMPLES)
  | None => VW_CHUNK_MAX_SAMPLES
  end.

Definition speech_cut (segs : list (Z * Z)) (sample_count : Z) (is_eof : bool) : Z :=
  let chosen_cut := natural_cut segs sample_count is_eof in
  if (chosen_cut =? 0) && (VW_CHUNK_MAX_SAMPLES <=? sample_count) then forced_cut segs
  else if (chosen_cut =? 0) && is_eof then sample_count
  else chosen_cut.

(** The verdict, the cut and the silence to drain. *)
Record boundary := mk_boundary { bd_found : bool; bd_cut : Z; bd_drain : Z }.

Definition boundary_silence (sample_count : Z) (is_eof : bool) : boundary :=
  if (VW_CHUNK_MIN_SAMPLES <=? sample_count) || is_eof
  then mk_boundary true 0 (silence_drain sample_count is_eof)
  else mk_boundary false 0 0.

Definition boundary_speech (segs : list (Z * Z)) (sample_count : Z) (is_eof : bool) : boundary :=
  let chosen_cut := speech_cut segs sample_count is_eof in
  if 0 <? chosen_cut
  then mk_boundary true (if sample_count <? chosen_cut then sample_count else chosen_cut) 0
  else mk_boundary false 0 0.

Definition boundary_segments (segs : list (Z * Z)) (sample_count : Z) (is_eof : bool) : boundary :=
  match segs with
  | [] => boundary_silence sample_count is_eof
  | (first_speech_sample, _) :: _ =>
      if 16000 + VW_CHUNK_PAD_SAMPLES <? first_speech_sample
      then mk_boundary true 0 (first_speech_sample - VW_CHUNK_PAD_SAMPLES)
      else boundary_speech segs sample_count is_eof
  end.

Definition boundary_energy (pcm : list Z) (is_eof : bool) : boundary :=
  let sample_count := zlen pcm in
  if negb (vw_vad_detect_speech_energy (Some pcm) VW_VAD_ENERGY_THRESHOLD)
  then boundary_silence sample_count is_eof
  else
    let target_samples := (VW_CHUNK_MIN_SAMPLES + VW_CHUNK_MAX_SAMPLES) / 2 in
    if (target_samples <=? sample_count) || is_eof
    then mk_boundary true (if target_samples <? sample_count then target_samples else sample_count) 0
    else mk_boundary false 0 0.

Definition vw_vad_find_chunk_boundary (vctx : option vad_context) (pcm32 : option (list Z))
    (is_eof : bool) : boundary :=
  match pcm32 with
  | None => mk_boundary false 0 0
  | Some pcm =>
      if zlen pcm =? 0 then mk_boundary false 0 0
      else match vctx with
      | None => boundary_energy pcm is_eof
      | Some v =>
          if negb (whisper_vad_detect_speech v pcm) then boundary_energy pcm is_eof
          else match whisper_vad_segments_from_probs v pcm with
          | None => boundary_energy pcm is_eof
          | Some segments => boundary_segments (map seg_samples segments) (zlen pcm) is_eof
          end
      end
  end.

(** ** Correctness *)

(** Speech segments in order inside a buffer of [n] samples. *)
Fixpoint segs_ordered (lo n : Z) (segs : list (Z * Z)) : Prop :=
  match segs with
  | [] => lo <= n
  | (t0, t1) :: rest => lo <= t0 <= t1 /\ segs_ordered t1 n rest
  end.

(** A cut at [c] leaves the padding of 150 ms on the speech side of it. *)
Definition clear_of (c : Z) (s : Z * Z) : Prop :=
  snd s + VW_CHUNK_PAD_SAMPLES <= c \/ c <= fst s - VW_CHUNK_PAD_SAMPLES.

Ltac vad_consts := unfold clear_of, VW_CHUNK_MIN_SAMPLES, VW_CHUNK_MAX_SAMPLES, VW_CHUNK_PAD_SAMPLES,
  VW_CHUNK_MIN_SILENCE_GAP, VW_VAD_MAX_TRAILING_SILENCE_SAMPLES, SIZE_MAX in *.

Lemma u64_small z : 0 <= z < 2 ^ 63 -> u64 z = z.
Proof. intros. apply u64_id. unfold is_unsigned. lia. Qed.

Lemma gap_cut_ge e n : u64 (e + VW_CHUNK_PAD_SAMPLES) <= gap_cut e n.
Proof. unfold gap_cut. case_match; lia. Qed.
Lemma tail_cut_ge e n : u64 (e + VW_CHUNK_PAD_SAMPLES) <= tail_cut e n.
Proof. unfold tail_cut. case_match; lia. Qed.

Lemma natural_cut_zero_or_min segs n eof :
  natural_cut segs n eof = 0 \/ VW_CHUNK_MIN_SAMPLES <= natural_cut segs n eof.
Proof.
  induction segs as [|[t0 t1] rest IH]; [by left|]. cbn [natural_cut].
  case_match eqn:E; [|done]. apply andb_prop in E as [E _].
  pose proof (tail_cut_ge t1 n). 
  destruct rest as [|[s0 s1] rest]; (case_match; [right|done]); [lia|].
  pose proof (gap_cut_ge t1 s0). lia.
Qed.

Lemma forced_cut_pos segs : 0 < forced_cut segs.
Proof.
  unfold forced_cut. destruct (List.find _ _) as [s|] eqn:E; [|done].
  apply find_some in E as [_ E]. unfold forced_end in E. apply andb_prop in E as [_ E].
  vad_consts. lia.
Qed.

Lemma speech_cut_nonneg segs n eof : 0 <= n -> 0 <= speech_cut segs n eof.
Proof.
  intros. unfold speech_cut. pose proof (natural_cut_zero_or_min segs n eof).
  pose proof (forced_cut_pos segs). vad_consts. repeat case_match; lia.
Qed.
Lemma speech_cut_must segs n eof :
  0 < n -> eof = true \/ VW_CHUNK_MAX_SAMPLES <= n -> 0 < speech_cut segs n eof.
Proof.
  intros Hn Hor. unfold speech_cut. pose proof (natural_cut_zero_or_min segs n eof).
  pose proof (forced_cut_pos segs). vad_consts.
  destruct (Z.eqb_spec (natural_cut segs n eof) 0) as [E|E]; simpl; [|lia].
  destruct (384000 <=? n) eqn:E'; [done|]. destruct eof; [done|]. destruct Hor; [done|lia].
Qed.

(** A boundary is usable: it consumes audio, and never more than there is
    when it is a cut. *)
Definition boundary_ok (n : Z) (b : boundary) : Prop :=
  if bd_found b then (0 < bd_cut b <= n /\ bd_drain b = 0) \/ (bd_cut b = 0 /\ 0 < bd_drain b)
  else bd_cut b = 0 /\ bd_drain b = 0.

Definition must_cut (n : Z) (eof : bool) : Prop := eof = true \/ VW_CHUNK_MAX_SAMPLES <= n.

Section boundary.
Context (n : Z) (eof : bool) (Hn : 0 < n).

Lemma boundary_silence_ok :
  boundary_ok n (boundary_silence n eof) /\ (must_cut n eof -> bd_found (boundary_silence n eof) = true).
Proof.
  unfold boundary_silence, silence_drain, must_cut, boundary_ok. vad_consts.
  destruct (96000 <=? n) eqn:E1, eof; simpl; (split; [|intros [?|?]; done || lia]); try (split; done);
    right; (split; [done|]); try lia; case_match; lia.
Qed.

Lemma boundary_speech_ok segs :
  boundary_ok n (boundary_speech segs n eof) /\ (must_cut n eof -> bd_found (boundary_speech segs n eof) = true).
Proof.
  unfold boundary_speech, boundary_ok, must_cut.
  pose proof (speech_cut_nonneg segs n eof). pose proof (speech_cut_must segs n eof Hn).
  destruct (Z.ltb_spec 0 (speech_cut segs n eof)); simpl; (split; [|intros; done || lia]).
  - left. split; [|done]. case_match; lia.
  - done.
Qed.

Lemma boundary_segments_ok segs :
  boundary_ok n (boundary_segments segs n eof)
  /\ (must_cut n eof -> bd_found (boundary_segments segs n eof) = true).
Proof.
  unfold boundary_segments. destruct segs as [|[t0 t1] rest]; [apply boundary_silence_ok|].
  case_match eqn:E; [|apply boundary_speech_ok]. split; [|done].
  unfold boundary_ok; simpl. right. vad_consts. lia.
Qed.
End boundary.

Lemma boundary_energy_ok pcm eof :
  0 < zlen pcm ->
  boundary_ok (zlen pcm) (boundary_energy pcm eof)
  /\ (must_cut (zlen pcm) eof -> bd_found (boundary_energy pcm eof) = true).
Proof.
  intros Hn. unfold boundary_energy. case_match; [by apply boundary_silence_ok|].
  unfold must_cut, boundary_ok. vad_consts. change ((96000 + 384000) / 2) with 240000.
  destruct (240000 <=? zlen pcm) eqn:E, eof; simpl; (split; [|intros [?|?]; done || lia]);
    try (left; split; [|done]; case_match; lia); done.
Qed.

(** Every chosen cut of a sentence pause is clear of all speech. *)
Lemma segs_ordered_bound lo n segs : segs_ordered lo n segs -> lo <= n.
Proof.
  revert lo. induction segs as [|[t0 t1] rest IH]; intros lo; simpl; [done|].
  intros [? H]. apply IH in H. lia.
Qed.
Lemma segs_ordered_starts lo n segs c :
  segs_ordered lo n segs -> c <= lo - VW_CHUNK_PAD_SAMPLES -> Forall (clear_of c) segs.
Proof.
  revert lo. induction segs as [|[t0 t1] rest IH]; intros lo H Hc; [constructor|].
  simpl in H. destruct H as [H H']. constructor; [right; simpl; lia|]. apply (IH t1 H'). lia.
Qed.

Definition cut_ok (lo n : Z) (eof : bool) (segs : list (Z * Z)) (c : Z) : Prop :=
  lo + VW_CHUNK_PAD_SAMPLES <= c /\ ((c <= n /\ Forall (clear_of c) segs) \/ (eof = true /\ n <= c)).

Lemma natural_cut_clear n eof segs : forall lo,
  0 <= lo -> n < VW_CHUNK_MAX_SAMPLES -> segs_ordered lo n segs -> natural_cut segs n eof <> 0 ->
  cut_ok lo n eof segs (natural_cut segs n eof).
Proof.
  induction segs as [|[t0 t1] rest IH]; intros lo Hlo Hn Ho Hc; [done|].
  destruct Ho as [Ht Ho]. pose proof (segs_ordered_bound _ _ _ Ho). 
  assert (forall c, cut_ok t1 n eof rest c -> cut_ok lo n eof ((t0, t1) :: rest) c) as Hmono.
  { intros c [? [[? ?]|?]]; (split; [lia|]); [left|by right]. split; [done|]. constructor; [|done].
    left. simpl. lia. }
  cbn [natural_cut] in *.
  assert (u64 (t1 + VW_CHUNK_PAD_SAMPLES) = t1 + VW_CHUNK_PAD_SAMPLES
          /\ u64 (t1 + VW_CHUNK_MIN_SILENCE_GAP) = t1 + VW_CHUNK_MIN_SILENCE_GAP) as [E1 E2].
  { vad_consts. split; apply u64_small; lia. }
  rewrite E1, E2 in *.
  destruct ((_ <=? _) && (_ <=? _)) eqn:Er; [|apply Hmono, IH; try done; lia].
  destruct rest as [|[s0 s1] rest].
  - destruct (_ || _) eqn:Eg; [|done]. unfold tail_cut in *. rewrite E1 in *.
    assert (u64 (t1 + VW_VAD_MAX_TRAILING_SILENCE_SAMPLES) = t1 + VW_VAD_MAX_TRAILING_SILENCE_SAMPLES) as E3
      by (vad_consts; apply u64_small; lia).
    rewrite E3 in *.
    rewrite (u64_small (t1 + VW_CHUNK_PAD_SAMPLES + n)) in Hc |- * by (clear Eg; vad_consts; lia).
    unfold cut_ok. vad_consts.
    destruct (Z.ltb_spec (t1 + 4800) t1); [lia|].
    set (avg := (t1 + 2400 + n) / 2) in *.
    assert (avg <= n \/ n < t1 + 2400) by (subst avg; clear; Z.to_euclidean_division_equations; lia).
    split; [repeat case_match; lia|].
    destruct (Z.le_gt_cases (t1 + 2400) n).
    + left. split; [repeat case_match; lia|]. constructor; [|constructor]. left; simpl.
      repeat case_match; lia.
    + right. split; [destruct eof; [done|lia]|]. repeat case_match; lia.
  - destruct (t1 + VW_CHUNK_MIN_SILENCE_GAP <=? s0) eqn:Eg; [|apply Hmono, IH; try done; lia].
    destruct Ho as [Hs Ho]. pose proof (segs_ordered_bound _ _ _ Ho).
    apply Hmono. unfold gap_cut in *. rewrite E1 in *.
    assert (VW_CHUNK_PAD_SAMPLES < s0) as Hp by (vad_consts; lia).
    destruct (Z.ltb_spec VW_CHUNK_PAD_SAMPLES s0); [|lia].
    rewrite u64_small in * by (vad_consts; lia).
    set (avg := (t1 + VW_CHUNK_PAD_SAMPLES + (s0 - VW_CHUNK_PAD_SAMPLES)) / 2) in *.
    assert (t1 + VW_CHUNK_PAD_SAMPLES <= avg <= s0 - VW_CHUNK_PAD_SAMPLES) by (subst avg; clear Hc; vad_consts; Z.to_euclidean_division_equations; lia).
    destruct (Z.ltb_spec avg (t1 + VW_CHUNK_PAD_SAMPLES)); [lia|].
    split; [lia|]. left. split; [vad_consts; lia|].
    apply (segs_ordered_starts s0 n); [|lia]. simpl. split; [lia|done].
Qed.

Lemma find_boundary_ok vctx pcm is_eof :
  let b := vw_vad_find_chunk_boundary vctx (Some pcm) is_eof in
  boundary_ok (zlen pcm) b
  /\ (pcm <> [] -> must_cut (zlen pcm) is_eof -> bd_found b = true).
Proof.
  unfold vw_vad_find_chunk_boundary. destruct pcm as [|x pcm]; [by split|].
  set (l := x :: pcm). assert (0 < zlen l) as Hl by (subst l; rewrite zlen_cons; pose proof (zlen_nonneg pcm); lia).
  destruct (Z.eqb_spec (zlen l) 0); [lia|]. pose proof (boundary_energy_ok l is_eof Hl) as [He1 He2].
  destruct vctx as [v|]; [|by split]. destruct (negb _); [by split|].
  destruct (whisper_vad_segments_from_probs v l) as [segs|]; [|by split].
  destruct (boundary_segments_ok (zlen l) is_eof Hl (map seg_samples segs)) as [? ?]. by split.
Qed.
(** Chunking always makes progress and never reads past the buffer: every
    boundary found consumes audio, a cut lies within the buffered samples, and
    one is found whenever the stream ended or the buffer reached 24 s. *)
Theorem chunk_boundary_progress vctx pcm is_eof :
  let b := vw_vad_find_chunk_boundary vctx (Some pcm) is_eof in
  boundary_ok (zlen pcm) b
  /\ (pcm <> [] -> is_eof = true \/ VW_CHUNK_MAX_SAMPLES <= zlen pcm -> bd_found b = true).
Proof. apply find_boundary_ok. Qed.
Lemma chunk_boundary_progress_witness :
  let b := vw_vad_find_chunk_boundary None (Some [0x3F000000; 0xBF000000; 0x3F000000]) true in
  b = mk_boundary true 3 0 /\ boundary_ok 3 b
  /\ ([0x3F000000; 0xBF000000; 0x3F000000] <> [] -> true = true \/ VW_CHUNK_MAX_SAMPLES <= 3 -> bd_found b = true).
Proof.
  split; [vm_compute; reflexivity|].
  apply (chunk_boundary_progress None [0x3F000000; 0xBF000000; 0x3F000000] true).
Defined.

(** A cut never clips a word while the buffer is below 24 s: when the model's
    segments are ordered within the buffer, the cut is at least 150 ms away from
    every speech segment, on either side, unless the stream ended and the whole
    buffer is taken. *)
Theorem chunk_cut_clear_of_speech v pcm is_eof segments :
  whisper_vad_detect_speech v pcm = true ->
  whisper_vad_segments_from_probs v pcm = Some segments ->
  segs_ordered 0 (zlen pcm) (map seg_samples segments) ->
  zlen pcm < VW_CHUNK_MAX_SAMPLES ->
  let b := vw_vad_find_chunk_boundary (Some v) (Some pcm) is_eof in
  0 < bd_cut b ->
  Forall (clear_of (bd_cut b)) (map seg_samples segments)
  \/ (is_eof = true /\ bd_cut b = zlen pcm).
Proof.
  intros Hd Hs Ho Hn b. subst b. unfold vw_vad_find_chunk_boundary.
  destruct (Z.eqb_spec (zlen pcm) 0); [done|]. rewrite Hd, Hs. simpl negb. cbv iota.
  set (segs := map seg_samples segments) in *. unfold boundary_segments.
  destruct segs as [|[t0 t1] rest] eqn:Es; [unfold boundary_silence; case_match; simpl; lia|].
  case_match; [simpl; lia|]. rewrite <- Es in *. unfold boundary_speech.
  destruct (Z.ltb_spec 0 (speech_cut segs (zlen pcm) is_eof)) as [Hp|]; [|simpl; lia]. cbn [bd_cut].
  intros _. unfold speech_cut in *. destruct (Z.leb_spec VW_CHUNK_MAX_SAMPLES (zlen pcm)); [lia|].
  rewrite andb_false_r in *.
  destruct (Z.eqb_spec (natural_cut segs (zlen pcm) is_eof) 0) as [Ez|Ez]; simpl in *.
  - destruct is_eof; [|lia]. right. split; [done|]. case_match; lia.
  - destruct (natural_cut_clear (zlen pcm) is_eof segs 0) as (_ & [[Hle Hf]|[? ?]]); try done.
    + left. destruct (Z.ltb_spec (zlen pcm) (natural_cut segs (zlen pcm) is_eof)); [lia|done].
    + right. split; [done|]. destruct (Z.ltb_spec (zlen pcm) (natural_cut segs (zlen pcm) is_eof)); lia.
Qed.

(** A context that reports two phrases: 0-6 s and 7-9 s. *)
Definition two_phrases : vad_context :=
  mk_vad (fun _ => true) (fun _ => Some [(0, 0x44160000); (0x442F0000, 0x44610000)]).
Definition quiet_seconds (n : Z) : list Z := zreplicate (n * 16000) 0.

Lemma two_phrases_samples :
  map seg_samples [(0, 0x44160000); (0x442F0000, 0x44610000)] = [(0, 96000); (112000, 144000)].
Proof. vm_compute. reflexivity. Qed.
Lemma chunk_cut_clear_of_speech_witness :
  let b := vw_vad_find_chunk_boundary (Some two_phrases) (Some (quiet_seconds 10)) false in
  bd_cut b = 104000
  /\ (Forall (clear_of (bd_cut b)) (map seg_samples [(0, 0x44160000); (0x442F0000, 0x44610000)])
      \/ (false = true /\ bd_cut b = zlen (quiet_seconds 10))).
Proof.
  assert (zlen (quiet_seconds 10) = 160000) as E by (unfold quiet_seconds; by rewrite zlen_replicate).
  assert (bd_cut (vw_vad_find_chunk_boundary (Some two_phrases) (Some (quiet_seconds 10)) false) = 104000) as Ec.
  { unfold vw_vad_find_chunk_boundary, two_phrases. rewrite E.
    cbn [whisper_vad_detect_speech whisper_vad_segments_from_probs negb].
    rewrite two_phrases_samples. reflexivity. }
  split; [exact Ec|].
  apply (chunk_cut_clear_of_speech two_phrases (quiet_seconds 10) false);
    [reflexivity|reflexivity|rewrite two_phrases_samples, E; simpl; lia|rewrite E; unfold VW_CHUNK_MAX_SAMPLES; lia|].
  rewrite Ec. lia.
Defined.
