(* ===== verification/Sha256.v ===== *)
(** * SHA-256

    [src/worker/src/vw_sha256.c]: the streaming hash that checks downloaded
    models. Words are 32-bit values in [Z]; the compression function follows the
    code, and the streaming functions are proved equal to hashing the padded
    message in blocks, whatever the chunking. *)

From S2P Require Import Prelude.
From S2P Require Import Ring.

Definition VW_SHA256_ROTR (x n : Z) : Z := Z.lor (Z.shiftr x n) (u32 (Z.shiftl x (32 - n))).

(** The eight 32-bit words a row of the source's tables lists. *)
Definition words8 (row : Z) : list Z :=
  map (fun k => u32 (Z.shiftr row (32 * k))) [7; 6; 5; 4; 3; 2; 1; 0].

Definition kVW_SHA256_K : list Z := Eval vm_compute in
  concat (map words8
     [0x428a2f98_71374491_b5c0fbcf_e9b5dba5_3956c25b_59f111f1_923f82a4_ab1c5ed5;
      0xd807aa98_12835b01_243185be_550c7dc3_72be5d74_80deb1fe_9bdc06a7_c19bf174;
      0xe49b69c1_efbe4786_0fc19dc6_240ca1cc_2de92c6f_4a7484aa_5cb0a9dc_76f988da;
      0x983e5152_a831c66d_b00327c8_bf597fc7_c6e00bf3_d5a79147_06ca6351_14292967;
      0x27b70a85_2e1b2138_4d2c6dfc_53380d13_650a7354_766a0abb_81c2c92e_92722c85;
      0xa2bfe8a1_a81a664b_c24b8b70_c76c51a3_d192e819_d6990624_f40e3585_106aa070;
      0x19a4c116_1e376c08_2748774c_34b0bcb5_391c0cb3_4ed8aa4a_5b9cca4f_682e6ff3;
      0x748f82ee_78a5636f_84c87814_8cc70208_90befffa_a4506ceb_bef9a3f7_c67178f2
     ]).

Record vw_sha256_context_t := mk_sha {
  sha_state : list Z;     (* uint32_t[8] *)
  sha_bitlen : Z;         (* uint64_t *)
  sha_data : list Z;      (* uint8_t[64] *)
  sha_datalen : Z         (* uint32_t *)
}.

(** ** The compression function *)

(** Big-endian word [i] of the block. *)
Definition block_word (data : list Z) (i : Z) : Z :=
  Z.lor (Z.lor (Z.lor (Z.shiftl (znth data (i * 4)) 24) (Z.shiftl (znth data (i * 4 + 1)) 16))
               (Z.shiftl (znth data (i * 4 + 2)) 8)) (znth data (i * 4 + 3)).

(** [w[i]] from the earlier words, [i] being the length of [w]. *)
Definition next_word (w : list Z) : Z :=
  let i := zlen w in
  let w15 := znth w (i - 15) in
  let w2 := znth w (i - 2) in
  let s0 := Z.lxor (Z.lxor (VW_SHA256_ROTR w15 7) (VW_SHA256_ROTR w15 18)) (Z.shiftr w15 3) in
  let s1 := Z.lxor (Z.lxor (VW_SHA256_ROTR w2 17) (VW_SHA256_ROTR w2 19)) (Z.shiftr w2 10) in
  u32 (znth w (i - 16) + s0 + znth w (i - 7) + s1).

Fixpoint extend_words (n : nat) (w : list Z) : list Z :=
  match n with
  | O => w
  | S n => extend_words n (w ++ [next_word w])
  end.

Definition schedule (data : list Z) : list Z :=
  extend_words 48 (map (fun i => block_word data (Z.of_nat i)) (seq 0 16)).

(** The working variables [a] to [h]. *)
Record vars := mk_vars { va : Z; vb : Z; vc : Z; vd : Z; ve : Z; vf : Z; vg : Z; vh : Z }.

Definition round (v : vars) (kw : Z * Z) : vars :=
  let S1 := Z.lxor (Z.lxor (VW_SHA256_ROTR (ve v) 6) (VW_SHA256_ROTR (ve v) 11)) (VW_SHA256_ROTR (ve v) 25) in
  let ch := Z.lxor (Z.land (ve v) (vf v)) (Z.land (u32 (Z.lnot (ve v))) (vg v)) in
  let temp1 := u32 (vh v + S1 + ch + fst kw + snd kw) in
  let S0 := Z.lxor (Z.lxor (VW_SHA256_ROTR (va v) 2) (VW_SHA256_ROTR (va v) 13)) (VW_SHA256_ROTR (va v) 22) in
  let maj := Z.lxor (Z.lxor (Z.land (va v) (vb v)) (Z.land (va v) (vc v))) (Z.land (vb v) (vc v)) in
  let temp2 := u32 (S0 + maj) in
  mk_vars (u32 (temp1 + temp2)) (va v) (vb v) (vc v) (u32 (vd v + temp1)) (ve v) (vf v) (vg v).

Definition compress (state data : list Z) : list Z :=
  let w := schedule data in
  let s i := znth state i in
  let v := fold_left round (zip kVW_SHA256_K w)
             (mk_vars (s 0) (s 1) (s 2) (s 3) (s 4) (s 5) (s 6) (s 7)) in
  [u32 (s 0 + va v); u32 (s 1 + vb v); u32 (s 2 + vc v); u32 (s 3 + vd v);
   u32 (s 4 + ve v); u32 (s 5 + vf v); u32 (s 6 + vg v); u32 (s 7 + vh v)].

Definition vw_sha256_transform (ctx : vw_sha256_context_t) (data : list Z) : vw_sha256_context_t :=
  mk_sha (compress (sha_state ctx) data) (sha_bitlen ctx) (sha_data ctx) (sha_datalen ctx).

(** ** Streaming *)

Definition sha256_h0 : list Z := Eval vm_compute in
  words8 0x6a09e667_bb67ae85_3c6ef372_a54ff53a_510e527f_9b05688c_1f83d9ab_5be0cd19.

(** The block buffer keeps what it held. *)
Definition vw_sha256_init (ctx : vw_sha256_context_t) : vw_sha256_context_t :=
  mk_sha sha256_h0 0 (sha_data ctx) 0.

(** One byte of [vw_sha256_update]. *)
Definition update_byte (ctx : vw_sha256_context_t) (byte : Z) : vw_sha256_context_t :=
  let data := set_slot (sha_data ctx) (sha_datalen ctx) byte in
  let ctx := mk_sha (sha_state ctx) (sha_bitlen ctx) data (u32 (sha_datalen ctx + 1)) in
  if sha_datalen ctx =? 64 then
    let ctx := vw_sha256_transform ctx (sha_data ctx) in
    mk_sha (sha_state ctx) (u64 (sha_bitlen ctx + 512)) (sha_data ctx) 0
  else ctx.

Definition vw_sha256_update (ctx : vw_sha256_context_t) (data : list Z) : vw_sha256_context_t :=
  fold_left update_byte data ctx.

(** The [while (i < limit) data[i++] = 0] loops. *)
Fixpoint zero_from (data : list Z) (i : Z) (n : nat) : list Z :=
  match n with
  | O => data
  | S n => zero_from (set_slot data i 0) (i + 1) n
  end.

(** Padding: the 0x80 byte and zeros, with an extra block when fewer than eight
    bytes are left for the length. *)
Definition pad_block (ctx : vw_sha256_context_t) : vw_sha256_context_t :=
  let i := sha_datalen ctx in
  let data := set_slot (sha_data ctx) i 0x80 in
  if i <? 56 then
    mk_sha (sha_state ctx) (sha_bitlen ctx) (zero_from data (i + 1) (Z.to_nat (56 - (i + 1)))) i
  else
    let data := zero_from data (i + 1) (Z.to_nat (64 - (i + 1))) in
    let ctx := vw_sha256_transform (mk_sha (sha_state ctx) (sha_bitlen ctx) data i) data in
    mk_sha (sha_state ctx) (sha_bitlen ctx) (zreplicate 56 0 ++ zdrop 56 (sha_data ctx)) (sha_datalen ctx).

Definition u8_shift (x n : Z) : Z := u8 (Z.shiftr x n).

(** The eight length bytes, stored from the last. *)
Definition store_bitlen (data : list Z) (bitlen : Z) : list Z :=
  fold_left (fun data k => set_slot data (63 - k) (u8_shift bitlen (8 * k))) [0; 1; 2; 3; 4; 5; 6; 7] data.

(** The digest bytes, as the nested loops store them. *)
Definition hash_bytes (state : list Z) : list Z :=
  fold_left (fun hash ij => set_slot hash (fst ij + snd ij * 4)
                (Z.land (Z.shiftr (znth state (snd ij)) (24 - fst ij * 8)) 0xFF))
    (list_prod [0; 1; 2; 3] [0; 1; 2; 3; 4; 5; 6; 7]) (zreplicate 32 0).

Definition vw_sha256_final (ctx : vw_sha256_context_t) : list Z :=
  let ctx := pad_block ctx in
  let bitlen := u64 (sha_bitlen ctx + sha_datalen ctx * 8) in
  let data := store_bitlen (sha_data ctx) bitlen in
  hash_bytes (sha_state (vw_sha256_transform ctx data)).

(** [uninit] is the uninitialised context on the stack. *)
Definition vw_sha256 (uninit : vw_sha256_context_t) (data : list Z) : list Z :=
  vw_sha256_final (vw_sha256_update (vw_sha256_init uninit) data).

Definition kHex : list Z := str "0123456789abcdef".

Definition vw_sha256_to_hex (hash : list Z) : list Z :=
  concat (map (fun b => [znth kHex (Z.land (Z.shiftr b 4) 0xF); znth kHex (Z.land b 0xF)]) hash).

Definition sha_uninit : vw_sha256_context_t := mk_sha (zreplicate 8 0) 0 (zreplicate 64 0xA5) 7.

Example sha256_empty :
  vw_sha256_to_hex (vw_sha256 sha_uninit [])
  = str "e3b0c44298fc1c149afbf4c8996fb92427ae41e4649b934ca495991b7852b855".
Proof. vm_compute. reflexivity. Qed.
Example sha256_abc :
  vw_sha256_to_hex (vw_sha256 sha_uninit (str "abc"))
  = str "ba7816bf8f01cfea414140de5dae2223b00361a396177a9cb410ff61f20015ad".
Proof. vm_compute. reflexivity. Qed.
Example sha256_two_blocks :
  vw_sha256_to_hex (vw_sha256 sha_uninit (str "abcdbcdecdefdefgefghfghighijhijkijkljklmklmnlmnomnopnopq"))
  = str "248d6a61d20638b8e5c026930c3e6039a33ce45964ff2167f6ecedd419db06c1".
Proof. vm_compute. reflexivity. Qed.

(** ** Specification: padding and block-wise compression (FIPS 180-4) *)

Definition be64 (x : Z) : list Z :=
  [u8_shift x 56; u8_shift x 48; u8_shift x 40; u8_shift x 32;
   u8_shift x 24; u8_shift x 16; u8_shift x 8; u8_shift x 0].
Definition be32 (x : Z) : list Z :=
  map (fun n => Z.land (Z.shiftr x n) 0xFF) [24; 16; 8; 0].

Definition sha256_padded (m : list Z) : list Z :=
  m ++ 0x80 :: zreplicate ((55 - zlen m) mod 64) 0 ++ be64 (u64 (8 * zlen m)).

Fixpoint compress_blocks (n : nat) (state m : list Z) : list Z :=
  match n with
  | O => state
  | S n => compress_blocks n (compress state (ztake 64 m)) (zdrop 64 m)
  end.

Definition sha256_spec (m : list Z) : list Z :=
  let p := sha256_padded m in
  concat (map be32 (compress_blocks (Z.to_nat (zlen p / 64)) sha256_h0 p)).

Lemma compress_blocks_app k j a b : forall st,
  zlen a = 64 * Z.of_nat k ->
  compress_blocks (k + j) st (a ++ b) = compress_blocks j (compress_blocks k st a) b.
Proof.
  revert a. induction k as [|k IH]; intros a st Ha.
  - rewrite (zlen_zero a) by lia. done.
  - cbn [compress_blocks Nat.add].
    assert (ztake 64 (a ++ b) = ztake 64 a) as ->.
    { unfold ztake. rewrite take_app_le; [done|]. unfold zlen in Ha. lia. }
    assert (zdrop 64 (a ++ b) = zdrop 64 a ++ b) as ->.
    { unfold zdrop. rewrite drop_app_le; [done|]. unfold zlen in Ha. lia. }
    apply IH. rewrite zlen_zdrop; lia.
Qed.
Lemma compress_block_one st b : zlen b = 64 -> compress_blocks 1 st b = compress st b.
Proof. intros. cbn [compress_blocks]. rewrite ztake_all by lia. done. Qed.

(** ** The streaming state *)

(** After absorbing [m]: whole blocks are compressed, the rest is buffered. *)
Definition sha_inv (m : list Z) (ctx : vw_sha256_context_t) : Prop :=
  exists (k : nat) full rest junk,
  m = full ++ rest /\ zlen full = 64 * Z.of_nat k /\ zlen rest < 64
  /\ sha_state ctx = compress_blocks k sha256_h0 full
  /\ sha_bitlen ctx = u64 (512 * Z.of_nat k)
  /\ sha_data ctx = rest ++ junk /\ zlen (sha_data ctx) = 64 /\ sha_datalen ctx = zlen rest.

Lemma set_slot_middle {A} (a b : list A) (y x : A) i :
  i = zlen a -> set_slot (a ++ y :: b) i x = a ++ x :: b.
Proof.
  intros ->. unfold set_slot, zlen. rewrite Nat2Z.id. by rewrite insert_app_r_alt, Nat.sub_diag by lia.
Qed.
Lemma set_slot_right (a b : list Z) i x :
  zlen a <= i -> set_slot (a ++ b) i x = a ++ set_slot b (i - zlen a) x.
Proof.
  intros. unfold set_slot. rewrite insert_app_r_alt by zlia. do 2 f_equal. zlia.
Qed.

Lemma sha_inv_init uninit : zlen (sha_data uninit) = 64 -> sha_inv [] (vw_sha256_init uninit).
Proof. intros H. exists 0%nat, [], [], (sha_data uninit). split_and!; try done. Qed.

Lemma sha_inv_byte m ctx x : sha_inv m ctx -> sha_inv (m ++ [x]) (update_byte ctx x).
Proof.
  intros (k & full & rest & junk & -> & Hf & Hr & Hst & Hbl & Hd & Hl & Hdl).
  unfold update_byte. rewrite Hd, Hl || rewrite Hd. rewrite Hd, zlen_app in Hl.
  pose proof (zlen_nonneg rest). destruct junk as [|j junk]; [rewrite zlen_nil in Hl; lia|].
  rewrite set_slot_middle by done. cbn [sha_datalen sha_state sha_data sha_bitlen].
  rewrite Hdl. assert (u32 (zlen rest + 1) = zlen rest + 1) as -> by (apply u32_id; unfold is_unsigned; lia).
  rewrite zlen_cons in Hl. pose proof (zlen_nonneg junk).
  destruct (Z.eqb_spec (zlen rest + 1) 64) as [E|E].
  - assert (junk = []) as -> by (apply zlen_zero; lia).
    exists (S k), (full ++ rest ++ [x]), [], (rest ++ [x]).
    cbn [vw_sha256_transform sha_state sha_bitlen sha_data sha_datalen].
    split_and!; try done.
    + by rewrite app_nil_r, app_assoc.
    + rewrite !zlen_app. change (zlen [x]) with 1. lia.
    + replace (S k) with (k + 1)%nat by lia. rewrite compress_blocks_app by done.
      rewrite compress_block_one, Hst; [done|]. rewrite zlen_app. change (zlen [x]) with 1. lia.
    + rewrite Hbl. unfold u64. rewrite Zplus_mod_idemp_l. f_equal. lia.
    + rewrite zlen_app. change (zlen [x]) with 1. lia.
  - exists k, full, (rest ++ [x]), junk. cbn [sha_state sha_bitlen sha_data sha_datalen].
    rewrite !zlen_app, !zlen_cons, zlen_nil. split_and!; try done; try lia; by rewrite <- ?app_assoc.
Qed.

Lemma sha_inv_update data : forall m ctx, sha_inv m ctx -> sha_inv (m ++ data) (vw_sha256_update ctx data).
Proof.
  induction data as [|x data IH]; intros m ctx H; simpl; [by rewrite app_nil_r|].
  rewrite (app_assoc m [x] data : m ++ x :: data = _). by apply IH, sha_inv_byte.
Qed.

Lemma zero_from_spec n : forall a b,
  (n <= length b)%nat -> zero_from (a ++ b) (zlen a) n = a ++ replicate n 0 ++ drop n b.
Proof.
  induction n as [|n IH]; intros a b Hn; [done|]. destruct b as [|y b]; [simpl in Hn; lia|].
  cbn [zero_from]. rewrite set_slot_middle by done.
  replace (a ++ 0 :: b) with ((a ++ [0]) ++ b) by (by rewrite <- app_assoc).
  replace (zlen a + 1) with (zlen (a ++ [0])) by (by rewrite zlen_app).
  rewrite IH by (simpl in Hn; lia). by rewrite <- app_assoc.
Qed.

Lemma store_bitlen_spec a b x :
  zlen a = 56 -> zlen b = 8 -> store_bitlen (a ++ b) x = a ++ be64 x.
Proof.
  intros Ha Hb. unfold store_bitlen. cbn [fold_left].
  do 8 (rewrite set_slot_right by lia). rewrite Ha. f_equal.
  unfold zlen in Hb.
  destruct b as [|b0 [|b1 [|b2 [|b3 [|b4 [|b5 [|b6 [|b7 [|]]]]]]]]]; simpl in Hb; try lia. done.
Qed.

Lemma hash_bytes_spec s : length s = 8%nat -> hash_bytes s = concat (map be32 s).
Proof.
  intros Hs. destruct s as [|s0 [|s1 [|s2 [|s3 [|s4 [|s5 [|s6 [|s7 [|]]]]]]]]]; simpl in Hs; try lia.
  unfold hash_bytes, be32. cbn [list_prod map fold_left app fst snd concat].
  reflexivity.
Qed.

Lemma compress_length st b : length (compress st b) = 8%nat.
Proof. reflexivity. Qed.
Lemma compress_blocks_length n : forall st m, length st = 8%nat -> length (compress_blocks n st m) = 8%nat.
Proof. induction n; intros; simpl; [done|]. apply IHn, compress_length. Qed.

(** The padded tail of a message whose last, partial block is [rest]. *)
Lemma padded_short full rest (k : nat) :
  zlen full = 64 * Z.of_nat k -> zlen rest < 56 ->
  sha256_padded (full ++ rest)
  = full ++ (rest ++ 0x80 :: replicate (Z.to_nat (55 - zlen rest)) 0)
      ++ be64 (u64 (8 * zlen (full ++ rest))).
Proof.
  intros Hf Hr. pose proof (zlen_nonneg rest). unfold sha256_padded. rewrite <- !app_assoc. do 3 f_equal.
  simpl. f_equal. f_equal. unfold zreplicate. do 2 f_equal.
  rewrite zlen_app. replace (55 - (zlen full + zlen rest)) with (55 - zlen rest + (- Z.of_nat k) * 64) by lia.
  rewrite Z_mod_plus_full. apply Z.mod_small. lia.
Qed.
Lemma padded_long full rest (k : nat) :
  zlen full = 64 * Z.of_nat k -> 56 <= zlen rest < 64 ->
  sha256_padded (full ++ rest)
  = full ++ (rest ++ 0x80 :: replicate (Z.to_nat (63 - zlen rest)) 0)
      ++ zreplicate 56 0 ++ be64 (u64 (8 * zlen (full ++ rest))).
Proof.
  intros Hf Hr. unfold sha256_padded. rewrite <- !app_assoc. do 3 f_equal.
  cbn [app]. f_equal. unfold zreplicate.
  rewrite (app_assoc (replicate _ _) (replicate _ _)), <- replicate_add. do 2 f_equal.
  rewrite zlen_app. replace (55 - (zlen full + zlen rest)) with (119 - zlen rest + (- Z.of_nat k - 1) * 64) by lia.
  rewrite Z_mod_plus_full, Z.mod_small by lia. lia.
Qed.

Lemma final_bitlen (k : nat) r : u64 (u64 (512 * Z.of_nat k) + r * 8) = u64 (8 * (64 * Z.of_nat k + r)).
Proof. unfold u64. rewrite Zplus_mod_idemp_l. f_equal. lia. Qed.

Lemma sha_inv_final m ctx : sha_inv m ctx -> vw_sha256_final ctx = sha256_spec m.
Proof.
  intros (k & full & rest & junk & -> & Hf & Hr & Hst & Hbl & Hd & Hl & Hdl).
  unfold vw_sha256_final, pad_block, sha256_spec. rewrite Hdl.
  rewrite Hd, zlen_app in Hl. pose proof (zlen_nonneg rest). pose proof (zlen_nonneg junk).
  destruct junk as [|j junk]; [rewrite zlen_nil in Hl; lia|]. rewrite zlen_cons in Hl.
  rewrite Hd, set_slot_middle by done.
  replace (rest ++ 0x80 :: junk) with ((rest ++ [0x80]) ++ junk) by (by rewrite <- app_assoc).
  replace (zlen rest + 1) with (zlen (rest ++ [0x80])) by (by rewrite zlen_app).
  assert (zlen (rest ++ [0x80]) = zlen rest + 1) as Er by (by rewrite zlen_app).
  destruct (Z.ltb_spec (zlen rest) 56) as [Hs|Hs].
  - rewrite zero_from_spec by (rewrite Er; unfold zlen in *; lia).
    cbn [vw_sha256_transform sha_state sha_bitlen sha_data sha_datalen].
    rewrite (padded_short full rest k), Hbl, final_bitlen, <- Hf, <- zlen_app, Er by done.
    replace (56 - (zlen rest + 1)) with (55 - zlen rest) by lia.
    rewrite app_assoc, store_bitlen_spec; [|zlia|zlia].
    rewrite <- (app_assoc rest). cbn [app].
    set (blk := (rest ++ 0x80 :: _) ++ be64 _).
    assert (zlen blk = 64) as Hblk by (subst blk; rewrite !zlen_app, zlen_cons; change (zlen (be64 _)) with 8; zlia).
    replace (Z.to_nat (zlen (full ++ blk) / 64)) with (k + 1)%nat
      by (rewrite zlen_app, Hf, Hblk; Z.to_euclidean_division_equations; lia).
    rewrite compress_blocks_app, compress_block_one, Hst by done.
    by rewrite hash_bytes_spec.
  - rewrite zero_from_spec by (rewrite Er; unfold zlen in *; lia).
    cbn [vw_sha256_transform sha_state sha_bitlen sha_data sha_datalen].
    rewrite (padded_long full rest k), Hbl, final_bitlen, <- Hf, <- zlen_app, Er by (done || lia).
    replace (64 - (zlen rest + 1)) with (63 - zlen rest) by lia.
    rewrite (drop_ge junk) by (unfold zlen in *; lia). rewrite app_nil_r.
    rewrite <- (app_assoc rest). cbn [app].
    set (b1 := rest ++ 0x80 :: _).
    assert (zlen b1 = 64) as H1 by (subst b1; rewrite !zlen_app, zlen_cons; zlia).
    rewrite store_bitlen_spec by (done || (rewrite zlen_zdrop; lia)).
    set (b2 := zreplicate 56 0 ++ be64 _).
    assert (zlen b2 = 64) as H2 by reflexivity.
    replace (Z.to_nat (zlen (full ++ b1 ++ b2) / 64)) with (k + (1 + 1))%nat
      by (rewrite !zlen_app, Hf, H1, H2; Z.to_euclidean_division_equations; lia).
    rewrite compress_blocks_app, compress_blocks_app, !compress_block_one, Hst by done.
    by rewrite hash_bytes_spec.
Qed.

(** ** Properties *)

(** C38: Hashing is independent of how the input is cut: feeding the chunks of a
    file one after the other into a fresh context, whatever its uninitialised
    buffer held, gives the block-wise SHA-256 of the whole content, with the
    bit length modulo 2^64. *)
Theorem sha256_streaming uninit chunks :
  zlen (sha_data uninit) = 64 ->
  vw_sha256_final (fold_left vw_sha256_update chunks (vw_sha256_init uninit))
  = sha256_spec (concat chunks).
Proof.
  intros Hu. apply sha_inv_final. pose proof (sha_inv_init uninit Hu) as Hi.
  rewrite <- (app_nil_l (concat chunks)). revert Hi. generalize (vw_sha256_init uninit) ([] : list Z).
  induction chunks as [|c chunks IH]; intros ctx m Hi; simpl; [by rewrite app_nil_r|].
  rewrite app_assoc. by apply IH, sha_inv_update.
Qed.
Lemma sha256_streaming_witness :
  zlen (sha_data sha_uninit) = 64
  /\ vw_sha256_final (fold_left vw_sha256_update [str "a"; str "b"; []; str "c"] (vw_sha256_init sha_uninit))
     = sha256_spec (str "abc").
Proof. split; [reflexivity|]. by apply (sha256_streaming sha_uninit [str "a"; str "b"; []; str "c"]). Defined.

(** The digest always has 32 bytes, and its printed form determines it. *)
Lemma sha256_spec_length m : zlen (sha256_spec m) = 32.
Proof.
  unfold sha256_spec. set (s := compress_blocks _ _ _).
  assert (length s = 8%nat) as Hs by (apply compress_blocks_length; reflexivity).
  clearbody s. destruct s as [|s0 [|s1 [|s2 [|s3 [|s4 [|s5 [|s6 [|s7 [|]]]]]]]]]; simpl in Hs; try lia. reflexivity.
Qed.
