(* ===== verification/ModelDownload.v ===== *)
(** * Model catalog and downloads

    [src/worker/include/vw_model_catalog.h] and
    [src/worker/src/vw_model_download.c]: a single-flight download that verifies
    a size and a SHA-256 before an atomic rename publishes the model, and that an
    abort can cancel at any time. The downloader thread and the aborting thread
    interleave at their locked regions; curl is the environment. *)

From stdpp Require Import relations.
From S2P Require Import Prelude.
From S2P Require Import CString.
From S2P Require Import ProtocolTypes.
From S2P Require Import Sha256.
#[local] Open Scope Z_scope.

(** ** The catalog *)

Record vw_model_catalog_entry_t := mk_entry {
  ent_id : list Z;
  ent_filename : list Z;
  ent_url : list Z;
  ent_sha256_hex : list Z;
  ent_bytes : Z;            (* uint64_t *)
  ent_multilingual : bool
}.

Definition kVWModelCatalogEntries : list vw_model_catalog_entry_t :=
  [mk_entry (str "tiny.en") (str "ggml-tiny.en.bin")
     (str "https://huggingface.co/ggerganov/whisper.cpp/resolve/main/ggml-tiny.en.bin")
     (str "921e4cf8686fdd993dcd081a5da5b6c365bfde1162e72b08d75ac75289920b1f") 77704715 false;
   mk_entry (str "tiny") (str "ggml-tiny.bin")
     (str "https://huggingface.co/ggerganov/whisper.cpp/resolve/main/ggml-tiny.bin")
     (str "be07e048e1e599ad46341c8d2a135645097a538221678b7acdd1b1919c6e1b21") 77691713 true;
   mk_entry (str "base.en") (str "ggml-base.en.bin")
     (str "https://huggingface.co/ggerganov/whisper.cpp/resolve/main/ggml-base.en.bin")
     (str "a03779c86df3323075f5e796cb2ce5029f00ec8869eee3fdfb897afe36c6d002") 147964211 false;
   mk_entry (str "base") (str "ggml-base.bin")
     (str "https://huggingface.co/ggerganov/whisper.cpp/resolve/main/ggml-base.bin")
     (str "60ed5bc3dd14eea856493d334349b405782ddcaf0028d4b5df4088345fba2efe") 147951465 true;
   mk_entry (str "small") (str "ggml-small.bin")
     (str "https://huggingface.co/ggerganov/whisper.cpp/resolve/main/ggml-small.bin")
     (str "1be3a9b2063867b937e64e2ec7483364a79917e157fa98c5d94b5c1fffea987b") 487601967 true;
   mk_entry (str "medium") (str "ggml-medium.bin")
     (str "https://huggingface.co/ggerganov/whisper.cpp/resolve/main/ggml-medium.bin")
     (str "6c14d5adee5f86394037b4e4e8b59f1673b6cee10e3cf0b11bbdbee79c156208") 1533763059 true;
   mk_entry (str "large") (str "ggml-large-v3.bin")
     (str "https://huggingface.co/ggerganov/whisper.cpp/resolve/main/ggml-large-v3.bin")
     (str "64d182b440b98d5203c4f9bd541544d84c605196c4f7b845dfa11fb23594d1e2") 3095033483 true].

Definition vw_model_catalog_count : Z := zlen kVWModelCatalogEntries.

Definition vw_model_catalog_find (id : option (list Z)) : option vw_model_catalog_entry_t :=
  match id with
  | None => None
  | Some id => List.find (fun e => bool_decide (ent_id e = id)) kVWModelCatalogEntries
  end.

(** ** Paths and helpers *)

Definition path_max : Z := 4096.

Definition is_sep (c : Z) : bool := (c =? 47) || (c =? 92).

Definition vw_path_join (out_size : Z) (dir file : list Z) : option (list Z) :=
  match dir with
  | [] => sized out_size file
  | _ =>
      let need_sep := negb (is_sep (znth dir (zlen dir - 1))) in
      sized out_size (if need_sep then dir ++ 47 :: file else dir ++ file)
  end.

(** The partial, final and lock paths of [vw_model_download_start]. *)
Definition download_paths (dest_dir filename : list Z) : option (list Z * list Z * list Z) :=
  match sized path_max dest_dir, vw_path_join path_max dest_dir filename with
  | Some _, Some final_path =>
      if path_max <=? zlen final_path + 5 then None
      else match sized path_max (final_path ++ str ".lock") with
      | Some lock_path => Some (final_path ++ str ".part", final_path, lock_path)
      | None => None
      end
  | _, _ => None
  end.

(** The per-user model directory on POSIX; [None] for an unset variable. *)
Definition vw_model_download_default_dir (xdg home : option (list Z)) (out_size : Z)
  : option (list Z) :=
  let tmp :=
    match xdg with
    | Some ((_ :: _) as xdg) => sized path_max (xdg ++ str "/vlc-whisper/models")
    | _ =>
        match home with
        | Some ((_ :: _) as home) => sized path_max (home ++ str "/.local/share/vlc-whisper/models")
        | _ => sized path_max (str "/tmp/vlc-whisper/models")
        end
    end in
  match tmp with Some tmp => sized out_size tmp | None => None end.

(** Only [A] to [F] are folded: the strings are hexadecimal. *)
Definition hex_lower (c : Z) : Z := if (65 <=? c) && (c <=? 70) then c - 65 + 97 else c.

Definition vw_hex_equal_ci (a b : list Z) : bool :=
  if negb (zlen a =? zlen b) then false
  else forallb (fun p => hex_lower (fst p) =? hex_lower (snd p)) (zip a b).

(** [uint64_t] arithmetic, the product included. *)
Definition vw_model_download_pct (bytes_done bytes_total : Z) : Z :=
  if bytes_total =? 0 then 0
  else
    let pct := u64 (bytes_done * 100) / bytes_total in
    if 100 <? pct then 100 else pct.

(** Reading the file in blocks of 64 KiB; [fuel] bounds the blocks. *)
Fixpoint file_blocks (fuel : nat) (content : list Z) : list (list Z) :=
  match fuel, content with
  | _, [] => []
  | O, _ => [content]
  | S fuel, _ => ztake 65536 content :: file_blocks fuel (zdrop 65536 content)
  end.

Definition vw_sha256_file (uninit : vw_sha256_context_t) (content : list Z) : list Z :=
  vw_sha256_final
    (fold_left vw_sha256_update (file_blocks (length content) content) (vw_sha256_init uninit)).

(** ** The download *)

(** Where the downloader thread is; the argument is the attempt. *)
Inductive dl_pc :=
  | PcStart
  | PcLoop (attempt : Z)
  | PcFetch (attempt : Z)
  | PcFetched (attempt : Z) (ok : bool)
  | PcChecked (attempt : Z) (ok : bool)
  | PcVerify (attempt : Z)
  | PcPublish
  | PcAborting
  | PcFinishAbort
  | PcExit
  | PcEnd.

(** [dl_part] and [dl_final] are the files, [None] when absent. *)
Record vw_model_download := mk_dl {
  dl_stage : Z;
  dl_pct : Z;
  dl_bytes_done : Z;
  dl_abort_requested : bool;
  dl_part : option (list Z);
  dl_final : option (list Z);
  dl_at : dl_pc
}.

Section download.
Context (entry : vw_model_catalog_entry_t).
Implicit Types d : vw_model_download.

Definition set_stage d stage pc : vw_model_download :=
  mk_dl stage (dl_pct d) (dl_bytes_done d) (dl_abort_requested d) (dl_part d) (dl_final d) pc.

Definition goto d pc : vw_model_download := set_stage d (dl_stage d) pc.

Definition unlink_part d : vw_model_download :=
  mk_dl (dl_stage d) (dl_pct d) (dl_bytes_done d) (dl_abort_requested d) None (dl_final d) (dl_at d).

(** A created download, its thread about to run; files may be left over. *)
Definition vw_model_download_start (part final : option (list Z)) : vw_model_download :=
  mk_dl VW_MODEL_STAGE_IDLE 0 0 false part final PcStart.

Definition vw_model_download_abort d : vw_model_download :=
  if (dl_stage d =? VW_MODEL_STAGE_DONE) || (dl_stage d =? VW_MODEL_STAGE_FAILED) then d
  else mk_dl (if dl_stage d =? VW_MODEL_STAGE_IDLE then dl_stage d else VW_MODEL_STAGE_ABORTING)
         (dl_pct d) (dl_bytes_done d) true (dl_part d) (dl_final d) (dl_at d).

Definition download_begin d : vw_model_download :=
  if dl_abort_requested d then set_stage d VW_MODEL_STAGE_IDLE PcEnd
  else set_stage d VW_MODEL_STAGE_DOWNLOADING (PcLoop 0).

(** A progress update of the fetch: curl has grown the partial file. *)
Definition fetch_progress d (part : option (list Z)) : vw_model_download :=
  let sz := match part with Some c => zlen c | None => 0 end in
  mk_dl (dl_stage d) (vw_model_download_pct sz (ent_bytes entry)) sz (dl_abort_requested d) part
    (dl_final d) (dl_at d).

Definition vw_model_download_reset_for_retry d : vw_model_download :=
  mk_dl VW_MODEL_STAGE_DOWNLOADING 0 0 (dl_abort_requested d) (dl_part d) (dl_final d) (PcLoop 1).

Definition vw_model_download_finish_abort d : vw_model_download :=
  mk_dl VW_MODEL_STAGE_IDLE 0 0 (dl_abort_requested d) None (dl_final d) PcEnd.

(** A failed fetch, hash or comparison: remove the partial file, then retry once. *)
Definition retry_or_fail d (attempt : Z) (clear_pct : bool) : vw_model_download :=
  let d := unlink_part d in
  if attempt =? 0 then vw_model_download_reset_for_retry d
  else mk_dl VW_MODEL_STAGE_FAILED (if clear_pct then 0 else dl_pct d) (dl_bytes_done d)
         (dl_abort_requested d) (dl_part d) (dl_final d) PcEnd.

(** After the fetch and its abort check: the exit status and the size. *)
Definition download_check d (attempt : Z) (ok : bool) : vw_model_download :=
  if negb ok then retry_or_fail d attempt true
  else
    let sz := match dl_part d with Some c => zlen c | None => 0 end in
    if ent_bytes entry <? sz then set_stage (unlink_part d) VW_MODEL_STAGE_FAILED PcEnd
    else set_stage d VW_MODEL_STAGE_VERIFYING (PcVerify attempt).

(** Hash the partial file ([readable]: the reads succeed) and compare. *)
Definition download_verify d (attempt : Z) (uninit : vw_sha256_context_t) (readable : bool)
  : vw_model_download :=
  match dl_part d with
  | Some content =>
      if negb readable then retry_or_fail d attempt false
      else if negb (vw_hex_equal_ci (vw_sha256_to_hex (vw_sha256_file uninit content))
                                    (ent_sha256_hex entry))
      then retry_or_fail d attempt false
      else goto d PcPublish
  | None => retry_or_fail d attempt false
  end.

(** The locked decision between an abort and the rename. *)
Definition download_publish d (renamed : bool) : vw_model_download :=
  if dl_abort_requested d then set_stage d VW_MODEL_STAGE_ABORTING PcFinishAbort
  else if negb renamed then unlink_part (set_stage d VW_MODEL_STAGE_FAILED PcEnd)
  else mk_dl VW_MODEL_STAGE_DONE 100 (ent_bytes entry) (dl_abort_requested d) None (dl_part d) PcEnd.

(** After the loop. *)
Definition download_exit d : vw_model_download :=
  if dl_abort_requested d then
    mk_dl VW_MODEL_STAGE_IDLE 0 0 true (dl_part d) (dl_final d) PcEnd
  else if negb (dl_stage d =? VW_MODEL_STAGE_DONE) && negb (dl_stage d =? VW_MODEL_STAGE_IDLE)
          && negb (dl_stage d =? VW_MODEL_STAGE_ABORTING)
  then set_stage d VW_MODEL_STAGE_FAILED PcEnd
  else goto d PcEnd.

(** One step of the downloader thread, of curl, or of an aborting caller. *)
Inductive dl_step : vw_model_download -> vw_model_download -> Prop :=
  | dl_aborts d : dl_step d (vw_model_download_abort d)
  | dl_begins d : dl_at d = PcStart -> dl_step d (download_begin d)
  | dl_loops d attempt :
      dl_at d = PcLoop attempt ->
      dl_step d (goto d (if (attempt <? 2) && negb (dl_abort_requested d) then PcFetch attempt else PcExit))
  | dl_fetches d attempt part :
      dl_at d = PcFetch attempt -> dl_step d (fetch_progress d part)
  | dl_fetch_ends d attempt part ok :
      dl_at d = PcFetch attempt -> dl_step d (goto (fetch_progress d part) (PcFetched attempt ok))
  | dl_after_fetch d attempt ok :
      dl_at d = PcFetched attempt ok ->
      dl_step d (goto d (if dl_abort_requested d then PcAborting else PcChecked attempt ok))
  | dl_checks d attempt ok :
      dl_at d = PcChecked attempt ok -> dl_step d (download_check d attempt ok)
  | dl_verifies d attempt uninit readable :
      dl_at d = PcVerify attempt -> zlen (sha_data uninit) = 64 ->
      dl_step d (download_verify d attempt uninit readable)
  | dl_publishes d renamed : dl_at d = PcPublish -> dl_step d (download_publish d renamed)
  | dl_aborting d : dl_at d = PcAborting -> dl_step d (set_stage d VW_MODEL_STAGE_ABORTING PcFinishAbort)
  | dl_finishes_abort d : dl_at d = PcFinishAbort -> dl_step d (vw_model_download_finish_abort d)
  | dl_exits d : dl_at d = PcExit -> dl_step d (download_exit d).
End download.

(** ** The invariant of a download *)

Lemma file_blocks_concat fuel content : concat (file_blocks fuel content) = content.
Proof.
  revert content. induction fuel as [|fuel IH]; intros [|c content]; try done; [simpl; by rewrite app_nil_r|].
  cbn [file_blocks concat]. rewrite IH. apply ztake_zdrop.
Qed.
Lemma vw_sha256_file_spec uninit content :
  zlen (sha_data uninit) = 64 -> vw_sha256_file uninit content = sha256_spec content.
Proof.
  intros Hu. unfold vw_sha256_file.
  transitivity (sha256_spec (concat (file_blocks (length content) content))); [|by rewrite file_blocks_concat].
  apply sha_inv_final. generalize (file_blocks (length content) content). intros bs.
  rewrite <- (app_nil_l (concat bs)). pose proof (sha_inv_init uninit Hu) as Hi. revert Hi.
  generalize (vw_sha256_init uninit) ([] : list Z). induction bs as [|b bs IH]; intros ctx m Hi; simpl; [by rewrite app_nil_r|].
  rewrite app_assoc. by apply IH, sha_inv_update.
Qed.

Section invariant.
Context (entry : vw_model_catalog_entry_t) (final0 : option (list Z)).

(** The content a download may publish. *)
Definition verified (content : list Z) : Prop :=
  zlen content <= ent_bytes entry
  /\ vw_hex_equal_ci (vw_sha256_to_hex (sha256_spec content)) (ent_sha256_hex entry) = true.

Definition busy (stage : Z) : Prop :=
  stage = VW_MODEL_STAGE_DOWNLOADING \/ stage = VW_MODEL_STAGE_VERIFYING \/ stage = VW_MODEL_STAGE_ABORTING.
Definition settled (stage : Z) : Prop :=
  stage = VW_MODEL_STAGE_IDLE \/ stage = VW_MODEL_STAGE_DONE \/ stage = VW_MODEL_STAGE_FAILED.

(** What holds at each point of the downloader thread. *)
Definition at_ok (d : vw_model_download) : Prop :=
  match dl_at d with
  | PcStart => dl_stage d = VW_MODEL_STAGE_IDLE
  | PcEnd => settled (dl_stage d)
  | PcVerify attempt => busy (dl_stage d) /\ (attempt = 0 \/ attempt = 1) /\ forall c, dl_part d = Some c -> zlen c <= ent_bytes entry
  | PcPublish => busy (dl_stage d) /\ exists c, dl_part d = Some c /\ verified c
  | PcExit | PcAborting => busy (dl_stage d) /\ dl_abort_requested d = true
  | PcLoop attempt | PcFetch attempt | PcFetched attempt _ | PcChecked attempt _ =>
      busy (dl_stage d) /\ (attempt = 0 \/ attempt = 1)
  | _ => busy (dl_stage d)
  end.

Record dl_inv (d : vw_model_download) : Prop := {
  dl_inv_at : at_ok d;
  dl_inv_done : dl_stage d = VW_MODEL_STAGE_DONE ->
                dl_abort_requested d = false /\ exists c, dl_final d = Some c /\ verified c;
  dl_inv_final : dl_stage d <> VW_MODEL_STAGE_DONE -> dl_final d = final0;
  dl_inv_aborting : dl_stage d = VW_MODEL_STAGE_ABORTING -> dl_abort_requested d = true
}.

Ltac stage_unfold :=
  unfold at_ok, busy, settled, VW_MODEL_STAGE_IDLE, VW_MODEL_STAGE_DOWNLOADING, VW_MODEL_STAGE_VERIFYING,
    VW_MODEL_STAGE_DONE, VW_MODEL_STAGE_FAILED, VW_MODEL_STAGE_ABORTING in *.
Ltac stage_cases :=
  stage_unfold; cbn in *; stage_unfold; cbn in *; intuition (try discriminate; try congruence; try lia).

Lemma at_ok_abort d : at_ok d -> at_ok (vw_model_download_abort d).
Proof.
  unfold vw_model_download_abort, at_ok. destruct (_ || _) eqn:E; [done|]. cbn [dl_at dl_stage dl_part dl_abort_requested].
  destruct (Z.eqb_spec (dl_stage d) VW_MODEL_STAGE_IDLE) as [Ei|Ei]; destruct (dl_at d); stage_cases.
Qed.
Lemma dl_inv_abort d : dl_inv d -> dl_inv (vw_model_download_abort d).
Proof.
  intros [H1 H2 H3 H4]. pose proof (at_ok_abort d H1). split; [done|..];
    unfold vw_model_download_abort in *; destruct (_ || _) eqn:E; auto; cbn [dl_stage dl_abort_requested dl_final];
    destruct (Z.eqb_spec (dl_stage d) VW_MODEL_STAGE_IDLE); stage_cases.
Qed.

Lemma retry_or_fail_inv d attempt clear :
  dl_inv d -> busy (dl_stage d) -> dl_inv (retry_or_fail d attempt clear).
Proof.
  intros [H1 H2 H3 H4] Hb. unfold retry_or_fail. destruct (Z.eqb_spec attempt 0); split; stage_cases.
Qed.

Lemma download_check_inv d attempt ok :
  dl_inv d -> dl_at d = PcChecked attempt ok -> dl_inv (download_check entry d attempt ok).
Proof.
  intros Hi Hat. pose proof Hi as [H1 H2 H3 H4]. unfold at_ok in H1. rewrite Hat in H1. destruct H1 as [Hb Ha].
  unfold download_check. destruct ok; simpl negb; cbv iota; [|by apply retry_or_fail_inv].
  destruct (Z.ltb_spec (ent_bytes entry) (match dl_part d with Some c => zlen c | None => 0 end)) as [Hs|Hs];
    (split; [| | |]); try (stage_cases; fail).
  unfold at_ok. cbn. split; [stage_cases|]. split; [done|]. intros c Hc. by rewrite Hc in Hs.
Qed.

Lemma download_verify_inv d attempt uninit readable :
  dl_inv d -> dl_at d = PcVerify attempt -> zlen (sha_data uninit) = 64 ->
  dl_inv (download_verify entry d attempt uninit readable).
Proof.
  intros Hi Hat Hu. pose proof Hi as [H1 H2 H3 H4]. unfold at_ok in H1. rewrite Hat in H1. destruct H1 as (Hb & _ & Hs).
  unfold download_verify. destruct (dl_part d) as [c|] eqn:Ep; [|by apply retry_or_fail_inv].
  destruct readable; simpl negb; cbv iota; [|by apply retry_or_fail_inv].
  rewrite vw_sha256_file_spec by done.
  destruct (vw_hex_equal_ci _ _) eqn:Eh; simpl negb; cbv iota; [|by apply retry_or_fail_inv].
  split; try done. unfold at_ok. cbn. split; [done|]. exists c. split; [done|]. split; [by apply Hs|done].
Qed.

Lemma download_publish_inv d renamed :
  dl_inv d -> dl_at d = PcPublish -> dl_inv (download_publish entry d renamed).
Proof.
  intros [H1 H2 H3 H4] Hat. unfold at_ok in H1. rewrite Hat in H1. destruct H1 as (Hb & c & Hp & Hv).
  unfold download_publish. destruct (dl_abort_requested d) eqn:Ea; [split; stage_cases|].
  destruct renamed; [|split; stage_cases]. split; [stage_cases| |stage_cases|stage_cases].
  intros _. cbn. split; [done|]. by exists c.
Qed.

Lemma dl_inv_goto d pc : dl_inv d -> at_ok (goto d pc) -> dl_inv (goto d pc).
Proof. intros [H1 H2 H3 H4] Hat. by split. Qed.

Lemma dl_inv_step d d' : dl_inv d -> dl_step entry d d' -> dl_inv d'.
Proof.
  intros Hi Hs. pose proof Hi as [H1 H2 H3 H4]. unfold at_ok in H1.
  destruct Hs as [d|d Hat|d a Hat|d a part Hat|d a part ok Hat|d a ok Hat|d a ok Hat|d a u r Hat Hu|d r Hat|d Hat|d Hat|d Hat];
    try rewrite Hat in H1.
  - by apply dl_inv_abort.
  - unfold download_begin. destruct (dl_abort_requested d) eqn:Ea; split; stage_cases.
  - apply dl_inv_goto; [done|]. unfold at_ok, goto, set_stage. cbn [dl_at dl_stage dl_abort_requested].
    destruct H1 as [Hb Ha]. destruct (Z.ltb_spec a 2), (dl_abort_requested d); simpl; try lia; stage_cases.
  - split; try done. unfold at_ok, fetch_progress. cbn [dl_at dl_stage]. by rewrite Hat.
  - split; stage_cases.
  - apply dl_inv_goto; [done|]. unfold at_ok, goto, set_stage. cbn [dl_at dl_stage].
    destruct (dl_abort_requested d) eqn:Ea; stage_cases.
  - by apply download_check_inv.
  - by apply download_verify_inv.
  - by apply download_publish_inv.
  - split; stage_cases.
  - split; stage_cases.
  - unfold download_exit. destruct H1 as [Hb ->]. split; stage_cases.
Qed.
End invariant.

Lemma dl_start_inv entry part final0 : dl_inv entry final0 (vw_model_download_start part final0).
Proof. by split. Qed.

Lemma dl_inv_reach entry final0 d d' :
  dl_inv entry final0 d -> rtc (dl_step entry) d d' -> dl_inv entry final0 d'.
Proof. intros Hi Hr. induction Hr; [done|]. by eapply IHHr, dl_inv_step. Qed.

Lemma abort_sticks entry d d' :
  dl_step entry d d' -> dl_abort_requested d = true -> dl_abort_requested d' = true.
Proof.
  intros Hs Ha. destruct Hs; unfold vw_model_download_abort, download_begin, download_check, download_verify,
    download_publish, download_exit, retry_or_fail, goto in *;
    repeat (case_match; simpl in *; try done); done.
Qed.

(** The distance of the downloader thread from its end. *)
Definition dl_rank (pc : dl_pc) : Z :=
  match pc with
  | PcStart => 18
  | PcLoop a => 10 + 7 * (1 - a)
  | PcFetch a => 9 + 7 * (1 - a)
  | PcFetched a _ => 8 + 7 * (1 - a)
  | PcChecked a _ => 7 + 7 * (1 - a)
  | PcVerify a => 6 + 7 * (1 - a)
  | PcPublish => 3
  | PcAborting => 2
  | PcFinishAbort => 1
  | PcExit => 1
  | PcEnd => 0
  end.

(** ** Properties *)

(** C35: Whatever curl delivers and however the threads interleave, a model file is
    replaced only by content within the catalog's size whose SHA-256 is the
    catalog's, and the stage DONE is shown only after that. *)
Theorem download_publish_verified entry part final0 d :
  rtc (dl_step entry) (vw_model_download_start part final0) d ->
  dl_stage d = VW_MODEL_STAGE_DONE \/ dl_final d <> final0 ->
  exists content, dl_final d = Some content /\ verified entry content.
Proof.
  intros Hr Hd. destruct (dl_inv_reach _ _ _ _ (dl_start_inv entry part final0) Hr) as [_ H2 H3 _].
  destruct (decide (dl_stage d = VW_MODEL_STAGE_DONE)) as [E|E].
  - by destruct (H2 E) as [_ ?].
  - destruct Hd; [done|]. by rewrite H3 in *.
Qed.

(** An accepted abort wins: from any reachable state in which the abort is
    recorded, the download never publishes afterwards, so the model file stays
    as it was and the stage never becomes DONE; and once the thread has ended
    its stage is a settled one. *)
Theorem download_abort_wins entry part final0 d d' :
  rtc (dl_step entry) (vw_model_download_start part final0) d ->
  dl_abort_requested d = true ->
  rtc (dl_step entry) d d' ->
  dl_final d' = final0 /\ dl_stage d' <> VW_MODEL_STAGE_DONE
  /\ (dl_at d' = PcEnd -> dl_stage d' = VW_MODEL_STAGE_IDLE \/ dl_stage d' = VW_MODEL_STAGE_FAILED).
Proof.
  intros Hr Ha Hr'.
  assert (dl_abort_requested d' = true) as Ha' by (induction Hr'; [done|]; apply IHHr'; [by eapply rtc_r|by eapply abort_sticks]).
  assert (rtc (dl_step entry) (vw_model_download_start part final0) d') as Hr'' by (by etrans).
  destruct (dl_inv_reach _ _ _ _ (dl_start_inv entry part final0) Hr'') as [H1 H2 H3 _].
  assert (dl_stage d' <> VW_MODEL_STAGE_DONE) as Hn.
  { intros E. apply H2 in E as [E _]. congruence. }
  split_and!; [by apply H3|done|]. intros E. unfold at_ok in H1. rewrite E in H1.
  destruct H1 as [?|[?|?]]; auto; done.
Qed.

(** The downloader thread ends: every step that moves it decreases its rank,
    at most 18 moves from its start, and until the end one can always be taken;
    in particular a model is fetched at most twice. *)
Theorem download_terminates entry part final0 d d' :
  rtc (dl_step entry) (vw_model_download_start part final0) d ->
  (dl_step entry d d' -> dl_at d' = dl_at d \/ 0 <= dl_rank (dl_at d') < dl_rank (dl_at d))
  /\ (dl_at d <> PcEnd -> exists d'', dl_step entry d d'' /\ dl_at d'' <> dl_at d).
Proof.
  intros Hr. destruct (dl_inv_reach _ _ _ _ (dl_start_inv entry part final0) Hr) as [H1 _ _ _]. unfold at_ok in H1.
  split.
  - intros Hs. destruct Hs as [d|d Hat|d a Hat|d a pt Hat|d a pt ok Hat|d a ok Hat|d a ok Hat|d a u r Hat Hu|d r Hat|d Hat|d Hat|d Hat];
      try rewrite Hat in H1 |- *;
      unfold vw_model_download_abort, download_begin, download_check, download_verify,
        download_publish, download_exit, retry_or_fail, goto in *; cbn [dl_at set_stage fetch_progress] in *.
    + by repeat case_match; left.
    + right. case_match; simpl; lia.
    + right. destruct H1 as [_ [-> | ->]]; case_match; simpl; lia.
    + left. done.
    + right. destruct H1 as [_ [-> | ->]]; simpl; lia.
    + right. destruct H1 as [_ [-> | ->]]; case_match; simpl; lia.
    + right. destruct H1 as [_ [-> | ->]]; repeat (case_match; simpl; try lia; try done).
    + right. destruct H1 as (_ & [-> | ->] & _); repeat (case_match; simpl; try lia; try done).
    + right. repeat (case_match; simpl; try lia).
    + right. simpl. lia.
    + right. simpl. lia.
    + right. repeat (case_match; simpl; try lia).
  - intros Hne. destruct (dl_at d) as [|a|a|a ok|a ok|a| | | | |] eqn:Hat; [..|done].
    + eexists. split; [by apply dl_begins|]. unfold download_begin. by case_match.
    + eexists. split; [by eapply dl_loops|]. simpl. by case_match.
    + eexists. split; [by apply (dl_fetch_ends entry d a None false)|done].
    + eexists. split; [by eapply dl_after_fetch|]. simpl. by case_match.
    + eexists. split; [by eapply dl_checks|]. unfold download_check, retry_or_fail.
      repeat (case_match; simpl; try done).
    + eexists. split; [by apply (dl_verifies entry d a sha_uninit true)|].
      unfold download_verify, retry_or_fail. repeat (case_match; simpl; try done).
    + eexists. split; [by apply (dl_publishes entry d true)|]. unfold download_publish. repeat (case_match; simpl; try done).
    + eexists. split; [by apply dl_aborting|done].
    + eexists. split; [by apply dl_finishes_abort|done].
    + eexists. split; [by apply dl_exits|]. unfold download_exit. repeat (case_match; simpl; try done).
Qed.

(** The catalog lookup finds exactly the entry of that identifier; identifiers
    and file names are unique, every URL is the file under the published base
    and every checksum is 64 lowercase hexadecimal digits, so it can match. *)
Theorem catalog_find_spec id :
  match vw_model_catalog_find (Some id) with
  | Some e => e ∈ kVWModelCatalogEntries /\ ent_id e = id
              /\ ent_url e = str "https://huggingface.co/ggerganov/whisper.cpp/resolve/main/" ++ ent_filename e
              /\ zlen (ent_sha256_hex e) = 64 /\ Forall (fun c => c ∈ kHex) (ent_sha256_hex e)
              /\ (forall e', e' ∈ kVWModelCatalogEntries ->
                    ent_id e' = id \/ ent_filename e' = ent_filename e -> e' = e)
  | None => forall e, e ∈ kVWModelCatalogEntries -> ent_id e <> id
  end.
Proof.
  unfold vw_model_catalog_find. destruct (List.find _ _) as [e|] eqn:E.
  - apply find_some in E as [Hin Hid%bool_decide_eq_true]. apply list_elem_of_In in Hin. split; [done|]. split; [done|].
    assert (Forall (fun e => ent_url e = str "https://huggingface.co/ggerganov/whisper.cpp/resolve/main/" ++ ent_filename e
        /\ zlen (ent_sha256_hex e) = 64 /\ Forall (fun c => c ∈ kHex) (ent_sha256_hex e)) kVWModelCatalogEntries) as Hall
      by vm_decide.
    assert (Forall (fun e => Forall (fun e' => ent_id e' = ent_id e \/ ent_filename e' = ent_filename e ->
        (ent_id e', ent_filename e', ent_url e', ent_sha256_hex e', ent_bytes e', ent_multilingual e')
        = (ent_id e, ent_filename e, ent_url e, ent_sha256_hex e, ent_bytes e, ent_multilingual e))
        kVWModelCatalogEntries) kVWModelCatalogEntries) as Huniq by vm_decide.
    rewrite list.Forall_forall in Hall, Huniq. destruct (Hall e Hin) as (? & ? & ?). split_and!; try done.
    intros e' Hin' Hor. pose proof (proj1 (list.Forall_forall _ _) (Huniq e Hin) e' Hin') as Hu. cbv beta in Hu.
    rewrite Hid in Hu. specialize (Hu Hor). destruct e, e'; simpl in *. congruence.
  - intros e Hin Hid. apply list_elem_of_In in Hin. pose proof (find_none _ _ E e Hin) as Hn. cbv beta in Hn.
    by apply bool_decide_eq_false in Hn.
Qed.

(** ** Further facts *)

Lemma pct_bounds done total : 0 <= vw_model_download_pct done total <= 100 \/ total < 0.
Proof.
  unfold vw_model_download_pct. destruct (Z.eqb_spec total 0); [lia|].
  destruct (Z.ltb_spec total 0); [lia|]. left.
  pose proof (mod_unsigned 64 (done * 100)) as [? _]; [lia|].
  pose proof (Z.div_pos (u64 (done * 100)) total). unfold u64 in *. case_match; lia.
Qed.
Lemma pct_exact done total :
  0 <= done <= total -> 0 < total -> total * 100 < 2 ^ 64 ->
  vw_model_download_pct done total = done * 100 / total.
Proof.
  intros. unfold vw_model_download_pct. destruct (Z.eqb_spec total 0); [lia|].
  rewrite u64_id by (unfold is_unsigned; lia).
  assert (done * 100 / total <= 100) by (apply Z.div_le_upper_bound; lia). case_match; lia.
Qed.
(** The product wraps: a huge count reports less than 100 although it is done. *)
Lemma pct_wraps : vw_model_download_pct (2 ^ 60) (2 ^ 60) = 4.
Proof. reflexivity. Qed.

(** A run of a download: one fetch, a matching file, the rename. *)
Definition abc_entry : vw_model_catalog_entry_t :=
  mk_entry (str "abc") (str "abc.bin") (str "https://host/abc.bin")
    (str "BA7816BF8F01CFEA414140DE5DAE2223B00361A396177A9CB410FF61F20015AD") 3 true.

Definition abc_start : vw_model_download := vw_model_download_start None (Some (str "old")).
Definition abc_fetched : vw_model_download :=
  goto (fetch_progress abc_entry (goto (download_begin abc_start) (PcFetch 0)) (Some (str "abc"))) (PcFetched 0 true).
Definition abc_done : vw_model_download :=
  download_publish abc_entry
    (download_verify abc_entry (download_check abc_entry (goto abc_fetched (PcChecked 0 true)) 0 true) 0 sha_uninit true) true.

Lemma abc_fetched_reach : rtc (dl_step abc_entry) abc_start abc_fetched.
Proof.
  eapply rtc_l; [by apply dl_begins|]. eapply rtc_l; [by apply (dl_loops abc_entry _ 0)|].
  apply rtc_once. by apply (dl_fetch_ends abc_entry _ 0 (Some (str "abc")) true).
Qed.
Lemma abc_done_reach : rtc (dl_step abc_entry) abc_start abc_done.
Proof.
  etrans; [apply abc_fetched_reach|].
  eapply rtc_l; [by apply (dl_after_fetch abc_entry _ 0 true)|].
  eapply rtc_l; [by apply (dl_checks abc_entry _ 0 true)|].
  eapply rtc_l; [by apply (dl_verifies abc_entry _ 0 sha_uninit true)|].
  apply rtc_once. apply (dl_publishes abc_entry _ true). vm_compute. reflexivity.
Qed.

Lemma download_publish_verified_witness :
  dl_final abc_done = Some (str "abc")
  /\ exists content, dl_final abc_done = Some content /\ verified abc_entry content.
Proof.
  split; [vm_compute; reflexivity|].
  apply (download_publish_verified abc_entry None (Some (str "old")) abc_done abc_done_reach).
  left. vm_compute. reflexivity.
Defined.

Lemma download_abort_wins_witness :
  dl_abort_requested (vw_model_download_abort abc_fetched) = true
  /\ dl_final (vw_model_download_abort abc_fetched) = Some (str "old")
  /\ dl_stage (vw_model_download_abort abc_fetched) <> VW_MODEL_STAGE_DONE
  /\ (dl_at (vw_model_download_abort abc_fetched) = PcEnd ->
      dl_stage (vw_model_download_abort abc_fetched) = VW_MODEL_STAGE_IDLE
      \/ dl_stage (vw_model_download_abort abc_fetched) = VW_MODEL_STAGE_FAILED).
Proof.
  split; [reflexivity|].
  apply (download_abort_wins abc_entry None (Some (str "old")) (vw_model_download_abort abc_fetched));
    [eapply rtc_r; [apply abc_fetched_reach|apply dl_aborts]|reflexivity|reflexivity].
Defined.

Lemma download_terminates_witness :
  (dl_step abc_entry abc_start (download_begin abc_start) ->
    dl_at (download_begin abc_start) = dl_at abc_start
    \/ 0 <= dl_rank (dl_at (download_begin abc_start)) < dl_rank (dl_at abc_start))
  /\ (dl_at abc_start <> PcEnd -> exists d'', dl_step abc_entry abc_start d'' /\ dl_at d'' <> dl_at abc_start).
Proof. apply (download_terminates abc_entry None (Some (str "old")) abc_start). reflexivity. Defined.
