(* ===== verification/ModelFetch.v ===== *)
(** * Fetching a model

    The parts of [src/worker/src/vw_model_download.c] below the state machine of
    [ModelDownload], in the Linux build: the curl child that fetches a model, the lock
    that keeps two workers off one destination, its directory, and the life of a download
    from [vw_model_download_start] to [vw_model_download_free]. *)

From S2P Require Import Prelude.
From S2P Require Import CString.
From S2P Require Import State.
From S2P Require Import ProtocolTypes.
From S2P Require Import ModelDownload.

Definition SIGTERM : Z := 15.
Definition SIGKILL : Z := 9.

(** ** What a download calls *)

Class DownloadEnv (X : Type) := {
  mkdir : X -> list Z -> X;
  (** [stat]: the size, and whether it is a directory; [None] when it fails. *)
  stat : X -> list Z -> option (Z * bool) * X;
  (** [open(path, O_CREAT | O_RDWR | O_CLOEXEC, 0600)] *)
  open_lock : X -> list Z -> option Z * X;
  (** [flock(fd, LOCK_EX | LOCK_NB)] and [flock(fd, LOCK_UN)]. *)
  flock : X -> Z -> bool * X;
  funlock : X -> Z -> X;
  close : X -> Z -> X;
  (** [fork]; the child is curl with these arguments, killed when the worker dies. *)
  fork_curl : X -> list (list Z) -> option Z * X;
  setpgid : X -> Z -> X;
  waitpid : X -> Z -> bool -> wait_answer * X;
  kill : X -> Z -> Z -> X;
  sleep_ms : X -> Z -> X;
  (** [atomic_load(&dl->abort_requested)], which another thread may have set. *)
  abort_requested : X -> bool * X;
  (** Whether memory, the mutex and the thread are to be had. *)
  calloc : X -> bool * X;
  mutex_init : X -> bool * X;
  pthread_create : X -> bool * X;
  (** [pthread_join]: returns once the thread of [vw_download_thread] has ended. *)
  pthread_join : X -> X
}.

(** ** The state *)

Inductive fetch_event :=
  | CurlStarted (pid : Z)
  | CurlSignaled (pid sig : Z)
  | CurlReaped (pid : Z) (status : exit_status)
  | CurlWaitFailed (pid : Z)
  | LockOpened (fd : Z)
  | LockTaken (fd : Z)
  | LockReleased (fd : Z)
  | LockClosed (fd : Z)
  | DirectoryMade (path : list Z)
  | FetchProgress (bytes_done pct : Z).

(** [child_pid] and [lock_fd] of [vw_model_download]: 0 and -1 are [None]. *)
Record downloader {X : Type} := mk_downloader {
  dw_child_pid : option Z;
  dw_lock_fd : option Z;
  dw_bytes_done : Z;
  dw_progress_pct : Z;
  dw_thread_started : bool;
  dw_log : list fetch_event;
  dw_stuck : bool;
  dw_ext : X
}.
Arguments downloader X : clear implicits.
Arguments mk_downloader {X}.

#[global] Instance settable_downloader {X} : Settable (downloader X) :=
  fun d => mk_downloader (dw_child_pid d) (dw_lock_fd d) (dw_bytes_done d) (dw_progress_pct d) (dw_thread_started d)
    (dw_log d) (dw_stuck d) (dw_ext d).
#[global] Instance set_dw_child_pid {X} : Setter (@dw_child_pid X) := ltac:(setter).
#[global] Instance set_dw_lock_fd {X} : Setter (@dw_lock_fd X) := ltac:(setter).
#[global] Instance set_dw_bytes_done {X} : Setter (@dw_bytes_done X) := ltac:(setter).
#[global] Instance set_dw_progress_pct {X} : Setter (@dw_progress_pct X) := ltac:(setter).
#[global] Instance set_dw_thread_started {X} : Setter (@dw_thread_started X) := ltac:(setter).
#[global] Instance set_dw_log {X} : Setter (@dw_log X) := ltac:(setter).
#[global] Instance set_dw_stuck {X} : Setter (@dw_stuck X) := ltac:(setter).
#[global] Instance set_dw_ext {X} : Setter (@dw_ext X) := ltac:(setter).

Section fetch.
Context {X : Type} `{!DownloadEnv X}.
#[local] Abbreviation F := (M (downloader X)).

Definition dx {A} (f : X -> A * X) : F A := fun d => let '(a, x) := f (dw_ext d) in (a, d <| dw_ext := x |>).
Definition dx_ (f : X -> X) : F unit := modify (fun d => d <| dw_ext := f (dw_ext d) |>).
Definition fetch_note (e : fetch_event) : F unit := modify (fun d => d <| dw_log := dw_log d ++ [e] |>).
Definition vw_sleep_ms (ms : Z) : F unit := dx_ (fun x => sleep_ms x ms).

(** ** Files *)

(** 0 for a file that is not there. *)
Definition vw_file_size (path : list Z) : F Z :=
  st ← dx (fun x => stat x path); mret (match st with Some (size, _) => size | None => 0 end).

Definition make_directory (path : list Z) : F unit := dx_ (fun x => mkdir x path) ;; fetch_note (DirectoryMade path).
(** The prefixes of [path] that end before a slash, the first character apart: [before]
    is what precedes the rest. *)
Fixpoint parents (before rest : list Z) : list (list Z) :=
  match rest with
  | [] => []
  | c :: rest => if (c =? 47) && (0 <? zlen before) then before :: parents (before ++ [c]) rest else parents (before ++ [c]) rest
  end.
Definition vw_mkdir_p (path : list Z) : F bool :=
  if (zlen path =? 0) || (path_max <=? zlen path) then mret false
  else
    for_each (parents [] path) make_directory ;;
    make_directory path ;;
    st ← dx (fun x => stat x path);
    mret (match st with Some (_, is_dir) => is_dir | None => false end).

(** ** The lock *)

Definition vw_model_download_acquire_lock (lock_path : list Z) : F bool :=
  if zlen lock_path =? 0 then mret false
  else
    fd ← dx (fun x => open_lock x lock_path);
    match fd with
    | None => mret false
    | Some fd =>
        fetch_note (LockOpened fd) ;;
        taken ← dx (fun x => flock x fd);
        if taken : bool then
          fetch_note (LockTaken fd) ;; modify (fun d => d <| dw_lock_fd := Some fd |>) ;; mret true
        else
          dx_ (fun x => close x fd) ;; fetch_note (LockClosed fd) ;; modify (fun d => d <| dw_lock_fd := None |>) ;; mret false
    end.
Definition vw_model_download_release_lock : F unit :=
  lock_fd ← gets dw_lock_fd;
  match lock_fd with
  | None => skip
  | Some fd =>
      dx_ (fun x => funlock x fd) ;; fetch_note (LockReleased fd) ;;
      dx_ (fun x => close x fd) ;; fetch_note (LockClosed fd) ;;
      modify (fun d => d <| dw_lock_fd := None |>)
  end.

(** ** Curl *)

Definition curl_download_argv (part_path url : list Z) : list (list Z) :=
  [str "curl"; str "-f"; str "-L"; str "-s"; str "-S"; str "--connect-timeout"; str "10"; str "--max-time"; str "1800";
   str "-o"; part_path; url].

(** A wait that blocks does not answer that the child runs. *)
Definition wait_curl (pid : Z) (block : bool) : F wait_answer :=
  r ← dx (fun x => waitpid x pid block);
  (match r with
   | WaitDone status => fetch_note (CurlReaped pid status)
   | WaitRunning => if block then fetch_note (CurlWaitFailed pid) else skip
   | WaitError _ => fetch_note (CurlWaitFailed pid)
   end) ;;
  mret r.
Definition signal_curl (pid sig : Z) : F unit := dx_ (fun x => kill x pid sig) ;; fetch_note (CurlSignaled pid sig).
Definition set_child (pid : option Z) : F unit := modify (fun d => d <| dw_child_pid := pid |>).

(** Ending a child that may still run, after an abort or at too many bytes. *)
Definition settle_child (pid : Z) : F unit :=
  r ← wait_curl pid false;
  match r with
  | WaitRunning =>
      signal_curl pid SIGTERM ;; vw_sleep_ms 100 ;;
      r ← wait_curl pid false;
      (match r with WaitRunning => signal_curl pid SIGKILL | _ => skip end) ;;
      _ ← wait_curl pid true;
      skip
  | _ => skip
  end.

(** The progress shown for a part file of [sz] bytes. *)
Definition show_progress (entry : vw_model_catalog_entry_t) (sz : Z) : F unit :=
  let pct := vw_model_download_pct sz (ent_bytes entry) in
  modify (fun d => d <| dw_bytes_done := sz |> <| dw_progress_pct := pct |>) ;; fetch_note (FetchProgress sz pct).

(** How a turn of the loop ends: with another, with [break] and whether the child exited
    well, or with [return false]. *)
Inductive curl_turn := CurlAgain | CurlBreak (exited_ok : bool) | CurlReturn.
Definition curl_step (entry : vw_model_catalog_entry_t) (part_path : list Z) (pid : Z) : F curl_turn :=
  aborted ← dx abort_requested;
  if aborted : bool then settle_child pid ;; set_child None ;; mret CurlReturn
  else
    r ← wait_curl pid false;
    match r with
    | WaitDone status => mret (CurlBreak (match status with Exited code => code =? 0 | Signaled _ => false end))
    | WaitError EINTR => mret CurlAgain
    | WaitError _ => mret (CurlBreak false)
    | WaitRunning =>
        sz ← vw_file_size part_path;
        if ent_bytes entry <? sz then settle_child pid ;; set_child None ;; mret CurlReturn
        else show_progress entry sz ;; vw_sleep_ms 500 ;; mret CurlAgain
    end.
(** What ends the loop; [None]: it ran out of fuel. *)
Fixpoint curl_loop (fuel : nat) (entry : vw_model_catalog_entry_t) (part_path : list Z) (pid : Z) : F (option curl_turn) :=
  match fuel with
  | O => modify (fun d => d <| dw_stuck := true |>) ;; mret None
  | S fuel =>
      turn ← curl_step entry part_path pid;
      match turn with CurlAgain => curl_loop fuel entry part_path pid | _ => mret (Some turn) end
  end.

(** After the loop. *)
Definition finish_fetch (entry : vw_model_catalog_entry_t) (part_path : list Z) (child_exited_ok : bool) : F bool :=
  set_child None ;;
  sz ← vw_file_size part_path;
  show_progress entry sz ;;
  aborted ← dx abort_requested;
  mret (if aborted : bool then false else child_exited_ok).

Definition vw_download_via_curl (fuel : nat) (entry : vw_model_catalog_entry_t) (part_path : list Z) : F bool :=
  pid ← dx (fun x => fork_curl x (curl_download_argv part_path (ent_url entry)));
  match pid with
  | None => mret false
  | Some pid =>
      fetch_note (CurlStarted pid) ;;
      dx_ (fun x => setpgid x pid) ;;
      set_child (Some pid) ;;
      turn ← curl_loop fuel entry part_path pid;
      match turn with
      | Some (CurlBreak child_exited_ok) => finish_fetch entry part_path child_exited_ok
      | _ => mret false
      end
  end.

(** ** The life of a download *)

Record download_handle := mk_handle {
  dh_entry : vw_model_catalog_entry_t;
  dh_part_path : list Z;
  dh_final_path : list Z;
  dh_lock_path : list Z
}.

(** The entry and [dest_dir] are not [NULL]. *)
Definition download_start (entry : vw_model_catalog_entry_t) (dest_dir : list Z) : F (option download_handle) :=
  if zlen dest_dir =? 0 then mret None
  else
    memory ← dx calloc;
    if negb memory then mret None
    else if path_max <=? zlen dest_dir then mret None
    else
      made ← vw_mkdir_p dest_dir;
      if negb made then mret None
      else match download_paths dest_dir (ent_filename entry) with
      | None => mret None
      | Some (part_path, final_path, lock_path) =>
          modify (fun d => d <| dw_child_pid := None |> <| dw_lock_fd := None |>) ;;
          mutex ← dx mutex_init;
          if negb mutex then mret None
          else
            locked ← vw_model_download_acquire_lock lock_path;
            if negb locked then mret None
            else
              modify (fun d => d <| dw_bytes_done := 0 |> <| dw_progress_pct := 0 |>) ;;
              created ← dx pthread_create;
              if negb created then vw_model_download_release_lock ;; mret None
              else
                modify (fun d => d <| dw_thread_started := true |>) ;;
                mret (Some (mk_handle entry part_path final_path lock_path))
      end.

(** The abort itself is [vw_model_download_abort] of [ModelDownload]. *)
Definition vw_model_download_free : F unit :=
  started ← gets dw_thread_started;
  when started (dx_ pthread_join ;; modify (fun d => d <| dw_thread_started := false |>)) ;;
  set_child None ;;
  vw_model_download_release_lock.

Definition new_downloader (x : X) : downloader X := mk_downloader None None 0 0 false [] false x.
End fetch.
