(* ===== verification/ModelFetchProperties.v ===== *)
(** * Fetching leaves no child and no second download

    The curl child of [ModelFetch] is settled when a fetch returns, so that nothing writes
    a part file that is verified; and the lock keeps downloads of one destination apart. *)

From stdpp Require Import relations.
From S2P Require Import Prelude.
From S2P Require Import CString.
From S2P Require Import State.
From S2P Require Import ProtocolTypes.
From S2P Require Import ModelDownload.
From S2P Require Import ModelFetch.
#[local] Open Scope Z_scope.

(** ** The child *)

(** [CurlLost]: the last wait for it failed, so it may or may not be there. *)
Inductive curl_state :=
  | NoCurl
  | CurlLive (pid : Z)
  | CurlGone (pid : Z) (status : exit_status)
  | CurlLost (pid : Z).
(** What an event makes of the child; [None] for one that has no business there: a second
    child, a signal for a child that has been reaped. *)
Definition curl_after (c : curl_state) (e : fetch_event) : option curl_state :=
  match e with
  | CurlStarted pid => match c with NoCurl => Some (CurlLive pid) | _ => None end
  | CurlSignaled pid _ =>
      match c with CurlLive p | CurlLost p => if decide (p = pid) then Some c else None | _ => None end
  | CurlReaped pid status =>
      match c with
      | CurlLive p | CurlLost p => if decide (p = pid) then Some (CurlGone pid status) else None
      | CurlGone p _ => if decide (p = pid) then Some c else None
      | NoCurl => None
      end
  | CurlWaitFailed pid =>
      match c with
      | CurlLive p | CurlLost p => if decide (p = pid) then Some (CurlLost pid) else None
      | CurlGone p _ => if decide (p = pid) then Some c else None
      | NoCurl => None
      end
  | _ => Some c
  end.
Definition curl_of (log : list fetch_event) : option curl_state :=
  fold_left (fun c e => c ← c; curl_after c e) log (Some NoCurl).
Lemma curl_of_snoc log e : curl_of (log ++ [e]) = (c ← curl_of log; curl_after c e).
Proof. apply fold_left_app. Qed.

Section child.
Context {X : Type} `{!DownloadEnv X}.
#[local] Abbreviation F := (M (downloader X)).

(** The child is in one of the states [P]. *)
Definition curl_is (P : curl_state -> Prop) (d : downloader X) : Prop := exists c, curl_of (dw_log d) = Some c /\ P c.
Definition unreaped (pid : Z) (c : curl_state) : Prop := c = CurlLive pid \/ c = CurlLost pid.
Definition ended (pid : Z) (c : curl_state) : Prop := (exists status, c = CurlGone pid status) \/ c = CurlLost pid.
Definition known (pid : Z) (c : curl_state) : Prop := unreaped pid c \/ ended pid c.

Lemma curl_note e (P : curl_state -> Prop) (Q : curl_state -> Prop) :
  (forall c, P c -> exists c', curl_after c e = Some c' /\ Q c') ->
  triple (curl_is P) (fetch_note (X := X) e) (fun _ => curl_is Q).
Proof.
  intros He d (c & Hc & Hp). destruct (He c Hp) as (c' & Ha & Hq). exists c'. split; [|done].
  change (curl_of (dw_log d ++ [e]) = Some c'). by rewrite curl_of_snoc, Hc.
Qed.
(** Calls that do nothing to the child. *)
Definition same_curl (d d' : downloader X) : Prop := curl_of (dw_log d') = curl_of (dw_log d).
#[local] Instance same_curl_preorder : PreOrder same_curl.
Proof. split; [done|]. intros d1 d2 d3 A B. unfold same_curl in *. congruence. Qed.
Lemma same_curl_is {A} P (m : F A) : keeps same_curl m -> triple (curl_is P) m (fun _ => curl_is P).
Proof. intros Hm d (c & Hc & Hp). exists c. by rewrite (Hm d). Qed.
Lemma same_curl_dx {A} (f : X -> A * X) : keeps same_curl (dx f).
Proof. intros d. unfold dx. by destruct (f (dw_ext d)). Qed.
Lemma same_curl_dx_ (f : X -> X) : keeps same_curl (dx_ f).
Proof. by intros d. Qed.
Lemma same_curl_child pid : keeps same_curl (set_child (X := X) pid).
Proof. by intros d. Qed.
Lemma same_curl_progress entry sz : keeps same_curl (show_progress (X := X) entry sz).
Proof.
  intros d. unfold show_progress. cbv zeta. rewrite bind_run. set (pct := vw_model_download_pct _ _).
  change (curl_of (dw_log d ++ [FetchProgress sz pct]) = curl_of (dw_log d)). rewrite curl_of_snoc. by destruct (curl_of _).
Qed.
#[local] Hint Resolve same_curl_dx same_curl_dx_ same_curl_child same_curl_progress : keeps.
Lemma same_curl_size path : keeps same_curl (vw_file_size (X := X) path).
Proof. unfold vw_file_size. keeps_steps. Qed.
Lemma same_curl_sleep ms : keeps same_curl (vw_sleep_ms (X := X) ms).
Proof. unfold vw_sleep_ms. keeps_steps. Qed.
#[local] Hint Resolve same_curl_size same_curl_sleep : keeps.

(** What a wait tells of a child that was not reaped before. *)
Definition wait_tells (pid : Z) (block : bool) (r : wait_answer) (c : curl_state) : Prop :=
  match r with
  | WaitDone status => c = CurlGone pid status
  | WaitRunning => if block then c = CurlLost pid else unreaped pid c
  | WaitError _ => c = CurlLost pid
  end.
Lemma wait_curl_tells pid block :
  triple (curl_is (unreaped pid)) (wait_curl (X := X) pid block) (fun r => curl_is (wait_tells pid block r)).
Proof.
  unfold wait_curl. eapply triple_bind; [apply same_curl_is; auto with keeps|]. cbv beta. intros r.
  apply (triple_bind _ _ _ (fun _ => curl_is (wait_tells pid block r))); [|by intros ? d].
  assert (triple (curl_is (unreaped pid)) (fetch_note (X := X) (CurlWaitFailed pid)) (fun _ => curl_is (fun c => c = CurlLost pid))) as Hfail
    by (apply curl_note; intros c [-> | ->]; cbn; rewrite decide_True by done; eauto).
  destruct r as [status| |e]; [|destruct block; [exact Hfail|by intros d]|exact Hfail].
  apply curl_note. intros c [-> | ->]; cbn; rewrite decide_True by done; eauto.
Qed.
(** A child that was reaped stays so when it is waited for again. *)
Lemma wait_curl_known pid :
  triple (curl_is (known pid)) (wait_curl (X := X) pid true) (fun _ => curl_is (ended pid)).
Proof.
  unfold wait_curl. eapply triple_bind; [apply same_curl_is; auto with keeps|]. cbv beta. intros r.
  apply (triple_bind _ _ _ (fun _ => curl_is (ended pid))); [|by intros ? d].
  destruct r as [status| |e]; apply curl_note; intros c [[-> | ->]|[(status' & ->)| ->]]; cbn; rewrite decide_True by done;
    eexists; (split; [done|]); first [by right|left; by eauto].
Qed.
Lemma triple_drop {A B} (P : downloader X -> Prop) (m : F A) (f : F B) Q1 Q2 :
  triple P m (fun _ => Q1) -> triple Q1 f Q2 -> triple P (m ;; f) Q2.
Proof. intros Hm Hf. by eapply triple_bind; [exact Hm|intros ?]. Qed.
Lemma curl_weaken {A} (P P' Q : curl_state -> Prop) (m : F A) : (forall c, P c -> P' c) ->
  triple (curl_is P') m (fun _ => curl_is Q) -> triple (curl_is P) m (fun _ => curl_is Q).
Proof. intros Hp Hm d (c & Hc & Hq). apply Hm. exists c. by auto. Qed.
Lemma curl_stay {A} (P Q : curl_state -> Prop) (a : A) : (forall c, P c -> Q c) ->
  triple (curl_is P) (mret (M := M (downloader X)) a) (fun _ => curl_is Q).
Proof. intros Hp d (c & Hc & Hq). exists c. by auto. Qed.

Lemma signal_curl_unreaped pid sig :
  triple (curl_is (unreaped pid)) (signal_curl (X := X) pid sig) (fun _ => curl_is (unreaped pid)).
Proof.
  unfold signal_curl. eapply triple_drop; [apply same_curl_is; auto with keeps|]. apply curl_note.
  intros c [-> | ->]; cbn; rewrite decide_True by done; eexists; (split; [done|]); [by left|by right].
Qed.
(** Ending a child ends it, unless a wait fails. *)
Lemma settle_child_ended pid :
  triple (curl_is (unreaped pid)) (settle_child (X := X) pid) (fun _ => curl_is (ended pid)).
Proof.
  unfold settle_child. eapply triple_bind; [apply wait_curl_tells|]. cbv beta.
  intros [status| |e]; [apply curl_stay; intros c ->; left; eauto| |apply curl_stay; by right].
  eapply triple_drop; [apply signal_curl_unreaped|]. eapply triple_drop; [apply same_curl_is; auto with keeps|].
  eapply triple_bind; [apply wait_curl_tells|]. cbv beta. intros r. apply (triple_drop _ _ _ (curl_is (known pid))).
  - destruct r as [status| |e]; [apply curl_stay; intros c ->; right; left; eauto| |apply curl_stay; intros c ->; by right; right].
    eapply triple_weaken; [apply signal_curl_unreaped|done|]. intros _ d (c & Hc & Hu). exists c. split; [done|by left].
  - eapply triple_bind; [apply wait_curl_known|]. cbv beta. intros ?. by apply curl_stay.
Qed.

(** How a turn leaves the child. *)
Definition turn_leaves (pid : Z) (turn : curl_turn) (c : curl_state) : Prop :=
  match turn with
  | CurlAgain => unreaped pid c
  | CurlBreak true => c = CurlGone pid (Exited 0)
  | CurlBreak false | CurlReturn => ended pid c
  end.
Lemma turn_ended pid (turn : curl_turn) : turn <> CurlAgain -> forall c, turn_leaves pid turn c -> ended pid c.
Proof. intros Ht c. destruct turn as [|[]|]; cbn; try done. intros ->. left. eauto. Qed.
Lemma curl_step_leaves entry part_path pid :
  triple (curl_is (unreaped pid)) (curl_step (X := X) entry part_path pid) (fun turn => curl_is (turn_leaves pid turn)).
Proof.
  assert (triple (curl_is (unreaped pid)) (settle_child pid ;; set_child None ;; mret CurlReturn)
    (fun turn => curl_is (turn_leaves pid turn))) as Hsettle.
  { eapply triple_drop; [apply settle_child_ended|]. eapply triple_drop; [apply same_curl_is; auto with keeps|]. by intros d. }
  unfold curl_step. eapply triple_bind; [apply same_curl_is; auto with keeps|]. cbv beta. intros []; [exact Hsettle|].
  eapply triple_bind; [apply wait_curl_tells|]. cbv beta. intros [status| |[]].
  - intros d (c & Hc & Ht). exists c. split; [done|]. cbn in *. subst c. destruct status as [code|sig]; [|left; eauto].
    destruct (Z.eqb_spec code 0) as [->|]; [done|left; eauto].
  - eapply triple_bind; [apply same_curl_is; auto with keeps|]. cbv beta. intros sz. apply triple_if; intros _; [exact Hsettle|].
    eapply triple_drop; [apply same_curl_is; auto with keeps|]. eapply triple_drop; [apply same_curl_is; auto with keeps|].
    by intros d.
  - intros d (c & Hc & ->). exists (CurlLost pid). split; [done|]. by right.
  - intros d (c & Hc & ->). exists (CurlLost pid). split; [done|]. by right.
  - intros d (c & Hc & ->). exists (CurlLost pid). split; [done|]. by right.
Qed.
Lemma curl_loop_leaves entry part_path pid fuel :
  triple (curl_is (unreaped pid)) (curl_loop (X := X) fuel entry part_path pid)
    (fun turn d => match turn with
       | Some turn => turn <> CurlAgain /\ curl_is (turn_leaves pid turn) d
       | None => curl_is (unreaped pid) d /\ dw_stuck d = true
       end).
Proof.
  induction fuel as [|fuel IH]; cbn [curl_loop]; [by intros d|].
  eapply triple_bind; [apply curl_step_leaves|]. cbv beta. intros [| |]; [exact IH|by intros d..].
Qed.

(** What is left of the child when a fetch has returned. *)
Definition settled_child (ok : bool) (c : curl_state) : Prop :=
  match c with
  | NoCurl => ok = false
  | CurlLive _ => False
  | CurlGone _ status => ok = true -> status = Exited 0
  | CurlLost _ => ok = false
  end.
Lemma ended_settled pid c : ended pid c -> settled_child false c.
Proof. by intros [[status ->]| ->]. Qed.
(** A wait can only have failed if one did. *)
Lemma lost_wait log pid : curl_of log = Some (CurlLost pid) -> CurlWaitFailed pid ∈ log.
Proof.
  induction log as [|e log IH] using rev_ind; [done|]. rewrite curl_of_snoc.
  destruct (curl_of log) as [c|]; [|done]. cbn [mbind option_bind]. intros He. apply elem_of_app.
  destruct e; cbn in He; try (injection He as ->; left; by apply IH); destruct c; try done; case_decide; try done;
    injection He as ->; subst; first [left; by apply IH|right; by left].
Qed.

Lemma finish_fetch_settled entry part_path pid ok :
  triple (curl_is (turn_leaves pid (CurlBreak ok))) (finish_fetch (X := X) entry part_path ok) (fun ok => curl_is (settled_child ok)).
Proof.
  unfold finish_fetch. eapply triple_drop; [apply same_curl_is; auto with keeps|].
  eapply triple_bind; [apply same_curl_is; auto with keeps|]. cbv beta. intros sz.
  eapply triple_drop; [apply same_curl_is; auto with keeps|]. eapply triple_bind; [apply same_curl_is; auto with keeps|].
  cbv beta. intros aborted d (c & Hc & Hl). exists c. split; [exact Hc|].
  destruct aborted; [eapply ended_settled, (turn_ended pid (CurlBreak ok)); done|].
  destruct ok; [by cbn in Hl; subst c|by eapply ended_settled].
Qed.

(** A fetch leaves no child behind, whatever curl and the system do and whenever an
    abort comes: its child is started once, signalled only until it is reaped, and reaped
    when the fetch returns, unless a wait failed; and if the fetch succeeds, curl has
    exited with 0 and been reaped, so that nothing writes the part file that is then
    verified. *)
Theorem fetch_settles_child (fuel : nat) (entry : vw_model_catalog_entry_t) (part_path : list Z) (x : X) :
  let r := vw_download_via_curl fuel entry part_path (new_downloader x) in
  dw_stuck (snd r) = false ->
  exists c, curl_of (dw_log (snd r)) = Some c /\ settled_child (fst r) c
    /\ ((forall pid, CurlWaitFailed pid ∉ dw_log (snd r)) -> c = NoCurl \/ exists pid status, c = CurlGone pid status).
Proof.
  assert (triple (curl_is (fun c => c = NoCurl)) (vw_download_via_curl (X := X) fuel entry part_path)
    (fun ok d => dw_stuck d = false -> curl_is (settled_child ok) d)) as Hm.
  { unfold vw_download_via_curl. eapply triple_bind; [apply same_curl_is; auto with keeps|]. cbv beta. intros [pid|];
      [|intros d (c & Hc & ->) _; by exists NoCurl].
    eapply triple_drop; [apply (curl_note (CurlStarted pid) _ (unreaped pid)); intros c ->; eexists; split; [done|by left]|].
    eapply triple_drop; [apply same_curl_is; auto with keeps|]. eapply triple_drop; [apply same_curl_is; auto with keeps|].
    eapply triple_bind; [apply curl_loop_leaves|]. cbv beta. intros [turn|]; [|intros d [_ Hk] Hk'; change (dw_stuck d = false) in Hk'; congruence].
    intros d [Ht Hd]. destruct turn as [|ok|]; [done|intros _; by apply (finish_fetch_settled entry part_path pid)|].
    destruct Hd as (c & Hc & He). intros _. exists c. split; [done|by eapply ended_settled]. }
  cbv zeta. intros Hk. destruct (Hm (new_downloader x) ltac:(by exists NoCurl) Hk) as (c & Hc & Hs). exists c. split_and!; [done|done|]. intros Hw.
  destruct c as [|pid|pid status|pid]; [by left|done|right; eauto|]. destruct (Hw pid). by apply lost_wait.
Qed.
End child.

(** ** A scripted fetch *)

(** What the waits, the sizes of the part file and the abort flag answer in turn. *)
Record fetch_script := mk_fetch_script { fs_waits : list wait_answer; fs_sizes : list Z; fs_aborts : list bool }.
#[global] Instance fetch_script_env : DownloadEnv fetch_script := {|
  mkdir := fun x _ => x;
  stat := fun x _ => ((fun size => (size, true)) <$> head (fs_sizes x), mk_fetch_script (fs_waits x) (tail (fs_sizes x)) (fs_aborts x));
  open_lock := fun x _ => (Some 3, x);
  flock := fun x _ => (true, x);
  funlock := fun x _ => x;
  close := fun x _ => x;
  fork_curl := fun x _ => (Some 77, x);
  setpgid := fun x _ => x;
  waitpid := fun x _ _ => (default (WaitError OtherError) (head (fs_waits x)), mk_fetch_script (tail (fs_waits x)) (fs_sizes x) (fs_aborts x));
  kill := fun x _ _ => x;
  sleep_ms := fun x _ => x;
  abort_requested := fun x => (default false (head (fs_aborts x)), mk_fetch_script (fs_waits x) (fs_sizes x) (tail (fs_aborts x)));
  calloc := fun x => (true, x);
  mutex_init := fun x => (true, x);
  pthread_create := fun x => (true, x);
  pthread_join := fun x => x
|}.
#[local] Abbreviation fetched x := (vw_download_via_curl 5 abc_entry (str "/m/abc.bin.part") (new_downloader x)).
Definition fetch_of_three : fetch_script := mk_fetch_script [WaitRunning; WaitDone (Exited 0)] [2; 3] [].

(** A child that ends on [SIGTERM] is waited for once more after it was reaped, by a number
    that may by then be another child's. *)
Example reaped_child_waited_for :
  dw_log (snd (fetched (mk_fetch_script [WaitRunning; WaitDone (Signaled SIGTERM)] [] [true]))) =
    [CurlStarted 77; CurlSignaled 77 SIGTERM; CurlReaped 77 (Signaled SIGTERM); CurlWaitFailed 77].
Proof. reflexivity. Qed.

Lemma fetch_of_three_ends : dw_stuck (snd (fetched fetch_of_three)) = false.
Proof. vm_compute. reflexivity. Qed.
Lemma fetch_settles_child_witness :
  fst (fetched fetch_of_three) = true /\
  exists c, curl_of (dw_log (snd (fetched fetch_of_three))) = Some c /\ settled_child (fst (fetched fetch_of_three)) c
    /\ ((forall pid, CurlWaitFailed pid ∉ dw_log (snd (fetched fetch_of_three))) -> c = NoCurl \/ exists pid status, c = CurlGone pid status).
Proof.
  split; [vm_compute; reflexivity|].
  exact (fetch_settles_child 5 abc_entry (str "/m/abc.bin.part") fetch_of_three fetch_of_three_ends).
Defined.
