(* ===== verification/ModelFetchLock.v ===== *)
(** * One download of a destination at a time

    Several workers start and free downloads on one file system, whose [flock] gives a
    file to one descriptor at a time: no two downloads that live have the same
    destination. *)

From stdpp Require Import relations.
From S2P Require Import Prelude.
From S2P Require Import CString.
From S2P Require Import State.
From S2P Require Import ProtocolTypes.
From S2P Require Import ModelDownload.
From S2P Require Import ModelFetch.
From S2P Require Import ModelFetchProperties.
#[local] Open Scope Z_scope.

(** ** The file locks of a system *)

(** The open descriptors with their files, those that hold their file's lock, and the next
    descriptor. *)
Record lock_table := mk_table { lt_files : list (Z * list Z); lt_held : list (Z * list Z); lt_next : Z }.
Definition others (fd : Z) (l : list (Z * list Z)) : list (Z * list Z) := filter (fun p => fst p <> fd) l.
Definition table_open (t : lock_table) (path : list Z) : lock_table :=
  mk_table ((lt_next t, path) :: lt_files t) (lt_held t) (lt_next t + 1).
Definition table_flock (t : lock_table) (fd : Z) : bool * lock_table :=
  match List.find (fun p => fst p =? fd) (lt_files t) with
  | None => (false, t)
  | Some (_, path) =>
      if bool_decide (path ∈ snd <$> lt_held t) then (false, t) else (true, mk_table (lt_files t) ((fd, path) :: lt_held t) (lt_next t))
  end.
Definition table_funlock (t : lock_table) (fd : Z) : lock_table := mk_table (lt_files t) (others fd (lt_held t)) (lt_next t).
(** Closing a descriptor gives its lock up, too. *)
Definition table_close (t : lock_table) (fd : Z) : lock_table :=
  mk_table (others fd (lt_files t)) (others fd (lt_held t)) (lt_next t).

(** A system with these locks; all else is as [X] has it. *)
Section locks.
Context {X : Type} `{!DownloadEnv X}.

Definition outside {A} (f : X -> A * X) (tx : lock_table * X) : A * (lock_table * X) :=
  let '(a, x) := f (snd tx) in (a, (fst tx, x)).
Definition outside_ (f : X -> X) (tx : lock_table * X) : lock_table * X := (fst tx, f (snd tx)).
#[global] Instance locks_env : DownloadEnv (lock_table * X) := {|
  mkdir tx path := outside_ (fun x => mkdir x path) tx;
  stat tx path := outside (fun x => stat x path) tx;
  open_lock tx path :=
    let '(fd, x) := open_lock (snd tx) path in
    match fd with
    | None => (None, (fst tx, x))
    | Some _ => (Some (lt_next (fst tx)), (table_open (fst tx) path, x))
    end;
  flock tx fd :=
    let '(ok, x) := flock (snd tx) fd in
    if ok : bool then let '(taken, t) := table_flock (fst tx) fd in (taken, (t, x)) else (false, (fst tx, x));
  funlock tx fd := (table_funlock (fst tx) fd, funlock (snd tx) fd);
  close tx fd := (table_close (fst tx) fd, close (snd tx) fd);
  fork_curl tx argv := outside (fun x => fork_curl x argv) tx;
  setpgid tx pid := outside_ (fun x => setpgid x pid) tx;
  waitpid tx pid block := outside (fun x => waitpid x pid block) tx;
  kill tx pid sig := outside_ (fun x => kill x pid sig) tx;
  sleep_ms tx ms := outside_ (fun x => sleep_ms x ms) tx;
  abort_requested := outside abort_requested;
  calloc := outside calloc;
  mutex_init := outside mutex_init;
  pthread_create := outside pthread_create;
  pthread_join := outside_ pthread_join
|}.
#[local] Abbreviation F := (M (downloader (lock_table * X))).

Definition table (d : downloader (lock_table * X)) : lock_table := fst (dw_ext d).
(** The lock's descriptor and what locks are held. *)
Definition locks_are (fd : option Z) (l : list (Z * list Z)) (next : Z) (d : downloader (lock_table * X)) : Prop :=
  dw_lock_fd d = fd /\ lt_held (table d) = l /\ next <= lt_next (table d).

(** Calls that leave the locks alone. *)
Definition same_locks (d d' : downloader (lock_table * X)) : Prop := table d' = table d /\ dw_lock_fd d' = dw_lock_fd d.
#[local] Instance same_locks_preorder : PreOrder same_locks.
Proof. split; [by split|]. intros d1 d2 d3 [A B] [C D]. split; congruence. Qed.
Lemma same_locks_are {A} fd l next (m : F A) : keeps same_locks m -> triple (locks_are fd l next) m (fun _ => locks_are fd l next).
Proof. intros Hm d Hd. destruct (Hm d) as [Ht Hf]. unfold locks_are. by rewrite Ht, Hf. Qed.
Lemma same_locks_dx {A} (f : X -> A * X) : keeps same_locks (dx (outside f)).
Proof. intros [pid fd b p th log st [t x]]. unfold dx, outside. cbn. by destruct (f x). Qed.
Lemma same_locks_dx_ (f : X -> X) : keeps same_locks (dx_ (outside_ f)).
Proof. by intros [pid fd b p th log st [t x]]. Qed.
Lemma same_locks_note e : keeps same_locks (fetch_note (X := lock_table * X) e).
Proof. by intros d. Qed.
#[local] Hint Extern 1 (keeps same_locks (dx _)) => apply same_locks_dx : keeps.
#[local] Hint Extern 1 (keeps same_locks (dx_ _)) => apply same_locks_dx_ : keeps.
#[local] Hint Resolve same_locks_note : keeps.
Lemma same_locks_mkdir path : keeps same_locks (vw_mkdir_p (X := lock_table * X) path).
Proof. unfold vw_mkdir_p, make_directory. keeps_steps. Qed.
#[local] Hint Resolve same_locks_mkdir : keeps.

(** ** Taking and giving up the lock *)

Lemma others_absent fd l : fd ∉ fst <$> l -> others fd l = l.
Proof.
  induction l as [|[f path] l IH]; [done|]. cbn [fmap list_fmap fst]. intros [Hn Hl]%not_elem_of_cons.
  unfold others. rewrite filter_cons_True by (cbn; congruence). f_equal. by apply IH.
Qed.
Lemma others_fresh fd l : Forall (fun p => fst p < fd) l -> others fd l = l.
Proof.
  intros Hl. apply others_absent. intros (p & Hp & Hin)%list_elem_of_fmap. rewrite list.Forall_forall in Hl.
  apply Hl in Hin. lia.
Qed.
Lemma others_cons fd path l : others fd ((fd, path) :: l) = others fd l.
Proof. unfold others. rewrite filter_cons_False; [done|]. by intros []. Qed.
Lemma others_twice fd l : others fd (others fd l) = others fd l.
Proof. by apply list_filter_filter_r. Qed.

Definition below (next : Z) (l : list (Z * list Z)) : Prop := Forall (fun p => fst p < next) l.
Lemma below_le next next' l : next <= next' -> below next l -> below next' l.
Proof. intros Hn Hl. eapply Forall_impl; [|exact Hl]. intros p. cbn. lia. Qed.

(** Whether the lock was taken: with it, the descriptor holds the file, which no other held. *)
Definition taken (path : list Z) (l : list (Z * list Z)) (next : Z) (ok : bool) (d : downloader (lock_table * X)) : Prop :=
  if ok then exists fd, next <= fd /\ (path ∉ snd <$> l) /\ locks_are (Some fd) ((fd, path) :: l) (fd + 1) d
  else locks_are None l next d.
(** The lock's file is open. *)
Definition opened (fd : Z) (path : list Z) (l : list (Z * list Z)) (next : Z) (d : downloader (lock_table * X)) : Prop :=
  next <= fd /\ locks_are None l (fd + 1) d /\ List.find (fun p => fst p =? fd) (lt_files (table d)) = Some (fd, path).
Lemma open_opened_lock path l next :
  triple (locks_are None l next) (dx (fun tx : lock_table * X => open_lock tx path))
    (fun fd => match fd with Some fd => opened fd path l next | None => locks_are None l next end).
Proof.
  intros [pid lock b p th log st [[files held n] x]] (Hf & Hh & Hn). cbn in Hf, Hh, Hn. subst lock held. unfold dx. cbn.
  destruct (open_lock x path) as [[fd|] x1]; cbn; [|by split]. split_and!; [done|by split_and!|]. cbn. by rewrite Z.eqb_refl.
Qed.
Lemma flock_locks fd path l next :
  triple (opened fd path l next) (dx (fun tx : lock_table * X => flock tx fd))
    (fun ok d => if ok : bool then (path ∉ snd <$> l) /\ next <= fd /\ locks_are None ((fd, path) :: l) (fd + 1) d
                 else opened fd path l next d).
Proof.
  intros [pid lock b p th log st [[files held n] x]] (Hfd & (Hf & Hh & Hn) & Hfile). cbn in Hf, Hh, Hn, Hfile. subst lock held.
  unfold dx. cbn -[table_flock]. destruct (flock x fd) as [[] x1]; cbn -[table_flock]; [|by split_and!].
  unfold table_flock. cbn. rewrite Hfile. case_bool_decide as Hp; cbn; by split_and!.
Qed.
Lemma close_locks fd path l next : below next l ->
  triple (opened fd path l next) (dx_ (fun tx : lock_table * X => close tx fd)) (fun _ => locks_are None l next).
Proof.
  intros Hl [pid lock b p th log st [[files held n] x]] (Hfd & (Hf & Hh & Hn) & _). cbn in Hf, Hh, Hn. subst lock held.
  split_and!; [done|cbn; by apply others_fresh, (below_le next)|cbn; lia].
Qed.
Lemma acquire_taken path l next : below next l ->
  triple (locks_are None l next) (vw_model_download_acquire_lock path) (fun ok => taken path l next ok).
Proof.
  intros Hl. unfold vw_model_download_acquire_lock. apply triple_if; intros _; [by intros d|].
  eapply triple_bind; [apply open_opened_lock|]. cbv beta. intros [fd|]; [|by intros d].
  apply (triple_drop _ _ _ (opened fd path l next)); [by intros d|].
  eapply triple_bind; [apply flock_locks|]. cbv beta. intros [].
  - intros d (Hp & Hfd & (_ & Hh & Hn)). exists fd. by split_and!.
  - eapply triple_drop; [by apply close_locks|]. intros d (_ & Hd). by split.
Qed.
Lemma release_locks fd l next :
  triple (locks_are (Some fd) l next) (vw_model_download_release_lock (X := lock_table * X))
    (fun _ => locks_are None (others fd l) next).
Proof.
  intros [pid lock b p th log st [[files held n] x]] (Hf & Hh & Hn). cbn in Hf, Hh, Hn. subst lock held.
  split_and!; [done|cbn; by apply others_twice|done].
Qed.

(** ** Starting and freeing *)

Definition lock_path_of (final_path : list Z) : list Z := final_path ++ str ".lock".
Definition started (l : list (Z * list Z)) (next : Z) (r : option download_handle) (d : downloader (lock_table * X)) : Prop :=
  match r with
  | Some h => taken (dh_lock_path h) l next true d /\ dh_lock_path h = lock_path_of (dh_final_path h)
  | None => locks_are None l next d
  end.
Lemma download_paths_lock dest file part_path final_path lock_path :
  download_paths dest file = Some (part_path, final_path, lock_path) -> lock_path = lock_path_of final_path.
Proof.
  unfold download_paths. destruct (sized _ dest); [|done]. destruct (vw_path_join _ _ _) as [f|]; [|done].
  case_goal; [done|]. destruct (sized _ (f ++ _)) as [lock|] eqn:E; [|done]. apply sized_inv in E as [-> _]. by intros [= <- <- <-].
Qed.
Lemma start_started entry dest l next : below next l ->
  triple (locks_are None l next) (download_start entry dest) (started l next).
Proof.
  intros Hl. unfold download_start. apply triple_if; intros _; [by intros d|].
  eapply triple_bind; [apply same_locks_are; auto with keeps|]. cbv beta. intros []; cbn [negb]; [|by intros d].
  apply triple_if; intros _; [by intros d|].
  eapply triple_bind; [apply same_locks_are; auto with keeps|]. cbv beta. intros []; cbn [negb]; [|by intros d].
  destruct (download_paths dest (ent_filename entry)) as [[[part_path final_path] lock_path]|] eqn:E; [|by intros d].
  apply (triple_drop _ _ _ (locks_are None l next)); [by intros d (_ & Hd)|].
  eapply triple_bind; [apply same_locks_are; auto with keeps|]. cbv beta. intros []; cbn [negb]; [|by intros d].
  eapply triple_bind; [by apply acquire_taken|]. cbv beta. intros []; cbn [negb]; [|by intros d].
  apply (triple_drop _ _ _ (taken lock_path l next true)); [by intros d|].
  eapply (triple_bind _ _ _ (fun _ => taken lock_path l next true)).
  { intros d (fd & Hfd & Hp & Hd). exists fd. split_and!; [done|done|]. revert d Hd. apply same_locks_are. auto with keeps. }
  intros []; cbn [negb].
  - intros d Hd. split; [exact Hd|]. by eapply download_paths_lock.
  - eapply (triple_drop _ _ _ (locks_are None l next)); [|by intros d].
    intros d (fd & Hfd & Hp & Hd). destruct (release_locks fd _ _ d Hd) as (Hf & Hh & Hn).
    split_and!; [done| |lia]. rewrite Hh, others_cons. by apply others_fresh, (below_le next).
Qed.

(** ** Several workers *)

(** The downloads that live, each with its state, and the system they share. *)
Definition live : Type := download_handle * downloader (lock_table * X).
Record fleet := mk_fleet { fl_live : list live; fl_system : lock_table * X }.
(** A state continued in the system as it is now. *)
Definition resumed (d : downloader (lock_table * X)) (system : lock_table * X) : downloader (lock_table * X) :=
  d <| dw_ext := system |>.

(** A worker starts a download, fetches or frees it; or something else happens. *)
Inductive fleet_step : fleet -> fleet -> Prop :=
  | fleet_starts downloads system entry dest_dir :
      let r := download_start entry dest_dir (new_downloader system) in
      fleet_step (mk_fleet downloads system)
        (mk_fleet (match fst r with Some handle => (handle, snd r) :: downloads | None => downloads end) (dw_ext (snd r)))
  | fleet_fetches l1 handle d l2 system fuel :
      let d' := snd (vw_download_via_curl fuel (dh_entry handle) (dh_part_path handle) (resumed d system)) in
      fleet_step (mk_fleet (l1 ++ (handle, d) :: l2) system) (mk_fleet (l1 ++ (handle, d') :: l2) (dw_ext d'))
  | fleet_frees l1 handle d l2 system :
      let d' := snd (vw_model_download_free (resumed d system)) in
      fleet_step (mk_fleet (l1 ++ (handle, d) :: l2) system) (mk_fleet (l1 ++ l2) (dw_ext d'))
  | fleet_else downloads t x x' : fleet_step (mk_fleet downloads (t, x)) (mk_fleet downloads (t, x')).

(** What each of them holds. *)
Definition holding (p : live) : Z * list Z := (default 0 (dw_lock_fd (snd p)), dh_lock_path (fst p)).
Definition live_ok (p : live) : Prop := dw_lock_fd (snd p) <> None /\ dh_lock_path (fst p) = lock_path_of (dh_final_path (fst p)).
Record fleet_inv (f : fleet) : Prop := {
  fi_held : lt_held (fst (fl_system f)) ≡ₚ holding <$> fl_live f;
  fi_live : Forall live_ok (fl_live f);
  fi_fds : NoDup (fst <$> lt_held (fst (fl_system f)));
  fi_paths : NoDup (snd <$> lt_held (fst (fl_system f)));
  fi_below : below (lt_next (fst (fl_system f))) (lt_held (fst (fl_system f)))
}.

Lemma same_locks_curl fuel entry part_path : keeps same_locks (vw_download_via_curl (X := lock_table * X) fuel entry part_path).
Proof.
  assert (forall pid, keeps same_locks (set_child (X := lock_table * X) pid)) as Hset by (intros pid d; done).
  assert (forall b p, keeps same_locks (modify (S := downloader (lock_table * X)) (fun d => d <| dw_bytes_done := b |> <| dw_progress_pct := p |>)))
    as Hshow by (intros b p d; done).
  assert (forall sz, keeps same_locks (show_progress (X := lock_table * X) entry sz)) as Hprogress
    by (intros sz; unfold show_progress; keeps_steps; auto).
  assert (forall path, keeps same_locks (vw_file_size (X := lock_table * X) path)) as Hsize
    by (intros path; unfold vw_file_size; keeps_steps).
  assert (forall pid b, keeps same_locks (wait_curl (X := lock_table * X) pid b)) as Hwait
    by (intros pid b; unfold wait_curl; keeps_steps).
  assert (forall pid, keeps same_locks (settle_child (X := lock_table * X) pid)) as Hsettle
    by (intros pid; unfold settle_child, signal_curl, vw_sleep_ms; keeps_steps).
  assert (forall pid, keeps same_locks (curl_step (X := lock_table * X) entry part_path pid)) as Hstep
    by (intros pid; unfold curl_step, vw_sleep_ms; keeps_steps).
  assert (forall pid, keeps same_locks (curl_loop (X := lock_table * X) fuel entry part_path pid)) as Hloop.
  { intros pid. induction fuel as [|n IH]; cbn [curl_loop]; keeps_steps. by intros d. }
  unfold vw_download_via_curl, finish_fetch. keeps_steps.
Qed.

Lemma started_inv downloads system entry dest_dir :
  fleet_inv (mk_fleet downloads system) ->
  let r := download_start entry dest_dir (new_downloader system) in
  fleet_inv (mk_fleet (match fst r with Some handle => (handle, snd r) :: downloads | None => downloads end) (dw_ext (snd r))).
Proof.
  intros [Hh Hl Hf Hp Hb]. cbn [fl_system fl_live] in *. cbv zeta.
  pose proof (start_started entry dest_dir (lt_held (fst system)) (lt_next (fst system)) Hb (new_downloader system)) as Hs.
  specialize (Hs ltac:(by split_and!)). destruct (download_start entry dest_dir (new_downloader system)) as [[h|] d];
    cbn [fst snd started] in *.
  - destruct Hs as ((fd & Hfd & Hfree & (Hlock & Hheld & Hnext)) & Hpath). unfold table in *.
    split; cbn [fl_system fl_live]; rewrite ?Hheld.
    + cbn. unfold holding at 1. cbn. rewrite Hlock. cbn. by rewrite Hh.
    + constructor; [|done]. split; [cbn; by rewrite Hlock|done].
    + cbn. apply list.NoDup_cons. split; [|done]. intros (p & Hpf & Hin)%list_elem_of_fmap.
      unfold below in Hb. rewrite list.Forall_forall in Hb. apply Hb in Hin. lia.
    + cbn. apply list.NoDup_cons. by split.
    + constructor; [cbn; lia|]. eapply below_le; [|exact Hb]. lia.
  - destruct Hs as (Hlock & Hheld & Hnext). unfold table in *. split; cbn [fl_system fl_live]; rewrite ?Hheld; try done.
    eapply below_le; [|exact Hb]. lia.
Qed.
Lemma fetched_inv l1 handle d d' l2 system system' :
  dw_lock_fd d' = dw_lock_fd d -> fst system' = fst system ->
  fleet_inv (mk_fleet (l1 ++ (handle, d) :: l2) system) -> fleet_inv (mk_fleet (l1 ++ (handle, d') :: l2) system').
Proof.
  intros Hlock Ht [Hh Hl Hf Hp Hb]. cbn [fl_system fl_live] in *. split; cbn [fl_system fl_live]; rewrite ?Ht; try done.
  - assert (holding (handle, d') = holding (handle, d)) as He by (unfold holding; cbn; by rewrite Hlock).
    by rewrite Hh, !fmap_app, !fmap_cons, He.
  - apply Forall_app in Hl as [Hl1 Hl2]. apply Forall_app. split; [done|]. apply list.Forall_cons in Hl2 as [[Hn Hpath] Hl2].
    constructor; [|done]. split; [cbn in *; by rewrite Hlock|done].
Qed.
Lemma freed_inv l1 handle d l2 system :
  fleet_inv (mk_fleet (l1 ++ (handle, d) :: l2) system) ->
  fleet_inv (mk_fleet (l1 ++ l2) (dw_ext (snd (vw_model_download_free (resumed d system))))).
Proof.
  intros [Hh Hl Hf Hp Hb]. cbn [fl_system fl_live] in *. apply Forall_app in Hl as [Hl1 Hl2].
  apply list.Forall_cons in Hl2 as [[Hn Hpath] Hl2]. cbn in Hn. destruct (dw_lock_fd d) as [fd|] eqn:Hlock; [clear Hn|done].
  assert (triple (locks_are (Some fd) (lt_held (fst system)) (lt_next (fst system))) vw_model_download_free
    (fun _ => locks_are None (others fd (lt_held (fst system))) (lt_next (fst system)))) as Hfree.
  { unfold vw_model_download_free. eapply triple_bind; [apply same_locks_are; keeps_steps|]. cbv beta. intros th.
    apply (triple_drop _ _ _ (locks_are (Some fd) (lt_held (fst system)) (lt_next (fst system)))).
    { apply same_locks_are. keeps_steps. by intros d'. }
    apply (triple_drop _ _ _ (locks_are (Some fd) (lt_held (fst system)) (lt_next (fst system)))); [by intros d'|apply release_locks]. }
  destruct (Hfree (resumed d system) ltac:(by split_and!)) as (_ & Hheld & Hnext). unfold table in *.
  assert (lt_held (fst system) ≡ₚ (fd, dh_lock_path handle) :: (holding <$> l1 ++ l2)) as Hperm.
  { rewrite Hh, !fmap_app, fmap_cons. unfold holding at 2. cbn. rewrite Hlock. cbn. symmetry. apply Permutation_middle. }
  assert (others fd (lt_held (fst system)) ≡ₚ holding <$> l1 ++ l2) as Hrest.
  { unfold others. rewrite Hperm. fold (others fd ((fd, dh_lock_path handle) :: (holding <$> l1 ++ l2))). rewrite others_cons.
    rewrite others_absent; [done|]. rewrite Hperm in Hf. cbn in Hf. by apply list.NoDup_cons in Hf as []. }
  split; cbn [fl_system fl_live]; rewrite ?Hheld.
  - done.
  - apply Forall_app. by split.
  - rewrite Hrest. rewrite Hperm in Hf. cbn in Hf. by apply list.NoDup_cons in Hf as [].
  - rewrite Hrest. rewrite Hperm in Hp. cbn in Hp. by apply list.NoDup_cons in Hp as [].
  - eapply below_le; [exact Hnext|]. unfold below in *. rewrite Hrest. rewrite Hperm in Hb. by apply list.Forall_cons in Hb as [].
Qed.
Lemma fleet_step_inv f f' : fleet_step f f' -> fleet_inv f -> fleet_inv f'.
Proof.
  intros [downloads system entry dest|l1 handle d l2 system fuel|l1 handle d l2 system|downloads t x x'] Hi.
  - by apply started_inv.
  - destruct (same_locks_curl fuel (dh_entry handle) (dh_part_path handle) (resumed d system)) as [Ht Hlock].
    by apply (fetched_inv l1 handle d _ l2 system).
  - exact (freed_inv l1 handle d l2 system Hi).
  - by destruct Hi.
Qed.

Definition no_downloads (x : X) : fleet := mk_fleet [] (mk_table [] [] 3, x).

(** C37: One download of a destination at a time: however workers on one file system start,
    fetch and free downloads, no two that live have the same part or model file. *)
Theorem download_single_flight (x : X) (f : fleet) (i j : nat) (a b : live) :
  rtc fleet_step (no_downloads x) f ->
  fl_live f !! i = Some a -> fl_live f !! j = Some b -> dh_final_path (fst a) = dh_final_path (fst b) -> i = j.
Proof.
  intros Hr. assert (fleet_inv f) as [Hh Hl _ Hp _].
  { assert (fleet_inv (no_downloads x)) as Hi by (split; cbn; try done; constructor).
    clear -Hr Hi. induction Hr as [|f f1 f2 Hs _ IH]; [done|]. by eapply IH, fleet_step_inv. }
  rewrite Hh in Hp. rewrite <- list_fmap_compose in Hp. intros Ha Hb He.
  apply (NoDup_lookup _ i j (dh_lock_path (fst a)) Hp); rewrite list_lookup_fmap; [by rewrite Ha|].
  rewrite Hb. cbn. f_equal. rewrite Forall_lookup in Hl. destruct (Hl i a Ha) as [_ ->], (Hl j b Hb) as [_ ->]. by rewrite He.
Qed.
End locks.

(** ** Two workers *)

#[local] Abbreviation fresh_system := (mk_table [] [] 3, mk_fetch_script [] [0; 0; 0; 0] []).
#[local] Abbreviation first_start := (download_start abc_entry (str "/m") (new_downloader fresh_system)).
#[local] Abbreviation second_start dest := (download_start abc_entry dest (new_downloader (dw_ext (snd first_start)))).

(** The second is refused the destination of the first, and given another. *)
Example busy_destination :
  fst (second_start (str "/m/")) = None /\ dh_final_path <$> fst (second_start (str "/n")) = Some (str "/n/abc.bin").
Proof. vm_compute. by split. Qed.

Lemma first_starts : exists a, fl_live (mk_fleet (match fst first_start with Some h => [(h, snd first_start)] | None => [] end)
  (dw_ext (snd first_start))) !! 0%nat = Some a.
Proof. eexists. vm_compute. reflexivity. Qed.
Lemma download_single_flight_witness :
  exists a : live, fl_live (mk_fleet (match fst first_start with Some h => [(h, snd first_start)] | None => [] end)
      (dw_ext (snd first_start))) !! 0%nat = Some a /\ 0%nat = 0%nat.
Proof.
  destruct first_starts as [a Ha]. exists a. split; [exact Ha|].
  refine (download_single_flight (snd fresh_system) (mk_fleet (match fst first_start with Some h => [(h, snd first_start)] | None => [] end)
      (dw_ext (snd first_start))) 0 0 a a _ Ha Ha eq_refl).
  exact (rtc_once _ _ (fleet_starts [] fresh_system abc_entry (str "/m"))).
Defined.
