(* ===== verification/TranslateText.v ===== *)
(** * Translation: encoding and parsing

    The text functions of [src/worker/src/vw_translate.c]: percent encoding, HTML
    and JSON escapes, the request body of the web RPC tier and the parsers of the
    three response formats. Texts are C strings as byte lists without the NUL;
    every output buffer keeps its size check, and an overflow is [None], as the
    code returns [false]. Allocations succeed. *)

From S2P Require Import Prelude.
From S2P Require Import CString.

Definition VW_TRANSLATE_MAX_TEXT_BYTES : Z := 1024.
Definition VW_TRANSLATE_MAX_URL_BYTES : Z := 4096.
Definition VW_TRANSLATE_MAX_RESPONSE_BYTES : Z := 65536.
Definition VW_TRANSLATE_RPC_JSON_BYTES : Z := VW_TRANSLATE_MAX_TEXT_BYTES * 8 + 512.
Definition VW_TRANSLATE_RPC_BODY_BYTES : Z := 65536.

Definition upper_hex (d : Z) : Z := znth (str "0123456789ABCDEF") d.

(** Append [bytes] when they and a NUL fit into a buffer of [dst_size]. *)
Definition put (dst_size : Z) (dst bytes : list Z) : option (list Z) :=
  if dst_size <=? zlen dst + zlen bytes then None else Some (dst ++ bytes).

(** ** Percent encoding *)

Definition is_alnum (c : Z) : bool :=
  ((97 <=? c) && (c <=? 122)) || ((65 <=? c) && (c <=? 90)) || ((48 <=? c) && (c <=? 57)).

Definition url_unreserved (c : Z) : bool :=
  is_alnum c || (c =? 45) || (c =? 95) || (c =? 46) || (c =? 126).

Definition url_encode_byte (c : Z) : list Z :=
  if url_unreserved c then [c] else [37; upper_hex (Z.shiftr c 4); upper_hex (Z.land c 0xF)].

(** The common shape of the encoders: each byte of the source gives some bytes. *)
Fixpoint encode_loop (f : Z -> list Z) (dst_size : Z) (src dst : list Z) : option (list Z) :=
  match src with
  | [] => Some dst
  | c :: src =>
      match put dst_size dst (f c) with
      | Some dst => encode_loop f dst_size src dst
      | None => None
      end
  end.

Definition vw_url_encode (src : list Z) (dst_size : Z) : option (list Z) :=
  if dst_size =? 0 then None else encode_loop url_encode_byte dst_size src [].

(** ** UTF-8 output *)

Definition utf8_scalar (code : Z) : list Z :=
  if code <=? 0x7F then [code]
  else if code <=? 0x7FF then [Z.lor 0xC0 (Z.shiftr code 6); Z.lor 0x80 (Z.land code 0x3F)]
  else if code <=? 0xFFFF then
    [Z.lor 0xE0 (Z.shiftr code 12); Z.lor 0x80 (Z.land (Z.shiftr code 6) 0x3F);
     Z.lor 0x80 (Z.land code 0x3F)]
  else
    [Z.lor 0xF0 (Z.shiftr code 18); Z.lor 0x80 (Z.land (Z.shiftr code 12) 0x3F);
     Z.lor 0x80 (Z.land (Z.shiftr code 6) 0x3F); Z.lor 0x80 (Z.land code 0x3F)].

Definition bad_scalar (code : Z) : bool :=
  (0x10FFFF <? code) || ((0xD800 <=? code) && (code <=? 0xDFFF)) || (code =? 0).

Definition append_utf8_scalar (code : Z) (dst_size : Z) (dst : list Z) : option (list Z) :=
  if bad_scalar code then None else put dst_size dst (utf8_scalar code).

(** ** HTML *)

(** [strtoul] on a whole string of fewer than nine digits: [Some] its value when
    nothing is left over, with the blanks, sign and [0x] prefix it accepts. *)
Definition digit_value (base c : Z) : option Z :=
  let v := if (48 <=? c) && (c <=? 57) then c - 48
           else if (97 <=? c) && (c <=? 122) then c - 97 + 10
           else if (65 <=? c) && (c <=? 90) then c - 65 + 10 else base in
  if v <? base then Some v else None.

Fixpoint digits_value (base : Z) (s : list Z) (acc : Z) : option Z :=
  match s with
  | [] => Some acc
  | c :: s => match digit_value base c with Some v => digits_value base s (acc * base + v) | None => None end
  end.

Definition strtoul_whole (base : Z) (s : list Z) : option Z :=
  let s := trim_start isspace s in
  let '(negative, s) :=
    match s with
    | 43 :: s => (false, s)
    | 45 :: s => (true, s)
    | _ => (false, s)
    end in
  let s :=
    match s with
    | 48 :: x :: ((d :: _) as digits) =>
        if (base =? 16) && ((x =? 120) || (x =? 88)) && (match digit_value 16 d with Some _ => true | None => false end)
        then digits else s
    | _ => s
    end in
  match s with
  | [] => None
  | _ => match digits_value base s 0 with
         | Some v => Some (if negative then u64 (- v) else v)
         | None => None
         end
  end.

Definition named_entities : list (list Z * Z) :=
  [(str "&quot;", 34); (str "&#39;", 39); (str "&#039;", 39); (str "&amp;", 38);
   (str "&lt;", 60); (str "&gt;", 62); (str "&nbsp;", 32)].

Definition find_named (src : list Z) : option (list Z * Z) :=
  List.find (fun e => prefixb (fst e) src) named_entities.

(** The text between [&#] and a semicolon at most ten bytes later. *)
Fixpoint entity_body (n : nat) (s : list Z) : option (list Z) :=
  match s with
  | [] => None
  | c :: s =>
      if c =? 59 then Some []
      else match n with O => None | S n => cons c <$> entity_body n s end
  end.

(** A numeric entity at [&]: its code point and the length of the entity. *)
Definition numeric_entity (src : list Z) : option (Z * nat) :=
  match src with
  | _ :: 35 :: rest =>
      match entity_body 10 rest with
      | None => None
      | Some body =>
          let hex := match body with c :: _ => (c =? 120) || (c =? 88) | [] => false end in
          let digits := if hex then tail body else body in
          if (0 <? zlen digits) && (zlen digits <? 9) then
            match strtoul_whole (if hex then 16 else 10) digits with
            | Some code => if bad_scalar code then None else Some (code, (length body + 3)%nat)
            | None => None
            end
          else None
      end
  | _ => None
  end.

(** [skip] bytes of the source have been consumed by an entity. *)
Fixpoint html_unescape_loop (skip : nat) (in_tag : bool) (src : list Z) (dst_size : Z) (dst : list Z)
  : option (list Z) :=
  match src with
  | [] => Some dst
  | c :: src' =>
      match skip with
      | S skip => html_unescape_loop skip in_tag src' dst_size dst
      | O =>
          if c =? 60 then html_unescape_loop 0 true src' dst_size dst
          else if c =? 62 then html_unescape_loop 0 false src' dst_size dst
          else if in_tag then html_unescape_loop 0 in_tag src' dst_size dst
          else
            let named := if c =? 38 then find_named src else None in
            match named with
            | Some (entity, value) =>
                match put dst_size dst [value] with
                | Some dst => html_unescape_loop (length entity - 1) in_tag src' dst_size dst
                | None => None
                end
            | None =>
                let numeric := if c =? 38 then numeric_entity src else None in
                match numeric with
                | Some (code, len) =>
                    match append_utf8_scalar code dst_size dst with
                    | Some dst => html_unescape_loop (len - 1) in_tag src' dst_size dst
                    | None => None
                    end
                | None =>
                    match put dst_size dst [c] with
                    | Some dst => html_unescape_loop 0 in_tag src' dst_size dst
                    | None => None
                    end
                end
            end
      end
  end.

Definition vw_html_unescape (src : list Z) (dst_size : Z) : option (list Z) :=
  if dst_size =? 0 then None else html_unescape_loop 0 false src dst_size [].

(** ** JSON strings *)

Definition hex4_digit (c : Z) : option Z :=
  if (48 <=? c) && (c <=? 57) then Some (c - 48)
  else if (97 <=? c) && (c <=? 102) then Some (c - 97 + 10)
  else if (65 <=? c) && (c <=? 70) then Some (c - 65 + 10)
  else None.

Fixpoint hex4_loop (n : nat) (src : list Z) (value : Z) : option Z :=
  match n with
  | O => Some value
  | S n =>
      match src with
      | [] => None
      | c :: src =>
          match hex4_digit c with
          | Some digit => hex4_loop n src (Z.lor (Z.shiftl value 4) digit)
          | None => None
          end
      end
  end.
Definition parse_hex4 (src : list Z) : option Z := hex4_loop 4 src 0.

(** The simple escapes. *)
Definition simple_escape (c : Z) : option Z :=
  if (c =? 34) || (c =? 92) || (c =? 47) then Some c
  else if c =? 98 then Some 8
  else if c =? 102 then Some 12
  else if c =? 110 then Some 10
  else if c =? 114 then Some 13
  else if c =? 116 then Some 9
  else None.

(** What follows [\u]: the code point and how many bytes it takes. *)
Definition unicode_escape (rest : list Z) : option (Z * nat) :=
  if zlen rest <? 4 then None
  else match parse_hex4 rest with
  | None => None
  | Some code =>
      if (0xD800 <=? code) && (code <=? 0xDBFF) then
        let rest := zdrop 4 rest in
        if (zlen rest <? 6) || negb (znth rest 0 =? 92) || negb (znth rest 1 =? 117) then None
        else match parse_hex4 (zdrop 2 rest) with
        | None => None
        | Some low =>
            if (low <? 0xDC00) || (0xDFFF <? low) then None
            else Some (0x10000 + Z.shiftl (code - 0xD800) 10 + (low - 0xDC00), 10%nat)
        end
      else if (0xDC00 <=? code) && (code <=? 0xDFFF) then None
      else Some (code, 4%nat)
  end.

Fixpoint json_unescape_loop (skip : nat) (src : list Z) (dst_size : Z) (dst : list Z)
  : option (list Z) :=
  match src with
  | [] => Some dst
  | raw :: src' =>
      match skip with
      | S skip => json_unescape_loop skip src' dst_size dst
      | O =>
          if raw <? 0x20 then None
          else if negb (raw =? 92) then
            match put dst_size dst [raw] with
            | Some dst => json_unescape_loop 0 src' dst_size dst
            | None => None
            end
          else match src' with
          | [] => None
          | c :: rest =>
              match simple_escape c with
              | Some decoded =>
                  match put dst_size dst [decoded] with
                  | Some dst => json_unescape_loop 1 src' dst_size dst
                  | None => None
                  end
              | None =>
                  if c =? 117 then
                    match unicode_escape rest with
                    | None => None
                    | Some (code, n) =>
                        match append_utf8_scalar code dst_size dst with
                        | Some dst => json_unescape_loop (S n) src' dst_size dst
                        | None => None
                        end
                    end
                  else None
              end
          end
      end
  end.

Definition json_unescape_string (src : list Z) (dst_size : Z) : option (list Z) :=
  if dst_size =? 0 then None else json_unescape_loop 0 src dst_size [].

(** The backslashes just before a position, given the text before it reversed. *)
Fixpoint count_slashes (before : list Z) : nat :=
  match before with
  | c :: before => if c =? 92 then S (count_slashes before) else 0
  | [] => 0
  end.

(** The string up to its closing quote, and the rest from the quote. *)
Fixpoint json_end_loop (before p : list Z) : option (list Z * list Z) :=
  match p with
  | [] => None
  | c :: p' =>
      if negb (c =? 34) then json_end_loop (c :: before) p'
      else if Nat.even (count_slashes before) then Some (rev before, p)
      else json_end_loop (c :: before) p'
  end.
Definition json_string_end (start : list Z) : option (list Z * list Z) := json_end_loop [] start.

Definition json_escape_byte (c : Z) : list Z :=
  if c =? 34 then [92; 34]
  else if c =? 92 then [92; 92]
  else if c =? 8 then [92; 98]
  else if c =? 12 then [92; 102]
  else if c =? 10 then [92; 110]
  else if c =? 13 then [92; 114]
  else if c =? 9 then [92; 116]
  else if c <? 0x20 then [92; 117; 48; 48; upper_hex (Z.shiftr c 4); upper_hex (Z.land c 0xF)]
  else [c].

Definition json_escape_string (src : list Z) (dst_size : Z) : option (list Z) :=
  if dst_size =? 0 then None else encode_loop json_escape_byte dst_size src [].

(** ** Response parsers *)

Definition skip_ws (p : list Z) : list Z := trim_start isspace p.

Definition starts_with (c : Z) (p : list Z) : bool :=
  match p with d :: _ => d =? c | [] => false end.

Definition vw_translate_parse_mobile_response (raw : list Z) (out_size : Z) : option (list Z) :=
  if out_size =? 0 then None
  else
    let start :=
      match strstr_from raw (str "class=" ++ 34 :: str "result-container" ++ [34]) with
      | Some s => Some s
      | None => strstr_from raw (str "class='result-container'")
      end in
    match start ≫= fun s => strchr_from s 62 with
    | Some (_ :: start) =>
        match strstr_from start (str "</div>") with
        | None => None
        | Some fin =>
            match vw_html_unescape (ztake (zlen start - zlen fin) start) out_size with
            | None => None
            | Some out =>
                let out := trim_end isspace out in
                if 0 <? zlen out then Some out else None
            end
        end
    | _ => None
    end.

Definition skip_json_string (quote : list Z) : option (list Z) :=
  match quote with
  | 34 :: start =>
      match json_string_end start with Some (_, _ :: after) => Some after | _ => None end
  | _ => None
  end.

(** Skip to the bracket that closes the array being read. *)
Fixpoint skip_segment_array (in_string escaped : bool) (depth : Z) (p : list Z) : option (list Z) :=
  match p with
  | [] => None
  | c :: p =>
      if in_string then
        if escaped then skip_segment_array true false depth p
        else if c =? 92 then skip_segment_array true true depth p
        else if c =? 34 then skip_segment_array false escaped depth p
        else skip_segment_array true escaped depth p
      else if c =? 34 then skip_segment_array true escaped depth p
      else if c =? 91 then skip_segment_array false escaped (depth + 1) p
      else if c =? 93 then
        if depth =? 0 then Some p else skip_segment_array false escaped (depth - 1) p
      else skip_segment_array false escaped depth p
  end.

(** The body of the scan over a bracketed value. *)
Fixpoint skip_brackets (opening closing : Z) (in_str esc : bool) (depth : Z) (p : list Z)
  : option (list Z) :=
  match p with
  | [] => None
  | c :: p =>
      if in_str then
        if esc then skip_brackets opening closing true false depth p
        else if c =? 92 then skip_brackets opening closing true true depth p
        else if c =? 34 then skip_brackets opening closing false esc depth p
        else skip_brackets opening closing true esc depth p
      else if c =? 34 then skip_brackets opening closing true esc depth p
      else if c =? opening then skip_brackets opening closing false esc (depth + 1) p
      else if c =? closing then
        if depth - 1 =? 0 then Some p else skip_brackets opening closing false esc (depth - 1) p
      else skip_brackets opening closing false esc depth p
  end.

Definition ends_primitive (c : Z) : bool := (c =? 44) || (c =? 93) || (c =? 125) || isspace c.

Definition skip_json_value (p : list Z) : option (list Z) :=
  let p := skip_ws p in
  match p with
  | [] => Some []
  | c :: _ =>
      if c =? 34 then skip_json_string p
      else if (c =? 91) || (c =? 123) then
        skip_brackets c (if c =? 91 then 93 else 125) false false 0 p
      else Some (trim_start (fun c => negb (ends_primitive c)) p)
  end.

(** The loop over the elements before [target_index]. *)
Fixpoint array_element_loop (target_index : nat) (arr : list Z) : option (list Z) :=
  let arr := skip_ws arr in
  if match arr with [] => true | c :: _ => c =? 93 end then None
  else match target_index with
  | O => Some arr
  | S target_index =>
      match skip_json_value arr with
      | None => None
      | Some arr =>
          match skip_ws arr with
          | 44 :: arr => array_element_loop target_index arr
          | 93 :: _ => None
          | arr => array_element_loop target_index arr
          end
      end
  end.

Definition get_json_array_element (arr : list Z) (target_index : nat) : option (list Z) :=
  match skip_ws arr with
  | 91 :: arr => array_element_loop target_index arr
  | _ => None
  end.

(** One segment [[ "text", ... ]]: its text and what follows the array. *)
Definition parse_segment (p : list Z) : option (list Z * list Z) :=
  match skip_ws p with
  | 34 :: str_start =>
      match json_string_end str_start with
      | Some (content, _ :: rest) =>
          match json_unescape_string content (VW_TRANSLATE_MAX_TEXT_BYTES + 1) with
          | None => None
          | Some chunk =>
              match skip_segment_array false false 0 rest with
              | None => None
              | Some after => Some (chunk, after)
              end
          end
      | _ => None
      end
  | _ => None
  end.

(** The segment loop; the output so far is [out]. Every iteration consumes at
    least the opening bracket, so the length of the text is enough [fuel]. *)
Fixpoint segments_loop (fuel : nat) (p : list Z) (out_size : Z) (out : list Z) : option (list Z) :=
  match fuel with
  | O => Some out
  | S fuel =>
      match skip_ws p with
      | 91 :: p =>
          match parse_segment p with
          | None => None
          | Some (chunk, after) =>
              if out_size <=? zlen out + zlen chunk then None
              else match skip_ws after with
              | 44 :: after => segments_loop fuel after out_size (out ++ chunk)
              | _ => Some (out ++ chunk)
              end
          end
      | _ => Some out
      end
  end.

(** The code checks the room before it skips the rest of the segment; both
    failures return [false]. *)
Definition parse_segments_list (p : list Z) (out_size : Z) : option (list Z) :=
  match skip_ws p with
  | 91 :: p =>
      match segments_loop (S (length p)) p out_size [] with
      | Some out => if 0 <? zlen out then Some out else None
      | None => None
      end
  | _ => None
  end.

Definition vw_translate_parse_gtx_response (raw : list Z) (out_size : Z) : option (list Z) :=
  if out_size =? 0 then None
  else match skip_ws raw with
  | 91 :: p => parse_segments_list (skip_ws p) out_size
  | _ => None
  end.

Definition option_or {A} (x y : option A) : option A := match x with Some _ => x | None => y end.

(** The three shapes the inner payload may have, in the order they are tried. *)
Definition parse_rpc_payload (unescaped : list Z) (out_size : Z) : option (list Z) :=
  option_or
    (get_json_array_element unescaped 1 ≫= fun elem1 =>
     get_json_array_element elem1 0 ≫= fun elem1_0 =>
     get_json_array_element elem1_0 0 ≫= fun elem1_0_0 =>
     get_json_array_element elem1_0_0 5 ≫= fun elem1_0_0_5 =>
     parse_segments_list elem1_0_0_5 out_size)
    (option_or
      (strstr_from unescaped (str "null,null,null,null,null,") ≫= fun nulls =>
       strchr_from nulls 91 ≫= fun segs => parse_segments_list segs out_size)
      (vw_translate_parse_gtx_response unescaped out_size)).

(** From the marker to the opening quote of the payload: the RPC id is skipped
    when present. *)
Definition rpc_payload_start (marker : list Z) : option (list Z) :=
  match strchr_from marker 44 with
  | Some (_ :: p) =>
      let p := skip_ws p in
      let p :=
        if starts_with 34 p then
          match skip_json_string p with
          | Some p => match skip_ws p with 44 :: p => Some p | _ => None end
          | None => None
          end
        else Some p in
      match skip_ws <$> p with
      | Some (34 :: payload_start) => Some payload_start
      | _ => None
      end
  | _ => None
  end.

Definition vw_translate_parse_rpc_response (raw : list Z) (out_size : Z) : option (list Z) :=
  if out_size =? 0 then None
  else
    strstr_from raw (34 :: str "wrb.fr" ++ [34]) ≫= fun marker =>
    rpc_payload_start marker ≫= fun payload_start =>
    match json_string_end payload_start with
    | Some (payload, _) =>
        json_unescape_string payload (zlen payload + 1) ≫= fun unescaped =>
        parse_rpc_payload unescaped out_size
    | None => None
    end.

(** ** The web RPC request *)

Definition q : list Z := [34].

Definition rpc_inner (text src dst : list Z) : list Z :=
  str "[[" ++ q ++ text ++ q ++ str "," ++ q ++ src ++ q ++ str "," ++ q ++ dst ++ q ++ str ",true],[null]]".
Definition rpc_envelope (inner : list Z) : list Z :=
  str "[[[" ++ q ++ str "MkEWBc" ++ q ++ str "," ++ q ++ inner ++ q ++ str ",null," ++ q ++ str "generic"
  ++ q ++ str "]]]".

Definition build_rpc_body (text src_lang dst_lang : list Z) (out_size : Z) : option (list Z) :=
  if out_size =? 0 then None
  else
    json_escape_string text (VW_TRANSLATE_MAX_TEXT_BYTES * 6 + 1) ≫= fun escaped_text =>
    json_escape_string src_lang 128 ≫= fun escaped_src =>
    json_escape_string dst_lang 128 ≫= fun escaped_dst =>
    sized VW_TRANSLATE_RPC_JSON_BYTES (rpc_inner escaped_text escaped_src escaped_dst) ≫= fun inner =>
    json_escape_string inner (VW_TRANSLATE_RPC_JSON_BYTES * 2) ≫= fun escaped_inner =>
    sized (VW_TRANSLATE_RPC_JSON_BYTES * 2 + 128) (rpc_envelope escaped_inner) ≫= fun rpc =>
    vw_url_encode rpc (VW_TRANSLATE_RPC_BODY_BYTES - 16) ≫= fun encoded =>
    sized out_size (str "f.req=" ++ encoded).

(** ** Language tags *)

Definition is_valid_lang_tag (lang : list Z) (allow_auto : bool) : bool :=
  match lang with
  | [] => false
  | _ =>
      if allow_auto && bool_decide (lang = str "auto") then true
      else if (zlen lang <? 2) || (15 <? zlen lang) then false
      else forallb (fun c => is_alnum c || (c =? 45)) lang
  end.

Example gtx_two_segments :
  vw_translate_parse_gtx_response
    (str "[[[" ++ q ++ str "Bonjour" ++ q ++ str ",null],[" ++ q ++ str " tous" ++ q ++ str "]],null]") 64
  = Some (str "Bonjour tous").
Proof. vm_compute. reflexivity. Qed.
Example mobile_entity :
  vw_translate_parse_mobile_response
    (str "<div class='result-container'>a &amp; b&#8217;c </div>") 64
  = Some (str "a & b" ++ [0xE2; 0x80; 0x99] ++ str "c").
Proof. vm_compute. reflexivity. Qed.
Example json_surrogate :
  json_unescape_string (str "\ud83d\ude00") 16 = Some [0xF0; 0x9F; 0x98; 0x80].
Proof. vm_compute. reflexivity. Qed.

(** ** Encoders *)

Definition encode (f : Z -> list Z) (s : list Z) : list Z := concat (map f s).

Lemma encode_loop_spec f n src : forall dst,
  zlen dst < n -> encode_loop f n src dst = sized n (dst ++ encode f src).
Proof.
  unfold sized. induction src as [|c src IH]; intros dst Hd; cbn [encode_loop encode map concat].
  - unfold encode. simpl. rewrite app_nil_r. destruct (Z.ltb_spec (zlen dst) n); [done|lia].
  - unfold put. unfold encode in *. cbn [map concat]. rewrite (app_assoc dst).
    pose proof (zlen_nonneg (concat (map f src))).
    destruct (Z.leb_spec n (zlen dst + zlen (f c))) as [H'|H'].
    + rewrite !zlen_app. case_match; [lia|done].
    + apply IH. rewrite zlen_app. lia.
Qed.

Lemma url_encode_spec src n : vw_url_encode src n = sized n (encode url_encode_byte src) \/ n <= 0.
Proof.
  unfold vw_url_encode. destruct (Z.eqb_spec n 0); [right; lia|].
  destruct (Z.le_gt_cases n 0); [by right|left]. by apply (encode_loop_spec _ n src []).
Qed.
Lemma json_escape_spec src n : 0 < n -> json_escape_string src n = sized n (encode json_escape_byte src).
Proof.
  intros. unfold json_escape_string. destruct (Z.eqb_spec n 0); [lia|]. by apply (encode_loop_spec _ n src []).
Qed.

Lemma encode_app f s t : encode f (s ++ t) = encode f s ++ encode f t.
Proof. unfold encode. by rewrite map_app, concat_app. Qed.

(** A bound or an identity on every byte of a C string, checked by computation. *)
Definition c_string (s : list Z) : Prop := is_bytes s /\ no_nul s.
Definition all_bytes : list Z := map Z.of_nat (seq 1 255).

Lemma c_string_cons c s : c_string (c :: s) <-> (is_unsigned 8 c /\ c <> 0) /\ c_string s.
Proof. unfold c_string, is_bytes, no_nul. rewrite !Forall_cons_iff. tauto. Qed.

Lemma byte_in_all c : is_unsigned 8 c -> c <> 0 -> In c all_bytes.
Proof.
  intros [H1 H2] Hc. apply in_map_iff. exists (Z.to_nat c). split; [lia|].
  apply in_seq. change (2 ^ 8) with 256 in H2. lia.
Qed.
Lemma all_bytes_spec (p : Z -> bool) c :
  forallb p all_bytes = true -> is_unsigned 8 c -> c <> 0 -> p c = true.
Proof. intros Hall H1 H2. rewrite forallb_forall in Hall. by apply Hall, byte_in_all. Qed.

Lemma encode_bound f k s :
  (forall c, is_unsigned 8 c -> c <> 0 -> zlen (f c) <= k) -> c_string s -> zlen (encode f s) <= k * zlen s.
Proof.
  intros Hf. induction s as [|c s IH]; intros Hs; [rewrite Z.mul_0_r; done|].
  apply c_string_cons in Hs as [[H1 H2] Hs]. unfold encode in *. cbn [map concat].
  rewrite zlen_app, zlen_cons. specialize (IH Hs). specialize (Hf c H1 H2). lia.
Qed.

Lemma json_escape_byte_len c : is_unsigned 8 c -> c <> 0 -> zlen (json_escape_byte c) <= 6.
Proof.
  intros H1 H2. apply Z.leb_le. apply (all_bytes_spec (fun c => zlen (json_escape_byte c) <=? 6)); [|done..].
  vm_compute. reflexivity.
Qed.
Lemma json_escape_twice_len c :
  is_unsigned 8 c -> c <> 0 -> zlen (encode json_escape_byte (json_escape_byte c)) <= 7.
Proof.
  intros H1 H2. apply Z.leb_le.
  apply (all_bytes_spec (fun c => zlen (encode json_escape_byte (json_escape_byte c)) <=? 7)); [|done..].
  vm_compute. reflexivity.
Qed.
Lemma url_encode_byte_len c : is_unsigned 8 c -> c <> 0 -> zlen (url_encode_byte c) <= 3.
Proof.
  intros H1 H2. apply Z.leb_le. apply (all_bytes_spec (fun c => zlen (url_encode_byte c) <=? 3)); [|done..].
  vm_compute. reflexivity.
Qed.
Lemma json_escape_byte_cstring c : is_unsigned 8 c -> c <> 0 -> c_string (json_escape_byte c).
Proof.
  intros H1 H2.
  assert (forallb (fun d => (0 <? d) && (d <? 256)) (json_escape_byte c) = true) as H.
  { apply (all_bytes_spec (fun c => forallb (fun d => (0 <? d) && (d <? 256)) (json_escape_byte c))); [|done..].
    vm_compute. reflexivity. }
  rewrite forallb_forall in H. split; apply List.Forall_forall; intros d Hd; apply H in Hd.
  - unfold is_unsigned. change (2 ^ 8) with 256. lia.
  - lia.
Qed.
Lemma encode_escape_cstring s : c_string s -> c_string (encode json_escape_byte s).
Proof.
  induction s as [|c s IH]; intros Hs; [done|]. apply c_string_cons in Hs as [[H1 H2] Hs].
  unfold encode. cbn [map concat]. destruct (json_escape_byte_cstring c H1 H2), (IH Hs).
  split; [by apply is_bytes_app|by apply no_nul_app].
Qed.

(** ** JSON round trip *)

Lemma unicode_escape_control c rest :
  0 < c < 32 ->
  unicode_escape (48 :: 48 :: upper_hex (Z.shiftr c 4) :: upper_hex (Z.land c 0xF) :: rest) = Some (c, 4%nat).
Proof.
  intros Hc. unfold unicode_escape. rewrite !zlen_cons. pose proof (zlen_nonneg rest).
  destruct (Z.ltb_spec (1 + (1 + (1 + (1 + zlen rest)))) 4); [lia|].
  assert (In c (map Z.of_nat (seq 1 31))) as Hin.
  { apply in_map_iff. exists (Z.to_nat c). split; [lia|]. apply in_seq. lia. }
  vm_compute in Hin. repeat (destruct Hin as [<-|Hin]; [reflexivity|]). destruct Hin.
Qed.

Lemma json_unescape_byte c rest n dst :
  is_unsigned 8 c -> c <> 0 -> zlen dst + 1 < n ->
  json_unescape_loop 0 (json_escape_byte c ++ rest) n dst = json_unescape_loop 0 rest n (dst ++ [c]).
Proof.
  intros [H1 _] H2 Hn. assert (put n dst [c] = Some (dst ++ [c])) as Hp.
  { unfold put. change (zlen [c]) with 1. case_match; [lia|done]. }
  unfold json_escape_byte.
  destruct (Z.eqb_spec c 34) as [->|]; [cbn; by rewrite Hp|].
  destruct (Z.eqb_spec c 92) as [->|]; [cbn; by rewrite Hp|].
  destruct (Z.eqb_spec c 8) as [->|]; [cbn; by rewrite Hp|].
  destruct (Z.eqb_spec c 12) as [->|]; [cbn; by rewrite Hp|].
  destruct (Z.eqb_spec c 10) as [->|]; [cbn; by rewrite Hp|].
  destruct (Z.eqb_spec c 13) as [->|]; [cbn; by rewrite Hp|].
  destruct (Z.eqb_spec c 9) as [->|]; [cbn; by rewrite Hp|].
  destruct (Z.ltb_spec c 0x20) as [Hlt|Hge].
  - pose proof (unicode_escape_control c rest ltac:(lia)) as Hu. revert Hu.
    generalize (upper_hex (Z.shiftr c 4)) (upper_hex (Z.land c 0xF)). intros h l Hu.
    cbn -[unicode_escape append_utf8_scalar put]. rewrite Hu.
    assert (append_utf8_scalar c n dst = Some (dst ++ [c])) as ->; [|done].
    unfold append_utf8_scalar, bad_scalar, utf8_scalar.
    destruct (Z.ltb_spec 0x10FFFF c); [lia|]. destruct (Z.leb_spec 0xD800 c); [lia|].
    destruct (Z.eqb_spec c 0); [lia|]. simpl. destruct (Z.leb_spec c 0x7F); [done|lia].
  - cbn [app json_unescape_loop]. destruct (Z.ltb_spec c 0x20); [lia|].
    destruct (Z.eqb_spec c 92); [done|]. simpl negb. cbv iota. by rewrite Hp.
Qed.

Lemma json_unescape_escape s n : forall dst,
  c_string s -> zlen dst + zlen s < n ->
  json_unescape_loop 0 (encode json_escape_byte s) n dst = Some (dst ++ s).
Proof.
  induction s as [|c s IH]; intros dst Hs Hn; [by rewrite app_nil_r|].
  apply c_string_cons in Hs as [[H1 H2] Hs]. rewrite zlen_cons in Hn. pose proof (zlen_nonneg s).
  unfold encode in *. cbn [map concat]. rewrite json_unescape_byte by (done || lia).
  rewrite IH; [by rewrite <- app_assoc|done|]. rewrite zlen_app. change (zlen [c]) with 1. lia.
Qed.

(** The reader finds the closing quote of an escaped string. *)
Lemma json_end_byte c before rest :
  is_unsigned 8 c -> c <> 0 -> Nat.even (count_slashes before) = true ->
  json_end_loop before (json_escape_byte c ++ rest) = json_end_loop (rev (json_escape_byte c) ++ before) rest
  /\ Nat.even (count_slashes (rev (json_escape_byte c) ++ before)) = true.
Proof.
  intros H1 H2 He. unfold json_escape_byte.
  destruct (Z.eqb_spec c 34) as [->|].
  { cbn [app rev json_end_loop]. cbn [Z.eqb negb Pos.eqb]. 
    change (count_slashes (92 :: before)) with (S (count_slashes before)).
    rewrite Nat.even_succ, <- Nat.negb_even, He. simpl. split; reflexivity. }
  destruct (Z.eqb_spec c 92) as [->|].
  { cbn [app rev json_end_loop]. cbn [Z.eqb negb Pos.eqb]. split; [reflexivity|]. exact He. }
  do 5 (case_match; [by split|]). destruct (Z.ltb_spec c 0x20) as [Hlt|].
  { assert (In c (map Z.of_nat (seq 1 31))) as Hin.
    { apply in_map_iff. exists (Z.to_nat c). destruct H1. split; [lia|]. apply in_seq. lia. }
    vm_compute in Hin. repeat (destruct Hin as [<-|Hin]; [by split|]). destruct Hin. }
  cbn [app rev json_end_loop]. destruct (Z.eqb_spec c 34); [done|]. split; [done|].
  cbn [count_slashes]. destruct (Z.eqb_spec c 92); done.
Qed.

Lemma json_end_escape s rest : forall before,
  c_string s -> Nat.even (count_slashes before) = true ->
  json_end_loop before (encode json_escape_byte s ++ 34 :: rest)
  = Some (rev before ++ encode json_escape_byte s, 34 :: rest).
Proof.
  induction s as [|c s IH]; intros before Hs He.
  - cbn. by rewrite He, app_nil_r.
  - apply c_string_cons in Hs as [[H1 H2] Hs]. unfold encode in *. cbn [map concat]. rewrite <- app_assoc.
    destruct (json_end_byte c before (concat (map json_escape_byte s) ++ 34 :: rest) H1 H2 He) as [-> He'].
    rewrite IH by done. by rewrite rev_app_distr, rev_involutive, <- app_assoc.
Qed.

(** ** Reference readers *)

Definition hex_value (c : Z) : Z := default 0 (hex4_digit c).

Fixpoint url_decode (s : list Z) : list Z :=
  match s with
  | [] => []
  | c :: s =>
      if c =? 37 then
        match s with
        | h :: l :: s => hex_value h * 16 + hex_value l :: url_decode s
        | _ => [c]
        end
      else c :: url_decode s
  end.

Lemma url_decode_byte c rest :
  is_unsigned 8 c -> c <> 0 -> url_decode (url_encode_byte c ++ rest) = c :: url_decode rest.
Proof.
  intros H1 H2. unfold url_encode_byte. destruct (url_unreserved c) eqn:E.
  - cbn [app url_decode]. destruct (Z.eqb_spec c 37) as [->|]; [discriminate E|done].
  - cbn [app url_decode Z.eqb Pos.eqb]. f_equal.
    apply Z.eqb_eq, (all_bytes_spec (fun c => hex_value (upper_hex (Z.shiftr c 4)) * 16
      + hex_value (upper_hex (Z.land c 0xF)) =? c)); [vm_compute; reflexivity|done..].
Qed.
Lemma url_decode_encode s : c_string s -> url_decode (encode url_encode_byte s) = s.
Proof.
  induction s as [|c s IH]; intros Hs; [done|]. apply c_string_cons in Hs as [[H1 H2] Hs].
  unfold encode in *. cbn [map concat]. rewrite url_decode_byte by done. by rewrite IH.
Qed.

Fixpoint strip_prefix (p s : list Z) : option (list Z) :=
  match p, s with
  | [], _ => Some s
  | c :: p, d :: s => if c =? d then strip_prefix p s else None
  | _, [] => None
  end.
Lemma strip_prefix_app p s : strip_prefix p (p ++ s) = Some s.
Proof. induction p as [|c p IH]; [done|]. cbn [app strip_prefix]. by rewrite Z.eqb_refl. Qed.

(** Read a JSON string after its opening quote. *)
Definition read_json_string (s : list Z) : option (list Z * list Z) :=
  match json_string_end s with
  | Some (content, _ :: rest) =>
      match json_unescape_string content (zlen content + 1) with
      | Some t => Some (t, rest)
      | None => None
      end
  | _ => None
  end.

Lemma encode_json_length s : zlen s <= zlen (encode json_escape_byte s).
Proof.
  induction s as [|c s IH]; [done|]. unfold encode in *. cbn [map concat]. rewrite zlen_app, zlen_cons.
  assert (1 <= zlen (json_escape_byte c)); [|lia].
  unfold json_escape_byte. repeat case_match; vm_compute; discriminate.
Qed.

Lemma read_json_escape s rest :
  c_string s -> read_json_string (encode json_escape_byte s ++ 34 :: rest) = Some (s, rest).
Proof.
  intros Hs. unfold read_json_string, json_string_end. rewrite json_end_escape by done. cbn [rev app].
  pose proof (encode_json_length s). pose proof (zlen_nonneg s).
  unfold json_unescape_string. destruct (Z.eqb_spec (zlen (encode json_escape_byte s) + 1) 0); [lia|].
  rewrite json_unescape_escape by (done || (rewrite zlen_nil; lia)). done.
Qed.

(** The request the service reads from the form body: text and languages. *)
Definition decode_rpc_body (body : list Z) : option (list Z * list Z * list Z) :=
  strip_prefix (str "f.req=") body ≫= fun encoded =>
  strip_prefix (str "[[[" ++ q ++ str "MkEWBc" ++ q ++ str "," ++ q) (url_decode encoded) ≫= fun s =>
  read_json_string s ≫= fun inner =>
  strip_prefix (str "[[" ++ q) (fst inner) ≫= fun s =>
  read_json_string s ≫= fun text =>
  strip_prefix (str "," ++ q) (snd text) ≫= fun s =>
  read_json_string s ≫= fun src =>
  strip_prefix (str "," ++ q) (snd src) ≫= fun s =>
  read_json_string s ≫= fun dst =>
  Some (fst text, fst src, fst dst).

Lemma alnum_unsigned c : is_alnum c || (c =? 45) = true -> is_unsigned 8 c /\ c <> 0.
Proof. unfold is_alnum, is_unsigned. change (2 ^ 8) with 256. lia. Qed.

Lemma lang_tag_spec lang auto : is_valid_lang_tag lang auto = true -> c_string lang /\ 0 < zlen lang <= 15.
Proof.
  unfold is_valid_lang_tag. destruct lang as [|c l]; [done|]. set (s := c :: l).
  destruct (auto && bool_decide (s = str "auto")) eqn:Ea.
  - apply andb_prop in Ea as [_ ->%bool_decide_eq_true]. intros _. split; [split; vm_decide|split; vm_compute; congruence].
  - destruct (_ || _) eqn:El; [done|]. intros Hf. apply orb_false_elim in El as [? ?]. split; [|lia].
    rewrite forallb_forall in Hf. split; apply List.Forall_forall; intros d Hd%Hf%alnum_unsigned; tauto.
Qed.

Lemma c_string_app s t : c_string (s ++ t) <-> c_string s /\ c_string t.
Proof. unfold c_string. rewrite is_bytes_app, no_nul_app. tauto. Qed.

Lemma c_string_inner et es ed :
  c_string et -> c_string es -> c_string ed -> c_string (rpc_inner et es ed).
Proof.
  intros. unfold rpc_inner. rewrite !c_string_app. split_and!; try done; split; vm_decide.
Qed.
Lemma c_string_envelope e : c_string e -> c_string (rpc_envelope e).
Proof. intros. unfold rpc_envelope. rewrite !c_string_app. split_and!; try done; split; vm_decide. Qed.

Lemma zlen_inner et es ed : zlen (rpc_inner et es ed) = 24 + zlen et + zlen es + zlen ed.
Proof. unfold rpc_inner. rewrite !zlen_app. vm_compute (zlen (str _)). vm_compute (zlen q). lia. Qed.
Lemma zlen_envelope e : zlen (rpc_envelope e) = 32 + zlen e.
Proof. unfold rpc_envelope. rewrite !zlen_app. vm_compute (zlen (str _)). vm_compute (zlen q). lia. Qed.

Lemma encode_twice_bound s :
  c_string s -> zlen (encode json_escape_byte (encode json_escape_byte s)) <= 7 * zlen s.
Proof.
  induction s as [|c s IH]; intros Hs; [done|]. apply c_string_cons in Hs as [[H1 H2] Hs].
  change (encode json_escape_byte (c :: s)) with (json_escape_byte c ++ encode json_escape_byte s).
  rewrite encode_app, zlen_app, zlen_cons. specialize (IH Hs). pose proof (json_escape_twice_len c H1 H2). lia.
Qed.

Lemma zlen_escaped_inner et es ed :
  zlen (encode json_escape_byte (rpc_inner et es ed))
  = 30 + zlen (encode json_escape_byte et) + zlen (encode json_escape_byte es) + zlen (encode json_escape_byte ed).
Proof.
  unfold rpc_inner. rewrite !encode_app, !zlen_app.
  vm_compute (zlen (encode json_escape_byte (str _))). vm_compute (zlen (encode json_escape_byte q)). lia.
Qed.

Lemma sized_some n s : zlen s < n -> sized n s = Some s.
Proof. intros. unfold sized. case_match; [done|lia]. Qed.

(** Building succeeds with the expected text. *)
Lemma build_rpc_body_some text sl tl :
  c_string text -> zlen text <= VW_TRANSLATE_MAX_TEXT_BYTES ->
  c_string sl -> zlen sl <= 15 -> c_string tl -> zlen tl <= 15 ->
  build_rpc_body text sl tl VW_TRANSLATE_RPC_BODY_BYTES
  = Some (str "f.req=" ++ encode url_encode_byte (rpc_envelope (encode json_escape_byte
      (rpc_inner (encode json_escape_byte text) (encode json_escape_byte sl) (encode json_escape_byte tl))))).
Proof.
  intros Ht Htl Hs Hsl Hd Hdl. unfold build_rpc_body, VW_TRANSLATE_RPC_JSON_BYTES, VW_TRANSLATE_RPC_BODY_BYTES,
    VW_TRANSLATE_MAX_TEXT_BYTES in *. cbn [Z.eqb].
  pose proof (encode_bound json_escape_byte 6 text json_escape_byte_len Ht) as Bt.
  pose proof (encode_bound json_escape_byte 6 sl json_escape_byte_len Hs) as Bs.
  pose proof (encode_bound json_escape_byte 6 tl json_escape_byte_len Hd) as Bd.
  pose proof (encode_twice_bound text Ht). pose proof (encode_twice_bound sl Hs). pose proof (encode_twice_bound tl Hd).
  rewrite !json_escape_spec by lia. rewrite !sized_some by lia. cbn [mbind option_bind].
  rewrite sized_some by (rewrite zlen_inner; lia). cbn [mbind option_bind].
  rewrite json_escape_spec by lia. set (inner := rpc_inner _ _ _) in *.
  assert (zlen (encode json_escape_byte inner) <= 30 + 7 * zlen text + 7 * zlen sl + 7 * zlen tl) as Bi
    by (subst inner; rewrite zlen_escaped_inner; lia).
  rewrite sized_some by lia. cbn [mbind option_bind].
  rewrite sized_some by (rewrite zlen_envelope; lia). cbn [mbind option_bind].
  assert (c_string (rpc_envelope (encode json_escape_byte inner))) as Hc.
  { apply c_string_envelope, encode_escape_cstring, c_string_inner; by apply encode_escape_cstring. }
  pose proof (encode_bound url_encode_byte 3 _ url_encode_byte_len Hc) as Bu. rewrite zlen_envelope in Bu.
  destruct (url_encode_spec (rpc_envelope (encode json_escape_byte inner)) (65536 - 16)) as [->|]; [|lia].
  rewrite sized_some by lia. cbn [mbind option_bind]. apply sized_some. rewrite zlen_app.
  vm_compute (zlen (str _)). lia.
Qed.

(** ** Responses *)

(** A GTX response: one array per segment, the translation first. *)
Definition gtx_segment (seg : list Z * list Z) : list Z :=
  str "[" ++ q ++ encode json_escape_byte (fst seg) ++ q ++ str "," ++ q
  ++ encode json_escape_byte (snd seg) ++ q ++ str ",null,null,1]".
Fixpoint gtx_segments (segs : list (list Z * list Z)) : list Z :=
  match segs with
  | [] => []
  | [seg] => gtx_segment seg
  | seg :: segs => gtx_segment seg ++ 44 :: gtx_segments segs
  end.
Definition gtx_response (segs : list (list Z * list Z)) : list Z :=
  str "[[" ++ gtx_segments segs ++ str "],null," ++ q ++ str "en" ++ q ++ str "]".

Lemma json_escape_shape c :
  is_unsigned 8 c -> c <> 0 ->
  (exists x, json_escape_byte c = [92; x])
  \/ (exists h l, json_escape_byte c = [92; 117; 48; 48; h; l] /\ h <> 34 /\ h <> 92 /\ l <> 34 /\ l <> 92)
  \/ (json_escape_byte c = [c] /\ c <> 34 /\ c <> 92).
Proof.
  intros H1 H2. unfold json_escape_byte. 
  do 7 (case_match; [left; by eexists|]). right. case_match; [left|right; split; [done|lia]].
  assert (forallb (fun c => let h := upper_hex (Z.shiftr c 4) in let l := upper_hex (Z.land c 0xF) in
    negb (h =? 34) && negb (h =? 92) && negb (l =? 34) && negb (l =? 92)) all_bytes = true) as Hall
    by (vm_compute; reflexivity).
  eapply all_bytes_spec in Hall; [|exact H1|exact H2]. cbv beta zeta in Hall.
  eexists _, _. split; [reflexivity|]. lia.
Qed.

Lemma skip_escape s d rest :
  c_string s ->
  skip_segment_array true false d (encode json_escape_byte s ++ 34 :: rest) = skip_segment_array false false d rest.
Proof.
  induction s as [|c s IH]; intros Hs; [reflexivity|]. apply c_string_cons in Hs as [[H1 H2] Hs].
  change (encode json_escape_byte (c :: s)) with (json_escape_byte c ++ encode json_escape_byte s).
  rewrite <- app_assoc, <- (IH Hs). generalize (encode json_escape_byte s ++ 34 :: rest). intros r.
  destruct (json_escape_shape c H1 H2) as [[x ->]|[(h & l & -> & ? & ? & ? & ?)|(-> & ? & ?)]];
    cbn [app skip_segment_array Z.eqb Pos.eqb]; [done| |];
    repeat match goal with |- context [?a =? ?b] => destruct (Z.eqb_spec a b); [done|] end; done.
Qed.

Lemma parse_segment_gtx t o rest :
  c_string t -> c_string o -> zlen t <= VW_TRANSLATE_MAX_TEXT_BYTES ->
  parse_segment (tail (gtx_segment (t, o)) ++ rest) = Some (t, rest).
Proof.
  intros Ht Ho Hl. unfold gtx_segment, parse_segment. cbn [fst snd].
  change (tail (str "[" ++ q ++ ?x)) with (34 :: x). 
  cbn [app skip_ws trim_start]. change (isspace 34) with false. cbv iota.
  unfold json_string_end. rewrite <- !app_assoc.
  change (q ++ ?x) with (34 :: x). rewrite json_end_escape by done. cbn [rev app].
  unfold json_unescape_string, VW_TRANSLATE_MAX_TEXT_BYTES in *. cbn [Z.eqb Z.add Pos.add Pos.succ Pos.add_carry].
  rewrite json_unescape_escape by (done || (rewrite zlen_nil; lia)).
  change (1024 + 1 =? 0) with false. cbv iota.
  change (str "," ++ q ++ encode json_escape_byte o ++ q ++ ?x)
    with (44 :: 34 :: encode json_escape_byte o ++ 34 :: x).
  cbn [skip_segment_array Z.eqb Pos.eqb]. rewrite skip_escape by done. reflexivity.
Qed.

Lemma gtx_segment_head seg : gtx_segment seg = 91 :: tail (gtx_segment seg).
Proof. reflexivity. Qed.

Definition segs_ok (segs : list (list Z * list Z)) : Prop :=
  Forall (fun seg => c_string (fst seg) /\ c_string (snd seg) /\ zlen (fst seg) <= VW_TRANSLATE_MAX_TEXT_BYTES) segs.

Lemma segments_loop_gtx segs rest n : forall fuel out,
  (length segs < fuel)%nat -> segs <> [] -> segs_ok segs ->
  zlen out + zlen (concat (map fst segs)) < n ->
  segments_loop fuel (gtx_segments segs ++ 93 :: rest) n out = Some (out ++ concat (map fst segs)).
Proof.
  induction segs as [|[t o] segs IH]; intros fuel out Hf Hne Hok Hn; [done|].
  destruct fuel as [|fuel]; [simpl in Hf; lia|]. inversion Hok as [|? ? (Ht & Ho & Hl) Hok']; subst. simpl in Ht, Ho, Hl.
  cbn [map concat fst] in *. rewrite zlen_app in Hn. pose proof (zlen_nonneg (concat (map fst segs))).
  destruct segs as [|seg segs].
  - change (gtx_segments [(t, o)]) with (gtx_segment (t, o)). rewrite gtx_segment_head.
    cbn [app segments_loop skip_ws trim_start]. change (isspace 91) with false. cbv iota.
    rewrite parse_segment_gtx by done. simpl concat. rewrite app_nil_r.
    destruct (Z.leb_spec n (zlen out + zlen t)); [lia|]. cbn [skip_ws trim_start]. change (isspace 93) with false. done.
  - change (gtx_segments ((t, o) :: seg :: segs)) with (gtx_segment (t, o) ++ 44 :: gtx_segments (seg :: segs)).
    rewrite gtx_segment_head, <- app_assoc. cbn [app segments_loop skip_ws trim_start]. change (isspace 91) with false. cbv iota.
    rewrite parse_segment_gtx by done.
    destruct (Z.leb_spec n (zlen out + zlen t)); [lia|]. cbn [app skip_ws trim_start]. change (isspace 44) with false. cbv iota.
    rewrite IH; [by rewrite app_assoc|simpl in *; lia|done|done|]. rewrite zlen_app. lia.
Qed.

Lemma gtx_segments_length segs : (length segs <= length (gtx_segments segs))%nat.
Proof.
  induction segs as [|seg segs IH]; [done|]. destruct segs as [|seg' segs]; [cbn; lia|].
  cbn [gtx_segments] in *. rewrite length_app. cbn [length]. cbn [length] in IH. lia.
Qed.

Lemma skip_ws_bracket p : skip_ws (91 :: p) = 91 :: p.
Proof. reflexivity. Qed.
(** ** Properties *)

(** For every text within the limit and all valid language tags the web RPC
    request body is built, within its buffer, and a reader of the form gets back
    exactly the text and the languages, through the URL encoding and the two
    levels of JSON escapes. *)
Theorem rpc_body_roundtrip text sl tl :
  c_string text -> zlen text <= VW_TRANSLATE_MAX_TEXT_BYTES ->
  is_valid_lang_tag sl true = true -> is_valid_lang_tag tl false = true ->
  exists body,
    build_rpc_body text sl tl VW_TRANSLATE_RPC_BODY_BYTES = Some body
    /\ decode_rpc_body body = Some (text, sl, tl).
Proof.
  intros Ht Htl [Hs ?]%lang_tag_spec [Hd ?]%lang_tag_spec. eexists.
  split; [apply build_rpc_body_some; (done || lia)|]. unfold decode_rpc_body.
  rewrite strip_prefix_app. cbn [mbind option_bind].
  set (inner := rpc_inner _ _ _).
  assert (c_string inner) as Hi by (apply c_string_inner; by apply encode_escape_cstring).
  rewrite url_decode_encode by (by apply c_string_envelope, encode_escape_cstring).
  change (rpc_envelope (encode json_escape_byte inner))
    with ((str "[[[" ++ q ++ str "MkEWBc" ++ q ++ str "," ++ q)
          ++ encode json_escape_byte inner ++ 34 :: (str ",null," ++ q ++ str "generic" ++ q ++ str "]]]")).
  rewrite strip_prefix_app. cbn [mbind option_bind]. rewrite read_json_escape by done. cbn [mbind option_bind fst].
  subst inner.
  change (rpc_inner ?et ?es ?ed)
    with ((str "[[" ++ q) ++ et ++ 34 :: ((str "," ++ q) ++ es ++ 34 :: ((str "," ++ q) ++ ed
          ++ 34 :: str ",true],[null]]"))).
  rewrite strip_prefix_app. cbn [mbind option_bind]. rewrite read_json_escape by done. cbn [mbind option_bind snd].
  rewrite strip_prefix_app. cbn [mbind option_bind]. rewrite read_json_escape by done. cbn [mbind option_bind snd].
  rewrite strip_prefix_app. cbn [mbind option_bind]. rewrite read_json_escape by done. done.
Qed.
Lemma rpc_body_roundtrip_witness :
  exists body,
    build_rpc_body (str "a" ++ q ++ [92; 10; 0xC3; 0xA9; 1] ++ str "%") (str "auto") (str "pt-BR") VW_TRANSLATE_RPC_BODY_BYTES
      = Some body
    /\ decode_rpc_body body = Some (str "a" ++ q ++ [92; 10; 0xC3; 0xA9; 1] ++ str "%", str "auto", str "pt-BR").
Proof.
  apply (rpc_body_roundtrip (str "a" ++ q ++ [92; 10; 0xC3; 0xA9; 1] ++ str "%") (str "auto") (str "pt-BR"));
    [split; vm_decide|vm_compute; congruence|reflexivity|reflexivity].
Defined.

(** The GTX parser reads back every well-formed response: whatever the
    segments hold (quotes, backslashes, control bytes, brackets, in translation
    or source), the result is the concatenation of the translations. *)
Theorem gtx_response_roundtrip segs out_size :
  segs_ok segs -> concat (map fst segs) <> [] -> zlen (concat (map fst segs)) < out_size ->
  vw_translate_parse_gtx_response (gtx_response segs) out_size = Some (concat (map fst segs)).
Proof.
  intros Hok Hne Hn. pose proof (zlen_nonneg (concat (map fst segs))).
  assert (segs <> []) as Hs by (by intros ->).
  unfold vw_translate_parse_gtx_response. destruct (Z.eqb_spec out_size 0); [lia|].
  set (rest := str ",null," ++ q ++ str "en" ++ q ++ str "]").
  change (gtx_response segs) with (91 :: 91 :: gtx_segments segs ++ 93 :: rest).
  rewrite !(skip_ws_bracket (_ :: _)). unfold parse_segments_list. rewrite !skip_ws_bracket.
  rewrite segments_loop_gtx; [|rewrite length_app; pose proof (gtx_segments_length segs); lia|done|done|rewrite zlen_nil; lia].
  cbn [app]. destruct (concat (map fst segs)) as [|c l] eqn:E; [done|]. rewrite zlen_cons. pose proof (zlen_nonneg l).
  destruct (Z.ltb_spec 0 (1 + zlen l)); [done|lia].
Qed.
Lemma gtx_response_roundtrip_witness :
  vw_translate_parse_gtx_response
    (gtx_response [(str "Il dit " ++ q ++ str "non]" ++ q, str "He said [no" ++ q); ([92; 10], [92])]) 64
  = Some (str "Il dit " ++ q ++ str "non]" ++ q ++ [92; 10]).
Proof.
  apply (gtx_response_roundtrip [(str "Il dit " ++ q ++ str "non]" ++ q, str "He said [no" ++ q); ([92; 10], [92])] 64);
    [|vm_compute; congruence|vm_compute; reflexivity].
  repeat constructor; vm_decide.
Defined.

(** The usual escaping of text in HTML. *)
Definition html_escape_byte (c : Z) : list Z :=
  if c =? 38 then str "&amp;"
  else if c =? 60 then str "&lt;"
  else if c =? 62 then str "&gt;"
  else if c =? 34 then str "&quot;"
  else if c =? 39 then str "&#39;"
  else [c].

(** An entity of the table is consumed whole. *)
Lemma html_unescape_named entity value body rest n dst dst' :
  entity = 38 :: body -> find_named (entity ++ rest) = Some (entity, value) ->
  put n dst [value] = Some dst' ->
  html_unescape_loop 0 false (entity ++ rest) n dst = html_unescape_loop 0 false rest n dst'.
Proof.
  intros -> Hf Hp. cbn [app html_unescape_loop]. cbn [Z.eqb Pos.eqb]. cbn [app] in Hf. rewrite Hf, Hp.
  cbn [length]. rewrite Nat.sub_succ, Nat.sub_0_r. clear.
  induction body as [|c body IH]; [done|]. exact IH.
Qed.

Lemma html_unescape_byte c rest n dst :
  zlen dst + 1 < n ->
  html_unescape_loop 0 false (html_escape_byte c ++ rest) n dst = html_unescape_loop 0 false rest n (dst ++ [c]).
Proof.
  intros Hn. assert (put n dst [c] = Some (dst ++ [c])) as Hp.
  { unfold put. change (zlen [c]) with 1. case_match; [lia|done]. }
  unfold html_escape_byte.
  destruct (Z.eqb_spec c 38) as [->|].
  { by apply (html_unescape_named (str "&amp;") 38 (tail (str "&amp;"))). }
  destruct (Z.eqb_spec c 60) as [->|].
  { by apply (html_unescape_named (str "&lt;") 60 (tail (str "&lt;"))). }
  destruct (Z.eqb_spec c 62) as [->|].
  { by apply (html_unescape_named (str "&gt;") 62 (tail (str "&gt;"))). }
  destruct (Z.eqb_spec c 34) as [->|].
  { by apply (html_unescape_named (str "&quot;") 34 (tail (str "&quot;"))). }
  destruct (Z.eqb_spec c 39) as [->|].
  { by apply (html_unescape_named (str "&#39;") 39 (tail (str "&#39;"))). }
  cbn [app html_unescape_loop]. destruct (Z.eqb_spec c 60); [done|]. destruct (Z.eqb_spec c 62); [done|].
  destruct (Z.eqb_spec c 38); [done|]. by rewrite Hp.
Qed.

(** HTML unescaping inverts escaping: text in which the special characters are
    written as entities is read back unchanged whenever it fits. *)
Theorem html_unescape_roundtrip s n :
  zlen s < n -> vw_html_unescape (encode html_escape_byte s) n = Some s.
Proof.
  intros Hn. pose proof (zlen_nonneg s). unfold vw_html_unescape. destruct (Z.eqb_spec n 0); [lia|].
  assert (forall dst, zlen dst + zlen s < n ->
    html_unescape_loop 0 false (encode html_escape_byte s) n dst = Some (dst ++ s)) as H'.
  { clear. induction s as [|c s IH]; intros dst Hn; [by rewrite app_nil_r|].
    rewrite zlen_cons in Hn. pose proof (zlen_nonneg s).
    change (encode html_escape_byte (c :: s)) with (html_escape_byte c ++ encode html_escape_byte s).
    rewrite html_unescape_byte by lia. rewrite IH; [by rewrite <- app_assoc|].
    rewrite zlen_app. change (zlen [c]) with 1. lia. }
  apply (H' []). rewrite zlen_nil. lia.
Qed.
Lemma html_unescape_roundtrip_witness :
  vw_html_unescape (encode html_escape_byte (str "a<b & 'c'>d" ++ q)) 32 = Some (str "a<b & 'c'>d" ++ q).
Proof. apply (html_unescape_roundtrip (str "a<b & 'c'>d" ++ q) 32). vm_compute. reflexivity. Defined.
