(* ===== verification/TranslateTiers.v ===== *)
(** * Translation: the fallback tiers

    [vw_translate_text_detailed] of [src/worker/src/vw_translate.c]: three
    services tried in order within one deadline. The HTTP transfer (curl or
    WinHTTP) is a parameter; the monotonic clock is the sequence of its readings,
    the [n]-th reading of a call being [now n]. *)

From S2P Require Import Prelude.
From S2P Require Import CString.
From S2P Require Import TranslateText.

Definition VW_TRANSLATE_TIMEOUT_MS : Z := 800.

Definition VW_TRANSLATE_TIER_NONE : Z := 0.
Definition VW_TRANSLATE_TIER_WEB_RPC : Z := 1.
Definition VW_TRANSLATE_TIER_GTX : Z := 2.
Definition VW_TRANSLATE_TIER_MOBILE_SCRAPE : Z := 3.

Definition VW_TRANSLATE_FAILURE_NONE : Z := 0.
Definition VW_TRANSLATE_FAILURE_PROVIDER : Z := 1.
Definition VW_TRANSLATE_FAILURE_TRANSPORT : Z := 2.
Definition VW_TRANSLATE_FAILURE_PARSE : Z := 3.
Definition VW_TRANSLATE_FAILURE_DEADLINE : Z := 4.
Definition VW_TRANSLATE_FAILURE_LOCAL : Z := 5.

Record vw_translate_failure_t := mk_failure {
  fl_cause : Z;             (* uint8_t *)
  fl_terminal_tier : Z;
  fl_attempted_tiers : Z;
  fl_provider_status : Z    (* uint16_t *)
}.
Definition no_failure : vw_translate_failure_t := mk_failure 0 0 0 0.

(** ** Clock arithmetic *)

Definition UINT32_MAX : Z := 2 ^ 32 - 1.

Definition elapsed_to_u32 (now started_us : Z) : Z :=
  let elapsed := now - started_us in
  if elapsed <=? 0 then 0 else if UINT32_MAX <? elapsed then UINT32_MAX else elapsed.

Definition remaining_timeout_ms (now deadline_us : Z) : Z :=
  let remaining_us := deadline_us - now in
  if remaining_us <=? 0 then 0
  else
    let rounded_ms := (remaining_us + 999) / 1000 in
    if UINT32_MAX <? rounded_ms then UINT32_MAX
    else if rounded_ms =? 0 then 1 else rounded_ms.

(** ** HTTP *)

Inductive http_result :=
  | HttpOk (response : list Z)
  | HttpFail (cause provider_status : Z).

Record http_call := mk_call {
  call_host : list Z;
  call_path : list Z;
  call_body : option (list Z);
  call_query_text : option (list Z);
  call_content_type : option (list Z)
}.

(** A platform transfer of a full URL. *)
Definition transfer := list Z -> http_call -> http_result.

Definition https : list Z := str "https:/" ++ [47].

Definition http_request (posix_http_request : transfer) (now : nat -> Z) (n : nat) (deadline_us : Z)
    (call : http_call) : http_result :=
  if remaining_timeout_ms (now n) deadline_us =? 0 then HttpFail VW_TRANSLATE_FAILURE_DEADLINE 0
  else match sized VW_TRANSLATE_MAX_URL_BYTES (https ++ call_host call ++ call_path call) with
  | None => HttpFail VW_TRANSLATE_FAILURE_LOCAL 0
  | Some full_url => posix_http_request full_url call
  end.

(** ** The tiers *)

Definition rpc_path : list Z :=
  str "/_/TranslateWebserverUi/data/batchexecute?rpcids=MkEWBc&bl=boq_translate-webserver_20221005.09_p0&soc-app=1&soc-platform=1&soc-device=1&rt=c".

Definition rpc_call (text sl tl : list Z) : option http_call :=
  match build_rpc_body text sl tl VW_TRANSLATE_RPC_BODY_BYTES with
  | None => None
  | Some body =>
      Some (mk_call (str "translate.google.com") rpc_path (Some body) None
              (Some (str "application/x-www-form-urlencoded;charset=UTF-8")))
  end.

Definition gtx_call (text enc_sl enc_tl : list Z) : option http_call :=
  match sized VW_TRANSLATE_MAX_URL_BYTES
          (str "/translate_a/single?client=gtx&sl=" ++ enc_sl ++ str "&tl=" ++ enc_tl ++ str "&dt=t") with
  | None => None
  | Some path => Some (mk_call (str "translate.googleapis.com") path None (Some text) None)
  end.

Definition mobile_call (text enc_sl enc_tl : list Z) : option http_call :=
  match sized VW_TRANSLATE_MAX_URL_BYTES (str "/m?sl=" ++ enc_sl ++ str "&tl=" ++ enc_tl) with
  | None => None
  | Some path => Some (mk_call (str "translate.google.com") path None (Some text) None)
  end.

(** The outcome of one tier: the translation, or why it failed. *)
Inductive tier_outcome :=
  | TierText (text : list Z)
  | TierFail (cause provider_status : Z).

Section translate.
Context (posix_http_request : transfer) (now : nat -> Z).

(** One tier from clock reading [n]; the next reading is returned. *)
Definition run_tier (n : nat) (deadline_us : Z) (call : option http_call)
    (parse : list Z -> option (list Z)) : tier_outcome * nat :=
  match call with
  | None => (TierFail VW_TRANSLATE_FAILURE_LOCAL 0, n)
  | Some call =>
      match http_request posix_http_request now n deadline_us call with
      | HttpFail cause status => (TierFail cause status, S n)
      | HttpOk response =>
          if deadline_us <? now (S n) then (TierFail VW_TRANSLATE_FAILURE_DEADLINE 0, S (S n))
          else match parse response with
          | None => (TierFail VW_TRANSLATE_FAILURE_PARSE 0, S (S n))
          | Some text =>
              if deadline_us <? now (S (S n))
              then (TierFail VW_TRANSLATE_FAILURE_DEADLINE 0, S (S (S n)))
              else (TierText text, S (S (S n)))
          end
      end
  end.

(** Whether a failed tier ends the call: the deadline passed. *)
Definition out_of_time (n : nat) (deadline_us cause : Z) : bool :=
  (cause =? VW_TRANSLATE_FAILURE_DEADLINE) || (remaining_timeout_ms (now n) deadline_us =? 0).

(** The loop over the tiers the code unrolls: each entry is the tier, its request
    and its parser; [attempted] is the mask so far. A failure of the last tier
    keeps its own cause. *)
Fixpoint run_tiers (n : nat) (deadline_us attempted : Z)
    (tiers : list (Z * option http_call * (list Z -> option (list Z))))
  : (Z * list Z) + vw_translate_failure_t :=
  match tiers with
  | [] => inr no_failure
  | (tier, call, parse) :: tiers =>
      let attempted := Z.lor attempted (Z.shiftl 1 (tier - 1)) in
      match run_tier n deadline_us call parse with
      | (TierText text, _) => inl (tier, text)
      | (TierFail cause status, n) =>
          match tiers with
          | [] => inr (mk_failure cause tier attempted status)
          | _ =>
              if out_of_time n deadline_us cause
              then inr (mk_failure VW_TRANSLATE_FAILURE_DEADLINE tier attempted status)
              else run_tiers (S n) deadline_us attempted tiers
          end
      end
  end.

Record translation := mk_translation {
  tr_ok : bool;
  tr_text : list Z;
  tr_tier : Z;
  tr_failure : vw_translate_failure_t
}.

Definition translate_failed (f : vw_translate_failure_t) : translation :=
  mk_translation false [] VW_TRANSLATE_TIER_NONE f.

Definition source_tag (src_lang : option (list Z)) : list Z :=
  match src_lang with
  | Some l => if is_valid_lang_tag l true then l else str "auto"
  | None => str "auto"
  end.
Definition target_tag (dst_lang : option (list Z)) : list Z :=
  match dst_lang with
  | Some l => if is_valid_lang_tag l false then l else str "en"
  | None => str "en"
  end.

Definition translate_tiers (text sl tl enc_sl enc_tl : list Z) (out_size : Z)
  : list (Z * option http_call * (list Z -> option (list Z))) :=
  [(VW_TRANSLATE_TIER_WEB_RPC, rpc_call text sl tl,
     fun response => vw_translate_parse_rpc_response response out_size);
   (VW_TRANSLATE_TIER_GTX, gtx_call text enc_sl enc_tl,
     fun response => vw_translate_parse_gtx_response response out_size);
   (VW_TRANSLATE_TIER_MOBILE_SCRAPE, mobile_call text enc_sl enc_tl,
     fun response => vw_translate_parse_mobile_response response out_size)].

(** [text] is NULL or a C string. The latency is [elapsed_to_u32] of a last
    clock reading and is left to the caller of the model. *)
Definition vw_translate_text_detailed (text src_lang dst_lang : option (list Z)) (out_size : Z)
  : translation :=
  match text with
  | None => translate_failed (mk_failure VW_TRANSLATE_FAILURE_LOCAL VW_TRANSLATE_TIER_NONE 0 0)
  | Some text =>
      if out_size =? 0
      then translate_failed (mk_failure VW_TRANSLATE_FAILURE_LOCAL VW_TRANSLATE_TIER_NONE 0 0)
      else if zlen text =? 0 then mk_translation true [] VW_TRANSLATE_TIER_NONE no_failure
      else if VW_TRANSLATE_MAX_TEXT_BYTES <? zlen text
      then translate_failed (mk_failure VW_TRANSLATE_FAILURE_LOCAL VW_TRANSLATE_TIER_NONE 0 0)
      else
        let sl := source_tag src_lang in
        let tl := target_tag dst_lang in
        let deadline_us := now 0%nat + VW_TRANSLATE_TIMEOUT_MS * 1000 in
        match vw_url_encode sl 32, vw_url_encode tl 32 with
        | Some enc_sl, Some enc_tl =>
            match run_tiers 1 deadline_us 0 (translate_tiers text sl tl enc_sl enc_tl out_size) with
            | inl (tier, text) => mk_translation true text tier no_failure
            | inr f => translate_failed f
            end
        | _, _ => translate_failed (mk_failure VW_TRANSLATE_FAILURE_LOCAL 0 0 0)
        end
  end.

Definition vw_translate_text (text src_lang dst_lang : option (list Z)) (out_size : Z)
  : bool * list Z * Z :=
  let t := vw_translate_text_detailed text src_lang dst_lang out_size in
  (tr_ok t, tr_text t, tr_tier t).
End translate.

(** ** Properties *)

Lemma tag_encode lang auto :
  is_valid_lang_tag lang auto = true -> vw_url_encode lang 32 = Some lang.
Proof.
  intros Hv. pose proof (lang_tag_spec lang auto Hv) as [_ Hl].
  destruct (url_encode_spec lang 32) as [->|]; [|lia].
  assert (encode url_encode_byte lang = lang) as ->; [|apply sized_some; lia].
  unfold is_valid_lang_tag in Hv. destruct lang as [|c l]; [done|]. set (s := c :: l) in *.
  destruct (auto && bool_decide (s = str "auto")) eqn:Ea.
  - apply andb_prop in Ea as [_ ->%bool_decide_eq_true]. reflexivity.
  - destruct (_ || _); [done|]. clearbody s. clear -Hv. induction s as [|d s IH]; [done|].
    cbn [forallb] in Hv. apply andb_prop in Hv as [Hd Hs].
    unfold encode in *. cbn [map concat]. rewrite IH by done.
    unfold url_encode_byte, url_unreserved. apply orb_prop in Hd as [-> | ->]; [done|].
    by rewrite orb_true_r.
Qed.

Lemma source_tag_valid src : is_valid_lang_tag (source_tag src) true = true.
Proof. unfold source_tag. destruct src as [l|]; [case_match|]; done. Qed.
Lemma target_tag_valid dst : is_valid_lang_tag (target_tag dst) false = true.
Proof. unfold target_tag. destruct dst as [l|]; [case_match|]; done. Qed.

Section tiers.
Context (http : transfer) (now : nat -> Z).

Lemma run_tier_text n d call parse x m :
  run_tier http now n d call parse = (TierText x, m) ->
  exists response k, parse response = Some x /\ now k <= d.
Proof.
  unfold run_tier. destruct call as [call|]; [|done].
  destruct (http_request http now n d call) as [response|]; [|done].
  destruct (Z.ltb_spec d (now (S n))); [done|]. destruct (parse response) as [y|] eqn:Ep; [|done].
  destruct (Z.ltb_spec d (now (S (S n)))); [done|]. intros [= -> _]. by exists response, (S (S n)).
Qed.

(** The parser of each tier. *)
Definition tier_parse (tier : Z) (response : list Z) (out_size : Z) : option (list Z) :=
  if tier =? VW_TRANSLATE_TIER_WEB_RPC then vw_translate_parse_rpc_response response out_size
  else if tier =? VW_TRANSLATE_TIER_GTX then vw_translate_parse_gtx_response response out_size
  else vw_translate_parse_mobile_response response out_size.

(** What the caller may rely on. *)
Definition translation_ok (deadline_us out_size : Z) (t : translation) : Prop :=
  if tr_ok t then
    tr_failure t = no_failure /\ 1 <= tr_tier t <= 3
    /\ (exists response, tier_parse (tr_tier t) response out_size = Some (tr_text t))
    /\ (exists k, now k <= deadline_us)
  else
    tr_text t = [] /\ tr_tier t = VW_TRANSLATE_TIER_NONE
    /\ In (fl_attempted_tiers (tr_failure t), fl_terminal_tier (tr_failure t)) [(1, 1); (3, 2); (7, 3)].

Lemma run_tiers_ok d text sl tl e1 e2 out_size :
  translation_ok d out_size
    (match run_tiers http now 1 d 0 (translate_tiers text sl tl e1 e2 out_size) with
     | inl (tier, text) => mk_translation true text tier no_failure
     | inr f => translate_failed f
     end).
Proof.
  unfold translate_tiers. cbn [run_tiers].
  destruct (run_tier http now 1 d (rpc_call text sl tl) _) as [[x|c s] n1] eqn:E1.
  { apply run_tier_text in E1 as (r & k & ? & ?). unfold translation_ok. cbn. split_and!; try done; eauto. }
  destruct (out_of_time now n1 d c); [cbn; by intuition|].
  destruct (run_tier http now (S n1) d (gtx_call text e1 e2) _) as [[x|c' s'] n2] eqn:E2.
  { apply run_tier_text in E2 as (r & k & ? & ?). unfold translation_ok. cbn. split_and!; try done; eauto. }
  destruct (out_of_time now n2 d c'); [cbn; by intuition|].
  destruct (run_tier http now (S n2) d (mobile_call text e1 e2) _) as [[x|c'' s''] n3] eqn:E3.
  { apply run_tier_text in E3 as (r & k & ? & ?). unfold translation_ok. cbn. split_and!; try done; eauto. }
  cbn. by intuition.
Qed.

(** Translation tries the services in order within one deadline and reports
    consistently: a success carries the text one tier's parser produced, that
    tier and no failure, and was seen before the deadline; a failure carries no
    text, the tiers tried are a prefix of the three, and the terminal tier is the
    last one tried. The language tags always encode. *)
Theorem translate_detailed_consistent text src dst out_size :
  0 < out_size -> 0 < zlen text <= VW_TRANSLATE_MAX_TEXT_BYTES ->
  translation_ok (now 0%nat + VW_TRANSLATE_TIMEOUT_MS * 1000) out_size
    (vw_translate_text_detailed http now (Some text) src dst out_size).
Proof.
  intros Ho Ht. unfold vw_translate_text_detailed.
  destruct (Z.eqb_spec out_size 0); [lia|]. destruct (Z.eqb_spec (zlen text) 0); [lia|].
  destruct (Z.ltb_spec VW_TRANSLATE_MAX_TEXT_BYTES (zlen text)); [lia|].
  rewrite (tag_encode _ _ (source_tag_valid src)), (tag_encode _ _ (target_tag_valid dst)).
  apply run_tiers_ok.
Qed.
End tiers.

(** The first service fails, the second answers. *)
Definition second_tier : transfer := fun url call =>
  match call_query_text call with
  | Some text => HttpOk (gtx_response [(str "Bonjour", text)])
  | None => HttpFail VW_TRANSLATE_FAILURE_PROVIDER 429
  end.
Lemma translate_detailed_consistent_witness :
  tr_tier (vw_translate_text_detailed second_tier (fun n => Z.of_nat n * 1000) (Some (str "Hello")) None (Some (str "fr")) 64)
  = VW_TRANSLATE_TIER_GTX
  /\ translation_ok (fun n => Z.of_nat n * 1000) (0 + VW_TRANSLATE_TIMEOUT_MS * 1000) 64
       (vw_translate_text_detailed second_tier (fun n => Z.of_nat n * 1000) (Some (str "Hello")) None (Some (str "fr")) 64).
Proof.
  split; [vm_compute; reflexivity|].
  apply (translate_detailed_consistent second_tier (fun n => Z.of_nat n * 1000) (str "Hello") None (Some (str "fr")) 64);
    [lia|split; vm_compute; congruence].
Defined.
