(* ===== verification/TranslateAsync.v ===== *)
(** * The asynchronous translator

    [src/worker/src/vw_translate_async.c]: finished captions go through a bounded
    job ring to background threads that translate them, and come back in
    submission order through a completion ring. Each locked region is one atomic
    step; a thread's job between its two locked regions is thread-local. *)

From stdpp Require Import relations.
From S2P Require Import Prelude.
From S2P Require Import Ring.
From S2P Require Import CString.
From S2P Require Import ProtocolTypes.
From S2P Require Import TranslateText.
From S2P Require Import TranslateTiers.
#[local] Open Scope Z_scope.

Definition VW_TRANSLATE_ASYNC_ACTIVE_BUDGET : Z := 4.
Definition VW_TRANSLATE_ASYNC_QUEUE_CAPACITY : Z := 32.
Definition VW_TRANSLATE_ASYNC_RESULT_CAPACITY : Z := VW_TRANSLATE_ASYNC_QUEUE_CAPACITY + 2.

(** Text buffers hold the C strings they are given; [job_segment] is the caption
    with its text pointer rebound to [job_source_text]. *)
Record vw_translate_job_t := mk_job {
  job_epoch : Z;
  job_ordinal : Z;
  job_segment : vw_caption_segment_t;
  job_source_text : list Z;
  job_source_lang : list Z;
  job_target_lang : list Z;
  job_skip_translation : bool
}.

Record vw_translate_async_result_t := mk_result {
  ar_epoch : Z;
  ar_segment : vw_caption_segment_t;
  ar_source_text : list Z;
  ar_translated_text : list Z;
  ar_failure : vw_translate_failure_t;
  ar_attempted : bool;
  ar_success : bool
}.

Record vw_translate_async_completion_t := mk_completion {
  cp_ordinal : Z;
  cp_result : vw_translate_async_result_t
}.

Record vw_translate_async := mk_async {
  ta_stopping : bool;
  ta_epoch : Z;
  ta_next_submit_ordinal : Z;
  ta_next_result_ordinal : Z;
  ta_jobs : list vw_translate_job_t;                    (* [32] *)
  ta_job_head : Z;
  ta_job_tail : Z;
  ta_job_count : Z;
  ta_inflight_count : Z;
  ta_active_translation_count : Z;
  ta_results : list vw_translate_async_completion_t;    (* [34] *)
  ta_result_head : Z;
  ta_result_tail : Z;
  ta_result_count : Z
}.

Definition empty_segment : vw_caption_segment_t :=
  mk_segment (zreplicate 16 0) 0 0 0 0 None 0 None 0 false 0 0.
Definition no_job : vw_translate_job_t := mk_job 0 0 empty_segment [] [] [] false.
Definition no_result : vw_translate_async_result_t :=
  mk_result 0 empty_segment [] [] no_failure false false.
Definition no_completion : vw_translate_async_completion_t := mk_completion 0 no_result.

Definition vw_translate_async_create : vw_translate_async :=
  mk_async false 1 1 1 (zreplicate VW_TRANSLATE_ASYNC_QUEUE_CAPACITY no_job) 0 0 0 0 0
    (zreplicate VW_TRANSLATE_ASYNC_RESULT_CAPACITY no_completion) 0 0 0.

Definition vw_translate_async_next_ordinal (ordinal : Z) : Z :=
  if ordinal =? UINT64_MAX then 1 else ordinal + 1.

(** Field updates the operations share. *)
Definition set_jobs (a : vw_translate_async) jobs head tail count : vw_translate_async :=
  mk_async (ta_stopping a) (ta_epoch a) (ta_next_submit_ordinal a) (ta_next_result_ordinal a)
    jobs head tail count (ta_inflight_count a) (ta_active_translation_count a)
    (ta_results a) (ta_result_head a) (ta_result_tail a) (ta_result_count a).
Definition set_results (a : vw_translate_async) results head count next : vw_translate_async :=
  mk_async (ta_stopping a) (ta_epoch a) (ta_next_submit_ordinal a) next
    (ta_jobs a) (ta_job_head a) (ta_job_tail a) (ta_job_count a) (ta_inflight_count a)
    (ta_active_translation_count a) results head (ta_result_tail a) count.
Definition set_counts (a : vw_translate_async) inflight active : vw_translate_async :=
  mk_async (ta_stopping a) (ta_epoch a) (ta_next_submit_ordinal a) (ta_next_result_ordinal a)
    (ta_jobs a) (ta_job_head a) (ta_job_tail a) (ta_job_count a) inflight active
    (ta_results a) (ta_result_head a) (ta_result_tail a) (ta_result_count a).

Definition vw_translate_async_push_result_locked (a : vw_translate_async) (ordinal : Z)
    (result : vw_translate_async_result_t) : vw_translate_async :=
  if VW_TRANSLATE_ASYNC_RESULT_CAPACITY <=? ta_result_count a then a
  else set_results a (set_slot (ta_results a) (ta_result_head a) (mk_completion ordinal result))
         ((ta_result_head a + 1) mod VW_TRANSLATE_ASYNC_RESULT_CAPACITY) (ta_result_count a + 1)
         (ta_next_result_ordinal a).

(** The search from [index]; [n] completions are left. *)
Fixpoint find_result_loop (a : vw_translate_async) (index : Z) (n : nat) : option Z :=
  match n with
  | O => None
  | S n =>
      if cp_ordinal (slot no_completion (ta_results a) index) =? ta_next_result_ordinal a then Some index
      else find_result_loop a ((index + 1) mod VW_TRANSLATE_ASYNC_RESULT_CAPACITY) n
  end.
Definition vw_translate_async_find_next_result_locked (a : vw_translate_async) : option Z :=
  find_result_loop a (ta_result_tail a) (Z.to_nat (ta_result_count a)).

(** The [while] loop that closes the gap; it stops at [head] after fewer than
    [capacity] iterations, the fuel. *)
Fixpoint close_gap (fuel : nat) (results : list vw_translate_async_completion_t)
    (move_index next_index head : Z) : list vw_translate_async_completion_t :=
  match fuel with
  | O => results
  | S fuel =>
      if next_index =? head then results
      else close_gap fuel (set_slot results move_index (slot no_completion results next_index))
             next_index ((next_index + 1) mod VW_TRANSLATE_ASYNC_RESULT_CAPACITY) head
  end.

Definition vw_translate_async_remove_result_locked (a : vw_translate_async) (completion_index : Z)
  : vw_translate_async :=
  let cap := VW_TRANSLATE_ASYNC_RESULT_CAPACITY in
  set_results a
    (close_gap (Z.to_nat cap) (ta_results a) completion_index ((completion_index + 1) mod cap)
       (ta_result_head a))
    ((ta_result_head a + cap - 1) mod cap) (ta_result_count a - 1)
    (vw_translate_async_next_ordinal (ta_next_result_ordinal a)).

(** The caption as delivered: its text, and the translation when there is one. *)
Definition segment_with (s : vw_caption_segment_t) (text : list Z) (translated : option (list Z))
    (translated_bytes : Z) (attempted : bool) (latency tier : Z) : vw_caption_segment_t :=
  mk_segment (seg_session_id s) (seg_segment_id s) (seg_start_pts_us s) (seg_end_pts_us s)
    (seg_is_final s) (Some text) (seg_text_bytes s) translated translated_bytes attempted latency tier.

Definition vw_translate_async_bind_result_text (r : vw_translate_async_result_t)
  : vw_translate_async_result_t :=
  let s := ar_segment r in
  let s :=
    if ar_success r && (0 <? zlen (ar_translated_text r))
    then segment_with s (ar_source_text r) (Some (ar_translated_text r))
           (u16 (zlen (ar_translated_text r))) (ar_attempted r) (seg_translation_latency_us s)
           (seg_translation_tier s)
    else segment_with s (ar_source_text r) None 0 (ar_attempted r) (seg_translation_latency_us s)
           VW_TRANSLATE_TIER_NONE in
  mk_result (ar_epoch r) s (ar_source_text r) (ar_translated_text r) (ar_failure r)
    (ar_attempted r) (ar_success r).

Definition local_failure : vw_translate_failure_t := mk_failure VW_TRANSLATE_FAILURE_LOCAL 0 0 0.

(** ** The background threads *)

(** The first locked region: take the oldest job. *)
Definition async_take (a : vw_translate_async) : option (vw_translate_job_t * vw_translate_async) :=
  if ta_job_count a =? 0 then None
  else
    let job := slot no_job (ta_jobs a) (ta_job_tail a) in
    let a' := set_jobs a (ta_jobs a) (ta_job_head a)
                ((ta_job_tail a + 1) mod VW_TRANSLATE_ASYNC_QUEUE_CAPACITY) (ta_job_count a - 1) in
    Some (job, set_counts a' (ta_inflight_count a + 1) (ta_active_translation_count a)).

(** The work between the regions: [t] is what [vw_translate_text_detailed]
    answered and [latency_us] how long it took; a skipped job does not call it. *)
Definition async_result (job : vw_translate_job_t) (t : translation) (latency_us : Z)
  : vw_translate_async_result_t :=
  let s := job_segment job in
  vw_translate_async_bind_result_text
    (if job_skip_translation job then
       mk_result (job_epoch job)
         (segment_with s (job_source_text job) None 0 (seg_translation_attempted s) 0 VW_TRANSLATE_TIER_NONE)
         (job_source_text job) [] local_failure true false
     else
       mk_result (job_epoch job)
         (segment_with s (job_source_text job) None 0 (seg_translation_attempted s) latency_us
            (if tr_ok t then tr_tier t else VW_TRANSLATE_TIER_NONE))
         (job_source_text job) (tr_text t) (tr_failure t) true (tr_ok t)).

(** The second locked region. *)
Definition async_complete (a : vw_translate_async) (job : vw_translate_job_t)
    (result : vw_translate_async_result_t) : vw_translate_async :=
  let active :=
    if negb (job_skip_translation job) && (job_epoch job =? ta_epoch a)
       && (0 <? ta_active_translation_count a)
    then ta_active_translation_count a - 1 else ta_active_translation_count a in
  let a := set_counts a (ta_inflight_count a) active in
  let a := if negb (ta_stopping a) && (ar_epoch result =? ta_epoch a)
           then vw_translate_async_push_result_locked a (job_ordinal job) result else a in
  set_counts a (ta_inflight_count a - 1) (ta_active_translation_count a).

(** ** The worker's side *)

Definition vw_translate_async_invalidate (a : vw_translate_async) : vw_translate_async :=
  mk_async (ta_stopping a) (vw_translate_async_next_ordinal (ta_epoch a)) 1 1
    (ta_jobs a) 0 0 0 (ta_inflight_count a) 0 (ta_results a) 0 0 0.

(** The locked region of [vw_translate_async_destroy]; the threads are joined after it. *)
Definition vw_translate_async_stop (a : vw_translate_async) : vw_translate_async :=
  mk_async true (ta_epoch a) (ta_next_submit_ordinal a) (ta_next_result_ordinal a)
    (ta_jobs a) 0 0 0 (ta_inflight_count a) 0 (ta_results a) 0 0 0.

(** A full queue completes its oldest job as source text. *)
Definition evicted_result (job : vw_translate_job_t) : vw_translate_async_result_t :=
  let s := job_segment job in
  vw_translate_async_bind_result_text
    (mk_result (job_epoch job)
       (segment_with s (job_source_text job) (seg_translated_text_utf8 s) (seg_translated_text_bytes s)
          (seg_translation_attempted s) (seg_translation_latency_us s) (seg_translation_tier s))
       (job_source_text job) [] local_failure true false).

Definition submit_evict (a : vw_translate_async) : vw_translate_async :=
  if VW_TRANSLATE_ASYNC_QUEUE_CAPACITY <=? ta_job_count a then
    let oldest := slot no_job (ta_jobs a) (ta_job_tail a) in
    let a := set_jobs a (ta_jobs a) (ta_job_head a)
               ((ta_job_tail a + 1) mod VW_TRANSLATE_ASYNC_QUEUE_CAPACITY) (ta_job_count a - 1) in
    let a := set_counts a (ta_inflight_count a)
               (if negb (job_skip_translation oldest) && (0 <? ta_active_translation_count a)
                then ta_active_translation_count a - 1 else ta_active_translation_count a) in
    vw_translate_async_push_result_locked a (job_ordinal oldest) (evicted_result oldest)
  else a.

(** [snprintf] into the 16-byte language buffers. *)
Definition lang_or (lang : option (list Z)) (dflt : list Z) : list Z :=
  ztake 15 (match lang with Some ((_ :: _) as l) => l | _ => dflt end).

Definition submit_job (a : vw_translate_async) (segment : vw_caption_segment_t) (text : list Z)
    (source_lang target_lang : option (list Z)) (skip : bool) : vw_translate_job_t :=
  mk_job (ta_epoch a) (ta_next_submit_ordinal a)
    (mk_segment (seg_session_id segment) (seg_segment_id segment) (seg_start_pts_us segment)
       (seg_end_pts_us segment) (seg_is_final segment) (Some text) (u16 (zlen text)) None 0
       (seg_translation_attempted segment) (seg_translation_latency_us segment)
       (seg_translation_tier segment))
    text (lang_or source_lang (str "auto")) (lang_or target_lang (str "en")) skip.

Definition submit_enqueue (a : vw_translate_async) (job : vw_translate_job_t) : vw_translate_async :=
  let a := set_jobs a (set_slot (ta_jobs a) (ta_job_head a) job)
             ((ta_job_head a + 1) mod VW_TRANSLATE_ASYNC_QUEUE_CAPACITY) (ta_job_tail a)
             (ta_job_count a + 1) in
  mk_async (ta_stopping a) (ta_epoch a) (vw_translate_async_next_ordinal (ta_next_submit_ordinal a))
    (ta_next_result_ordinal a) (ta_jobs a) (ta_job_head a) (ta_job_tail a) (ta_job_count a)
    (ta_inflight_count a)
    (if job_skip_translation job then ta_active_translation_count a
     else ta_active_translation_count a + 1)
    (ta_results a) (ta_result_head a) (ta_result_tail a) (ta_result_count a).

Definition vw_translate_async_submit (a : vw_translate_async) (segment : vw_caption_segment_t)
    (source_lang target_lang : option (list Z)) : bool * vw_translate_async :=
  match seg_text_utf8 segment with
  | None => (false, a)
  | Some text =>
      if (zlen text =? 0) || (VW_MAX_TEXT_BYTES <? zlen text) then (false, a)
      else if ta_stopping a then (false, a)
      else if VW_TRANSLATE_ASYNC_RESULT_CAPACITY
              <=? ta_job_count a + ta_inflight_count a + ta_result_count a then (false, a)
      else
        let skip := VW_TRANSLATE_ASYNC_ACTIVE_BUDGET <=? ta_active_translation_count a in
        let a := submit_evict a in
        (true, submit_enqueue a (submit_job a segment text source_lang target_lang skip))
  end.

Definition vw_translate_async_has_result (a : vw_translate_async) : bool :=
  match vw_translate_async_find_next_result_locked a with Some _ => true | None => false end.

Definition vw_translate_async_has_pending (a : vw_translate_async) : bool :=
  negb (ta_job_count a =? 0) || negb (ta_inflight_count a =? 0) || negb (ta_result_count a =? 0).

Definition vw_translate_async_try_pop (a : vw_translate_async)
  : option vw_translate_async_result_t * vw_translate_async :=
  if ta_result_count a =? 0 then (None, a)
  else match vw_translate_async_find_next_result_locked a with
  | None => (None, a)
  | Some i =>
      (Some (vw_translate_async_bind_result_text (cp_result (slot no_completion (ta_results a) i))),
       vw_translate_async_remove_result_locked a i)
  end.

(** The delivered result, if any; the delivery itself runs without the lock. *)
Definition vw_translate_async_try_deliver (a : vw_translate_async)
  : option vw_translate_async_result_t * vw_translate_async :=
  match vw_translate_async_find_next_result_locked a with
  | None => (None, a)
  | Some i =>
      let result := cp_result (slot no_completion (ta_results a) i) in
      let a' := vw_translate_async_remove_result_locked a i in
      if negb (ar_epoch result =? ta_epoch a) then (None, a')
      else (Some (vw_translate_async_bind_result_text result), a')
  end.

(** ** The system: the translator, its threads and what the worker saw *)

(** The jobs the threads are working on, and the texts accepted and delivered in
    this epoch. *)
Record ta_sys := mk_ta_sys {
  ts_async : vw_translate_async;
  ts_inflight : list vw_translate_job_t;
  ts_accepted : list (list Z);
  ts_delivered : list (list Z)
}.

Inductive ta_step : ta_sys -> ta_sys -> Prop :=
  | ta_submits a infl acc del seg text sl tl a' :
      seg_text_utf8 seg = Some text -> vw_translate_async_submit a seg sl tl = (true, a') ->
      ta_step (mk_ta_sys a infl acc del) (mk_ta_sys a' infl (acc ++ [text]) del)
  | ta_rejects a infl acc del seg sl tl a' :
      vw_translate_async_submit a seg sl tl = (false, a') ->
      ta_step (mk_ta_sys a infl acc del) (mk_ta_sys a' infl acc del)
  | ta_takes a infl acc del job a' :
      zlen infl < VW_TRANSLATE_ASYNC_ACTIVE_BUDGET -> async_take a = Some (job, a') ->
      ta_step (mk_ta_sys a infl acc del) (mk_ta_sys a' (infl ++ [job]) acc del)
  | ta_completes a infl acc del k job t latency :
      infl !! k = Some job ->
      ta_step (mk_ta_sys a infl acc del)
        (mk_ta_sys (async_complete a job (async_result job t latency)) (delete k infl) acc del)
  | ta_delivers a infl acc del r a' :
      vw_translate_async_try_deliver a = (Some r, a') \/ vw_translate_async_try_pop a = (Some r, a') ->
      ta_step (mk_ta_sys a infl acc del) (mk_ta_sys a' infl acc (del ++ [ar_source_text r]))
  | ta_waits a infl acc del a' :
      vw_translate_async_try_deliver a = (None, a') \/ vw_translate_async_try_pop a = (None, a') ->
      ta_step (mk_ta_sys a infl acc del) (mk_ta_sys a' infl acc del)
  | ta_invalidates a infl acc del :
      ta_step (mk_ta_sys a infl acc del) (mk_ta_sys (vw_translate_async_invalidate a) infl [] []).

Definition ta_start : ta_sys := mk_ta_sys vw_translate_async_create [] [] [].

(** ** What is pending *)

Definition job_list (a : vw_translate_async) : list vw_translate_job_t :=
  ring_items no_job (ta_jobs a) (ta_job_tail a) (ta_job_count a).
Definition result_list (a : vw_translate_async) : list vw_translate_async_completion_t :=
  ring_items no_completion (ta_results a) (ta_result_tail a) (ta_result_count a).

Definition job_item (j : vw_translate_job_t) : Z * list Z := (job_ordinal j, job_source_text j).
Definition completion_item (c : vw_translate_async_completion_t) : Z * list Z :=
  (cp_ordinal c, ar_source_text (cp_result c)).

Definition current (a : vw_translate_async) (infl : list vw_translate_job_t) : list vw_translate_job_t :=
  List.filter (fun j => job_epoch j =? ta_epoch a) infl.

(** Every cue that is queued, being translated or waiting for delivery. *)
Definition pending (a : vw_translate_async) (infl : list vw_translate_job_t) : list (Z * list Z) :=
  map job_item (job_list a) ++ map job_item (current a infl) ++ map completion_item (result_list a).

Fixpoint numbered (from : Z) (l : list (list Z)) : list (Z * list Z) :=
  match l with [] => [] | t :: l => (from, t) :: numbered (from + 1) l end.

Record ta_inv (n : Z) (s : ta_sys) : Prop := {
  ti_running : ta_stopping (ts_async s) = false;
  ti_jobs : let a := ts_async s in
    ring_ok VW_TRANSLATE_ASYNC_QUEUE_CAPACITY (ta_jobs a) (ta_job_head a) (ta_job_tail a) (ta_job_count a);
  ti_results : let a := ts_async s in
    ring_ok VW_TRANSLATE_ASYNC_RESULT_CAPACITY (ta_results a) (ta_result_head a) (ta_result_tail a) (ta_result_count a);
  ti_inflight : ta_inflight_count (ts_async s) = zlen (ts_inflight s);
  ti_total : let a := ts_async s in
    ta_job_count a + ta_inflight_count a + ta_result_count a <= VW_TRANSLATE_ASYNC_RESULT_CAPACITY;
  ti_job_epochs : Forall (fun j => job_epoch j = ta_epoch (ts_async s)) (job_list (ts_async s));
  ti_result_epochs : Forall (fun c => ar_epoch (cp_result c) = ta_epoch (ts_async s)) (result_list (ts_async s));
  ti_infl_epochs : Forall (fun j => job_epoch j <= ta_epoch (ts_async s)) (ts_inflight s);
  ti_submit : ta_next_submit_ordinal (ts_async s) = 1 + zlen (ts_accepted s);
  ti_result : ta_next_result_ordinal (ts_async s) = 1 + zlen (ts_delivered s);
  ti_steps : 0 <= n /\ zlen (ts_accepted s) <= n /\ 0 <= ta_epoch (ts_async s) <= 1 + n;
  ti_pending : exists rest, ts_accepted s = ts_delivered s ++ rest
    /\ pending (ts_async s) (ts_inflight s) ≡ₚ numbered (1 + zlen (ts_delivered s)) rest
}.

(** ** Numbered lists *)

Lemma numbered_snoc l : forall from t, numbered from (l ++ [t]) = numbered from l ++ [(from + zlen l, t)].
Proof.
  induction l as [|x l IH]; intros from t; simpl; [by rewrite Z.add_0_r|].
  rewrite IH, zlen_cons. do 4 f_equal. lia.
Qed.
Lemma numbered_from l : forall from o t, (o, t) ∈ numbered from l -> from <= o.
Proof.
  induction l as [|x l IH]; intros from o t; simpl; [by intros ?%elem_of_nil|].
  intros [[= -> _]|Hin]%elem_of_cons; [lia|]. apply IH in Hin. lia.
Qed.
Lemma numbered_head from l t : (from, t) ∈ numbered from l -> exists l', l = t :: l'.
Proof.
  destruct l as [|x l]; simpl; [by intros ?%elem_of_nil|].
  intros [[= ->]|Hin]%elem_of_cons; [by exists l|]. apply numbered_from in Hin. lia.
Qed.

Lemma bind_source_text r : ar_source_text (vw_translate_async_bind_result_text r) = ar_source_text r.
Proof. done. Qed.
Lemma async_result_source job t l : ar_source_text (async_result job t l) = job_source_text job.
Proof. unfold async_result. by destruct (job_skip_translation job). Qed.
Lemma async_result_epoch job t l : ar_epoch (async_result job t l) = job_epoch job.
Proof. unfold async_result. by destruct (job_skip_translation job). Qed.

Lemma next_ordinal_small o : 0 <= o < UINT64_MAX -> vw_translate_async_next_ordinal o = o + 1.
Proof. intros. unfold vw_translate_async_next_ordinal. destruct (Z.eqb_spec o UINT64_MAX); [lia|done]. Qed.

Lemma ring_count_bounds {A} N (sl : list A) h t c : ring_ok N sl h t c -> 0 <= c <= N.
Proof. by intros []. Qed.

(** ** Operations on the rings *)

Lemma push_result_spec a o r :
  ring_ok VW_TRANSLATE_ASYNC_RESULT_CAPACITY (ta_results a) (ta_result_head a) (ta_result_tail a) (ta_result_count a) ->
  ta_result_count a < VW_TRANSLATE_ASYNC_RESULT_CAPACITY ->
  let a' := vw_translate_async_push_result_locked a o r in
  ring_ok VW_TRANSLATE_ASYNC_RESULT_CAPACITY (ta_results a') (ta_result_head a') (ta_result_tail a') (ta_result_count a')
  /\ result_list a' = result_list a ++ [mk_completion o r]
  /\ a' = set_results a (ta_results a') (ta_result_head a') (ta_result_count a + 1) (ta_next_result_ordinal a).
Proof.
  intros Hr Hc. unfold vw_translate_async_push_result_locked.
  destruct (Z.leb_spec VW_TRANSLATE_ASYNC_RESULT_CAPACITY (ta_result_count a)); [lia|].
  pose proof (ring_ok_push no_completion _ _ _ _ _ (mk_completion o r) Hr Hc) as [H1 H2].
  split_and!; try done.
Qed.

Lemma find_result_loop_spec a k : forall n,
  ring_ok VW_TRANSLATE_ASYNC_RESULT_CAPACITY (ta_results a) (ta_result_head a) (ta_result_tail a) (ta_result_count a) ->
  0 <= k -> k + Z.of_nat n = ta_result_count a ->
  match find_result_loop a ((ta_result_tail a + k) mod VW_TRANSLATE_ASYNC_RESULT_CAPACITY) n with
  | Some i => exists j c, k <= j < ta_result_count a
      /\ i = (ta_result_tail a + j) mod VW_TRANSLATE_ASYNC_RESULT_CAPACITY
      /\ result_list a !! Z.to_nat j = Some c /\ slot no_completion (ta_results a) i = c
      /\ cp_ordinal c = ta_next_result_ordinal a
  | None => forall j c, k <= j -> result_list a !! Z.to_nat j = Some c -> cp_ordinal c <> ta_next_result_ordinal a
  end.
Proof.
  intros n Hr. revert k. induction n as [|n IH]; intros k Hk Hn; cbn [find_result_loop].
  - intros j c Hj Hc. apply lookup_lt_Some in Hc. pose proof (ring_items_length no_completion _ _ _ _ _ Hr) as Hl.
    unfold result_list, zlen in *. lia.
  - pose proof (ring_ok_lookup no_completion _ _ _ _ _ k Hr ltac:(lia)) as Hlk.
    destruct (Z.eqb_spec (cp_ordinal (slot no_completion (ta_results a)
      ((ta_result_tail a + k) mod VW_TRANSLATE_ASYNC_RESULT_CAPACITY))) (ta_next_result_ordinal a)) as [E|E].
    + exists k. eexists. split_and!; try done; lia.
    + rewrite Zplus_mod_idemp_l. replace (ta_result_tail a + k + 1) with (ta_result_tail a + (k + 1)) by lia.
      specialize (IH (k + 1) ltac:(lia) ltac:(lia)). destruct (find_result_loop _ _ _).
      * destruct IH as (j & c & ? & ?). exists j, c. split; [lia|done].
      * intros j c Hj Hc. destruct (decide (j = k)) as [->|]; [|apply (IH j c); [lia|done]].
        unfold result_list in Hc. rewrite Hlk in Hc. by injection Hc as <-.
Qed.

Lemma find_next_spec a :
  ring_ok VW_TRANSLATE_ASYNC_RESULT_CAPACITY (ta_results a) (ta_result_head a) (ta_result_tail a) (ta_result_count a) ->
  match vw_translate_async_find_next_result_locked a with
  | Some i => exists j c, 0 <= j < ta_result_count a
      /\ i = (ta_result_tail a + j) mod VW_TRANSLATE_ASYNC_RESULT_CAPACITY
      /\ result_list a !! Z.to_nat j = Some c /\ slot no_completion (ta_results a) i = c
      /\ cp_ordinal c = ta_next_result_ordinal a
  | None => forall c, c ∈ result_list a -> cp_ordinal c <> ta_next_result_ordinal a
  end.
Proof.
  intros Hr. unfold vw_translate_async_find_next_result_locked. pose proof Hr as [_ Ht Hc _].
  pose proof (find_result_loop_spec a 0 (Z.to_nat (ta_result_count a)) Hr ltac:(lia) ltac:(lia)) as H.
  rewrite Z.add_0_r, Z.mod_small in H by done. destruct (find_result_loop _ _ _); [done|].
  intros c (k & Hk)%list_elem_of_lookup. apply (H (Z.of_nat k)); [lia|]. by rewrite Nat2Z.id.
Qed.

Lemma close_gap_shift n : forall fuel results tail count k,
  0 <= k -> k + Z.of_nat n + 1 = count -> count <= VW_TRANSLATE_ASYNC_RESULT_CAPACITY -> (n <= fuel)%nat ->
  close_gap fuel results ((tail + k) mod VW_TRANSLATE_ASYNC_RESULT_CAPACITY)
    ((tail + k + 1) mod VW_TRANSLATE_ASYNC_RESULT_CAPACITY) ((tail + count) mod VW_TRANSLATE_ASYNC_RESULT_CAPACITY)
  = ring_shift no_completion VW_TRANSLATE_ASYNC_RESULT_CAPACITY results (tail + k) n.
Proof.
  induction n as [|n IH]; intros fuel results tail count k Hk Hc Hcap Hf.
  - replace (tail + k + 1) with (tail + count) by lia. destruct fuel; simpl; [done|]. by rewrite Z.eqb_refl.
  - destruct fuel as [|fuel]; [lia|]. cbn [close_gap ring_shift].
    destruct (Z.eqb_spec ((tail + k + 1) mod VW_TRANSLATE_ASYNC_RESULT_CAPACITY)
      ((tail + count) mod VW_TRANSLATE_ASYNC_RESULT_CAPACITY)) as [E|_].
    + exfalso. revert E. replace (tail + k + 1) with (tail + (k + 1)) by lia.
      apply mod_distinct; unfold VW_TRANSLATE_ASYNC_RESULT_CAPACITY, VW_TRANSLATE_ASYNC_QUEUE_CAPACITY in *; lia.
    + rewrite Zplus_mod_idemp_l. replace (tail + k + 1 + 1) with (tail + (k + 1) + 1) by lia.
      replace (tail + k + 1) with (tail + (k + 1)) by lia. apply IH; lia.
Qed.

Lemma remove_result_spec a j :
  ring_ok VW_TRANSLATE_ASYNC_RESULT_CAPACITY (ta_results a) (ta_result_head a) (ta_result_tail a) (ta_result_count a) ->
  0 <= j < ta_result_count a ->
  let a' := vw_translate_async_remove_result_locked a
              ((ta_result_tail a + j) mod VW_TRANSLATE_ASYNC_RESULT_CAPACITY) in
  ring_ok VW_TRANSLATE_ASYNC_RESULT_CAPACITY (ta_results a') (ta_result_head a') (ta_result_tail a') (ta_result_count a')
  /\ result_list a' = delete (Z.to_nat j) (result_list a)
  /\ a' = set_results a (ta_results a') (ta_result_head a') (ta_result_count a - 1)
            (vw_translate_async_next_ordinal (ta_next_result_ordinal a)).
Proof.
  intros Hr Hj. pose proof (ring_ok_remove no_completion _ _ _ _ _ j Hr Hj) as [H1 H2]. cbv zeta in H1, H2.
  unfold vw_translate_async_remove_result_locked. rewrite Zplus_mod_idemp_l.
  pose proof (ring_ok_head _ _ _ _ _ Hr) as Eh. pose proof (ring_count_bounds _ _ _ _ _ Hr) as Hb.
  assert (close_gap (Z.to_nat VW_TRANSLATE_ASYNC_RESULT_CAPACITY) (ta_results a)
    ((ta_result_tail a + j) mod VW_TRANSLATE_ASYNC_RESULT_CAPACITY)
    ((ta_result_tail a + j + 1) mod VW_TRANSLATE_ASYNC_RESULT_CAPACITY) (ta_result_head a)
    = ring_shift no_completion VW_TRANSLATE_ASYNC_RESULT_CAPACITY (ta_results a) (ta_result_tail a + j)
        (Z.to_nat (ta_result_count a - 1 - j))) as E.
  { rewrite Eh. apply close_gap_shift; lia. }
  rewrite E. unfold result_list. cbn [set_results ta_results ta_result_head ta_result_tail ta_result_count].
  split_and!; done.
Qed.

(** ** The invariant is kept *)

Lemma current_app a l k : current a (l ++ k) = current a l ++ current a k.
Proof. apply filter_app. Qed.

Lemma current_delete a infl k job :
  infl !! k = Some job ->
  map job_item (current a infl)
  ≡ₚ (if job_epoch job =? ta_epoch a then [job_item job] else []) ++ map job_item (current a (delete k infl)).
Proof.
  intros Hk. rewrite <- (take_drop_middle _ _ _ Hk) at 1. rewrite delete_take_drop.
  rewrite !current_app, !map_app.
  change (job :: drop (S k) infl) with ([job] ++ drop (S k) infl). rewrite current_app, map_app.
  unfold current at 2. cbn [List.filter]. destruct (job_epoch job =? ta_epoch a); simpl; [|done].
  symmetry. apply Permutation_middle.
Qed.

Lemma zlen_delete {A} (l : list A) k x : l !! k = Some x -> zlen (delete k l) = zlen l - 1.
Proof. intros Hk. unfold zlen. rewrite length_delete by eauto. apply lookup_lt_Some in Hk. lia. Qed.

Lemma ta_inv_weaken n m s : n <= m -> ta_inv n s -> ta_inv m s.
Proof. intros ? []. split; try done; lia. Qed.

Lemma ta_inv_take n a infl acc del job a' :
  ta_inv n (mk_ta_sys a infl acc del) -> async_take a = Some (job, a') ->
  ta_inv n (mk_ta_sys a' (infl ++ [job]) acc del).
Proof.
  intros [I1 I2 I3 I4 I5 I6 I7 I8 I9 I10 I11 I12] Ht. simpl in *. unfold async_take in Ht.
  pose proof (ring_count_bounds _ _ _ _ _ I2).
  destruct (Z.eqb_spec (ta_job_count a) 0); [done|]. injection Ht as <- <-.
  destruct (ring_ok_pop no_job _ _ _ _ _ I2 ltac:(lia)) as [P1 P2].
  set (job := slot no_job (ta_jobs a) (ta_job_tail a)) in *.
  unfold job_list in I6. rewrite P2 in I6. inversion I6 as [|? ? E6 I6']; subst.
  split; cbn [ts_async ts_inflight ts_accepted ts_delivered set_counts set_jobs ta_stopping ta_jobs ta_job_head ta_job_tail
    ta_job_count ta_results ta_result_head ta_result_tail ta_result_count ta_inflight_count ta_epoch
    ta_next_submit_ordinal ta_next_result_ordinal]; try done.
  - rewrite zlen_app. change (zlen [job]) with 1. lia.
  - lia.
  - apply Forall_app. split; [done|]. apply Forall_singleton. lia.
  - destruct I12 as (rest & Ea & Hp). exists rest. split; [done|]. rewrite <- Hp.
    unfold pending, job_list at 2. rewrite P2. rewrite current_app, map_app.
    unfold current at 2. cbn [List.filter set_counts set_jobs ta_epoch]. rewrite E6, Z.eqb_refl. cbn [map].
    fold job. cbn [map]. change (result_list _) with (result_list a).
    change (current _ infl) with (current a infl). unfold job_list. cbn [set_counts set_jobs ta_jobs ta_job_tail ta_job_count].
    solve_Permutation.
Qed.

(** The projections of the records the operations build. *)
Ltac ta_cbn := cbn [ts_async ts_inflight ts_accepted ts_delivered set_counts set_jobs set_results
  ta_stopping ta_jobs ta_job_head ta_job_tail ta_job_count ta_results ta_result_head ta_result_tail
  ta_result_count ta_inflight_count ta_active_translation_count ta_epoch ta_next_submit_ordinal
  ta_next_result_ordinal] in *.

Lemma ta_inv_complete n a infl acc del k job t latency :
  ta_inv n (mk_ta_sys a infl acc del) -> infl !! k = Some job ->
  ta_inv n (mk_ta_sys (async_complete a job (async_result job t latency)) (delete k infl) acc del).
Proof.
  intros [I1 I2 I3 I4 I5 I6 I7 I8 I9 I10 I11 I12] Hk. ta_cbn. unfold async_complete.
  set (active := if _ && _ && _ then _ else _). set (a1 := set_counts a _ active).
  set (r := async_result job t latency).
  pose proof (zlen_delete _ _ _ Hk) as Hd. pose proof (zlen_nonneg (delete k infl)).
  pose proof (ring_count_bounds _ _ _ _ _ I2). pose proof (ring_count_bounds _ _ _ _ _ I3).
  assert (Forall (fun j => job_epoch j <= ta_epoch a) (delete k infl)) as I8' by (by apply Forall_delete).
  destruct I12 as (rest & Ea & Hp). unfold pending in Hp. rewrite (current_delete a infl k job Hk) in Hp.
  assert (negb (ta_stopping a1) && (ar_epoch r =? ta_epoch a1) = (job_epoch job =? ta_epoch a)) as ->.
  { subst a1 r. ta_cbn. by rewrite I1, async_result_epoch. }
  destruct (Z.eqb_spec (job_epoch job) (ta_epoch a)) as [E|E].
  - destruct (push_result_spec a1 (job_ordinal job) r) as (R1 & R2 & R3); [done|subst a1; ta_cbn; lia|].
    set (a2 := vw_translate_async_push_result_locked a1 (job_ordinal job) r) in *.
    change (result_list a1) with (result_list a) in R2.
    split; ta_cbn; try (rewrite R3; ta_cbn; subst a1; ta_cbn; try done; lia).
    + rewrite R3 in *. ta_cbn. subst a1. ta_cbn. done.
    + change (result_list _) with (result_list a2). rewrite R2. rewrite R3. subst a1. ta_cbn.
      apply Forall_app. split; [done|]. apply Forall_singleton. subst r. cbn [cp_result].
      by rewrite async_result_epoch.
    + exists rest. split; [done|]. rewrite <- Hp. unfold pending.
      change (result_list (set_counts a2 _ _)) with (result_list a2). rewrite R2, R3. subst a1.
      change (job_list _) with (job_list a). change (current (set_counts _ _ _)) with (current a).
      rewrite map_app. cbn [map]. unfold completion_item at 2. cbn [cp_ordinal cp_result]. subst r.
      rewrite async_result_source. change (job_ordinal job, job_source_text job) with (job_item job).
      solve_Permutation.
  - subst a1. split; ta_cbn; try done; try lia.
    exists rest. split; [done|]. by rewrite <- Hp.
Qed.

Lemma delivered_spec a infl del acc n j c :
  ta_inv n (mk_ta_sys a infl acc del) -> n < UINT64_MAX - 1 ->
  0 <= j < ta_result_count a -> result_list a !! Z.to_nat j = Some c ->
  cp_ordinal c = ta_next_result_ordinal a ->
  ar_epoch (cp_result c) = ta_epoch a
  /\ ta_inv n (mk_ta_sys (vw_translate_async_remove_result_locked a
        ((ta_result_tail a + j) mod VW_TRANSLATE_ASYNC_RESULT_CAPACITY)) infl acc
        (del ++ [ar_source_text (cp_result c)])).
Proof.
  intros [I1 I2 I3 I4 I5 I6 I7 I8 I9 I10 I11 I12] Hn Hj Hc Ho. ta_cbn.
  split; [by apply (proj1 (list.Forall_forall _ _) I7), (list_elem_of_lookup_2 _ _ _ Hc)|].
  destruct (remove_result_spec a j I3 Hj) as (R1 & R2 & R3).
  set (a' := vw_translate_async_remove_result_locked a _) in *.
  destruct I12 as (rest & Ea & Hp).
  assert (result_list a ≡ₚ c :: delete (Z.to_nat j) (result_list a)) as Hdel by (by apply delete_Permutation).
  pose proof (Permutation_map completion_item Hdel) as Hmap. cbn [map] in Hmap.
  assert (completion_item c = (1 + zlen del, ar_source_text (cp_result c))) as Ei
    by (unfold completion_item; by rewrite Ho, I10).
  unfold pending in Hp. rewrite Hmap, Ei in Hp.
  assert ((1 + zlen del, ar_source_text (cp_result c)) ∈ numbered (1 + zlen del) rest) as Hin.
  { rewrite <- Hp. apply elem_of_app. right. apply elem_of_app. right. apply list_elem_of_here. }
  apply numbered_head in Hin as [rest' ->]. pose proof (zlen_nonneg del).
  assert (zlen acc = zlen del + (1 + zlen rest')) as Hacc by (rewrite Ea, zlen_app, zlen_cons; done).
  pose proof (zlen_nonneg rest').
  split; ta_cbn; try (rewrite R3; ta_cbn; done || lia).
  - change (result_list a') with (result_list a'). rewrite R2, R3. ta_cbn. by apply Forall_delete.
  - rewrite R3. ta_cbn. rewrite I10, zlen_app. change (zlen [_]) with 1.
    rewrite next_ordinal_small by (unfold UINT64_MAX in *; lia). lia.
  - exists rest'. split; [by rewrite <- app_assoc|].
    apply (Permutation_cons_inv (a := (1 + zlen del, ar_source_text (cp_result c)))).
    rewrite zlen_app. change (zlen [_]) with 1. replace (1 + (zlen del + 1)) with (1 + zlen del + 1) by lia.
    cbn [numbered] in Hp. rewrite <- Hp. unfold pending. rewrite R2, R3.
    change (job_list (set_results _ _ _ _ _)) with (job_list a).
    change (current (set_results _ _ _ _ _)) with (current a).
    solve_Permutation.
Qed.

Lemma ta_inv_invalidate n a infl acc del :
  ta_inv n (mk_ta_sys a infl acc del) -> n < UINT64_MAX - 1 ->
  ta_inv (n + 1) (mk_ta_sys (vw_translate_async_invalidate a) infl [] []).
Proof.
  intros [I1 I2 I3 I4 I5 I6 I7 I8 I9 I10 I11 I12] Hn. ta_cbn. unfold vw_translate_async_invalidate.
  rewrite next_ordinal_small by lia.
  pose proof (ring_count_bounds _ _ _ _ _ I2). pose proof (ring_count_bounds _ _ _ _ _ I3).
  destruct I2 as [L2 _ _ _], I3 as [L3 _ _ _].
  split; ta_cbn; try done; try lia; try (split; [done|lia|lia|done]).
  - eapply Forall_impl; [|exact I8]. intros j Hj. cbv beta in *. lia.
  - change (zlen []) with 0. lia.
  - exists []. split; [done|]. unfold pending, current. ta_cbn.
    replace (List.filter (fun j => job_epoch j =? ta_epoch a + 1) infl) with ([] : list vw_translate_job_t); [done|].
    symmetry. clear -I8. induction I8 as [|j l Hj _ IH]; [done|]. cbn [List.filter].
    destruct (Z.eqb_spec (job_epoch j) (ta_epoch a + 1)); [lia|done].
Qed.

Lemma ta_inv_evict n a infl acc del :
  ta_inv n (mk_ta_sys a infl acc del) ->
  ta_job_count a + ta_inflight_count a + ta_result_count a < VW_TRANSLATE_ASYNC_RESULT_CAPACITY ->
  let a' := submit_evict a in
  ta_inv n (mk_ta_sys a' infl acc del) /\ ta_job_count a' < VW_TRANSLATE_ASYNC_QUEUE_CAPACITY
  /\ ta_job_count a' + ta_inflight_count a' + ta_result_count a'
     = ta_job_count a + ta_inflight_count a + ta_result_count a
  /\ ta_epoch a' = ta_epoch a.
Proof.
  intros Hi Ht. unfold submit_evict.
  destruct (Z.leb_spec VW_TRANSLATE_ASYNC_QUEUE_CAPACITY (ta_job_count a)) as [Hf|Hf]; [|done].
  destruct Hi as [I1 I2 I3 I4 I5 I6 I7 I8 I9 I10 I11 I12]. ta_cbn.
  pose proof (ring_count_bounds _ _ _ _ _ I2). pose proof (ring_count_bounds _ _ _ _ _ I3).
  pose proof (zlen_nonneg infl).
  assert (0 < VW_TRANSLATE_ASYNC_QUEUE_CAPACITY) as Hcap by done.
  destruct (ring_ok_pop no_job _ _ _ _ _ I2 ltac:(lia)) as [P1 P2].
  set (job := slot no_job (ta_jobs a) (ta_job_tail a)) in *.
  unfold job_list in I6. rewrite P2 in I6. inversion I6 as [|? ? E6 I6']; subst.
  set (active := if _ && _ then _ else _). set (a1 := set_counts _ _ active).
  assert (ta_result_count a < VW_TRANSLATE_ASYNC_RESULT_CAPACITY) as Hroom by lia.
  destruct (push_result_spec a1 (job_ordinal job) (evicted_result job) I3 Hroom) as (R1 & R2 & R3).
  set (a2 := vw_translate_async_push_result_locked a1 (job_ordinal job) (evicted_result job)) in *.
  change (result_list a1) with (result_list a) in R2.
  destruct I12 as (rest & Ea & Hp).
  split; [|rewrite R3; subst a1; ta_cbn; split_and!; (done || lia)].
  split; ta_cbn; try (rewrite R3; subst a1; ta_cbn; done || lia).
  - exact R1.
  - assert (ta_epoch a2 = ta_epoch a) as -> by (rewrite R3; done). rewrite R2.
    apply Forall_app. split; [done|]. by apply Forall_singleton.
  - exists rest. split; [done|]. rewrite <- Hp. unfold pending, job_list at 2. rewrite P2, R2, R3. subst a1.
    change (current (set_results _ _ _ _ _)) with (current a). unfold job_list. ta_cbn. rewrite map_app.
    fold job. cbn [map]. unfold completion_item at 2. cbn [cp_ordinal cp_result].
    change (ar_source_text (evicted_result job)) with (job_source_text job).
    change (job_ordinal job, job_source_text job) with (job_item job). solve_Permutation.
Qed.

Lemma ta_inv_enqueue n a infl acc del seg text sl tl skip :
  ta_inv n (mk_ta_sys a infl acc del) -> n < UINT64_MAX - 1 ->
  ta_job_count a < VW_TRANSLATE_ASYNC_QUEUE_CAPACITY ->
  ta_job_count a + ta_inflight_count a + ta_result_count a < VW_TRANSLATE_ASYNC_RESULT_CAPACITY ->
  ta_inv (n + 1) (mk_ta_sys (submit_enqueue a (submit_job a seg text sl tl skip)) infl (acc ++ [text]) del).
Proof.
  intros [I1 I2 I3 I4 I5 I6 I7 I8 I9 I10 I11 I12] Hn Hroom Htot. ta_cbn.
  set (job := submit_job a seg text sl tl skip).
  destruct (ring_ok_push no_job _ _ _ _ _ job I2 Hroom) as [P1 P2].
  pose proof (zlen_nonneg acc).
  assert (job_item job = (1 + zlen acc, text)) as Ej by (unfold job_item; cbn; by rewrite I9).
  destruct I12 as (rest & Ea & Hp). unfold submit_enqueue.
  split; ta_cbn; try done; try lia.
  - unfold job_list. ta_cbn. rewrite P2. apply Forall_app. split; [done|]. by apply Forall_singleton.
  - rewrite I9, zlen_app. change (zlen [text]) with 1. rewrite next_ordinal_small by lia. lia.
  - rewrite zlen_app. change (zlen [text]) with 1. lia.
  - exists (rest ++ [text]). split; [by rewrite Ea, app_assoc|]. rewrite numbered_snoc, <- Hp.
    replace (1 + zlen del + zlen rest) with (1 + zlen acc) by (rewrite Ea, zlen_app; lia). rewrite <- Ej.
    unfold pending, job_list. ta_cbn. rewrite P2, map_app. cbn [map].
    change (current _ infl) with (current a infl). change (result_list _) with (result_list a).
    solve_Permutation.
Qed.

Lemma ta_inv_step n s s' :
  ta_inv n s -> n < UINT64_MAX - 1 -> ta_step s s' -> ta_inv (n + 1) s'.
Proof.
  intros Hi Hn Hs. assert (n <= n + 1) as Hle by lia.
  destruct Hs as [a infl acc del seg text sl tl a' Et Hs|a infl acc del seg sl tl a' Hs
    |a infl acc del job a' _ Ht|a infl acc del k job t l Hk|a infl acc del r a' Hd|a infl acc del a' Hd|a infl acc del].
  - unfold vw_translate_async_submit in Hs. rewrite Et in Hs.
    destruct (_ || _); [done|]. destruct (ta_stopping a); [done|].
    destruct (Z.leb_spec VW_TRANSLATE_ASYNC_RESULT_CAPACITY
      (ta_job_count a + ta_inflight_count a + ta_result_count a)) as [|Htot]; [done|].
    injection Hs as <-. destruct (ta_inv_evict n a infl acc del Hi Htot) as (Hi' & Hr & Ht & _).
    apply ta_inv_enqueue; try done. lia.
  - assert (a' = a) as ->; [|by eapply ta_inv_weaken].
    unfold vw_translate_async_submit in Hs. repeat case_match; congruence.
  - eapply ta_inv_weaken; [done|]. by eapply ta_inv_take.
  - eapply ta_inv_weaken; [done|]. by apply ta_inv_complete.
  - eapply ta_inv_weaken; [done|]. pose proof (find_next_spec a (ti_results _ _ Hi)) as Hf.
    unfold vw_translate_async_try_deliver, vw_translate_async_try_pop in Hd.
    destruct (vw_translate_async_find_next_result_locked a) as [i|]; [|by destruct Hd; repeat case_match].
    destruct Hf as (j & c & Hj & -> & Hc & Es & Ho). rewrite Es in Hd.
    destruct (delivered_spec a infl del acc n j c Hi Hn Hj Hc Ho) as [He Hi'].
    rewrite He, Z.eqb_refl in Hd. simpl negb in Hd. cbv iota in Hd.
    destruct (ta_result_count a =? 0); destruct Hd as [Hd|Hd]; try discriminate; by injection Hd as <- <-.
  - eapply ta_inv_weaken; [done|]. assert (a' = a) as ->; [|done].
    pose proof (find_next_spec a (ti_results _ _ Hi)) as Hf.
    unfold vw_translate_async_try_deliver, vw_translate_async_try_pop in Hd.
    destruct (vw_translate_async_find_next_result_locked a) as [i|].
    + destruct Hf as (j & c & Hj & -> & Hc & Es & Ho). rewrite Es in Hd.
      destruct (delivered_spec a infl del acc n j c Hi Hn Hj Hc Ho) as [He _].
      rewrite He, Z.eqb_refl in Hd. destruct (ta_result_count a =? 0); destruct Hd as [Hd|Hd]; simpl in Hd; congruence.
    + destruct (ta_result_count a =? 0); destruct Hd as [Hd|Hd]; congruence.
  - by eapply ta_inv_invalidate.
Qed.

Lemma ta_inv_start : ta_inv 0 ta_start.
Proof.
  split; try done.
  by exists [].
Qed.

Lemma ta_inv_reach n s :
  Z.of_nat n < UINT64_MAX -> nsteps ta_step n ta_start s -> ta_inv (Z.of_nat n) s.
Proof.
  revert s. induction n as [|n IH]; intros s Hn Hr.
  - inversion Hr; subst. apply ta_inv_start.
  - apply nsteps_inv_r in Hr as (s' & Hr & Hs). rewrite Nat2Z.inj_succ.
    eapply ta_inv_step; [apply IH; [lia|done]|lia|done].
Qed.

(** ** Properties *)

(** C29: For every interleaving of the worker and the translation threads (less
    than 2^64 steps), the captions delivered in an epoch are, in order and with
    their source text, exactly a prefix of the captions accepted in it: none is
    lost, duplicated, reordered or taken from an earlier epoch, though their
    translations finish in any order. The pipeline stays within its bounds. *)
Theorem translate_async_ordered n s :
  Z.of_nat n < UINT64_MAX -> nsteps ta_step n ta_start s ->
  (exists rest, ts_accepted s = ts_delivered s ++ rest
     /\ zlen rest <= VW_TRANSLATE_ASYNC_RESULT_CAPACITY)
  /\ zlen (job_list (ts_async s)) + zlen (ts_inflight s) + zlen (result_list (ts_async s))
     <= VW_TRANSLATE_ASYNC_RESULT_CAPACITY.
Proof.
  intros Hn Hr. destruct (ta_inv_reach n s Hn Hr) as [I1 I2 I3 I4 I5 I6 I7 I8 I9 I10 I11 (rest & Ea & Hp)].
  assert (zlen (job_list (ts_async s)) = ta_job_count (ts_async s)) as E1 by (by eapply ring_items_length).
  assert (zlen (result_list (ts_async s)) = ta_result_count (ts_async s)) as E2 by (by eapply ring_items_length).
  cbv zeta in *. split; [|lia]. exists rest. split; [done|].
  assert (zlen rest = zlen (pending (ts_async s) (ts_inflight s))) as ->.
  { apply Permutation_length in Hp. unfold zlen. rewrite Hp. f_equal. clear.
    generalize (1 + zlen (ts_delivered s)). induction rest as [|x rest IH]; intros k; [done|].
    cbn [numbered length]. by rewrite <- (IH (k + 1)). }
  assert (zlen (current (ts_async s) (ts_inflight s)) <= zlen (ts_inflight s)).
  { unfold current, zlen. pose proof (filter_length_le (fun j => job_epoch j =? ta_epoch (ts_async s)) (ts_inflight s)). lia. }
  unfold pending. rewrite !zlen_app. unfold zlen in *. rewrite !length_map. lia.
Qed.

(** No caption is stuck: when no job is queued or being translated and an
    accepted caption is still undelivered, the next one is available, in order. *)
Theorem translate_async_progress n s :
  Z.of_nat n < UINT64_MAX - 1 -> nsteps ta_step n ta_start s ->
  ta_job_count (ts_async s) = 0 -> ts_inflight s = [] -> ts_delivered s <> ts_accepted s ->
  exists r a', vw_translate_async_try_deliver (ts_async s) = (Some r, a')
    /\ ts_accepted s !! length (ts_delivered s) = Some (ar_source_text r).
Proof.
  intros Hn Hr Hj Hf Hne. pose proof (ta_inv_reach n s ltac:(lia) Hr) as Hi. destruct s as [a infl acc del]. ta_cbn. subst infl.
  pose proof Hi as [I1 I2 I3 I4 I5 I6 I7 I8 I9 I10 I11 (rest & Ea & Hp)]. ta_cbn.
  destruct rest as [|t rest]; [by rewrite app_nil_r in Ea|].
  assert (job_list a = []) as El.
  { apply zlen_zero. unfold job_list. erewrite ring_items_length by done. done. }
  unfold pending in Hp. rewrite El in Hp. simpl in Hp.
  assert ((1 + zlen del, t) ∈ map completion_item (result_list a)) as Hin by (rewrite Hp; apply list_elem_of_here).
  apply list_elem_of_In, in_map_iff in Hin as (c & Ec & Hc). apply list_elem_of_In in Hc.
  pose proof (find_next_spec a I3) as Hfn. unfold vw_translate_async_try_deliver.
  destruct (vw_translate_async_find_next_result_locked a) as [i|].
  - destruct Hfn as (j & c' & Hj' & -> & Hc' & Es & Ho). rewrite Es.
    destruct (delivered_spec a [] del acc (Z.of_nat n) j c' Hi Hn Hj' Hc' Ho) as [He Hi'].
    rewrite He, Z.eqb_refl. simpl. eexists _, _. split; [done|].
    destruct (ti_pending _ _ Hi') as (rest' & Ea' & _). ta_cbn. rewrite Ea', <- app_assoc.
    rewrite lookup_app_r by done. by rewrite Nat.sub_diag.
  - exfalso. apply (Hfn c Hc). unfold completion_item in Ec. injection Ec as -> _. lia.
Qed.

(** ** Witnesses *)

(** Two captions translated out of order: the second finishes first, and the
    first is still delivered first. *)
Definition demo_segment (text : list Z) : vw_caption_segment_t :=
  mk_segment (zreplicate 16 0) 1 0 1000000 1 (Some text) (u16 (zlen text)) None 0 false 0 0.
Definition demo_translation : translation := mk_translation true (str "hallo") VW_TRANSLATE_TIER_GTX no_failure.
Definition submit_demo (text : list Z) (a : vw_translate_async) : vw_translate_async :=
  snd (vw_translate_async_submit a (demo_segment text) None None).
Definition take_demo (a : vw_translate_async) : vw_translate_job_t * vw_translate_async :=
  default (no_job, a) (async_take a).
Definition complete_demo (j : vw_translate_job_t) (a : vw_translate_async) : vw_translate_async :=
  async_complete a j (async_result j demo_translation 5).

Definition demo1 := submit_demo (str "one") vw_translate_async_create.
Definition demo2 := submit_demo (str "two") demo1.
Definition demo3 := take_demo demo2.
Definition demo4 := take_demo (snd demo3).
Definition demo5 := complete_demo (fst demo4) (snd demo4).
Definition demo6 := complete_demo (fst demo3) demo5.
Definition demo7 := snd (vw_translate_async_try_deliver demo6).
Definition demo_result : vw_translate_async_result_t :=
  Eval vm_compute in default no_result (fst (vw_translate_async_try_deliver demo6)).
Definition demo_end : ta_sys := mk_ta_sys demo7 [] [str "one"; str "two"] [str "one"].

Lemma demo_run : nsteps ta_step 7 ta_start demo_end.
Proof.
  eapply nsteps_l; [apply (ta_submits _ [] [] [] (demo_segment (str "one")) (str "one") None None demo1);
    [reflexivity|vm_compute; reflexivity]|].
  eapply nsteps_l; [apply (ta_submits _ [] _ [] (demo_segment (str "two")) (str "two") None None demo2);
    [reflexivity|vm_compute; reflexivity]|].
  eapply nsteps_l; [apply (ta_takes _ [] _ [] (fst demo3) (snd demo3)); [done|vm_compute; reflexivity]|].
  eapply nsteps_l; [apply (ta_takes _ _ _ [] (fst demo4) (snd demo4)); [done|vm_compute; reflexivity]|].
  eapply nsteps_l; [apply (ta_completes _ [fst demo3; fst demo4] _ [] 1%nat (fst demo4) demo_translation 5); reflexivity|].
  eapply nsteps_l; [apply (ta_completes _ [fst demo3] _ [] 0%nat (fst demo3) demo_translation 5); reflexivity|].
  eapply nsteps_l; [|apply nsteps_O].
  apply (ta_delivers demo6 [] _ [] demo_result demo7).
  left. vm_compute. reflexivity.
Qed.

Lemma translate_async_ordered_witness :
  Z.of_nat 7 < UINT64_MAX /\ nsteps ta_step 7 ta_start demo_end
  /\ exists rest, ts_accepted demo_end = ts_delivered demo_end ++ rest
       /\ zlen rest <= VW_TRANSLATE_ASYNC_RESULT_CAPACITY.
Proof.
  split; [reflexivity|]. split; [exact demo_run|].
  apply (translate_async_ordered 7 demo_end); [reflexivity|exact demo_run].
Defined.

Lemma translate_async_progress_witness :
  nsteps ta_step 7 ta_start demo_end
  /\ exists r a', vw_translate_async_try_deliver (ts_async demo_end) = (Some r, a')
       /\ ts_accepted demo_end !! 1%nat = Some (ar_source_text r).
Proof.
  split; [exact demo_run|].
  apply (translate_async_progress 7 demo_end); [reflexivity|exact demo_run|reflexivity|reflexivity|discriminate].
Defined.
