(* ===== verification/HttpTransfer.v ===== *)
(** * The HTTP transfer

    [posix_http_request] of [src/worker/src/vw_translate.c] with the pipe policy the build
    puts around it ([vw_translate_pipe_policy.h]): curl is started with its standard
    streams on pipes, fed the payload and read until it closes them, then reaped, all
    within a deadline. The system calls are the operations of [ProcEnv]; descriptors,
    children and bytes moved are recorded in a log. *)

From S2P Require Import Prelude.
From S2P Require Import CString.
From S2P Require Import State.
From S2P Require Import TranslateText.
From S2P Require Import TranslateTiers.

Definition FD_CLOEXEC : Z := 1.
Definition O_NONBLOCK : Z := 0x800.
Definition POLLIN : Z := 1.
Definition POLLOUT : Z := 4.
Definition POLLERR : Z := 8.
Definition POLLHUP : Z := 16.
Definition VW_TRANSLATE_USER_AGENT : list Z :=
  str "Mozilla/5.0 (Windows NT 10.0; Win64; x64) AppleWebKit/537.36 (KHTML, like Gecko) Chrome/124.0.0.0 Safari/537.36".

(** ** What the transfer calls *)

Inductive poll_answer := PollError (e : errno) | PollTimeout | PollEvents (in_revents out_revents : Z).
(** [read]: no byte is the end of the file. *)
Inductive read_answer := ReadBytes (data : list Z) | ReadError (e : errno).
Inductive write_answer := WriteCount (n : Z) | WriteError (e : errno).
Inductive fcntl_call := F_GETFD | F_SETFD (flags : Z) | F_GETFL | F_SETFL (flags : Z).
Inductive file_action := AddClose (fd : Z) | AddDup2 (fd target : Z).

Class ProcEnv (X : Type) := {
  clock_us : X -> Z * X;
  (** [signal(SIGPIPE, SIG_IGN)] *)
  signal_ignore : X -> X;
  pipe : X -> option (Z * Z) * X;
  fcntl : X -> Z -> fcntl_call -> Z * X;
  close : X -> Z -> X;
  file_actions_init : X -> bool * X;
  spawnattr_init : X -> bool * X;
  (** [posix_spawn] of curl, with [SIGPIPE] back to its default when there are attributes. *)
  posix_spawn : X -> list (list Z) -> list file_action -> bool -> option Z * X;
  (** The events of the input and of the output pipe, when they are polled. *)
  poll : X -> option Z -> option Z -> Z -> poll_answer * X;
  read : X -> Z -> Z -> read_answer * X;
  write : X -> Z -> list Z -> write_answer * X;
  kill : X -> Z -> X;
  waitpid : X -> Z -> bool -> wait_answer * X;
  nanosleep : X -> Z -> X;
  VW_CURL_EXECUTABLE : list Z
}.

(** ** The state *)

Inductive proc_event :=
  | SigpipeIgnored
  | FdOpened (fd : Z)
  | FdClosed (fd : Z)
  | ChildStarted (pid : Z)
  | ChildKilled (pid : Z)
  | ChildReaped (pid : Z) (status : exit_status)
  | WaitFailed (pid : Z)
  | GotBytes (data : list Z)
  | SentBytes (data : list Z)
  | GaveUp.   (* the transfer's loop was left with a pipe open *)

(** The variables of the transfer: the pipe ends still open ([pipe_in[1]], [pipe_out[0]];
    each is closed together with its [_open] flag), [out_buf[0..total_read)] and so on;
    [tl_waited] is the status when [waited == pid]. *)
Record transfer_locals := mk_locals {
  tl_in : option Z;
  tl_out : option Z;
  tl_written : Z;
  tl_buf : list Z;
  tl_write_failed : bool;
  tl_overflow : bool;
  tl_waited : option exit_status
}.
(** [h_cause] and [h_provider_status] are the thread's [g_http_failure_cause] and
    [g_http_provider_status]; a loop that ran out of fuel is recorded in [h_stuck]. *)
Record http {X : Type} := mk_http {
  h_cause : Z;
  h_provider_status : Z;
  h_locals : transfer_locals;
  h_log : list proc_event;
  h_stuck : bool;
  h_ext : X
}.
Arguments http X : clear implicits.
Arguments mk_http {X}.

#[global] Instance settable_transfer_locals : Settable transfer_locals :=
  fun t => mk_locals (tl_in t) (tl_out t) (tl_written t) (tl_buf t) (tl_write_failed t) (tl_overflow t) (tl_waited t).
#[global] Instance set_tl_in : Setter tl_in := ltac:(setter).
#[global] Instance set_tl_out : Setter tl_out := ltac:(setter).
#[global] Instance set_tl_written : Setter tl_written := ltac:(setter).
#[global] Instance set_tl_buf : Setter tl_buf := ltac:(setter).
#[global] Instance set_tl_write_failed : Setter tl_write_failed := ltac:(setter).
#[global] Instance set_tl_overflow : Setter tl_overflow := ltac:(setter).
#[global] Instance set_tl_waited : Setter tl_waited := ltac:(setter).
#[global] Instance settable_http {X} : Settable (http X) :=
  fun s => mk_http (h_cause s) (h_provider_status s) (h_locals s) (h_log s) (h_stuck s) (h_ext s).
#[global] Instance set_h_cause {X} : Setter (@h_cause X) := ltac:(setter).
#[global] Instance set_h_provider_status {X} : Setter (@h_provider_status X) := ltac:(setter).
#[global] Instance set_h_locals {X} : Setter (@h_locals X) := ltac:(setter).
#[global] Instance set_h_log {X} : Setter (@h_log X) := ltac:(setter).
#[global] Instance set_h_stuck {X} : Setter (@h_stuck X) := ltac:(setter).
#[global] Instance set_h_ext {X} : Setter (@h_ext X) := ltac:(setter).

Section transfer.
Context {X : Type} `{!ProcEnv X}.
#[local] Abbreviation H := (M (http X)).

Definition px {A} (f : X -> A * X) : H A := fun s => let '(a, x) := f (h_ext s) in (a, s <| h_ext := x |>).
Definition px_ (f : X -> X) : H unit := modify (fun s => s <| h_ext := f (h_ext s) |>).
Definition note (e : proc_event) : H unit := modify (fun s => s <| h_log := h_log s ++ [e] |>).
Definition on_locals (f : transfer_locals -> transfer_locals) : H unit :=
  modify (fun s => s <| h_locals := f (h_locals s) |>).
(** Every [sigaction] of the source, those that would restore the handler among them, is
    this call of the policy. *)
Definition vw_translate_keep_sigpipe_ignored : H unit := px_ signal_ignore ;; note SigpipeIgnored.
Definition set_cause (cause : Z) : H unit := modify (fun s => s <| h_cause := cause |>).

(** [while (body ())], and the mark when [fuel] was not enough. *)
Fixpoint while_loop (fuel : nat) (body : H bool) : H unit :=
  match fuel with
  | O => modify (fun s => s <| h_stuck := true |>)
  | S fuel => go ← body; if go : bool then while_loop fuel body else skip
  end.

Definition remaining_ms (deadline_us : Z) : H Z := now ← px clock_us; mret (remaining_timeout_ms now deadline_us).

(** ** Pipes *)

Definition close_fd (fd : Z) : H unit := px_ (fun x => close x fd) ;; note (FdClosed fd).
Definition vw_translate_set_cloexec (fd : Z) : H bool :=
  flags ← px (fun x => fcntl x fd F_GETFD);
  if flags <? 0 then mret false
  else r ← px (fun x => fcntl x fd (F_SETFD (Z.lor flags FD_CLOEXEC))); mret (r =? 0).
Definition vw_translate_set_nonblocking (fd : Z) : H bool :=
  flags ← px (fun x => fcntl x fd F_GETFL);
  if flags <? 0 then mret false
  else r ← px (fun x => fcntl x fd (F_SETFL (Z.lor flags O_NONBLOCK))); mret (r =? 0).
(** [a && b] on calls. *)
Definition both (a b : H bool) : H bool := ok ← a; if ok : bool then b else mret false.

Definition vw_translate_make_cloexec_pipe : H (option (Z * Z)) :=
  ends ← px pipe;
  match ends with
  | None => mret None
  | Some (r, w) =>
      note (FdOpened r) ;; note (FdOpened w) ;;
      ok ← both (vw_translate_set_cloexec r) (vw_translate_set_cloexec w);
      if ok : bool then mret (Some (r, w))
      else close_fd r ;; close_fd w ;; mret None
  end.

(** A failure before the child runs. *)
Definition abandon (fds : list Z) : H (option (list Z)) :=
  set_cause VW_TRANSLATE_FAILURE_LOCAL ;; for_each fds close_fd ;; vw_translate_keep_sigpipe_ignored ;; mret None.

(** The pipe's ends must be close-on-exec; those in [held] are closed with them when
    they are not. *)
Definition open_pipe (held : list Z) (next : Z * Z -> H (option (list Z))) : H (option (list Z)) :=
  ends ← vw_translate_make_cloexec_pipe;
  match ends with
  | None => abandon held
  | Some (r, w) =>
      ok ← both (vw_translate_set_cloexec r) (vw_translate_set_cloexec w);
      if ok : bool then next (r, w) else abandon (r :: w :: held)
  end.

(** ** The command line *)

(** ["%.3f"] of the timeout in seconds. *)
Definition timeout_sec_str (timeout_ms : Z) : list Z := decimal (timeout_ms / 1000) ++ str "." ++ padded 3 (timeout_ms mod 1000).
(** The content type's header must fit its buffer. *)
Definition content_args (content_type : option (list Z)) : option (list (list Z)) :=
  match content_type with
  | None => Some []
  | Some ct => header ← sized 256 (str "Content-Type: " ++ ct); Some [str "-H"; header]
  end.
Definition payload_args (post_body query_text : option (list Z)) : list (list Z) :=
  match post_body, query_text with
  | Some _, _ => [str "-X"; str "POST"; str "--data-binary"; str "@-"]
  | None, Some _ => [str "--get"; str "--data-urlencode"; str "q@-"]
  | None, None => []
  end.
Definition curl_argv (timeout_ms : Z) (ct_args : list (list Z)) (post_body query_text : option (list Z)) (base_url : list Z)
    : list (list Z) :=
  [VW_CURL_EXECUTABLE; str "--disable"; str "-f"; str "-sS"; str "--proto"; str "=https"; str "-m";
   timeout_sec_str timeout_ms; str "-A"; VW_TRANSLATE_USER_AGENT]
  ++ ct_args ++ payload_args post_body query_text
  ++ [str "-w"; 10 :: str "%{response_code}"; base_url].

(** What the child does with the descriptors: the pipes become its standard streams. *)
Definition curl_actions (pipe_out : Z * Z) (pipe_in : option (Z * Z)) : list file_action :=
  [AddClose (fst pipe_out); AddDup2 (snd pipe_out) 1; AddClose (snd pipe_out)]
  ++ match pipe_in with
     | Some (r, w) => [AddClose w; AddDup2 r 0; AddClose r]
     | None => []
     end.

(** ** Moving bytes *)

Definition close_in : H unit :=
  s ← gets h_locals;
  match tl_in s with
  | Some fd => close_fd fd ;; on_locals (fun t => t <| tl_in := None |>)
  | None => skip
  end.
Definition close_out : H unit :=
  s ← gets h_locals;
  match tl_out s with
  | Some fd => close_fd fd ;; on_locals (fun t => t <| tl_out := None |>)
  | None => skip
  end.

(** One [read] of the loop over [pipe_out[0]]; whether the loop goes on. A byte beyond
    the buffer is read into [extra]. *)
Definition read_step (buf_size : Z) : H bool :=
  t ← gets h_locals;
  match tl_out t with
  | None => mret false
  | Some fd =>
      let total_read := zlen (tl_buf t) in
      let capacity := if total_read + 1 <? buf_size then buf_size - 1 - total_read else 1 in
      answer ← px (fun x => read x fd capacity);
      match answer with
      | ReadBytes [] => close_out ;; mret false
      | ReadBytes data =>
          let data := ztake capacity data in
          note (GotBytes data) ;;
          on_locals (fun t => if buf_size <=? total_read + 1 then t <| tl_overflow := true |>
                              else t <| tl_buf := tl_buf t ++ data |>) ;;
          mret true
      | ReadError EINTR => mret true
      | ReadError EAGAIN => mret false
      | ReadError OtherError => close_out ;; mret false
      end
  end.

(** One [write] of the loop over [pipe_in[1]]. *)
Definition write_step (payload : list Z) : H bool :=
  t ← gets h_locals;
  match tl_in t with
  | None => mret false
  | Some fd =>
      if negb (tl_written t <? zlen payload) then mret false
      else
        let rest := zdrop (tl_written t) payload in
        answer ← px (fun x => write x fd rest);
        match answer with
        | WriteCount n =>
            if 0 <? n then
              let n := Z.min n (zlen rest) in
              note (SentBytes (ztake n rest)) ;;
              on_locals (fun t => t <| tl_written := tl_written t + n |>) ;;
              if zlen payload <=? tl_written t + n then close_in ;; mret false else mret true
            else mret true
        | WriteError EINTR => mret true
        | WriteError EAGAIN => mret false
        | WriteError OtherError => on_locals (fun t => t <| tl_write_failed := true |>) ;; close_in ;; mret false
        end
  end.

Definition has_events (revents mask : Z) : bool := negb (Z.land revents mask =? 0).
Definition serve_out (fuel : nat) (buf_size revents : Z) : H unit :=
  when (has_events revents (Z.lor (Z.lor POLLIN POLLHUP) POLLERR)) (while_loop fuel (read_step buf_size)).
Definition serve_in (fuel : nat) (payload : list Z) (revents : Z) : H unit :=
  if has_events revents (Z.lor POLLERR POLLHUP) then
    close_in ;;
    on_locals (fun t => if tl_written t <? zlen payload then t <| tl_write_failed := true |> else t)
  else when (has_events revents POLLOUT) (while_loop fuel (write_step payload)).

(** The body of the loop over both pipes. *)
Definition transfer_step (fuel : nat) (payload : list Z) (buf_size deadline_us : Z) : H bool :=
  t ← gets h_locals;
  match tl_in t, tl_out t with
  | None, None => mret false
  | in_fd, out_fd =>
      now_us ← px clock_us;
      let rem_ms := Z.quot (deadline_us - now_us) 1000 in
      if (deadline_us <? now_us) || (rem_ms <=? 0) then note GaveUp ;; mret false
      else
        answer ← px (fun x => poll x in_fd out_fd (if 200 <? rem_ms then 200 else rem_ms));
        match answer with
        | PollError EINTR => mret true
        | PollError _ => note GaveUp ;; mret false
        | PollTimeout => mret true
        | PollEvents in_revents out_revents =>
            (match out_fd with Some _ => serve_out fuel buf_size out_revents | None => skip end) ;;
            (match in_fd with Some _ => serve_in fuel payload in_revents | None => skip end) ;;
            mret true
        end
  end.

(** ** Reaping *)

(** [do { waitpid(pid, &status, 0) } while (EINTR)] *)
Definition wait_step (pid : Z) : H bool :=
  answer ← px (fun x => waitpid x pid true);
  match answer with
  | WaitDone status => note (ChildReaped pid status) ;; on_locals (fun t => t <| tl_waited := Some status |>) ;; mret false
  | WaitError EINTR => mret true
  | WaitRunning | WaitError _ => note (WaitFailed pid) ;; mret false
  end.
Definition kill_child (fuel : nat) (pid : Z) : H unit :=
  note (ChildKilled pid) ;; px_ (fun x => kill x pid) ;; while_loop fuel (wait_step pid).

(** The body of the loop that waits for the child, killed 100 ms after the deadline. *)
Definition reap_step (fuel : nat) (pid deadline_us : Z) : H bool :=
  answer ← px (fun x => waitpid x pid false);
  match answer with
  | WaitDone status => note (ChildReaped pid status) ;; on_locals (fun t => t <| tl_waited := Some status |>) ;; mret false
  | WaitError EINTR => mret true
  | WaitError _ => note (WaitFailed pid) ;; mret false
  | WaitRunning =>
      now_us ← px clock_us;
      if deadline_us + 100000 <? now_us then kill_child fuel pid ;; mret false
      else px_ (fun x => nanosleep x 5000000) ;; mret true
  end.

(** ** The answer *)

(** The status [-w] appended: a line break and three digits. *)
Definition split_status (buf : list Z) : option (list Z * Z) :=
  match rev buf with
  | d3 :: d2 :: d1 :: 10 :: rest =>
      if is_digit d1 && is_digit d2 && is_digit d3
      then Some (rev rest, (d1 - 48) * 100 + (d2 - 48) * 10 + (d3 - 48)) else None
  | _ => None
  end.
Definition exited_with (waited : option exit_status) (code : Z) : bool :=
  match waited with Some (Exited c) => c =? code | _ => false end.
Definition accepted_status (status : Z) : bool := (200 <=? status) && (status <? 300).

Definition failure_cause (status : option Z) (waited : option exit_status) (remaining_ms : Z) : Z :=
  if (remaining_ms =? 0) || exited_with waited 28 then VW_TRANSLATE_FAILURE_DEADLINE
  else if match status with Some status => negb (accepted_status status) | None => false end then VW_TRANSLATE_FAILURE_PROVIDER
  else if exited_with waited 22 then VW_TRANSLATE_FAILURE_PROVIDER
  else VW_TRANSLATE_FAILURE_TRANSPORT.

Definition conclude (deadline_us : Z) : H (option (list Z)) :=
  t ← gets h_locals;
  let '(response, status) := match split_status (tl_buf t) with
                             | Some (response, status) => (response, Some status)
                             | None => (tl_buf t, None)
                             end in
  (match status with
   | Some status => modify (fun s => s <| h_provider_status := status |>)
   | None => skip
   end) ;;
  let complete := negb (tl_overflow t) && negb (tl_write_failed t) && (0 <? zlen response)
    && match status with Some status => accepted_status status | None => false end && exited_with (tl_waited t) 0 in
  ok ← (if complete then now_us ← px clock_us; mret (now_us <=? deadline_us) else mret false);
  if ok : bool then mret (Some response)
  else
    remaining ← remaining_ms deadline_us;
    set_cause (failure_cause status (tl_waited t) remaining) ;;
    mret None.

(** ** The whole request *)

(** From the running child on. *)
Definition run_child (fuel : nat) (pid out_fd : Z) (in_fd : option Z) (payload : list Z) (buf_size deadline_us : Z)
    : H (option (list Z)) :=
  note (ChildStarted pid) ;;
  on_locals (fun _ => mk_locals in_fd (Some out_fd) 0 [] false false None) ;;
  out_ok ← vw_translate_set_nonblocking out_fd;
  nonblocking_ok ← (match in_fd with
                    | Some fd => in_ok ← vw_translate_set_nonblocking fd; mret (in_ok && out_ok)
                    | None => mret out_ok
                    end);
  if negb nonblocking_ok then
    set_cause VW_TRANSLATE_FAILURE_LOCAL ;;
    close_out ;; close_in ;;
    kill_child fuel pid ;;
    vw_translate_keep_sigpipe_ignored ;; mret None
  else
    when (bool_decide (in_fd <> None) && (zlen payload =? 0)) close_in ;;
    while_loop fuel (transfer_step fuel payload buf_size deadline_us) ;;
    close_in ;; close_out ;;
    vw_translate_keep_sigpipe_ignored ;;
    while_loop fuel (reap_step fuel pid deadline_us) ;;
    conclude deadline_us.

(** With both pipes open: [held] are the ends in the order in which a failure closes
    them. *)
Definition spawn_curl (fuel : nat) (base_url : list Z) (post_body query_text content_type : option (list Z))
    (timeout_ms : Z) (pipe_out : Z * Z) (pipe_in : option (Z * Z)) (payload : list Z) (buf_size deadline_us : Z)
    : H (option (list Z)) :=
  let held := fst pipe_out :: snd pipe_out :: match pipe_in with Some (r, w) => [r; w] | None => [] end in
  match content_args content_type with
  | None => abandon held
  | Some ct_args =>
      init ← px file_actions_init;
      if negb init then abandon held
      else
        attr_init ← px spawnattr_init;
        child ← px (fun x => posix_spawn x (curl_argv timeout_ms ct_args post_body query_text base_url)
                              (curl_actions pipe_out pipe_in) attr_init);
        close_fd (snd pipe_out) ;;
        (match pipe_in with Some (r, _) => close_fd r | None => skip end) ;;
        match child with
        | None => abandon (fst pipe_out :: match pipe_in with Some (_, w) => [w] | None => [] end)
        | Some pid => run_child fuel pid (fst pipe_out) (snd <$> pipe_in) payload buf_size deadline_us
        end
  end.

Definition input_payload (post_body query_text : option (list Z)) : option (list Z) :=
  match post_body with Some _ => post_body | None => query_text end.

(** The response, when there is one; its buffer holds [buf_size] bytes. *)
Definition posix_http_request (fuel : nat) (base_url : list Z) (post_body query_text content_type : option (list Z))
    (buf_size deadline_us : Z) : H (option (list Z)) :=
  if buf_size <? 2 then set_cause VW_TRANSLATE_FAILURE_LOCAL ;; mret None
  else
    timeout_ms ← remaining_ms deadline_us;
    if timeout_ms =? 0 then set_cause VW_TRANSLATE_FAILURE_DEADLINE ;; mret None
    else
      vw_translate_keep_sigpipe_ignored ;;
      open_pipe [] (fun pipe_out =>
        let run pipe_in payload :=
          spawn_curl fuel base_url post_body query_text content_type timeout_ms pipe_out pipe_in payload buf_size deadline_us in
        match input_payload post_body query_text with
        | Some payload => open_pipe [fst pipe_out; snd pipe_out] (fun pipe_in => run (Some pipe_in) payload)
        | None => run None []
        end).

(** A request begins with the cause and status of its thread. *)
Definition new_request (cause provider_status : Z) (ext : X) : http X :=
  mk_http cause provider_status (mk_locals None None 0 [] false false None) [] false ext.
End transfer.
