(* ===== verification/HttpProgress.v ===== *)
(** * A transfer comes to an end

    The laws of the system calls by which [posix_http_request] of [HttpTransfer] ends,
    the proof that no loop of it runs out of fuel, and a scripted system in which it
    can be run. *)

From stdpp Require Import relations.
From S2P Require Import Prelude.
From S2P Require Import CString.
From S2P Require Import State.
From S2P Require Import TranslateTiers.
From S2P Require Import HttpTransfer.
#[local] Open Scope Z_scope.

Section progress.
Context {X : Type} `{!ProcEnv X}.
#[local] Abbreviation H := (M (http X)).
Context (deadline_us : Z) (ticks work : X -> nat).
Definition advances (x x' : X) : Prop := (ticks x' <= ticks x)%nat /\ (work x' <= work x)%nat.
Definition spends (spent : bool) (x x' : X) : Prop := advances x x' /\ (spent = true -> (work x' < work x)%nat).

(** The system calls come to an end: [ticks] bounds the clock readings until 100 ms
    after the deadline (time passes from one to the next); [work] bounds the reads that
    return bytes (the child's output is finite), the writes that take none, and the
    calls a signal interrupts. *)
Class Progress := {
  pg_clock x : advances x (snd (clock_us x)) /\ (fst (clock_us x) <= deadline_us + 100000 -> (ticks (snd (clock_us x)) < ticks x)%nat);
  pg_read x fd n : spends match fst (read x fd n) with ReadBytes (_ :: _) | ReadError EINTR => true | _ => false end x (snd (read x fd n));
  pg_write x fd l : spends match fst (write x fd l) with WriteCount n => n <=? 0 | WriteError EINTR => true | _ => false end
    x (snd (write x fd l));
  pg_waitpid x pid b : spends match fst (waitpid x pid b) with WaitError EINTR => true | _ => false end x (snd (waitpid x pid b));
  pg_poll x a b t : advances x (snd (poll x a b t));
  pg_pipe x : advances x (snd (pipe x));
  pg_fcntl x fd c : advances x (snd (fcntl x fd c));
  pg_file_actions_init x : advances x (snd (file_actions_init x));
  pg_spawnattr_init x : advances x (snd (spawnattr_init x));
  pg_posix_spawn x argv acts b : advances x (snd (posix_spawn x argv acts b));
  pg_signal_ignore x : advances x (signal_ignore x);
  pg_close x fd : advances x (close x fd);
  pg_kill x pid : advances x (kill x pid);
  pg_nanosleep x us : advances x (nanosleep x us)
}.
Context `{!Progress}.

(** What every call keeps: no more is left to do, and no loop ran out of fuel. *)
Definition steady (s s' : http X) : Prop :=
  advances (h_ext s) (h_ext s') /\ h_stuck s' = h_stuck s /\
  (0 <= tl_written (h_locals s) -> 0 <= tl_written (h_locals s')).
#[local] Instance steady_preorder : PreOrder steady.
Proof.
  split; [by intros s; split; [split|]|]. intros s1 s2 s3 ((A1 & A2) & B & C) ((D1 & D2) & E & F).
  split; [split; lia|]. split; [by rewrite E|tauto].
Qed.
Lemma spends_advances b x x' : spends b x x' -> advances x x'.
Proof. by intros []. Qed.
Lemma steady_px {A} (f : X -> A * X) : (forall x, advances x (snd (f x))) -> keeps steady (px f).
Proof. intros Hf s. specialize (Hf (h_ext s)). unfold px. by destruct (f (h_ext s)). Qed.
Lemma steady_px_ (f : X -> X) : (forall x, advances x (f x)) -> keeps steady (px_ f).
Proof. intros Hf s. by split. Qed.
Lemma steady_note e : keeps steady (note (X := X) e).
Proof. by intros s. Qed.
Lemma steady_locals f : (forall t, 0 <= tl_written t -> 0 <= tl_written (f t)) -> keeps steady (on_locals (X := X) f).
Proof. intros Hf s. split; [by split|]. split; [done|]. apply Hf. Qed.
Lemma steady_cause cause : keeps steady (set_cause (X := X) cause).
Proof. by intros s. Qed.
Lemma pg_clock_advances x : advances x (snd (clock_us x)).
Proof. apply pg_clock. Qed.
Lemma pg_read_advances x fd n : advances x (snd (read x fd n)).
Proof. apply (spends_advances _ _ _ (pg_read x fd n)). Qed.
Lemma pg_write_advances x fd l : advances x (snd (write x fd l)).
Proof. apply (spends_advances _ _ _ (pg_write x fd l)). Qed.
Lemma pg_waitpid_advances x pid b : advances x (snd (waitpid x pid b)).
Proof. apply (spends_advances _ _ _ (pg_waitpid x pid b)). Qed.
Create HintDb progress.
#[local] Hint Resolve pg_clock_advances pg_read_advances pg_write_advances pg_waitpid_advances pg_poll pg_pipe pg_fcntl
  pg_file_actions_init pg_spawnattr_init pg_posix_spawn pg_signal_ignore pg_close pg_kill pg_nanosleep : progress.
#[local] Hint Extern 1 (keeps steady (px _)) => (apply steady_px; auto with progress) : keeps.
#[local] Hint Extern 1 (keeps steady (px_ _)) => (apply steady_px_; auto with progress) : keeps.
#[local] Hint Resolve steady_note steady_cause : keeps.
#[local] Hint Extern 1 (keeps steady (on_locals _)) => (by apply steady_locals) : keeps.
#[local] Hint Extern 1 (keeps steady (modify _)) => (by intros ?) : keeps.

Lemma steady_close_fd fd : keeps steady (close_fd (X := X) fd).
Proof. unfold close_fd. keeps_steps. Qed.
#[local] Hint Resolve steady_close_fd : keeps.
Lemma steady_close_in : keeps steady (close_in (X := X)).
Proof. unfold close_in. keeps_steps. Qed.
Lemma steady_close_out : keeps steady (close_out (X := X)).
Proof. unfold close_out. keeps_steps. Qed.
Lemma steady_ignore : keeps steady (vw_translate_keep_sigpipe_ignored (X := X)).
Proof. unfold vw_translate_keep_sigpipe_ignored. keeps_steps. Qed.
Lemma steady_cloexec fd : keeps steady (vw_translate_set_cloexec (X := X) fd).
Proof. unfold vw_translate_set_cloexec. keeps_steps. Qed.
Lemma steady_nonblocking fd : keeps steady (vw_translate_set_nonblocking (X := X) fd).
Proof. unfold vw_translate_set_nonblocking. keeps_steps. Qed.
#[local] Hint Resolve steady_close_in steady_close_out steady_ignore steady_cloexec steady_nonblocking : keeps.
Lemma steady_both (a b : H bool) : keeps steady a -> keeps steady b -> keeps steady (both a b).
Proof. intros. unfold both. keeps_steps. Qed.
#[local] Hint Resolve steady_both : keeps.
Lemma steady_make_pipe : keeps steady (vw_translate_make_cloexec_pipe (X := X)).
Proof. unfold vw_translate_make_cloexec_pipe. keeps_steps. Qed.
Lemma steady_abandon fds : keeps steady (abandon (X := X) fds).
Proof. unfold abandon. keeps_steps. Qed.
Lemma steady_conclude : keeps steady (conclude (X := X) deadline_us).
Proof. unfold conclude, remaining_ms. keeps_steps. Qed.

(** ** The loops *)

(** At most [n] is left to do. *)
Definition calm (n : nat) (s : http X) : Prop :=
  (ticks (h_ext s) + work (h_ext s) <= n)%nat /\ h_stuck s = false /\ 0 <= tl_written (h_locals s).
Lemma calm_after n s s' : steady s s' -> calm n s -> calm n s'.
Proof. intros ((? & ?) & Hk & Hw) (? & ? & ?). split; [lia|]. split; [congruence|auto]. Qed.
Lemma triple_steady {A} n (m : H A) : keeps steady m -> triple (calm n) m (fun _ => calm n).
Proof. intros Hm s. apply calm_after, Hm. Qed.

(** A loop whose body spends of [left] each time it goes on. *)
Lemma while_calm n fuel (body : H bool) (left_of : http X -> nat) :
  (forall s, calm n s -> calm n (snd (body s)) /\ (fst (body s) = true -> (left_of (snd (body s)) < left_of s)%nat)) ->
  triple (fun s => calm n s /\ (left_of s < fuel)%nat) (while_loop fuel body) (fun _ => calm n).
Proof.
  intros Hb. induction fuel as [|fuel IH]; intros s [Hs Hf]; [lia|]. cbn [while_loop]. rewrite bind_run.
  destruct (Hb s Hs) as [Hs' Hgo]. destruct (fst (body s)); [|done]. apply IH. split; [done|]. specialize (Hgo eq_refl). lia.
Qed.

Lemma px_run {A} (f : X -> A * X) s : px f s = (fst (f (h_ext s)), s <| h_ext := snd (f (h_ext s)) |>).
Proof. unfold px. by destruct (f (h_ext s)). Qed.

Lemma steady_read buf_size : keeps steady (read_step (X := X) buf_size).
Proof. unfold read_step. keeps_steps. apply steady_locals. intros t Ht. by case_goal. Qed.
Lemma read_spends buf_size s :
  fst (read_step buf_size s) = true -> (work (h_ext (snd (read_step buf_size s))) < work (h_ext s))%nat.
Proof.
  unfold read_step. rewrite bind_run. cbn [gets fst snd]. destruct (tl_out (h_locals s)) as [fd|]; [|done].
  set (capacity := if zlen _ + 1 <? _ then _ else _). rewrite bind_run, px_run. cbn [fst snd].
  destruct (pg_read (h_ext s) fd capacity) as [_ Hr]. destruct (fst (read _ _ _)) as [[|b data]|[]]; cbn; try done;
    intros Hgo; first [by apply Hr|by rewrite bind_run in Hgo].
Qed.
Lemma read_loop_calm n fuel buf_size : (n < fuel)%nat ->
  triple (calm n) (while_loop fuel (read_step (X := X) buf_size)) (fun _ => calm n).
Proof.
  intros Hf s Hs. apply (while_calm n fuel _ (fun s => work (h_ext s))); [|split; [done|destruct Hs; lia]].
  intros s' Hs'. split; [by apply (calm_after n s'), Hs'; apply steady_read|apply read_spends].
Qed.

Lemma steady_write payload : keeps steady (write_step (X := X) payload).
Proof.
  unfold write_step. keeps_steps. apply steady_locals. intros t Ht. cbn.
  match goal with |- context [zlen ?l] => pose proof (zlen_nonneg l) end. lia.
Qed.
Definition unsent (payload : list Z) (s : http X) : nat :=
  (work (h_ext s) + Z.to_nat (zlen payload - tl_written (h_locals s)))%nat.
Lemma write_spends payload s : 0 <= tl_written (h_locals s) ->
  fst (write_step payload s) = true -> (unsent payload (snd (write_step payload s)) < unsent payload s)%nat.
Proof.
  intros Hw. unfold write_step. rewrite bind_run. cbn [gets fst snd]. destruct (tl_in (h_locals s)) as [fd|]; [|done].
  destruct (tl_written (h_locals s) <? zlen payload) eqn:El; [|done]. cbn [negb]. set (rest := zdrop _ _).
  rewrite bind_run, px_run. cbn [fst snd]. destruct (pg_write (h_ext s) fd rest) as [[_ Ha] Hr].
  assert (zlen rest = zlen payload - tl_written (h_locals s)) as Hl by (unfold rest; rewrite zlen_zdrop; lia).
  destruct (fst (write _ _ _)) as [m|[]]; try done.
  - destruct (0 <? m) eqn:Em.
    + rewrite !bind_run. cbn. case_goal; [by rewrite bind_run|]. intros _. unfold unsent. cbn. lia.
    + intros _. specialize (Hr ltac:(lia)). unfold unsent. cbn. lia.
  - intros _. specialize (Hr eq_refl). unfold unsent. cbn. lia.
  - by rewrite !bind_run.
Qed.
Lemma write_loop_calm n fuel payload : (n + length payload < fuel)%nat ->
  triple (calm n) (while_loop fuel (write_step (X := X) payload)) (fun _ => calm n).
Proof.
  intros Hf s Hs. apply (while_calm n fuel _ (unsent payload)); [|split; [done|destruct Hs as (? & ? & ?); unfold unsent; zlia]].
  intros s' Hs'. split; [by apply (calm_after n s'), Hs'; apply steady_write|apply write_spends, Hs'].
Qed.

Lemma serve_calm n fuel payload buf_size in_ev out_ev : (n + length payload < fuel)%nat ->
  triple (calm n) (serve_out (X := X) fuel buf_size out_ev) (fun _ => calm n) /\
  triple (calm n) (serve_in (X := X) fuel payload in_ev) (fun _ => calm n).
Proof.
  intros Hf. unfold serve_out, serve_in, when. split; apply triple_if; intros _; [apply read_loop_calm; lia|by intros s| |].
  - apply triple_steady. keeps_steps. apply steady_locals. intros t. by case_goal.
  - apply triple_if; intros _; [by apply write_loop_calm|by intros s].
Qed.

(** Loops, too, leave no more to do. *)
Definition slower (s s' : http X) : Prop := advances (h_ext s) (h_ext s').
#[local] Instance slower_preorder : PreOrder slower.
Proof. split; [by split|]. intros s1 s2 s3 [A B] [C D]. split; lia. Qed.
Lemma slower_steady {A} (m : H A) : keeps steady m -> keeps slower m.
Proof. intros Hm s. apply Hm. Qed.
Lemma slower_while fuel (body : H bool) : keeps slower body -> keeps slower (while_loop fuel body).
Proof.
  intros Hb. induction fuel as [|fuel IH]; [by intros s; split|]. cbn [while_loop]. apply (keeps_bind slower); [done|].
  intros []; [done|apply (keeps_skip slower)].
Qed.
Lemma slower_serve fuel payload buf_size in_ev out_ev :
  keeps slower (serve_out (X := X) fuel buf_size out_ev) /\ keeps slower (serve_in (X := X) fuel payload in_ev).
Proof.
  unfold serve_out, serve_in. split; keeps_steps; try (apply slower_while, slower_steady; first [apply steady_read|apply steady_write]).
  - apply slower_steady, steady_close_in.
  - apply slower_steady, steady_locals. intros t. by case_goal.
Qed.
Lemma slower_wait fuel pid : keeps slower (while_loop fuel (wait_step (X := X) pid)).
Proof. apply slower_while, slower_steady. unfold wait_step. keeps_steps. Qed.


Lemma triple_skip n : triple (calm n) (skip (S := http X)) (fun _ => calm n).
Proof. by intros s. Qed.
Lemma transfer_calm n fuel payload buf_size : (n + length payload < fuel)%nat ->
  triple (calm n) (transfer_step (X := X) fuel payload buf_size deadline_us) (fun _ => calm n).
Proof.
  intros Hf. unfold transfer_step. eapply triple_bind; [apply triple_steady; keeps_steps|]. cbv beta. intros t.
  destruct (tl_in t) as [in_fd|], (tl_out t) as [out_fd|]; [| | |by intros s].
  all: eapply triple_bind; [apply triple_steady; auto with keeps|]; cbv beta; intros now_us; apply triple_if; intros _;
    [apply triple_steady; keeps_steps|].
  all: eapply triple_bind; [apply triple_steady; auto with keeps|]; cbv beta.
  all: intros [[]| |in_ev out_ev]; try (solve [apply triple_steady; keeps_steps]).
  all: eapply triple_bind; [first [by apply (serve_calm n fuel payload buf_size in_ev out_ev)|apply triple_skip]|intros ?].
  all: eapply triple_bind; [first [by apply (serve_calm n fuel payload buf_size in_ev out_ev)|apply triple_skip]|intros ?].
  all: by intros s.
Qed.
Lemma transfer_spends fuel payload buf_size s :
  let r := transfer_step (X := X) fuel payload buf_size deadline_us s in
  fst r = true -> (ticks (h_ext (snd r)) < ticks (h_ext s))%nat.
Proof.
  unfold transfer_step. cbv zeta. rewrite bind_run. cbn [gets fst snd].
  destruct (tl_in (h_locals s)) as [in_fd|], (tl_out (h_locals s)) as [out_fd|]; [| | |done].
  all: rewrite bind_run, px_run; cbn [fst snd]; destruct (pg_clock (h_ext s)) as [_ Hc].
  all: set (now_us := fst (clock_us _)) in *; destruct (_ || _) eqn:Elate; [by rewrite bind_run|]; intros _.
  all: specialize (Hc ltac:(lia)); set (s1 := s <| h_ext := _ |>).
  all: match goal with |- (ticks (h_ext (snd (?m ?s1))) < _)%nat => assert (keeps slower m) as Hk;
    [|destruct (Hk s1) as [Ht _]; eapply Nat.le_lt_trans; [exact Ht|exact Hc]] end.
  all: apply (keeps_bind slower); [apply slower_steady; auto with keeps|]; intros [[]| |in_ev out_ev].
  all: try (solve [apply slower_steady; keeps_steps]).
  all: keeps_steps; first [by apply (slower_serve fuel payload buf_size in_ev out_ev)|apply _].
Qed.
Lemma transfer_loop_calm n fuel payload buf_size : (n + length payload < fuel)%nat ->
  triple (calm n) (while_loop fuel (transfer_step (X := X) fuel payload buf_size deadline_us)) (fun _ => calm n).
Proof.
  intros Hf s Hs. apply (while_calm n fuel _ (fun s => ticks (h_ext s))); [|split; [done|destruct Hs; lia]].
  intros s' Hs'. split; [by apply transfer_calm|apply transfer_spends].
Qed.

Lemma steady_wait pid : keeps steady (wait_step (X := X) pid).
Proof. unfold wait_step. keeps_steps. Qed.
Lemma wait_spends pid s :
  fst (wait_step pid s) = true -> (work (h_ext (snd (wait_step pid s))) < work (h_ext s))%nat.
Proof.
  unfold wait_step. rewrite bind_run, px_run. cbn [fst snd]. destruct (pg_waitpid (h_ext s) pid true) as [_ Hr].
  destruct (fst (waitpid _ _ _)) as [status| |[]]; rewrite ?bind_run; by auto.
Qed.
Lemma kill_calm n fuel pid : (n < fuel)%nat -> triple (calm n) (kill_child (X := X) fuel pid) (fun _ => calm n).
Proof.
  intros Hf. unfold kill_child. eapply triple_bind; [apply triple_steady; auto with keeps|]. intros ?.
  eapply triple_bind; [apply triple_steady; auto with keeps|]. intros ? s Hs.
  apply (while_calm n fuel _ (fun s => work (h_ext s))); [|split; [done|destruct Hs; lia]].
  intros s' Hs'. split; [by apply (calm_after n s'), Hs'; apply steady_wait|apply wait_spends].
Qed.
Lemma reap_calm n fuel pid : (n < fuel)%nat ->
  triple (calm n) (reap_step (X := X) fuel pid deadline_us) (fun _ => calm n).
Proof.
  intros Hf. unfold reap_step. eapply triple_bind; [apply triple_steady; auto with keeps|]. cbv beta.
  intros [status| |[]]; try (solve [apply triple_steady; keeps_steps]).
  eapply triple_bind; [apply triple_steady; auto with keeps|]. cbv beta. intros now_us. apply triple_if; intros ?.
  - eapply triple_bind; [by apply kill_calm|]. by intros _ s.
  - apply triple_steady. keeps_steps.
Qed.
Lemma reap_spends fuel pid s :
  let r := reap_step (X := X) fuel pid deadline_us s in
  fst r = true -> (ticks (h_ext (snd r)) + work (h_ext (snd r)) < ticks (h_ext s) + work (h_ext s))%nat.
Proof.
  unfold reap_step. cbv zeta. rewrite bind_run, px_run. cbn [fst snd].
  destruct (pg_waitpid (h_ext s) pid false) as [[Ht Hw] Hr]. set (x := snd (waitpid _ _ _)) in *.
  destruct (fst (waitpid _ _ _)) as [status| |[]]; rewrite ?bind_run; try done.
  - rewrite px_run. cbn [fst snd h_ext set_field set_h_ext].
    destruct (pg_clock x) as [[Ht' Hw'] Hc]. cbn. destruct (deadline_us + 100000 <? fst (clock_us x)) eqn:Elate; rewrite bind_run; [done|].
    intros _. specialize (Hc ltac:(lia)). cbn. pose proof (pg_nanosleep (snd (clock_us x)) 5000000) as [? ?]. lia.
  - intros _. specialize (Hr eq_refl). cbn. lia.
Qed.
Lemma reap_loop_calm n fuel pid : (n < fuel)%nat ->
  triple (calm n) (while_loop fuel (reap_step (X := X) fuel pid deadline_us)) (fun _ => calm n).
Proof.
  intros Hf s Hs. apply (while_calm n fuel _ (fun s => (ticks (h_ext s) + work (h_ext s))%nat)); [|split; [done|destruct Hs; lia]].
  intros s' Hs'. split; [by apply reap_calm|apply reap_spends].
Qed.

(** ** The whole request *)

Lemma run_child_calm n fuel pid out_fd in_fd payload buf_size : (n + length payload < fuel)%nat ->
  triple (calm n) (run_child (X := X) fuel pid out_fd in_fd payload buf_size deadline_us) (fun _ => calm n).
Proof.
  intros Hf. unfold run_child. eapply triple_bind; [apply triple_steady; auto with keeps|]. intros ?.
  eapply triple_bind; [apply triple_steady; auto with keeps|]. intros ?.
  eapply triple_bind; [apply triple_steady; auto with keeps|]. intros out_ok.
  eapply triple_bind; [apply triple_steady; keeps_steps|]. intros ok. cbv beta. apply triple_if; intros ?.
  - do 3 (eapply triple_bind; [apply triple_steady; auto with keeps|]; intros ?).
    eapply triple_bind; [apply kill_calm; lia|]. intros ?. apply triple_steady. keeps_steps.
  - eapply triple_bind; [apply triple_steady; keeps_steps|]. intros ?.
    eapply triple_bind; [by apply transfer_loop_calm|]. intros ?.
    do 3 (eapply triple_bind; [apply triple_steady; auto with keeps|]; intros ?).
    eapply triple_bind; [apply reap_loop_calm; lia|]. intros ?. apply triple_steady, steady_conclude.
Qed.
Lemma spawn_calm n fuel url post query ct timeout_ms pipe_out pipe_in payload buf_size : (n + length payload < fuel)%nat ->
  triple (calm n) (spawn_curl (X := X) fuel url post query ct timeout_ms pipe_out pipe_in payload buf_size deadline_us)
    (fun _ => calm n).
Proof.
  intros Hf. unfold spawn_curl. destruct (content_args ct) as [ct_args|]; [|apply triple_steady, steady_abandon].
  eapply triple_bind; [apply triple_steady; auto with keeps|]. cbv beta. intros []; [|apply triple_steady, steady_abandon].
  do 3 (eapply triple_bind; [apply triple_steady; auto with keeps|]; intros ?).
  eapply triple_bind; [apply triple_steady; keeps_steps|]. intros ?.
  match goal with |- context [match ?child with Some _ => _ | None => _ end] => destruct child as [pid|] end.
  - by apply run_child_calm.
  - apply triple_steady, steady_abandon.
Qed.
Lemma open_pipe_calm n fds (next : Z * Z -> H (option (list Z))) :
  (forall ends, triple (calm n) (next ends) (fun _ => calm n)) -> triple (calm n) (open_pipe fds next) (fun _ => calm n).
Proof.
  intros Hn. unfold open_pipe. eapply triple_bind; [apply triple_steady, steady_make_pipe|]. cbv beta.
  intros [[r w]|]; [|apply triple_steady, steady_abandon].
  eapply triple_bind; [apply triple_steady; auto with keeps|]. cbv beta. intros []; [apply Hn|apply triple_steady, steady_abandon].
Qed.
Lemma request_calm n fuel url post query ct buf_size :
  (n + length (default [] (input_payload post query)) < fuel)%nat ->
  triple (calm n) (posix_http_request (X := X) fuel url post query ct buf_size deadline_us) (fun _ => calm n).
Proof.
  intros Hf. unfold posix_http_request. apply triple_if; intros _; [apply triple_steady; keeps_steps|].
  eapply triple_bind; [apply triple_steady; unfold remaining_ms; keeps_steps|]. cbv beta. intros timeout_ms.
  apply triple_if; intros _; [apply triple_steady; keeps_steps|].
  eapply triple_bind; [apply triple_steady; auto with keeps|]. intros ?. apply open_pipe_calm. intros pipe_out.
  destruct (input_payload post query) as [payload|].
  - apply open_pipe_calm. intros pipe_in. by apply spawn_calm.
  - by apply spawn_calm.
Qed.
End progress.

(** ** A scripted system *)

(** A child whose output is there from the start, five bytes at a time; its input takes
    four bytes per clock reading, a millisecond each. [sc_broken] is when polling fails. *)
Record script := mk_script { sc_now : Z; sc_next_fd : Z; sc_output : list Z; sc_room : bool; sc_broken : Z; sc_exit : exit_status }.
#[global] Instance script_env : ProcEnv script := {
  clock_us '(mk_script now fd out room broken exit) := (now, mk_script (now + 1000) fd out true broken exit);
  signal_ignore x := x;
  pipe '(mk_script now fd out room broken exit) := (Some (fd, fd + 1), mk_script now (fd + 2) out room broken exit);
  fcntl x _ _ := (0, x);
  close x _ := x;
  file_actions_init x := (true, x);
  spawnattr_init x := (true, x);
  posix_spawn x _ _ _ := (Some 42, x);
  poll x _ _ _ := (if sc_broken x <=? sc_now x then PollError OtherError else PollEvents POLLOUT POLLIN, x);
  read '(mk_script now fd out room broken exit) _ _ := (ReadBytes (take 5 out), mk_script now fd (drop 5 out) room broken exit);
  write '(mk_script now fd out room broken exit) _ bytes :=
    (if room then WriteCount 4 else WriteError EAGAIN, mk_script now fd out false broken exit);
  kill x _ := x;
  waitpid x _ _ := (WaitDone (sc_exit x), x);
  nanosleep x _ := x;
  VW_CURL_EXECUTABLE := str "/usr/bin/curl"
}.
Definition script_ticks (deadline_us : Z) (x : script) : nat := Z.to_nat ((deadline_us + 100000 - sc_now x) / 1000 + 1).
Definition script_work (x : script) : nat := length (sc_output x).
#[global] Instance script_progress deadline_us : Progress deadline_us (script_ticks deadline_us) script_work.
Proof.
  split; try (intros []; intros; by split).
  - intros [now fd out room broken exit]. cbn. unfold script_ticks, script_work, advances. cbn.
    replace (deadline_us + 100000 - (now + 1000)) with (deadline_us + 100000 - now + (-1) * 1000) by lia.
    rewrite Z.div_add by lia. split; [split; lia|]. intros Hnow.
    pose proof (Z.div_pos (deadline_us + 100000 - now) 1000 ltac:(lia) ltac:(lia)). lia.
  - intros [now fd out room broken exit] fd' n. cbn. unfold spends, advances, script_ticks, script_work. cbn.
    rewrite length_drop. destruct out as [|b out]; cbn; lia.
  - intros [now fd out room broken exit] fd' l. cbn. destruct room; by split.
Qed.

(** A request within its bounds. *)
Definition sample_script : script := mk_script 0 3 (str "bonjour" ++ [10] ++ str "200") true 1000000 (Exited 0).
Definition sample_request (broken : Z) : option (list Z) * http script :=
  posix_http_request 200 (str "https:") None (Some (str "hello")) None 64 50000
    (new_request VW_TRANSLATE_FAILURE_TRANSPORT 0 (mk_script 0 3 (sc_output sample_script) true broken (Exited 0))).
Example sample_answer : fst (sample_request 1000000) = Some (str "bonjour").
Proof. vm_compute. reflexivity. Qed.

(** C34: No loop of a transfer runs forever: when the time to the deadline and 100 ms, the
    child's output and the interruptions are bounded, that bound with the payload's
    length is fuel enough. *)
Theorem transfer_terminates {X} `{!ProcEnv X} (deadline_us : Z) (ticks work : X -> nat) `{!Progress deadline_us ticks work}
    (fuel : nat) (url : list Z) (post query ct : option (list Z)) (buf_size cause status : Z) (x : X) :
  (ticks x + work x + length (default [] (input_payload post query)) < fuel)%nat ->
  h_stuck (snd (posix_http_request fuel url post query ct buf_size deadline_us (new_request cause status x))) = false.
Proof.
  intros Hf. pose proof (request_calm deadline_us ticks work (ticks x + work x) fuel url post query ct buf_size Hf) as Hc.
  destruct (Hc (new_request cause status x)) as (_ & Hk & _); [|exact Hk]. by split.
Qed.
Lemma transfer_terminates_witness : h_stuck (snd (sample_request 1000000)) = false.
Proof.
  refine (transfer_terminates 50000 (script_ticks 50000) script_work 200 _ None (Some (str "hello")) None 64
    VW_TRANSLATE_FAILURE_TRANSPORT 0 sample_script _).
  vm_compute. repeat constructor.
Defined.
