(* ===== verification/HttpProperties.v ===== *)
(** * What a transfer leaves behind

    What [posix_http_request] of [HttpTransfer] holds is read off its log; every exit
    gives it back, an answer it accepts is the child's whole output, and within the
    deadline and the bytes there are it comes to an end. *)

From stdpp Require Import relations.
From S2P Require Import Prelude.
From S2P Require Import CString.
From S2P Require Import State.
From S2P Require Import TranslateTiers.
From S2P Require Import HttpTransfer.
From S2P Require Import HttpProgress.
#[local] Open Scope Z_scope.

(** ** Reading the log *)

(** What the process holds: descriptors, a child to be reaped, and [SIGPIPE] ignored. *)
Record holdings := mk_holdings { ho_fds : list Z; ho_child : option Z; ho_ignoring : bool }.
Definition nothing : holdings := mk_holdings [] None false.

(** A wrong use has no result: closing what is not open, killing or reaping another
    process than the child, writing while [SIGPIPE] would end the process. *)
Definition use (h : holdings) (e : proc_event) : option holdings :=
  let '(mk_holdings fds child ignoring) := h in
  match e with
  | SigpipeIgnored => Some (mk_holdings fds child true)
  | FdOpened fd => Some (mk_holdings (fd :: fds) child ignoring)
  | FdClosed fd => fds ← take_out fd fds; Some (mk_holdings fds child ignoring)
  | ChildStarted pid => match child with None => Some (mk_holdings fds (Some pid) ignoring) | Some _ => None end
  | ChildKilled pid => if decide (child = Some pid) then Some h else None
  | ChildReaped pid _ | WaitFailed pid => if decide (child = Some pid) then Some (mk_holdings fds None ignoring) else None
  | SentBytes _ => if ignoring then Some h else None
  | GotBytes _ | GaveUp => Some h
  end.
Definition held (log : list proc_event) : option holdings :=
  foldl (fun h e => h ≫= fun h => use h e) (Some nothing) log.
Definition received (log : list proc_event) : list Z :=
  mjoin (omap (fun e => match e with GotBytes data => Some data | _ => None end) log).
Definition sent (log : list proc_event) : list Z :=
  mjoin (omap (fun e => match e with SentBytes data => Some data | _ => None end) log).

Lemma held_snoc log e : held (log ++ [e]) = held log ≫= fun h => use h e.
Proof. unfold held. by rewrite foldl_app. Qed.
Lemma received_snoc log e : received (log ++ [e]) = received log ++ match e with GotBytes data => data | _ => [] end.
Proof. unfold received. rewrite omap_app, join_app. f_equal. destruct e; simpl; rewrite ?app_nil_r; done. Qed.
Lemma sent_snoc log e : sent (log ++ [e]) = sent log ++ match e with SentBytes data => data | _ => [] end.
Proof. unfold sent. rewrite omap_app, join_app. f_equal. destruct e; simpl; rewrite ?app_nil_r; done. Qed.

(** The first call of a sequence by its lemma. *)
Ltac next lem := eapply triple_bind; [apply lem|cbv beta; intros ?].

Section properties.
Context {X : Type} `{!ProcEnv X}.
#[local] Abbreviation H := (M (http X)).

(** ** Holding and giving back *)

(** What is held, up to the order of the descriptors, and the bytes moved so far. *)
Definition owns (fds : list Z) (child : option Z) (ignoring : bool) (got put : list Z) (s : http X) : Prop :=
  (exists l, held (h_log s) = Some (mk_holdings l child ignoring) /\ l ≡ₚ fds) /\
  received (h_log s) = got /\ sent (h_log s) = put.

(** All is given back; only a loop that ran out of fuel leaves the child. *)
Definition ended (s : http X) : Prop :=
  exists child ig got put, owns [] child ig got put s /\ (h_stuck s = false -> child = None).

Lemma owns_perm fds fds' child ig got put s : fds ≡ₚ fds' -> owns fds child ig got put s -> owns fds' child ig got put s.
Proof. intros Hp ((l & Hl & Hp') & Hm). split; [|done]. exists l. split; [done|]. by rewrite Hp', Hp. Qed.
Lemma owns_log fds child ig got put s s' : h_log s' = h_log s -> owns fds child ig got put s -> owns fds child ig got put s'.
Proof. unfold owns. by intros ->. Qed.
Lemma owns_use e fds child ig got put fds' child' ig' s s' :
  h_log s' = h_log s ++ [e] -> owns fds child ig got put s ->
  (forall l, l ≡ₚ fds -> exists l', use (mk_holdings l child ig) e = Some (mk_holdings l' child' ig') /\ l' ≡ₚ fds') ->
  owns fds' child' ig' (got ++ match e with GotBytes data => data | _ => [] end)
    (put ++ match e with SentBytes data => data | _ => [] end) s'.
Proof.
  intros Hlog ((l & Hl & Hp) & Hg & Hs) Hu. destruct (Hu l Hp) as (l' & He & Hp').
  unfold owns. rewrite Hlog, received_snoc, sent_snoc, Hg, Hs. split; [|done]. exists l'. split; [|done].
  by rewrite held_snoc, Hl.
Qed.
(** An event that moves no byte. *)
Lemma owns_event e fds child ig got put fds' child' ig' s s' :
  h_log s' = h_log s ++ [e] -> owns fds child ig got put s ->
  match e with GotBytes _ | SentBytes _ => False | _ => True end ->
  (forall l, l ≡ₚ fds -> exists l', use (mk_holdings l child ig) e = Some (mk_holdings l' child' ig') /\ l' ≡ₚ fds') ->
  owns fds' child' ig' got put s'.
Proof.
  intros Hlog Hs He Hu. pose proof (owns_use e _ _ _ _ _ _ _ _ s s' Hlog Hs Hu) as Ho.
  by destruct e; rewrite ?app_nil_r in Ho.
Qed.
Lemma owns_close fd fds child ig got put s s' :
  h_log s' = h_log s ++ [FdClosed fd] -> owns (fd :: fds) child ig got put s -> owns fds child ig got put s'.
Proof.
  intros Hlog Ho. apply (owns_event _ _ _ _ _ _ _ _ _ s s' Hlog Ho I). intros l Hl. cbn [use].
  destruct (take_out_in fd l) as (l' & -> & Hp); [rewrite Hl; left|].
  exists l'. split; [done|]. rewrite Hl in Hp. by apply (Permutation_cons_inv (a := fd)).
Qed.
Lemma owns_got data fds child ig got put s s' :
  h_log s' = h_log s ++ [GotBytes data] -> owns fds child ig got put s -> owns fds child ig (got ++ data) put s'.
Proof.
  intros Hlog Ho. rewrite <- (app_nil_r put). eapply (owns_use (GotBytes data)); [done..|]. intros l Hl. by exists l.
Qed.
Lemma owns_sent data fds child got put s s' :
  h_log s' = h_log s ++ [SentBytes data] -> owns fds child true got put s -> owns fds child true got (put ++ data) s'.
Proof.
  intros Hlog Ho. rewrite <- (app_nil_r got). eapply (owns_use (SentBytes data)); [done..|]. intros l Hl. by exists l.
Qed.

(** One event in the state the call reaches. *)
Ltac event := eapply owns_event; [reflexivity|eassumption|done|];
  intros ? ?; eexists; split; [cbn; rewrite ?decide_True by done; reflexivity|try done].

(** Calls that change neither the log nor the transfer's variables. *)
Definition same_log (s s' : http X) : Prop := h_log s' = h_log s /\ h_locals s' = h_locals s /\ h_stuck s' = h_stuck s.
#[local] Instance same_log_preorder : PreOrder same_log.
Proof. split; [done|]. intros s1 s2 s3 (A & B & C) (D & E & F). unfold same_log. by rewrite D, E, F. Qed.
Lemma same_log_px {A} (f : X -> A * X) : keeps same_log (px f).
Proof. intros s. unfold px. by destruct (f (h_ext s)). Qed.
Lemma same_log_ext (f : X -> X) : keeps same_log (px_ f).
Proof. by intros s. Qed.
Lemma same_log_cause cause : keeps same_log (set_cause (X := X) cause).
Proof. by intros s. Qed.
#[local] Hint Resolve same_log_px same_log_ext same_log_cause : keeps.
Lemma same_log_cloexec fd : keeps same_log (vw_translate_set_cloexec (X := X) fd).
Proof. unfold vw_translate_set_cloexec. keeps_steps. Qed.
Lemma same_log_nonblocking fd : keeps same_log (vw_translate_set_nonblocking (X := X) fd).
Proof. unfold vw_translate_set_nonblocking. keeps_steps. Qed.
#[local] Hint Resolve same_log_cloexec same_log_nonblocking : keeps.
Lemma same_log_both (a b : H bool) : keeps same_log a -> keeps same_log b -> keeps same_log (both a b).
Proof. intros. unfold both. keeps_steps. Qed.
#[local] Hint Resolve same_log_both : keeps.

Section held_steps.
Context (child : option Z) (ig : bool) (got put : list Z).
Lemma triple_same {A} fds (m : H A) : keeps same_log m ->
  triple (owns fds child ig got put) m (fun _ => owns fds child ig got put).
Proof. intros Hm s. destruct (Hm s) as [Hl _]. by apply owns_log. Qed.
Lemma owns_note_open fd fds :
  triple (owns fds child ig got put) (note (X := X) (FdOpened fd)) (fun _ => owns (fd :: fds) child ig got put).
Proof. intros s Hs. event. by constructor. Qed.
Lemma owns_close_fd fd fds :
  triple (owns (fd :: fds) child ig got put) (close_fd (X := X) fd) (fun _ => owns fds child ig got put).
Proof. intros s Hs. eapply owns_close, Hs. done. Qed.
Lemma owns_close_all fds :
  triple (owns fds child ig got put) (for_each fds (close_fd (X := X))) (fun _ => owns [] child ig got put).
Proof.
  induction fds as [|fd fds IH]; [by intros s|]. cbn [for_each]. next owns_close_fd. exact IH.
Qed.
Lemma owns_ignored fds :
  triple (owns fds child true got put) (vw_translate_keep_sigpipe_ignored (X := X)) (fun _ => owns fds child true got put).
Proof. intros s Hs. event. Qed.
End held_steps.

(** ** Before the child *)

(** A failure of the transfer names its cause. *)
Definition failed (s : http X) : Prop :=
  h_cause s ∈ [VW_TRANSLATE_FAILURE_LOCAL; VW_TRANSLATE_FAILURE_DEADLINE; VW_TRANSLATE_FAILURE_PROVIDER;
               VW_TRANSLATE_FAILURE_TRANSPORT].
Definition abandoned (r : option (list Z)) (s : http X) : Prop := r = None /\ ended s /\ failed s.
(** Nothing has moved and no child runs. *)
Definition preparing (fds : list Z) : http X -> Prop := owns fds None true [] [].

(** The calls of a clean-up leave the cause. *)
Definition same_cause (s s' : http X) : Prop := h_cause s' = h_cause s.
#[local] Instance same_cause_preorder : PreOrder same_cause.
Proof. split; [done|]. intros s1 s2 s3 E1 E2. by transitivity (h_cause s2). Qed.
Lemma same_cause_px {A} (f : X -> A * X) : keeps same_cause (px f).
Proof. intros s. unfold px. by destruct (f (h_ext s)). Qed.
Lemma keeps_while (R : relation (http X)) `{!PreOrder R} fuel (body : H bool) :
  (forall s, R s (s <| h_stuck := true |>)) -> keeps R body -> keeps R (while_loop fuel body).
Proof.
  intros Hs Hb. induction fuel as [|fuel IH]; [exact Hs|]. cbn [while_loop]. apply (keeps_bind R); [done|].
  intros []; [done|apply (keeps_skip R)].
Qed.
#[local] Hint Resolve same_cause_px : keeps.
#[local] Hint Extern 1 (keeps same_cause (modify _)) => (intros ?; exact eq_refl) : keeps.
Lemma same_cause_close_fd fd : keeps same_cause (close_fd (X := X) fd).
Proof. unfold close_fd, px_, note. keeps_steps. Qed.
#[local] Hint Resolve same_cause_close_fd : keeps.
Lemma same_cause_closes : keeps same_cause (close_out (X := X)) /\ keeps same_cause (close_in (X := X)).
Proof. unfold close_in, close_out, on_locals. split; keeps_steps. Qed.
Lemma same_cause_kill fuel pid : keeps same_cause (kill_child (X := X) fuel pid).
Proof.
  unfold kill_child, wait_step, note, px_, on_locals. keeps_steps. apply (keeps_while same_cause); [intros s; exact eq_refl|]. keeps_steps.
Qed.
Lemma failed_cause {A} cause (m : H A) s : cause ∈ [VW_TRANSLATE_FAILURE_LOCAL; VW_TRANSLATE_FAILURE_DEADLINE;
    VW_TRANSLATE_FAILURE_PROVIDER; VW_TRANSLATE_FAILURE_TRANSPORT] ->
  keeps same_cause m -> failed (snd ((set_cause cause ;; m) s)).
Proof. intros Hc Hm. rewrite bind_run. unfold failed. by rewrite Hm. Qed.

Lemma abandon_ends fds : triple (preparing fds) (abandon (X := X) fds) abandoned.
Proof.
  assert (triple (preparing fds) (abandon (X := X) fds) (fun r s => r = None /\ ended s)) as Hb.
  { eapply triple_bind; [apply triple_same; auto with keeps|cbv beta; intros ?]. next owns_close_all. next owns_ignored.
    intros s Hs. split; [done|]. by exists None, true, [], []. }
  intros s Hs. destruct (Hb s Hs) as [Hr He]. split; [exact Hr|]. split; [exact He|].
  apply failed_cause; [left|]. unfold vw_translate_keep_sigpipe_ignored, note, px_. keeps_steps.
Qed.

Lemma make_pipe_holds fds :
  triple (preparing fds) (vw_translate_make_cloexec_pipe (X := X))
    (fun ends => preparing (match ends with Some (r, w) => r :: w :: fds | None => fds end)).
Proof.
  unfold vw_translate_make_cloexec_pipe, preparing.
  eapply triple_bind; [apply triple_same; auto with keeps|]. cbv beta. intros [[r w]|]; [|by intros s].
  next owns_note_open. next owns_note_open. eapply triple_bind; [apply triple_same; auto with keeps|]. cbv beta.
  intros ok. apply (triple_weaken _ (owns (r :: w :: fds) None true [] [])) with (Q' := fun ends =>
    preparing (match ends with Some (r, w) => r :: w :: fds | None => fds end)); [| |done].
  - destruct ok; [by intros s|]. next owns_close_fd. next owns_close_fd. by intros s.
  - intros s Hs. refine (owns_perm _ _ _ _ _ _ _ _ Hs). apply Permutation_swap.
Qed.
(** ** While the child runs *)

Section while_running.
Context (pid : Z) (payload : list Z) (buf_size : Z).

Definition pipes (t : transfer_locals) : list Z := option_list (tl_out t) ++ option_list (tl_in t).
(** The transfer was left before both pipes were done with. *)
Definition cut (s : http X) : Prop := GaveUp ∈ h_log s \/ h_stuck s = true.
Definition finished (s : http X) : Prop :=
  tl_write_failed (h_locals s) = true \/ tl_written (h_locals s) = zlen payload \/ cut s.

Record moving (s : http X) : Prop := {
  mv_owns : exists got,
    owns (pipes (h_locals s)) (Some pid) true got (ztake (tl_written (h_locals s)) payload) s /\
    (tl_overflow (h_locals s) = false -> got = tl_buf (h_locals s));
  mv_room : zlen (tl_buf (h_locals s)) < buf_size;
  mv_written : 0 <= tl_written (h_locals s) <= zlen payload;
  mv_waited : tl_waited (h_locals s) = None
}.
(** The input is closed only when it is done with. *)
Definition serving (s : http X) : Prop := moving s /\ (tl_in (h_locals s) = None -> finished s).

Lemma cut_later s s' : h_stuck s' = h_stuck s -> h_log s `prefix_of` h_log s' -> cut s -> cut s'.
Proof. unfold cut. intros -> [l ->]. rewrite elem_of_app. tauto. Qed.

(** Closing a pipe changes nothing else. *)
Lemma close_in_moving s : moving s ->
  let s' := snd (close_in s) in
  moving s' /\ h_locals s' = (h_locals s) <| tl_in := None |> /\ (cut s -> cut s').
Proof.
  intros [(got & Ho & Hg) Hr Hw Hwt]. unfold close_in. rewrite bind_run. cbn [gets fst snd].
  destruct s as [cause status [[fd|] out written buf wf ov waited] log stuck ext]; cbn in *.
  - split; [|split; [done|apply cut_later; [done|by exists [FdClosed fd]]]].
    split; cbn; [|done..]. exists got. split; [|done]. eapply owns_close; [reflexivity|].
    refine (owns_perm _ _ _ _ _ _ _ _ Ho). unfold pipes. cbn. rewrite Permutation_app_comm. cbn. by rewrite app_nil_r.
  - split; [|done]. split; cbn; [|done..]. by exists got.
Qed.
Lemma close_out_moving s : moving s ->
  let s' := snd (close_out s) in
  moving s' /\ h_locals s' = (h_locals s) <| tl_out := None |> /\ (cut s -> cut s').
Proof.
  intros [(got & Ho & Hg) Hr Hw Hwt]. unfold close_out. rewrite bind_run. cbn [gets fst snd].
  destruct s as [cause status [in_fd [fd|] written buf wf ov waited] log stuck ext]; cbn in *.
  - split; [|split; [done|apply cut_later; [done|by exists [FdClosed fd]]]].
    split; cbn; [|done..]. exists got. split; [|done]. by eapply owns_close.
  - split; [|done]. split; cbn; [|done..]. by exists got.
Qed.
Lemma close_out_serving : triple serving (close_out (X := X)) (fun _ => serving).
Proof.
  intros s [Hm Hf]. destruct (close_out_moving s Hm) as (Hm' & Hl & Hc). split; [done|].
  unfold finished in *. rewrite Hl. cbn. tauto.
Qed.
Lemma close_in_serving : triple (fun s => serving s /\ finished s) (close_in (X := X)) (fun _ => serving).
Proof.
  intros s [[Hm Hf] Hd]. destruct (close_in_moving s Hm) as (Hm' & Hl & Hc). split; [done|]. intros _.
  unfold finished in *. rewrite Hl. cbn. tauto.
Qed.
Lemma serving_ext s s' : same_log s s' -> serving s -> serving s'.
Proof.
  intros (Hl & Ht & Hk) [[(got & Ho & Hg) ???] Hf]. unfold serving, finished, cut in *. rewrite Hl, Ht, Hk.
  split; [|done]. split; rewrite ?Ht; try done. exists got. split; [|done]. by eapply owns_log.
Qed.
Lemma triple_serving {A} (m : H A) : keeps same_log m -> triple serving m (fun _ => serving).
Proof. intros Hm s. apply serving_ext, Hm. Qed.

(** The loop's rule, as for a body that never runs out of fuel. *)
Lemma while_triple (I : bool -> http X -> Prop) fuel (body : H bool) :
  triple (I true) body I -> (forall s, I true s -> I false (s <| h_stuck := true |>)) ->
  triple (I true) (while_loop fuel body) (fun _ => I false).
Proof.
  intros Hb Hs. induction fuel as [|fuel IH]; [exact Hs|]. cbn [while_loop].
  eapply triple_bind; [exact Hb|]. intros []; [exact IH|by intros s].
Qed.
Lemma while_serving fuel (body : H bool) :
  triple serving body (fun _ => serving) -> triple serving (while_loop fuel body) (fun _ => serving).
Proof.
  intros Hb. apply (while_triple (fun _ => serving)); [done|].
  intros s [[(got & Ho & Hg) ???] Hf]. split; [|right; right; by right].
  split; try done. exists got. split; [|done]. by apply (owns_log _ _ _ _ _ s).
Qed.

Lemma got_serving data s :
  serving s ->
  (zlen (tl_buf (h_locals s)) + 1 < buf_size -> zlen (tl_buf (h_locals s)) + zlen data < buf_size) ->
  serving (snd ((note (GotBytes data) ;;
    on_locals (fun t => if buf_size <=? zlen (tl_buf (h_locals s)) + 1 then t <| tl_overflow := true |>
                        else t <| tl_buf := tl_buf t ++ data |>)) s)).
Proof.
  intros [[(got & Ho & Hg) Hr Hw Hwt] Hf] Hfit. rewrite bind_run. cbn [note on_locals modify fst snd].
  set (s1 := s <| h_log := _ |>). change (h_locals s1) with (h_locals s).
  assert (cut s -> cut s1) as Hc by (apply cut_later; [done|by exists [GotBytes data]]).
  pose proof (owns_got data _ _ _ _ _ s s1 eq_refl Ho) as Ho1.
  case_goal; (split; [|intros Hi; destruct (Hf Hi) as [|[|]]; [by left|right; by left|right; right; by apply Hc]]).
  all: split; cbn; try done.
  - exists (got ++ data). split; [exact Ho1|done].
  - exists (got ++ data). split; [exact Ho1|]. intros Hov. by rewrite Hg.
  - rewrite zlen_app. apply Hfit. lia.
Qed.
Lemma read_serving : triple serving (read_step (X := X) buf_size) (fun _ => serving).
Proof.
  unfold read_step. intros s Hs. rewrite bind_run. cbn [gets fst snd].
  destruct (tl_out (h_locals s)) as [fd|] eqn:Eout; [|done].
  set (capacity := if zlen _ + 1 <? buf_size then _ else _). rewrite bind_run.
  set (s' := snd (px _ s)). assert (serving s') as Hs' by (refine (serving_ext s s' _ Hs); apply same_log_px).
  assert (h_locals s' = h_locals s) as Hl by apply (same_log_px (fun x => read x fd capacity) s).
  clearbody s'. destruct (fst _) as [[|b data]|[]]; try done.
  all: try (rewrite bind_run; by apply close_out_serving).
  rewrite then_run2, <- Hl. refine (got_serving _ s' Hs' _). intros Hroom. unfold capacity. rewrite <- Hl.
  replace (zlen _ + 1 <? buf_size) with true by lia.
  match goal with |- _ + zlen (ztake ?n ?l) < _ => pose proof (zlen_ztake_le n l ltac:(lia)) end. lia.
Qed.

Lemma ztake_step a b (l : list Z) : 0 <= a -> 0 <= b -> ztake (a + b) l = ztake a l ++ ztake b (zdrop a l).
Proof.
  intros Ha Hb. unfold ztake, zdrop. rewrite Z2Nat.inj_add by done. rewrite take_drop_commute.
  rewrite <- (take_drop (Z.to_nat a) (take (Z.to_nat a + Z.to_nat b) l)) at 1. by rewrite take_take, Nat.min_l by lia.
Qed.
(** What a write of [n] more bytes leaves. *)
Lemma sent_moving n s : moving s -> 0 <= n <= zlen payload - tl_written (h_locals s) ->
  let s' := snd ((note (SentBytes (ztake n (zdrop (tl_written (h_locals s)) payload))) ;;
                  on_locals (fun t => t <| tl_written := tl_written t + n |>)) s) in
  moving s' /\ h_locals s' = (h_locals s) <| tl_written := tl_written (h_locals s) + n |> /\ (cut s -> cut s').
Proof.
  intros [(got & Ho & Hg) Hr Hw Hwt] Hn. rewrite bind_run. cbn [note on_locals modify fst snd].
  set (s1 := s <| h_log := _ |>). split; [|split; [done|by apply cut_later; [|eexists]]].
  split; cbn; try done; [|lia]. exists got. split; [|done]. rewrite ztake_step by lia.
  refine (owns_log _ _ _ _ _ s1 _ eq_refl _). by refine (owns_sent _ _ _ _ _ s s1 eq_refl Ho).
Qed.
Lemma failed_serving s : moving s -> serving (s <| h_locals := (h_locals s) <| tl_write_failed := true |> |>).
Proof.
  intros [(got & Ho & Hg) ???]. split; [|by left]. split; try done. exists got. split; [|done].
  by refine (owns_log _ _ _ _ _ s _ eq_refl Ho).
Qed.
Lemma write_serving : triple serving (write_step (X := X) payload) (fun _ => serving).
Proof.
  unfold write_step. intros s Hs. rewrite bind_run. cbn [gets fst snd].
  destruct (tl_in (h_locals s)) as [fd|] eqn:Ein; [|done].
  destruct (tl_written (h_locals s) <? zlen payload) eqn:Ew; [|done]. cbn [negb].
  set (rest := zdrop _ payload). rewrite bind_run.
  set (s' := snd (px _ s)). assert (serving s') as Hs' by (refine (serving_ext s s' _ Hs); apply same_log_px).
  assert (h_locals s' = h_locals s) as Hl by apply (same_log_px (fun x => write x fd rest) s).
  clearbody s'. destruct (fst _) as [n|[]]; try done.
  - destruct (0 <? n) eqn:En; [|done]. destruct Hs' as [Hm' _].
    assert (zlen rest = zlen payload - tl_written (h_locals s')) as Hrest.
    { unfold rest. rewrite zlen_zdrop; rewrite <- Hl; [done|apply Hm']. }
    pose proof (mv_written _ Hm').
    rewrite then_run2. unfold rest in *. rewrite <- Hl in *.
    destruct (sent_moving (Z.min n (zlen (zdrop (tl_written (h_locals s')) payload))) s' Hm' ltac:(lia)) as (Hm2 & Hl2 & _).
    set (s2 := snd (_ s')) in *. clearbody s2. case_goal; rewrite ?bind_run.
    + assert (finished s2) as Hd by (right; left; rewrite Hl2; cbn; lia).
      by refine (close_in_serving _ (conj (conj Hm2 (fun _ => Hd)) Hd)).
    + split; [exact Hm2|]. intros Hi. cbn in Hi. rewrite Hl2 in Hi. cbn in Hi. congruence.
  - rewrite bind_run. cbn [on_locals modify fst snd]. rewrite bind_run.
    apply close_in_serving. split; [apply failed_serving, Hs'|by left].
Qed.

Lemma serve_out_serving fuel revents : triple serving (serve_out (X := X) fuel buf_size revents) (fun _ => serving).
Proof. unfold serve_out, when. apply triple_if; intros _; [apply while_serving, read_serving|by intros s]. Qed.
Lemma serve_in_serving fuel revents : triple serving (serve_in (X := X) fuel payload revents) (fun _ => serving).
Proof.
  unfold serve_in, when. apply triple_if; intros _.
  - intros s [Hm Hf]. rewrite bind_run. destruct (close_in_moving s Hm) as (Hm' & Hl & Hc).
    set (s' := snd (close_in s)) in *. clearbody s'. cbn [on_locals modify fst snd]. case_goal; [by apply failed_serving|].
    split; [destruct Hm' as [(got & Ho & Hg) ???]; split; try done; exists got; split; [|done];
      by refine (owns_log _ _ _ _ _ s' _ eq_refl Ho)|].
    intros _. right. left. cbn. pose proof (mv_written _ Hm'). lia.
  - apply triple_if; intros _; [apply while_serving, write_serving|by intros s].
Qed.

Definition left_open (go : bool) (s : http X) : Prop :=
  serving s /\ (go = false -> (tl_in (h_locals s) = None /\ tl_out (h_locals s) = None) \/ cut s).
Lemma give_up_serving s : serving s -> left_open false (snd (note GaveUp s)).
Proof.
  intros [[(got & Ho & Hg) ???] Hf]. assert (cut (snd (note GaveUp s))) as Hc.
  { left. cbn. rewrite elem_of_app. right. left. }
  split; [|by right]. split; [|intros _; right; by right]. split; try done. exists got. split; [|done].
  eapply owns_event; [reflexivity|exact Ho|done|]. intros l Hl. by exists l.
Qed.
Lemma transfer_serving fuel deadline_us :
  triple serving (transfer_step (X := X) fuel payload buf_size deadline_us) left_open.
Proof.
  unfold transfer_step. intros s Hs. rewrite bind_run. cbn [gets fst snd].
  destruct (tl_in (h_locals s)) as [in_fd|] eqn:Ein, (tl_out (h_locals s)) as [out_fd|] eqn:Eout.
  4: { split; [done|]. intros _. by left. }
  all: revert s Hs Ein Eout; intros s Hs _ _; (eapply triple_bind;
    [apply triple_serving; auto with keeps|cbv beta; intros now_us|exact Hs]); cbv zeta; apply triple_if; intros _;
    [intros s' Hs'; rewrite bind_run; by apply give_up_serving|].
  all: eapply triple_bind; [apply triple_serving; auto with keeps|cbv beta; intros [[]| |in_ev out_ev]].
  all: try (intros s' Hs'; rewrite ?bind_run; first [by apply give_up_serving|by split]).
  all: repeat (eapply triple_bind; [first [apply serve_out_serving|apply serve_in_serving|apply triple_serving, keeps_skip]|
    cbv beta; intros ?]).
  all: first [apply _|by intros s'].
Qed.
Lemma transfer_loop_serving fuel deadline_us :
  triple serving (while_loop fuel (transfer_step (X := X) fuel payload buf_size deadline_us)) (fun _ => left_open false).
Proof.
  apply (triple_weaken _ (left_open true)) with (Q' := fun _ => left_open false); [apply while_triple| |done].
  - apply (triple_weaken _ serving) with (Q' := left_open); [apply transfer_serving|by intros s [Hs _]|done].
  - intros s [[[(got & Ho & Hg) ???] Hf] _]. split; [|right; by right]. split; [|intros _; right; right; by right].
    split; try done. exists got. split; [|done]. by refine (owns_log _ _ _ _ _ s _ eq_refl Ho).
  - by intros s Hs.
Qed.

(** ** When both pipes are closed *)

(** [complete] is whether the transfer ran to its end. *)
Definition drained (complete : Prop) (child : option Z) (ig : bool) (s : http X) : Prop :=
  (exists got, owns [] child ig got (ztake (tl_written (h_locals s)) payload) s /\
    (tl_overflow (h_locals s) = false -> got = tl_buf (h_locals s))) /\
  zlen (tl_buf (h_locals s)) < buf_size /\ (complete -> finished s) /\
  (forall st, tl_waited (h_locals s) = Some st -> exists pid, ChildReaped pid st ∈ h_log s).
Lemma closed_drained (complete : Prop) s :
  moving s -> tl_in (h_locals s) = None -> tl_out (h_locals s) = None -> (complete -> finished s) ->
  drained complete (Some pid) true s.
Proof.
  intros [(got & Ho & Hg) Hr Hw Hwt] Hi Hout Hf. unfold pipes in Ho. rewrite Hi, Hout in Ho.
  split; [by exists got|]. split; [done|]. split; [done|]. intros st. by rewrite Hwt.
Qed.
Lemma close_both_drained :
  triple (left_open false) (close_in (X := X) ;; close_out) (fun _ => drained True (Some pid) true).
Proof.
  intros s [[Hm Hf] Hd]. rewrite bind_run. destruct (close_in_moving s Hm) as (Hm1 & Hl1 & Hc1).
  set (s1 := snd (close_in s)) in *. clearbody s1. destruct (close_out_moving s1 Hm1) as (Hm2 & Hl2 & Hc2).
  apply closed_drained; [done|by rewrite Hl2, Hl1..|]. intros _. unfold finished in *. rewrite Hl2, Hl1. cbn.
  destruct (Hd eq_refl) as [[Hi _]|]; [|tauto]. destruct (Hf Hi) as [|[|]]; tauto.
Qed.
Lemma close_both_failed :
  triple serving (close_out (X := X) ;; close_in) (fun _ => drained False (Some pid) true).
Proof.
  intros s [Hm Hf]. rewrite bind_run. destruct (close_out_moving s Hm) as (Hm1 & Hl1 & _).
  set (s1 := snd (close_out s)) in *. clearbody s1. destruct (close_in_moving s1 Hm1) as (Hm2 & Hl2 & _).
  by apply closed_drained; [done|rewrite Hl2, Hl1..|].
Qed.

Lemma drained_event complete e child ig child' ig' s s' :
  h_log s' = h_log s ++ [e] -> h_stuck s' = h_stuck s -> h_locals s' = h_locals s ->
  match e with GotBytes _ | SentBytes _ => False | _ => True end ->
  (forall l, use (mk_holdings l child ig) e = Some (mk_holdings l child' ig')) ->
  drained complete child ig s -> drained complete child' ig' s'.
Proof.
  intros Hlog Hk Hl He Hu ((got & Ho & Hg) & Hr & Hf & Hw). unfold drained, finished in *. rewrite Hl.
  split; [exists got; split; [|done]; eapply owns_event; eauto|]. split; [done|]. split.
  - intros Hc. destruct (Hf Hc) as [|[|Hcut]]; [tauto..|]. right; right. eapply cut_later, Hcut; [done|]. rewrite Hlog. by eexists.
  - intros st Hst. destruct (Hw st Hst) as [p Hp]. exists p. rewrite Hlog, elem_of_app. by left.
Qed.
Lemma drained_log complete child ig s s' : same_log s s' -> drained complete child ig s -> drained complete child ig s'.
Proof.
  intros (Hlog & Hl & Hk) ((got & Ho & Hg) & Hrest). unfold drained, finished, cut in *. rewrite Hlog, Hl, Hk.
  split; [|done]. exists got. split; [|done]. by eapply owns_log.
Qed.
Lemma triple_drained {A} complete child ig (m : H A) :
  keeps same_log m -> triple (drained complete child ig) m (fun _ => drained complete child ig).
Proof. intros Hm s. apply drained_log, Hm. Qed.

Lemma reaped_child complete ig status s :
  drained complete (Some pid) ig s ->
  drained complete None ig (snd ((note (ChildReaped pid status) ;; on_locals (fun t => t <| tl_waited := Some status |>)) s)).
Proof.
  intros Hs. rewrite bind_run. set (s1 := snd (note _ s)).
  assert (drained complete None ig s1) as ((got & Ho & Hg) & Hr & Hf & Hw).
  { refine (drained_event _ _ _ _ _ _ s s1 eq_refl eq_refl eq_refl I _ Hs). intros l. cbn. by rewrite decide_True. }
  split; [exists got; split; [by refine (owns_log _ _ _ _ _ s1 _ eq_refl Ho)|done]|]. split; [done|]. split; [done|].
  cbn. intros st [= ->]. exists pid. rewrite elem_of_app. right. left.
Qed.
Lemma lost_child complete ig s :
  drained complete (Some pid) ig s -> drained complete None ig (snd (note (WaitFailed pid) s)).
Proof.
  intros Hs. set (s1 := snd (note _ s)).
  refine (drained_event _ (WaitFailed pid) _ _ _ _ s s1 eq_refl eq_refl eq_refl I _ Hs). intros l. cbn. by rewrite decide_True.
Qed.

(** The child waited for, with [SIGPIPE] still ignored or not. *)
Definition waited_for (complete : Prop) (ig go : bool) (s : http X) : Prop :=
  if go then drained complete (Some pid) ig s
  else exists child, drained complete child ig s /\ (h_stuck s = false -> child = None).
Lemma waited_stuck complete ig s : waited_for complete ig true s -> waited_for complete ig false (s <| h_stuck := true |>).
Proof.
  intros ((got & Ho & Hg) & Hr & Hf & Hw). exists (Some pid). split; [|done].
  split; [exists got; split; [by refine (owns_log _ _ _ _ _ s _ eq_refl Ho)|done]|]. split; [done|]. split; [|done].
  intros _. right; right; by right.
Qed.
Lemma reap_child complete ig status :
  triple (drained complete (Some pid) ig)
    (note (X := X) (ChildReaped pid status) ;; on_locals (fun t => t <| tl_waited := Some status |>) ;; mret false)
    (waited_for complete ig).
Proof. intros s Hs. rewrite then_run2. exists None. split; [by apply reaped_child|done]. Qed.
Lemma lose_child complete ig :
  triple (drained complete (Some pid) ig) (note (X := X) (WaitFailed pid) ;; mret false) (waited_for complete ig).
Proof. intros s Hs. rewrite bind_run. exists None. split; [by apply lost_child|done]. Qed.
Lemma wait_waited complete ig : triple (waited_for complete ig true) (wait_step (X := X) pid) (waited_for complete ig).
Proof.
  unfold wait_step. eapply triple_bind; [apply triple_drained; auto with keeps|]. cbv beta. intros [status| |[]].
  1: apply reap_child. all: first [apply lose_child|by intros s].
Qed.
Lemma kill_waited fuel complete ig :
  triple (waited_for complete ig true) (kill_child (X := X) fuel pid) (fun _ => waited_for complete ig false).
Proof.
  unfold kill_child. apply (triple_bind _ _ _ (fun _ => waited_for complete ig true)).
  - intros s Hs. set (s1 := snd (note _ s)).
    refine (drained_event _ (ChildKilled pid) _ _ _ _ s s1 eq_refl eq_refl eq_refl I _ Hs). intros l. cbn. by rewrite decide_True.
  - intros _. apply (triple_bind _ _ _ (fun _ => waited_for complete ig true)); [apply triple_drained; auto with keeps|].
    intros _. apply while_triple; [apply wait_waited|apply waited_stuck].
Qed.
Lemma reap_waited fuel complete ig deadline_us :
  triple (waited_for complete ig true) (reap_step (X := X) fuel pid deadline_us) (waited_for complete ig).
Proof.
  unfold reap_step. eapply triple_bind; [apply triple_drained; auto with keeps|]. cbv beta. intros [status| |[]].
  1: apply reap_child. 2: by intros s. 2,3: apply lose_child.
  eapply triple_bind; [apply triple_drained; auto with keeps|]. cbv beta. intros now_us. apply triple_if; intros _.
  - apply (triple_bind _ _ _ (fun _ => waited_for complete ig false)); [apply kill_waited|by intros _ s].
  - eapply triple_bind; [apply triple_drained; auto with keeps|]. by intros _ s.
Qed.

Lemma reap_loop_waited fuel complete ig deadline_us :
  triple (drained complete (Some pid) ig) (while_loop fuel (reap_step (X := X) fuel pid deadline_us))
    (fun _ => waited_for complete ig false).
Proof. apply (while_triple (waited_for complete ig)); [apply reap_waited|apply waited_stuck]. Qed.
Lemma drained_ignored complete child :
  triple (drained complete child true) (vw_translate_keep_sigpipe_ignored (X := X)) (fun _ => drained complete child true).
Proof.
  intros s Hs. unfold vw_translate_keep_sigpipe_ignored. rewrite bind_run. set (s1 := snd (px_ _ s)).
  assert (drained complete child true s1) as Hs1 by by eapply drained_log, Hs.
  set (s2 := snd (note _ s1)). by refine (drained_event _ SigpipeIgnored _ _ _ _ s1 s2 eq_refl eq_refl eq_refl I _ Hs1).
Qed.
Lemma waited_ignored complete : triple (waited_for complete true false) (vw_translate_keep_sigpipe_ignored (X := X)) (fun _ s => ended s).
Proof.
  intros s (child & Hs & Hk). destruct (drained_ignored _ _ s Hs) as [(got & Ho & _) _]. exists child, true, got. by eexists.
Qed.
End while_running.

(** ** The answer *)

(** A response [posix_http_request] gives back: the child's whole output but for the
    status, from a child that exited well, the payload sent to it. *)
Record valid (payload : list Z) (buf_size : Z) (response : list Z) (s : http X) : Prop := {
  va_received : exists d1 d2 d3, received (h_log s) = response ++ [10; d1; d2; d3] /\
    is_digit d1 /\ is_digit d2 /\ is_digit d3 /\ h_provider_status s = (d1 - 48) * 100 + (d2 - 48) * 10 + (d3 - 48);
  va_status : 200 <= h_provider_status s < 300;
  va_size : response <> [] /\ zlen response + 4 < buf_size;
  va_exit : exists pid, ChildReaped pid (Exited 0) ∈ h_log s;
  va_sent : exists n, sent (h_log s) = ztake n payload;
  va_all_sent : sent (h_log s) = payload \/ cut s
}.
Definition in_time (deadline_us : Z) (s : http X) : Prop := exists x now, clock_us x = (now, h_ext s) /\ now <= deadline_us.
Definition outcome (payload : list Z) (buf_size deadline_us : Z) (r : option (list Z)) (s : http X) : Prop :=
  ended s /\
  match r with
  | Some response => valid payload buf_size response s /\ in_time deadline_us s
  | None => failed s
  end.

Lemma split_status_some buf response status : split_status buf = Some (response, status) ->
  exists d1 d2 d3, buf = response ++ [10; d1; d2; d3] /\ is_digit d1 /\ is_digit d2 /\ is_digit d3 /\
    status = (d1 - 48) * 100 + (d2 - 48) * 10 + (d3 - 48).
Proof.
  unfold split_status. intros Hs. rewrite <- (rev_involutive buf). revert Hs.
  destruct (rev buf) as [|d3 [|d2 [|d1 [|c rest]]]]; try done. intros Hs.
  assert (c = 10) as -> by (destruct c as [|[p|p|]|]; try done; repeat (destruct p as [p|p|]; try done)).
  destruct (is_digit d1 && is_digit d2 && is_digit d3) eqn:Ed; inv_some. bool_to_prop.
  exists d1, d2, d3. split_and!; try done; try by apply Is_true_true.
  cbn [rev]. by rewrite <- !app_assoc.
Qed.
Lemma failure_cause_failed s status waited remaining :
  failed (s <| h_cause := failure_cause status waited remaining |>).
Proof. unfold failed. cbn. unfold failure_cause. rewrite !elem_of_cons. repeat case_match; tauto. Qed.

Lemma answer_outcome (complete : bool) payload buf_size deadline_us response (cause : Z -> Z) s :
  ended s -> (complete = true -> valid payload buf_size response s) -> (forall ms, failed (s <| h_cause := cause ms |>)) ->
  let r := (ok ← (if complete then now_us ← px clock_us; mret (now_us <=? deadline_us) else mret false);
    if ok : bool then mret (Some response)
    else remaining ← remaining_ms deadline_us; set_cause (cause remaining) ;; mret None) s in
  outcome payload buf_size deadline_us (fst r) (snd r).
Proof.
  intros He Hv Hc. unfold remaining_ms, px, mbind, M_bind, mret, M_ret. destruct complete; cbn; destruct (clock_us (h_ext s)) as [now x] eqn:Ex.
  - cbn. destruct (now <=? deadline_us) eqn:En; cbn.
    + split; [exact He|]. split; [by destruct (Hv eq_refl)|]. exists (h_ext s), now. split; [done|lia].
    + destruct (clock_us x) as [now' x']. cbn. split; [exact He|exact (Hc _)].
  - cbn. split; [exact He|exact (Hc _)].
Qed.
Lemma conclude_outcome pid payload buf_size deadline_us :
  triple (waited_for pid payload buf_size True true false) (conclude (X := X) deadline_us)
    (outcome payload buf_size deadline_us).
Proof.
  intros s (child & ((got & Ho & Hg) & Hr & Hf & Hw) & Hk).
  assert (ended s) as He by (exists child, true, got; by eexists). specialize (Hf I).
  unfold conclude. rewrite bind_run. cbn [gets fst snd].
  destruct (split_status (tl_buf (h_locals s))) as [[response status]|] eqn:Es; cbv beta iota zeta; rewrite bind_run.
  - apply answer_outcome; [done| |intros ms; apply failure_cause_failed]. intros Hcomplete. cbn. bool_to_prop.
    destruct (split_status_some _ _ _ Es) as (d1 & d2 & d3 & Hbuf & Hdigits).
    destruct Ho as (_ & Hgot & Hsent). rewrite Hg, Hbuf in Hgot by done.
    unfold accepted_status in *. bool_to_prop. split; cbn.
    + exists d1, d2, d3. split; [done|apply Hdigits].
    + lia.
    + rewrite Hbuf, zlen_app in Hr. split; [by intros ->|zlia].
    + apply Hw. unfold exited_with in *. destruct (tl_waited _) as [[c|]|]; try done. do 2 f_equal. lia.
    + by eexists.
    + destruct Hf as [|[Hall|Hcut]]; [congruence| |by right]. left. change (sent (h_log s) = payload). rewrite Hsent, Hall. by apply ztake_all.
  - apply answer_outcome; [done| |intros ms; apply failure_cause_failed]. by rewrite andb_false_r.
Qed.

(** ** The whole request *)

Lemma triple_then2 {A B C} P (a : H A) (b : H B) (c : H C) Q R :
  triple P (a ;; b) (fun _ => Q) -> triple Q c R -> triple P (a ;; b ;; c) R.
Proof. intros Hab Hc s Hs. rewrite then_run2. by apply Hc, Hab. Qed.
Lemma started_serving pid payload buf_size out_fd in_fd :
  2 <= buf_size -> (in_fd = None -> payload = []) ->
  triple (preparing (out_fd :: option_list in_fd))
    (note (X := X) (ChildStarted pid) ;; on_locals (fun _ => mk_locals in_fd (Some out_fd) 0 [] false false None))
    (fun _ => serving pid payload buf_size).
Proof.
  intros Hb Hp s Hs. rewrite bind_run. set (s1 := snd (note _ s)).
  assert (owns (out_fd :: option_list in_fd) (Some pid) true [] [] s1) as Ho.
  { eapply (owns_event (ChildStarted pid)); [reflexivity|exact Hs|done|]. intros l Hl. by exists l. }
  split; [split; cbn; try done; [|zlia|split; [done|apply zlen_nonneg]]|].
  - exists []. split; [|done]. by refine (owns_log _ _ _ _ _ s1 _ eq_refl Ho).
  - cbn. intros Hi. right. left. cbn. by rewrite Hp.
Qed.
Lemma empty_serving pid payload buf_size (b : bool) :
  triple (serving pid payload buf_size) (when (b && (zlen payload =? 0)) (close_in (X := X))) (fun _ => serving pid payload buf_size).
Proof.
  unfold when. apply triple_if; [|by intros _ s]. intros Hb s Hs. apply close_in_serving. split; [done|].
  right. left. destruct Hs as [[_ _ Hw _] _]. bool_to_prop. lia.
Qed.
Lemma run_child_outcome fuel pid out_fd in_fd payload buf_size deadline_us :
  2 <= buf_size -> (in_fd = None -> payload = []) ->
  triple (preparing (out_fd :: option_list in_fd)) (run_child (X := X) fuel pid out_fd in_fd payload buf_size deadline_us)
    (outcome payload buf_size deadline_us).
Proof.
  intros Hb Hp. unfold run_child. eapply triple_then2; [by apply started_serving|].
  eapply triple_bind; [apply triple_serving; auto with keeps|]. cbv beta. intros out_ok.
  eapply triple_bind; [apply triple_serving; destruct in_fd; keeps_steps|]. cbv beta. intros [].
  - cbn [negb]. eapply triple_bind; [apply empty_serving|]. intros ?.
    eapply triple_bind; [apply transfer_loop_serving|]. intros ?.
    eapply triple_then2; [apply close_both_drained|]. next drained_ignored. next reap_loop_waited.
    apply conclude_outcome.
  - cbn [negb]. set (clean_up := close_out ;; _). intros s Hs.
    assert (triple (serving pid payload buf_size) (set_cause VW_TRANSLATE_FAILURE_LOCAL ;; clean_up)
      (fun r s => r = None /\ ended s)) as Hcl.
    { eapply triple_bind; [apply triple_serving; auto with keeps|cbv beta; intros ?].
      eapply triple_then2; [apply close_both_failed|]. next kill_waited. next waited_ignored. by intros s'. }
    destruct (Hcl s Hs) as [Hr He]. split; [exact He|]. rewrite Hr. apply failed_cause; [left|].
    unfold clean_up. destruct same_cause_closes. pose proof (same_cause_kill fuel pid).
    unfold vw_translate_keep_sigpipe_ignored, note, px_. keeps_steps.
Qed.

Lemma triple_perm {A} fds fds' (m : H A) Q : fds ≡ₚ fds' -> triple (preparing fds') m Q -> triple (preparing fds) m Q.
Proof. intros Hp Hm s Hs. apply Hm. by apply (owns_perm fds). Qed.
Lemma abandon_outcome fds payload buf_size deadline_us :
  triple (preparing fds) (abandon (X := X) fds) (outcome payload buf_size deadline_us).
Proof. intros s Hs. destruct (abandon_ends fds s Hs) as (-> & He & Hf). by split. Qed.
Lemma spawn_outcome fuel url post query ct timeout_ms pipe_out pipe_in payload buf_size deadline_us :
  2 <= buf_size -> (pipe_in = None -> payload = []) ->
  triple (preparing (fst pipe_out :: snd pipe_out :: match pipe_in with Some (r, w) => [r; w] | None => [] end))
    (spawn_curl (X := X) fuel url post query ct timeout_ms pipe_out pipe_in payload buf_size deadline_us)
    (outcome payload buf_size deadline_us).
Proof.
  intros Hb Hp. unfold spawn_curl. destruct (content_args ct) as [ct_args|]; [|apply abandon_outcome].
  eapply triple_bind; [apply triple_same; auto with keeps|]. cbv beta. intros []; cbn [negb]; [|apply abandon_outcome].
  eapply triple_bind; [apply triple_same; auto with keeps|]. cbv beta. intros attr_init.
  eapply triple_bind; [apply triple_same; auto with keeps|]. cbv beta. intros child.
  eapply triple_perm; [apply Permutation_swap|]. next owns_close_fd.
  apply (triple_bind _ _ _ (fun _ => preparing (fst pipe_out :: option_list (snd <$> pipe_in)))).
  { destruct pipe_in as [[r w]|]; [|by intros s]. eapply triple_perm; [apply Permutation_swap|]. apply owns_close_fd. }
  intros _. destruct child as [pid|]; [apply run_child_outcome; [done|intros Hn; apply Hp; by destruct pipe_in]|].
  destruct pipe_in as [[r w]|]; apply abandon_outcome.
Qed.
Lemma open_pipe_outcome fds next payload buf_size deadline_us :
  (forall r w, triple (preparing (r :: w :: fds)) (next (r, w)) (outcome payload buf_size deadline_us)) ->
  triple (preparing fds) (open_pipe (X := X) fds next) (outcome payload buf_size deadline_us).
Proof.
  intros Hn. unfold open_pipe. next make_pipe_holds. destruct a as [[r w]|]; [|apply abandon_outcome].
  eapply triple_bind; [apply triple_same; auto with keeps|]. cbv beta. intros []; [apply Hn|apply abandon_outcome].
Qed.

Lemma request_outcome fuel url post query ct buf_size deadline_us s : h_log s = [] ->
  let r := posix_http_request (X := X) fuel url post query ct buf_size deadline_us s in
  outcome (default [] (input_payload post query)) buf_size deadline_us (fst r) (snd r).
Proof.
  intros Hlog. assert (owns [] None false [] [] s) as Hs by (unfold owns; rewrite Hlog; split; [by exists []|done]).
  assert (forall cause, cause ∈ [VW_TRANSLATE_FAILURE_LOCAL; VW_TRANSLATE_FAILURE_DEADLINE; VW_TRANSLATE_FAILURE_PROVIDER;
    VW_TRANSLATE_FAILURE_TRANSPORT] -> triple (owns [] None false [] []) (set_cause (X := X) cause ;; mret None)
      (outcome (default [] (input_payload post query)) buf_size deadline_us)) as Hearly.
  { intros cause Hc s' Hs'. split; [exists None, false, [], []; split; [|done]; by refine (owns_log _ _ _ _ _ s' _ eq_refl Hs')|done]. }
  revert s Hlog Hs. unfold posix_http_request. intros s _. revert s.
  refine (_ : triple _ _ _). apply triple_if; intros Hb; [apply Hearly; left|].
  eapply triple_bind; [apply triple_same; unfold remaining_ms; keeps_steps|]. cbv beta. intros timeout_ms.
  apply triple_if; intros _; [apply Hearly; right; left|].
  apply (triple_bind _ _ _ (fun _ => preparing [])); [intros s' Hs'; unfold preparing; event|]. intros _.
  apply open_pipe_outcome. intros r w.
  destruct post as [body|], query as [text|]; cbn [input_payload default].
  all: try (apply open_pipe_outcome; intros r' w';
    eapply triple_perm; [apply (Permutation_app_comm [r'; w'] [_; _])|by apply (spawn_outcome _ _ _ _ _ _ (r, w) (Some (r', w'))); [lia|]]).
  by apply (spawn_outcome _ _ _ _ _ _ (r, w) None); [lia|].
Qed.


(** C32: What a transfer holds is given back, whatever the system answers and wherever it
    fails: every pipe end opened is closed, once; the child is reaped, once, and killed
    only before; nothing is written while [SIGPIPE] would end the worker. Only a loop that ran out of fuel leaves the
    child. *)
Theorem transfer_releases (fuel : nat) (url : list Z) (post query ct : option (list Z))
    (buf_size deadline_us cause status : Z) (x : X) :
  let s := snd (posix_http_request fuel url post query ct buf_size deadline_us (new_request cause status x)) in
  exists child ignoring, held (h_log s) = Some (mk_holdings [] child ignoring) /\ (h_stuck s = false -> child = None).
Proof.
  cbv zeta. destruct (request_outcome fuel url post query ct buf_size deadline_us (new_request cause status x) eq_refl)
    as [(child & ig & got & put & ((l & Hl & Hp) & _) & Hk) _].
  apply Permutation_nil_r in Hp as ->. eauto.
Qed.

End properties.

(** A request can be cut and answered: polling fails once the child has answered and
    before it has the whole payload, which nothing checks at the end. *)
Example cut_request_answered :
  fst (sample_request 2500) = Some (str "bonjour") /\ sent (h_log (snd (sample_request 2500))) = str "hell".
Proof. vm_compute. by split. Qed.
