(* ===== verification/WorkerConfig.v ===== *)
(** * The worker's command line and model paths

    [src/worker/src/vw_worker_config.c]: option parsing with its bounds, the
    authentication token's hexadecimal form (printed by the plugin's
    [token_to_hex]) and the search for the speech and VAD model files. Strings are
    the bytes of C strings; the file system, the executable's path, the environment
    and whisper's language table are parameters. *)

From S2P Require Import Prelude.
From S2P Require Import CString.
From S2P Require Import ProtocolTypes.

Inductive vw_worker_backend_t :=
  VW_WORKER_BACKEND_AUTO | VW_WORKER_BACKEND_GPU | VW_WORKER_BACKEND_CPU.
#[global] Instance backend_eq_dec : EqDecision vw_worker_backend_t.
Proof. solve_decision. Defined.

Definition sizeof_pipe_name : Z := 256.
Definition sizeof_log_file : Z := 512.
Definition sizeof_language : Z := 16.

Record vw_worker_config_t := mk_config {
  cfg_model_path : list Z;        (* char[VW_PATH_MAX_BYTES] *)
  cfg_model_dir : list Z;         (* char[VW_PATH_MAX_BYTES] *)
  cfg_vad_model_path : list Z;    (* char[VW_PATH_MAX_BYTES] *)
  cfg_language : list Z;          (* char[16] *)
  cfg_n_threads : Z;              (* int *)
  cfg_sample_rate : Z;            (* uint32_t *)
  cfg_pipe_name : list Z;         (* char[256] *)
  cfg_log_file : list Z;          (* char[512] *)
  cfg_logging_enabled : bool;
  cfg_auth_token : list Z;        (* uint8_t[32] *)
  cfg_backend : vw_worker_backend_t;
  cfg_gpu_device : Z              (* int *)
}.

Definition vw_worker_config_init_defaults : vw_worker_config_t :=
  mk_config (str "models/ggml-tiny.bin") [] [] (str "en") 4 16000 [] [] false
    (zreplicate VW_AUTH_TOKEN_BYTES 0) VW_WORKER_BACKEND_AUTO 0.

(** ** The token in hexadecimal *)

Definition hex_nibble (c : Z) : option Z :=
  if (48 <=? c) && (c <=? 57) then Some (c - 48)
  else if (97 <=? c) && (c <=? 102) then Some (c - 97 + 10)
  else if (65 <=? c) && (c <=? 70) then Some (c - 65 + 10)
  else None.

(** The loop over the pairs of characters. *)
Fixpoint hex_pairs (hex : list Z) : option (list Z) :=
  match hex with
  | c1 :: c2 :: hex =>
      match hex_nibble c1, hex_nibble c2 with
      | Some hi, Some lo => tok ← hex_pairs hex; Some (u8 (Z.lor (Z.shiftl hi 4) lo) :: tok)
      | _, _ => None
      end
  | _ => Some []
  end.
Definition vw_token_from_hex (hex : list Z) : option (list Z) :=
  if negb (zlen hex =? VW_AUTH_TOKEN_BYTES * 2) then None else hex_pairs hex.

(** [snprintf("%02x")] of each byte. *)
Definition hex_digit (n : Z) : Z := if n <? 10 then 48 + n else 97 + (n - 10).
Definition token_to_hex (tok : list Z) : list Z :=
  concat (map (fun b => [hex_digit (Z.shiftr b 4); hex_digit (Z.land b 15)]) tok).

(** ** Options *)

Section parse.
(** [whisper_lang_id] of whisper.cpp: negative for an unknown language. *)
Context (whisper_lang_id : list Z -> Z).

(** One option given the string after it, if any; [None] is [return 2]. The
    result is the new configuration and whether the value was consumed. *)
Definition parse_option (c : vw_worker_config_t) (opt : list Z) (value : option (list Z))
  : option (vw_worker_config_t * bool) :=
  let '(mk_config model_path model_dir vad_model_path language n_threads sample_rate pipe_name
          log_file logging token backend gpu_device) := c in
  if bool_decide (opt = str "--token") then
    v ← value; tok ← vw_token_from_hex v;
    Some (mk_config model_path model_dir vad_model_path language n_threads sample_rate pipe_name
            log_file logging tok backend gpu_device, true)
  else if bool_decide (opt = str "--pipe") then
    v ← value; v ← sized sizeof_pipe_name v;
    Some (mk_config model_path model_dir vad_model_path language n_threads sample_rate v
            log_file logging token backend gpu_device, true)
  else if bool_decide (opt = str "--model") then
    v ← value; v ← sized VW_PATH_MAX_BYTES v;
    Some (mk_config v model_dir vad_model_path language n_threads sample_rate pipe_name
            log_file logging token backend gpu_device, true)
  else if bool_decide (opt = str "--model-dir") then
    v ← value; v ← sized VW_PATH_MAX_BYTES v;
    Some (mk_config model_path v vad_model_path language n_threads sample_rate pipe_name
            log_file logging token backend gpu_device, true)
  else if bool_decide (opt = str "--vad-model") then
    v ← value; v ← sized VW_PATH_MAX_BYTES v;
    Some (mk_config model_path model_dir v language n_threads sample_rate pipe_name
            log_file logging token backend gpu_device, true)
  else if bool_decide (opt = str "--log-file") then
    v ← value; v ← sized sizeof_log_file v;
    Some (mk_config model_path model_dir vad_model_path language n_threads sample_rate pipe_name
            v true token backend gpu_device, true)
  else if bool_decide (opt = str "--enable-logging") then
    Some (mk_config model_path model_dir vad_model_path language n_threads sample_rate pipe_name
            log_file true token backend gpu_device, false)
  else if bool_decide (opt = str "--backend") then
    b ← value;
    b ← (if bool_decide (b = str "auto") then Some VW_WORKER_BACKEND_AUTO
         else if bool_decide (b = str "gpu") then Some VW_WORKER_BACKEND_GPU
         else if bool_decide (b = str "cpu") then Some VW_WORKER_BACKEND_CPU
         else None);
    Some (mk_config model_path model_dir vad_model_path language n_threads sample_rate pipe_name
            log_file logging token b gpu_device, true)
  else if bool_decide (opt = str "--gpu-device") then
    v ← value; id ← strtol_whole v;
    if (id <? 0) || (65535 <? id) then None
    else Some (mk_config model_path model_dir vad_model_path language n_threads sample_rate pipe_name
                 log_file logging token backend id, true)
  else if bool_decide (opt = str "--language") then
    lang ← value;
    if (zlen lang =? 0) || (sizeof_language <=? zlen lang) then None
    else if bool_decide (lang = str "auto") then None
    else if whisper_lang_id lang <? 0 then None
    else Some (mk_config model_path model_dir vad_model_path lang n_threads sample_rate pipe_name
                 log_file logging token backend gpu_device, true)
  else if bool_decide (opt = str "--n-threads") then
    v ← value; n ← strtol_whole v;
    let n := if n <? 1 then 1 else n in
    let n := if 16 <? n then 16 else n in
    Some (mk_config model_path model_dir vad_model_path language n sample_rate pipe_name
            log_file logging token backend gpu_device, true)
  else None.

(** The loop over [argv] after the program's name; [None] is the error code 2. *)
Fixpoint vw_worker_config_parse_args (c : vw_worker_config_t) (argv : list (list Z))
  : option vw_worker_config_t :=
  match argv with
  | [] => Some c
  | opt :: rest =>
      match parse_option c opt (head rest) with
      | None => None
      | Some (c, false) => vw_worker_config_parse_args c rest
      | Some (c, true) =>
          match rest with
          | [] => None
          | _ :: rest => vw_worker_config_parse_args c rest
          end
      end
  end.
End parse.

(** ** Paths *)

Definition is_path_sep (c : Z) : bool := (c =? 47) || (c =? 92).

(** POSIX. *)
Definition vw_worker_config_is_absolute_path (path : list Z) : bool := prefixb (str "/") path.

(** The loop of [vw_worker_config_basename]. *)
Fixpoint basename_loop (cursor base : list Z) : list Z :=
  match cursor with
  | [] => base
  | c :: cursor => basename_loop cursor (if is_path_sep c then cursor else base)
  end.
Definition vw_worker_config_basename (path : list Z) : list Z := basename_loop path path.

(** The later of the last slash and the last backslash. *)
Definition last_separator (path : list Z) : option Z :=
  match strrchr path 47, strrchr path 92 with
  | Some a, Some b => Some (if b <? a then a else b)
  | Some a, None => Some a
  | None, b => b
  end.

(** [directory[strlen(directory) - 1]] is not a separator. *)
Definition needs_separator (directory : list Z) : bool :=
  negb (is_path_sep (znth directory (zlen directory - 1))).

Definition vw_worker_config_join_path (out_size : Z) (directory name : list Z) : option (list Z) :=
  if (out_size =? 0) || (zlen directory =? 0) || (zlen name =? 0) then None
  else
    let required := zlen directory + (if needs_separator directory then 1 else 0) + zlen name + 1 in
    if out_size <? required then None
    else Some (directory ++ (if needs_separator directory then str "/" else []) ++ name).

Definition k_vad_filename : list Z := str "ggml-silero-vad.bin".

Definition k_vad_candidates : list (list Z) :=
  [str "models/ggml-silero-vad.bin"; str "ggml-silero-vad.bin";
   str "../../../models/ggml-silero-vad.bin"; str "../../models/ggml-silero-vad.bin";
   str "../models/ggml-silero-vad.bin"].

(** [$XDG_DATA_HOME] and [$HOME]; [None] is unset. *)
Definition vw_worker_config_default_model_dir (xdg home : option (list Z)) (out_size : Z)
  : option (list Z) :=
  if out_size =? 0 then None
  else
    let dir :=
      match xdg with
      | Some ((_ :: _) as xdg) => xdg ++ str "/vlc-whisper/models"
      | _ => match home with
             | Some ((_ :: _) as home) => home ++ str "/.local/share/vlc-whisper/models"
             | _ => str "/tmp/vlc-whisper/models"
             end
      end in
    tmp ← sized 4096 dir; sized out_size tmp.

Section resolve.
(** Whether a file can be opened, what [/proc/self/exe] links to (truncated to the
    buffer by [readlink]; [None] on failure) and the environment. *)
Context (fopen_ok : list Z -> bool) (self_exe : option (list Z)) (xdg home : option (list Z)).

Definition vw_worker_config_file_exists (path : list Z) : bool := negb (zlen path =? 0) && fopen_ok path.

Definition vw_worker_config_get_executable_dir (out_size : Z) : option (list Z) :=
  if out_size =? 0 then None
  else
    path ← self_exe;
    let executable_path := ztake (VW_PATH_MAX_BYTES - 1) path in
    if zlen executable_path =? 0 then None
    else
      slash ← last_separator executable_path;
      let dir_length := if slash =? 0 then 1 else slash in
      if out_size <=? dir_length then None else Some (ztake dir_length executable_path).

Definition vw_worker_config_vad_beside (path : option (list Z)) (out_size : Z) : option (list Z) :=
  path ← path;
  if out_size =? 0 then None
  else
    slash ← last_separator path;
    let dir_len := slash + 1 in
    if out_size <? dir_len + (zlen k_vad_filename + 1) then None
    else
      let out := ztake dir_len path ++ k_vad_filename in
      if vw_worker_config_file_exists out then Some out else None.

Definition vw_worker_config_vad_in_dir (dir : list Z) (out_size : Z) : option (list Z) :=
  if zlen dir =? 0 then None
  else
    let required := zlen dir + (if needs_separator dir then 1 else 0) + zlen k_vad_filename + 1 in
    if out_size <? required then None
    else
      let out := dir ++ (if needs_separator dir then str "/" else []) ++ k_vad_filename in
      if vw_worker_config_file_exists out then Some out else None.

Definition vw_worker_config_vad_in_install_dir (out_size : Z) : option (list Z) :=
  executable_dir ← vw_worker_config_get_executable_dir VW_PATH_MAX_BYTES;
  install_model_dir ← vw_worker_config_join_path VW_PATH_MAX_BYTES executable_dir (str "models");
  vw_worker_config_vad_in_dir install_model_dir out_size.

(** The loop over the candidates relative to the working directory. *)
Fixpoint vad_candidates (candidates : list (list Z)) (out_size : Z) : option (list Z) :=
  match candidates with
  | [] => None
  | candidate :: candidates =>
      if vw_worker_config_file_exists candidate then sized out_size candidate
      else vad_candidates candidates out_size
  end.

(** The first of two searches that finds something. *)
Definition or_else (a b : option (list Z)) : option (list Z) :=
  match a with Some _ => a | None => b end.

Definition vw_worker_config_resolve_vad_model_path (c : vw_worker_config_t)
    (effective_model_path : option (list Z)) (out_size : Z) : option (list Z) :=
  if out_size =? 0 then None
  else if negb (zlen (cfg_vad_model_path c) =? 0) then sized out_size (cfg_vad_model_path c)
  else or_else (vw_worker_config_vad_beside effective_model_path out_size)
         (or_else (vw_worker_config_vad_in_dir (cfg_model_dir c) out_size)
            (or_else (vw_worker_config_vad_in_install_dir out_size)
               (vad_candidates k_vad_candidates out_size))).

(** [candidate] is a buffer of its own that is then copied to [out]. *)
Definition found_in (directory : list Z) (filename : list Z) : option (list Z) :=
  candidate ← vw_worker_config_join_path VW_PATH_MAX_BYTES directory filename;
  if vw_worker_config_file_exists candidate then Some candidate else None.

Definition found_installed (filename : list Z) (out_size : Z) : option (list Z) :=
  executable_dir ← vw_worker_config_get_executable_dir VW_PATH_MAX_BYTES;
  install_model_dir ← vw_worker_config_join_path VW_PATH_MAX_BYTES executable_dir (str "models");
  out ← vw_worker_config_join_path out_size install_model_dir filename;
  if vw_worker_config_file_exists out then Some out else None.

Definition found_default (filename : list Z) : option (list Z) :=
  default_dir ← vw_worker_config_default_model_dir xdg home VW_PATH_MAX_BYTES;
  found_in default_dir filename.

Definition vw_worker_config_resolve_model_path (c : vw_worker_config_t) (out_size : Z)
  : option (list Z) :=
  if (out_size =? 0) || (zlen (cfg_model_path c) =? 0) then None
  else if vw_worker_config_file_exists (cfg_model_path c) then sized out_size (cfg_model_path c)
  else if vw_worker_config_is_absolute_path (cfg_model_path c) then None
  else
    let filename := vw_worker_config_basename (cfg_model_path c) in
    if zlen filename =? 0 then None
    else match (if zlen (cfg_model_dir c) =? 0 then None else found_in (cfg_model_dir c) filename) with
    | Some candidate => sized out_size candidate
    | None =>
        match found_installed filename out_size with
        | Some out => Some out
        | None => candidate ← found_default filename; sized out_size candidate
        end
    end.
End resolve.

(** ** The token's two forms *)

(** A check of all the bytes. *)
Lemma byte_check (P : Z -> bool) :
  forallb P (map Z.of_nat (seq 0 256)) = true -> forall b, is_unsigned 8 b -> P b = true.
Proof.
  intros H b Hb. rewrite forallb_forall in H. apply H, in_map_iff. exists (Z.to_nat b).
  unfold is_unsigned in Hb. split; [lia|]. apply in_seq. lia.
Qed.

Definition nibbles_back (b : Z) : bool :=
  match hex_nibble (hex_digit (Z.shiftr b 4)), hex_nibble (hex_digit (Z.land b 15)) with
  | Some hi, Some lo => u8 (Z.lor (Z.shiftl hi 4) lo) =? b
  | _, _ => false
  end.
Lemma nibbles_back_ok b : is_unsigned 8 b -> nibbles_back b = true.
Proof. apply byte_check. vm_compute. reflexivity. Qed.

(** A character that reads as a nibble is, in lower case, that nibble's digit. *)
Lemma hex_nibble_lower c n : hex_nibble c = Some n -> 0 <= n < 16 /\ tolower c = hex_digit n.
Proof.
  unfold hex_nibble, tolower, hex_digit. intros H.
  case_ifs H; inv_some; bool_to_prop; (split; [lia|]);
    repeat case_goal; bool_to_prop; lia.
Qed.
Lemma pair_nibbles hi lo :
  0 <= hi < 16 -> 0 <= lo < 16 ->
  let b := u8 (Z.lor (Z.shiftl hi 4) lo) in Z.shiftr b 4 = hi /\ Z.land b 15 = lo.
Proof.
  intros Hh Hl. cbv zeta.
  assert (forallb (fun hi => forallb (fun lo =>
    (Z.shiftr (u8 (Z.lor (Z.shiftl hi 4) lo)) 4 =? hi) && (Z.land (u8 (Z.lor (Z.shiftl hi 4) lo)) 15 =? lo))
    (map Z.of_nat (seq 0 16))) (map Z.of_nat (seq 0 16)) = true) as H by (vm_compute; reflexivity).
  assert (forall x, 0 <= x < 16 -> In x (map Z.of_nat (seq 0 16))) as Hin.
  { intros x Hx. apply in_map_iff. exists (Z.to_nat x). split; [lia|]. apply in_seq. lia. }
  rewrite forallb_forall in H. specialize (H hi (Hin hi Hh)). rewrite forallb_forall in H.
  specialize (H lo (Hin lo Hl)). lia.
Qed.

Lemma hex_pairs_to_hex tok : is_bytes tok -> hex_pairs (token_to_hex tok) = Some tok.
Proof.
  induction tok as [|b tok IH]; [done|]. intros [Hb Ht]%is_bytes_cons.
  change (token_to_hex (b :: tok))
    with (hex_digit (Z.shiftr b 4) :: hex_digit (Z.land b 15) :: token_to_hex tok).
  cbn [hex_pairs]. pose proof (nibbles_back_ok b Hb) as H. unfold nibbles_back in H.
  destruct (hex_nibble _); [|done]. destruct (hex_nibble _); [|done]. rewrite IH by done. simpl. by apply Z.eqb_eq in H as ->.
Qed.
Lemma zlen_token_to_hex tok : zlen (token_to_hex tok) = 2 * zlen tok.
Proof.
  induction tok as [|b tok IH]; [done|].
  change (token_to_hex (b :: tok))
    with (hex_digit (Z.shiftr b 4) :: hex_digit (Z.land b 15) :: token_to_hex tok).
  rewrite !zlen_cons, IH. lia.
Qed.
Lemma hex_pairs_inv n : forall hex tok,
  length hex = (2 * n)%nat -> hex_pairs hex = Some tok ->
  length tok = n /\ is_bytes tok /\ token_to_hex tok = map tolower hex.
Proof.
  induction n as [|n IH]; intros hex tok Hl H.
  - destruct hex; [|simpl in Hl; lia]. injection H as <-. split_and!; try done. apply is_bytes_nil.
  - destruct hex as [|c1 [|c2 hex]]; simpl in Hl; try lia. cbn [hex_pairs] in H.
    destruct (hex_nibble c1) as [hi|] eqn:E1; [|done]. destruct (hex_nibble c2) as [lo|] eqn:E2; [|done].
    apply bind_Some in H as (t & Ht & [= <-]).
    destruct (IH hex t ltac:(lia) Ht) as (I1 & I2 & I3).
    apply hex_nibble_lower in E1 as [H1 E1], E2 as [H2 E2].
    destruct (pair_nibbles hi lo H1 H2) as [P1 P2].
    set (b := u8 _) in *.
    change (token_to_hex (b :: t))
      with (hex_digit (Z.shiftr b 4) :: hex_digit (Z.land b 15) :: token_to_hex t).
    cbn [length map]. rewrite P1, P2, I3, E1, E2. split_and!; [by rewrite I1| |done].
    apply is_bytes_cons. split; [|done]. apply mod_unsigned. lia.
Qed.

(** The authentication token survives the command line: the worker reads back
    every 32-byte token the plugin prints, and whatever it accepts is 64
    hexadecimal digits that, in lower case, are the token's only printed form. *)
Theorem token_hex_roundtrip (tok : list Z) :
  is_array VW_AUTH_TOKEN_BYTES tok ->
  vw_token_from_hex (token_to_hex tok) = Some tok
  /\ forall hex, vw_token_from_hex hex = Some tok -> map tolower hex = token_to_hex tok.
Proof.
  intros [Hl Hb]. unfold vw_token_from_hex. split.
  - rewrite zlen_token_to_hex, Hl. by apply hex_pairs_to_hex.
  - intros hex H. case_ifs H. bool_to_prop. symmetry.
    apply (hex_pairs_inv 32 hex tok); [unfold VW_AUTH_TOKEN_BYTES in *; zlia|done].
Qed.
Lemma token_hex_roundtrip_witness :
  vw_token_from_hex (token_to_hex (map Z.of_nat (seq 100 32))) = Some (map Z.of_nat (seq 100 32)).
Proof. apply (token_hex_roundtrip (map Z.of_nat (seq 100 32))). vm_decide. Defined.

(** ** Parsing keeps the configuration in bounds *)

(** Every string fits its buffer with its NUL, and the numbers are in range. *)
Record config_ok (c : vw_worker_config_t) : Prop := {
  cfg_ok_model : zlen (cfg_model_path c) < VW_PATH_MAX_BYTES;
  cfg_ok_dir : zlen (cfg_model_dir c) < VW_PATH_MAX_BYTES;
  cfg_ok_vad : zlen (cfg_vad_model_path c) < VW_PATH_MAX_BYTES;
  cfg_ok_language : zlen (cfg_language c) < sizeof_language;
  cfg_ok_threads : 1 <= cfg_n_threads c <= 16;
  cfg_ok_pipe : zlen (cfg_pipe_name c) < sizeof_pipe_name;
  cfg_ok_log : zlen (cfg_log_file c) < sizeof_log_file;
  cfg_ok_token : is_array VW_AUTH_TOKEN_BYTES (cfg_auth_token c);
  cfg_ok_gpu : 0 <= cfg_gpu_device c <= 65535
}.

Lemma token_array hex tok : vw_token_from_hex hex = Some tok -> is_array VW_AUTH_TOKEN_BYTES tok.
Proof.
  unfold vw_token_from_hex. intros H. case_ifs H. bool_to_prop.
  destruct (hex_pairs_inv 32 hex tok) as (Hl & Hb & _); [unfold VW_AUTH_TOKEN_BYTES in *; zlia|done|].
  split; [unfold VW_AUTH_TOKEN_BYTES; zlia|done].
Qed.

Lemma parse_option_ok lang_id c opt value c' used :
  config_ok c -> parse_option lang_id c opt value = Some (c', used) ->
  config_ok c' /\ (used = true -> value <> None).
Proof.
  intros Hok H. destruct c. unfold parse_option in H. destruct Hok as [K1 K2 K3 K4 K5 K6 K7 K8 K9]. simpl in *.
  repeat case_bool_decide;
    repeat match goal with
    | H : _ ≫= _ = Some _ |- _ => apply bind_Some in H as (? & ? & H)
    | H : (if _ then _ else _) = Some _ |- _ => case_if H
    | H : sized _ _ = Some _ |- _ => apply sized_inv in H as [-> ?]
    | H : vw_token_from_hex _ = Some _ |- _ => apply token_array in H
    end; inv_some; bool_to_prop; try done;
    (split; [split; simpl; try done; try (repeat case_goal; bool_to_prop; lia)|congruence || done]).
Qed.

Lemma parse_args_ok lang_id : forall n argv c c',
  (length argv <= n)%nat -> config_ok c -> vw_worker_config_parse_args lang_id c argv = Some c' -> config_ok c'.
Proof.
  induction n as [|n IH]; intros argv c c' Hn Hok H;
    (destruct argv as [|opt rest]; [by injection H as <-|]); [simpl in Hn; lia|].
  cbn [vw_worker_config_parse_args] in H. simpl in Hn.
  destruct (parse_option lang_id c opt (head rest)) as [[c1 []]|] eqn:E; [| |done];
    destruct (parse_option_ok lang_id c opt _ c1 _ Hok E) as [Hok1 _].
  - destruct rest as [|v rest]; [done|]. apply (IH rest c1); [simpl in Hn; lia|done|done].
  - apply (IH rest c1); [lia|done|done].
Qed.
Lemma defaults_ok : config_ok vw_worker_config_init_defaults.
Proof. by split; vm_decide. Qed.

(** ** The paths that are found *)



Definition no_sep (s : list Z) : Prop := Forall (fun c => is_path_sep c = false) s.

Lemma basename_loop_no_sep cursor : forall base,
  (no_sep cursor -> no_sep base) -> no_sep (basename_loop cursor base).
Proof.
  induction cursor as [|c cursor IH]; intros base H; cbn [basename_loop]; [by apply H, Forall_nil|].
  apply IH. destruct (is_path_sep c) eqn:E; [done|]. intros Hc. apply H. by constructor.
Qed.
Lemma basename_no_sep path : no_sep (vw_worker_config_basename path).
Proof. by apply basename_loop_no_sep. Qed.
Lemma basename_loop_id name base : no_sep name -> basename_loop name base = base.
Proof. intros H. induction H as [|c name Hc H IH]; cbn [basename_loop]; [done|]. by rewrite Hc. Qed.
Lemma basename_after d c name : forall base,
  is_path_sep c = true -> no_sep name -> basename_loop (d ++ c :: name) base = name.
Proof.
  induction d as [|x d IH]; intros base Hc Hn; cbn [basename_loop app]; [|by apply IH].
  rewrite Hc. by apply basename_loop_id.
Qed.

Lemma znth_last (l : list Z) x : znth (l ++ [x]) (zlen (l ++ [x]) - 1) = x.
Proof.
  unfold znth. rewrite zlen_app. change (zlen [x]) with 1.
  replace (Z.to_nat (zlen l + 1 - 1)) with (length l) by zlia. apply nth_middle.
Qed.

Lemma join_path_spec size dir name p :
  vw_worker_config_join_path size dir name = Some p -> no_sep name ->
  zlen p < size /\ vw_worker_config_basename p = name.
Proof.
  unfold vw_worker_config_join_path. intros H Hn. case_ifs H; injection H as <-; bool_to_prop;
    unfold vw_worker_config_basename, needs_separator in *;
    (destruct dir as [|x dir _] using rev_ind; [done|]);
    rewrite znth_last in *; (split; [rewrite ?zlen_app, ?zlen_cons, ?zlen_nil in *; lia|]).
  - by apply basename_after.
  - rewrite <- app_assoc. apply basename_after; [|done]. by apply negb_false_iff.
Qed.

Lemma joined_file_spec fopen_ok size dir name p :
  no_sep name ->
  (q ← vw_worker_config_join_path size dir name;
   if vw_worker_config_file_exists fopen_ok q then Some q else None) = Some p ->
  fopen_ok p = true /\ zlen p < size /\ vw_worker_config_basename p = name.
Proof.
  intros Hn H. apply bind_Some in H as (q & Hj & H). case_ifs H. inv_some.
  apply join_path_spec in Hj as [? ?]; [|done]. unfold vw_worker_config_file_exists in *. bool_to_prop. done.
Qed.
(** A resolved speech model is a file that opens, whose path fits the caller's
    buffer, and which has the configured file name; a configured path that opens
    is used as it is, and a missing absolute path is never replaced. *)
Theorem resolve_model_path_ok fopen_ok self_exe xdg home (c : vw_worker_config_t) (out_size : Z) (p : list Z) :
  vw_worker_config_resolve_model_path fopen_ok self_exe xdg home c out_size = Some p ->
  fopen_ok p = true /\ zlen p < out_size
  /\ vw_worker_config_basename p = vw_worker_config_basename (cfg_model_path c)
  /\ (fopen_ok (cfg_model_path c) = true \/ vw_worker_config_is_absolute_path (cfg_model_path c) = true ->
      p = cfg_model_path c).
Proof.
  pose proof (basename_no_sep (cfg_model_path c)) as Hb.
  unfold vw_worker_config_resolve_model_path, vw_worker_config_file_exists.
  set (name := vw_worker_config_basename _) in *. intros H. case_if H. bool_to_prop.
  replace (zlen (cfg_model_path c) =? 0) with false in H by lia. simpl in H.
  destruct (fopen_ok (cfg_model_path c)) eqn:Ef.
  { apply sized_inv in H as [-> ?]. done. }
  case_if H.
  assert (fopen_ok p = true /\ zlen p < out_size /\ vw_worker_config_basename p = name)
    as (? & ? & ?); [|by split_and!; try done; intros [|]].
  case_if H.
  destruct (if zlen (cfg_model_dir c) =? 0 then None else found_in fopen_ok (cfg_model_dir c) name) as [q|] eqn:E1.
  { apply sized_inv in H as [-> ?]. case_ifs E1. apply joined_file_spec in E1 as (? & ? & ?); done. }
  destruct (found_installed fopen_ok self_exe name out_size) as [q|] eqn:E2.
  { inv_some. unfold found_installed in E2. apply bind_Some in E2 as (exe & _ & E2).
    apply bind_Some in E2 as (dir & _ & E2). by apply joined_file_spec in E2. }
  apply bind_Some in H as (q & Hq & H). apply sized_inv in H as [-> ?].
  apply bind_Some in Hq as (dir & _ & Hq). apply joined_file_spec in Hq as (? & ? & ?); done.
Qed.
Lemma resolve_model_path_ok_witness :
  let c := vw_worker_config_init_defaults in
  let opens p := bool_decide (p = str "/opt/vw/models/ggml-tiny.bin") in
  let p := str "/opt/vw/models/ggml-tiny.bin" in
  vw_worker_config_resolve_model_path opens (Some (str "/opt/vw/worker")) None None c 4096 = Some p
  /\ opens p = true /\ vw_worker_config_basename p = vw_worker_config_basename (cfg_model_path c).
Proof.
  intros c opens p.
  assert (vw_worker_config_resolve_model_path opens (Some (str "/opt/vw/worker")) None None c 4096 = Some p)
    as H by (vm_compute; reflexivity).
  split; [exact H|].
  destruct (resolve_model_path_ok opens (Some (str "/opt/vw/worker")) None None c 4096 p H) as (? & _ & ? & _).
  by split.
Defined.
