(* ===== verification/TranslationDiag.v ===== *)
(** * Blame for failed translations

    The pure part of [src/worker/include/vw_worker_translation_diag_override.h]: the
    line with which the worker tells the plugin why a caption stays untranslated. The
    build wraps the worker's calls of the translator with that header; the wrapped
    calls are in [WorkerSession]. *)

From S2P Require Import Prelude.
From S2P Require Import CString.
From S2P Require Import ProtocolTypes.
From S2P Require Import TranslateText.
From S2P Require Import TranslateTiers.
From S2P Require Import TranslateAsync.
From S2P Require Import WorkerConfig.

Definition vw_worker_translation_cause_name (cause : Z) : list Z :=
  if cause =? VW_TRANSLATE_FAILURE_PROVIDER then str "provider"
  else if cause =? VW_TRANSLATE_FAILURE_TRANSPORT then str "transport"
  else if cause =? VW_TRANSLATE_FAILURE_PARSE then str "parse"
  else if cause =? VW_TRANSLATE_FAILURE_DEADLINE then str "deadline"
  else if cause =? VW_TRANSLATE_FAILURE_LOCAL then str "local"
  else str "unknown".

Definition vw_worker_translation_tier_name (tier : Z) : list Z :=
  if tier =? VW_TRANSLATE_TIER_WEB_RPC then str "rpc"
  else if tier =? VW_TRANSLATE_TIER_GTX then str "gtx"
  else if tier =? VW_TRANSLATE_TIER_MOBILE_SCRAPE then str "mobile"
  else str "none".

Definition vw_worker_translation_error_code (cause : Z) : Z :=
  if cause =? VW_TRANSLATE_FAILURE_PROVIDER then E_TRANSLATION_PROVIDER
  else if cause =? VW_TRANSLATE_FAILURE_TRANSPORT then E_TRANSLATION_TRANSPORT
  else if cause =? VW_TRANSLATE_FAILURE_PARSE then E_TRANSLATION_PARSE
  else if cause =? VW_TRANSLATE_FAILURE_DEADLINE then E_TRANSLATION_DEADLINE
  else E_TRANSLATION_LOCAL.

(** ["%02x"] of a byte. *)
Definition hex2 (b : Z) : list Z := [hex_digit (Z.shiftr b 4); hex_digit (Z.land b 15)].

(** The code and the line of a failed attempt, when the line fits [out_size] bytes. *)
Definition vw_worker_translation_diag_build (r : vw_translate_async_result_t) (out_size : Z) : option (Z * list Z) :=
  let failure := ar_failure r in
  if ar_success r || negb (ar_attempted r) || (fl_cause failure =? VW_TRANSLATE_FAILURE_NONE) then None
  else
    let latency_us := seg_translation_latency_us (ar_segment r) in
    let status := if fl_provider_status failure =? 0 then []
                  else str " status=" ++ decimal (fl_provider_status failure) in
    let line := str "segment=" ++ decimal (seg_segment_id (ar_segment r))
      ++ str " cause=" ++ vw_worker_translation_cause_name (fl_cause failure)
      ++ str " tier=" ++ vw_worker_translation_tier_name (fl_terminal_tier failure)
      ++ str " attempts=0x" ++ hex2 (fl_attempted_tiers failure)
      ++ status
      ++ str " latency_ms=" ++ decimal (latency_us / 1000) ++ str "." ++ padded 3 (latency_us mod 1000) in
    detail ← sized out_size line;
    Some (vw_worker_translation_error_code (fl_cause failure), detail).

(** The result of a caption that never entered the pipeline. *)
Definition vw_worker_translation_diag_prepare_local_rejection (seg : vw_caption_segment_t) : vw_translate_async_result_t :=
  mk_result 0
    (mk_segment (seg_session_id seg) (seg_segment_id seg) (seg_start_pts_us seg) (seg_end_pts_us seg)
       (seg_is_final seg) (seg_text_utf8 seg) (seg_text_bytes seg) (seg_translated_text_utf8 seg)
       (seg_translated_text_bytes seg) true 0 VW_TRANSLATE_TIER_NONE)
    [] [] (mk_failure VW_TRANSLATE_FAILURE_LOCAL 0 0 0) true false.

(** ** The line *)

Definition printable (c : Z) : Prop := 32 <= c <= 126.

Lemma printable_digits ds : forallb is_digit ds = true -> Forall printable ds.
Proof.
  intros H. rewrite forallb_forall in H. apply List.Forall_forall. intros c Hc.
  specialize (H c Hc). unfold is_digit, printable in *. lia.
Qed.
Lemma printable_str s : forallb (fun c => (32 <=? c) && (c <=? 126)) s = true -> Forall printable s.
Proof.
  intros H. rewrite forallb_forall in H. apply List.Forall_forall. intros c Hc.
  specialize (H c Hc). unfold printable. lia.
Qed.
Lemma printable_decimal n : 0 <= n < 10 ^ 20 -> Forall printable (decimal n).
Proof. intros Hn. by apply printable_digits, decimal_spec. Qed.
Lemma printable_padded n : 0 <= n < 1000 -> Forall printable (padded 3 n).
Proof.
  intros Hn. unfold padded. apply Forall_app. split; [|apply printable_decimal; lia].
  apply Forall_replicate. unfold printable. lia.
Qed.
Lemma printable_hex2 b : 0 <= b < 256 -> Forall printable (hex2 b).
Proof.
  intros Hb. unfold hex2. assert (forall n, 0 <= n < 16 -> printable (hex_digit n)) as H.
  { intros n Hn. unfold hex_digit, printable. case_goal; bool_to_prop; lia. }
  apply Forall_cons_2; [|apply Forall_singleton]; apply H.
  - rewrite Z.shiftr_div_pow2 by lia. split; [apply Z.div_pos; lia|apply Z.div_lt_upper_bound; lia].
  - change (Z.land b 15) with (Z.land b (Z.ones 4)). rewrite Z.land_ones by lia. apply Z.mod_pos_bound. lia.
Qed.
Lemma cause_name_ok cause :
  Forall printable (vw_worker_translation_cause_name cause) /\ zlen (vw_worker_translation_cause_name cause) <= 9.
Proof.
  unfold vw_worker_translation_cause_name.
  repeat (case_goal; [split; [by apply printable_str|vm_compute; congruence]|]).
  split; [by apply printable_str|vm_compute; congruence].
Qed.
Lemma tier_name_ok tier :
  Forall printable (vw_worker_translation_tier_name tier) /\ zlen (vw_worker_translation_tier_name tier) <= 6.
Proof.
  unfold vw_worker_translation_tier_name.
  repeat (case_goal; [split; [by apply printable_str|vm_compute; congruence]|]).
  split; [by apply printable_str|vm_compute; congruence].
Qed.
Lemma error_code_range cause :
  E_TRANSLATION_PROVIDER <= vw_worker_translation_error_code cause <= E_TRANSLATION_LOCAL.
Proof. unfold vw_worker_translation_error_code. repeat case_goal; vm_compute; split; congruence. Qed.

(** The fields a result's line is printed from are in range. *)
Definition blame_fields_ok (r : vw_translate_async_result_t) : Prop :=
  is_unsigned 64 (seg_segment_id (ar_segment r)) /\ is_unsigned 32 (seg_translation_latency_us (ar_segment r))
  /\ is_unsigned 8 (fl_attempted_tiers (ar_failure r)) /\ is_unsigned 16 (fl_provider_status (ar_failure r)).
Definition failed_attempt (r : vw_translate_async_result_t) : Prop :=
  ar_success r = false /\ ar_attempted r = true /\ fl_cause (ar_failure r) <> VW_TRANSLATE_FAILURE_NONE.
(** The same result with other texts. *)
Definition with_texts (r : vw_translate_async_result_t) (source translated : option (list Z)) (copies : list Z * list Z)
    : vw_translate_async_result_t :=
  let seg := ar_segment r in
  mk_result (ar_epoch r)
    (mk_segment (seg_session_id seg) (seg_segment_id seg) (seg_start_pts_us seg) (seg_end_pts_us seg)
       (seg_is_final seg) source (zlen (default [] source)) translated (zlen (default [] translated))
       (seg_translation_attempted seg) (seg_translation_latency_us seg) (seg_translation_tier seg))
    (fst copies) (snd copies) (ar_failure r) (ar_attempted r) (ar_success r).

Lemma blame_line r :
  blame_fields_ok r -> failed_attempt r ->
  exists detail, vw_worker_translation_diag_build r VW_MAX_ERROR_MSG_BYTES
    = Some (vw_worker_translation_error_code (fl_cause (ar_failure r)), detail)
    /\ Forall printable detail /\ zlen detail < VW_MAX_ERROR_MSG_BYTES.
Proof.
  intros (Hi & Hl & Ht & Hs) (Hf & Ha & Hc). unfold vw_worker_translation_diag_build. rewrite Hf, Ha.
  apply Z.eqb_neq in Hc. rewrite Hc. cbn [orb negb]. cbv zeta.
  set (latency := seg_translation_latency_us _) in *. set (status := if _ =? 0 then _ else _).
  set (cause := fl_cause _). set (tier := fl_terminal_tier _).
  unfold is_unsigned in *. pose proof (Z.mod_pos_bound latency 1000 ltac:(lia)).
  assert (0 <= latency / 1000 < 10 ^ 20) as Hw
    by (split; [apply Z.div_pos; lia|apply Z.div_lt_upper_bound; lia]).
  assert (Forall printable status /\ zlen status <= 28) as [Hp Hz].
  { subst status. case_goal; [by split|]. pose proof (decimal_length (fl_provider_status (ar_failure r))).
    split; [|rewrite zlen_app; change (zlen (str " status=")) with 8; lia].
    apply Forall_app. split; [by apply printable_str|apply printable_decimal; lia]. }
  destruct (cause_name_ok cause) as [Hp1 Hz1]. destruct (tier_name_ok tier) as [Hp2 Hz2].
  pose proof (decimal_length (seg_segment_id (ar_segment r))). pose proof (decimal_length (latency / 1000) (proj1 Hw)).
  set (line := str "segment=" ++ _).
  assert (zlen line < VW_MAX_ERROR_MSG_BYTES) as Hfit.
  { subst line. rewrite !zlen_app, zlen_padded by done.
    change (zlen (str "segment=")) with 8. change (zlen (str " cause=")) with 7. change (zlen (str " tier=")) with 6.
    change (zlen (str " attempts=0x")) with 12. change (zlen (str " latency_ms=")) with 12. change (zlen (str ".")) with 1.
    change (zlen (hex2 _)) with 2. unfold VW_MAX_ERROR_MSG_BYTES. lia. }
  exists line. split_and!; [|subst line|done].
  - unfold sized. by replace (zlen line <? VW_MAX_ERROR_MSG_BYTES) with true by lia.
  - rewrite !Forall_app. split_and!; try done;
      solve [ by apply printable_str | apply printable_decimal; lia | by apply printable_padded
            | apply printable_hex2; lia ].
Qed.

(** A rejected cue always has its line. *)
Lemma local_rejection_built seg :
  exists code detail, vw_worker_translation_diag_build (vw_worker_translation_diag_prepare_local_rejection seg)
    VW_MAX_ERROR_MSG_BYTES = Some (code, detail).
Proof.
  unfold vw_worker_translation_diag_build. cbn [vw_worker_translation_diag_prepare_local_rejection ar_success ar_attempted
    ar_failure ar_segment fl_cause fl_provider_status fl_terminal_tier fl_attempted_tiers seg_segment_id seg_translation_latency_us orb negb].
  change (VW_TRANSLATE_FAILURE_LOCAL =? VW_TRANSLATE_FAILURE_NONE) with false. cbv iota zeta.
  set (line := str "segment=" ++ decimal (seg_segment_id seg) ++ _).
  assert (zlen line < VW_MAX_ERROR_MSG_BYTES) as H.
  { subst line. pose proof (decimal_length_any (seg_segment_id seg)). rewrite zlen_app, zlen_app.
    match goal with |- _ + (_ + ?r) < _ => let v := eval vm_compute in r in change r with v end.
    change (zlen (str "segment=")) with 8. unfold VW_MAX_ERROR_MSG_BYTES. lia. }
  unfold sized. replace (zlen line <? VW_MAX_ERROR_MSG_BYTES) with true by lia. by eexists _, line.
Qed.

(** Every failed translation gets its line of blame: it fits the error message,
    carries the code of its cause, is printable text, and does not depend on the
    caption's source or translated text. *)
Theorem translation_blame (r : vw_translate_async_result_t) source translated copies :
  blame_fields_ok r -> failed_attempt r ->
  (exists code detail, vw_worker_translation_diag_build r VW_MAX_ERROR_MSG_BYTES = Some (code, detail)
    /\ E_TRANSLATION_PROVIDER <= code <= E_TRANSLATION_LOCAL
    /\ Forall printable detail /\ zlen detail < VW_MAX_ERROR_MSG_BYTES)
  /\ vw_worker_translation_diag_build (with_texts r source translated copies) VW_MAX_ERROR_MSG_BYTES
     = vw_worker_translation_diag_build r VW_MAX_ERROR_MSG_BYTES.
Proof.
  intros Hr Hf. split; [|by destruct r as [? []]]. destruct (blame_line r Hr Hf) as (detail & E & Hp & Hz).
  exists (vw_worker_translation_error_code (fl_cause (ar_failure r))), detail. split_and!; try done; apply error_code_range.
Qed.

Definition blame_demo : vw_translate_async_result_t :=
  mk_result 1 (mk_segment (zreplicate 16 7) 42 0 1000000 0 (Some (str "hallo")) 5 None 0 true 2150042 VW_TRANSLATE_TIER_NONE)
    (str "hallo") [] (mk_failure VW_TRANSLATE_FAILURE_PROVIDER VW_TRANSLATE_TIER_MOBILE_SCRAPE 7 429) true false.
Lemma translation_blame_witness :
  vw_worker_translation_diag_build blame_demo VW_MAX_ERROR_MSG_BYTES
    = Some (E_TRANSLATION_PROVIDER, str "segment=42 cause=provider tier=mobile attempts=0x07 status=429 latency_ms=2150.042")
  /\ vw_worker_translation_diag_build (with_texts blame_demo (Some (str "secret")) None ([], [])) VW_MAX_ERROR_MSG_BYTES
     = vw_worker_translation_diag_build blame_demo VW_MAX_ERROR_MSG_BYTES.
Proof.
  split; [vm_compute; reflexivity|].
  apply (translation_blame blame_demo (Some (str "secret")) None ([], [])); [|by split_and!].
  split_and!; vm_compute; (split; [discriminate|reflexivity]).
Defined.
