(* ===== verification/WhisperEngine.v ===== *)
(** * The inference engine wrapper

    [src/worker/src/vw_whisper_engine.c]: the language and thread settings, the
    inference clock, the concatenated text and the segment times. whisper.cpp is
    third-party: what [whisper_full] answers is an argument of the transcription. *)

From S2P Require Import Prelude.
From S2P Require Import CString.
From S2P Require Import WorkerConfig.
From S2P Require Import Log.

(** A segment as whisper.cpp keeps it: times in hundredths of a second, the text
    (NULL possible) and the no-speech probability as a float pattern. *)
Record whisper_cpp_segment := mk_cpp_segment {
  cpp_t0 : Z;
  cpp_t1 : Z;
  cpp_text : option (list Z);
  cpp_no_speech_prob : Z
}.

Record vw_whisper_segment_t := mk_wseg {
  wseg_t0_us : Z;
  wseg_t1_us : Z;
  wseg_no_speech_prob : Z;
  wseg_text_utf8 : list Z
}.

(** [eng_segments] is the result the whisper context holds. *)
Record vw_whisper_engine_t := mk_engine {
  eng_segments : list whisper_cpp_segment;
  eng_last_text : list Z;
  eng_language : list Z;            (* char[16] *)
  eng_n_threads : Z;
  eng_last_inference_us : Z;        (* uint64_t *)
  eng_total_inference_us : Z;       (* uint64_t *)
  eng_gpu_active : bool
}.

(** What whisper.cpp logs is logged as the program's own. *)
Inductive ggml_log_level :=
  | GGML_LOG_LEVEL_ERROR | GGML_LOG_LEVEL_WARN | GGML_LOG_LEVEL_INFO | GGML_LOG_LEVEL_CONT | GGML_LOG_LEVEL_DEBUG
  | ggml_other_level.
Definition vw_whisper_log_callback (level : ggml_log_level) (text : option (list Z)) (log : vw_log) : vw_log :=
  let event mapped := vw_log_event mapped (Some (str "WHISPER")) (default [] text) log in
  match level with
  | GGML_LOG_LEVEL_ERROR => event 3
  | GGML_LOG_LEVEL_WARN => event 2
  | GGML_LOG_LEVEL_INFO | GGML_LOG_LEVEL_CONT => event 1
  | GGML_LOG_LEVEL_DEBUG => event 0
  | ggml_other_level => log
  end.

(** The walk over the devices, each a GPU or not and loadable or not: the
    [remaining]-th GPU decides. *)
Fixpoint gpu_device_active (devices : list (bool * bool)) (remaining : Z) : bool :=
  match devices with
  | [] => false
  | (is_gpu, loads) :: devices =>
      if is_gpu : bool then
        if remaining =? 0 then loads else gpu_device_active devices (remaining - 1)
      else gpu_device_active devices remaining
  end.

(** [context_ok]: whisper.cpp loaded the model; [warm_up]: the segments its run on silence
    leaves in the context. *)
Definition vw_whisper_engine_init (model_path : list Z) (backend : vw_worker_backend_t) (gpu_device : Z)
    (context_ok : bool) (devices : list (bool * bool)) (warm_up : list whisper_cpp_segment) : option vw_whisper_engine_t :=
  if (zlen model_path =? 0) || negb context_ok then None
  else
    let use_gpu := negb (bool_decide (backend = VW_WORKER_BACKEND_CPU)) in
    let gpu_device := if 0 <=? gpu_device then gpu_device else 0 in
    Some (mk_engine warm_up [] (str "en") 4 0 0 (use_gpu && gpu_device_active devices gpu_device)).

Definition vw_whisper_engine_is_gpu_active (e : option vw_whisper_engine_t) : bool :=
  match e with Some e => eng_gpu_active e | None => false end.

Section engine.
Context (whisper_lang_id : list Z -> Z).

Definition vw_whisper_engine_set_language (e : vw_whisper_engine_t) (language : list Z)
  : bool * vw_whisper_engine_t :=
  if (zlen language =? 0) || bool_decide (language = str "auto") || (sizeof_language <=? zlen language)
     || (whisper_lang_id language <? 0)
  then (false, e)
  else (true, mk_engine (eng_segments e) (eng_last_text e) language (eng_n_threads e)
                (eng_last_inference_us e) (eng_total_inference_us e) (eng_gpu_active e)).
End engine.

Definition vw_whisper_engine_set_n_threads (e : vw_whisper_engine_t) (n_threads : Z) : vw_whisper_engine_t :=
  let n_threads := if n_threads <? 1 then 1 else n_threads in
  let n_threads := if 16 <? n_threads then 16 else n_threads in
  mk_engine (eng_segments e) (eng_last_text e) (eng_language e) n_threads
    (eng_last_inference_us e) (eng_total_inference_us e) (eng_gpu_active e).

(** One iteration of the loop that builds [last_text]; the buffer grows as needed. *)
Definition append_text (last_text : list Z) (txt : option (list Z)) : list Z :=
  match txt with
  | None | Some [] => last_text
  | Some txt =>
      let needs_space := (0 <? zlen last_text) && negb (znth last_text (zlen last_text - 1) =? 32)
                         && negb (znth txt 0 =? 32) in
      last_text ++ (if needs_space then [32] else []) ++ txt
  end.

(** [whisper_full] returned [result] after [elapsed_us] and left [segments]. *)
Definition vw_whisper_engine_transcribe_pcm (e : vw_whisper_engine_t) (pcm32 : list Z) (result : Z)
    (elapsed_us : Z) (segments : list whisper_cpp_segment) : bool * vw_whisper_engine_t :=
  if zlen pcm32 =? 0 then (false, e)
  else
    let inference_elapsed_us := u64 (if elapsed_us <? 0 then 0 else elapsed_us) in
    let total :=
      if UINT64_MAX - eng_total_inference_us e <? inference_elapsed_us then UINT64_MAX
      else eng_total_inference_us e + inference_elapsed_us in
    let text := if result =? 0 then fold_left append_text (map cpp_text segments) [] else eng_last_text e in
    (result =? 0,
     mk_engine segments text (eng_language e) (eng_n_threads e) inference_elapsed_us total
       (eng_gpu_active e)).

Definition vw_whisper_engine_get_segment_count (e : vw_whisper_engine_t) : Z := zlen (eng_segments e).
Definition vw_whisper_engine_get_total_inference_us (e : option vw_whisper_engine_t) : Z :=
  match e with Some e => eng_total_inference_us e | None => 0 end.

Definition vw_whisper_engine_get_segment (e : vw_whisper_engine_t) (index : Z) : option vw_whisper_segment_t :=
  if index <? 0 then None
  else
    s ← eng_segments e !! Z.to_nat index;
    Some (mk_wseg (cpp_t0 s * 10000) (cpp_t1 s * 10000) (cpp_no_speech_prob s) (default [] (cpp_text s))).

(** The clock only advances, and saturates. *)
Lemma transcribe_clock e pcm result elapsed segments :
  0 <= eng_total_inference_us e <= UINT64_MAX ->
  let e' := snd (vw_whisper_engine_transcribe_pcm e pcm result elapsed segments) in
  eng_total_inference_us e <= eng_total_inference_us e' <= UINT64_MAX
  /\ eng_language e' = eng_language e /\ eng_n_threads e' = eng_n_threads e.
Proof.
  intros He. unfold vw_whisper_engine_transcribe_pcm.
  destruct (zlen pcm =? 0); [by simpl; split_and!; try done; lia|]. cbn.
  pose proof (mod_unsigned 64 (if elapsed <? 0 then 0 else elapsed)) as Hu. unfold is_unsigned in Hu.
  unfold u64. set (d := _ mod _) in *. destruct (Z.ltb_spec (UINT64_MAX - eng_total_inference_us e) d);
    split_and!; try done; lia.
Qed.
(** A refused language leaves the engine as it was. *)
Lemma set_language_spec lang_id e l :
  match vw_whisper_engine_set_language lang_id e l with
  | (true, e') => eng_language e' = l /\ 0 < zlen l < sizeof_language /\ l <> str "auto" /\ 0 <= lang_id l
  | (false, e') => e' = e
  end.
Proof.
  unfold vw_whisper_engine_set_language. pose proof (zlen_nonneg l).
  match goal with |- context [if ?b then _ else _] => destruct b eqn:E end; [done|]. bool_to_prop.
  match goal with H : bool_decide _ = false |- _ => apply bool_decide_eq_false in H end.
  split_and!; simpl; try done; lia.
Qed.
