(* ===== verification/WorkerSession.v ===== *)
(** * The worker's session loop

    [src/worker/src/vw_worker.c]: authentication, the handler of every message
    type, inference over the buffered audio, caption emission and delivery. The
    loop's state is [worker]; what it calls outside the program (the transport's
    system calls, whisper.cpp, the media decoder, the clock) and the threads that
    run beside it are the operations of [WorkerEnv] on a state of their own. The calls
    of the translator and [vw_ipc_send] are those the build puts around the file
    ([vw_worker_translation_diag_override.h]): a failed translation is blamed in an
    ERROR frame first, and nothing is written after such a frame failed. Log calls are
    left out. *)

From S2P Require Import Prelude.
From S2P Require Import CString.
From S2P Require Import Float32.
From S2P Require Import ProtocolTypes.
From S2P Require Import ProtocolUtil.
From S2P Require Import Validate.
From S2P Require Import Codec.
From S2P Require Import State.
From S2P Require Import AudioBuffer.
From S2P Require Import WorkerQueue.
From S2P Require Import SegmentBuilder.
From S2P Require Import Vad.
From S2P Require Import ModelDownload.
From S2P Require Import TranslateTiers.
From S2P Require Import TranslateAsync.
From S2P Require Import WorkerConfig.
From S2P Require Import TranslationDiag.
From S2P Require Import WhisperEngine.

Definition VW_WORKER_VERSION : list Z := str "1.6.0".
Definition VW_AUDIO_SAMPLE_RATE : Z := 16000.
Definition VW_LIVE_STARTUP_SAMPLES : Z := 32000.
Definition VW_WINDOW_SAMPLES : Z := 128000.
Definition VW_LIVE_HOP_SAMPLES : Z := 16000.
Definition VW_LOCAL_FALLBACK_HOP_SAMPLES : Z := 32000.
Definition VW_LIVE_EDGE_HOLDBACK_US : Z := 500000.
Definition VW_LOOKAHEAD_CHUNK_SAMPLES : Z := 32000.
Definition VW_LOOKAHEAD_BUFFER_SAMPLES : Z := 960000.
Definition lead_target_us : Z := 30000000.
Definition VW_CAPTION_SEGMENT_FIXED_BYTES : Z := 43.

Definition VW_SESSION_STATE_IDLE : Z := 0.
Definition VW_SESSION_STATE_PLAYING : Z := 1.
Definition VW_SESSION_STATE_PAUSED : Z := 2.

(** [0.60f] *)
Definition no_speech_threshold : Z := 0x3F19999A.

(** ** What the loop calls *)

Inductive vw_source_decoder_read_status_t :=
  | VW_SOURCE_DECODER_READ_OK
  | VW_SOURCE_DECODER_READ_AGAIN
  | VW_SOURCE_DECODER_READ_EOF
  | VW_SOURCE_DECODER_READ_ERROR.

Record vw_download_progress_t := mk_progress {
  dp_stage : Z;
  dp_pct : Z;
  dp_bytes_done : Z;
  dp_bytes_total : Z;
  dp_model_id : list Z
}.

(** The operations outside the loop, on the state [X] of everything they touch. *)
Class WorkerEnv (X : Type) := {
  (** [vw_ipc_send]: whether all the bytes were written. *)
  ipc_send : X -> list Z -> bool * X;
  whisper_lang_id : list Z -> Z;
  (** [whisper_full] with a language and a thread count on samples: its result, the
      time it took and the segments it leaves. *)
  whisper_full : X -> list Z -> Z -> list Z -> (Z * Z * list whisper_cpp_segment) * X;
  (** The loaded VAD model, if any, as it answers the next call. *)
  vad_ctx : X -> option vad_context * X;
  vad_reset : X -> X;
  source_open : X -> list Z -> bool * X;
  source_seek : X -> Z -> bool * X;
  (** The status, the samples and the PTS of the first one (-1: unknown). *)
  source_read : X -> Z -> (vw_source_decoder_read_status_t * list Z * Z) * X;
  source_close : X -> X;
  (** The model download: a started one, its snapshot, and its release. *)
  download_start : X -> vw_model_catalog_entry_t -> bool * X;
  download_poll : X -> vw_download_progress_t * X;
  download_abort : X -> X;
  download_free : X -> X;
  monotonic_time_us : X -> Z * X;
  (** What the translation threads do to the pipeline meanwhile. *)
  translation_threads : X -> vw_translate_async -> vw_translate_async * X
}.

(** ** The state *)

(** The variables of a session, in the order of their declarations: whether a
    source decoder is open stands for its handle. *)
Record session := mk_session {
  s_id : vw_session_id_t;
  s_active : bool;
  s_paused : bool;
  s_live : bool;
  s_next : Z;
  s_decoder : bool;
  s_source_mode : bool;
  s_source_eof : bool;
  s_seek_failed : bool;
  s_current_pts : Z;
  s_last_pts : Z;
  s_decoded_pts : Z;
  s_translate : bool;
  s_src_lang : list Z;
  s_dst_lang : list Z;
  s_mode : Z;
  s_audio : vw_audio_buffer_t;
  s_builder : vw_segment_builder_t;
  s_translator : option vw_translate_async
}.

(** Field updates. *)
#[global] Instance settable_session : Settable session :=
  fun s => mk_session (s_id s) (s_active s) (s_paused s) (s_live s) (s_next s) (s_decoder s)
  (s_source_mode s) (s_source_eof s) (s_seek_failed s) (s_current_pts s) (s_last_pts s)
  (s_decoded_pts s) (s_translate s) (s_src_lang s) (s_dst_lang s) (s_mode s) (s_audio s)
  (s_builder s) (s_translator s).
#[global] Instance set_s_id : Setter s_id := ltac:(setter).
#[global] Instance set_s_active : Setter s_active := ltac:(setter).
#[global] Instance set_s_paused : Setter s_paused := ltac:(setter).
#[global] Instance set_s_live : Setter s_live := ltac:(setter).
#[global] Instance set_s_next : Setter s_next := ltac:(setter).
#[global] Instance set_s_decoder : Setter s_decoder := ltac:(setter).
#[global] Instance set_s_source_mode : Setter s_source_mode := ltac:(setter).
#[global] Instance set_s_source_eof : Setter s_source_eof := ltac:(setter).
#[global] Instance set_s_seek_failed : Setter s_seek_failed := ltac:(setter).
#[global] Instance set_s_current_pts : Setter s_current_pts := ltac:(setter).
#[global] Instance set_s_last_pts : Setter s_last_pts := ltac:(setter).
#[global] Instance set_s_decoded_pts : Setter s_decoded_pts := ltac:(setter).
#[global] Instance set_s_translate : Setter s_translate := ltac:(setter).
#[global] Instance set_s_src_lang : Setter s_src_lang := ltac:(setter).
#[global] Instance set_s_dst_lang : Setter s_dst_lang := ltac:(setter).
#[global] Instance set_s_mode : Setter s_mode := ltac:(setter).
#[global] Instance set_s_audio : Setter s_audio := ltac:(setter).
#[global] Instance set_s_builder : Setter s_builder := ltac:(setter).
#[global] Instance set_s_translator : Setter s_translator := ltac:(setter).

(** The rest of the loop's variables: [w_sent] is what was handed to the
    transport, oldest first, with its verdict. The file's
    [vw_worker_translation_transport_state] holds the worker's only transport and its
    flags once they are registered; [w_diag_failed] is its [failed]. *)
Record worker {X : Type} := mk_worker {
  w_session : session;
  w_engine : option vw_whisper_engine_t;
  w_running : bool;
  w_fatal : bool;
  w_authenticated : bool;
  w_sequence : Z;
  w_queue : vw_worker_queue_t;
  w_model_dl : bool;
  w_last_stage : Z;
  w_last_progress_us : Z;
  w_diag_registered : bool;
  w_diag_failed : bool;
  w_sent : list (list Z * bool);
  w_ext : X
}.
Arguments worker X : clear implicits.
Arguments mk_worker {X}.

#[global] Instance settable_worker {X} : Settable (worker X) :=
  fun s => mk_worker (w_session s) (w_engine s) (w_running s) (w_fatal s) (w_authenticated s)
  (w_sequence s) (w_queue s) (w_model_dl s) (w_last_stage s) (w_last_progress_us s)
  (w_diag_registered s) (w_diag_failed s) (w_sent s)
  (w_ext s).
#[global] Instance set_w_session {X} : Setter (@w_session X) := ltac:(setter).
#[global] Instance set_w_engine {X} : Setter (@w_engine X) := ltac:(setter).
#[global] Instance set_w_running {X} : Setter (@w_running X) := ltac:(setter).
#[global] Instance set_w_fatal {X} : Setter (@w_fatal X) := ltac:(setter).
#[global] Instance set_w_authenticated {X} : Setter (@w_authenticated X) := ltac:(setter).
#[global] Instance set_w_sequence {X} : Setter (@w_sequence X) := ltac:(setter).
#[global] Instance set_w_queue {X} : Setter (@w_queue X) := ltac:(setter).
#[global] Instance set_w_model_dl {X} : Setter (@w_model_dl X) := ltac:(setter).
#[global] Instance set_w_last_stage {X} : Setter (@w_last_stage X) := ltac:(setter).
#[global] Instance set_w_last_progress_us {X} : Setter (@w_last_progress_us X) := ltac:(setter).
#[global] Instance set_w_diag_registered {X} : Setter (@w_diag_registered X) := ltac:(setter).
#[global] Instance set_w_diag_failed {X} : Setter (@w_diag_failed X) := ltac:(setter).
#[global] Instance set_w_sent {X} : Setter (@w_sent X) := ltac:(setter).
#[global] Instance set_w_ext {X} : Setter (@w_ext X) := ltac:(setter).

Section worker.
Context {X : Type} `{!WorkerEnv X} (config : vw_worker_config_t).
#[local] Abbreviation W := (M (worker X)).

(** Run an operation of the environment. *)
Definition external {A} (f : X -> A * X) : W A := fun w =>
  let '(a, x) := f (w_ext w) in (a, w <| w_ext := x |>).
Definition on_session (f : session -> session) : W unit :=
  modify (fun w => w <| w_session := f (w_session w) |>).
Definition ask {A} (f : session -> A) : W A := gets (fun w => f (w_session w)).

(** [atomic_store(&fatal_exit, true); atomic_store(&running, false);] *)
Definition fail_exit : W unit := modify (fun w => w <| w_fatal := true |> <| w_running := false |>).
Definition set_fatal : W unit := modify (fun w => w <| w_fatal := true |>).

(** ** Sending *)

(** [vw_ipc_send] *)
Definition transport_send (bytes : list Z) : W bool :=
  ok ← external (fun x => ipc_send x bytes);
  modify (fun w => w <| w_sent := w_sent w ++ [(bytes, ok)] |>) ;;
  mret ok.

(** A diagnostic could not be written to this transport: [vw_worker_translation_diag_guarded_ipc_send]
    refuses every further write. *)
Definition withheld (w : worker X) : bool := w_diag_registered w && w_diag_failed w.
Definition send_bytes (bytes : list Z) : W bool :=
  refuse ← gets withheld; if refuse : bool then mret false else transport_send bytes.

Definition send_header_and_payload (hdr : vw_frame_header_t) (payload : list Z) : W bool :=
  match vw_protocol_encode_header hdr sizeof_header with
  | None => mret false
  | Some bytes => ok ← send_bytes bytes; if ok : bool then send_bytes payload else mret false
  end.

(** The next frame of the worker: [++sequence] even when the header fails. *)
Definition next_header (type payload_length : Z) : W vw_frame_header_t :=
  modify (fun w => w <| w_sequence := u64 (w_sequence w + 1) |>) ;;
  sequence ← gets w_sequence;
  mret (mk_header VW_PROTOCOL_MAGIC VW_PROTOCOL_VERSION_MAJOR type (u32 payload_length) sequence).

Definition send_message (m : message) (buffer_size : Z) : W bool :=
  match vw_protocol_encode_payload m buffer_size with
  | None => mret false
  | Some payload =>
      hdr ← next_header (message_type m) (zlen payload);
      send_header_and_payload hdr payload
  end.

Definition send_error (session_id : vw_session_id_t) (code recoverable : Z) (msg : list Z) : W bool :=
  send_message (ERROR (mk_error session_id code recoverable
    (cpad VW_MAX_ERROR_MSG_BYTES (ztake (VW_MAX_ERROR_MSG_BYTES - 1) msg)))) 512.

Definition vw_worker_send_model_progress (session_id : vw_session_id_t)
    (stage pct bytes_done bytes_total : Z) (model_id : list Z) : W bool :=
  send_message (MODEL_PROGRESS (mk_model_progress session_id stage pct bytes_done bytes_total
    (cpad 32 (ztake 31 model_id)))) VW_MSG_MODEL_PROGRESS_PAYLOAD_BYTES.

Definition vw_worker_send_status (session_id : vw_session_id_t) (session_active paused : bool) : W bool :=
  w ← gets (fun w => w);
  let state := if negb session_active then VW_SESSION_STATE_IDLE
               else if paused then VW_SESSION_STATE_PAUSED else VW_SESSION_STATE_PLAYING in
  let samples := vw_audio_buffer_get_available (Some (s_audio (w_session w))) in
  let queued_audio_us :=
    u64 (vw_worker_queue_get_queued_audio_us (Some (w_queue w))
         + u64 (samples * 1000000) / VW_AUDIO_SAMPLE_RATE) in
  let resolved :=
    if bool_decide (cfg_backend config = VW_WORKER_BACKEND_CPU)
       || negb (vw_whisper_engine_is_gpu_active (w_engine w))
    then str "cpu" else str "gpu" in
  send_message (STATUS (mk_status session_id state (i64 queued_audio_us)
    (i64 (vw_whisper_engine_get_total_inference_us (w_engine w)))
    (i64 (vw_worker_queue_get_dropped_audio_us (Some (w_queue w)))) (cpad 16 resolved))) 64.

Definition vw_worker_send_caption_segment (seg : vw_caption_segment_t) : W bool :=
  send_message (CAPTION_SEGMENT seg) (VW_CAPTION_SEGMENT_FIXED_BYTES + VW_MAX_TEXT_BYTES * 2 + 64).

(** [if (!send(...)) { fatal_exit; running = false; }] *)
Definition or_fail (send : W bool) : W unit := ok ← send; when (negb ok) fail_exit.

Definition status_now : W bool :=
  s ← ask (fun s => s);
  vw_worker_send_status (s_id s) (s_active s) (s_paused s).

Definition vw_worker_deliver_translation (r : vw_translate_async_result_t) : W unit :=
  s ← ask (fun s => s);
  if negb (s_active s) || negb (bool_decide (seg_session_id (ar_segment r) = s_id s)) then skip
  else or_fail (vw_worker_send_caption_segment (ar_segment r)).

(** *** Blame for failed translations *)

(** The worker's transport and flags are registered, which forgets the failures noted
    before. *)
Definition vw_worker_translation_diag_register_transport_state : W unit :=
  modify (fun w => if w_diag_registered w then w else w <| w_diag_registered := true |> <| w_diag_failed := false |>).
Definition vw_worker_translation_diag_mark_transport_failed : W unit :=
  modify (fun w => w <| w_diag_failed := true |>) ;;
  registered ← gets w_diag_registered;
  when registered fail_exit.

(** This frame's writes are not refused. *)
Definition vw_worker_translation_diag_send (code : Z) (detail : list Z) : W bool :=
  s ← ask (fun s => s);
  match vw_protocol_encode_payload (ERROR (mk_error (s_id s) code 1
          (cpad VW_MAX_ERROR_MSG_BYTES (ztake (VW_MAX_ERROR_MSG_BYTES - 1) detail)))) 512 with
  | None => mret false
  | Some payload =>
      hdr ← next_header VW_MSG_ERROR (zlen payload);
      match vw_protocol_encode_header hdr sizeof_header with
      | None => mret false
      | Some bytes => ok ← transport_send bytes; if ok : bool then transport_send payload else mret false
      end
  end.

Definition vw_worker_translation_diag_report_local_rejection (seg : vw_caption_segment_t) : W bool :=
  match vw_worker_translation_diag_build (vw_worker_translation_diag_prepare_local_rejection seg) VW_MAX_ERROR_MSG_BYTES with
  | Some (code, detail) => vw_worker_translation_diag_send code detail
  | None => mret false
  end.

(** The blame of a result of the active session. *)
Definition session_blame (s : session) (r : vw_translate_async_result_t) : option (Z * list Z) :=
  if s_active s && bool_decide (seg_session_id (ar_segment r) = s_id s)
  then vw_worker_translation_diag_build r VW_MAX_ERROR_MSG_BYTES else None.
(** It precedes the delivery. *)
Definition vw_worker_translation_diag_deliver (r : vw_translate_async_result_t) : W unit :=
  s ← ask (fun s => s);
  match session_blame s r with
  | Some (code, detail) =>
      sent ← vw_worker_translation_diag_send code detail;
      if sent : bool then vw_worker_deliver_translation r
      else vw_worker_translation_diag_mark_transport_failed ;; fail_exit
  | None => vw_worker_deliver_translation r
  end.

(** [vw_worker_translate_async_try_deliver_scoped]; whether it removed a result. *)
Definition try_deliver : W bool :=
  translator ← ask s_translator;
  match translator with
  | None => mret false
  | Some a =>
      vw_worker_translation_diag_register_transport_state ;;
      refuse ← gets withheld;
      if refuse : bool then fail_exit ;; mret false
      else
        let '(result, a) := vw_translate_async_try_deliver a in
        on_session (fun s => s <| s_translator := Some a |>) ;;
        match result with
        | Some r => vw_worker_translation_diag_deliver r ;; mret true
        | None => mret false
        end
  end.

(** [while (try_deliver(...)) {}]: each success removes one of at most
    [RESULT_CAPACITY] results, the fuel. *)
Definition deliver_all : W unit :=
  loop (Z.to_nat (VW_TRANSLATE_ASYNC_RESULT_CAPACITY + 1)) try_deliver.

(** ** Inference *)

(** Run the engine on samples; its segments are those of the run. *)
Definition transcribe (samples : list Z) : W bool :=
  engine ← gets w_engine;
  match engine with
  | None => mret false
  | Some e =>
      '(result, elapsed_us, segments) ←
        external (fun x => whisper_full x (eng_language e) (eng_n_threads e) samples);
      let '(ok, e) := vw_whisper_engine_transcribe_pcm e samples result elapsed_us segments in
      modify (fun w => w <| w_engine := Some e |>) ;;
      mret ok
  end.

(** The index of each segment of the last run. *)
Definition segment_indices : W (list Z) :=
  engine ← gets w_engine;
  mret (seqZ 0 (match engine with Some e => vw_whisper_engine_get_segment_count e | None => 0 end)).

(** One iteration of the loop over the segments of a window that starts at
    [window_pts_us]: a segment that [held_back] selects is left for later. *)
Definition push_segment (window_pts_us : Z) (held_back : vw_whisper_segment_t -> bool) (index : Z) : W unit :=
  engine ← gets w_engine;
  match engine ≫= fun e => vw_whisper_engine_get_segment e index with
  | None => skip
  | Some seg =>
      if f32_geb (wseg_no_speech_prob seg) no_speech_threshold || held_back seg then skip
      else
        let seg_start_pts := vw_saturating_add_i64 window_pts_us (wseg_t0_us seg) in
        let seg_end_pts := vw_saturating_add_i64 window_pts_us (wseg_t1_us seg) in
        on_session (fun s => s <| s_builder := snd (vw_segment_builder_push_hypothesis (s_builder s)
                                    (Some (wseg_text_utf8 seg)) seg_start_pts seg_end_pts) |>)
  end.
Definition push_segments (window_pts_us : Z) (held_back : vw_whisper_segment_t -> bool) : W unit :=
  indices ← segment_indices; for_each indices (push_segment window_pts_us held_back).

(** Copy the oldest samples out, as floats, with the time of the first. *)
Definition read_window (max_samples : Z) : W (list Z * Z) :=
  audio ← ask s_audio;
  let '(samples, pts) := vw_audio_buffer_get_samples audio max_samples in
  mret (map f32_of_s16 samples, default 0 pts).
Definition drain_audio (n : Z) : W unit :=
  on_session (fun s => s <| s_audio := vw_audio_buffer_drain (s_audio s) n |>).
Definition audio_count : W Z := audio ← ask s_audio; mret (vw_audio_buffer_get_count (Some audio)).

(** The body of the loop of [vw_worker_flush_audio_tail]: [None] goes on,
    [Some] is its return value. *)
Definition flush_step : W (option bool) :=
  count ← audio_count;
  if count <=? 0 then mret (Some true)
  else
    '(samples, window_pts_us) ← read_window VW_CHUNK_MAX_SAMPLES;
    if zlen samples =? 0 then mret (Some true)
    else
      vad ← external vad_ctx;
      let bd := vw_vad_find_chunk_boundary vad (Some samples) true in
      if negb (bd_found bd) || ((bd_cut bd =? 0) && (bd_drain bd =? 0)) then mret (Some false)
      else if 0 <? bd_drain bd then drain_audio (bd_drain bd) ;; mret None
      else
        ok ← transcribe (ztake (bd_cut bd) samples);
        if negb ok then mret (Some false)
        else push_segments window_pts_us (fun _ => false) ;; drain_audio (bd_cut bd) ;; mret None.

Fixpoint flush_loop (fuel : nat) : W bool :=
  match fuel with
  | O => mret true
  | S fuel => r ← flush_step; match r with Some b => mret b | None => flush_loop fuel end
  end.

(** Every iteration that goes on drains at least one sample, so the number of
    samples is enough fuel. *)
Definition vw_worker_flush_audio_tail : W bool :=
  engine ← gets w_engine;
  match engine with
  | None => mret false
  | Some _ => count ← audio_count; flush_loop (S (Z.to_nat count))
  end.

(** ** Emission *)

(** A popped cue with the current session and no translation yet. *)
Definition own_segment (session_id : vw_session_id_t) (seg : vw_caption_segment_t) : vw_caption_segment_t :=
  mk_segment session_id (seg_segment_id seg) (seg_start_pts_us seg) (seg_end_pts_us seg) (seg_is_final seg)
    (seg_text_utf8 seg) (seg_text_bytes seg) None 0 false 0 VW_TRANSLATE_TIER_NONE.
Definition attempted (b : bool) (seg : vw_caption_segment_t) : vw_caption_segment_t :=
  mk_segment (seg_session_id seg) (seg_segment_id seg) (seg_start_pts_us seg) (seg_end_pts_us seg)
    (seg_is_final seg) (seg_text_utf8 seg) (seg_text_bytes seg) (seg_translated_text_utf8 seg)
    (seg_translated_text_bytes seg) b (seg_translation_latency_us seg) (seg_translation_tier seg).

Definition pop_segment : W (option vw_caption_segment_t) :=
  builder ← ask s_builder;
  let '(seg, builder) := vw_segment_builder_pop builder in
  on_session (fun s => s <| s_builder := builder |>) ;;
  mret seg.

(** [vw_worker_translate_async_submit_scoped]: a refused cue is blamed; whether it needs
    no caption of its own. *)
Definition submit_scoped (a : vw_translate_async) (seg : vw_caption_segment_t) : W bool :=
  refuse ← gets withheld;
  if refuse : bool then mret true
  else
    s ← ask (fun s => s);
    let '(accepted, a) := vw_translate_async_submit a seg (Some (s_src_lang s)) (Some (s_dst_lang s)) in
    on_session (fun s => s <| s_translator := Some a |>) ;;
    if accepted : bool then mret true
    else
      reported ← vw_worker_translation_diag_report_local_rejection seg;
      if reported : bool then mret false
      else vw_worker_translation_diag_mark_transport_failed ;; mret true.

(** Hand a cue to the translator when translation is on; whether it needs no caption
    of its own. *)
Definition submit_segment (seg : vw_caption_segment_t) : W bool :=
  s ← ask (fun s => s);
  match s_translator s, seg_text_utf8 seg with
  | Some a, Some (_ :: _) => if s_translate s then submit_scoped a seg else mret false
  | _, _ => mret false
  end.

(** The body of the loop of [vw_worker_emit_tail_segments]. *)
Definition emit_tail_step : W (option bool) :=
  seg ← pop_segment;
  match seg with
  | None => mret (Some true)
  | Some seg =>
      s ← ask (fun s => s);
      let seg := own_segment (s_id s) seg in
      accepted ← submit_segment seg;
      sent ← (if accepted : bool then mret true
              else vw_worker_send_caption_segment (attempted (s_translate s) seg));
      mret (if sent : bool then None else Some false)
  end.
Fixpoint emit_tail_loop (fuel : nat) : W bool :=
  match fuel with
  | O => mret true
  | S fuel => r ← emit_tail_step; match r with Some b => mret b | None => emit_tail_loop fuel end
  end.
(** One iteration per pending cue and one to find none. *)
Definition vw_worker_emit_tail_segments : W bool :=
  builder ← ask s_builder; emit_tail_loop (S (Z.to_nat (sb_count builder))).

(** ** Handlers *)

(** What a handler leaves to the loop: the rest of the iteration, the next
    iteration, or the end of the loop. *)
Inductive outcome := GoOn | NextIteration | ExitLoop.

(** The window starts over: buffered audio, pending cues and VAD state are dropped. *)
Definition startup_samples (live : bool) : Z := if live then VW_LIVE_STARTUP_SAMPLES else VW_WINDOW_SAMPLES.
Definition clear_window (s : session) : session :=
  s <| s_audio := vw_audio_buffer_clear (s_audio s) |>
    <| s_next := startup_samples (s_live s) |>
    <| s_builder := vw_segment_builder_clear (s_builder s) |>.
Definition reset_vad : W unit := external (fun x => (tt, vad_reset x)).
Definition reset_window : W unit := on_session clear_window ;; reset_vad.
Definition invalidate_translator : W unit :=
  on_session (fun s => s <| s_translator := vw_translate_async_invalidate <$> s_translator s |>).
Definition close_source : W unit :=
  external (fun x => (tt, source_close x)) ;;
  on_session (fun s => s <| s_decoder := false |> <| s_source_mode := false |>).

(** The HELLO gate. The byte loop of [verify_token_constant_time] accumulates the
    differences of all the bytes. *)
Definition verify_token_constant_time (token_a token_b : list Z) : bool :=
  fold_left (fun diff i => Z.lor diff (Z.lxor (znth token_a i) (znth token_b i)))
    (seqZ 0 VW_AUTH_TOKEN_BYTES) 0 =? 0.

Definition hello_ack : message :=
  HELLO_ACK (mk_hello_ack VW_PROTOCOL_VERSION_MAJOR VW_PROTOCOL_VERSION_MINOR
    (Z.lor (Z.lor VW_CAPABILITY_PCM_S16LE_16K_MONO VW_CAPABILITY_SOURCE_MODE) VW_CAPABILITY_TRANSLATION)
    5 (Some VW_WORKER_VERSION)).

(** The acknowledgement always has sequence number 1. *)
Definition send_hello_ack : W outcome :=
  match vw_protocol_encode_payload hello_ack 256 with
  | None => set_fatal ;; mret ExitLoop
  | Some ack_payload =>
      ok ← send_header_and_payload (mk_header VW_PROTOCOL_MAGIC VW_PROTOCOL_VERSION_MAJOR VW_MSG_HELLO_ACK
             (u32 (zlen ack_payload)) 1) ack_payload;
      if ok : bool then mret NextIteration else fail_exit ;; mret ExitLoop
  end.

Definition handle_unauthenticated (m : message) : W outcome :=
  match m with
  | HELLO hello =>
      if (VW_PROTOCOL_VERSION_MAJOR <? hello_min_major hello) || (hello_max_major hello <? VW_PROTOCOL_VERSION_MAJOR)
      then
        send_error (zreplicate VW_SESSION_ID_BYTES 0) E_PROTOCOL_VERSION 0 (str "No compatible protocol major") ;;
        set_fatal ;; mret ExitLoop
      else if negb (verify_token_constant_time (cfg_auth_token config) (hello_auth_token hello))
      then set_fatal ;; mret ExitLoop
      else modify (fun w => w <| w_authenticated := true |>) ;; send_hello_ack
  | _ => set_fatal ;; mret ExitLoop
  end.

(** The end of the active session when another one starts. *)
Definition discard_session : W unit :=
  s ← ask (fun s => s);
  when (s_decoder s)
    (external (fun x => (tt, source_close x)) ;; on_session (fun s => s <| s_decoder := false |>)) ;;
  on_session (fun s =>
    s <| s_audio := vw_audio_buffer_clear (s_audio s) |>
      <| s_live := false |> <| s_next := VW_WINDOW_SAMPLES |>) ;;
  loop (S (Z.to_nat (sb_count (s_builder s))))
    (seg ← pop_segment; mret (bool_decide (seg <> None))) ;;
  reset_vad ;;
  on_session (fun s => s <| s_active := false |>).

(** The fields a START sets before the source is opened. *)
Definition start_fields (start : vw_msg_start_t) (s : session) : session :=
  let live := start_source_kind start =? VW_SOURCE_LIVE_AUDIO in
  s <| s_id := start_session_id start |> <| s_active := true |> <| s_paused := false |>
    <| s_live := live |> <| s_next := startup_samples live |>
    <| s_source_eof := false |> <| s_seek_failed := false |>
    <| s_current_pts := start_timeline_origin_pts_us start |> <| s_last_pts := -1 |>
    <| s_decoded_pts := start_timeline_origin_pts_us start |>
    <| s_audio := vw_audio_buffer_clear (s_audio s) |>
    <| s_builder := vw_segment_builder_clear (s_builder s) |>.

(** Opening the source of a local-file session; whether START goes on. *)
Definition open_source (start : vw_msg_start_t) : W bool :=
  if (0 <? start_source_url_len start) && negb (znth (start_source_url start) 0 =? 0) then
    opened ← external (fun x => source_open x (cstr (start_source_url start)));
    if opened : bool then
      on_session (fun s => s <| s_decoder := true |> <| s_source_mode := true |> <| s_source_eof := false |>
        <| s_current_pts := start_timeline_origin_pts_us start |>
        <| s_last_pts := start_timeline_origin_pts_us start |>
        <| s_decoded_pts := start_timeline_origin_pts_us start |>) ;;
      seek_ok ← (if 0 <? start_timeline_origin_pts_us start
                 then external (fun x => source_seek x (start_timeline_origin_pts_us start)) else mret true);
      when (negb seek_ok) close_source ;;
      mret true
    else
      on_session (fun s => s <| s_source_mode := false |> <| s_source_eof := false |>) ;;
      sent ← send_error (start_session_id start) E_SOURCE_OPEN 1
               (str "Failed to open source MRL; falling back to live PCM stream");
      when (negb sent) fail_exit ;;
      mret sent
  else
    on_session (fun s => s <| s_source_mode := false |> <| s_source_eof := false |>) ;; mret true.

Definition send_started (session_id : vw_session_id_t) (source_active : bool) : W bool :=
  let payload := default [] (vw_protocol_encode_payload
    (STARTED (mk_started session_id (if source_active then VW_SOURCE_ACTIVE_ACTIVE else VW_SOURCE_ACTIVE_INACTIVE)))
    (VW_SESSION_ID_BYTES + 1)) in
  hdr ← next_header VW_MSG_STARTED (zlen payload);
  match vw_protocol_encode_header hdr sizeof_header with
  | None => mret false
  | Some bytes =>
      ok ← send_bytes bytes;
      if ok && (0 <? zlen payload) then send_bytes payload else mret ok
  end.

Definition handle_start (start : vw_msg_start_t) : W unit :=
  s ← ask (fun s => s);
  if s_active s && bool_decide (s_id s = start_session_id start) then
    or_fail (send_error (s_id s) E_INTERNAL 1 (str "Session already active"))
  else
    when (s_active s) discard_session ;;
    if negb (start_sample_rate start =? VW_AUDIO_SAMPLE_RATE) then
      or_fail (send_error (start_session_id start) E_AUDIO_FORMAT 1
        (str "Unsupported sample rate (expected 16000)"))
    else
      engine ← gets w_engine;
      match engine with
      | None => or_fail (send_error (start_session_id start) E_MODEL_MISSING 0
                  (str "Whisper model file missing or invalid"))
      | Some e =>
          let '(valid, e) := vw_whisper_engine_set_language whisper_lang_id e (cstr (start_language start)) in
          modify (fun w => w <| w_engine := Some e |>) ;;
          if negb valid then
            or_fail (send_error (start_session_id start) E_INTERNAL 1
              (str "Invalid session transcription language"))
          else
            on_session (start_fields start) ;; reset_vad ;; invalidate_translator ;;
            s ← ask (fun s => s);
            when (s_decoder s) close_source ;;
            go ← open_source start;
            if negb go then skip
            else
              s ← ask (fun s => s);
              started ← send_started (start_session_id start) (s_source_mode s);
              if negb started then fail_exit else or_fail status_now
      end.

(** *** POSITION *)

Definition has_flag (flags mask : Z) : bool := negb (Z.land flags mask =? 0).

(** The source follows a seek to [pts]. *)
Definition seek_anchor (pts : Z) (s : session) : session :=
  s <| s_current_pts := pts |> <| s_decoded_pts := pts |> <| s_last_pts := pts |> <| s_source_eof := false |>.

(** The pause flag changed; whether the handler goes on. *)
Definition position_pause (is_pos_paused : bool) (requested_pts_us : Z) : W bool :=
  on_session (fun s => s <| s_paused := is_pos_paused |>) ;;
  (if is_pos_paused then reset_window
   else
     s ← ask (fun s => s);
     when (s_source_mode s && s_decoder s && (0 <=? requested_pts_us))
       (ok ← external (fun x => source_seek x requested_pts_us);
        when ok (on_session (seek_anchor requested_pts_us) ;; reset_window))) ;;
  sent ← status_now;
  when (negb sent) fail_exit ;;
  mret sent.

Definition position_requires_seek (s : session) (p : vw_msg_position_t) : bool :=
  let seek_flag := has_flag (pos_flags p) VW_POSITION_FLAG_SEEK in
  let backward_jump := (0 <=? s_last_pts s)
    && (pos_current_pts_us p <? vw_saturating_sub_i64 (s_last_pts s) 500000) in
  let forward_past_decoded := vw_saturating_add_i64 (s_decoded_pts s) 1000000 <? pos_current_pts_us p in
  seek_flag || ((backward_jump || forward_past_decoded) && negb (pos_current_pts_us p =? s_last_pts s)
                && (negb (s_seek_failed s) || seek_flag)).

Definition position_source (p : vw_msg_position_t) : W unit :=
  s ← ask (fun s => s);
  let requires_seek := position_requires_seek s p in
  when requires_seek
    (ok ← external (fun x => source_seek x (pos_current_pts_us p));
     if negb ok then
       on_session (fun s => s <| s_seek_failed := negb (has_flag (pos_flags p) VW_POSITION_FLAG_SEEK) |>)
     else
       on_session (fun s => s <| s_seek_failed := false |>) ;;
       invalidate_translator ;;
       on_session (fun s => s <| s_current_pts := pos_current_pts_us p |>
                              <| s_decoded_pts := pos_current_pts_us p |> <| s_source_eof := false |>) ;;
       reset_window) ;;
  s ← ask (fun s => s);
  when (negb requires_seek || (s_current_pts s =? pos_current_pts_us p))
    (on_session (fun s => s <| s_current_pts := pos_current_pts_us p |> <| s_last_pts := pos_current_pts_us p |>)).

Definition handle_position (p : vw_msg_position_t) : W unit :=
  s ← ask (fun s => s);
  if negb (s_active s) || negb (bool_decide (pos_session_id p = s_id s)) then skip
  else
    let is_pos_paused := has_flag (pos_flags p) VW_POSITION_FLAG_PAUSED in
    go ← (if Bool.eqb is_pos_paused (s_paused s) then mret true
          else position_pause is_pos_paused (pos_current_pts_us p));
    when go
      (s ← ask (fun s => s);
       if s_source_mode s && s_decoder s then position_source p
       else on_session (fun s => s <| s_current_pts := pos_current_pts_us p |>)).

(** *** AUDIO_PCM *)

(** A segment too near the end of a window that still grows. *)
Definition near_live_edge (growing : bool) (read_duration_us : Z) (seg : vw_whisper_segment_t) : bool :=
  growing && (read_duration_us - VW_LIVE_EDGE_HOLDBACK_US <? wseg_t1_us seg).

(** Inference over one window; whether the loop goes on. *)
Definition infer_window (samples : list Z) (window_pts_us : Z) (live : bool) : W bool :=
  let read_cnt := zlen samples in
  let growing_live_window := live && (read_cnt <? VW_WINDOW_SAMPLES) in
  let read_duration_us := read_cnt * 1000000 / VW_AUDIO_SAMPLE_RATE in
  engine ← gets w_engine;
  if (read_cnt =? 0) || bool_decide (engine = None) then mret true
  else
    vad ← external vad_ctx;
    if negb (vw_vad_detect_speech vad (Some samples)) then mret true
    else
      ok ← transcribe samples;
      if ok : bool then
        push_segments window_pts_us (near_live_edge growing_live_window read_duration_us) ;; mret true
      else
        s ← ask (fun s => s);
        send_error (s_id s) E_INTERNAL 0 (str "Whisper inference failed") ;;
        fail_exit ;; mret false.

(** The body of the loop over the windows; whether it goes on. *)
Definition audio_window_step : W bool :=
  s ← ask (fun s => s);
  let buffered_samples := vw_audio_buffer_get_count (Some (s_audio s)) in
  if buffered_samples <? s_next s then mret false
  else
    '(samples, window_pts_us) ←
      read_window (if buffered_samples <? VW_WINDOW_SAMPLES then buffered_samples else VW_WINDOW_SAMPLES);
    go ← infer_window samples window_pts_us (s_live s);
    if negb go then mret false
    else if s_live s && (zlen samples <? VW_WINDOW_SAMPLES) then
      let next_target := zlen samples + VW_LIVE_HOP_SAMPLES in
      on_session (fun s => s <| s_next := if next_target <? VW_WINDOW_SAMPLES then next_target
                                          else VW_WINDOW_SAMPLES |>) ;;
      running ← gets w_running;
      when running (or_fail status_now) ;;
      mret false
    else
      running ← gets w_running;
      if negb running then mret false
      else
        on_session (fun s => s <| s_next := VW_WINDOW_SAMPLES |>) ;;
        drain_audio (if s_live s then VW_LIVE_HOP_SAMPLES else VW_LOCAL_FALLBACK_HOP_SAMPLES) ;;
        or_fail status_now ;;
        mret true.

(** [(const int16_t* )pcm_data], little-endian, [pcm_bytes / 2] samples. *)
Fixpoint pcm_samples (bytes : list Z) : list Z :=
  match bytes with
  | lo :: hi :: bytes => i16 (lo + 256 * hi) :: pcm_samples bytes
  | _ => []
  end.

(** An iteration that goes on drains a hop, so the sample count is enough fuel. *)
Definition handle_audio (p : vw_msg_audio_t) : W unit :=
  s ← ask (fun s => s);
  if negb (s_active s) || s_paused s || s_source_mode s || negb (bool_decide (audio_session_id p = s_id s))
  then skip
  else
    let pcm16 := pcm_samples <$> audio_pcm_data p in
    let pts_us := audio_start_pts_us p in
    if (pts_us <? 0) || (315360000000000 <? pts_us) then reset_window
    else if 0 <? zlen (default [] pcm16) then
      on_session (fun s => s <| s_audio := snd (vw_audio_buffer_append_s16le (s_audio s) pcm16 pts_us) |>) ;;
      count ← audio_count;
      loop (S (Z.to_nat count)) audio_window_step
    else skip.

(** *** PAUSE, RESUME, STOP and SHUTDOWN *)

(** A control of another session, or outside of one, is ignored. *)
Definition for_session (c : vw_msg_control_t) (m : W unit) : W unit :=
  s ← ask (fun s => s);
  if negb (s_active s) || negb (bool_decide (ctl_session_id c = s_id s)) then skip else m.

Definition handle_pause (c : vw_msg_control_t) : W unit :=
  for_session c
    (on_session (fun s => s <| s_paused := true |>) ;;
     reset_window ;; invalidate_translator ;;
     or_fail status_now).

Definition handle_resume (c : vw_msg_control_t) : W unit :=
  for_session c
    (on_session (fun s => s <| s_paused := false |>) ;;
     s ← ask (fun s => s);
     when (s_source_mode s && s_decoder s && (0 <=? s_current_pts s))
       (ok ← external (fun x => source_seek x (s_current_pts s));
        when ok (on_session (seek_anchor (s_current_pts s)) ;; reset_window ;; invalidate_translator)) ;;
     or_fail status_now).

(** The body of the loop of [vw_worker_drain_translation]: a sleep lets the
    translation threads run. *)
Definition drain_step : W bool :=
  running ← gets w_running;
  translator ← ask s_translator;
  match translator with
  | Some a =>
      if running && vw_translate_async_has_pending a then
        delivered ← try_deliver;
        when (negb delivered)
          (translator ← ask s_translator;
           match translator with
           | Some a =>
               a ← external (fun x => translation_threads x a);
               on_session (fun s => s <| s_translator := Some a |>)
           | None => skip
           end) ;;
        mret true
      else mret false
  | None => mret false
  end.

(** Queued, running and completed work is bounded by the pipeline's capacity; each
    iteration delivers a result or lets the threads take or complete a job. *)
Definition drain_fuel : nat := Z.to_nat (3 * VW_TRANSLATE_ASYNC_RESULT_CAPACITY + 1).
Definition vw_worker_drain_translation : W unit := loop drain_fuel drain_step.

(** The tail of the buffered audio at the end of the media; [message] is the error
    when its inference fails, [after] what follows a complete emission. *)
Definition finish_tail (message : list Z) (after : W unit) : W unit :=
  flushed ← vw_worker_flush_audio_tail;
  if negb flushed then
    s ← ask (fun s => s);
    send_error (s_id s) E_INTERNAL 0 message ;;
    fail_exit
  else
    emitted ← vw_worker_emit_tail_segments;
    if negb emitted then fail_exit else after.

Definition stop_fields (s : session) : session :=
  s <| s_audio := vw_audio_buffer_clear (s_audio s) |> <| s_live := false |> <| s_next := VW_WINDOW_SAMPLES |>
    <| s_builder := vw_segment_builder_clear (s_builder s) |>.

Definition handle_stop (c : vw_msg_control_t) : W unit :=
  s ← ask (fun s => s);
  if negb (bool_decide (ctl_session_id c = s_id s)) then skip
  else
    count ← audio_count;
    when ((ctl_reason c =? VW_CTRL_REASON_MEDIA_END) && negb (s_source_mode s) && (0 <? count))
      (finish_tail (str "MEDIA_END tail inference failed") skip) ;;
    when (s_active s && negb (ctl_reason c =? VW_CTRL_REASON_SEEK_DISCONTINUITY)) vw_worker_drain_translation ;;
    on_session (fun s => s <| s_active := false |> <| s_seek_failed := false |> <| s_last_pts := -1 |>) ;;
    when (s_decoder s) close_source ;;
    on_session stop_fields ;; reset_vad ;; invalidate_translator ;;
    running ← gets w_running;
    when running (or_fail (s ← ask (fun s => s); vw_worker_send_status (s_id s) false false)).

Definition handle_shutdown : W unit :=
  s ← ask (fun s => s);
  count ← audio_count;
  when (s_active s && negb (s_source_mode s) && (0 <? count))
    (finish_tail (str "SHUTDOWN tail inference failed") (or_fail status_now)) ;;
  when (s_active s) vw_worker_drain_translation ;;
  when (s_decoder s) close_source ;;
  modify (fun w => w <| w_running := false |>).

(** *** TRANSLATE_CTRL and MODEL_CTRL *)

Definition handle_translate_ctrl (p : vw_msg_translate_ctrl_t) : W unit :=
  s ← ask (fun s => s);
  if negb (bool_decide (tctl_session_id p = s_id s)) then skip
  else
    on_session (fun s =>
      s <| s_translate := negb (tctl_enabled p =? 0) |>
        <| s_src_lang := ztake 15 (cstr (tctl_source_lang p)) |>
        <| s_dst_lang := ztake 15 (cstr (tctl_target_lang p)) |>
        <| s_mode := tctl_mode p |>) ;;
    invalidate_translator.

Definition download_busy (stage : Z) : bool :=
  (stage =? VW_MODEL_STAGE_DOWNLOADING) || (stage =? VW_MODEL_STAGE_VERIFYING)
  || (stage =? VW_MODEL_STAGE_ABORTING).

(** The session progress frames are addressed to. *)
Definition progress_session (fallback : vw_session_id_t) : W vw_session_id_t :=
  s ← ask (fun s => s); mret (if s_active s then s_id s else fallback).

Definition refuse_download (p : vw_msg_model_ctrl_t) (model_id : list Z) : W unit :=
  session_id ← progress_session (mctl_session_id p);
  or_fail (vw_worker_send_model_progress session_id VW_MODEL_STAGE_FAILED 0 0 0 model_id).

(** [dl_dir_ready] of the worker's start. *)
Definition start_download (p : vw_msg_model_ctrl_t) (dl_dir_ready : bool) : W unit :=
  let req_id := cstr (mctl_model_id p) in
  match vw_model_catalog_find (Some req_id) with
  | None => refuse_download p req_id
  | Some entry =>
      if negb dl_dir_ready then refuse_download p req_id
      else
        model_dl ← gets w_model_dl;
        is_active ← (if model_dl : bool then cur ← external download_poll; mret (download_busy (dp_stage cur))
                     else mret false);
        if is_active : bool then refuse_download p req_id
        else
          when model_dl
            (external (fun x => (tt, download_free x)) ;;
             modify (fun w => w <| w_model_dl := false |> <| w_last_stage := -1 |>)) ;;
          started ← external (fun x => download_start x entry);
          modify (fun w => w <| w_model_dl := started |>) ;;
          when (negb started) (refuse_download p (ent_id entry))
  end.

Definition handle_model_ctrl (p : vw_msg_model_ctrl_t) (dl_dir_ready : bool) : W unit :=
  if mctl_action p =? VW_MODEL_ACTION_DOWNLOAD then start_download p dl_dir_ready
  else if mctl_action p =? VW_MODEL_ACTION_ABORT then
    model_dl ← gets w_model_dl;
    if model_dl : bool then external (fun x => (tt, download_abort x))
    else
      session_id ← progress_session (mctl_session_id p);
      or_fail (vw_worker_send_model_progress session_id VW_MODEL_STAGE_IDLE 0 0 0 [])
  else skip.

Definition handle_message (m : message) (dl_dir_ready : bool) : W unit :=
  match m with
  | START_SESSION p => handle_start p
  | POSITION p => handle_position p
  | AUDIO_PCM p => handle_audio p
  | PAUSE c => handle_pause c
  | RESUME c => handle_resume c
  | STOP_SESSION c => handle_stop c
  | TRANSLATE_CTRL p => handle_translate_ctrl p
  | MODEL_CTRL p => handle_model_ctrl p dl_dir_ready
  | SHUTDOWN => handle_shutdown
  | _ => skip
  end.

(** A NULL payload does not decode. *)
Definition decode_frame (f : vw_worker_frame_t) : option message :=
  p ← frame_payload f; vw_protocol_decode_payload (frame_type f) (ztake (frame_payload_len f) p).

Definition wrong_audio_format (start : vw_msg_start_t) : bool :=
  negb (start_sample_rate start =? VW_AUDIO_SAMPLE_RATE) || negb (start_channels start =? 1)
  || negb (start_sample_format start =? VW_SAMPLE_FORMAT_S16LE).

(** A payload that is not valid: a START in another format is answered, a SHUTDOWN
    without a payload is one all the same, anything else ends the worker. *)
Definition handle_invalid (f : vw_worker_frame_t) (decoded : option message) (authenticated : bool) : W outcome :=
  match decoded with
  | Some (START_SESSION start) =>
      if authenticated && wrong_audio_format start then
        sent ← send_error (start_session_id start) E_AUDIO_FORMAT 1
                 (str "Unsupported audio format (expected 16kHz mono S16LE)");
        if sent : bool then mret NextIteration else set_fatal ;; mret ExitLoop
      else set_fatal ;; mret ExitLoop
  | _ => set_fatal ;; mret ExitLoop
  end.

Definition handle_frame (f : vw_worker_frame_t) (dl_dir_ready : bool) : W outcome :=
  authenticated ← gets w_authenticated;
  let decoded := decode_frame f in
  let valid := match decoded with
               | Some m => if vw_protocol_validate_payload m then Some m else None
               | None => if (frame_type f =? VW_MSG_SHUTDOWN) && (frame_payload_len f =? 0)
                         then Some SHUTDOWN else None
               end in
  match valid with
  | None => handle_invalid f decoded authenticated
  | Some m =>
      if negb authenticated then handle_unauthenticated m
      else handle_message m dl_dir_ready ;; mret GoOn
  end.

(** ** The rest of an iteration *)

Definition send_progress (prog : vw_download_progress_t) (now_us : Z) : W unit :=
  session_id ← progress_session (zreplicate VW_SESSION_ID_BYTES 0);
  or_fail (vw_worker_send_model_progress session_id (u8 (dp_stage prog)) (u8 (dp_pct prog))
             (dp_bytes_done prog) (dp_bytes_total prog) (dp_model_id prog)) ;;
  modify (fun w => w <| w_last_stage := dp_stage prog |> <| w_last_progress_us := now_us |>).

(** A finished or aborted download is released. *)
Definition download_over (stage prev_stage : Z) : bool :=
  (stage =? VW_MODEL_STAGE_DONE) || (stage =? VW_MODEL_STAGE_FAILED)
  || ((stage =? VW_MODEL_STAGE_IDLE)
      && ((prev_stage =? VW_MODEL_STAGE_ABORTING) || (prev_stage =? VW_MODEL_STAGE_DOWNLOADING)
          || (prev_stage =? VW_MODEL_STAGE_VERIFYING))).

Definition poll_download : W unit :=
  model_dl ← gets w_model_dl;
  when model_dl
    (prog ← external download_poll;
     now_us ← external monotonic_time_us;
     w ← gets (fun w => w);
     let prev_stage := w_last_stage w in
     when (negb (dp_stage prog =? prev_stage)
           || (download_busy (dp_stage prog) && (1000000 <=? now_us - w_last_progress_us w)))
       (send_progress prog now_us) ;;
     when (download_over (dp_stage prog) prev_stage)
       (external (fun x => (tt, download_free x)) ;;
        modify (fun w => w <| w_model_dl := false |> <| w_last_stage := -1 |>))).

(** One chunk of the look-ahead buffer; whether the loop goes on. *)
Definition lookahead_step : W bool :=
  s ← ask (fun s => s);
  count ← audio_count;
  if negb ((VW_CHUNK_MIN_SAMPLES <=? count) || (s_source_eof s && (0 <? count))) then mret false
  else
    '(samples, boundary_pts_us) ← read_window VW_CHUNK_MAX_SAMPLES;
    if zlen samples =? 0 then mret false
    else
      vad ← external vad_ctx;
      let bd := vw_vad_find_chunk_boundary vad (Some samples) (s_source_eof s) in
      if negb (bd_found bd) then mret false
      else if 0 <? bd_drain bd then drain_audio (bd_drain bd) ;; mret true
      else if 0 <? bd_cut bd then
        ok ← transcribe (ztake (bd_cut bd) samples);
        if ok : bool then
          push_segments boundary_pts_us (fun _ => false) ;;
          running ← gets w_running;
          if negb running then mret false
          else drain_audio (bd_cut bd) ;; or_fail status_now ;; mret true
        else
          send_error (s_id s) E_INTERNAL 0 (str "Whisper inference failed") ;;
          fail_exit ;; mret false
      else mret false.

(** The source decoder is read while it is less than the lead ahead of playback. *)
Definition source_due (s : session) : bool :=
  s_active s && s_source_mode s && s_decoder s && negb (s_paused s) && negb (s_source_eof s)
  && (s_decoded_pts s <? vw_saturating_add_i64 (s_current_pts s) lead_target_us).

Definition source_chunk (samples : list Z) (chunk_pts_us : Z) : W unit :=
  s ← ask (fun s => s);
  let actual_pts := if 0 <=? chunk_pts_us then chunk_pts_us else s_decoded_pts s in
  on_session (fun s =>
    s <| s_audio := snd (vw_audio_buffer_append_s16le (s_audio s) (Some samples) actual_pts) |>
      <| s_decoded_pts := actual_pts + zlen samples * 1000000 / 16000 |>) ;;
  count ← audio_count;
  loop (S (Z.to_nat count)) lookahead_step.

(** Whether the loop goes on after the source step. *)
Definition source_step : W bool :=
  s ← ask (fun s => s);
  if negb (source_due s) then mret true
  else
    '(read_status, samples, chunk_pts_us) ← external (fun x => source_read x VW_LOOKAHEAD_CHUNK_SAMPLES);
    match read_status with
    | VW_SOURCE_DECODER_READ_OK =>
        if 0 <? zlen samples then source_chunk samples chunk_pts_us ;; mret true else mret true
    | VW_SOURCE_DECODER_READ_EOF =>
        on_session (fun s => s <| s_source_eof := true |>) ;;
        flushed ← vw_worker_flush_audio_tail;
        if negb flushed then
          send_error (s_id s) E_INTERNAL 0 (str "Source tail inference failed") ;;
          fail_exit ;; mret false
        else or_fail status_now ;; mret true
    | VW_SOURCE_DECODER_READ_ERROR =>
        or_fail (send_error (s_id s) E_INTERNAL 0 (str "Source decoder read failed")) ;;
        on_session (fun s => s <| s_active := false |> <| s_source_eof := true |>) ;;
        close_source ;;
        on_session (fun s => s <| s_audio := vw_audio_buffer_clear (s_audio s) |>
                               <| s_builder := vw_segment_builder_clear (s_builder s) |>) ;;
        invalidate_translator ;;
        mret true
    | VW_SOURCE_DECODER_READ_AGAIN => mret true
    end.

(** Emit a pending cue: to the translator, or at once when it is off or full. *)
Definition emit_step : W bool :=
  seg ← pop_segment;
  match seg with
  | None => mret false
  | Some seg =>
      s ← ask (fun s => s);
      let seg := own_segment (s_id s) seg in
      let wanted := s_translate s && bool_decide (s_translator s <> None)
                    && (0 <? zlen (default [] (seg_text_utf8 seg))) in
      (if wanted then
         accepted ← submit_segment seg;
         when (negb accepted) (or_fail (vw_worker_send_caption_segment (attempted true seg)))
       else or_fail (vw_worker_send_caption_segment seg)) ;;
      mret true
  end.
Definition emit_segments : W unit :=
  builder ← ask s_builder; loop (S (Z.to_nat (sb_count builder))) emit_step.

(** One iteration of the main loop; whether the loop goes on. *)
Definition main_iteration (frame : option vw_worker_frame_t) (dl_dir_ready : bool) : W bool :=
  out ← (match frame with Some f => handle_frame f dl_dir_ready | None => mret GoOn end);
  match out with
  | ExitLoop => mret false
  | NextIteration => mret true
  | GoOn =>
      deliver_all ;;
      poll_download ;;
      go ← source_step;
      if negb go then mret false
      else emit_segments ;; deliver_all ;; mret true
  end.

(** ** The worker as a system

    Its loop, the reader thread that fills the queue, and the translation threads;
    an iteration of the loop is one step. *)

Definition session_start (audio : vw_audio_buffer_t) (translator : option vw_translate_async) : session :=
  mk_session (zreplicate VW_SESSION_ID_BYTES 0) false false false VW_WINDOW_SAMPLES false false false false
    0 (-1) 0 false (str "auto") (str "en") 1 audio vw_segment_builder_create translator.

(** After the allocations of [vw_worker_run]. *)
Definition worker_start (audio : vw_audio_buffer_t) (queue : vw_worker_queue_t)
    (translator : option vw_translate_async) (engine : option vw_whisper_engine_t) (x : X) : worker X :=
  mk_worker (session_start audio translator) engine true false false 1 queue false (-1) 0 false false [] x.

(** The loop stops for good once an iteration leaves it. *)
Definition worker_iterates (frame : option vw_worker_frame_t) (dl_dir_ready : bool) (w : worker X) : worker X :=
  let '(go, w) := main_iteration frame dl_dir_ready w in
  if go : bool then w else w <| w_running := false |>.

(** What ends the wait for a frame: a translation to deliver, a source to read, a
    download to poll. *)
Definition idle_wakes (w : worker X) : bool :=
  let s := w_session w in
  match s_translator s with Some a => vw_translate_async_has_result a | None => false end
  || source_due s || w_model_dl w.

Inductive worker_step (dl_dir_ready : bool) : worker X -> worker X -> Prop :=
  | step_frame w f q :
      w_running w = true -> vw_worker_queue_pop (w_queue w) = (Some f, q) ->
      worker_step dl_dir_ready w (worker_iterates (Some f) dl_dir_ready (w <| w_queue := q |>))
  | step_idle w :
      w_running w = true -> idle_wakes w = true ->
      worker_step dl_dir_ready w (worker_iterates None dl_dir_ready w)
  | step_receive w type payload len :
      worker_step dl_dir_ready w
        (w <| w_queue := snd (vw_worker_queue_push (w_queue w) type payload len) |>)
  | step_peer_gone w :
      worker_step dl_dir_ready w
        (w <| w_fatal := true |> <| w_running := false |>
           <| w_queue := snd (vw_worker_queue_push (w_queue w) VW_MSG_SHUTDOWN None 0) |>)
  | step_translates w a x' :
      s_translator (w_session w) = Some a ->
      worker_step dl_dir_ready w
        (w <| w_session := (w_session w) <| s_translator := Some (fst (translation_threads x' a)) |> |>).

(** What [vw_worker_run] returns. *)
Definition exit_code (w : worker X) : Z := if w_fatal w || negb (w_authenticated w) then 1 else 0.
End worker.

(** ** A concrete environment

    For the examples: a transport that accepts everything, no VAD model, no media
    source, no download and an engine that hears nothing. *)
#[export] Instance silent_env : WorkerEnv unit := {
  ipc_send x _ := (true, x);
  whisper_lang_id l := if bool_decide (l = str "en") then 0 else -1;
  whisper_full x _ _ _ := ((0, 1000, []), x);
  vad_ctx x := (None, x);
  vad_reset x := x;
  source_open x _ := (false, x);
  source_seek x _ := (false, x);
  source_read x _ := ((VW_SOURCE_DECODER_READ_EOF, [], -1), x);
  source_close x := x;
  download_start x _ := (false, x);
  download_poll x := (mk_progress 0 0 0 0 [], x);
  download_abort x := x;
  download_free x := x;
  monotonic_time_us x := (0, x);
  translation_threads x a := (a, x)
}.
