(* ===== verification/SourceDecoder.v ===== *)
(** * The source decoder

    [src/worker/src/vw_source_decoder_ffmpeg.c]: opening a media file, seeking in it and
    reading its audio as 16 kHz mono samples. The calls of FFmpeg are the operations of
    [AvEnv]; packets, frames and contexts stay on its side, but for the stream a packet
    belongs to and the timestamps of a frame. *)

From S2P Require Import Prelude.
From S2P Require Import CString.
From S2P Require Import State.
From S2P Require Import WorkerSession.

(** ** Paths *)

Definition path_hex (c : Z) : option Z :=
  if is_digit c then Some (c - 48)
  else let l := tolower c in if (97 <=? l) && (l <=? 102) then Some (l - 87) else None.
(** [strtol] in base 16 of two characters when it takes both: a blank or a sign may come
    first. *)
Definition strtol_hex (a b : Z) : option Z :=
  low ← path_hex b;
  match path_hex a with
  | Some high => Some (high * 16 + low)
  | None => if isspace a || (a =? 43) then Some low else if a =? 45 then Some (- low) else None
  end.

(** [idx] is the number of bytes written to a buffer of [buf_len]. *)
Fixpoint normalize_loop (src : list Z) (idx buf_len : Z) : option (list Z) :=
  match src with
  | [] => Some []
  | c :: rest =>
      if buf_len <=? idx + 1 then None
      else
        match rest with
        | a :: b :: after =>
            match (if c =? 37 then strtol_hex a b else None) with
            | Some val => if val =? 0 then None else (u8 val ::.) <$> normalize_loop after (idx + 1) buf_len
            | None => (c ::.) <$> normalize_loop rest (idx + 1) buf_len
            end
        | _ => (c ::.) <$> normalize_loop rest (idx + 1) buf_len
        end
  end.
Definition file_localhost : list Z := str "file:/" ++ str "/localhost/".
Definition file_scheme : list Z := str "file:/" ++ str "/".
Definition vw_source_decoder_normalize_posix_path (url : list Z) (buf_len : Z) : option (list Z) :=
  if buf_len =? 0 then None
  else
    let src := if prefixb file_localhost url then zdrop 16 url
               else if prefixb file_scheme url then zdrop 7 url else url in
    normalize_loop src 0 buf_len.

(** ** What the decoder calls *)

Inductive av_status := AvOk | AvEof | AvAgain | AvError.
(** The timestamps of a frame, [None] for [AV_NOPTS_VALUE]. *)
Record av_frame := mk_frame { fr_pts : option Z; fr_best_effort : option Z; fr_pkt_dts : option Z }.
Inductive av_read := ReadPacket (stream_index : Z) | ReadEof | ReadAgain | ReadError.

(** Contexts by what they are; the reference a packet holds is one of them. *)
Inductive av_handle := FormatContext | CodecContext | Resampler | Packet | Frame | Decoder | PacketData.
#[global] Instance av_handle_eq_dec : EqDecision av_handle.
Proof. solve_decision. Defined.

Class AvEnv (X : Type) := {
  avformat_open_input : X -> list Z -> bool * X;
  avformat_find_stream_info : X -> bool * X;
  av_find_best_stream : X -> Z * X;
  (** The stream's start, in its time base; the duration in microseconds. *)
  stream_start : X -> option Z;
  media_duration_us : X -> Z;
  avcodec_find_decoder : X -> bool * X;
  avcodec_alloc_context3 : X -> bool * X;
  avcodec_parameters_to_context : X -> bool * X;
  avcodec_open2 : X -> bool * X;
  (** Whether it succeeds and whether it leaves a context. *)
  swr_alloc_set_opts2 : X -> (bool * bool) * X;
  swr_init : X -> bool * X;
  alloc : X -> av_handle -> bool * X;
  (** Microseconds to and from the stream's time base. *)
  rescale_to_stream : X -> Z -> Z;
  rescale_from_stream : X -> Z -> Z;
  av_seek_frame : X -> Z -> bool * X;
  avcodec_flush_buffers : X -> X;
  av_read_frame : X -> av_read * X;
  (** The packet read last, or the end of the stream. *)
  avcodec_send_packet : X -> bool -> av_status * X;
  (** The frame is there when the status is [AvOk]. *)
  avcodec_receive_frame : X -> (av_status * av_frame) * X;
  swr_get_delay : X -> Z;
  (** Of the frame received last, or of what is buffered; [None] is a failure. *)
  swr_convert : X -> bool -> Z -> option (list Z) * X
}.

(** ** The state *)

Inductive av_event :=
  | Acquired (h : av_handle)
  | Released (h : av_handle)
  | Heard (start_us trimmed : Z) (kept : list Z)
      (* converted samples; [start_us] is that of the first, [trimmed] those left out *)
  | Sought (target_us : Z)
  | Delivered (pts_us : Z) (samples : list Z)
  | ReadFailed.

(** [rl_out] is [out_pcm[0..total_samples)], [rl_pts] what [*out_pts_us] was set to. *)
Record read_locals := mk_read_locals { rl_out : list Z; rl_pts : option Z; rl_defer : Z }.
(** [dc_leftover] is the [leftover_count] samples of [leftover_buffer]; [dc_pkt_stream] is
    [pkt->stream_index]. *)
Record decoder {X : Type} := mk_decoder {
  dc_audio_stream_idx : Z;
  dc_duration_us : Z;
  dc_current_pts_us : Z;
  dc_seek_target_us : Z;
  dc_stream_start_time : Z;
  dc_demux_eof : bool;
  dc_flush_sent : bool;
  dc_eof_reached : bool;
  dc_pkt_pending : bool;
  dc_pkt_stream : Z;
  dc_leftover : list Z;
  dc_read : read_locals;
  dc_log : list av_event;
  dc_ext : X
}.
Arguments decoder X : clear implicits.
Arguments mk_decoder {X}.

#[global] Instance settable_read_locals : Settable read_locals :=
  fun r => mk_read_locals (rl_out r) (rl_pts r) (rl_defer r).
#[global] Instance set_rl_out : Setter rl_out := ltac:(setter).
#[global] Instance set_rl_pts : Setter rl_pts := ltac:(setter).
#[global] Instance set_rl_defer : Setter rl_defer := ltac:(setter).
#[global] Instance settable_decoder {X} : Settable (decoder X) :=
  fun d => mk_decoder (dc_audio_stream_idx d) (dc_duration_us d) (dc_current_pts_us d) (dc_seek_target_us d)
    (dc_stream_start_time d) (dc_demux_eof d) (dc_flush_sent d) (dc_eof_reached d) (dc_pkt_pending d) (dc_pkt_stream d)
    (dc_leftover d) (dc_read d) (dc_log d) (dc_ext d).
#[global] Instance set_dc_audio_stream_idx {X} : Setter (@dc_audio_stream_idx X) := ltac:(setter).
#[global] Instance set_dc_duration_us {X} : Setter (@dc_duration_us X) := ltac:(setter).
#[global] Instance set_dc_stream_start_time {X} : Setter (@dc_stream_start_time X) := ltac:(setter).
#[global] Instance set_dc_current_pts_us {X} : Setter (@dc_current_pts_us X) := ltac:(setter).
#[global] Instance set_dc_seek_target_us {X} : Setter (@dc_seek_target_us X) := ltac:(setter).
#[global] Instance set_dc_demux_eof {X} : Setter (@dc_demux_eof X) := ltac:(setter).
#[global] Instance set_dc_flush_sent {X} : Setter (@dc_flush_sent X) := ltac:(setter).
#[global] Instance set_dc_eof_reached {X} : Setter (@dc_eof_reached X) := ltac:(setter).
#[global] Instance set_dc_pkt_pending {X} : Setter (@dc_pkt_pending X) := ltac:(setter).
#[global] Instance set_dc_pkt_stream {X} : Setter (@dc_pkt_stream X) := ltac:(setter).
#[global] Instance set_dc_leftover {X} : Setter (@dc_leftover X) := ltac:(setter).
#[global] Instance set_dc_read {X} : Setter (@dc_read X) := ltac:(setter).
#[global] Instance set_dc_log {X} : Setter (@dc_log X) := ltac:(setter).
#[global] Instance set_dc_ext {X} : Setter (@dc_ext X) := ltac:(setter).

Definition leftover_capacity : Z := 4096.

Section decoder.
Context {X : Type} `{!AvEnv X}.
#[local] Abbreviation D := (M (decoder X)).

Definition av {A} (f : X -> A * X) : D A := fun d => let '(a, x) := f (dc_ext d) in (a, d <| dc_ext := x |>).
Definition av_note (e : av_event) : D unit := modify (fun d => d <| dc_log := dc_log d ++ [e] |>).
Definition on_read (f : read_locals -> read_locals) : D unit := modify (fun d => d <| dc_read := f (dc_read d) |>).
Definition total_samples : D Z := gets (fun d => zlen (rl_out (dc_read d))).

(** ** Samples *)

(** Samples to leave out to pass [delta] microseconds at 62.5 each. *)
Definition skip_samples (delta : Z) : Z := delta / 125 * 2 + ((delta mod 125) * 2 + 124) / 125.

(** What is left of converted samples after those before the seek's target. *)
Definition trim_to_target (samples : list Z) : D (list Z) :=
  d ← gets id;
  let start := dc_current_pts_us d in
  let target := dc_seek_target_us d in
  if negb (target =? INT64_MIN) && (start <? target) then
    let skip := skip_samples (target - start) in
    let trimmed := if skip <? zlen samples then skip else zlen samples in
    modify (fun d => d <| dc_current_pts_us := start + trimmed * 125 / 2 |>) ;;
    modify (fun d => if target <=? dc_current_pts_us d then d <| dc_seek_target_us := INT64_MIN |> else d) ;;
    av_note (Heard start trimmed (zdrop trimmed samples)) ;;
    mret (zdrop trimmed samples)
  else av_note (Heard start 0 samples) ;; mret samples.

Definition vw_source_decoder_copy_samples (samples : list Z) (max_samples : Z) : D unit :=
  samples ← trim_to_target samples;
  total ← total_samples;
  let needed := max_samples - total in
  let to_copy := if zlen samples <? needed then zlen samples else needed in
  when (0 <? to_copy)
    (on_read (fun r => r <| rl_out := rl_out r ++ ztake to_copy samples |>) ;;
     modify (fun d => d <| dc_current_pts_us := dc_current_pts_us d + to_copy * 1000000 / 16000 |>)) ;;
  let remainder := zlen samples - to_copy in
  when (0 <? remainder)
    (let remainder := if leftover_capacity <? remainder then leftover_capacity else remainder in
     modify (fun d => d <| dc_leftover := ztake remainder (zdrop to_copy samples) |>)).

(** Converted samples of a frame or of what the resampler holds; the time of the first
    sample when it is the first of the call. *)
Definition take_converted (samples : list Z) (max_samples : Z) : D unit :=
  before ← total_samples;
  vw_source_decoder_copy_samples samples max_samples ;;
  total ← total_samples;
  when ((before =? 0) && (0 <? total))
    (d ← gets dc_current_pts_us; on_read (fun r => r <| rl_pts := Some (d - total * 125 / 2) |>)).

Definition frame_time (frame : av_frame) : option Z :=
  match fr_pts frame with
  | Some t => Some t
  | None => match fr_best_effort frame with Some t => Some t | None => fr_pkt_dts frame end
  end.

Definition vw_source_decoder_process_frame (frame : av_frame) (max_samples : Z) : D bool :=
  (match frame_time frame with
   | Some t =>
       modify (fun d => d <| dc_current_pts_us := rescale_from_stream (dc_ext d) (t - dc_stream_start_time d) |>) ;;
       modify (fun d => d <| dc_current_pts_us := dc_current_pts_us d - swr_get_delay (dc_ext d) |>)
   | None => skip
   end) ;;
  converted ← av (fun x => swr_convert x true leftover_capacity);
  match converted with
  | None => mret false
  | Some samples =>
      let samples := ztake leftover_capacity samples in
      when (0 <? zlen samples) (take_converted samples max_samples) ;; mret true
  end.

Definition vw_source_decoder_drain_swr (max_samples : Z) : D vw_source_decoder_read_status_t :=
  converted ← av (fun x => swr_convert x false leftover_capacity);
  match converted with
  | None => mret VW_SOURCE_DECODER_READ_ERROR
  | Some samples =>
      let samples := ztake leftover_capacity samples in
      if zlen samples =? 0 then mret VW_SOURCE_DECODER_READ_EOF
      else take_converted samples max_samples ;; mret VW_SOURCE_DECODER_READ_OK
  end.

(** ** Reading *)

(** How an iteration of the loop ends. *)
Inductive verdict := Continue | Break | Return (status : vw_source_decoder_read_status_t).

Definition unref_packet : D unit :=
  av_note (Released PacketData) ;; modify (fun d => d <| dc_pkt_pending := false |>).

(** The end of the stream is sent to the codec once; [false] when it fails. *)
Definition send_flush : D bool :=
  flush_sent ← gets dc_flush_sent;
  if flush_sent : bool then mret true
  else
    status ← av (fun x => avcodec_send_packet x false);
    match status with
    | AvOk | AvEof => modify (fun d => d <| dc_flush_sent := true |>) ;; mret true
    | AvAgain => mret true
    | AvError => mret false
    end.

(** After the demuxer's end: the codec is flushed, then the resampler. *)
Definition flush_decoder (max_samples : Z) : D verdict :=
  sent ← send_flush;
  if negb sent then mret (Return VW_SOURCE_DECODER_READ_ERROR)
  else
    answer ← av avcodec_receive_frame;
    match fst answer with
    | AvOk =>
        ok ← vw_source_decoder_process_frame (snd answer) max_samples;
        mret (if ok : bool then Continue else Return VW_SOURCE_DECODER_READ_ERROR)
    | AvEof =>
        status ← vw_source_decoder_drain_swr max_samples;
        match status with
        | VW_SOURCE_DECODER_READ_ERROR => mret (Return status)
        | VW_SOURCE_DECODER_READ_EOF =>
            modify (fun d => if zlen (dc_leftover d) =? 0 then d <| dc_eof_reached := true |> else d) ;; mret Continue
        | _ => mret Continue
        end
    | AvAgain => flush_sent ← gets dc_flush_sent; mret (if flush_sent : bool then Break else Continue)
    | AvError => mret (Return VW_SOURCE_DECODER_READ_ERROR)
    end.

(** The loop that takes the frames the codec has; [None] when it ran out of [fuel],
    otherwise whether it ended well. *)
Fixpoint receive_frames (fuel : nat) (max_samples : Z) : D (option bool) :=
  match fuel with
  | O => mret None
  | S fuel =>
      d ← gets id;
      if (zlen (rl_out (dc_read d)) <? max_samples) && (zlen (dc_leftover d) =? 0) then
        answer ← av avcodec_receive_frame;
        match fst answer with
        | AvOk =>
            ok ← vw_source_decoder_process_frame (snd answer) max_samples;
            if ok : bool then receive_frames fuel max_samples else mret (Some false)
        | AvAgain | AvEof => mret (Some true)
        | AvError => mret (Some false)
        end
      else mret (Some true)
  end.

(** A packet to send: the one kept from before or the next one read. *)
Definition next_packet : D (option verdict) :=
  pending ← gets dc_pkt_pending;
  if pending : bool then mret None
  else
    answer ← av av_read_frame;
    match answer with
    | ReadEof => modify (fun d => d <| dc_demux_eof := true |>) ;; mret (Some Continue)
    | ReadAgain =>
        total ← total_samples;
        mret (Some (Return (if 0 <? total then VW_SOURCE_DECODER_READ_OK else VW_SOURCE_DECODER_READ_AGAIN)))
    | ReadError => mret (Some (Return VW_SOURCE_DECODER_READ_ERROR))
    | ReadPacket stream_index =>
        av_note (Acquired PacketData) ;;
        modify (fun d => d <| dc_pkt_stream := stream_index |> <| dc_pkt_pending := true |>) ;; mret None
    end.

(** A packet is sent to the codec; when it is full its frames are taken first. [None]
    when a loop ran out of fuel, [Some None] when a frame could not be taken. *)
Definition send_or_retry (fuel : nat) (max_samples : Z) : D (option (option av_status)) :=
  first ← av (fun x => avcodec_send_packet x true);
  match first with
  | AvAgain =>
      taken ← receive_frames fuel max_samples;
      match taken with
      | Some true =>
          d ← gets id;
          if (zlen (rl_out (dc_read d)) <? max_samples) && (zlen (dc_leftover d) =? 0)
          then again ← av (fun x => avcodec_send_packet x true); mret (Some (Some again))
          else mret (Some (Some AvAgain))
      | Some false => mret (Some None)
      | None => mret None
      end
  | _ => mret (Some (Some first))
  end.

(** The packet of the audio stream. *)
Definition send_packet (fuel : nat) (max_samples : Z) : D (option verdict) :=
  progress_total ← total_samples;
  progress_leftover ← gets (fun d => zlen (dc_leftover d));
  retried ← send_or_retry fuel max_samples;
  match retried with
  | None => mret None
  | Some None => mret (Some (Return VW_SOURCE_DECODER_READ_ERROR))
  | Some (Some AvOk) =>
      taken ← receive_frames fuel max_samples;
      match taken with
      | Some true => unref_packet ;; on_read (fun r => r <| rl_defer := 0 |>) ;; mret (Some Continue)
      | Some false => mret (Some (Return VW_SOURCE_DECODER_READ_ERROR))
      | None => mret None
      end
  | Some (Some AvAgain) =>
      total ← total_samples;
      leftover ← gets (fun d => zlen (dc_leftover d));
      on_read (fun r => r <| rl_defer := if (total =? progress_total) && (leftover =? progress_leftover) then rl_defer r + 1 else 0 |>) ;;
      defer ← gets (fun d => rl_defer (dc_read d));
      if 2 <=? defer then mret (Some Break)
      else modify (fun d => d <| dc_pkt_pending := true |>) ;; mret (Some Continue)
  | Some (Some AvEof) => unref_packet ;; modify (fun d => d <| dc_demux_eof := true |>) ;; mret (Some Continue)
  | Some (Some AvError) => unref_packet ;; mret (Some (Return VW_SOURCE_DECODER_READ_ERROR))
  end.

Definition demux_step (fuel : nat) (max_samples : Z) : D (option verdict) :=
  answer ← next_packet;
  match answer with
  | Some v => mret (Some v)
  | None =>
      d ← gets id;
      if dc_pkt_stream d =? dc_audio_stream_idx d then send_packet fuel max_samples
      else unref_packet ;; mret (Some Continue)
  end.

(** The loop of the call; [None] when it ran out of fuel. *)
Fixpoint read_loop (fuel : nat) (max_samples : Z) : D (option verdict) :=
  match fuel with
  | O => mret None
  | S fuel =>
      d ← gets id;
      if (zlen (rl_out (dc_read d)) <? max_samples) && negb (dc_eof_reached d) then
        v ← (if dc_demux_eof d then v ← flush_decoder max_samples; mret (Some v) else demux_step (S fuel) max_samples);
        match v with
        | Some Continue => read_loop fuel max_samples
        | _ => mret v
        end
      else mret (Some Break)
  end.

(** The samples kept from the call before; whether the call ends with them. *)
Definition take_leftover (max_samples : Z) : D bool :=
  d ← gets id;
  let count := zlen (dc_leftover d) in
  if 0 <? count then
    let to_copy := if count <? max_samples then count else max_samples in
    on_read (fun r => r <| rl_out := ztake to_copy (dc_leftover d) |> <| rl_pts := Some (dc_current_pts_us d) |>) ;;
    modify (fun d => d <| dc_current_pts_us := dc_current_pts_us d + to_copy * 1000000 / 16000 |>
                       <| dc_leftover := zdrop to_copy (dc_leftover d) |>) ;;
    mret (to_copy <? count)
  else mret false.

(** A call that returns [VW_SOURCE_DECODER_READ_OK] hands over its samples. *)
Definition deliver (status : vw_source_decoder_read_status_t)
    : D (option (vw_source_decoder_read_status_t * list Z * option Z)) :=
  r ← gets dc_read;
  match status with
  | VW_SOURCE_DECODER_READ_OK =>
      av_note (Delivered (default 0 (rl_pts r)) (rl_out r)) ;; mret (Some (status, rl_out r, rl_pts r))
  | VW_SOURCE_DECODER_READ_ERROR => av_note ReadFailed ;; mret (Some (status, [], rl_pts r))
  | _ => mret (Some (status, [], rl_pts r))
  end.

(** The status, the [*out_sample_count] samples and [*out_pts_us] when it is set; [None]
    when [fuel] was not enough. *)
Definition vw_source_decoder_read_s16le (fuel : nat) (max_samples : Z)
    : D (option (vw_source_decoder_read_status_t * list Z * option Z)) :=
  if max_samples =? 0 then mret (Some (VW_SOURCE_DECODER_READ_ERROR, [], None))
  else
    eof_reached ← gets dc_eof_reached;
    if eof_reached : bool then mret (Some (VW_SOURCE_DECODER_READ_EOF, [], None))
    else
      on_read (fun _ => mk_read_locals [] None 0) ;;
      done ← take_leftover max_samples;
      if done : bool then deliver VW_SOURCE_DECODER_READ_OK
      else
        v ← read_loop fuel max_samples;
        match v with
        | None => mret None
        | Some (Return status) => deliver status
        | Some _ =>
            d ← gets id;
            deliver (if 0 <? zlen (rl_out (dc_read d)) then VW_SOURCE_DECODER_READ_OK
                     else if dc_eof_reached d then VW_SOURCE_DECODER_READ_EOF else VW_SOURCE_DECODER_READ_AGAIN)
        end.

(** ** Opening, seeking, closing *)

(** The decoder as [calloc] makes it. *)
Definition blank_decoder (x : X) : decoder X :=
  mk_decoder 0 0 0 0 0 false false false false 0 [] (mk_read_locals [] None 0) [] x.

Definition release_all (hs : list av_handle) : D unit := for_each hs (fun h => av_note (Released h)).
Definition fail_open (hs : list av_handle) : D (option Z) := release_all hs ;; mret None.
(** A resampler to 16 kHz mono: whether it is ready and whether there is one to free. *)
Definition new_resampler : D (bool * bool) :=
  answer ← av swr_alloc_set_opts2;
  when (snd answer) (av_note (Acquired Resampler)) ;;
  ready ← (if fst answer && snd answer then av swr_init else mret false);
  mret (ready, snd answer).
Definition alloc_handle (h : av_handle) : D bool :=
  ok ← av (fun x => alloc x h); when ok (av_note (Acquired h)) ;; mret ok.

(** From the codec context on. *)
Definition open_codec (audio_idx : Z) : D (option Z) :=
  ok ← av avcodec_parameters_to_context;
  ok ← (if ok : bool then av avcodec_open2 else mret false);
  if negb ok then fail_open [CodecContext; FormatContext]
  else
    resampler ← new_resampler;
    if negb (fst resampler) then fail_open ((if snd resampler : bool then [Resampler] else []) ++ [CodecContext; FormatContext])
    else
      dec ← alloc_handle Decoder;
      if negb dec then fail_open [Resampler; CodecContext; FormatContext]
      else
        modify (fun d => d <| dc_audio_stream_idx := audio_idx |>
                           <| dc_stream_start_time := default 0 (stream_start (dc_ext d)) |>) ;;
        pkt ← alloc_handle Packet;
        frame ← alloc_handle Frame;
        if negb (pkt && frame) then
          fail_open ((if pkt : bool then [Packet] else []) ++ (if frame : bool then [Frame] else [])
                   ++ [Resampler; CodecContext; FormatContext; Decoder])
        else
          modify (fun d => d <| dc_duration_us := if 0 <? media_duration_us (dc_ext d) then media_duration_us (dc_ext d) else -1 |>
                             <| dc_seek_target_us := INT64_MIN |>) ;;
          duration ← gets dc_duration_us; mret (Some duration).

(** The duration of the opened file. *)
Definition vw_source_decoder_open (url : list Z) : D (option Z) :=
  match (if zlen url =? 0 then None else vw_source_decoder_normalize_posix_path url 4096) with
  | None => mret None
  | Some clean_path =>
      ok ← av (fun x => avformat_open_input x clean_path);
      if negb ok then mret None
      else
        av_note (Acquired FormatContext) ;;
        ok ← av avformat_find_stream_info;
        if negb ok then fail_open [FormatContext]
        else
          audio_idx ← av av_find_best_stream;
          if audio_idx <? 0 then fail_open [FormatContext]
          else
            codec ← av avcodec_find_decoder;
            if negb codec then fail_open [FormatContext]
            else
              ctx ← av avcodec_alloc_context3;
              if negb ctx then fail_open [FormatContext]
              else av_note (Acquired CodecContext) ;; open_codec audio_idx
  end.

Definition vw_source_decoder_seek (target_pts_us : Z) : D bool :=
  d ← gets id;
  let target_ts := rescale_to_stream (dc_ext d) target_pts_us + dc_stream_start_time d in
  replacement ← new_resampler;
  if negb (fst replacement) then when (snd replacement) (av_note (Released Resampler)) ;; mret false
  else
    ok ← av (fun x => av_seek_frame x target_ts);
    if negb ok then av_note (Released Resampler) ;; mret false
    else
      modify (fun d => d <| dc_ext := avcodec_flush_buffers (dc_ext d) |>) ;;
      av_note (Released Resampler) ;;
      modify (fun d => d <| dc_current_pts_us := target_pts_us |> <| dc_seek_target_us := target_pts_us |>
                         <| dc_demux_eof := false |> <| dc_flush_sent := false |> <| dc_eof_reached := false |>
                         <| dc_leftover := [] |>) ;;
      pending ← gets dc_pkt_pending;
      when pending unref_packet ;;
      av_note (Sought target_pts_us) ;; mret true.

Definition vw_source_decoder_get_duration_us : D Z := gets dc_duration_us.

(** Freeing the packet drops what it holds. *)
Definition vw_source_decoder_close : D unit :=
  pending ← gets dc_pkt_pending;
  when pending unref_packet ;; release_all [Packet; Frame; Resampler; CodecContext; FormatContext; Decoder].

(** The calls on an open decoder, in any order; reads that return. *)
Inductive decoder_call : decoder X -> decoder X -> Prop :=
  | call_read fuel max_samples d :
      0 <= max_samples -> fst (vw_source_decoder_read_s16le fuel max_samples d) <> None ->
      decoder_call d (snd (vw_source_decoder_read_s16le fuel max_samples d))
  | call_seek target_pts_us d : decoder_call d (snd (vw_source_decoder_seek target_pts_us d)).
End decoder.
