(* ===== verification/SourceDecoderHandles.v ===== *)
(** * What a decoder holds

    A [SourceDecoder] frees what it allocates, when opening fails and when it is closed,
    and the packets it reads. *)

From stdpp Require Import relations.
From S2P Require Import Prelude.
From S2P Require Import State.
From S2P Require Import WorkerSession.
From S2P Require Import SourceDecoder.
#[local] Open Scope Z_scope.

(** The handles a log leaves; freeing what is not held has no result. *)
Definition handles_after (hs : list av_handle) (e : av_event) : option (list av_handle) :=
  match e with
  | Acquired h => Some (h :: hs)
  | Released h => take_out h hs
  | _ => Some hs
  end.
Definition handles (log : list av_event) : option (list av_handle) :=
  foldl (fun hs e => hs ≫= fun hs => handles_after hs e) (Some []) log.
Lemma handles_snoc log e : handles (log ++ [e]) = handles log ≫= fun hs => handles_after hs e.
Proof. unfold handles. by rewrite foldl_app. Qed.
#[local] Arguments handles : simpl never.

Section handles.
Context {X : Type} `{!AvEnv X}.
#[local] Abbreviation D := (M (decoder X)).

Definition owns_handles (hs : list av_handle) (d : decoder X) : Prop := exists l, handles (dc_log d) = Some l /\ l ≡ₚ hs.
(** What an open decoder holds. *)
Definition opened_handles : list av_handle := [Packet; Frame; Resampler; CodecContext; FormatContext; Decoder].
Definition in_use (d : decoder X) : list av_handle := (if dc_pkt_pending d then [PacketData] else []) ++ opened_handles.
Definition ready (d : decoder X) : Prop := owns_handles (in_use d) d.

Lemma owns_handles_perm hs hs' d : hs ≡ₚ hs' -> owns_handles hs d -> owns_handles hs' d.
Proof. intros Hp (l & Hl & Hp'). exists l. split; [done|]. by rewrite Hp', Hp. Qed.
Lemma acquire_owns h hs : triple (owns_handles hs) (av_note (X := X) (Acquired h)) (fun _ => owns_handles (h :: hs)).
Proof. intros d (l & Hl & Hp). exists (h :: l). cbn. rewrite handles_snoc, Hl. split; [done|]. by constructor. Qed.
Lemma release_owns h hs : triple (owns_handles (h :: hs)) (av_note (X := X) (Released h)) (fun _ => owns_handles hs).
Proof.
  intros d (l & Hl & Hp). destruct (take_out_in h l) as (l' & He & Hp'); [rewrite Hp; left|].
  exists l'. cbn. rewrite handles_snoc, Hl. split; [done|]. rewrite Hp in Hp'. by apply (Permutation_cons_inv (a := h)).
Qed.
Lemma release_all_owns hs hs' : triple (owns_handles (hs ++ hs')) (release_all (X := X) hs) (fun _ => owns_handles hs').
Proof.
  unfold release_all. induction hs as [|h hs IH]; [by intros d|]. cbn [for_each app].
  eapply triple_bind; [apply release_owns|]. intros ?. exact IH.
Qed.

(** Calls that hold and free nothing. *)
Definition same_use (d d' : decoder X) : Prop :=
  handles (dc_log d') = handles (dc_log d) /\ dc_pkt_pending d' = dc_pkt_pending d.
#[local] Instance same_use_preorder : PreOrder same_use.
Proof. split; [done|]. intros d1 d2 d3 [A B] [C D]. unfold same_use. by rewrite C, D. Qed.
Lemma same_use_av {A} (f : X -> A * X) : keeps same_use (av f).
Proof. intros d. unfold av. by destruct (f (dc_ext d)). Qed.
Lemma same_use_note e : match e with Acquired _ | Released _ => False | _ => True end -> keeps same_use (av_note (X := X) e).
Proof. intros He d. split; [|done]. cbn. rewrite handles_snoc. destruct (handles (dc_log d)); by destruct e. Qed.
#[local] Hint Resolve same_use_av : keeps.
#[local] Hint Extern 1 (keeps same_use (av_note _)) => (by apply same_use_note) : keeps.
#[local] Hint Extern 2 (keeps same_use (modify _)) => (by intros ?) : keeps.
#[local] Hint Extern 2 (keeps same_use (on_read _)) => (by intros ?) : keeps.
#[local] Hint Extern 2 (keeps same_use total_samples) => (by intros ?) : keeps.

Lemma same_use_trim samples : keeps same_use (trim_to_target (X := X) samples).
Proof.
  unfold trim_to_target. keeps_steps. intros d. cbn. by case_goal.
Qed.
#[local] Hint Resolve same_use_trim : keeps.
Lemma same_use_copy samples max : keeps same_use (vw_source_decoder_copy_samples (X := X) samples max).
Proof. unfold vw_source_decoder_copy_samples. keeps_steps. Qed.
#[local] Hint Resolve same_use_copy : keeps.
Lemma same_use_take samples max : keeps same_use (take_converted (X := X) samples max).
Proof. unfold take_converted. keeps_steps. Qed.
#[local] Hint Resolve same_use_take : keeps.
Lemma same_use_frame frame max : keeps same_use (vw_source_decoder_process_frame (X := X) frame max).
Proof. unfold vw_source_decoder_process_frame. keeps_steps. Qed.
Lemma same_use_drain max : keeps same_use (vw_source_decoder_drain_swr (X := X) max).
Proof. unfold vw_source_decoder_drain_swr. keeps_steps. Qed.
#[local] Hint Resolve same_use_frame same_use_drain : keeps.
Lemma same_use_receive fuel max : keeps same_use (receive_frames (X := X) fuel max).
Proof. induction fuel as [|fuel IH]; cbn [receive_frames]; keeps_steps. Qed.
Lemma same_use_retry fuel max : keeps same_use (send_or_retry (X := X) fuel max).
Proof. pose proof (same_use_receive fuel max). unfold send_or_retry. keeps_steps. Qed.
Lemma same_use_flush max : keeps same_use (flush_decoder (X := X) max).
Proof. unfold flush_decoder, send_flush. keeps_steps. all: intros d; cbn; by case_goal. Qed.
Lemma same_use_leftover max : keeps same_use (take_leftover (X := X) max).
Proof. unfold take_leftover. keeps_steps. Qed.
Lemma same_use_deliver status : keeps same_use (deliver (X := X) status).
Proof. unfold deliver. keeps_steps. Qed.
#[local] Hint Resolve same_use_receive same_use_retry same_use_flush same_use_leftover same_use_deliver : keeps.

Lemma ready_same d d' : same_use d d' -> ready d -> ready d'.
Proof. intros [Hl Hp]. unfold ready, owns_handles, in_use. by rewrite Hl, Hp. Qed.
Lemma triple_ready {A} (m : D A) : keeps same_use m -> triple ready m (fun _ => ready).
Proof. intros Hm d. apply ready_same, Hm. Qed.

(** With a packet held. *)
Definition with_packet (d : decoder X) : Prop := ready d /\ dc_pkt_pending d = true.
Lemma triple_packet {A} (m : D A) : keeps same_use m -> triple with_packet m (fun _ => with_packet).
Proof. intros Hm d [Hr Hp]. split; [by eapply ready_same, Hr|]. by destruct (Hm d) as [_ ->]. Qed.
Lemma unref_ready : triple with_packet (unref_packet (X := X)) (fun _ => ready).
Proof.
  intros d [Hr Hp]. unfold unref_packet. rewrite bind_run. unfold ready, in_use in Hr. rewrite Hp in Hr.
  exact (release_owns PacketData opened_handles d Hr).
Qed.
Lemma triple_with_ready {A} (m : D A) Q : triple ready m Q -> triple with_packet m Q.
Proof. intros Hm d [Hr _]. by apply Hm. Qed.

Lemma next_packet_ready :
  triple ready (next_packet (X := X)) (fun v d => match v with Some _ => ready d | None => with_packet d end).
Proof.
  unfold next_packet. intros d Hr. rewrite bind_run. cbn [gets fst snd].
  destruct (dc_pkt_pending d) eqn:Hp; [by split|]. rewrite bind_run.
  assert (same_use d (snd (av av_read_frame d))) as Hs by apply same_use_av. set (d1 := snd _) in *.
  assert (ready d1) as Hr1 by by eapply ready_same. assert (dc_pkt_pending d1 = false) as Hp1 by by destruct Hs as [_ ->].
  clearbody d1. destruct (fst (av av_read_frame d)) as [idx| | |]; try done. rewrite !bind_run. split; [|done].
  unfold ready, in_use in Hr1. rewrite Hp1 in Hr1. exact (acquire_owns PacketData opened_handles d1 Hr1).
Qed.
Lemma send_packet_ready fuel max : triple with_packet (send_packet (X := X) fuel max) (fun _ => ready).
Proof.
  unfold send_packet. do 3 (eapply triple_bind; [apply triple_packet; keeps_steps|]; cbv beta; intros ?).
  match goal with |- triple _ (match ?r with Some _ => _ | None => _ end) _ => destruct r as [[[]|]|] end.
  - eapply triple_bind; [apply triple_packet; auto with keeps|]. cbv beta. intros [[]|]; try (by intros d []).
    eapply triple_bind; [apply unref_ready|]. intros ?. apply triple_ready. keeps_steps.
  - eapply triple_bind; [apply unref_ready|]. intros ?. apply triple_ready. keeps_steps.
  - do 4 (eapply triple_bind; [apply triple_packet; keeps_steps|]; cbv beta; intros ?).
    apply triple_if; intros _; [by intros d []|]. intros d [Hr Hp]. rewrite bind_run. cbn.
    unfold ready, in_use in *. cbn. by rewrite Hp in Hr.
  - eapply triple_bind; [apply unref_ready|]. intros ?. apply triple_ready. keeps_steps.
  - by intros d [].
  - by intros d [].
Qed.
Lemma demux_ready fuel max : triple ready (demux_step (X := X) fuel max) (fun _ => ready).
Proof.
  unfold demux_step. eapply triple_bind; [apply next_packet_ready|]. cbv beta. intros [v|]; [by intros d|].
  eapply triple_bind; [apply triple_packet; keeps_steps|]. cbv beta. intros d0. apply triple_if; intros _; [apply send_packet_ready|].
  eapply triple_bind; [apply unref_ready|]. intros ?. apply triple_ready. keeps_steps.
Qed.
Lemma read_loop_ready fuel max : triple ready (read_loop (X := X) fuel max) (fun _ => ready).
Proof.
  induction fuel as [|fuel IH]; [by intros d|]. cbn [read_loop].
  eapply triple_bind; [apply triple_ready; keeps_steps|]. cbv beta. intros d0. apply triple_if; intros _; [|by intros d].
  apply (triple_bind _ _ _ (fun _ => ready)); [apply triple_if; intros _; [apply triple_ready; keeps_steps|apply demux_ready]|].
  intros [[]|]; [exact IH|by intros d..].
Qed.
Lemma read_ready fuel max : triple ready (vw_source_decoder_read_s16le (X := X) fuel max) (fun _ => ready).
Proof.
  unfold vw_source_decoder_read_s16le. apply triple_if; intros _; [by intros d|].
  eapply triple_bind; [apply triple_ready; keeps_steps|]. cbv beta. intros eof. apply triple_if; intros _; [by intros d|].
  do 2 (eapply triple_bind; [apply triple_ready; auto with keeps|]; cbv beta; intros ?).
  apply triple_if; intros _; [apply triple_ready; auto with keeps|].
  eapply triple_bind; [apply read_loop_ready|]. cbv beta. intros [[]|]; apply triple_ready; keeps_steps.
Qed.

(** ** Opening, seeking, closing *)

Definition holding (hs : list av_handle) (pending : bool) (d : decoder X) : Prop :=
  owns_handles hs d /\ dc_pkt_pending d = pending.
Lemma holding_ready d : ready d <-> holding (in_use d) (dc_pkt_pending d) d.
Proof. unfold holding, ready. tauto. Qed.
Lemma triple_holding {A} hs p (m : D A) : keeps same_use m -> triple (holding hs p) m (fun _ => holding hs p).
Proof. intros Hm d [Ho Hp]. destruct (Hm d) as [Hl Hp']. unfold holding, owns_handles in *. by rewrite Hl, Hp'. Qed.
Lemma acquire_holding h hs p : triple (holding hs p) (av_note (X := X) (Acquired h)) (fun _ => holding (h :: hs) p).
Proof. intros d [Ho Hp]. split; [by apply acquire_owns|done]. Qed.
Lemma release_holding h hs p : triple (holding (h :: hs) p) (av_note (X := X) (Released h)) (fun _ => holding hs p).
Proof. intros d [Ho Hp]. split; [by apply release_owns|done]. Qed.
Lemma alloc_holding h hs p :
  triple (holding hs p) (alloc_handle (X := X) h) (fun ok => holding ((if ok : bool then [h] else []) ++ hs) p).
Proof.
  unfold alloc_handle. eapply triple_bind; [apply triple_holding; auto with keeps|]. cbv beta. intros [].
  - eapply triple_bind; [apply acquire_holding|]. by intros ? d.
  - by intros d.
Qed.
Lemma new_resampler_holding hs p :
  triple (holding hs p) (new_resampler (X := X))
    (fun r d => holding ((if snd r then [Resampler] else []) ++ hs) p d /\ (fst r = true -> snd r = true)).
Proof.
  unfold new_resampler. eapply triple_bind; [apply triple_holding; auto with keeps|]. cbv beta. intros [ok have]. cbn [fst snd].
  apply (triple_bind _ _ _ (fun _ => holding ((if have then [Resampler] else []) ++ hs) p)).
  { destruct have; [apply acquire_holding|by intros d]. }
  intros ?. apply (triple_bind _ _ _ (fun r d => holding ((if have then [Resampler] else []) ++ hs) p d /\ (r = true -> have = true))).
  - intros d Hd. split; [|by destruct ok, have].
    revert d Hd. apply (triple_holding ((if have then [Resampler] else []) ++ hs) p (if ok && have then av swr_init else mret false)).
    keeps_steps.
  - by intros r d.
Qed.

Lemma seek_holding target p :
  triple (holding ((if p : bool then [PacketData] else []) ++ opened_handles) p) (vw_source_decoder_seek (X := X) target) (fun _ => ready).
Proof.
  set (hs := (if p then _ else _) ++ _).
  assert (triple (holding hs p) (mret (M := M (decoder X)) false) (fun _ => ready)) as Hend.
  { intros d Hd. apply holding_ready. unfold in_use. cbn. destruct Hd as [Ho Hp]. by rewrite Hp. }
  unfold vw_source_decoder_seek. eapply triple_bind; [apply triple_holding; keeps_steps|]. cbv beta. intros d0. cbv zeta.
  eapply triple_bind; [apply new_resampler_holding|]. cbv beta. intros [ready have]. cbn [fst snd]. destruct ready; cbn [negb].
  - destruct have; [|intros d [_ Hn]; by specialize (Hn eq_refl)].
    apply (triple_bind _ _ _ (fun _ => holding (Resampler :: hs) p)).
    { intros d [Hd _]. revert d Hd. apply triple_holding. auto with keeps. }
    intros []; cbn [negb]; [|eapply triple_bind; [apply release_holding|]; intros ?; exact Hend].
    eapply triple_bind; [apply triple_holding; auto with keeps|]. intros ?.
    eapply triple_bind; [apply release_holding|]. intros ?.
    eapply triple_bind; [apply triple_holding; auto with keeps|]. intros ?.
    intros d [Hd Hp]. rewrite bind_run. cbn [gets fst snd]. rewrite Hp. rewrite bind_run.
    assert (ready (snd (when p unref_packet d))) as Hr.
    { assert (ready d) as Hrd by (apply holding_ready; unfold in_use; rewrite Hp; by split).
      destruct p; [by apply unref_ready|done]. }
    set (d2 := snd _) in *. clearbody d2. revert d2 Hr. apply triple_ready. keeps_steps.
  - apply (triple_bind _ _ _ (fun _ => holding hs p)); [|intros ?; exact Hend].
    destruct have; [|by intros d [Hd _]]. intros d [Hd _]. revert d Hd. apply release_holding.
Qed.
Lemma seek_ready target : triple ready (vw_source_decoder_seek (X := X) target) (fun _ => ready).
Proof. intros d Hr. apply (seek_holding target (dc_pkt_pending d)). by split. Qed.

Lemma in_use_open d : dc_pkt_pending d = false -> owns_handles opened_handles d -> ready d.
Proof. intros Hp Hd. unfold ready, in_use. by rewrite Hp. Qed.
Definition opened (r : option Z) (d : decoder X) : Prop :=
  match r with Some _ => ready d | None => owns_handles [] d end.
Lemma fail_open_opened hs p : triple (holding hs p) (fail_open (X := X) hs) opened.
Proof.
  unfold fail_open. intros d [Ho _]. rewrite bind_run. cbn. rewrite <- (app_nil_r hs) in Ho. by apply (release_all_owns hs []).
Qed.
Lemma triple_fewer {A} hs hs' p (m : D A) Q : hs ≡ₚ hs' -> triple (holding hs' p) m Q -> triple (holding hs p) m Q.
Proof. intros Hp Hm d [Ho Hd]. apply Hm. split; [by apply (owns_handles_perm hs)|done]. Qed.
Lemma open_codec_opened idx : triple (holding [CodecContext; FormatContext] false) (open_codec (X := X) idx) opened.
Proof.
  unfold open_codec. do 2 (eapply triple_bind; [apply triple_holding; keeps_steps|]; cbv beta; intros ?).
  apply triple_if; intros _; [apply fail_open_opened|].
  eapply triple_bind; [apply new_resampler_holding|]. cbv beta. intros [ready have]. cbn [fst snd].
  destruct ready; cbn [negb]; [|intros d [Hd _]; by apply (fail_open_opened _ false)].
  destruct have; [|intros d [_ Hn]; by specialize (Hn eq_refl)].
  apply (triple_bind _ _ _ (fun ok => holding ((if ok : bool then [Decoder] else []) ++ [Resampler; CodecContext; FormatContext]) false)).
  { intros d [Hd _]. revert d Hd. apply alloc_holding. }
  intros []; cbn [negb app]; [|apply fail_open_opened].
  eapply triple_bind; [apply triple_holding; auto with keeps|]. intros ?.
  eapply triple_bind; [apply alloc_holding|]. cbv beta. intros pkt. eapply triple_bind; [apply alloc_holding|]. cbv beta. intros frame.
  destruct pkt, frame; cbn [andb negb app].
  2-4: eapply triple_fewer; [|apply fail_open_opened]; solve_Permutation.
  apply (triple_fewer _ opened_handles); [unfold opened_handles; solve_Permutation|].
  do 2 (eapply triple_bind; [apply triple_holding; keeps_steps|]; cbv beta; intros ?).
  intros d [Ho Hp]. by apply in_use_open.
Qed.
Lemma decoder_open_opened url : triple (holding [] false) (vw_source_decoder_open (X := X) url) opened.
Proof.
  assert (triple (holding [] false) (mret (M := M (decoder X)) None) opened) as Hnone by (by intros d [Ho _]).
  unfold vw_source_decoder_open. destruct (if zlen url =? 0 then _ else _) as [path|]; [|exact Hnone].
  eapply triple_bind; [apply triple_holding; auto with keeps|]. cbv beta. intros ?. apply triple_if; intros _; [exact Hnone|].
  eapply triple_bind; [apply acquire_holding|]. intros ?.
  do 4 (eapply triple_bind; [apply triple_holding; auto with keeps|]; cbv beta; intros ?;
        apply triple_if; intros _; [apply fail_open_opened|]).
  eapply triple_bind; [apply acquire_holding|]. intros ?. apply open_codec_opened.
Qed.
Lemma close_ready : triple ready (vw_source_decoder_close (X := X)) (fun _ => owns_handles []).
Proof.
  unfold vw_source_decoder_close. intros d Hr. rewrite bind_run. cbn [gets fst snd]. rewrite bind_run.
  assert (owns_handles opened_handles (snd (when (dc_pkt_pending d) unref_packet d))) as Ho.
  { unfold ready, in_use in Hr. destruct (dc_pkt_pending d); [|done]. unfold when, unref_packet. rewrite bind_run.
    exact (release_owns PacketData opened_handles d Hr). }
  set (d1 := snd _) in *. clearbody d1. by apply (release_all_owns opened_handles []).
Qed.

(** Whatever FFmpeg answers, a decoder that cannot be opened holds nothing, and one
    that is closed, after any reads and seeks, has freed each context, packet and frame
    once. *)
Theorem decoder_releases (url : list Z) (x : X) :
  let '(duration, d) := vw_source_decoder_open url (blank_decoder x) in
  match duration with
  | None => handles (dc_log d) = Some []
  | Some _ => forall d', rtc decoder_call d d' -> handles (dc_log (snd (vw_source_decoder_close d'))) = Some []
  end.
Proof.
  assert (forall d, owns_handles [] d -> handles (dc_log d) = Some []) as Hnil
    by (intros d (l & Hl & Hp); by apply Permutation_nil_r in Hp as ->).
  pose proof (decoder_open_opened url (blank_decoder x)) as Ho.
  destruct (vw_source_decoder_open url (blank_decoder x)) as [[duration|] d]; cbn [fst snd opened] in Ho.
  - assert (ready d) as Hr by (apply Ho; split; [by exists []|done]). clear Ho.
    intros d' Hcalls. apply Hnil, close_ready.
    induction Hcalls as [|d1 d2 d3 Hcall _ IH]; [done|]. apply IH. destruct Hcall; [by apply read_ready|by apply seek_ready].
  - apply Hnil, Ho. split; [by exists []|done].
Qed.
End handles.
