(* ===== verification/SourceDecoderProperties.v ===== *)
(** * The decoder's timeline

    The samples a [SourceDecoder] hands over are those the resampler gave it, in order and
    none twice, each at its time and none before the target of a seek. *)

From stdpp Require Import relations.
From S2P Require Import Prelude.
From S2P Require Import CString.
From S2P Require Import State.
From S2P Require Import WorkerSession.
From S2P Require Import SourceDecoder.
#[local] Open Scope Z_scope.

(** ** The queue of samples a log stands for *)

(** Samples at 16 kHz, each with its time in half microseconds. *)
Fixpoint timed (time2 : Z) (samples : list Z) : list (Z * Z) :=
  match samples with
  | [] => []
  | x :: samples => (time2, x) :: timed (time2 + 125) samples
  end.
(** The samples heard and not yet handed over; the target of a seek not yet reached. *)
Record owed := mk_owed { ow_samples : list (Z * Z); ow_target : option Z }.

(** Samples are left out only before the target, and then all of them or up to the first
    that is not before it. *)
Definition trim_ok (target : option Z) (start trimmed : Z) (kept : list Z) : bool :=
  match target with
  | Some t =>
      if start <? t
      then bool_decide (kept = []) || ((2 * t <=? 2 * start + 125 * trimmed) && (2 * start + 125 * trimmed <? 2 * t + 125))
      else trimmed =? 0
  | None => trimmed =? 0
  end.
Definition reached (target : option Z) (start trimmed : Z) : option Z :=
  match target with
  | Some t => if (start <? t) && (2 * t <=? 2 * start + 125 * trimmed) then None else Some t
  | None => None
  end.
(** The time given for a sample: not after it, and about two milliseconds before at most. *)
Definition on_time (pts_us : Z) (samples : list (Z * Z)) : bool :=
  match samples with
  | (t, _) :: _ => (2 * pts_us <=? t) && (t <=? 2 * pts_us + 4098)
  | [] => true
  end.

Definition follow_event (o : owed) (e : av_event) : option owed :=
  match e with
  | Heard start trimmed kept =>
      if trim_ok (ow_target o) start trimmed kept
      then Some (mk_owed (ow_samples o ++ timed (2 * start + 125 * trimmed) kept) (reached (ow_target o) start trimmed))
      else None
  | Sought t => Some (mk_owed [] (if t =? INT64_MIN then None else Some t))
  | Delivered pts out =>
      let n := zlen out in
      if bool_decide (map snd (ztake n (ow_samples o)) = out) && on_time pts (ow_samples o)
      then Some (mk_owed (zdrop n (ow_samples o)) (ow_target o)) else None
  | ReadFailed => Some (mk_owed [] (ow_target o))
  | Acquired _ | Released _ => Some o
  end.
Definition follow (log : list av_event) : option owed :=
  foldl (fun o e => o ≫= fun o => follow_event o e) (Some (mk_owed [] None)) log.

Lemma follow_snoc log e : follow (log ++ [e]) = follow log ≫= fun o => follow_event o e.
Proof. unfold follow. by rewrite foldl_app. Qed.
#[local] Arguments follow : simpl never.
Lemma timed_app t l k : timed t (l ++ k) = timed t l ++ timed (t + 125 * zlen l) k.
Proof.
  revert t. induction l as [|x l IH]; intros t; [unfold zlen; cbn [length app timed]; f_equal; lia|].
  cbn [timed app]. rewrite IH, zlen_cons. do 3 f_equal. lia.
Qed.
Lemma timed_samples t l : map snd (timed t l) = l.
Proof. revert t. induction l as [|x l IH]; intros t; [done|]. cbn. by rewrite IH. Qed.
Lemma timed_length t l : zlen (timed t l) = zlen l.
Proof. unfold zlen. by rewrite <- (timed_samples t l) at 2; rewrite length_map. Qed.

Section timeline.
Context {X : Type} `{!AvEnv X}.
#[local] Abbreviation D := (M (decoder X)).

Definition target_of (d : decoder X) : option Z := if dc_seek_target_us d =? INT64_MIN then None else Some (dc_seek_target_us d).

(** The leftover is at the decoder's time, which has lost what the rounding of each read
    costs. *)
Definition leftover_at (d : decoder X) (t : Z) : Prop :=
  dc_leftover d = [] \/ 2 * dc_current_pts_us d <= t <= 2 * dc_current_pts_us d + 2 + leftover_capacity - zlen (dc_leftover d).

(** Between calls. *)
Definition settled (d : decoder X) : Prop :=
  exists t, follow (dc_log d) = Some (mk_owed (timed t (dc_leftover d)) (target_of d))
    /\ leftover_at d t /\ zlen (dc_leftover d) <= leftover_capacity.

(** In a call: [out] and the leftover are what is owed. *)
Definition reading (max : Z) (d : decoder X) : Prop :=
  let out := rl_out (dc_read d) in
  exists samples t, follow (dc_log d) = Some (mk_owed (samples ++ timed t (dc_leftover d)) (target_of d))
    /\ map snd samples = out /\ leftover_at d t /\ zlen (dc_leftover d) <= leftover_capacity
    /\ zlen out <= max /\ (dc_leftover d = [] \/ zlen out = max)
    /\ (out <> [] -> exists p, rl_pts (dc_read d) = Some p /\ on_time p samples).
(** ... with room for more. *)
Definition hungry (max : Z) (d : decoder X) : Prop :=
  reading max d /\ zlen (rl_out (dc_read d)) < max.

Lemma skip_samples_spec delta : 0 < delta ->
  0 < skip_samples delta /\ 2 * delta <= 125 * skip_samples delta < 2 * delta + 125.
Proof.
  intros Hd. unfold skip_samples. pose proof (Z.div_mod delta 125 ltac:(lia)). pose proof (Z.mod_pos_bound delta 125 ltac:(lia)).
  pose proof (Z.div_mod (delta mod 125 * 2 + 124) 125 ltac:(lia)).
  pose proof (Z.mod_pos_bound (delta mod 125 * 2 + 124) 125 ltac:(lia)).
  set (q := delta / 125) in *. set (r := delta mod 125) in *. lia.
Qed.
Lemma half_bounds n : 2 * (n * 125 / 2) <= 125 * n <= 2 * (n * 125 / 2) + 1.
Proof. pose proof (Z.div_mod (n * 125) 2 ltac:(lia)). pose proof (Z.mod_pos_bound (n * 125) 2 ltac:(lia)). lia. Qed.
Lemma copy_rate n : n * 1000000 / 16000 = n * 125 / 2.
Proof. replace (n * 1000000) with (n * 125 * 8000) by lia. change 16000 with (2 * 8000). by rewrite Z.div_mul_cancel_r by lia. Qed.

(** What the trimming leaves, against the log. *)
Lemma trim_spec samples d :
  let kept := fst (trim_to_target samples d) in let d' := snd (trim_to_target samples d) in
  exists start k, dc_log d' = dc_log d ++ [Heard start k kept] /\ 0 <= k <= zlen samples /\ kept = zdrop k samples
    /\ dc_current_pts_us d' = start + k * 125 / 2 /\ trim_ok (target_of d) start k kept
    /\ target_of d' = reached (target_of d) start k /\ dc_leftover d' = dc_leftover d /\ dc_read d' = dc_read d.
Proof.
  unfold trim_to_target. rewrite bind_run. cbn [gets id fst snd]. unfold target_of.
  set (start := dc_current_pts_us d). set (target := dc_seek_target_us d).
  destruct (negb (target =? INT64_MIN) && (start <? target)) eqn:Earmed.
  - bool_to_prop. destruct (skip_samples_spec (target - start) ltac:(lia)) as [Hpos Hskip].
    set (skip := skip_samples _) in *. set (k := if skip <? zlen samples then _ else _).
    assert (0 <= k <= zlen samples /\ (k = skip \/ k = zlen samples /\ k < skip)) as [Hk Hcase]
      by (pose proof (zlen_nonneg samples); unfold k; case_goal; lia).
    pose proof (half_bounds k) as Hhalf. replace (target =? INT64_MIN) with false by lia.
    rewrite !bind_run. cbn. fold target. exists start, k. rewrite !(proj2 (Z.ltb_lt start target)) by lia. cbn [andb].
    destruct Hcase as [->|[Hall Hless]].
    + replace (target <=? start + skip * 125 / 2) with true by lia.
      replace (2 * target <=? 2 * start + 125 * skip) with true by lia. cbn.
      split_and!; try done; try lia. apply Is_true_true, orb_true_iff. right. lia.
    + replace (target <=? start + k * 125 / 2) with false by lia.
      replace (2 * target <=? 2 * start + 125 * k) with false by lia. cbn. fold target. replace (target =? INT64_MIN) with false by lia.
      split_and!; try done; try lia. apply Is_true_true, orb_true_iff. left. apply bool_decide_eq_true.
      rewrite Hall. apply zlen_zero. rewrite zlen_zdrop; lia.
  - rewrite bind_run. cbn. exists start, 0. unfold target_of. cbn. fold target.
    assert (trim_ok (if target =? INT64_MIN then None else Some target) start 0 samples
      /\ reached (if target =? INT64_MIN then None else Some target) start 0 = if target =? INT64_MIN then None else Some target)
      as [Ht Hr].
    { destruct (target =? INT64_MIN); [done|]. cbn in *. by rewrite Earmed. }
    pose proof (zlen_nonneg samples). split_and!; first [done|lia|exact (eq_sym Hr)|exact Ht|idtac].
    all: rewrite ?Z.add_0_r; done.
Qed.

Lemma copy_spec samples max d :
  dc_leftover d = [] -> zlen (rl_out (dc_read d)) <= max -> zlen samples <= leftover_capacity ->
  let d' := snd (vw_source_decoder_copy_samples samples max d) in
  exists start k kept c, dc_log d' = dc_log d ++ [Heard start k kept] /\ 0 <= k
    /\ trim_ok (target_of d) start k kept /\ target_of d' = reached (target_of d) start k
    /\ 0 <= c <= zlen kept /\ zlen kept <= leftover_capacity
    /\ (c = zlen kept \/ zlen (rl_out (dc_read d)) + c = max) /\ zlen (rl_out (dc_read d)) + c <= max
    /\ dc_leftover d' = zdrop c kept /\ rl_out (dc_read d') = rl_out (dc_read d) ++ ztake c kept
    /\ rl_pts (dc_read d') = rl_pts (dc_read d) /\ dc_current_pts_us d' = start + k * 125 / 2 + c * 125 / 2.
Proof.
  intros Hl Hm Hs. unfold vw_source_decoder_copy_samples. rewrite bind_run.
  destruct (trim_spec samples d) as (start & k & Hlog & Hk & Hkept & Hcur & Hok & Ht & Hlo & Hrd).
  set (kept := fst _) in *. set (d1 := snd _) in *. clearbody d1. rewrite bind_run. cbn [total_samples gets fst snd].
  rewrite Hrd. set (out := rl_out (dc_read d)) in *. set (c := if zlen kept <? max - zlen out then _ else _).
  assert (zlen kept <= leftover_capacity) as Hcap by (rewrite Hkept, zlen_zdrop; lia). pose proof (zlen_nonneg kept).
  assert (0 <= c <= zlen kept /\ (c = zlen kept \/ zlen out + c = max) /\ zlen out + c <= max) as (Hc & Hcase & Hfit)
    by (unfold c; case_goal; lia).
  clearbody c. exists start, k, kept, c. rewrite bind_run. cbn zeta.
  set (d2 := snd (when (0 <? c) _ d1)).
  assert (dc_log d2 = dc_log d1 /\ dc_leftover d2 = [] /\ target_of d2 = target_of d1
    /\ rl_out (dc_read d2) = out ++ ztake c kept /\ rl_pts (dc_read d2) = rl_pts (dc_read d)
    /\ dc_current_pts_us d2 = start + k * 125 / 2 + c * 125 / 2) as (E1 & E2 & E3 & E4 & E5 & E6).
  { unfold d2, when. destruct (0 <? c) eqn:Ec.
    - rewrite bind_run. cbn. rewrite Hrd, Hcur, Hlo, copy_rate. by split_and!.
    - assert (c = 0) as -> by lia. cbn. rewrite Hrd, Hcur, Hlo. unfold ztake. rewrite app_nil_r. split_and!; try done. change (0 * 125 / 2) with 0. lia. }
  clearbody d2. unfold when. destruct (0 <? zlen kept - c) eqn:Er; cbn.
  - replace (leftover_capacity <? zlen kept - c) with false by lia. rewrite E1, E4, E5, E6, <- Ht, <- E3.
    split_and!; try done; try lia. apply ztake_all. rewrite zlen_zdrop; lia.
  - rewrite E1, E2, E4, E5, E6, E3, Ht. split_and!; try done; try lia. symmetry. apply zlen_zero. rewrite zlen_zdrop; lia.
Qed.

Lemma hungry_leftover max d : hungry max d -> dc_leftover d = [].
Proof. intros [(s & t & _ & _ & _ & _ & _ & [|] & _) Hr]; [done|lia]. Qed.
Lemma timed_split t c l : 0 <= c <= zlen l -> timed t l = timed t (ztake c l) ++ timed (t + 125 * c) (zdrop c l).
Proof. intros Hc. rewrite <- (ztake_zdrop c l) at 1. by rewrite timed_app, zlen_ztake by lia. Qed.
Lemma on_time_app p l k : l <> [] -> on_time p (l ++ k) = on_time p l.
Proof. by destruct l as [|[]]. Qed.

(** Samples converted while there is room. *)
Lemma take_converted_reading samples max :
  zlen samples <= leftover_capacity ->
  triple (hungry max) (take_converted samples max) (fun _ => reading max).
Proof.
  intros Hs d Hd. pose proof (hungry_leftover _ _ Hd) as Hl. destruct Hd as [(owed & t & Hf & Hsam & _ & _ & Hm & _ & Hp) Hroom].
  unfold take_converted. rewrite bind_run. cbn [total_samples gets fst snd]. rewrite bind_run.
  destruct (copy_spec samples max d Hl ltac:(lia) Hs) as
    (start & k & kept & c & Hlog & Hk & Hok & Ht & Hc & Hcap & Hcase & Hfit & Hlo & Hout & Hpts & Hcur).
  set (d1 := snd (vw_source_decoder_copy_samples samples max d)) in *. clearbody d1.
  set (out := rl_out (dc_read d)) in *. rewrite bind_run. cbn [total_samples gets fst snd].
  pose proof (half_bounds k) as Hbk. pose proof (half_bounds c) as Hbc.
  assert (zlen (rl_out (dc_read d1)) = zlen out + c) as Hlen by (rewrite Hout, zlen_app, zlen_ztake by lia; done).
  assert (follow (dc_log d1) = Some (mk_owed ((owed ++ timed (2 * start + 125 * k) (ztake c kept))
    ++ timed (2 * start + 125 * k + 125 * c) (dc_leftover d1)) (target_of d1))) as Hf1.
  { rewrite Hlog, follow_snoc, Hf, Hl, app_nil_r. cbn [mbind option_bind follow_event ow_target ow_samples].
    rewrite Ht, Hlo. destruct (trim_ok _ _ _ _); [|done]. by rewrite <- app_assoc, <- timed_split by lia. }
  assert (leftover_at d1 (2 * start + 125 * k + 125 * c)) as Hat.
  { right. rewrite Hcur, Hlo, zlen_zdrop by lia. lia. }
  assert (zlen (dc_leftover d1) <= leftover_capacity) as Hcap1 by (rewrite Hlo, zlen_zdrop; lia).
  assert (dc_leftover d1 = [] \/ zlen (rl_out (dc_read d1)) = max) as Hfull.
  { destruct Hcase as [->|Hfull]; [left|right; lia]. rewrite Hlo. apply zlen_zero. rewrite zlen_zdrop; lia. }
  assert (map snd (owed ++ timed (2 * start + 125 * k) (ztake c kept)) = rl_out (dc_read d1)) as Hmap
    by (by rewrite map_app, timed_samples, Hsam, Hout).
  assert (zlen out = zlen owed) as Hzo by (rewrite <- Hsam; unfold zlen; by rewrite length_map).
  exists (owed ++ timed (2 * start + 125 * k) (ztake c kept)), (2 * start + 125 * k + 125 * c).
  unfold when. destruct ((zlen out =? 0) && (0 <? zlen (rl_out (dc_read d1)))) eqn:Efirst.
  - rewrite bind_run. cbn. split_and!; try done; [lia|]. intros _. eexists. split; [done|].
    bool_to_prop. assert (owed = []) as -> by (apply zlen_zero; lia). cbn [app].
    destruct (ztake c kept) as [|x rest] eqn:Etake; [done|]. cbn [timed on_time]. rewrite Hlen, Hcur.
    replace (zlen out + c) with c by lia. apply Is_true_true, andb_true_iff. lia.
  - cbn. split_and!; try done; [lia|]. intros Hne. rewrite Hpts.
    destruct (decide (zlen out = 0)) as [E0|E0].
    { exfalso. apply Hne. apply zlen_zero. pose proof (zlen_nonneg (rl_out (dc_read d1))). lia. }
    destruct Hp as (p & Hp & Hon); [by intros E; rewrite E in E0|]. exists p. split; [done|].
    rewrite on_time_app; [done|]. intros ->. done.
Qed.

(** Calls that touch neither samples nor times. *)
Definition aside (d d' : decoder X) : Prop :=
  follow (dc_log d') = follow (dc_log d) /\ dc_leftover d' = dc_leftover d
  /\ dc_current_pts_us d' = dc_current_pts_us d /\ dc_seek_target_us d' = dc_seek_target_us d
  /\ rl_out (dc_read d') = rl_out (dc_read d) /\ rl_pts (dc_read d') = rl_pts (dc_read d).
#[local] Instance aside_preorder : PreOrder aside.
Proof.
  split; [done|]. intros d1 d2 d3 (A1 & A2 & A3 & A4 & A5 & A6) (B1 & B2 & B3 & B4 & B5 & B6). unfold aside.
  by rewrite B1, B2, B3, B4, B5, B6.
Qed.
Lemma aside_av {A} (f : X -> A * X) : keeps aside (av f).
Proof. intros d. unfold av. by destruct (f (dc_ext d)). Qed.
Lemma aside_note h e : e = Acquired h \/ e = Released h -> keeps aside (av_note (X := X) e).
Proof.
  intros He d. split; [|done]. cbn. rewrite follow_snoc. destruct (follow (dc_log d)); [|done]. by destruct He as [-> | ->].
Qed.
#[local] Hint Resolve aside_av : keeps.
#[local] Hint Extern 1 (keeps aside (av_note (Acquired _))) => (eapply aside_note; by left) : keeps.
#[local] Hint Extern 1 (keeps aside (av_note (Released _))) => (eapply aside_note; by right) : keeps.
#[local] Hint Extern 2 (keeps aside (modify _)) => (by intros ?) : keeps.
Lemma reading_aside max d d' : aside d d' -> reading max d -> reading max d'.
Proof.
  intros (A1 & A2 & A3 & A4 & A5 & A6) Hr. unfold reading, leftover_at, target_of in *. by rewrite A1, A2, A3, A4, A5, A6.
Qed.
Lemma hungry_aside max d d' : aside d d' -> hungry max d -> hungry max d'.
Proof. intros Ha [Hr Hm]. split; [by eapply reading_aside|]. by destruct Ha as (_ & _ & _ & _ & -> & _). Qed.
Lemma triple_hungry {A} max (m : D A) : keeps aside m -> triple (hungry max) m (fun _ => hungry max).
Proof. intros Hm d. apply hungry_aside, Hm. Qed.
Lemma triple_reading {A} max (m : D A) : keeps aside m -> triple (reading max) m (fun _ => reading max).
Proof. intros Hm d. apply reading_aside, Hm. Qed.

Lemma hungry_time max (f : decoder X -> Z) :
  triple (hungry max) (modify (fun d => d <| dc_current_pts_us := f d |>)) (fun _ => hungry max).
Proof.
  intros d Hd. pose proof (hungry_leftover _ _ Hd) as Hl. destruct Hd as [(s & t & Hf & Hsam & _ & Hrest) Hroom].
  split; [|done]. exists s, t. split; [done|]. split; [done|]. split; [by left|done].
Qed.
Lemma triple_skipped {A} (P : A -> Prop) : triple P skip (fun _ => P).
Proof. by intros d. Qed.

Definition ended_well (max : Z) (ok : bool) (d : decoder X) : Prop := reading max d /\ (ok = false -> dc_leftover d = []).
Lemma process_frame_reading frame max :
  triple (hungry max) (vw_source_decoder_process_frame (X := X) frame max) (ended_well max).
Proof.
  unfold vw_source_decoder_process_frame.
  eapply triple_bind with (Q1 := fun _ => hungry max).
  { destruct (frame_time frame); [|apply triple_skipped]. eapply triple_bind; [apply hungry_time|cbv beta; intros _; apply hungry_time]. }
  intros _. eapply triple_bind; [apply triple_hungry; auto with keeps|]. cbv beta. intros [samples|].
  - cbv zeta. eapply triple_bind with (Q1 := fun _ => reading max).
    + unfold when. apply triple_if; intros _; [|by intros d [Hd _]]. apply take_converted_reading. by apply zlen_ztake_le.
    + intros _ d Hd. by split.
  - intros d Hd. split; [apply Hd|]. intros _. by apply (hungry_leftover max).
Qed.

(** What the end of an iteration tells of the samples. *)
Definition verdict_ok (max : Z) (v : option verdict) (d : decoder X) : Prop :=
  reading max d /\
  match v with
  | Some (Return VW_SOURCE_DECODER_READ_ERROR) => dc_leftover d = []
  | Some (Return VW_SOURCE_DECODER_READ_AGAIN) => rl_out (dc_read d) = []
  | Some (Return VW_SOURCE_DECODER_READ_EOF) => False
  | Some (Return VW_SOURCE_DECODER_READ_OK) => rl_out (dc_read d) <> []
  | _ => True
  end.
Lemma verdict_error max d : hungry max d -> verdict_ok max (Some (Return VW_SOURCE_DECODER_READ_ERROR)) d.
Proof. intros Hd. split; [apply Hd|by apply (hungry_leftover max)]. Qed.

Lemma drain_reading max :
  triple (hungry max) (vw_source_decoder_drain_swr (X := X) max)
    (fun status d => reading max d /\ (status = VW_SOURCE_DECODER_READ_ERROR -> dc_leftover d = [])).
Proof.
  unfold vw_source_decoder_drain_swr. eapply triple_bind; [apply triple_hungry; auto with keeps|]. cbv beta.
  intros [samples|]; [|by intros d Hd; split; [apply Hd|intros _; by apply (hungry_leftover max)]].
  cbv zeta. apply triple_if; intros _; [by intros d [Hd _]; split|].
  eapply triple_bind; [apply take_converted_reading; by apply zlen_ztake_le|]. intros _ d Hd. by split.
Qed.
Lemma flush_reading max :
  triple (hungry max) (flush_decoder (X := X) max) (fun v => verdict_ok max (Some v)).
Proof.
  unfold flush_decoder. eapply triple_bind; [apply triple_hungry; unfold send_flush; keeps_steps|]. cbv beta. intros [].
  2: { intros d Hd. by apply verdict_error. }
  cbn [negb]. eapply triple_bind; [apply triple_hungry; auto with keeps|]. cbv beta. intros [[] frame]; cbn [fst snd].
  - eapply triple_bind; [apply process_frame_reading|]. intros [] d [Hd He]; split; try done. by apply He.
  - eapply triple_bind; [apply drain_reading|]. cbv beta. intros [].
    + by intros d [Hd _]; split.
    + by intros d [Hd _]; split.
    + intros d [Hd _]. split; [|done]. rewrite bind_run. cbn. by case_goal.
    + intros d [Hd He]. split; [done|by apply He].
  - eapply triple_bind; [apply triple_hungry; keeps_steps|]. cbv beta. intros [] d [Hd _]; by split.
  - intros d Hd. by apply verdict_error.
Qed.
Lemma room_hungry max d : reading max d ->
  (zlen (rl_out (dc_read d)) <? max) = true -> hungry max d.
Proof. intros Hd Hr. split; [done|lia]. Qed.
Lemma triple_pre {A} (P P' : decoder X -> Prop) (m : D A) Q : (forall d, P d -> P' d) -> triple P' m Q -> triple P m Q.
Proof. intros HP Hm d Hd. by apply Hm, HP. Qed.
(** A branch taken only when there is room. *)
Lemma triple_room {A} max (room : decoder X -> bool) (m1 m2 : decoder X -> D A) Q :
  (forall d, room d = true -> (zlen (rl_out (dc_read d)) <? max) = true) ->
  (forall d0, triple (hungry max) (m1 d0) Q) -> (forall d0, triple (reading max) (m2 d0) Q) ->
  triple (reading max) (d ← gets id; if room d then m1 d else m2 d) Q.
Proof.
  intros Hr H1 H2 d Hd. rewrite bind_run. cbn [gets id fst snd]. destruct (room d) eqn:E; [|by apply H2].
  apply H1. by apply room_hungry, Hr.
Qed.
Lemma receive_frames_reading fuel max :
  triple (reading max) (receive_frames (X := X) fuel max)
    (fun r d => reading max d /\ (r = Some false -> dc_leftover d = [])).
Proof.
  induction fuel as [|fuel IH]; [by intros d; split|]. cbn [receive_frames].
  apply triple_room; [by intros d [? _]%andb_prop| |by intros _ d; split]. intros _.
  eapply triple_bind; [apply triple_hungry; auto with keeps|]. cbv beta. intros [[] frame]; cbn [fst snd].
  - eapply triple_bind; [apply process_frame_reading|]. intros [].
    + intros d [Hd _]. by apply IH.
    + intros d [Hd He]. split; [done|]. intros _. by apply He.
  - by intros d [Hd _]; split.
  - by intros d [Hd _]; split.
  - intros d Hd. split; [apply Hd|]. intros _. by apply (hungry_leftover max).
Qed.

Lemma aside_unref : keeps aside (unref_packet (X := X)).
Proof. unfold unref_packet. keeps_steps. Qed.
Lemma aside_defer f : keeps aside (on_read (X := X) (fun r => r <| rl_defer := f r |>)).
Proof. by intros d. Qed.
#[local] Hint Resolve aside_unref aside_defer : keeps.
Lemma next_packet_reading max :
  triple (hungry max) (next_packet (X := X))
    (fun v d => match v with Some v => verdict_ok max (Some v) d | None => hungry max d end).
Proof.
  unfold next_packet. eapply triple_bind; [apply triple_hungry; keeps_steps|]. cbv beta. intros []; [by intros d|].
  eapply triple_bind; [apply triple_hungry; auto with keeps|]. cbv beta. intros [idx| | |].
  - by apply triple_hungry; keeps_steps.
  - intros d [Hd _]. rewrite bind_run. cbn. split; [|done]. by refine (reading_aside _ d _ _ Hd).
  - intros d [Hd _]. rewrite bind_run. cbn. split; [done|]. destruct (0 <? _) eqn:E; [by intros E0; rewrite E0 in E|].
    apply zlen_zero. pose proof (zlen_nonneg (rl_out (dc_read d))). lia.
  - intros d Hd. by apply verdict_error.
Qed.

(** An outcome that tells nothing of the samples but that they are in order. *)
Definition plain_verdict (v : option verdict) : Prop :=
  match v with Some (Return _) => False | _ => True end.
Lemma verdict_plain max v d : plain_verdict v -> reading max d -> verdict_ok max v d.
Proof. by destruct v as [[| |]|]. Qed.
Lemma triple_plain max {A} (m : D A) v : keeps aside m -> plain_verdict v -> triple (reading max) (m ;; mret v) (verdict_ok max).
Proof.
  intros Hm Hv d Hd. rewrite bind_run. cbn. apply verdict_plain; [done|]. by eapply reading_aside, Hd.
Qed.

Definition retried_ok (max : Z) (retried : option (option av_status)) (d : decoder X) : Prop :=
  reading max d /\ (retried = Some None \/ retried = Some (Some AvError) -> dc_leftover d = []).
Lemma send_or_retry_reading fuel max : triple (hungry max) (send_or_retry (X := X) fuel max) (retried_ok max).
Proof.
  unfold send_or_retry. eapply triple_bind; [apply triple_hungry; auto with keeps|]. cbv beta. intros first.
  assert (forall r, triple (hungry max) (mret r) (retried_ok max)) as Hret
    by (intros r d Hd; split; [apply Hd|intros _; by apply (hungry_leftover max)]).
  destruct first; try apply Hret.
  apply (triple_bind _ _ _ (fun r d => reading max d /\ (r = Some false -> dc_leftover d = []))).
  { intros d [Hd _]. by apply receive_frames_reading. }
  intros [[]|].
  - apply (triple_pre _ (reading max)); [by intros d []|]. apply triple_room.
    + by intros d [? _]%andb_prop.
    + intros _. eapply triple_bind; [apply triple_hungry; auto with keeps|]. cbv beta. intros again. apply Hret.
    + intros _ d Hd. split; [done|]. by intros [|].
  - intros d [Hd He]. split; [done|]. intros _. by apply He.
  - intros d [Hd _]. split; [done|]. by intros [|].
Qed.
Lemma send_packet_reading fuel max : triple (hungry max) (send_packet (X := X) fuel max) (verdict_ok max).
Proof.
  unfold send_packet. eapply triple_bind; [apply triple_hungry; unfold total_samples; keeps_steps|]. cbv beta. intros total0.
  eapply triple_bind; [apply triple_hungry; keeps_steps|]. cbv beta. intros leftover0.
  eapply triple_bind; [apply send_or_retry_reading|]. intros [[[]|]|].
  - apply (triple_pre _ (reading max)); [by intros d []|]. eapply triple_bind; [apply receive_frames_reading|]. cbv beta.
    intros [[]|].
    + apply (triple_pre _ (reading max)); [by intros d []|].
      eapply triple_bind; [apply triple_reading; auto with keeps|]. intros ?. by apply triple_plain; [auto with keeps|].
    + intros d [Hd He]. split; [done|by apply He].
    + intros d [Hd _]. by apply verdict_plain.
  - apply (triple_pre _ (reading max)); [by intros d []|].
    eapply triple_bind; [apply triple_reading; auto with keeps|]. intros ?. by apply triple_plain; [auto with keeps|].
  - apply (triple_pre _ (reading max)); [by intros d []|].
    do 4 (eapply triple_bind; [apply triple_reading; unfold total_samples; keeps_steps|]; cbv beta; intros ?).
    apply triple_if; intros _; [by intros d Hd; apply verdict_plain|]. by apply triple_plain; [auto with keeps|].
  - intros d [Hd He]. rewrite bind_run. pose proof (aside_unref d) as Ha. cbn. split; [by eapply reading_aside, Hd|].
    destruct Ha as (_ & -> & _). apply He. by right.
  - intros d [Hd He]. split; [done|]. apply He. by left.
  - intros d [Hd _]. by apply verdict_plain.
Qed.
Lemma demux_reading fuel max : triple (hungry max) (demux_step (X := X) fuel max) (verdict_ok max).
Proof.
  unfold demux_step. eapply triple_bind; [apply next_packet_reading|]. cbv beta. intros [v|]; [by intros d Hd|].
  intros d Hd. rewrite bind_run. cbn [gets id fst snd]. case_goal; [by apply send_packet_reading|].
  apply triple_plain; [auto with keeps|done|apply Hd].
Qed.
Lemma read_loop_reading fuel max : triple (reading max) (read_loop (X := X) fuel max) (verdict_ok max).
Proof.
  induction fuel as [|fuel IH]; [by intros d Hd; apply verdict_plain|]. cbn [read_loop]. apply triple_room.
  - by intros d [? _]%andb_prop.
  - intros d0. apply (triple_bind _ _ _ (verdict_ok max)).
    + apply triple_if; intros _; [|apply demux_reading]. eapply triple_bind; [apply flush_reading|]. by intros v d Hd.
    + intros [[]|]; [|by intros d Hd..]. apply (triple_pre _ (reading max)); [by intros d []|]. exact IH.
  - intros _ d Hd. by apply verdict_plain.
Qed.

(** ** Whole calls *)

Lemma settled_aside d d' : aside d d' -> settled d -> settled d'.
Proof.
  intros (A1 & A2 & A3 & A4 & A5 & A6) Hs. unfold settled, leftover_at, target_of in *. by rewrite A1, A2, A3, A4.
Qed.
Lemma take_leftover_reading max d :
  0 < max -> settled d -> dc_read d = mk_read_locals [] None 0 ->
  let r := take_leftover max d in
  reading max (snd r) /\ (fst r = true -> rl_out (dc_read (snd r)) <> []).
Proof.
  intros Hmax (t & Hf & Hat & Hcap) Hrd. unfold take_leftover. cbv zeta. rewrite bind_run. cbn [gets id fst snd].
  pose proof (zlen_nonneg (dc_leftover d)). destruct (0 <? zlen (dc_leftover d)) eqn:Ecount.
  - set (c := if zlen (dc_leftover d) <? max then _ else _).
    assert (0 < c <= zlen (dc_leftover d) /\ c <= max /\ (c = zlen (dc_leftover d) \/ c = max)) as (Hc & Hcm & Hfull)
      by (unfold c; case_goal; lia).
    clearbody c. rewrite !bind_run. cbn. rewrite copy_rate. pose proof (half_bounds c).
    assert (zlen (ztake c (dc_leftover d)) = c) as Hlen by (apply zlen_ztake; lia).
    split; [|intros _ E; rewrite E in Hlen; unfold zlen in Hlen; simpl in Hlen; lia].
    destruct Hat as [Hnil|Hat]; [by rewrite Hnil in Ecount|].
    exists (timed t (ztake c (dc_leftover d))), (t + 125 * c). cbn. rewrite <- timed_split by lia.
    split_and!; [done|by rewrite timed_samples| |rewrite zlen_zdrop; lia|lia| |].
    + right. cbn. rewrite zlen_zdrop by lia. lia.
    + destruct Hfull as [E|E]; [left|right; lia]. apply zlen_zero. rewrite zlen_zdrop; lia.
    + intros _. eexists. split; [done|]. destruct (ztake c (dc_leftover d)); [done|]. cbn [timed on_time].
      unfold leftover_capacity in *. apply Is_true_true, andb_true_iff. lia.
  - assert (dc_leftover d = []) as Hnil by (apply zlen_zero; lia). cbn. split; [|done].
    exists [], t. rewrite Hrd. cbn. split_and!; try done; [zlia|by left].
Qed.

Lemma deliver_settled status max d :
  reading max d ->
  match status with
  | VW_SOURCE_DECODER_READ_ERROR => dc_leftover d = []
  | VW_SOURCE_DECODER_READ_OK => rl_out (dc_read d) <> []
  | _ => rl_out (dc_read d) = []
  end ->
  let r := deliver status d in
  settled (snd r) /\ exists out pts, fst r = Some (status, out, pts) /\ zlen out <= max.
Proof.
  intros (samples & t & Hf & Hsam & Hat & Hcap & Hm & Hfull & Hp) Hstatus. unfold deliver. cbv zeta. rewrite bind_run.
  cbn [gets fst snd]. pose proof (zlen_nonneg (rl_out (dc_read d))) as Hz.
  assert (zlen samples = zlen (rl_out (dc_read d))) as Hlen by (rewrite <- Hsam; unfold zlen; by rewrite length_map).
  destruct status; rewrite ?bind_run; cbn.
  - destruct (Hp Hstatus) as (p & Hpts & Hon). split; [|do 2 eexists; split; [done|lia]].
    exists t. unfold target_of in *. cbn. rewrite follow_snoc, Hf, Hpts. cbn.
    assert (samples <> []) as Hne by (intros ->; by rewrite <- Hsam in Hstatus).
    rewrite (ztake_app_exact _ samples), (zdrop_app_exact _ samples) by done.
    rewrite bool_decide_eq_true_2 by done. rewrite on_time_app by done. apply Is_true_true in Hon. rewrite Hon. by cbn.
  - assert (samples = []) as -> by (apply zlen_zero; by rewrite Hlen, Hstatus). split; [|do 2 eexists; split; [done|zlia]].
    by exists t.
  - assert (samples = []) as -> by (apply zlen_zero; by rewrite Hlen, Hstatus). split; [|do 2 eexists; split; [done|zlia]].
    by exists t.
  - split; [|do 2 eexists; split; [done|zlia]]. exists t. unfold target_of, leftover_at in *. cbn. rewrite follow_snoc, Hf. cbn.
    rewrite Hstatus. split_and!; [done|by left|done].
Qed.

(** A call that returns, with the samples it hands over. *)
Definition call_ok (max : Z) (r : option (vw_source_decoder_read_status_t * list Z * option Z)) (d : decoder X) : Prop :=
  match r with
  | Some (_, out, _) => settled d /\ zlen out <= max
  | None => True
  end.
Lemma deliver_ok status max d :
  reading max d ->
  match status with
  | VW_SOURCE_DECODER_READ_ERROR => dc_leftover d = []
  | VW_SOURCE_DECODER_READ_OK => rl_out (dc_read d) <> []
  | _ => rl_out (dc_read d) = []
  end ->
  call_ok max (fst (deliver status d)) (snd (deliver status d)).
Proof. intros Hd Hs. destruct (deliver_settled status max d Hd Hs) as (Hsettled & out & pts & -> & Hlen). by split. Qed.
Lemma read_settled fuel max d : 0 <= max -> settled d ->
  let r := vw_source_decoder_read_s16le fuel max d in call_ok max (fst r) (snd r).
Proof.
  intros Hmax Hd. unfold vw_source_decoder_read_s16le. cbv zeta. case_goal; [by split; [done|zlia]|].
  rewrite bind_run. cbn [gets fst snd]. case_goal; [by split; [done|zlia]|]. rewrite bind_run.
  set (d1 := snd (on_read _ d)). assert (settled d1) as Hd1 by done. rewrite bind_run.
  destruct (take_leftover_reading max d1 ltac:(lia) Hd1 eq_refl) as [Hr Hne].
  destruct (fst (take_leftover max d1)); [by apply deliver_ok; [|apply Hne]|].
  rewrite bind_run. destruct (read_loop_reading fuel max _ Hr) as [Hr2 Hv]. set (d2 := snd (read_loop _ _ _)) in *.
  clearbody d2. set (v := fst (read_loop _ _ _)) in *. clearbody v.
  assert (call_ok max
    (fst ((d ← gets id; deliver (if 0 <? zlen (rl_out (dc_read d)) then VW_SOURCE_DECODER_READ_OK
            else if dc_eof_reached d then VW_SOURCE_DECODER_READ_EOF else VW_SOURCE_DECODER_READ_AGAIN)) d2))
    (snd ((d ← gets id; deliver (if 0 <? zlen (rl_out (dc_read d)) then VW_SOURCE_DECODER_READ_OK
            else if dc_eof_reached d then VW_SOURCE_DECODER_READ_EOF else VW_SOURCE_DECODER_READ_AGAIN)) d2))) as Hend.
  { rewrite bind_run. cbn [gets id fst snd]. pose proof (zlen_nonneg (rl_out (dc_read d2))).
    destruct (0 <? zlen (rl_out (dc_read d2))) eqn:E; [apply deliver_ok; [done|intros E0; by rewrite E0 in E]|].
    assert (rl_out (dc_read d2) = []) as E0 by (apply zlen_zero; lia). by destruct (dc_eof_reached d2); apply deliver_ok. }
  destruct v as [[| |status]|]; [exact Hend..| |done]. apply deliver_ok; [done|]. by destruct status.
Qed.

Lemma aside_resampler : keeps aside (new_resampler (X := X)).
Proof. unfold new_resampler. keeps_steps. Qed.
Lemma aside_release_all hs : keeps aside (release_all (X := X) hs).
Proof. unfold release_all. keeps_steps. Qed.
Lemma aside_alloc h : keeps aside (alloc_handle (X := X) h).
Proof. unfold alloc_handle. keeps_steps. Qed.
#[local] Hint Resolve aside_resampler aside_release_all aside_alloc : keeps.
Lemma triple_settled {A} (m : D A) : keeps aside m -> triple settled m (fun _ => settled).
Proof. intros Hm d. apply settled_aside, Hm. Qed.
(** Sought, but for the note of it. *)
Definition sought (target : Z) (d : decoder X) : Prop :=
  (exists o, follow (dc_log d) = Some o) /\ dc_leftover d = [] /\ dc_seek_target_us d = target.
Lemma seek_settled target : triple settled (vw_source_decoder_seek (X := X) target) (fun _ => settled).
Proof.
  unfold vw_source_decoder_seek. eapply triple_bind; [apply triple_settled; keeps_steps|]. cbv beta. intros d0. cbv zeta.
  eapply triple_bind; [apply triple_settled; auto with keeps|]. cbv beta. intros replacement.
  apply triple_if; intros _; [apply triple_settled; keeps_steps|].
  eapply triple_bind; [apply triple_settled; auto with keeps|]. cbv beta. intros ok.
  apply triple_if; intros _; [apply triple_settled; keeps_steps|].
  eapply triple_bind; [apply triple_settled; auto with keeps|]. intros ?.
  eapply triple_bind; [apply triple_settled; auto with keeps|]. intros ?.
  apply (triple_bind _ _ _ (fun _ => sought target)); [intros d (t & Hf & _); split; cbn; eauto|]. intros _.
  apply (triple_bind _ _ _ (fun _ => sought target)); [by intros d|]. intros pending.
  apply (triple_bind _ _ _ (fun _ => sought target)).
  { assert (keeps aside (when pending (unref_packet (X := X)))) as Hk by keeps_steps.
    intros d. unfold sought. by destruct (Hk d) as (-> & -> & _ & -> & _). }
  intros ? d ([o Hf] & Hl & Ht). rewrite bind_run. exists 0. unfold target_of, leftover_at. cbn. rewrite follow_snoc, Hf, Hl. cbn. rewrite Ht.
  split_and!; [done|by left|unfold leftover_capacity; zlia].
Qed.

(** Before the file is open. *)
Definition unopened (d : decoder X) : Prop := follow (dc_log d) = Some (mk_owed [] None) /\ dc_leftover d = [].
Lemma triple_unopened {A} (m : D A) : keeps aside m -> triple unopened m (fun _ => unopened).
Proof. intros Hm d. unfold unopened. by destruct (Hm d) as (-> & -> & _). Qed.
Definition opened_ok (r : option Z) (d : decoder X) : Prop := r <> None -> settled d.
Lemma give_up_ok hs : triple unopened (fail_open (X := X) hs) opened_ok.
Proof. intros d Hd. unfold fail_open. rewrite bind_run. intros Hn. by destruct Hn. Qed.
Lemma open_codec_ok idx : triple unopened (open_codec (X := X) idx) opened_ok.
Proof.
  unfold open_codec. do 2 (eapply triple_bind; [apply triple_unopened; keeps_steps|]; cbv beta; intros ?).
  apply triple_if; intros _; [apply give_up_ok|]. eapply triple_bind; [apply triple_unopened; auto with keeps|]. cbv beta. intros ?.
  apply triple_if; intros _; [apply give_up_ok|]. eapply triple_bind; [apply triple_unopened; auto with keeps|]. cbv beta. intros ?.
  apply triple_if; intros _; [apply give_up_ok|].
  do 3 (eapply triple_bind; [apply triple_unopened; auto with keeps|]; cbv beta; intros ?).
  apply triple_if; intros _; [apply give_up_ok|].
  intros d [Hf Hl] _. rewrite !bind_run. cbn. exists 0. unfold target_of, leftover_at. cbn. rewrite Hf, Hl.
  split_and!; [done|by left|unfold leftover_capacity; zlia].
Qed.
Lemma open_ok url x :
  fst (vw_source_decoder_open url (blank_decoder x)) <> None -> settled (snd (vw_source_decoder_open url (blank_decoder x))).
Proof.
  enough (triple unopened (vw_source_decoder_open (X := X) url) opened_ok) as H by (by apply (H (blank_decoder x))).
  unfold vw_source_decoder_open. destruct (if zlen url =? 0 then _ else _) as [path|]; [|intros d _ Hn; by destruct Hn].
  eapply triple_bind; [apply triple_unopened; auto with keeps|]. cbv beta. intros ?.
  apply triple_if; intros _; [intros d _ Hn; by destruct Hn|]. eapply triple_bind; [apply triple_unopened; auto with keeps|]. cbv beta. intros ?.
  do 4 (eapply triple_bind; [apply triple_unopened; auto with keeps|]; cbv beta; intros ?;
        apply triple_if; intros _; [apply give_up_ok|]).
  eapply triple_bind; [apply triple_unopened; auto with keeps|]. cbv beta. intros ?. apply open_codec_ok.
Qed.

Lemma calls_settled d d' : settled d -> rtc decoder_call d d' -> settled d'.
Proof.
  intros Hd Hcalls. induction Hcalls as [|d1 d2 d3 Hcall _ IH]; [done|]. apply IH. destruct Hcall as [fuel max d Hmax Hr|target d].
  - pose proof (read_settled fuel max d Hmax Hd) as Hok. cbv zeta in Hok.
    destruct (fst (vw_source_decoder_read_s16le fuel max d)) as [[[st out] pts]|]; [apply Hok|done].
  - by apply seek_settled.
Qed.

End timeline.

(** ** Paths *)

(** A path as a URI spells it: any byte but the percent sign as it is, any byte but NUL
    as a percent sign and two hexadecimal digits. *)
Inductive spells : list Z -> list Z -> Prop :=
  | spells_nil : spells [] []
  | spells_byte c path uri : c <> 37 -> spells path uri -> spells (c :: path) (c :: uri)
  | spells_escape a b high low path uri :
      path_hex a = Some high -> path_hex b = Some low -> high * 16 + low <> 0 ->
      spells path uri -> spells (high * 16 + low :: path) (37 :: a :: b :: uri).

Lemma path_hex_bounds c d : path_hex c = Some d -> 0 <= d < 16.
Proof. unfold path_hex, is_digit, tolower. intros H. repeat case_match; simplify_eq; lia. Qed.
Lemma normalize_byte c rest idx buf_len : c <> 37 -> idx + 1 < buf_len ->
  normalize_loop (c :: rest) idx buf_len = (c ::.) <$> normalize_loop rest (idx + 1) buf_len.
Proof.
  intros Hc Hb. cbn [normalize_loop]. replace (buf_len <=? idx + 1) with false by lia. replace (c =? 37) with false by lia.
  by destruct rest as [|a [|b rest]].
Qed.
Lemma normalize_spells path uri idx buf_len : spells path uri -> idx + zlen path < buf_len ->
  normalize_loop uri idx buf_len = Some path.
Proof.
  intros Hs. revert idx. induction Hs as [|c path uri Hc _ IH|a b high low path uri Ha Hb Hz _ IH]; intros idx Hlen; [done|..];
    rewrite zlen_cons in Hlen; pose proof (zlen_nonneg path).
  - by rewrite normalize_byte, IH by lia.
  - cbn [normalize_loop]. replace (buf_len <=? idx + 1) with false by lia. rewrite Z.eqb_refl. unfold strtol_hex.
    rewrite Hb. cbn [mbind option_bind]. rewrite Ha. replace (high * 16 + low =? 0) with false by lia. rewrite IH by lia.
    cbn. f_equal. pose proof (path_hex_bounds _ _ Ha). pose proof (path_hex_bounds _ _ Hb). f_equal. unfold u8. by rewrite Z.mod_small by lia.
Qed.

(** The URI of an absolute path, with or without a local host, is read back as that
    path when it fits the buffer, whatever bytes of it are escaped. *)
Theorem path_of_uri (path uri : list Z) (buf_len : Z) :
  spells path uri -> hd 0 path = 47 -> zlen path < buf_len ->
  vw_source_decoder_normalize_posix_path (file_scheme ++ uri) buf_len = Some path
  /\ (hd 0 uri = 47 -> vw_source_decoder_normalize_posix_path (file_localhost ++ tl uri) buf_len = Some path).
Proof.
  intros Hs Hroot Hlen. pose proof (zlen_nonneg path). unfold vw_source_decoder_normalize_posix_path.
  replace (buf_len =? 0) with false by lia. split.
  - assert (prefixb file_localhost (file_scheme ++ uri) = false) as -> by (by inversion Hs; subst; cbn in *; subst).
    assert (forall l, prefixb file_scheme (file_scheme ++ l) = true) as -> by done.
    change (zdrop 7 (file_scheme ++ uri)) with uri. by apply normalize_spells.
  - intros Hhd.
    assert (forall l, prefixb file_localhost (file_localhost ++ l) = true) as -> by done.
    assert (zdrop 16 (file_localhost ++ tl uri) = uri) as ->; [|by apply normalize_spells].
    destruct uri as [|c uri]; cbn in Hhd; [done|by subst].
Qed.
Lemma path_of_uri_witness :
  vw_source_decoder_normalize_posix_path (file_scheme ++ str "/a%20b") 4096 = Some (str "/a b").
Proof.
  refine (proj1 (path_of_uri (str "/a b") (str "/a%20b") 4096 _ eq_refl _)); [|by vm_compute].
  repeat (apply spells_byte; [by vm_compute|]). refine (spells_escape 50 48 2 0 _ _ eq_refl eq_refl _ _); [by vm_compute|].
  apply spells_byte; [by vm_compute|apply spells_nil].
Defined.

(** ** A scripted file *)

(** Packets of a stream, each with its frames: their time and their samples. *)
Record script_packet := mk_packet { sp_stream : Z; sp_frames : list (Z * list Z) }.
(** The packets to come, the frames of the packet read last and those in the codec. *)
Record media := mk_media {
  md_file : list script_packet;
  md_rest : list script_packet;
  md_packet : list (Z * list Z);
  md_queue : list (Z * list Z);
  md_frame : list Z;
  md_flushed : bool
}.
#[global] Instance media_env : AvEnv media := {
  avformat_open_input x _ := (true, x);
  avformat_find_stream_info x := (true, x);
  av_find_best_stream x := (1, x);
  stream_start _ := None;
  media_duration_us _ := 5000;
  avcodec_find_decoder x := (true, x);
  avcodec_alloc_context3 x := (true, x);
  avcodec_parameters_to_context x := (true, x);
  avcodec_open2 x := (true, x);
  swr_alloc_set_opts2 x := ((true, true), x);
  swr_init x := (true, x);
  alloc x _ := (true, x);
  rescale_to_stream _ t := t;
  rescale_from_stream _ t := t;
  av_seek_frame '(mk_media file _ _ _ _ _) _ := (true, mk_media file file [] [] [] false);
  avcodec_flush_buffers x := x;
  av_read_frame '(mk_media file rest packet queue frame flushed) :=
    match rest with
    | [] => (ReadEof, mk_media file rest packet queue frame flushed)
    | mk_packet stream frames :: rest => (ReadPacket stream, mk_media file rest frames queue frame flushed)
    end;
  avcodec_send_packet '(mk_media file rest packet queue frame flushed) packet_given :=
    if packet_given : bool then
      match queue with
      | [] => (AvOk, mk_media file rest [] packet frame flushed)
      | _ => (AvAgain, mk_media file rest packet queue frame flushed)
      end
    else (AvOk, mk_media file rest packet queue frame true);
  avcodec_receive_frame '(mk_media file rest packet queue frame flushed) :=
    match queue with
    | [] => ((if flushed : bool then AvEof else AvAgain, mk_frame None None None), mk_media file rest packet queue frame flushed)
    | (t, samples) :: queue => ((AvOk, mk_frame (Some t) None None), mk_media file rest packet queue samples flushed)
    end;
  swr_get_delay _ := 0;
  swr_convert x given _ := (if given : bool then Some (md_frame x) else Some [], x)
}.

(** Two streams; the audio one has three frames of eight samples in two packets. *)
Definition sample_file : list script_packet :=
  [mk_packet 0 []; mk_packet 1 [(0, [0; 1; 2; 3; 4; 5; 6; 7]); (500, [8; 9; 10; 11; 12; 13; 14; 15])];
   mk_packet 0 []; mk_packet 1 [(1000, [16; 17; 18; 19; 20; 21; 22; 23])]].
Definition sample_media : media := mk_media sample_file sample_file [] [] [] false.
#[local] Abbreviation sample_open := (vw_source_decoder_open (str "/a") (blank_decoder sample_media)).
#[local] Abbreviation read_samples max d := (vw_source_decoder_read_s16le 100 max d).
Example sample_read :
  fst (read_samples 6 (snd sample_open)) = Some (VW_SOURCE_DECODER_READ_OK, [0; 1; 2; 3; 4; 5], Some 0).
Proof. vm_compute. reflexivity. Qed.
(** A seek to 0.6 ms: the samples from 0.625 ms on. *)
#[local] Abbreviation after_seek := (snd (vw_source_decoder_seek 600 (snd (read_samples 6 (snd sample_open))))).
Example sample_seek_read :
  fst (read_samples 6 after_seek) = Some (VW_SOURCE_DECODER_READ_OK, [10; 11; 12; 13; 14; 15], Some 625).
Proof. vm_compute. reflexivity. Qed.

Lemma sample_opens : fst (vw_source_decoder_open (str "/a") (blank_decoder sample_media)) <> None.
Proof. by vm_compute. Qed.
Lemma sample_first_read : fst (vw_source_decoder_read_s16le 100 6 (snd sample_open)) <> None.
Proof. by vm_compute. Qed.
Lemma sample_last_read : fst (vw_source_decoder_read_s16le 100 7 after_seek) <> None.
Proof. by vm_compute. Qed.
Lemma sample_calls : rtc decoder_call (snd sample_open) (snd (read_samples 7 after_seek)).
Proof.
  exact (rtc_l _ _ _ _ (call_read 100 6 (snd sample_open) ltac:(lia) sample_first_read)
    (rtc_l _ _ _ _ (call_seek 600 (snd (read_samples 6 (snd sample_open))))
      (rtc_once _ _ (call_read 100 7 after_seek ltac:(lia) sample_last_read)))).
Qed.
Example sample_leftover : dc_leftover (snd (read_samples 7 after_seek)) = [17; 18; 19; 20; 21; 22; 23].
Proof. vm_compute. reflexivity. Qed.
