(* ===== verification/SourceDecoderProgress.v ===== *)
(** * A read of the decoder returns

    The laws of FFmpeg by which the loops of [SourceDecoder] end, and the fuel a read
    needs. *)

From stdpp Require Import relations.
From S2P Require Import Prelude.
From S2P Require Import State.
From S2P Require Import WorkerSession.
From S2P Require Import SourceDecoder.
From S2P Require Import SourceDecoderProperties.
#[local] Open Scope Z_scope.

(** Arithmetic on what is left to do, the flags of both states being the same. *)
Ltac spend :=
  repeat match goal with H : @eq bool _ _ |- _ => clear H end;
  repeat match goal with |- context [if ?b then _ else _] => destruct b end; lia.

Section progress.
Context {X : Type} `{!AvEnv X}.
#[local] Abbreviation D := (M (decoder X)).
Context (work : X -> nat).

Definition no_more (x x' : X) : Prop := (work x' <= work x)%nat.

(** A file is finite: [work] bounds the packets to read, the frames to receive and the
    samples to drain. A codec that refuses the end of the stream has a frame to give. *)
Class Finite := {
  fi_read x : no_more x (snd (av_read_frame x))
    /\ (forall stream, fst (av_read_frame x) = ReadPacket stream -> (work (snd (av_read_frame x)) < work x)%nat);
  fi_send x b : no_more x (snd (avcodec_send_packet x b));
  fi_receive x : no_more x (snd (avcodec_receive_frame x))
    /\ (fst (fst (avcodec_receive_frame x)) = AvOk -> (work (snd (avcodec_receive_frame x)) < work x)%nat);
  fi_convert x b n : no_more x (snd (swr_convert x b n));
  fi_drain x n samples : fst (swr_convert x false n) = Some samples -> samples <> [] ->
    (work (snd (swr_convert x false n)) < work x)%nat;
  fi_flush x : fst (avcodec_send_packet x false) = AvAgain ->
    fst (fst (avcodec_receive_frame (snd (avcodec_send_packet x false)))) <> AvAgain
}.
Context `{!Finite}.

Definition work_of (d : decoder X) : nat := work (dc_ext d).
(** What a call that handles samples keeps: the loop's flags. *)
Definition flags (d : decoder X) := (dc_demux_eof d, dc_flush_sent d, dc_eof_reached d, dc_pkt_pending d, rl_defer (dc_read d)).
Definition kept (d d' : decoder X) : Prop := (work_of d' <= work_of d)%nat /\ flags d' = flags d.
#[local] Instance kept_preorder : PreOrder kept.
Proof. split; [by split|]. intros d1 d2 d3 [A B] [C E]. split; [lia|congruence]. Qed.

Lemma av_run {A} (f : X -> A * X) d : av f d = (fst (f (dc_ext d)), d <| dc_ext := snd (f (dc_ext d)) |>).
Proof. unfold av. by destruct (f (dc_ext d)). Qed.
Lemma kept_av {A} (f : X -> A * X) : (forall x, no_more x (snd (f x))) -> keeps kept (av f).
Proof. intros Hf d. rewrite av_run. split; [apply Hf|done]. Qed.
Lemma fi_read_more x : no_more x (snd (av_read_frame x)).
Proof. apply fi_read. Qed.
Lemma fi_receive_more x : no_more x (snd (avcodec_receive_frame x)).
Proof. apply fi_receive. Qed.
Create HintDb finite.
#[local] Hint Resolve fi_read_more fi_send fi_receive_more fi_convert : finite.
#[local] Hint Extern 1 (keeps kept (av _)) => (apply kept_av; auto with finite) : keeps.
#[local] Hint Extern 1 (keeps kept (av_note _)) => (by intros ?) : keeps.
#[local] Hint Extern 1 (keeps kept (on_read _)) => (by intros ?) : keeps.
#[local] Hint Extern 1 (keeps kept total_samples) => (by intros ?) : keeps.
#[local] Hint Extern 1 (keeps kept (modify _)) => (intros ?; cbn; first [by split|by case_goal; split]) : keeps.

Lemma kept_trim samples : keeps kept (trim_to_target (X := X) samples).
Proof. unfold trim_to_target. keeps_steps. Qed.
#[local] Hint Resolve kept_trim : keeps.
Lemma kept_copy samples max : keeps kept (vw_source_decoder_copy_samples (X := X) samples max).
Proof. unfold vw_source_decoder_copy_samples. keeps_steps. Qed.
#[local] Hint Resolve kept_copy : keeps.
Lemma kept_take samples max : keeps kept (take_converted (X := X) samples max).
Proof. unfold take_converted. keeps_steps. Qed.
#[local] Hint Resolve kept_take : keeps.
Lemma kept_frame frame max : keeps kept (vw_source_decoder_process_frame (X := X) frame max).
Proof. unfold vw_source_decoder_process_frame. keeps_steps. Qed.
#[local] Hint Resolve kept_frame : keeps.

(** Taking frames ends within the frames there are, and takes none or spends of them. *)
Definition untouched (d d' : decoder X) : Prop := dc_read d' = dc_read d /\ dc_leftover d' = dc_leftover d.
Lemma receive_frames_ends fuel max d : (work_of d < fuel)%nat ->
  let r := receive_frames fuel max d in
  fst r <> None /\ kept d (snd r) /\ ((work_of (snd r) < work_of d)%nat \/ untouched d (snd r)).
Proof.
  revert d. induction fuel as [|fuel IH]; intros d Hf; [lia|]. cbn [receive_frames]. cbv zeta.
  rewrite bind_run. cbn [gets id fst snd]. case_goal; [|by split_and!; [|reflexivity|right]].
  rewrite bind_run, av_run. cbn [fst snd]. destruct (fi_receive (dc_ext d)) as [Hle Hlt].
  set (x := snd (avcodec_receive_frame _)) in *. set (d1 := d <| dc_ext := x |>).
  assert (kept d d1) as Hk by by split.
  destruct (fst (fst (avcodec_receive_frame _))) eqn:Es; cbv beta iota.
  - specialize (Hlt eq_refl). rewrite bind_run. set (frame := snd (fst _)).
    pose proof (kept_frame frame max d1) as Hkf. set (d2 := snd (vw_source_decoder_process_frame frame max d1)) in *. clearbody d2.
    assert (work_of d2 < work_of d)%nat as Hw by (destruct Hkf as [Hw _]; unfold work_of in *; cbn in Hw; lia).
    destruct (fst (vw_source_decoder_process_frame frame max d1)).
    + destruct (IH d2 ltac:(lia)) as (Hr & Hk2 & _). split_and!; [done|exact (transitivity Hk (transitivity Hkf Hk2))|left; destruct Hk2; lia].
    + split_and!; [done|exact (transitivity Hk Hkf)|by left].
  - split_and!; [done|done|by right].
  - split_and!; [done|done|by right].
  - split_and!; [done|done|by right].
Qed.

(** What is left to do: a packet is worth more than the flags it sets, a sample taken
    more than a count of refusals. *)
Definition left_to_do (d : decoder X) : nat :=
  (6 * work_of d + (if dc_pkt_pending d then 3 else 0) + Z.to_nat (2 - rl_defer (dc_read d))
   + (if dc_demux_eof d then 0 else 1) + (if dc_eof_reached d then 0 else 1))%nat.
Lemma left_kept d d' : kept d d' -> (left_to_do d' <= left_to_do d)%nat.
Proof. intros [Hw [= E1 E2 E3 E4 E5]]. unfold left_to_do. rewrite E1, E3, E4, E5. spend. Qed.
Lemma left_spent d d' : kept d d' -> (work_of d' < work_of d)%nat -> (left_to_do d' < left_to_do d)%nat.
Proof. intros [Hw [= E1 E2 E3 E4 E5]] Hs. unfold left_to_do. rewrite E1, E3, E4, E5. spend. Qed.

(** An iteration that goes on has less left to do; refusals are counted from 0. *)
Definition goes_on (d : decoder X) (v : option verdict) (d' : decoder X) : Prop :=
  v <> None /\ (v = Some Continue -> (left_to_do d' < left_to_do d)%nat /\ 0 <= rl_defer (dc_read d')).


(** The same but for the flush and the samples taken. *)
Definition near (d d' : decoder X) : Prop :=
  (work_of d' <= work_of d)%nat /\ dc_leftover d' = dc_leftover d /\ dc_demux_eof d' = dc_demux_eof d
  /\ dc_eof_reached d' = dc_eof_reached d /\ dc_pkt_pending d' = dc_pkt_pending d /\ rl_defer (dc_read d') = rl_defer (dc_read d).
Lemma send_flush_spec d :
  let r := send_flush d in
  near d (snd r) /\
  (fst r = true -> dc_flush_sent (snd r) = false -> fst (fst (avcodec_receive_frame (dc_ext (snd r)))) <> AvAgain).
Proof.
  unfold send_flush. cbv zeta. rewrite bind_run. cbn [gets fst snd].
  destruct (dc_flush_sent d) eqn:Ef; [cbn; rewrite Ef; by split; [split_and!|]|].
  rewrite bind_run, av_run. cbn [fst snd]. pose proof (fi_send (dc_ext d) false) as Hw. pose proof (fi_flush (dc_ext d)) as Hflush.
  destruct (fst (avcodec_send_packet (dc_ext d) false)); rewrite ?bind_run; cbn.
  1,2: split; [by split_and!|done].
  - split; [by split_and!|]. intros _ _. by apply Hflush.
  - split; [by split_and!|done].
Qed.

Lemma drain_spends max d :
  let r := vw_source_decoder_drain_swr max d in
  kept d (snd r) /\
  match fst r with
  | VW_SOURCE_DECODER_READ_EOF => dc_leftover (snd r) = dc_leftover d
  | VW_SOURCE_DECODER_READ_ERROR => True
  | _ => (work_of (snd r) < work_of d)%nat
  end.
Proof.
  unfold vw_source_decoder_drain_swr. cbv zeta. rewrite bind_run, av_run. cbn [fst snd].
  pose proof (fi_convert (dc_ext d) false leftover_capacity) as Hle.
  pose proof (fi_drain (dc_ext d) leftover_capacity) as Hlt. set (x := snd (swr_convert _ _ _)) in *.
  set (d1 := d <| dc_ext := x |>). assert (kept d d1) as Hk by by split.
  destruct (fst (swr_convert _ _ _)) as [samples|]; [|by split].
  destruct (zlen (ztake leftover_capacity samples) =? 0) eqn:Ez; [by split|]. rewrite bind_run. cbn [mret M_ret fst snd].
  pose proof (kept_take (ztake leftover_capacity samples) max d1) as Hk2. split; [exact (transitivity Hk Hk2)|].
  destruct Hk2 as [Hw _]. specialize (Hlt samples eq_refl). assert (samples <> []) as Hne by (by intros ->). specialize (Hlt Hne).
  unfold work_of in *. cbn in Hw. lia.
Qed.

Lemma flush_goes_on max d : dc_leftover d = [] -> 0 <= rl_defer (dc_read d) -> dc_eof_reached d = false ->
  goes_on d (Some (fst (flush_decoder max d))) (snd (flush_decoder max d)).
Proof.
  intros Hl Hdefer Heof. split; [done|]. unfold flush_decoder. rewrite bind_run.
  destruct (send_flush_spec d) as [(Hw & Hlo & E1 & E2 & E3 & E4) Hflush].
  set (d1 := snd (send_flush d)) in *. destruct (fst (send_flush d)); [|done]. specialize (Hflush eq_refl). clearbody d1.
  cbn [negb]. rewrite bind_run, av_run. cbn [fst snd]. destruct (fi_receive (dc_ext d1)) as [Hle Hlt].
  set (x := snd (avcodec_receive_frame _)) in *. set (frame := snd (fst (avcodec_receive_frame _))).
  set (d2 := d1 <| dc_ext := x |>). assert (work_of d2 <= work_of d1)%nat as Hw2 by done.
  destruct (fst (fst (avcodec_receive_frame _))); cbv beta iota.
  - specialize (Hlt eq_refl). rewrite bind_run. pose proof (kept_frame frame max d2) as [Hw3 [= F1 F2 F3 F4 F5]].
    set (d3 := snd (vw_source_decoder_process_frame frame max d2)) in *. clearbody d3. cbn in F1, F2, F3, F4, F5.
    destruct (fst (vw_source_decoder_process_frame frame max d2)); [|done]. intros _. cbn. split; [|spend].
    unfold left_to_do, work_of in *. cbn in Hw3. rewrite F1, F3, F4, F5, E1, E2, E3, E4. spend.
  - rewrite bind_run. destruct (drain_spends max d2) as [[Hw3 [= F1 F2 F3 F4 F5]] Hd].
    set (d3 := snd (vw_source_decoder_drain_swr max d2)) in *. clearbody d3. cbn in F1, F2, F3, F4, F5.
    destruct (fst (vw_source_decoder_drain_swr max d2)); try done; intros _.
    1,2: cbn; split; [|spend]; unfold left_to_do; rewrite F1, F3, F4, F5, E1, E2, E3, E4; spend.
    assert ((zlen (dc_leftover d3) =? 0) = true) as Hz by (rewrite Hd; cbn; by rewrite Hlo, Hl).
    rewrite bind_run. cbn [modify mret M_ret fst snd]. rewrite Hz. split; [|cbn; spend]. unfold left_to_do, work_of in *. cbn in *.
    rewrite F1, F4, F5, E1, E3, E4, Heof. spend.
  - rewrite bind_run. cbn. destruct (dc_flush_sent d1); [done|]. by specialize (Hflush eq_refl).
  - done.
Qed.

(** Flags as they were; and when nothing was spent the samples, too. *)
Definition spared (d d' : decoder X) : Prop := kept d d' /\ ((work_of d' < work_of d)%nat \/ untouched d d').
#[local] Instance spared_preorder : PreOrder spared.
Proof.
  split; [by intros d; split; [reflexivity|right]|]. intros d1 d2 d3 [K1 U1] [K2 U2].
  split; [exact (transitivity K1 K2)|]. destruct K1 as [W1 _], K2 as [W2 _].
  destruct U1 as [|[A1 B1]]; [left; lia|]. destruct U2 as [|[A2 B2]]; [left; lia|]. right. split; congruence.
Qed.
Lemma spared_send b d : spared d (snd (av (fun x => avcodec_send_packet x b) d)).
Proof. rewrite av_run. split; [split; [apply fi_send|done]|by right]. Qed.
Lemma send_or_retry_spec fuel max d : (work_of d < fuel)%nat ->
  let r := send_or_retry fuel max d in fst r <> None /\ spared d (snd r).
Proof.
  intros Hf. unfold send_or_retry. cbv zeta. rewrite bind_run. pose proof (spared_send true d) as Hs.
  set (d1 := snd (av _ d)) in *. destruct (fst (av _ d)); try (by split).
  assert (work_of d1 < fuel)%nat as Hf1 by (destruct Hs as [[Hw _] _]; lia). clearbody d1.
  rewrite bind_run. destruct (receive_frames_ends fuel max d1 Hf1) as (Hne & Hk & Hu).
  assert (spared d (snd (receive_frames fuel max d1))) as Hs2 by (by refine (transitivity Hs _); split).
  set (d2 := snd (receive_frames fuel max d1)) in *. clearbody d2.
  destruct (fst (receive_frames fuel max d1)) as [[]|]; [|by split|done]. rewrite bind_run. cbn [gets id fst snd].
  case_goal; [|by split]. rewrite bind_run. split; [done|]. exact (transitivity Hs2 (spared_send true d2)).
Qed.

Lemma send_packet_goes_on fuel max d :
  (work_of d < fuel)%nat -> 0 <= rl_defer (dc_read d) -> dc_pkt_pending d = true ->
  goes_on d (fst (send_packet fuel max d)) (snd (send_packet fuel max d)).
Proof.
  intros Hf Hdefer Hp. unfold send_packet. rewrite bind_run. cbn [total_samples gets fst snd]. rewrite bind_run. cbn [gets fst snd].
  rewrite bind_run. destruct (send_or_retry_spec fuel max d Hf) as [Hne Hs].
  set (d1 := snd (send_or_retry fuel max d)) in *. clearbody d1. destruct Hs as [[Hw [= E1 E2 E3 E4 E5]] Hu].
  destruct (fst (send_or_retry fuel max d)) as [[[]|]|]; [| | | |by split|done].
  - rewrite bind_run. destruct (receive_frames_ends fuel max d1 ltac:(lia)) as (Hne2 & [Hw2 [= F1 F2 F3 F4 F5]] & _).
    set (d2 := snd (receive_frames fuel max d1)) in *. clearbody d2.
    destruct (fst (receive_frames fuel max d1)) as [[]|]; [|by split|done].
    unfold unref_packet. rewrite !bind_run. split; [done|]. intros _.
    unfold left_to_do, work_of in *. cbn. rewrite F1, F3, E1, E3, Hp. split; spend.
  - unfold unref_packet. rewrite !bind_run. split; [done|]. intros _. unfold left_to_do, work_of in *. cbn. rewrite E3, Hp, E5. split; spend.
  - rewrite bind_run. cbn [total_samples gets fst snd]. rewrite !bind_run. cbn [on_read modify gets fst snd].
    set (same := (_ =? _) && (_ =? _)). set (defer := rl_defer _). case_goal; [by split|]. split; [done|]. intros _.
    rewrite bind_run. cbn [modify mret M_ret fst snd].
    apply Z.leb_gt in Hc. assert (defer = if same then rl_defer (dc_read d) + 1 else 0) as Hd by (unfold defer; cbn; by rewrite E5).
    assert (same = false -> (work_of d1 < work_of d)%nat) as Hspent.
    { destruct Hu as [|[U1 U2]]; [done|]. unfold same. cbn. by rewrite U1, U2, !Z.eqb_refl. }
    split; [|cbn; rewrite E5; clearbody same; spend]. clearbody same. unfold left_to_do, work_of in *. cbn. rewrite E1, E3, Hp, E5.
    destruct same; [clear - Hw Hdefer Hc Hd; spend|]. specialize (Hspent eq_refl). spend.
  - by split.
Qed.
Lemma demux_goes_on fuel max d :
  (work_of d < fuel)%nat -> 0 <= rl_defer (dc_read d) -> dc_demux_eof d = false ->
  goes_on d (fst (demux_step fuel max d)) (snd (demux_step fuel max d)).
Proof.
  intros Hf Hdefer Heof. unfold demux_step. rewrite bind_run.
  assert (let r := next_packet d in match fst r with
    | Some v => goes_on d (Some v) (snd r)
    | None => dc_pkt_pending (snd r) = true /\ (left_to_do (snd r) <= left_to_do d)%nat /\ (work_of (snd r) <= work_of d)%nat
              /\ rl_defer (dc_read (snd r)) = rl_defer (dc_read d) end) as Hn.
  { unfold next_packet. cbv zeta. rewrite bind_run. cbn [gets fst snd]. destruct (dc_pkt_pending d) eqn:Hp; [by split_and!|].
    rewrite bind_run, av_run. cbn [fst snd]. destruct (fi_read (dc_ext d)) as [Hle Hlt].
    set (x := snd (av_read_frame _)) in *. destruct (fst (av_read_frame _)) as [stream| | |]; rewrite ?bind_run; cbn.
    - specialize (Hlt stream eq_refl). split_and!; try done. unfold left_to_do, work_of. cbn. rewrite Hp. lia.
    - split; [done|]. intros _. unfold left_to_do, work_of. cbn. rewrite Heof. unfold no_more in Hle. lia.
    - by split.
    - by split. }
  cbv zeta in Hn. set (d1 := snd (next_packet d)) in *. clearbody d1. destruct (fst (next_packet d)) as [v|]; [exact Hn|].
  destruct Hn as (Hp & Hleft & Hw & Hd). rewrite bind_run. cbn [gets id fst snd]. case_goal.
  - destruct (send_packet_goes_on fuel max d1 ltac:(lia) ltac:(lia) Hp) as [Hne Hgo]. split; [done|]. intros Hv.
    destruct (Hgo Hv). lia.
  - unfold unref_packet. rewrite !bind_run. split; [done|]. intros _. unfold left_to_do, work_of in *. cbn. rewrite Hp in Hleft. lia.
Qed.

Lemma read_loop_ends fuel max d :
  reading max d -> 0 <= rl_defer (dc_read d) -> (left_to_do d < fuel)%nat -> fst (read_loop fuel max d) <> None.
Proof.
  revert d. induction fuel as [|fuel IH]; intros d Hr Hdefer Hf; [lia|]. cbn [read_loop]. rewrite bind_run. cbn [gets id fst snd].
  destruct (_ && negb _) eqn:Eroom; [|done]. apply andb_prop in Eroom as [Hroom Heof%negb_true_iff].
  pose proof (room_hungry max d Hr Hroom) as Hh. assert (work_of d < S fuel)%nat as Hw by (unfold left_to_do in Hf; lia).
  rewrite bind_run. set (body := if dc_demux_eof d then _ else _).
  assert (goes_on d (fst (body d)) (snd (body d)) /\ verdict_ok max (fst (body d)) (snd (body d))) as [[Hne Hgo] [Hr' _]].
  { unfold body. destruct (dc_demux_eof d) eqn:Edemux.
    - rewrite bind_run. split; [apply flush_goes_on; [by apply (hungry_leftover max)|done|done]|by apply flush_reading].
    - split; [by apply demux_goes_on|by apply demux_reading]. }
  destruct (fst (body d)) as [[]|]; [|done..]. destruct (Hgo eq_refl). apply IH; [done|done|lia].
Qed.

(** C31: A read returns, whatever the codec refuses or defers: with six times the packets,
    frames and samples left in the file as fuel no loop of it runs out. *)
Theorem decoder_read_returns (url : list Z) (x : X) d (fuel : nat) (max_samples : Z) :
  fst (vw_source_decoder_open url (blank_decoder x)) <> None ->
  rtc decoder_call (snd (vw_source_decoder_open url (blank_decoder x))) d ->
  0 <= max_samples -> (6 * work_of d + 7 < fuel)%nat ->
  fst (vw_source_decoder_read_s16le fuel max_samples d) <> None.
Proof.
  intros Ho Hcalls Hmax Hf. pose proof (calls_settled _ _ (open_ok url x Ho) Hcalls) as Hd.
  unfold vw_source_decoder_read_s16le. case_goal; [done|]. rewrite bind_run. cbn [gets fst snd]. case_goal; [done|].
  rewrite bind_run. set (d1 := snd (on_read _ d)). assert (settled d1) as Hd1 by done. rewrite bind_run.
  destruct (take_leftover_reading max_samples d1 ltac:(lia) Hd1 eq_refl) as [Hr _].
  assert (kept d1 (snd (take_leftover max_samples d1))) as [Hw [= E1 E2 E3 E4 E5]].
  { assert (keeps kept (take_leftover (X := X) max_samples)) as Hk by (unfold take_leftover; keeps_steps). apply Hk. }
  set (d2 := snd (take_leftover max_samples d1)) in *. clearbody d2.
  assert (forall status (d3 : decoder X), fst (deliver status d3) <> None) as Hdeliver
    by (intros [] d3; unfold deliver; by rewrite !bind_run).
  destruct (fst (take_leftover max_samples d1)); [apply Hdeliver|]. rewrite bind_run.
  pose proof (read_loop_ends fuel max_samples d2 Hr) as Hends. change (rl_defer (dc_read d1)) with 0 in E5. rewrite E5 in Hends.
  assert (left_to_do d2 < fuel)%nat as Hleft.
  { unfold left_to_do. rewrite E5. unfold work_of in *. cbn in Hw. spend. }
  specialize (Hends ltac:(lia) Hleft). destruct (fst (read_loop _ _ d2)) as [[| |status]|]; [| |apply Hdeliver|done].
  all: rewrite bind_run; apply Hdeliver.
Qed.
End progress.

(** The scripted file ends. *)
Definition packet_work (p : script_packet) : nat := 1 + length (sp_frames p).
Definition media_work (x : media) : nat :=
  (sum_list (packet_work <$> md_rest x) + length (md_packet x) + length (md_queue x))%nat.
#[global] Instance media_finite : Finite media_work.
Proof.
  split.
  - intros [file [|[stream frames] rest] packet queue frame flushed]; unfold no_more, media_work; cbn; [by split|].
    split; intros; lia.
  - intros [file rest packet [|] frame flushed] []; unfold no_more, media_work; cbn; lia.
  - intros [file rest packet [|[t samples] queue] frame flushed]; unfold no_more, media_work; cbn; [|split; intros; lia].
    split; [lia|]. by destruct flushed.
  - intros x b n. by unfold no_more.
  - by intros x n samples [= <-].
  - by intros [file rest packet queue frame flushed].
Qed.
Lemma decoder_read_returns_witness :
  fst (vw_source_decoder_read_s16le 200 4 (snd (vw_source_decoder_open (str "/a") (blank_decoder sample_media)))) <> None.
Proof.
  refine (decoder_read_returns media_work (str "/a") sample_media _ 200 4 sample_opens (rtc_refl _ _) _ _).
  - by compute.
  - apply Nat.ltb_lt. vm_compute. reflexivity.
Defined.
