(* ===== verification/WorkerSafety.v ===== *)
(** * What the worker sends, and when

    Every frame the session loop sends is well formed and numbered in order, and
    nothing but the answer to a HELLO leaves an unauthenticated worker. *)

From stdpp Require Import relations.
From S2P Require Import Prelude.
From S2P Require Import CString.
From S2P Require Import Float32.
From S2P Require Import Ring.
From S2P Require Import ProtocolTypes.
From S2P Require Import ProtocolUtil.
From S2P Require Import Validate.
From S2P Require Import Codec.
From S2P Require Import State.
From S2P Require Import AudioBuffer.
From S2P Require Import WorkerQueue.
From S2P Require Import SegmentBuilder.
From S2P Require Import Vad.
From S2P Require Import ModelDownload.
From S2P Require Import TranslateTiers.
From S2P Require Import TranslateAsync.
From S2P Require Import WorkerConfig.
From S2P Require Import TranslationDiag.
From S2P Require Import WhisperEngine.
From S2P Require Import WorkerSession.
#[local] Open Scope Z_scope.

(** ** Sizes of decoded arrays *)

(** Every message a decoder can return satisfies [P]. *)
Definition returns {A} (m : dec A) (P : A -> Prop) : Prop := forall r a r', m r = Some (a, r') -> P a.

Lemma returns_bind {A B} (m : dec A) (f : A -> dec B) Q P :
  returns m Q -> (forall a, Q a -> returns (f a) P) -> returns (dec_bind m f) P.
Proof.
  intros Hm Hf r b r' H. unfold dec_bind in H. destruct (m r) as [[a r1]|] eqn:E; [|done].
  by eapply Hf, H; eapply Hm.
Qed.
Lemma returns_any {A} (m : dec A) : returns m (fun _ => True).
Proof. done. Qed.
Lemma returns_ret {A} (a : A) (P : A -> Prop) : P a -> returns (dec_ret a) P.
Proof. intros Ha r b r' [= <- _]. done. Qed.
Lemma returns_if {A} (b : bool) (m1 m2 : dec A) P : returns m1 P -> returns m2 P -> returns (if b then m1 else m2) P.
Proof. by destruct b. Qed.
Lemma returns_bytes len : 0 <= len -> returns (DEC_BYTES len) (fun bs => zlen bs = len).
Proof. unfold DEC_BYTES. intros Hl r bs r' H. case_ifs H. inv_some. bool_to_prop. apply zlen_ztake. lia. Qed.

Definition start_id_ok (m : message) : Prop :=
  match m with
  | START_SESSION p => zlen (start_session_id p) = VW_SESSION_ID_BYTES
  | HELLO p => zlen (hello_auth_token p) = VW_AUTH_TOKEN_BYTES
  | _ => True
  end.

Lemma decode_start_id : returns decode_start start_id_ok.
Proof.
  unfold decode_start. eapply returns_bind; [by apply returns_bytes|]. intros id Hid. cbv beta.
  repeat (eapply returns_bind; [apply returns_any|]; intros; cbv beta). by apply returns_ret.
Qed.
Lemma decode_hello_token : returns decode_hello start_id_ok.
Proof.
  unfold decode_hello. do 2 (eapply returns_bind; [apply returns_any|]; intros; cbv beta).
  eapply returns_bind; [by apply returns_bytes|]. intros token Ht. cbv beta.
  repeat (eapply returns_bind; [apply returns_any|]; intros; cbv beta). by apply returns_ret.
Qed.
Lemma decode_message_start type : returns (decode_message type) start_id_ok.
Proof.
  unfold decode_message.
  repeat (apply returns_if;
    [first [exact decode_start_id | exact decode_hello_token
     | unfold decode_hello_ack, decode_position, decode_audio, decode_segment, decode_control,
         decode_translate_ctrl, decode_status, decode_model_ctrl, decode_model_progress, decode_error,
         decode_started, decode_segment_tail, decode_status_counters;
       repeat first [apply returns_ret; exact I | apply returns_if
         | (eapply returns_bind; [apply returns_any|]; intros; cbv beta)]]|]); try done.
Qed.

(** ** What is sent *)

(** A frame as it was handed to the transport: the payload only follows when the
    header was written. *)
Record wire_frame := mk_wire {
  wire_header : vw_frame_header_t;
  wire_payload : list Z;
  wire_header_sent : bool;
  wire_payload_sent : bool
}.
Definition wire_log (f : wire_frame) : list (list Z * bool) :=
  (header_bytes (wire_header f), wire_header_sent f)
  :: (if wire_header_sent f then [(wire_payload f, wire_payload_sent f)] else []).

(** Its header passes the receiver's checks and announces the payload, which is a
    message of its type, laid out as the codec defines. *)
Definition wire_ok (f : wire_frame) : Prop :=
  vw_protocol_validate_header (wire_header f) = true
  /\ hdr_payload_length (wire_header f) = zlen (wire_payload f)
  /\ exists m, hdr_type (wire_header f) = message_type m /\ wire_payload f = layout m /\ encodable m = true.

Definition wire_sequences (fs : list wire_frame) : list Z := map (fun f => hdr_sequence (wire_header f)) fs.

(** The loop is to end with a failed write as the last. *)
Definition halted {X} (w : worker X) : Prop :=
  w_fatal w = true /\ w_running w = false /\ exists log bytes, w_sent w = log ++ [(bytes, false)].
Definition id_ok {X} (w : worker X) : Prop := zlen (s_id (w_session w)) = VW_SESSION_ID_BYTES.
(** From [w] to [w'] exactly the frames [fs] are sent, numbered on from [w]; the numbers
    of [n] more are used up by frames that were withheld, after which none is sent. *)
Definition sent_frames {X} (fs : list wire_frame) (n : Z) (w w' : worker X) : Prop :=
  w_sent w' = w_sent w ++ concat (map wire_log fs) /\ Forall wire_ok fs
  /\ wire_sequences fs = map (fun k => u64 (w_sequence w + k)) (seqZ 1 (zlen fs))
  /\ w_sequence w' = u64 (w_sequence w + zlen fs + n) /\ 0 <= n
  /\ (0 < n -> withheld w' = true) /\ (withheld w = true -> fs = [] /\ withheld w' = true)
  /\ (withheld w' = true -> withheld w = true \/ halted w')
  /\ (w_fatal w = true -> w_fatal w' = true) /\ (w_running w' = true -> w_running w = true)
  /\ w_authenticated w' = w_authenticated w.
Definition sends {X} (w w' : worker X) : Prop :=
  is_unsigned 64 (w_sequence w) -> id_ok w -> id_ok w' /\ exists fs n, sent_frames fs n w w'.

Lemma u64_add a b : u64 (u64 a + b) = u64 (a + b).
Proof. unfold u64. by rewrite Z.add_mod_idemp_l. Qed.

Lemma halted_stays {X} (w w' : worker X) :
  halted w -> w_sent w' = w_sent w -> (w_fatal w = true -> w_fatal w' = true) ->
  (w_running w' = true -> w_running w = true) -> halted w'.
Proof.
  intros (H1 & H2 & H3) Hs Hf Hr. split_and!; [auto| |by rewrite Hs]. destruct (w_running w'); [|done]. by rewrite <- H2, Hr.
Qed.
Lemma sent_frames_trans {X} f1 n1 f2 n2 (w1 w2 w3 : worker X) :
  sent_frames f1 n1 w1 w2 -> sent_frames f2 n2 w2 w3 -> sent_frames (f1 ++ f2) (n1 + n2) w1 w3.
Proof.
  intros (S1 & W1 & N1 & Q1 & P1 & G1 & B1 & H1 & F1 & R1 & A1) (S2 & W2 & N2 & Q2 & P2 & G2 & B2 & H2 & F2 & R2 & A2).
  pose proof (zlen_nonneg f1) as L1. pose proof (zlen_nonneg f2) as L2.
  assert (0 < n1 -> f2 = []) as Hn1 by (intros Hn; by apply B2, G1). split_and!.
  - by rewrite S2, S1, map_app, concat_app, app_assoc.
  - by apply Forall_app.
  - destruct (decide (0 < n1)) as [Hn|Hn]; [by rewrite (Hn1 Hn), !app_nil_r|].
    unfold wire_sequences in *. rewrite map_app, N1, N2, zlen_app, seqZ_app, map_app by (clear - L1 L2; lia). f_equal.
    rewrite Q1. replace (1 + zlen f1) with (Z.add (zlen f1) 1) by (clear; lia). rewrite <- (fmap_add_seqZ (zlen f1) 1).
    rewrite <- list_fmap_compose. apply list_fmap_ext. intros ? k _. simpl. rewrite u64_add. f_equal. clear - Hn P1; lia.
  - rewrite Q2, Q1, <- Z.add_assoc, u64_add, zlen_app. f_equal. clear; lia.
  - clear - P1 P2; lia.
  - intros Hn. destruct (decide (0 < n2)) as [|Hn2]; [auto|]. apply B2, G1. clear - Hn Hn2 P1 P2; lia.
  - intros Hg. destruct (B1 Hg) as [-> Hg2]. destruct (B2 Hg2) as [-> Hg3]. done.
  - intros Hg. destruct (H2 Hg) as [Hg2|]; [|by right]. destruct (H1 Hg2) as [|Hh]; [by left|right].
    destruct (B2 Hg2) as [-> _]. apply (halted_stays w2); [done|by rewrite S2, app_nil_r|done..].
  - auto.
  - auto.
  - by rewrite A2.
Qed.
#[global] Instance sends_preorder {X} : PreOrder (@sends X).
Proof.
  split.
  - intros w Hw Hi. split; [done|]. exists [], 0. split_and!; try done; [by rewrite app_nil_r| |by left].
    rewrite zlen_nil, !Z.add_0_r. symmetry. by apply u64_id.
  - intros w1 w2 w3 H1 H2 Hw Hi. destruct (H1 Hw Hi) as (Hi2 & f1 & n1 & S1).
    destruct H2 as (Hi3 & f2 & n2 & S2); [|done|split; [done|]; exists (f1 ++ f2), (n1 + n2); by eapply sent_frames_trans].
    destruct S1 as (_ & _ & _ & Q & _). rewrite Q. apply mod_unsigned. lia.
Qed.

Section sending.
Context {X : Type} `{!WorkerEnv X} (config : vw_worker_config_t).

(** A call that sends nothing. *)
Definition same_wire (w w' : worker X) : Prop :=
  w_sent w' = w_sent w /\ w_sequence w' = w_sequence w /\ w_authenticated w' = w_authenticated w
  /\ withheld w' = withheld w /\ (w_fatal w = true -> w_fatal w' = true) /\ (w_running w' = true -> w_running w = true)
  /\ (id_ok w -> id_ok w').
Lemma quiet_sends (w w' : worker X) : same_wire w w' -> sends w w'.
Proof.
  intros (E1 & E2 & E3 & E4 & E5 & E6 & E7) Hw Hi. split; [auto|].
  exists [], 0. split_and!; try done; [by rewrite app_nil_r| |rewrite E4; by auto..].
  rewrite E2, zlen_nil, !Z.add_0_r. symmetry. by apply u64_id.
Qed.
Lemma keeps_quiet {A} (m : M (worker X) A) : (forall w, same_wire w (snd (m w))) -> keeps sends m.
Proof. intros H w. by apply quiet_sends. Qed.
Lemma sends_external {A} (f : X -> A * X) : keeps sends (external f).
Proof. apply keeps_quiet. intros w. unfold external. by destruct (f (w_ext w)). Qed.
Lemma sends_session f : (forall s, s_id (f s) = s_id s) -> keeps (@sends X) (on_session f).
Proof. intros H. apply keeps_quiet. intros w. split_and!; try done. unfold id_ok. simpl. by rewrite H. Qed.
Lemma sends_ask {A} (f : session -> A) : keeps (@sends X) (ask f).
Proof. apply keeps_gets, _. Qed.

(** What sending leaves alone. *)
Definition same_core (w w' : worker X) : Prop :=
  w_session w' = w_session w /\ w_model_dl w' = w_model_dl w /\ w_running w' = w_running w
  /\ w_fatal w' = w_fatal w /\ w_authenticated w' = w_authenticated w
  /\ w_engine w' = w_engine w /\ w_queue w' = w_queue w
  /\ w_diag_registered w' = w_diag_registered w /\ w_diag_failed w' = w_diag_failed w.
Lemma same_core_withheld w w' : same_core w w' -> withheld w' = withheld w.
Proof. unfold same_core, withheld. intros. destruct_and!. congruence. Qed.

(** One header and payload, written; its last write fails when it does. *)
Definition write_pair (hdr : vw_frame_header_t) (payload : list Z) : M (worker X) bool :=
  ok ← transport_send (header_bytes hdr); if ok : bool then transport_send payload else mret false.
Lemma write_pair_spec hdr payload (w : worker X) :
  let r := write_pair hdr payload w in
  exists ok1 ok2, w_sent (snd r) = w_sent w ++ wire_log (mk_wire hdr payload ok1 ok2)
    /\ fst r = ok1 && ok2 /\ w_sequence (snd r) = w_sequence w /\ same_core w (snd r).
Proof.
  unfold write_pair, transport_send, external, modify. rewrite !bind_run. simpl.
  destruct (ipc_send (w_ext w) (header_bytes hdr)) as [ok1 x1]. simpl. destruct ok1; simpl.
  - rewrite !bind_run. simpl. destruct (ipc_send x1 payload) as [ok2 x2]. simpl.
    exists true, ok2. split_and!; try done. by rewrite <- app_assoc.
  - by exists false, false.
Qed.
Lemma send_bytes_run bytes (w : worker X) :
  send_bytes bytes w = if withheld w then (false, w) else transport_send bytes w.
Proof. unfold send_bytes, gets. rewrite bind_run. cbn [fst snd]. by destruct (withheld w). Qed.
Lemma transport_send_withheld bytes (w : worker X) : withheld (snd (transport_send bytes w)) = withheld w.
Proof. unfold transport_send, external, modify. rewrite !bind_run. by destruct (ipc_send (w_ext w) bytes). Qed.
Lemma send_pair_run hdr payload (w : worker X) :
  send_header_and_payload hdr payload w = if withheld w then (false, w) else write_pair hdr payload w.
Proof.
  unfold send_header_and_payload, vw_protocol_encode_header, write_pair.
  change (sizeof_header <? sizeof_header) with false. cbv iota. rewrite bind_run, send_bytes_run.
  destruct (withheld w) eqn:Hg; [done|]. rewrite bind_run.
  destruct (fst (transport_send (header_bytes hdr) w)); [|done]. by rewrite send_bytes_run, transport_send_withheld, Hg.
Qed.
Lemma send_pair_spec hdr payload (w : worker X) :
  let w' := snd (send_header_and_payload hdr payload w) in
  w_sequence w' = w_sequence w /\ same_core w w'
  /\ if withheld w then w_sent w' = w_sent w
     else exists ok1 ok2, w_sent w' = w_sent w ++ wire_log (mk_wire hdr payload ok1 ok2).
Proof.
  cbv zeta. rewrite send_pair_run. destruct (withheld w) eqn:Hg; [done|].
  destruct (write_pair_spec hdr payload w) as (ok1 & ok2 & S1 & _ & S2 & S3). split_and!; try done. by exists ok1, ok2.
Qed.

(** At most that frame is handed to the transport. *)
Definition at_most hdr payload (w w' : worker X) : Prop :=
  same_core w w' /\ exists fs, w_sent w' = w_sent w ++ concat (map wire_log fs)
    /\ Forall (fun f => wire_header f = hdr /\ wire_payload f = payload) fs.
Lemma wire_at_most hdr payload ok1 ok2 (w w' : worker X) :
  w_sent w' = w_sent w ++ wire_log (mk_wire hdr payload ok1 ok2) -> same_core w w' -> at_most hdr payload w w'.
Proof.
  intros S1 S3. split; [done|]. exists [mk_wire hdr payload ok1 ok2]. split; [|by apply Forall_singleton].
  rewrite S1. cbn [map concat]. by rewrite app_nil_r.
Qed.
Lemma send_pair_at_most hdr payload (w : worker X) : at_most hdr payload w (snd (send_header_and_payload hdr payload w)).
Proof.
  destruct (send_pair_spec hdr payload w) as (_ & S3 & S1). destruct (withheld w).
  - split; [done|]. exists []. by rewrite app_nil_r.
  - destruct S1 as (ok1 & ok2 & S1). by eapply wire_at_most.
Qed.
Lemma write_pair_at_most hdr payload (w : worker X) : at_most hdr payload w (snd (write_pair hdr payload w)).
Proof. destruct (write_pair_spec hdr payload w) as (ok1 & ok2 & S1 & _ & _ & S3). by eapply wire_at_most. Qed.

(** One frame with the next number. *)
Lemma send_frame_sends hdr payload (w w0 : worker X) :
  w_sent w = w_sent w0 -> w_sequence w = u64 (w_sequence w0 + 1) -> same_core w0 w ->
  hdr_sequence hdr = w_sequence w -> wire_ok (mk_wire hdr payload true true) ->
  sends w0 (snd (send_header_and_payload hdr payload w)) /\ same_core w0 (snd (send_header_and_payload hdr payload w)).
Proof.
  intros E1 E2 E3 Hs Hok. destruct (send_pair_spec hdr payload w) as (S2 & S3 & S1).
  pose proof (same_core_withheld _ _ E3) as G1. pose proof (same_core_withheld _ _ S3) as G2.
  set (w' := snd (send_header_and_payload hdr payload w)) in *.
  assert (same_core w0 w') as Hc by (unfold same_core in *; destruct_and!; split_and!; congruence).
  pose proof Hc as (C1 & _ & C3 & C4 & C5 & _).
  split; [|done]. intros Hw Hi. unfold id_ok in *. rewrite C1. split; [done|]. destruct (withheld w) eqn:Hg.
  - exists [], 1. split_and!; try done; try congruence; [by rewrite S1, E1, app_nil_r| |by left; congruence].
    rewrite S2, E2, zlen_nil. f_equal. lia.
  - destruct S1 as (ok1 & ok2 & S1). exists [mk_wire hdr payload ok1 ok2], 0. split_and!; try done; try congruence.
    + rewrite S1, E1. by rewrite <- (app_nil_r (wire_log _)) at 1.
    + by apply Forall_singleton.
    + unfold wire_sequences. simpl. by rewrite Hs, E2.
    + rewrite S2, E2, Z.add_0_r. by f_equal.
Qed.

Lemma message_header_ok m seq :
  encodable m = true -> zlen (layout m) <= VW_MAX_PAYLOAD_BYTES ->
  wire_ok (mk_wire (mk_header VW_PROTOCOL_MAGIC VW_PROTOCOL_VERSION_MAJOR (message_type m)
                      (u32 (zlen (layout m))) seq) (layout m) true true).
Proof.
  intros He Hl. pose proof (zlen_nonneg (layout m)).
  assert (u32 (zlen (layout m)) = zlen (layout m)) as E.
  { apply u32_id. unfold is_unsigned, VW_MAX_PAYLOAD_BYTES in *. lia. }
  unfold wire_ok, vw_protocol_validate_header. simpl. rewrite E. split_and!; [|done|by exists m].
  replace (VW_MAX_PAYLOAD_BYTES <? zlen (layout m)) with false by lia.
  destruct m; reflexivity.
Qed.

Lemma send_message_spec m cap (w : worker X) :
  0 <= cap <= VW_MAX_PAYLOAD_BYTES ->
  sends w (snd (send_message m cap w)) /\ same_core w (snd (send_message m cap w)).
Proof.
  intros Hc. unfold send_message. rewrite encode_payload_layout by lia.
  destruct (encodable m) eqn:He; [|by split; [apply quiet_sends|]].
  destruct (Z.leb_spec (zlen (layout m)) cap); [|by split; [apply quiet_sends|]].
  simpl. unfold next_header, modify, gets. rewrite !bind_run. simpl.
  apply send_frame_sends; simpl; try done. apply message_header_ok; [done|lia].
Qed.
Lemma sends_message m cap : 0 <= cap <= VW_MAX_PAYLOAD_BYTES -> keeps (@sends X) (send_message m cap).
Proof. intros Hc w. by apply send_message_spec. Qed.

(** A diagnostic is written as an error frame. *)
Definition blame_error (id : vw_session_id_t) (code : Z) (detail : list Z) : message :=
  ERROR (mk_error id code 1 (cpad VW_MAX_ERROR_MSG_BYTES (ztake (VW_MAX_ERROR_MSG_BYTES - 1) detail))).
Lemma diag_send_run code detail w :
  vw_worker_translation_diag_send code detail w
  = match vw_protocol_encode_payload (blame_error (s_id (w_session w)) code detail) 512 with
    | None => (false, w)
    | Some payload =>
        let r := next_header VW_MSG_ERROR (zlen payload) w in write_pair (fst r) payload (snd r)
    end.
Proof.
  unfold vw_worker_translation_diag_send, ask, gets. rewrite bind_run. cbn [fst snd]. unfold blame_error.
  destruct (vw_protocol_encode_payload _ _) as [payload|]; [|done]. rewrite bind_run.
  unfold write_pair, vw_protocol_encode_header. by change (sizeof_header <? sizeof_header) with false.
Qed.
(** While none has failed it is one. *)
Lemma diag_send_error code detail w :
  withheld w = false ->
  vw_worker_translation_diag_send code detail w = send_error (s_id (w_session w)) code 1 detail w.
Proof.
  intros Hg. rewrite diag_send_run. unfold send_error, send_message. fold (blame_error (s_id (w_session w)) code detail).
  destruct (vw_protocol_encode_payload _ _) as [payload|]; [|done]. rewrite bind_run. cbv zeta. rewrite send_pair_run.
  by replace (withheld (snd _)) with false by done.
Qed.

Definition started_message (id : vw_session_id_t) (b : bool) : message :=
  STARTED (mk_started id (if b then VW_SOURCE_ACTIVE_ACTIVE else VW_SOURCE_ACTIVE_INACTIVE)).
Lemma send_started_message id b w :
  zlen id = VW_SESSION_ID_BYTES ->
  send_started id b w = send_message (X := X) (started_message id b) (VW_SESSION_ID_BYTES + 1) w.
Proof.
  intros Hid. unfold send_started, send_message. fold (started_message id b).
  assert (zlen (layout (started_message id b)) = VW_SESSION_ID_BYTES + 1) as Hl
    by (simpl; rewrite zlen_app, zlen_le_enc, Hid; done).
  rewrite encode_payload_layout, Hl by done. change (encodable _) with true. cbn [andb].
  rewrite Z.leb_refl. change (default [] (Some ?l)) with l.
  rewrite Hl, !bind_run.
  unfold send_header_and_payload, vw_protocol_encode_header. cbn [message_type started_message Z.ltb].
  change (sizeof_header <? sizeof_header) with false. cbv iota. rewrite !bind_run.
  by destruct (fst (send_bytes _ _)).
Qed.
Lemma sends_started id b : zlen id = VW_SESSION_ID_BYTES -> keeps (@sends X) (send_started id b).
Proof. intros Hid w. rewrite send_started_message by done. by apply sends_message. Qed.

Lemma sends_modify (f : worker X -> worker X) : (forall w, same_wire w (f w)) -> keeps (@sends X) (modify f).
Proof. intros H. apply keeps_quiet, H. Qed.

Hint Resolve sends_external sends_ask : keeps.
Hint Extern 1 (keeps sends (on_session _)) => apply sends_session; done : keeps.
Hint Extern 1 (keeps sends (modify _)) => apply sends_modify; done : keeps.
Hint Extern 1 (keeps sends (send_message _ _)) => apply sends_message; done : keeps.
Lemma sends_fail_exit : keeps (@sends X) fail_exit.
Proof. unfold fail_exit. keeps_steps. Qed.
Lemma sends_set_fatal : keeps (@sends X) set_fatal.
Proof. unfold set_fatal. keeps_steps. Qed.
Hint Resolve sends_fail_exit sends_set_fatal : keeps.
Lemma sends_or_fail m : keeps (@sends X) m -> keeps sends (or_fail m).
Proof. intros. unfold or_fail. keeps_steps; done. Qed.
Lemma sends_error id code rec msg : keeps (@sends X) (send_error id code rec msg).
Proof. unfold send_error. keeps_steps. Qed.
Lemma sends_progress id a b c d m : keeps (@sends X) (vw_worker_send_model_progress id a b c d m).
Proof. unfold vw_worker_send_model_progress. keeps_steps. Qed.
Lemma sends_status id a b : keeps (@sends X) (vw_worker_send_status config id a b).
Proof. unfold vw_worker_send_status. keeps_steps. Qed.
Lemma sends_caption seg : keeps (@sends X) (vw_worker_send_caption_segment seg).
Proof. unfold vw_worker_send_caption_segment. keeps_steps. Qed.
Hint Resolve sends_or_fail sends_error sends_progress sends_status sends_caption : keeps.
Lemma sends_status_now : keeps (@sends X) (status_now config).
Proof. unfold status_now. keeps_steps. Qed.
Hint Resolve sends_status_now : keeps.
Lemma sends_deliver r : keeps (@sends X) (vw_worker_deliver_translation r).
Proof. unfold vw_worker_deliver_translation. keeps_steps. Qed.
Hint Resolve sends_deliver : keeps.
(** *** Blame *)

Lemma sends_register : keeps (@sends X) vw_worker_translation_diag_register_transport_state.
Proof. apply sends_modify. intros w. unfold same_wire, withheld. by destruct (w_diag_registered w) eqn:E; simpl; rewrite ?E. Qed.
Hint Resolve sends_register : keeps.
(** What is only done while no diagnostic has failed. *)
Lemma keeps_gated {A} (m1 m2 : M (worker X) A) :
  keeps sends m1 -> (forall w, withheld w = false -> sends w (snd (m2 w))) ->
  keeps sends (refuse ← gets withheld; if refuse : bool then m1 else m2).
Proof. intros H1 H2 w. unfold gets. rewrite bind_run. cbn [fst snd]. destruct (withheld w) eqn:E; auto. Qed.

Definition failed_last (w : worker X) : Prop := exists log bytes, w_sent w = log ++ [(bytes, false)].
Lemma mark_sends w : failed_last w -> sends w (snd (vw_worker_translation_diag_mark_transport_failed w)).
Proof.
  intros Hl Hw Hi. unfold vw_worker_translation_diag_mark_transport_failed, modify, gets. rewrite !bind_run. cbn [fst snd].
  change (w_diag_registered (w <| w_diag_failed := true |>)) with (w_diag_registered w).
  assert (u64 (w_sequence w + zlen (@nil wire_frame) + 0) = w_sequence w) as Hq
    by (rewrite zlen_nil, !Z.add_0_r; by apply u64_id).
  destruct (w_diag_registered w) eqn:E; cbn [when].
  - set (w' := snd (fail_exit _)). assert (withheld w' = true) as Hg by (unfold withheld; simpl; by rewrite E).
    split; [done|]. exists [], 0. split_and!; try done; [by rewrite app_nil_r|]. intros _. by right.
  - set (w' := snd (skip _)). assert (withheld w' = false) as Hg by (unfold withheld; simpl; by rewrite E).
    assert (withheld w = false) as Hg0 by (unfold withheld; by rewrite E).
    split; [done|]. exists [], 0. split_and!; try done; [by rewrite app_nil_r|by rewrite Hg0|by rewrite Hg].
Qed.
Lemma blame_error_fits id code detail :
  zlen id = VW_SESSION_ID_BYTES ->
  encodable (blame_error id code detail) && (zlen (layout (blame_error id code detail)) <=? 512) = true.
Proof.
  intros Hi. pose proof (zlen_ztake_le (VW_MAX_ERROR_MSG_BYTES - 1) detail ltac:(done)).
  apply andb_true_intro. split; [apply Z.ltb_lt, strnlen_cut; done|].
  change (layout (blame_error id code detail)) with (id ++ le_enc 4 code ++ le_enc 1 1
    ++ cpad VW_MAX_ERROR_MSG_BYTES (ztake (VW_MAX_ERROR_MSG_BYTES - 1) detail)).
  by rewrite !zlen_app, !zlen_le_enc, zlen_cpad, Hi by (unfold VW_MAX_ERROR_MSG_BYTES in *; lia).
Qed.
Lemma diag_send_failed code detail w :
  id_ok w -> fst (vw_worker_translation_diag_send code detail w) = false ->
  failed_last (snd (vw_worker_translation_diag_send code detail w)).
Proof.
  intros Hi. rewrite diag_send_run, encode_payload_layout, blame_error_fits by done.
  cbv zeta. set (r := next_header _ _ w). set (m := blame_error _ _ _).
  destruct (write_pair_spec (fst r) (layout m) (snd r)) as (ok1 & ok2 & S & -> & _).
  unfold failed_last. rewrite S. destruct ok1; cbn [andb wire_log wire_header_sent]; intros H0.
  - subst ok2. exists (w_sent (snd r) ++ [(header_bytes (fst r), true)]), (layout m). by rewrite <- app_assoc.
  - by exists (w_sent (snd r)), (header_bytes (fst r)).
Qed.
(** A diagnostic's frame, then what follows it. *)
Lemma diag_send_then {A} code detail (f : bool -> M (worker X) A) w :
  withheld w = false -> keeps sends (f true) -> (forall w1, failed_last w1 -> sends w1 (snd (f false w1))) ->
  sends w (snd ((sent ← vw_worker_translation_diag_send code detail; f sent) w)).
Proof.
  intros Hg Ht Hf Hw Hi. rewrite bind_run. pose proof (diag_send_failed code detail w Hi) as Hl.
  pose proof (sends_error (s_id (w_session w)) code 1 detail w) as He. rewrite <- diag_send_error in He by done.
  destruct (vw_worker_translation_diag_send code detail w) as [[] w1]; cbn [fst snd] in *;
    (refine (transitivity (R := sends) He _ Hw Hi); [apply Ht|]) || (refine (transitivity (R := sends) He _ Hw Hi); auto).
Qed.
Lemma sends_diag_deliver r w : withheld w = false -> sends w (snd (vw_worker_translation_diag_deliver r w)).
Proof.
  intros Hg. unfold vw_worker_translation_diag_deliver, ask, gets. rewrite bind_run. cbn [fst snd].
  destruct (session_blame _ r) as [[code detail]|]; [|apply sends_deliver].
  apply diag_send_then; [done|apply sends_deliver|]. intros w1 Hl. rewrite bind_run.
  etrans; [by apply mark_sends|apply sends_fail_exit].
Qed.
Lemma sends_submit_scoped a seg : keeps (@sends X) (submit_scoped a seg).
Proof.
  unfold submit_scoped. apply keeps_gated; [apply (keeps_ret sends)|]. intros w Hg.
  unfold ask, gets. rewrite bind_run. cbn [fst snd]. destruct (vw_translate_async_submit _ _ _ _) as [accepted a'].
  rewrite bind_run. set (w1 := snd (on_session _ w)). trans w1; [by apply (sends_session (fun s => s <| s_translator := Some a' |>))|].
  destruct accepted; [apply (keeps_ret sends)|]. unfold vw_worker_translation_diag_report_local_rejection.
  destruct (local_rejection_built seg) as (code & detail & ->).
  apply diag_send_then; [done|apply (keeps_ret sends)|]. intros w2 Hl. rewrite bind_run. by apply mark_sends.
Qed.
Hint Resolve sends_submit_scoped : keeps.
Lemma sends_try_deliver : keeps (@sends X) try_deliver.
Proof.
  unfold try_deliver. apply (keeps_bind sends); [apply sends_ask|]. intros [a|]; [|apply (keeps_ret sends)].
  apply (keeps_bind sends); [apply sends_register|intros _]. apply keeps_gated; [keeps_steps|]. intros w Hg.
  destruct (vw_translate_async_try_deliver a) as [[r|] a']; rewrite bind_run.
  - trans (snd (on_session (fun s => s <| s_translator := Some a' |>) w)); [by apply sends_session|]. rewrite bind_run.
    by apply sends_diag_deliver.
  - by apply (sends_session (fun s => s <| s_translator := Some a' |>)).
Qed.
Hint Resolve sends_try_deliver : keeps.
Lemma sends_deliver_all : keeps (@sends X) deliver_all.
Proof. unfold deliver_all. keeps_steps. Qed.
Lemma sends_transcribe samples : keeps (@sends X) (transcribe samples).
Proof. unfold transcribe. keeps_steps. Qed.
Lemma sends_push_segments pts held : keeps (@sends X) (push_segments pts held).
Proof. unfold push_segments, segment_indices, push_segment. keeps_steps. Qed.
Lemma sends_read_window n : keeps (@sends X) (read_window n).
Proof. unfold read_window. keeps_steps. Qed.
Lemma sends_drain_audio n : keeps (@sends X) (drain_audio n).
Proof. unfold drain_audio. keeps_steps. Qed.
Lemma sends_audio_count : keeps (@sends X) audio_count.
Proof. unfold audio_count. keeps_steps. Qed.
Hint Resolve sends_deliver_all sends_transcribe sends_push_segments sends_read_window sends_drain_audio
  sends_audio_count : keeps.
Lemma sends_flush_step : keeps (@sends X) flush_step.
Proof. unfold flush_step. keeps_steps. Qed.
Hint Resolve sends_flush_step : keeps.
Lemma sends_flush_loop fuel : keeps (@sends X) (flush_loop fuel).
Proof. induction fuel as [|fuel IH]; cbn [flush_loop]; keeps_steps; done. Qed.
Hint Resolve sends_flush_loop : keeps.
Lemma sends_flush : keeps (@sends X) vw_worker_flush_audio_tail.
Proof. unfold vw_worker_flush_audio_tail. keeps_steps. Qed.
Lemma sends_pop : keeps (@sends X) pop_segment.
Proof. unfold pop_segment. keeps_steps. Qed.
Lemma sends_submit seg : keeps (@sends X) (submit_segment seg).
Proof. unfold submit_segment. keeps_steps. Qed.
Hint Resolve sends_flush sends_pop sends_submit : keeps.
Lemma sends_emit_tail_step : keeps (@sends X) emit_tail_step.
Proof. unfold emit_tail_step. keeps_steps. Qed.
Hint Resolve sends_emit_tail_step : keeps.
Lemma sends_emit_tail_loop fuel : keeps (@sends X) (emit_tail_loop fuel).
Proof. induction fuel as [|fuel IH]; cbn [emit_tail_loop]; keeps_steps; done. Qed.
Hint Resolve sends_emit_tail_loop : keeps.
Lemma sends_emit_tail : keeps (@sends X) vw_worker_emit_tail_segments.
Proof. unfold vw_worker_emit_tail_segments. keeps_steps. Qed.
Lemma sends_reset_window : keeps (@sends X) reset_window.
Proof. unfold reset_window, reset_vad. keeps_steps. Qed.
Lemma sends_reset_vad : keeps (@sends X) reset_vad.
Proof. unfold reset_vad. keeps_steps. Qed.
Lemma sends_invalidate : keeps (@sends X) invalidate_translator.
Proof. unfold invalidate_translator. keeps_steps. Qed.
Lemma sends_close_source : keeps (@sends X) close_source.
Proof. unfold close_source. keeps_steps. Qed.
Hint Resolve sends_emit_tail sends_reset_window sends_reset_vad sends_invalidate sends_close_source : keeps.
Lemma sends_discard : keeps (@sends X) discard_session.
Proof. unfold discard_session. keeps_steps. Qed.
Lemma sends_open_source start : keeps (@sends X) (open_source start).
Proof. unfold open_source. keeps_steps. Qed.
Hint Resolve sends_discard sends_open_source sends_started : keeps.
Lemma sends_start_fields start :
  zlen (start_session_id start) = VW_SESSION_ID_BYTES -> keeps (@sends X) (on_session (start_fields start)).
Proof. intros Hid. by apply keeps_quiet. Qed.
Hint Resolve sends_start_fields : keeps.
Lemma sends_start start : zlen (start_session_id start) = VW_SESSION_ID_BYTES -> keeps (@sends X) (handle_start config start).
Proof. intros Hid. unfold handle_start. keeps_steps. Qed.
Lemma sends_position p : keeps (@sends X) (handle_position config p).
Proof. unfold handle_position, position_pause, position_source. keeps_steps. Qed.
Lemma sends_infer samples pts live : keeps (@sends X) (infer_window samples pts live).
Proof. unfold infer_window. keeps_steps. Qed.
Hint Resolve sends_infer : keeps.
Lemma sends_window_step : keeps (@sends X) (audio_window_step config).
Proof. unfold audio_window_step. keeps_steps. Qed.
Hint Resolve sends_window_step : keeps.
Lemma sends_audio p : keeps (@sends X) (handle_audio config p).
Proof. unfold handle_audio. keeps_steps. Qed.
Lemma sends_pause c : keeps (@sends X) (handle_pause config c).
Proof. unfold handle_pause, for_session. keeps_steps. Qed.
Lemma sends_resume c : keeps (@sends X) (handle_resume config c).
Proof. unfold handle_resume, for_session. keeps_steps. Qed.
Lemma sends_drain_translation : keeps (@sends X) vw_worker_drain_translation.
Proof. unfold vw_worker_drain_translation, drain_step. keeps_steps. Qed.
Lemma sends_finish_tail msg after : keeps (@sends X) after -> keeps sends (finish_tail msg after).
Proof. intros. unfold finish_tail. keeps_steps; done. Qed.
Hint Resolve sends_drain_translation sends_finish_tail : keeps.
Hint Extern 1 (keeps _ skip) => apply (keeps_skip sends) : keeps.
Lemma sends_stop c : keeps (@sends X) (handle_stop config c).
Proof. unfold handle_stop. keeps_steps. apply sends_or_fail. keeps_steps. Qed.
Lemma sends_shutdown : keeps (@sends X) (handle_shutdown config).
Proof. unfold handle_shutdown. keeps_steps. Qed.
Lemma sends_translate_ctrl p : keeps (@sends X) (handle_translate_ctrl p).
Proof. unfold handle_translate_ctrl. keeps_steps. Qed.
Lemma sends_progress_session id : keeps (@sends X) (progress_session id).
Proof. unfold progress_session. keeps_steps. Qed.
Hint Resolve sends_progress_session : keeps.
Lemma sends_refuse p id : keeps (@sends X) (refuse_download p id).
Proof. unfold refuse_download. keeps_steps. Qed.
Hint Resolve sends_refuse : keeps.
Lemma sends_model_ctrl p ready : keeps (@sends X) (handle_model_ctrl p ready).
Proof. unfold handle_model_ctrl, start_download. keeps_steps. Qed.
Hint Resolve sends_start sends_position sends_audio sends_pause sends_resume sends_stop sends_shutdown
  sends_translate_ctrl sends_model_ctrl : keeps.
Lemma sends_handle_message m ready : start_id_ok m -> keeps (@sends X) (handle_message config m ready).
Proof. intros Hm. destruct m; simpl; try (apply (keeps_skip sends)); auto with keeps. Qed.
Lemma sends_poll : keeps (@sends X) poll_download.
Proof. unfold poll_download, send_progress. keeps_steps. Qed.
Lemma sends_lookahead_step : keeps (@sends X) (lookahead_step config).
Proof. unfold lookahead_step. keeps_steps. Qed.
Hint Resolve sends_lookahead_step : keeps.
Lemma sends_source_step : keeps (@sends X) (source_step config).
Proof. unfold source_step, source_chunk. keeps_steps. Qed.
Lemma sends_emit_step : keeps (@sends X) emit_step.
Proof. unfold emit_step. keeps_steps. Qed.
Hint Resolve sends_emit_step : keeps.
Lemma sends_emit : keeps (@sends X) emit_segments.
Proof. unfold emit_segments. keeps_steps. Qed.
Hint Resolve sends_handle_message sends_poll sends_source_step sends_emit : keeps.
End sending.

(** ** The loop and the system *)

Section system.
Context {X : Type} `{!WorkerEnv X} (config : vw_worker_config_t) (ready : bool).
Implicit Types w : worker X.

Definition same_link w w' : Prop :=
  w_sent w' = w_sent w /\ w_sequence w' = w_sequence w /\ w_authenticated w' = w_authenticated w
  /\ w_running w' = w_running w /\ w_fatal w' = w_fatal w /\ w_engine w' = w_engine w
  /\ w_queue w' = w_queue w /\ w_model_dl w' = w_model_dl w.
Definition same_session (s s' : session) : Prop := s' = s <| s_translator := s_translator s' |>.

(** Nothing is going on: no session, no pending cue, no download, no failed diagnostic. *)
Definition dormant w : Prop :=
  s_active (w_session w) = false /\ sb_count (s_builder (w_session w)) = 0 /\ w_model_dl w = false
  /\ w_diag_failed w = false.
(** Out of a dormant state only the translator and the environment change. *)
Definition calm w w' : Prop :=
  dormant w -> dormant w' /\ same_link w w' /\ same_session (w_session w) (w_session w').

#[local] Instance calm_preorder : PreOrder calm.
Proof.
  split.
  - intros w Hw. split_and!; try done. unfold same_session. by destruct (w_session w).
  - intros w1 w2 w3 H1 H2 Hw. destruct (H1 Hw) as (D2 & L2 & S2). destruct (H2 D2) as (D3 & L3 & S3).
    unfold same_link, same_session in *. destruct_and!. split_and!; try congruence; try done.
    rewrite S3, S2. by destruct (w_session w1).
Qed.

Lemma calm_register : keeps calm vw_worker_translation_diag_register_transport_state.
Proof.
  intros w Hw. unfold vw_worker_translation_diag_register_transport_state, modify. cbn [snd].
  destruct (w_diag_registered w); [by apply calm_preorder|]. destruct Hw as (H1 & H2 & H3 & H4). split_and!; try done.
  unfold same_session. simpl. by destruct (w_session w).
Qed.
Lemma calm_gated {A} (m1 m2 : M (worker X) A) :
  keeps calm m2 -> keeps calm (refuse ← gets withheld; if refuse : bool then m1 else m2).
Proof.
  intros H w Hw. unfold gets. rewrite bind_run. cbn [fst snd].
  replace (withheld w) with false; [by apply H|]. unfold withheld. destruct Hw as (_ & _ & _ & ->). by rewrite andb_false_r.
Qed.
Lemma calm_try_deliver : keeps calm try_deliver.
Proof.
  unfold try_deliver. apply (keeps_bind calm); [apply (keeps_gets calm)|]. intros [a|]; [|apply (keeps_ret calm)].
  apply (keeps_bind calm); [apply calm_register|intros _]. apply calm_gated.
  destruct (vw_translate_async_try_deliver a) as [r a']. intros w Hw. rewrite bind_run. simpl.
  destruct Hw as (H1 & H2 & H3 & H4).
  destruct r as [r|]; [|by split_and!].
  rewrite bind_run. unfold vw_worker_translation_diag_deliver, ask, gets. rewrite bind_run. unfold session_blame. simpl.
  rewrite H1. simpl. unfold vw_worker_deliver_translation, ask, gets. rewrite bind_run. simpl.
  rewrite H1. simpl. by split_and!.
Qed.
Lemma calm_deliver_all : keeps calm deliver_all.
Proof. apply (keeps_loop calm), calm_try_deliver. Qed.
Lemma calm_poll : keeps calm poll_download.
Proof.
  intros w Hw. unfold poll_download, gets. rewrite bind_run. simpl. destruct Hw as (H1 & H2 & H3 & H4).
  rewrite H3. simpl. by apply calm_preorder.
Qed.
Lemma calm_source : keeps calm (source_step config).
Proof.
  intros w Hw. unfold source_step, ask, gets. rewrite bind_run. simpl. destruct Hw as (H1 & H2 & H3 & H4).
  unfold source_due. rewrite H1. simpl. by apply calm_preorder.
Qed.
Lemma pop_none w : sb_count (s_builder (w_session w)) = 0 -> pop_segment w = (None, w).
Proof.
  intros H. unfold pop_segment, ask, gets. rewrite bind_run. simpl. unfold vw_segment_builder_pop.
  rewrite H. simpl. rewrite bind_run. simpl. destruct w as [s]. simpl. by destruct s.
Qed.
Lemma calm_emit : keeps calm emit_segments.
Proof.
  intros w Hw. unfold emit_segments, ask, gets. rewrite bind_run. simpl. destruct Hw as (H1 & H2 & H3 & H4).
  rewrite H2. cbn [loop Z.to_nat]. rewrite bind_run. unfold emit_step. rewrite bind_run.
  rewrite pop_none by done. simpl. by apply calm_preorder.
Qed.

(** The part of an iteration after the handler. *)
Definition iteration_rest : M (worker X) bool :=
  deliver_all ;;
  poll_download ;;
  go ← source_step config;
  if negb go then mret false else emit_segments ;; deliver_all ;; mret true.
Lemma calm_rest : keeps calm iteration_rest.
Proof.
  unfold iteration_rest. apply (keeps_bind calm); [apply calm_deliver_all|intros _].
  apply (keeps_bind calm); [apply calm_poll|intros _].
  apply (keeps_bind calm); [apply calm_source|intros go].
  destruct (negb go); [apply (keeps_ret calm)|].
  apply (keeps_bind calm); [apply calm_emit|intros _].
  apply (keeps_bind calm); [apply calm_deliver_all|intros _]. apply (keeps_ret calm).
Qed.
Lemma sends_rest : keeps (@sends X) iteration_rest.
Proof.
  unfold iteration_rest. apply (keeps_bind sends); [apply sends_deliver_all|intros _].
  apply (keeps_bind sends); [apply sends_poll|intros _].
  apply (keeps_bind sends); [apply sends_source_step|intros go].
  destruct (negb go); [apply (keeps_ret sends)|].
  apply (keeps_bind sends); [apply sends_emit|intros _].
  apply (keeps_bind sends); [apply sends_deliver_all|intros _]. apply (keeps_ret sends).
Qed.

(** The HELLO the worker accepts. *)
Definition hello_ok (m : message) : Prop :=
  exists hello, m = HELLO hello
    /\ hello_min_major hello <= VW_PROTOCOL_VERSION_MAJOR <= hello_max_major hello
    /\ verify_token_constant_time (cfg_auth_token config) (hello_auth_token hello) = true.

(** A frame that ends the worker before authentication. *)
Definition refused w (r : outcome * worker X) : Prop :=
  fst r = ExitLoop /\ w_session (snd r) = w_session w /\ w_model_dl (snd r) = w_model_dl w
  /\ w_fatal (snd r) = true /\ sends w (snd r).
(** A HELLO that is answered: the acknowledgement has number 1. *)
Definition accepted w (r : outcome * worker X) : Prop :=
  (fst r = NextIteration \/ fst r = ExitLoop) /\ w_session (snd r) = w_session w
  /\ w_model_dl (snd r) = w_model_dl w /\ w_authenticated (snd r) = true /\ w_sequence (snd r) = w_sequence w
  /\ w_diag_failed (snd r) = w_diag_failed w
  /\ exists a, wire_ok a /\ hdr_sequence (wire_header a) = 1 /\ w_sent (snd r) = w_sent w ++ wire_log a.

Lemma exit_refused w : refused w ((set_fatal ;; mret ExitLoop) w).
Proof. split_and!; try done. by apply quiet_sends. Qed.

Lemma error_refused id code rec msg w :
  refused w ((send_error id code rec msg ;; set_fatal ;; mret ExitLoop) w).
Proof.
  rewrite bind_run. unfold send_error. set (m := ERROR _).
  pose proof (send_message_spec m 512 w) as [S1 S2]; [done|]. unfold same_core in S2. destruct_and!.
  split_and!; simpl; try congruence. etrans; [exact S1|by apply quiet_sends].
Qed.

Lemma hello_ack_accepted w : w_authenticated w = true -> w_diag_failed w = false -> accepted w (send_hello_ack w).
Proof.
  intros Ha Hg. unfold send_hello_ack. rewrite encode_payload_layout by done.
  assert (encodable hello_ack && (zlen (layout hello_ack) <=? 256) = true) as -> by (vm_compute; reflexivity).
  rewrite bind_run. set (hdr := mk_header _ _ _ _ 1).
  destruct (send_pair_spec hdr (layout hello_ack) w) as (S2 & S3 & S1).
  replace (withheld w) with false in S1 by (unfold withheld; by rewrite Hg, andb_false_r).
  destruct S1 as (ok1 & ok2 & S1).
  assert (wire_ok (mk_wire hdr (layout hello_ack) ok1 ok2)) as Hok.
  { apply (message_header_ok hello_ack 1); vm_compute; congruence. }
  set (r := send_header_and_payload hdr (layout hello_ack) w) in *. unfold same_core in S3. destruct_and!.
  destruct (fst r); (split_and!; [by auto|try done; simpl; congruence..|]);
    (exists (mk_wire hdr (layout hello_ack) ok1 ok2); split_and!; done).
Qed.

Lemma unauthenticated_message m w :
  w_authenticated w = false -> w_diag_failed w = false ->
  refused w (handle_unauthenticated config m w)
  \/ hello_ok m /\ accepted (w <| w_authenticated := true |>) (handle_unauthenticated config m w).
Proof.
  intros Ha Hg. unfold handle_unauthenticated. destruct m as [hello|?|?|?|?|?|?|?|?|?| |?|?|?|?|?];
    try (left; apply exit_refused).
  destruct (Z.ltb_spec VW_PROTOCOL_VERSION_MAJOR (hello_min_major hello)) as [H1|H1];
  destruct (Z.ltb_spec (hello_max_major hello) VW_PROTOCOL_VERSION_MAJOR) as [H2|H2]; cbn [orb].
  1-3: left; apply error_refused.
  destruct (verify_token_constant_time _ _) eqn:Ev; cbn [negb]; [|left; apply exit_refused].
  right. split; [by exists hello|]. rewrite bind_run. by apply hello_ack_accepted.
Qed.

Lemma unauthenticated_frame f w :
  w_authenticated w = false -> w_diag_failed w = false ->
  refused w (handle_frame config f ready w)
  \/ (exists m, decode_frame f = Some m /\ hello_ok m)
     /\ accepted (w <| w_authenticated := true |>) (handle_frame config f ready w).
Proof.
  intros Ha Hg. unfold handle_frame, gets. rewrite bind_run. cbn [fst snd]. rewrite Ha.
  destruct (decode_frame f) as [m|] eqn:Ed.
  - destruct (vw_protocol_validate_payload m); cbn [negb].
    + destruct (unauthenticated_message m w Ha Hg) as [|[Hm Hr]]; [by left|right]. split; [by exists m|done].
    + left. unfold handle_invalid. destruct m; apply exit_refused.
  - left. destruct (_ && _); cbn [negb]; apply exit_refused.
Qed.

Lemma decode_frame_start f m : decode_frame f = Some m -> start_id_ok m.
Proof.
  unfold decode_frame, vw_protocol_decode_payload. intros H. apply bind_Some in H as (p & _ & H).
  destruct (decode_message _ _) as [[m' [|]]|] eqn:E; try done. injection H as <-.
  by eapply decode_message_start.
Qed.
Lemma sends_authenticated_frame f w : w_authenticated w = true -> sends w (snd (handle_frame config f ready w)).
Proof.
  intros Ha. unfold handle_frame, gets. rewrite bind_run. cbn [fst snd]. rewrite Ha.
  destruct (decode_frame f) as [m|] eqn:Ed.
  - pose proof (decode_frame_start f m Ed) as Hm. destruct (vw_protocol_validate_payload m); cbn [negb].
    + apply (keeps_bind sends); [by apply sends_handle_message|intros _; apply (keeps_ret sends)].
    + unfold handle_invalid. destruct m; try by apply (keeps_quiet (set_fatal ;; mret ExitLoop)).
      destruct (true && _); [|by apply (keeps_quiet (set_fatal ;; mret ExitLoop))].
      apply (keeps_bind sends); [apply sends_error|intros []; [apply (keeps_ret sends)|]].
      by apply (keeps_quiet (set_fatal ;; mret ExitLoop)).
  - destruct (_ && _); cbn [negb].
    + apply (keeps_bind sends); [by apply (sends_handle_message config SHUTDOWN)|intros _; apply (keeps_ret sends)].
    + by apply (keeps_quiet (set_fatal ;; mret ExitLoop)).
Qed.

(** ** What has been sent in any reachable state *)

(** The frames so far, numbered from [first]. *)
Definition sent_from (first : Z) (fs : list wire_frame) w : Prop :=
  w_sent w = concat (map wire_log fs) /\ Forall wire_ok fs
  /\ wire_sequences fs = map u64 (seqZ first (zlen fs)).

(** Once frames are withheld their numbers are used up too. *)
Definition numbered_to (last : Z) w : Prop :=
  exists n, w_sequence w = u64 (last + n) /\ 0 <= n /\ (0 < n -> withheld w = true).
Record wire_inv w : Prop := {
  wi_authenticated : w_authenticated w = true ->
    exists fs, sent_from 1 fs w /\ numbered_to (zlen fs) w;
  wi_waiting : w_authenticated w = false -> w_running w = true ->
    w_sent w = [] /\ w_sequence w = 1 /\ dormant w;
  wi_refused : w_authenticated w = false -> exists fs, sent_from 2 fs w;
  wi_id : id_ok w;
  wi_halted : withheld w = true -> halted w
}.

Lemma sent_from_sends first fs w w' :
  sent_from first fs w -> numbered_to (first - 1 + zlen fs) w -> id_ok w -> sends w w' ->
  exists fs', sent_from first fs' w' /\ numbered_to (first - 1 + zlen fs') w' /\ w_authenticated w' = w_authenticated w.
Proof.
  intros (S1 & S2 & S3) (n & Hq & Hn & Hg) Hi Hs.
  destruct Hs as (_ & f2 & n2 & T1 & T2 & T3 & T4 & T5 & T6 & T7 & _ & _ & _ & T8); [rewrite Hq; apply mod_unsigned; lia|done|].
  pose proof (zlen_nonneg fs). pose proof (zlen_nonneg f2).
  exists (fs ++ f2). split; [split_and!|split; [|done]].
  - by rewrite T1, S1, map_app, concat_app.
  - by apply Forall_app.
  - destruct (decide (0 < n)) as [Hp|Hp]; [destruct (T7 (Hg Hp)) as [-> _]; by rewrite app_nil_r|].
    unfold wire_sequences in *. rewrite map_app, S3, T3, zlen_app, seqZ_app, map_app by lia. f_equal.
    replace (first + zlen fs) with (first - 1 + zlen fs + 1) by lia.
    rewrite <- (fmap_add_seqZ (first - 1 + zlen fs) 1), <- list_fmap_compose.
    apply list_fmap_ext. intros ? k _. simpl. rewrite Hq, u64_add. f_equal. lia.
  - exists (n + n2). split_and!; [|lia|].
    + rewrite T4, Hq, <- Z.add_assoc, u64_add, zlen_app. f_equal. lia.
    + intros Hp. destruct (decide (0 < n2)); [auto|]. apply T7, Hg. lia.
Qed.

Lemma sends_halted w w' :
  is_unsigned 64 (w_sequence w) -> id_ok w -> (withheld w = true -> halted w) -> sends w w' ->
  id_ok w' /\ (withheld w' = true -> halted w').
Proof.
  intros Hw Hi Hh Hs. destruct (Hs Hw Hi) as (Hi' & fs & n & S & _ & _ & _ & _ & _ & B & C & F & R & _). split; [done|].
  intros Hg. destruct (C Hg) as [Hg0|]; [|done]. destruct (B Hg0) as [-> _].
  apply (halted_stays w); [auto|by rewrite S, app_nil_r|done..].
Qed.
Lemma wire_inv_sends w w' : w_authenticated w = true -> wire_inv w -> sends w w' -> wire_inv w'.
Proof.
  intros Ha [I1 _ _ I4 I5] Hs. destruct (I1 Ha) as (fs & F & Q).
  destruct (sent_from_sends 1 fs w w' F) as (fs' & F' & Q' & A'); [done|done|done|].
  destruct (sends_halted w w') as [H4 H5]; [destruct Q as (n & -> & _); apply mod_unsigned; lia|done..|].
  rewrite Ha in A'. split; [|congruence|congruence|done..]. intros _. by exists fs'.
Qed.
(** Changes outside of what is sent. *)
Lemma wire_inv_quiet w w' :
  same_wire w w' -> (dormant w -> dormant w') -> wire_inv w -> wire_inv w'.
Proof.
  intros (E1 & E2 & E3 & E4 & Hf & Hr & Hid) Hd [I1 I2 I3 I4 I5]. unfold sent_from, numbered_to in *.
  split; unfold sent_from, numbered_to; rewrite ?E1, ?E2, ?E3, ?E4; [done|intros Ha Hw|done|auto|].
  - destruct (I2 Ha (Hr Hw)) as (? & ? & ?). auto.
  - intros Hg. by apply (halted_stays w); auto.
Qed.

Lemma wire_inv_stop w : wire_inv w -> wire_inv (w <| w_running := false |>).
Proof. by apply wire_inv_quiet. Qed.

Lemma wire_inv_start audio queue translator engine x :
  wire_inv (worker_start (X := X) audio queue translator engine x).
Proof. split; simpl; try done. intros _. exists []. by split_and!. Qed.

Lemma main_iteration_some f w :
  main_iteration config (Some f) ready w =
  let '(out, w) := handle_frame config f ready w in
  match out with ExitLoop => (false, w) | NextIteration => (true, w) | GoOn => iteration_rest w end.
Proof. unfold main_iteration. rewrite bind_run. by destruct (handle_frame config f ready w) as [[] ?]. Qed.

Lemma wire_inv_iterates frame w :
  w_running w = true -> wire_inv w -> wire_inv (worker_iterates config frame ready w).
Proof.
  intros Hr Hi. unfold worker_iterates.
  assert (forall r : bool * worker X, wire_inv (snd r) -> wire_inv (let '(go, w) := r in if go then w else w <| w_running := false |>))
    as Hend by (intros [[] ?] H; [done|by apply wire_inv_stop]).
  destruct (w_authenticated w) eqn:Ha.
  { apply Hend. apply (wire_inv_sends w); [done..|]. destruct frame as [f|].
    - rewrite main_iteration_some. pose proof (sends_authenticated_frame f w Ha) as Hf.
      destruct (handle_frame config f ready w) as [[] w1]; simpl in *; [|done..].
      etrans; [exact Hf|apply sends_rest].
    - apply sends_rest. }
  destruct (wi_waiting _ Hi Ha Hr) as (Hs & Hq & Hd). pose proof Hd as (_ & _ & _ & Hg).
  assert (withheld w = false) as Hw by (unfold withheld; by rewrite Hg, andb_false_r). destruct frame as [f|].
  - rewrite main_iteration_some. destruct (unauthenticated_frame f w Ha Hg) as [Hx|[_ Hx]];
      destruct (handle_frame config f ready w) as [out w1]; unfold refused, accepted in Hx; simpl in Hx.
    + destruct Hx as (-> & H1 & H2 & H3 & H4). simpl.
      assert (sent_from 2 [] w) as F0 by (by split_and!).
      destruct (sent_from_sends 2 [] w w1 F0) as (fs & F & Q & A); [by exists 0|apply Hi|done|].
      destruct (sends_halted w w1) as [H5 H6]; [by rewrite Hq|apply Hi|by rewrite Hw|done|].
      rewrite Ha in A. split; simpl; [congruence|done| |done|].
      * intros _. by exists fs.
      * intros Hg1. apply (halted_stays w1); [by apply H6|done..].
    + destruct Hx as (Ho & H1 & H2 & H3 & H4 & H5 & a & W1 & W2 & W3).
      assert (wire_inv w1) as Hi1.
      { split; [|congruence|congruence|unfold id_ok; rewrite H1; apply Hi|unfold withheld; by rewrite H5, Hg, andb_false_r]. intros _. exists [a]. split; [split_and!|by exists 0; rewrite H4, Hq].
        - rewrite W3, Hs. cbn [map concat app]. by rewrite app_nil_r.
        - by apply Forall_singleton.
        - unfold wire_sequences. simpl. by rewrite W2. }
      destruct Ho as [-> | ->]; [done|by apply wire_inv_stop].
  - apply Hend. destruct (calm_rest w Hd) as (D & L & S). change (main_iteration config None ready w) with (iteration_rest w).
    unfold same_link in L. destruct_and!. apply (wire_inv_quiet w); [|done|done]. split_and!; try congruence.
    + rewrite Hw. unfold withheld. destruct D as (_ & _ & _ & ->). by rewrite andb_false_r.
    + unfold id_ok. unfold same_session in S. by rewrite S.
Qed.

Lemma wire_inv_step w w' : worker_step config ready w w' -> wire_inv w -> wire_inv w'.
Proof.
  intros Hs Hi. destruct Hs as [w f q Hr _|w Hr _|w type payload len|w|w a x' Ht].
  - apply wire_inv_iterates; [done|]. by apply (wire_inv_quiet w).
  - by apply wire_inv_iterates.
  - by apply (wire_inv_quiet w).
  - by apply (wire_inv_quiet w).
  - by apply (wire_inv_quiet w).
Qed.
Lemma wire_inv_reach w0 w : wire_inv w0 -> rtc (worker_step config ready) w0 w -> wire_inv w.
Proof. intros H0 Hr. induction Hr as [|w1 w2 w3 Hs _ IH]; [done|]. by apply IH, (wire_inv_step w1). Qed.

(** ** Reception and authentication *)

(** A sent header is what the receiver decodes. *)
Lemma wire_ok_wf f :
  wire_ok f -> is_unsigned 64 (hdr_sequence (wire_header f)) -> wf_header (wire_header f).
Proof.
  intros (Hv & Hl & m & Ht & _) Hs. pose proof (zlen_nonneg (wire_payload f)).
  unfold vw_protocol_validate_header in Hv. case_ifs Hv. bool_to_prop.
  unfold wf_header, is_unsigned in *. rewrite Hl in *.
  destruct m; simpl in Ht; autounfold with vw_consts in *; split_and!; lia.
Qed.
Lemma wire_ok_decodes f :
  wire_ok f -> is_unsigned 64 (hdr_sequence (wire_header f)) ->
  vw_protocol_decode_header (header_bytes (wire_header f)) = Some (wire_header f).
Proof.
  intros Hok Hs. unfold vw_protocol_decode_header.
  rewrite <- (app_nil_r (header_bytes _)), decode_header_bytes by (by apply wire_ok_wf).
  by destruct Hok as [-> _].
Qed.

Lemma fold_lor_zero a b l : forall d,
  fold_left (fun diff i => Z.lor diff (Z.lxor (znth a i) (znth b i))) l d = 0 <->
  d = 0 /\ Forall (fun i => znth a i = znth b i) l.
Proof.
  induction l as [|i l IH]; intros d; cbn [fold_left]; [split; [by intros ->|by intros [-> _]]|].
  rewrite (IH _). rewrite Z.lor_eq_0_iff, Z.lxor_eq_0_iff, Forall_cons_iff. tauto.
Qed.
Lemma differences_zero n a b :
  zlen a = n -> zlen b = n ->
  fold_left (fun diff i => Z.lor diff (Z.lxor (znth a i) (znth b i))) (seqZ 0 n) 0 = 0 -> a = b.
Proof.
  intros Ha Hb H. apply fold_lor_zero in H as [_ H]. apply (nth_ext _ _ 0 0); [unfold zlen in *; lia|]. intros k Hk.
  rewrite list.Forall_forall in H. specialize (H (Z.of_nat k)). unfold znth in H. rewrite Nat2Z.id in H.
  apply H, elem_of_seqZ. unfold zlen in *. lia.
Qed.
#[local] Strategy expand [verify_token_constant_time].
Lemma verify_token_spec a b :
  zlen a = VW_AUTH_TOKEN_BYTES -> zlen b = VW_AUTH_TOKEN_BYTES ->
  verify_token_constant_time a b = true -> a = b.
Proof.
  intros Ha Hb H. unfold verify_token_constant_time in H. apply Z.eqb_eq in H.
  exact (differences_zero VW_AUTH_TOKEN_BYTES a b Ha Hb H).
Qed.
End system.

(** ** Properties *)

(** C17: Whatever arrives, everything the worker hands to its transport is a sequence
    of frames that the receiver's header decoder accepts, each announcing exactly
    its payload and each payload the layout of a message of the announced type.
    The frames are numbered without gaps, the HELLO acknowledgement being number
    1, and without it at most an error is sent. *)
Theorem worker_wire_ok {X} `{!WorkerEnv X} (config : vw_worker_config_t) (ready : bool)
    audio queue translator engine (x : X) w :
  rtc (worker_step config ready) (worker_start audio queue translator engine x) w ->
  exists first fs,
    w_sent w = concat (map wire_log fs)
    /\ Forall (fun f => wire_ok f /\ vw_protocol_decode_header (header_bytes (wire_header f)) = Some (wire_header f)) fs
    /\ wire_sequences fs = map u64 (seqZ first (zlen fs))
    /\ first = (if w_authenticated w then 1 else 2).
Proof.
  intros Hr. apply wire_inv_reach in Hr as [I1 _ I3 _ _]; [|apply wire_inv_start].
  assert (exists fs, sent_from (if w_authenticated w then 1 else 2) fs w) as (fs & S1 & S2 & S3).
  { destruct (w_authenticated w); [by destruct I1 as (fs & ? & _); [|exists fs]|by apply I3]. }
  exists (if w_authenticated w then 1 else 2), fs. split_and!; try done.
  apply Forall_lookup_2. intros i f Hf. rewrite Forall_lookup in S2. pose proof (S2 i f Hf) as Hok.
  split; [done|]. apply wire_ok_decodes; [done|].
  assert (wire_sequences fs !! i = Some (hdr_sequence (wire_header f))) as Hs
    by (unfold wire_sequences; by rewrite list_lookup_fmap, Hf).
  rewrite S3 in Hs. apply list_lookup_fmap_Some in Hs as (k & -> & _). apply mod_unsigned. lia.
Qed.

(** C18: Before authentication nothing happens: a step leaves the session as it was
    (only the idle translator may change), and the worker becomes authenticated
    only by a HELLO that offers its protocol version and carries its token. *)
Theorem worker_auth_gate {X} `{!WorkerEnv X} (config : vw_worker_config_t) (ready : bool)
    audio queue translator engine (x : X) w w' :
  zlen (cfg_auth_token config) = VW_AUTH_TOKEN_BYTES ->
  rtc (worker_step config ready) (worker_start audio queue translator engine x) w ->
  worker_step config ready w w' -> w_authenticated w = false ->
  same_session (w_session w) (w_session w')
  /\ (w_authenticated w' = true ->
      exists f q hello, vw_worker_queue_pop (w_queue w) = (Some f, q)
        /\ decode_frame f = Some (HELLO hello)
        /\ hello_auth_token hello = cfg_auth_token config
        /\ hello_min_major hello <= VW_PROTOCOL_VERSION_MAJOR <= hello_max_major hello).
Proof.
  intros Htok Hr Hs Ha. apply wire_inv_reach in Hr as [_ I2 _ I4 _]; [|apply wire_inv_start].
  assert (forall s, same_session s s) as Hrefl by (intros []; done).
  destruct Hs as [w f q Hrun Hpop|w Hrun _|w type payload len|w|w a x' Ht].
  - unfold worker_iterates. rewrite main_iteration_some. set (w0 := w <| w_queue := q |>).
    destruct (I2 Ha Hrun) as (_ & Hq & _ & _ & _ & Hg). destruct (unauthenticated_frame config ready f w0 Ha Hg) as [Hx|[(m & Hd & hello & -> & Hv & Htk) Hx]];
      destruct (handle_frame config f ready w0) as [out w1]; unfold refused, accepted in Hx; simpl in Hx.
    + destruct Hx as (-> & H1 & _ & _ & H4). simpl. rewrite H1. split; [done|].
      destruct H4 as (_ & fs & n & S); [subst w0; simpl; by rewrite Hq|done|]. unfold sent_frames in S. destruct_and!.
      simpl in *. congruence.
    + destruct Hx as (Ho & H1 & _ & _ & _ & _ & _). split; [destruct Ho as [-> | ->]; simpl; by rewrite H1|].
      intros _. exists f, q, hello. split_and!; try done; try lia.
      symmetry. apply verify_token_spec; try done. exact (decode_frame_start f (HELLO hello) Hd).
  - destruct (I2 Ha Hrun) as (_ & _ & Hd). unfold worker_iterates.
    destruct (calm_rest config w Hd) as (_ & L & S). unfold same_link in L. destruct_and!.
    change (main_iteration config None ready w) with (iteration_rest config w).
    destruct (iteration_rest config w) as [[] w1]; simpl in *; (split; [done|congruence]).
  - split; [done|]. simpl. congruence.
  - split; [done|]. simpl. congruence.
  - split; [done|]. simpl. congruence.
Qed.

(** ** Witnesses *)

(** A HELLO that arrives and is answered. *)
Definition demo_hello : list Z :=
  layout (HELLO (mk_hello 1 1 (cfg_auth_token vw_worker_config_init_defaults) 0 (Some []))).
Definition demo_worker0 : worker unit :=
  worker_start (default (mk_abuf [] 1 0 0 0 0 0) (vw_audio_buffer_create 8))
    (default (mk_wq [] 1 0 0 0 0) (vw_worker_queue_create 4)) None None tt.
Definition demo_worker1 : worker unit :=
  demo_worker0 <| w_queue := snd (vw_worker_queue_push (w_queue demo_worker0) VW_MSG_HELLO
                                    (Some demo_hello) (zlen demo_hello)) |>.
Definition demo_frame : vw_worker_frame_t := mk_frame VW_MSG_HELLO (zlen demo_hello) (Some demo_hello).
Definition demo_worker2 : worker unit :=
  worker_iterates vw_worker_config_init_defaults (Some demo_frame) true
    (demo_worker1 <| w_queue := snd (vw_worker_queue_pop (w_queue demo_worker1)) |>).

Lemma demo_receives : worker_step vw_worker_config_init_defaults true demo_worker0 demo_worker1.
Proof. apply step_receive. Qed.
Lemma demo_authenticates : worker_step vw_worker_config_init_defaults true demo_worker1 demo_worker2.
Proof. apply step_frame; vm_compute; reflexivity. Qed.

Lemma worker_wire_ok_witness :
  rtc (worker_step vw_worker_config_init_defaults true) demo_worker0 demo_worker2
  /\ w_authenticated demo_worker2 = true /\ zlen (w_sent demo_worker2) = 2
  /\ exists first fs, w_sent demo_worker2 = concat (map wire_log fs)
       /\ first = (if w_authenticated demo_worker2 then 1 else 2).
Proof.
  assert (rtc (worker_step vw_worker_config_init_defaults true) demo_worker0 demo_worker2) as Hr
    by (eapply rtc_l; [apply demo_receives|]; eapply rtc_l; [apply demo_authenticates|apply rtc_refl]).
  split_and!; [exact Hr|vm_compute; reflexivity|vm_compute; reflexivity|].
  destruct (worker_wire_ok vw_worker_config_init_defaults true _ _ _ _ _ demo_worker2 Hr)
    as (first & fs & H1 & _ & _ & H4).
  exists first, fs. by split.
Defined.

Lemma worker_auth_gate_witness :
  w_authenticated demo_worker1 = false /\ w_authenticated demo_worker2 = true
  /\ exists f q hello, vw_worker_queue_pop (w_queue demo_worker1) = (Some f, q)
       /\ decode_frame f = Some (HELLO hello)
       /\ hello_auth_token hello = cfg_auth_token vw_worker_config_init_defaults
       /\ hello_min_major hello <= VW_PROTOCOL_VERSION_MAJOR <= hello_max_major hello.
Proof.
  split_and!; [reflexivity|vm_compute; reflexivity|].
  apply (worker_auth_gate vw_worker_config_init_defaults true
    (default (mk_abuf [] 1 0 0 0 0 0) (vw_audio_buffer_create 8))
    (default (mk_wq [] 1 0 0 0 0) (vw_worker_queue_create 4)) None None tt demo_worker1 demo_worker2).
  - reflexivity.
  - eapply rtc_l; [apply demo_receives|apply rtc_refl].
  - apply demo_authenticates.
  - reflexivity.
  - vm_compute. reflexivity.
Defined.
