(* ===== verification/WorkerLifecycle.v ===== *)
(** * The session's life

    The invariant of the session loop: what a session holds while it plays, while
    it is paused and when there is none. The captions sent in a step are those of
    the session the step is in, the tail of the audio is used up at the end of the
    media, and messages of other sessions change nothing. *)

From stdpp Require Import relations.
From S2P Require Import Prelude.
From S2P Require Import CString.
From S2P Require Import Float32.
From S2P Require Import Ring.
From S2P Require Import ProtocolTypes.
From S2P Require Import ProtocolUtil.
From S2P Require Import Validate.
From S2P Require Import Codec.
From S2P Require Import State.
From S2P Require Import AudioBuffer.
From S2P Require Import WorkerQueue.
From S2P Require Import SegmentBuilder.
From S2P Require Import Vad.
From S2P Require Import ModelDownload.
From S2P Require Import TranslateTiers.
From S2P Require Import TranslateAsync.
From S2P Require Import WorkerConfig.
From S2P Require Import TranslationDiag.
From S2P Require Import WhisperEngine.
From S2P Require Import WorkerSession.
From S2P Require Import WorkerSafety.
#[local] Open Scope Z_scope.

(** ** The invariant *)

(** A source is open exactly while its session plays from it; nothing is buffered
    or pending outside of a session or in a paused one. *)
Record session_ok (s : session) : Prop := {
  so_audio : abuf_inv (s_audio s);
  so_builder : sb_inv (s_builder s);
  so_next : 0 < s_next s <= VW_WINDOW_SAMPLES;
  so_decoder : s_decoder s = s_active s && s_source_mode s;
  so_empty : s_active s && negb (s_paused s) = false ->
             ab_count (s_audio s) = 0 /\ sb_count (s_builder s) = 0
}.
Definition live (s : session) : Prop := s_active s && negb (s_paused s) = true.

(** The session is in the same phase. *)
Definition same_phase (s s' : session) : Prop :=
  s_id s' = s_id s /\ s_active s' = s_active s /\ s_paused s' = s_paused s
  /\ s_decoder s' = s_decoder s /\ s_source_mode s' = s_source_mode s.

#[global] Instance same_phase_preorder : PreOrder same_phase.
Proof. split; [intros s; by split_and!|]. intros s1 s2 s3 H1 H2. unfold same_phase in *. destruct_and!. split_and!; congruence. Qed.

Lemma live_phase s s' : same_phase s s' -> live s -> live s'.
Proof. unfold same_phase, live. intros. destruct_and!. congruence. Qed.

(** *** The invariants of the buffers *)

Lemma abuf_clear_ok b : abuf_inv b -> abuf_inv (vw_audio_buffer_clear b) /\ ab_count (vw_audio_buffer_clear b) = 0.
Proof. intros H. split; [by apply abuf_inv_clear|done]. Qed.
Lemma abuf_append_ok b pcm pts : abuf_inv b -> abuf_inv (snd (vw_audio_buffer_append_s16le b pcm pts)).
Proof.
  intros H. destruct pcm as [[|x pcm]|]; [done| |done]. unfold vw_audio_buffer_append_s16le. cbn [snd].
  destruct (append_anchor_spec b pts H) as (H1 & _). by apply append_samples_spec.
Qed.
Lemma abuf_drain_ok b n :
  abuf_inv b -> 0 <= n ->
  abuf_inv (vw_audio_buffer_drain b n) /\ ab_count (vw_audio_buffer_drain b n) = ab_count b - Z.min n (ab_count b).
Proof.
  intros H Hn. destruct (drain_spec b n H Hn) as (H1 & H2 & _). split; [done|].
  pose proof (abuf_inv_count b H). pose proof (zlen_ab_contents b H).
  rewrite <- (zlen_ab_contents _ H1), H2, zlen_zdrop by lia. lia.
Qed.
Lemma sb_clear_ok b : sb_inv b -> sb_inv (vw_segment_builder_clear b) /\ sb_count (vw_segment_builder_clear b) = 0.
Proof.
  intros []. split; [|done]. split; simpl; try done; try lia; try constructor.
  by unfold zlen in *; rewrite length_map.
Qed.
Lemma sb_push_ok b t start finish :
  sb_inv b -> sb_inv (snd (vw_segment_builder_push_hypothesis b (Some t) start finish)).
Proof. intros H. by apply push_cases. Qed.
Lemma sb_pop_cases b :
  sb_inv b ->
  sb_count b = 0 /\ vw_segment_builder_pop b = (None, b)
  \/ 0 < sb_count b /\ exists seg b', vw_segment_builder_pop b = (Some seg, b') /\ sb_inv b' /\ sb_count b' = sb_count b - 1.
Proof.
  intros H. pose proof (pop_spec b H) as Hp. pose proof (sb_inv_count b H).
  assert (forall b, sb_inv b -> sb_count b = zlen (sb_pending b)) as Hl.
  { intros b0 Hb. pose proof (sb_inv_count b0 Hb). unfold sb_pending. rewrite zlen_ring_read. lia. }
  rewrite (Hl b H). destruct (sb_pending b) as [|s rest] eqn:E; [by left|right].
  destruct Hp as (b' & E' & H' & Ep & _). rewrite zlen_cons. pose proof (zlen_nonneg rest).
  split; [lia|]. exists s, b'. split_and!; [done..|]. rewrite (Hl b' H'), Ep. lia.
Qed.

(** ** Captions *)

(** A caption on the wire is one of the session, and only while it is active. *)
Definition caption_of (id : vw_session_id_t) (active : bool) (f : wire_frame) : Prop :=
  hdr_type (wire_header f) = VW_MSG_CAPTION_SEGMENT ->
  active = true /\ exists seg, wire_payload f = layout (CAPTION_SEGMENT seg) /\ seg_session_id seg = id.
Definition captions {X} (P : wire_frame -> Prop) (w w' : worker X) : Prop :=
  exists fs, w_sent w' = w_sent w ++ concat (map wire_log fs) /\ Forall P fs.

Lemma captions_refl {X} P (w w' : worker X) : w_sent w' = w_sent w -> captions P w w'.
Proof. intros E. exists []. by rewrite app_nil_r. Qed.
Lemma captions_trans {X} P (w1 w2 w3 : worker X) : captions P w1 w2 -> captions P w2 w3 -> captions P w1 w3.
Proof.
  intros (f1 & E1 & F1) (f2 & E2 & F2). exists (f1 ++ f2).
  by rewrite E2, E1, map_app, concat_app, app_assoc, Forall_app.
Qed.
Lemma captions_weaken {X} (P Q : wire_frame -> Prop) (w w' : worker X) :
  (forall f, P f -> Q f) -> captions P w w' -> captions Q w w'.
Proof. intros H (fs & E & F). exists fs. split; [done|]. by eapply Forall_impl. Qed.

(** What a call does that stays in the phase of the session. *)
Definition upkeep {X} (w w' : worker X) : Prop :=
  session_ok (w_session w) ->
  session_ok (w_session w') /\ same_phase (w_session w) (w_session w')
  /\ captions (caption_of (s_id (w_session w)) (s_active (w_session w))) w w'.
(** The same for a call that is only made while the session plays. *)
Definition upkeep_live {X} (w w' : worker X) : Prop := live (w_session w) -> upkeep w w'.
(** What a call does that may pause, resume or end the session. *)
Definition proceeds {X} (w w' : worker X) : Prop :=
  session_ok (w_session w) ->
  session_ok (w_session w') /\ s_id (w_session w') = s_id (w_session w)
  /\ (s_active (w_session w) = false -> s_active (w_session w') = false)
  /\ captions (caption_of (s_id (w_session w)) (s_active (w_session w))) w w'.

#[global] Instance upkeep_preorder {X} : PreOrder (@upkeep X).
Proof.
  split; [intros w Hw; split_and!; [done|reflexivity|by apply captions_refl]|].
  intros w1 w2 w3 H1 H2 Hw. destruct (H1 Hw) as (O2 & P2 & C2). destruct (H2 O2) as (O3 & P3 & C3).
  split_and!; [done|by etrans|]. eapply captions_trans; [done|].
  unfold same_phase in P2. destruct_and!. congruence.
Qed.
#[global] Instance upkeep_live_preorder {X} : PreOrder (@upkeep_live X).
Proof.
  split; [intros w _; reflexivity|]. intros w1 w2 w3 H1 H2 Hl Hw.
  destruct (H1 Hl Hw) as (O2 & P2 & _). eapply (transitivity (R := upkeep)); [by apply H1| |done].
  apply H2. by eapply live_phase.
Qed.
#[global] Instance proceeds_preorder {X} : PreOrder (@proceeds X).
Proof.
  split; [intros w Hw; split_and!; try done; by apply captions_refl|].
  intros w1 w2 w3 H1 H2 Hw. destruct (H1 Hw) as (O2 & I2 & A2 & C2). destruct (H2 O2) as (O3 & I3 & A3 & C3).
  split_and!; [done|congruence|auto|]. eapply captions_trans; [done|]. eapply captions_weaken, C3.
  intros f Hf Ht. destruct (Hf Ht) as [Ha Hs]. rewrite I2 in Hs. split; [|done].
  destruct (s_active (w_session w1)); [done|]. by rewrite A2 in Ha.
Qed.
Lemma upkeep_proceeds {X} (w w' : worker X) : upkeep w w' -> proceeds w w'.
Proof.
  intros H Hw. destruct (H Hw) as (O & P & C). unfold same_phase in P. destruct_and!. split_and!; try done. congruence.
Qed.
Lemma keeps_proceeds {X A} (m : M (worker X) A) : keeps upkeep m -> keeps proceeds m.
Proof. intros H w. apply upkeep_proceeds, H. Qed.
Lemma keeps_live {X A} (m : M (worker X) A) : keeps upkeep m -> keeps upkeep_live m.
Proof. intros H w _. apply H. Qed.

Section upkeep.
Context {X : Type} `{!WorkerEnv X} (config : vw_worker_config_t).
Implicit Types w : worker X.

(** *** Calls outside of the session *)

Lemma up_quiet w w' : w_session w' = w_session w -> w_sent w' = w_sent w -> upkeep w w'.
Proof. intros E1 E2 Hw. rewrite E1. split_and!; [done|reflexivity|by apply captions_refl]. Qed.
Lemma up_external {A} (f : X -> A * X) : keeps upkeep (external f).
Proof. intros w. unfold external. destruct (f (w_ext w)). by apply up_quiet. Qed.
Lemma up_ask {A} (f : session -> A) : keeps (@upkeep X) (ask f).
Proof. intros w. by apply up_quiet. Qed.
Lemma up_modify (f : worker X -> worker X) :
  (forall w, w_session (f w) = w_session w /\ w_sent (f w) = w_sent w) -> keeps upkeep (modify f).
Proof. intros H w. by apply up_quiet; apply H. Qed.
Lemma up_session f :
  (forall s, session_ok s -> session_ok (f s) /\ same_phase s (f s)) -> keeps (@upkeep X) (on_session f).
Proof. intros H w Hw. destruct (H _ Hw). split_and!; [done..|by apply captions_refl]. Qed.
Lemma up_live_session f :
  (forall s, session_ok s -> live s -> session_ok (f s) /\ same_phase s (f s)) ->
  keeps (@upkeep_live X) (on_session f).
Proof. intros H w Hl Hw. destruct (H _ Hw Hl). split_and!; [done..|by apply captions_refl]. Qed.

(** What a message leaves on the wire. *)
Lemma at_most_captions hdr payload w w' :
  at_most hdr payload w w' -> w_session w' = w_session w
  /\ captions (fun f => wire_header f = hdr /\ wire_payload f = payload) w w'.
Proof. intros [Hc Hf]. split; [apply Hc|done]. Qed.
Lemma send_message_log m cap w :
  0 <= cap ->
  let w' := snd (send_message m cap w) in
  w_session w' = w_session w
  /\ captions (fun f => hdr_type (wire_header f) = message_type m /\ wire_payload f = layout m) w w'.
Proof.
  intros Hc. unfold send_message. rewrite encode_payload_layout by done.
  destruct (_ && _); [|split; [done|by apply captions_refl]].
  unfold next_header, modify, gets. rewrite !bind_run. cbn [fst snd].
  set (hdr := mk_header _ _ _ _ _). set (w1 := w <| w_sequence := _ |>).
  destruct (at_most_captions _ _ _ _ (send_pair_at_most hdr (layout m) w1)) as [E C]. split; [exact E|].
  eapply captions_weaken, C. by intros f [-> ->].
Qed.
Lemma diag_send_log code detail w :
  let w' := snd (vw_worker_translation_diag_send code detail w) in
  w_session w' = w_session w /\ captions (fun f => hdr_type (wire_header f) = VW_MSG_ERROR) w w'.
Proof.
  cbv zeta. rewrite diag_send_run. destruct (vw_protocol_encode_payload _ _) as [payload|]; [|split; [done|by apply captions_refl]].
  cbv zeta. unfold next_header, modify, gets. rewrite !bind_run. cbn [fst snd].
  set (hdr := mk_header _ _ _ _ _). set (w1 := w <| w_sequence := _ |>).
  destruct (at_most_captions _ _ _ _ (write_pair_at_most hdr payload w1)) as [E C]. split; [exact E|].
  eapply captions_weaken, C. by intros f [-> _].
Qed.
Lemma up_message m cap :
  0 <= cap -> message_type m <> VW_MSG_CAPTION_SEGMENT -> keeps (@upkeep X) (send_message m cap).
Proof.
  intros Hc Hm w Hw. destruct (send_message_log m cap w Hc) as [E C].
  rewrite E. split_and!; [done|reflexivity|]. eapply captions_weaken, C. intros f [Ht _] Hf. congruence.
Qed.
Lemma up_diag_send code detail : keeps (@upkeep X) (vw_worker_translation_diag_send code detail).
Proof.
  intros w Hw. destruct (diag_send_log code detail w) as [E C].
  rewrite E. split_and!; [done|reflexivity|]. eapply captions_weaken, C. intros f Ht Hf. by rewrite Ht in Hf.
Qed.
Lemma up_caption seg w :
  s_active (w_session w) = true -> seg_session_id seg = s_id (w_session w) ->
  upkeep w (snd (vw_worker_send_caption_segment seg w)).
Proof.
  intros Ha Hi Hw. unfold vw_worker_send_caption_segment.
  destruct (send_message_log (CAPTION_SEGMENT seg) (VW_CAPTION_SEGMENT_FIXED_BYTES + VW_MAX_TEXT_BYTES * 2 + 64) w)
    as [E C]; [done|].
  rewrite E. split_and!; [done|reflexivity|]. eapply captions_weaken, C. intros f [_ Hp] _. split; [done|]. by exists seg.
Qed.

Hint Resolve up_external up_ask : keeps.
Hint Extern 1 (keeps upkeep (modify _)) => apply up_modify; done : keeps.
Hint Extern 1 (keeps upkeep (send_message _ _)) => apply up_message; done : keeps.
Hint Extern 9 (keeps upkeep_live _) => apply keeps_live : keeps.
Hint Extern 9 (keeps proceeds _) => apply keeps_proceeds : keeps.

Lemma up_fail_exit : keeps (@upkeep X) fail_exit.
Proof. unfold fail_exit. keeps_steps. Qed.
Lemma up_set_fatal : keeps (@upkeep X) set_fatal.
Proof. unfold set_fatal. keeps_steps. Qed.
Hint Resolve up_fail_exit up_set_fatal : keeps.
Lemma up_or_fail m : keeps (@upkeep X) m -> keeps upkeep (or_fail m).
Proof. intros. unfold or_fail. keeps_steps; done. Qed.
Lemma up_error id code rec msg : keeps (@upkeep X) (send_error id code rec msg).
Proof. unfold send_error. keeps_steps. Qed.
Lemma up_progress id a b c d m : keeps (@upkeep X) (vw_worker_send_model_progress id a b c d m).
Proof. unfold vw_worker_send_model_progress. keeps_steps. Qed.
Lemma up_status id a b : keeps (@upkeep X) (vw_worker_send_status config id a b).
Proof. unfold vw_worker_send_status. keeps_steps. Qed.
Lemma up_started id b : zlen id = VW_SESSION_ID_BYTES -> keeps (@upkeep X) (send_started id b).
Proof. intros Hid w. rewrite send_started_message by done. by apply up_message. Qed.
Hint Resolve up_or_fail up_error up_progress up_status up_started : keeps.
Lemma up_status_now : keeps (@upkeep X) (status_now config).
Proof. unfold status_now. keeps_steps. Qed.
Hint Resolve up_status_now : keeps.

(** *** The window *)

Ltac same_session_ok := intros ? []; split; [by split|by split_and!].
Hint Extern 1 (keeps upkeep (on_session _)) => apply up_session; same_session_ok : keeps.

Lemma clear_window_ok s :
  abuf_inv (s_audio s) -> sb_inv (s_builder s) -> s_decoder s = s_active s && s_source_mode s ->
  session_ok (clear_window s).
Proof.
  intros Ha Hb Hd. destruct (abuf_clear_ok _ Ha). destruct (sb_clear_ok _ Hb). split; simpl; try done.
  unfold startup_samples. by destruct (s_live s).
Qed.
Lemma up_reset_window : keeps (@upkeep X) reset_window.
Proof.
  unfold reset_window, reset_vad. keeps_steps. apply up_session. intros s []. split; [by apply clear_window_ok|by split_and!].
Qed.
Lemma up_reset_vad : keeps (@upkeep X) reset_vad.
Proof. unfold reset_vad. keeps_steps. Qed.
Lemma up_invalidate : keeps (@upkeep X) invalidate_translator.
Proof. unfold invalidate_translator. keeps_steps. Qed.
Lemma up_read_window n : keeps (@upkeep X) (read_window n).
Proof. unfold read_window. keeps_steps. Qed.
Lemma up_drain_audio n : 0 <= n -> keeps (@upkeep X) (drain_audio n).
Proof.
  intros Hn. apply up_session. intros s []. destruct (abuf_drain_ok (s_audio s) n) as [Hi Hc]; [done..|].
  split; [split; simpl; try done|by split_and!]. intros He. destruct so_empty0 as [E ?]; [done|].
  split; [|done]. rewrite Hc, E. lia.
Qed.
Lemma up_audio_count : keeps (@upkeep X) audio_count.
Proof. unfold audio_count. keeps_steps. Qed.
Lemma up_transcribe samples : keeps (@upkeep X) (transcribe samples).
Proof. unfold transcribe. keeps_steps. Qed.
Hint Resolve up_reset_window up_reset_vad up_invalidate up_read_window up_drain_audio up_audio_count
  up_transcribe : keeps.

Lemma up_push_hypothesis t start finish :
  keeps (@upkeep_live X)
    (on_session (fun s => s <| s_builder := snd (vw_segment_builder_push_hypothesis (s_builder s) (Some t) start finish) |>)).
Proof.
  apply up_live_session. intros s [] Hl. split; [split; simpl; try done|by split_and!].
  - by apply sb_push_ok.
  - unfold live in Hl. congruence.
Qed.
Hint Resolve up_push_hypothesis : keeps.
Lemma up_segment_indices : keeps (@upkeep X) segment_indices.
Proof. unfold segment_indices. keeps_steps. Qed.
Hint Resolve up_segment_indices : keeps.
Lemma up_push_segments pts held : keeps (@upkeep_live X) (push_segments pts held).
Proof. unfold push_segments, push_segment. keeps_steps. Qed.
Hint Resolve up_push_segments : keeps.
Lemma up_append pcm pts :
  keeps (@upkeep_live X)
    (on_session (fun s => s <| s_audio := snd (vw_audio_buffer_append_s16le (s_audio s) pcm pts) |>)).
Proof.
  apply up_live_session. intros s [] Hl. split; [split; simpl; try done|by split_and!].
  - by apply abuf_append_ok.
  - unfold live in Hl. congruence.
Qed.
Hint Resolve up_append : keeps.

(** *** Delivery and emission *)

Lemma up_deliver r : keeps (@upkeep X) (vw_worker_deliver_translation r).
Proof.
  intros w. unfold vw_worker_deliver_translation, ask, gets. rewrite bind_run. cbn [fst snd].
  destruct (s_active (w_session w)) eqn:Ha; [|reflexivity].
  destruct (bool_decide_reflect (seg_session_id (ar_segment r) = s_id (w_session w))); [|reflexivity].
  unfold or_fail. cbn [negb orb]. rewrite bind_run. etrans; [by apply up_caption|].
  by apply (keeps_when upkeep); auto with keeps.
Qed.
Hint Resolve up_deliver : keeps.
Lemma up_register : keeps (@upkeep X) vw_worker_translation_diag_register_transport_state.
Proof. apply up_modify. intros w. by destruct (w_diag_registered w). Qed.
Hint Resolve up_register up_diag_send : keeps.
Lemma up_diag_deliver r : keeps (@upkeep X) (vw_worker_translation_diag_deliver r).
Proof. unfold vw_worker_translation_diag_deliver, vw_worker_translation_diag_mark_transport_failed. keeps_steps. Qed.
Hint Resolve up_diag_deliver : keeps.
Lemma up_try_deliver : keeps (@upkeep X) try_deliver.
Proof. unfold try_deliver. keeps_steps. Qed.
Hint Resolve up_try_deliver : keeps.
Lemma up_deliver_all : keeps (@upkeep X) deliver_all.
Proof. unfold deliver_all. keeps_steps. Qed.
Ltac unfold_submit :=
  unfold submit_segment, submit_scoped, vw_worker_translation_diag_report_local_rejection,
    vw_worker_translation_diag_mark_transport_failed, fail_exit.
Lemma up_submit seg : keeps (@upkeep X) (submit_segment seg).
Proof. unfold_submit. keeps_steps. Qed.
Lemma up_drain_translation : keeps (@upkeep X) vw_worker_drain_translation.
Proof. unfold vw_worker_drain_translation, drain_step. keeps_steps. Qed.
Hint Resolve up_deliver_all up_submit up_drain_translation : keeps.

(** A cue is only pending while the session plays. *)
Lemma pop_segment_cases w :
  session_ok (w_session w) ->
  sb_count (s_builder (w_session w)) = 0 /\ pop_segment w = (None, w)
  \/ exists seg w', pop_segment w = (Some seg, w') /\ upkeep w w' /\ live (w_session w)
     /\ 0 < sb_count (s_builder (w_session w))
     /\ sb_count (s_builder (w_session w')) = sb_count (s_builder (w_session w)) - 1.
Proof.
  intros Hw. destruct (sb_pop_cases _ (so_builder _ Hw)) as [[E P]|(Hc & seg & b' & P & Hi & Hn)].
  - left. split; [done|by apply pop_none].
  - right. unfold pop_segment, ask, gets. rewrite bind_run. cbn [fst snd]. rewrite P, bind_run.
    eexists _, _. split; [reflexivity|]. simpl.
    assert (live (w_session w)) as Hl.
    { unfold live. destruct (_ && _) eqn:E; [done|]. destruct (so_empty _ Hw E). lia. }
    split_and!; [|done..|lia]. intros [].
    split_and!; [split; simpl; try done; unfold live in Hl; congruence|by split_and!|by apply captions_refl].
Qed.

(** A call after another: it may rely on the phase. *)
Lemma up_then w w1 w2 :
  upkeep w w1 -> (same_phase (w_session w) (w_session w1) -> upkeep w1 w2) -> upkeep w w2.
Proof. intros H1 H2 Hw. destruct (H1 Hw) as (_ & P & _). exact (transitivity H1 (H2 P) Hw). Qed.
Lemma up_failing m w : upkeep w (snd (m w)) -> upkeep w (snd (or_fail m w)).
Proof. intros H. unfold or_fail. rewrite bind_run. etrans; [exact H|]. apply (keeps_when upkeep); auto with keeps. Qed.
Lemma live_active s : live s -> s_active s = true.
Proof. unfold live. by destruct (s_active s). Qed.

(** The rest of an emission, with the cue popped. *)
Lemma up_submit_or_send b seg w :
  s_active (w_session w) = true ->
  upkeep w (snd ((accepted ← submit_segment (own_segment (s_id (w_session w)) seg);
                  when (negb accepted)
                    (or_fail (vw_worker_send_caption_segment (attempted b (own_segment (s_id (w_session w)) seg))))) w)).
Proof.
  intros Ha. rewrite bind_run. set (r := submit_segment _ w).
  eapply up_then; [apply up_submit|]. fold r. intros P. fold r in P. destruct (fst r); [by apply (keeps_ret upkeep)|].
  unfold same_phase in P. destruct_and!. apply up_failing, up_caption; simpl; subst r; congruence.
Qed.
Lemma up_emit_step : keeps (@upkeep X) emit_step.
Proof.
  intros w Hw. assert (upkeep w (snd (emit_step w))) as U; [|by apply U].
  unfold emit_step. rewrite bind_run.
  destruct (pop_segment_cases w Hw) as [[_ ->]|(seg & w1 & -> & U & Hl & _)]; cbn [fst snd]; [by apply (keeps_ret upkeep)|].
  apply (up_then w w1); [done|]. intros P. apply (live_phase _ _ P), live_active in Hl.
  unfold ask, gets. rewrite bind_run. cbv zeta. cbn [fst snd]. rewrite bind_run. cbn [fst snd].
  destruct (_ && _); [by apply up_submit_or_send|by apply up_failing, up_caption].
Qed.
Hint Resolve up_emit_step : keeps.
Lemma up_emit_segments : keeps (@upkeep X) emit_segments.
Proof. unfold emit_segments. keeps_steps. Qed.

Lemma up_emit_tail_step : keeps (@upkeep X) emit_tail_step.
Proof.
  intros w Hw. assert (upkeep w (snd (emit_tail_step w))) as U; [|by apply U].
  unfold emit_tail_step. rewrite bind_run.
  destruct (pop_segment_cases w Hw) as [[_ ->]|(seg & w1 & -> & U & Hl & _)]; cbn [fst snd]; [by apply (keeps_ret upkeep)|].
  apply (up_then w w1); [done|]. intros P. apply (live_phase _ _ P), live_active in Hl.
  unfold ask, gets. rewrite bind_run. cbv zeta. cbn [fst snd]. rewrite bind_run. set (r := submit_segment _ w1).
  eapply up_then; [apply up_submit|]. fold r. clear P. intros P. fold r in P.
  rewrite bind_run. etrans; [|by apply (keeps_ret upkeep)]. destruct (fst r); [by apply (keeps_ret upkeep)|].
  unfold same_phase in P. destruct_and!. apply up_caption; simpl; subst r; congruence.
Qed.
Hint Resolve up_emit_segments up_emit_tail_step : keeps.
Lemma up_emit_tail_loop fuel : keeps (@upkeep X) (emit_tail_loop fuel).
Proof. induction fuel as [|fuel IH]; cbn [emit_tail_loop]; keeps_steps; done. Qed.
Hint Resolve up_emit_tail_loop : keeps.
Lemma up_emit_tail : keeps (@upkeep X) vw_worker_emit_tail_segments.
Proof. unfold vw_worker_emit_tail_segments. keeps_steps. Qed.

(** *** Inference *)

Lemma boundary_nonneg vad samples eof :
  0 <= bd_cut (vw_vad_find_chunk_boundary vad (Some samples) eof)
  /\ 0 <= bd_drain (vw_vad_find_chunk_boundary vad (Some samples) eof).
Proof.
  destruct (find_boundary_ok vad samples eof) as [H _]. unfold boundary_ok in H.
  destruct (bd_found _); lia.
Qed.
Lemma up_drain_boundary vad samples eof :
  keeps (@upkeep X) (drain_audio (bd_cut (vw_vad_find_chunk_boundary vad (Some samples) eof)))
  /\ keeps (@upkeep X) (drain_audio (bd_drain (vw_vad_find_chunk_boundary vad (Some samples) eof))).
Proof. destruct (boundary_nonneg vad samples eof). split; by apply up_drain_audio. Qed.
Hint Extern 1 (keeps upkeep (drain_audio _)) => apply up_drain_boundary : keeps.
Hint Extern 1 (keeps upkeep (drain_audio _)) => apply up_drain_audio; done : keeps.

Lemma up_flush_step : keeps (@upkeep_live X) flush_step.
Proof. unfold flush_step. keeps_steps. Qed.
Hint Resolve up_flush_step up_emit_tail : keeps.
Lemma up_flush_loop fuel : keeps (@upkeep_live X) (flush_loop fuel).
Proof. induction fuel as [|fuel IH]; cbn [flush_loop]; keeps_steps; done. Qed.
Hint Resolve up_flush_loop : keeps.
Lemma up_flush : keeps (@upkeep_live X) vw_worker_flush_audio_tail.
Proof. unfold vw_worker_flush_audio_tail. keeps_steps. Qed.
Lemma up_lookahead_step : keeps (@upkeep_live X) (lookahead_step config).
Proof. unfold lookahead_step. keeps_steps. Qed.
Hint Resolve up_flush up_lookahead_step : keeps.
Lemma up_infer samples pts b : keeps (@upkeep_live X) (infer_window samples pts b).
Proof. unfold infer_window. keeps_steps. Qed.
Hint Resolve up_infer : keeps.

Lemma up_next n : 0 < n <= VW_WINDOW_SAMPLES -> keeps (@upkeep X) (on_session (fun s => s <| s_next := n |>)).
Proof. intros Hn. apply up_session. same_session_ok. Qed.
Lemma next_target_ok (samples : list Z) :
  let target := zlen samples + VW_LIVE_HOP_SAMPLES in
  0 < (if target <? VW_WINDOW_SAMPLES then target else VW_WINDOW_SAMPLES) <= VW_WINDOW_SAMPLES.
Proof.
  pose proof (zlen_nonneg samples). unfold VW_LIVE_HOP_SAMPLES, VW_WINDOW_SAMPLES. cbv zeta. case_match; lia.
Qed.
Hint Extern 1 (keeps upkeep (on_session (fun s => s <| s_next := _ |>))) =>
  apply up_next; first [apply next_target_ok|done] : keeps.

(** A step taken while the session plays, under its guard. *)
Lemma up_guarded w w' : upkeep_live w w' -> live (w_session w) -> upkeep w w'.
Proof. auto. Qed.

Lemma hop_nonneg (b : bool) : 0 <= (if b then VW_LIVE_HOP_SAMPLES else VW_LOCAL_FALLBACK_HOP_SAMPLES).
Proof. by destruct b. Qed.
Hint Extern 1 (keeps upkeep (drain_audio _)) => apply up_drain_audio, hop_nonneg : keeps.
Lemma up_window_step : keeps (@upkeep_live X) (audio_window_step config).
Proof. unfold audio_window_step. keeps_steps. Qed.
Hint Resolve up_window_step : keeps.
Lemma up_audio p : keeps (@upkeep X) (handle_audio config p).
Proof.
  intros w. unfold handle_audio. unfold ask, gets. rewrite bind_run. cbn [fst snd].
  destruct (s_active (w_session w)) eqn:Ha, (s_paused (w_session w)) eqn:Hp; cbn [negb orb]; try reflexivity.
  destruct (_ || _); [reflexivity|]. apply up_guarded; [|unfold live; by rewrite Ha, Hp].
  match goal with |- upkeep_live w (snd (?m w)) => enough (keeps upkeep_live m) as H by apply H end. keeps_steps.
Qed.

(** *** The source *)

Lemma up_source_chunk samples pts : keeps (@upkeep_live X) (source_chunk config samples pts).
Proof.
  unfold source_chunk. keeps_steps. apply up_live_session. intros s [] Hl.
  split; [split; simpl; try done|by split_and!]; [by apply (abuf_append_ok _ (Some samples))|unfold live in Hl; congruence].
Qed.
Hint Resolve up_source_chunk : keeps.

(** The end of a session. *)
Lemma close_source_ok s :
  session_ok s -> session_ok (s <| s_decoder := false |> <| s_source_mode := false |>).
Proof. intros []. split; simpl; try done. by destruct (s_active s). Qed.
Lemma proceeds_session f :
  (forall s, session_ok s -> session_ok (f s) /\ s_id (f s) = s_id s /\ (s_active s = false -> s_active (f s) = false)) ->
  keeps (@proceeds X) (on_session f).
Proof. intros H w Hw. destruct (H _ Hw) as (? & ? & ?). split_and!; [done..|by apply captions_refl]. Qed.
Lemma proceeds_close : keeps (@proceeds X) close_source.
Proof.
  unfold close_source. keeps_steps. apply proceeds_session. intros s Hs. split_and!; [by apply close_source_ok|done..].
Qed.
Hint Resolve proceeds_close : keeps.

(** What is known of the session after a call. *)
Lemma source_error_session w (s := w_session w) :
  let w' := snd ((on_session (fun s => s <| s_active := false |> <| s_source_eof := true |>) ;;
        close_source ;;
        on_session (fun s => s <| s_audio := vw_audio_buffer_clear (s_audio s) |>
                               <| s_builder := vw_segment_builder_clear (s_builder s) |>)) w) in
  w_session w' = s <| s_active := false |> <| s_source_eof := true |> <| s_decoder := false |>
    <| s_source_mode := false |> <| s_audio := vw_audio_buffer_clear (s_audio s) |>
    <| s_builder := vw_segment_builder_clear (s_builder s) |>
  /\ w_sent w' = w_sent w.
Proof. done. Qed.
Lemma proceeds_source_error :
  keeps (@proceeds X) (on_session (fun s => s <| s_active := false |> <| s_source_eof := true |>) ;;
        close_source ;;
        on_session (fun s => s <| s_audio := vw_audio_buffer_clear (s_audio s) |>
                               <| s_builder := vw_segment_builder_clear (s_builder s) |>)).
Proof.
  intros w Hw. destruct (source_error_session w) as [E1 E2]. rewrite E1.
  destruct (abuf_clear_ok _ (so_audio _ Hw)). destruct (sb_clear_ok _ (so_builder _ Hw)).
  split_and!; [|done..|by apply captions_refl]. destruct Hw. by split.
Qed.

Lemma proceeds_source_step : keeps (@proceeds X) (source_step config).
Proof.
  intros w. unfold source_step, ask, gets. rewrite bind_run. cbn [fst snd].
  unfold source_due. destruct (s_active (w_session w)) eqn:Ha, (s_paused (w_session w)) eqn:Hp;
    rewrite ?andb_false_r, ?andb_false_l; cbn [andb negb]; try reflexivity.
  destruct (negb _); [reflexivity|]. rewrite bind_run.
  set (r := external _ w). assert (upkeep w (snd r)) as U by apply up_external.
  assert (live (w_session (snd r))) as Hl
    by (subst r; unfold external; destruct (source_read _ _); simpl; unfold live; by rewrite Ha, Hp).
  etrans; [apply upkeep_proceeds, U|]. clear U. destruct r as [[[status samples] pts] w1]. cbn [fst snd] in *.
  assert (forall A (m : M (worker X) A), keeps upkeep_live m -> proceeds w1 (snd (m w1))) as HL
    by (intros A m Hm; apply upkeep_proceeds, Hm, Hl).
  destruct status.
  - apply HL. keeps_steps.
  - reflexivity.
  - apply HL. keeps_steps.
  - rewrite bind_run. set (w2 := snd (or_fail _ w1)). apply (transitivity (y := w2)); [apply upkeep_proceeds, up_or_fail, up_error|]. etrans; [apply (proceeds_source_error w2)|].
    rewrite then_run3. assert (keeps (@proceeds X) (invalidate_translator ;; mret true)) as H by keeps_steps. apply H.
Qed.
Hint Resolve proceeds_source_step : keeps.

(** *** Handlers *)

Lemma set_paused_ok s b :
  session_ok s -> session_ok (clear_window (s <| s_paused := b |>)).
Proof. intros []. by apply clear_window_ok. Qed.
Lemma resumed_ok s : session_ok s -> session_ok (s <| s_paused := false |>).
Proof.
  intros []. split; simpl; try done. destruct (s_active s); [done|]. intros _. by apply so_empty0.
Qed.

(** Pausing drops the window. *)
Lemma proceeds_pause : keeps (@proceeds X) (on_session (fun s => s <| s_paused := true |>) ;; reset_window).
Proof.
  intros w Hw. assert (w_session (snd ((on_session (fun s => s <| s_paused := true |>) ;; reset_window) w))
    = clear_window ((w_session w) <| s_paused := true |>)) as -> by done.
  split_and!; [by apply set_paused_ok|done..|by apply captions_refl].
Qed.
Lemma proceeds_resume : keeps (@proceeds X) (on_session (fun s => s <| s_paused := false |>)).
Proof. apply proceeds_session. intros s Hs. split_and!; [by apply resumed_ok|done..]. Qed.
Hint Resolve proceeds_resume : keeps.

Lemma proceeds_handle_pause c : keeps (@proceeds X) (handle_pause config c).
Proof.
  unfold handle_pause, for_session. apply (keeps_bind proceeds); [auto with keeps|intros s].
  destruct (_ || _); [apply (keeps_skip proceeds)|]. intros w. rewrite then_run2.
  apply (transitivity (y := snd ((on_session (fun s => s <| s_paused := true |>) ;; reset_window) w)));
    [apply proceeds_pause|].
  assert (keeps (@proceeds X) (invalidate_translator ;; or_fail (status_now config))) as H by keeps_steps. apply H.
Qed.
Lemma up_seek_anchor pts : keeps (@upkeep X) (on_session (seek_anchor pts)).
Proof. apply up_session. same_session_ok. Qed.
Hint Resolve up_seek_anchor : keeps.
Lemma proceeds_handle_resume c : keeps (@proceeds X) (handle_resume config c).
Proof. unfold handle_resume, for_session. keeps_steps. Qed.

Lemma proceeds_position_pause b pts : keeps (@proceeds X) (position_pause config b pts).
Proof.
  unfold position_pause. destruct b; [|keeps_steps].
  intros w. rewrite then_run2.
  apply (transitivity (y := snd ((on_session (fun s => s <| s_paused := true |>) ;; reset_window) w)));
    [apply proceeds_pause|].
  match goal with |- proceeds _ (snd (?m _)) => assert (keeps (@proceeds X) m) as H by keeps_steps end. apply H.
Qed.
Hint Resolve proceeds_position_pause : keeps.
Lemma proceeds_handle_position p : keeps (@proceeds X) (handle_position config p).
Proof. unfold handle_position, position_source. keeps_steps. Qed.
Lemma proceeds_translate_ctrl p : keeps (@proceeds X) (handle_translate_ctrl p).
Proof. unfold handle_translate_ctrl. keeps_steps. Qed.
Lemma up_progress_session id : keeps (@upkeep X) (progress_session id).
Proof. unfold progress_session. keeps_steps. Qed.
Hint Resolve up_progress_session : keeps.
Lemma up_refuse p id : keeps (@upkeep X) (refuse_download p id).
Proof. unfold refuse_download. keeps_steps. Qed.
Hint Resolve up_refuse : keeps.
Lemma proceeds_model_ctrl p ready : keeps (@proceeds X) (handle_model_ctrl p ready).
Proof. unfold handle_model_ctrl, start_download. keeps_steps. Qed.
Lemma proceeds_poll : keeps (@proceeds X) poll_download.
Proof. unfold poll_download, send_progress. keeps_steps. Qed.

(** *** The end of a session *)

Lemma proceeds_then w w1 w2 :
  upkeep w w1 ->
  (session_ok (w_session w1) -> same_phase (w_session w) (w_session w1) -> proceeds w1 w2) -> proceeds w w2.
Proof.
  intros H1 H2 Hw. destruct (H1 Hw) as (O & P & _). exact (transitivity (upkeep_proceeds _ _ H1) (H2 O P) Hw).
Qed.
Lemma buffered_live s : session_ok s -> 0 < ab_count (s_audio s) -> live s.
Proof. intros Hs Hc. unfold live. destruct (_ && _) eqn:E; [done|]. destruct (so_empty _ Hs E). lia. Qed.
Lemma up_finish_tail msg after : keeps (@upkeep X) after -> keeps upkeep_live (finish_tail msg after).
Proof. intros. unfold finish_tail. keeps_steps; done. Qed.
(** The tail is only finished when something is buffered. *)
Lemma up_tail_when b msg after w :
  keeps (@upkeep X) after ->
  upkeep w (snd (when (b && (0 <? fst (audio_count w))) (finish_tail msg after) w)).
Proof.
  intros Ha Hw. destruct (Z.ltb_spec 0 (fst (audio_count w))) as [Hc|_];
    [|rewrite andb_false_r; by apply (keeps_skip upkeep)].
  destruct b; [|by apply (keeps_skip upkeep)]. apply up_finish_tail; [done| |done].
  apply buffered_live; [done|exact Hc].
Qed.

Definition end_session (dec : bool) : M (worker X) unit :=
  on_session (fun s => s <| s_active := false |> <| s_seek_failed := false |> <| s_last_pts := -1 |>) ;;
  when dec close_source ;;
  on_session stop_fields.
Lemma end_session_spec dec w (w' := snd (end_session dec w)) :
  w_sent w' = w_sent w /\ s_id (w_session w') = s_id (w_session w)
  /\ s_active (w_session w') = false
  /\ (s_decoder (w_session w) = dec -> s_decoder (w_session w') = false)
  /\ s_audio (w_session w') = vw_audio_buffer_clear (s_audio (w_session w))
  /\ s_builder (w_session w') = vw_segment_builder_clear (s_builder (w_session w))
  /\ s_next (w_session w') = VW_WINDOW_SAMPLES /\ s_translator (w_session w') = s_translator (w_session w).
Proof. subst w'. destruct dec; by split_and!. Qed.
Lemma end_session_ok dec w :
  session_ok (w_session w) -> s_decoder (w_session w) = dec -> session_ok (w_session (snd (end_session dec w))).
Proof.
  intros Hw Hd. destruct (end_session_spec dec w) as (_ & _ & E1 & E2 & E3 & E4 & E5 & _).
  destruct (abuf_clear_ok _ (so_audio _ Hw)). destruct (sb_clear_ok _ (so_builder _ Hw)).
  split; rewrite ?E1, ?E3, ?E4, ?E5; try done. by rewrite (E2 Hd).
Qed.
Lemma proceeds_end_session dec w :
  s_decoder (w_session w) = dec -> proceeds w (snd (end_session dec w)).
Proof.
  intros Hd Hw. pose proof (end_session_ok dec w Hw Hd). destruct (end_session_spec dec w) as (E1 & E2 & E3 & _).
  split_and!; [done..|by apply captions_refl].
Qed.

Lemma handle_stop_run c w (s := w_session w) :
  handle_stop config c w =
  if negb (bool_decide (ctl_session_id c = s_id s)) then (tt, w)
  else
    let w1 := snd (when ((ctl_reason c =? VW_CTRL_REASON_MEDIA_END) && negb (s_source_mode s) && (0 <? fst (audio_count w)))
                     (finish_tail (str "MEDIA_END tail inference failed") skip) w) in
    let w2 := snd (when (s_active s && negb (ctl_reason c =? VW_CTRL_REASON_SEEK_DISCONTINUITY))
                     vw_worker_drain_translation w1) in
    (reset_vad ;; invalidate_translator ;; running ← gets w_running;
     when running (or_fail (s ← ask (fun s => s); vw_worker_send_status config (s_id s) false false)))
      (snd (end_session (s_decoder s) w2)).
Proof.
  unfold handle_stop. unfold ask at 1, gets at 1. rewrite bind_run. cbn [fst snd]. fold s.
  destruct (negb _); [done|]. rewrite (bind_run audio_count). change (snd (audio_count w)) with w.
  rewrite bind_run. rewrite (bind_run (when _ vw_worker_drain_translation)). cbv zeta.
  set (w2 := snd (when _ vw_worker_drain_translation _)). apply then_run3.
Qed.
Lemma proceeds_stop c : keeps (@proceeds X) (handle_stop config c).
Proof.
  intros w. rewrite handle_stop_run. destruct (negb _); [reflexivity|]. cbv zeta.
  set (w1 := snd (when _ (finish_tail _ _) w)). set (w2 := snd (when _ vw_worker_drain_translation w1)).
  apply (proceeds_then w w1); [apply up_tail_when, (keeps_skip upkeep)|]. intros _ P1.
  apply (proceeds_then w1 w2); [apply (keeps_when upkeep), up_drain_translation|]. intros _ P2.
  apply (transitivity (y := snd (end_session (s_decoder (w_session w)) w2))).
  { apply proceeds_end_session. unfold same_phase in *. destruct_and!. congruence. }
  match goal with |- proceeds _ (snd (?m _)) => assert (keeps (@proceeds X) m) as H end; [|apply H].
  keeps_steps. apply keeps_proceeds, up_or_fail. keeps_steps.
Qed.

Lemma proceeds_shutdown : keeps (@proceeds X) (handle_shutdown config).
Proof.
  intros w. unfold handle_shutdown, ask, gets. rewrite bind_run. cbn [fst snd].
  rewrite (bind_run audio_count). change (snd (audio_count w)) with w. rewrite bind_run.
  set (w1 := snd (when _ (finish_tail _ _) w)).
  apply (proceeds_then w w1); [apply up_tail_when, up_or_fail, up_status_now|]. intros _ _.
  match goal with |- proceeds _ (snd (?m _)) => assert (keeps (@proceeds X) m) as H by keeps_steps end. apply H.
Qed.

(** *** The start of a session *)

(** Without captions. *)
Definition uncaptioned (f : wire_frame) : Prop := hdr_type (wire_header f) <> VW_MSG_CAPTION_SEGMENT.
Definition silent (w w' : worker X) : Prop := captions uncaptioned w w'.
#[local] Instance silent_preorder : PreOrder silent.
Proof. split; [intros w; by apply captions_refl|]. intros w1 w2 w3. apply captions_trans. Qed.
Lemma silent_quiet w w' : w_sent w' = w_sent w -> silent w w'.
Proof. apply captions_refl. Qed.
Lemma silent_external {A} (f : X -> A * X) : keeps silent (external f).
Proof. intros w. unfold external. destruct (f (w_ext w)). by apply silent_quiet. Qed.
Lemma silent_session f : keeps silent (on_session f).
Proof. intros w. by apply silent_quiet. Qed.
Lemma silent_ask {A} (f : session -> A) : keeps silent (ask f).
Proof. intros w. by apply silent_quiet. Qed.
Lemma silent_modify (f : worker X -> worker X) : (forall w, w_sent (f w) = w_sent w) -> keeps silent (modify f).
Proof. intros H w. apply silent_quiet, H. Qed.
Lemma silent_message m cap : 0 <= cap -> message_type m <> VW_MSG_CAPTION_SEGMENT -> keeps silent (send_message m cap).
Proof.
  intros Hc Hm w. destruct (send_message_log m cap w Hc) as [_ C]. eapply captions_weaken, C.
  intros f [Ht _]. unfold uncaptioned. congruence.
Qed.
Lemma silent_started id b : zlen id = VW_SESSION_ID_BYTES -> keeps silent (send_started id b).
Proof. intros Hid w. rewrite send_started_message by done. by apply silent_message. Qed.
Hint Resolve silent_external silent_session silent_ask silent_started : keeps.
Hint Extern 1 (keeps silent (modify _)) => apply silent_modify; done : keeps.
Hint Extern 1 (keeps silent (send_message _ _)) => apply silent_message; done : keeps.
Lemma silent_start start :
  zlen (start_session_id start) = VW_SESSION_ID_BYTES -> keeps silent (handle_start config start).
Proof.
  intros Hid. unfold handle_start, open_source, discard_session, pop_segment, reset_vad, invalidate_translator,
    close_source, or_fail, status_now, vw_worker_send_status, send_error, fail_exit.
  keeps_steps.
Qed.

Definition in_session (P : session -> Prop) (w : worker X) : Prop := P (w_session w).
Lemma triple_upkeep {A} (m : M (worker X) A) : keeps upkeep m -> triple (in_session session_ok) m (fun _ => in_session session_ok).
Proof. intros H w Hw. by apply H. Qed.

(** Popping everything. *)
Lemma pop_all fuel : forall w,
  sb_inv (s_builder (w_session w)) -> sb_count (s_builder (w_session w)) < Z.of_nat fuel ->
  exists b, sb_inv b /\ sb_count b = 0
    /\ snd (loop fuel (seg ← pop_segment; mret (bool_decide (seg <> None))) w)
       = w <| w_session := (w_session w) <| s_builder := b |> |>.
Proof.
  induction fuel as [|fuel IH]; intros w Hb Hf; [pose proof (sb_inv_count _ Hb); lia|].
  cbn [loop]. rewrite !bind_run. unfold pop_segment, ask, gets. rewrite bind_run. cbn [fst snd].
  destruct (sb_pop_cases _ Hb) as [[E P]|(Hc & seg & b' & P & Hi & Hn)]; rewrite P, bind_run; cbn [fst snd].
  - rewrite bool_decide_false by auto. exists (s_builder (w_session w)). by split_and!.
  - rewrite bool_decide_true by done. set (w1 := w <| w_session := (w_session w) <| s_builder := b' |> |>).
    destruct (IH w1) as (b & H1 & H2 & H3); [done|simpl; lia|].
    exists b. split_and!; [done..|]. exact H3.
Qed.

Definition no_session (s : session) : Prop := session_ok s /\ s_active s = false.
Lemma discard_ok : triple (in_session session_ok) discard_session (fun _ => in_session no_session).
Proof.
  intros w Hw. unfold discard_session, ask, gets. rewrite bind_run. cbn [fst snd].
  set (s := w_session w). rewrite !bind_run.
  set (w1 := snd (on_session _ (snd (when _ _ w)))).
  assert (w_session w1 = s <| s_decoder := false |> <| s_audio := vw_audio_buffer_clear (s_audio s) |>
            <| s_live := false |> <| s_next := VW_WINDOW_SAMPLES |>) as E1.
  { subst w1. destruct (s_decoder s) eqn:E; [done|]. subst s. destruct w as [[] ? ? ? ? ? ? ? ? ? ? ?]. simpl in *. by subst. }
  clearbody w1. destruct (pop_all (S (Z.to_nat (sb_count (s_builder s)))) w1) as (b & Hb & Hn & E2).
  { rewrite E1. apply Hw. }
  { rewrite E1. pose proof (sb_inv_count _ (so_builder _ Hw)). simpl. subst s. lia. }
  rewrite E2. unfold in_session, no_session. simpl. rewrite E1. simpl.
  destruct (abuf_clear_ok _ (so_audio _ Hw)). split; [|done]. by split.
Qed.

(** Between START and its source: nothing buffered, no source. *)
Record opening (s : session) : Prop := {
  op_audio : abuf_inv (s_audio s);
  op_builder : sb_inv (s_builder s);
  op_next : 0 < s_next s <= VW_WINDOW_SAMPLES;
  op_decoder : s_decoder s = false;
  op_active : s_active s = true;
  op_paused : s_paused s = false
}.
Lemma opening_ok s : opening s -> session_ok (s <| s_source_mode := false |>).
Proof. intros []. split; simpl; try done. - by rewrite andb_false_r. - by rewrite op_active0, op_paused0. Qed.
Lemma start_fields_opening start :
  triple (in_session no_session)
    (on_session (start_fields start) ;; reset_vad ;; invalidate_translator) (fun _ => in_session opening).
Proof.
  intros w [Hw Ha]. unfold in_session. simpl. pose proof (so_decoder _ Hw) as Hd. rewrite Ha in Hd.
  destruct (abuf_clear_ok _ (so_audio _ Hw)). destruct (sb_clear_ok _ (so_builder _ Hw)).
  split; simpl; try done. unfold startup_samples. by destruct (_ =? _).
Qed.
Lemma open_source_ok start :
  triple (in_session opening) (open_source start) (fun _ => in_session session_ok).
Proof.
  intros w Hw. unfold open_source.
  assert (session_ok ((w_session w) <| s_source_mode := false |> <| s_source_eof := false |>)) as Hno
    by (destruct (opening_ok _ Hw); by split).
  destruct (_ && _); [|exact Hno].
  rewrite bind_run. set (r := external _ w).
  assert (w_session (snd r) = w_session w) as E by (subst r; unfold external; by destruct (source_open _ _)).
  destruct (fst r).
  - rewrite !bind_run. set (w1 := snd (on_session _ (snd r))).
    assert (session_ok (w_session w1)) as H1.
    { subst w1. unfold in_session in Hw. destruct Hw. simpl. rewrite E. split; simpl; try done.
      - by rewrite op_active0.
      - by rewrite op_active0, op_paused0. }
    match goal with |- context [(if ?c then ?a else ?b) w1] => set (r2 := (if c then a else b) w1) end. assert (upkeep w1 (snd r2)) as U.
    { subst r2. destruct (0 <? _); [apply up_external|by apply (keeps_ret upkeep)]. }
    assert (session_ok (w_session (snd r2))) as H2 by by apply U. destruct (fst r2); [exact H2|].
    exact (close_source_ok _ H2).
  - rewrite bind_run. set (w1 := snd (on_session _ (snd r))).
    assert (session_ok (w_session w1)) as H1 by (subst w1; simpl; rewrite E; exact Hno).
    match goal with |- in_session _ (snd (?m w1)) => assert (keeps (@upkeep X) m) as H by keeps_steps end.
    by apply H.
Qed.

Lemma ask_bind {A} (f : session -> M (worker X) A) w : (s ← ask (fun s => s); f s) w = f (w_session w) w.
Proof. done. Qed.
Lemma start_ok start :
  zlen (start_session_id start) = VW_SESSION_ID_BYTES ->
  triple (in_session session_ok) (handle_start config start) (fun _ => in_session session_ok).
Proof.
  intros Hid w Hw. unfold handle_start. rewrite ask_bind. cbv beta.
  destruct (_ && _).
  { assert (keeps (@upkeep X) (or_fail (send_error (s_id (w_session w)) E_INTERNAL 1 (str "Session already active"))))
      as H by keeps_steps. by apply H. }
  rewrite bind_run. set (w1 := snd (when _ discard_session w)).
  assert (in_session no_session w1) as H1.
  { subst w1. destruct (s_active (w_session w)) eqn:Ha; [by apply discard_ok|by split]. }
  clearbody w1. clear Hw. destruct (negb _).
  { match goal with |- in_session _ (snd (?m _)) => assert (keeps (@upkeep X) m) as H by keeps_steps end. apply H, H1. }
  rewrite bind_run. change (snd (gets w_engine w1)) with w1. destruct (fst (gets w_engine w1)) as [e|].
  2: { match goal with |- in_session _ (snd (?m _)) => assert (keeps (@upkeep X) m) as H by keeps_steps end. apply H, H1. }
  destruct (vw_whisper_engine_set_language _ _ _) as [valid e'].
  rewrite bind_run. set (w2 := snd (modify _ w1)). assert (in_session no_session w2) as H2 by exact H1.
  clearbody w2. destruct valid; cbn [negb].
  2: { match goal with |- in_session _ (snd (?m _)) => assert (keeps (@upkeep X) m) as H by keeps_steps end. apply H, H2. }
  rewrite then_run3. apply (start_fields_opening start) in H2. set (w3 := snd (_ w2)) in *. clearbody w3.
  rewrite ask_bind. cbv beta. rewrite (op_decoder _ H2).
  rewrite bind_run. cbn [when]. change (snd (skip w3)) with w3. rewrite bind_run.
  apply (open_source_ok start) in H2. set (r := open_source start w3) in *. destruct (fst r); [|exact H2].
  cbn [negb]. match goal with |- in_session _ (snd (?m _)) => assert (keeps (@upkeep X) m) as H by keeps_steps end. apply H, H2.
Qed.

(** *** Frames and iterations *)

Lemma up_send_pair hdr payload :
  hdr_type hdr <> VW_MSG_CAPTION_SEGMENT -> keeps (@upkeep X) (send_header_and_payload hdr payload).
Proof.
  intros Ht w Hw. destruct (at_most_captions _ _ _ _ (send_pair_at_most hdr payload w)) as [-> C].
  split_and!; [done|reflexivity|]. eapply captions_weaken, C. intros f [E _] Hf. by rewrite E in Hf.
Qed.
Hint Extern 1 (keeps upkeep (send_header_and_payload _ _)) => apply up_send_pair; done : keeps.
Lemma up_hello_ack : keeps (@upkeep X) send_hello_ack.
Proof. unfold send_hello_ack. keeps_steps. Qed.
Hint Resolve up_hello_ack : keeps.
Lemma up_unauthenticated m : keeps (@upkeep X) (handle_unauthenticated config m).
Proof. unfold handle_unauthenticated. destruct m; keeps_steps. Qed.
Lemma up_invalid f d b : keeps (@upkeep X) (handle_invalid f d b).
Proof. unfold handle_invalid. destruct d as [[]|]; keeps_steps. Qed.
Hint Resolve up_unauthenticated up_invalid : keeps.
Hint Resolve proceeds_handle_pause proceeds_handle_resume proceeds_handle_position proceeds_stop proceeds_shutdown
  proceeds_translate_ctrl proceeds_model_ctrl proceeds_poll up_audio : keeps.

(** The captions of a step that may start a session. *)
Definition caption_for (id : vw_session_id_t) (f : wire_frame) : Prop :=
  hdr_type (wire_header f) = VW_MSG_CAPTION_SEGMENT ->
  exists seg, wire_payload f = layout (CAPTION_SEGMENT seg) /\ seg_session_id seg = id.
Definition starts w w' : Prop :=
  session_ok (w_session w) ->
  session_ok (w_session w') /\ captions (caption_for (s_id (w_session w'))) w w'.
Lemma proceeds_starts w w' : proceeds w w' -> starts w w'.
Proof.
  intros H Hw. destruct (H Hw) as (O & I & _ & C). split; [done|]. rewrite I.
  eapply captions_weaken, C. intros f Hf Ht. by apply Hf.
Qed.
Lemma starts_then w1 w2 w3 : captions uncaptioned w1 w2 -> (session_ok (w_session w1) -> session_ok (w_session w2)) ->
  proceeds w2 w3 -> starts w1 w3.
Proof.
  intros C2 O2 H Hw. destruct (proceeds_starts _ _ H (O2 Hw)) as [O3 C3]. split; [done|].
  eapply captions_trans, C3. eapply captions_weaken, C2. intros f Hf Ht. by destruct (Hf Ht).
Qed.

Lemma rest_proceeds : keeps (@proceeds X) (iteration_rest config).
Proof. unfold iteration_rest. keeps_steps. Qed.

Definition is_start (f : vw_worker_frame_t) : Prop := exists start, decode_frame f = Some (START_SESSION start).

Lemma handle_frame_cases f ready w :
  proceeds w (snd (handle_frame config f ready w))
  \/ is_start f /\ captions uncaptioned w (snd (handle_frame config f ready w))
     /\ (session_ok (w_session w) -> session_ok (w_session (snd (handle_frame config f ready w)))).
Proof.
  unfold handle_frame, gets. rewrite bind_run. cbn [fst snd]. destruct (w_authenticated w); cbn [negb].
  2: { left. match goal with |- proceeds _ (snd (?m _)) => assert (keeps (@proceeds X) m) as H by keeps_steps end. apply H. }
  destruct (decode_frame f) as [m|] eqn:Ed.
  - pose proof (decode_frame_start f m Ed) as Hm. destruct (vw_protocol_validate_payload m);
      [|left; by apply keeps_proceeds, up_invalid].
    destruct m; try (left; match goal with |- proceeds _ (snd (?m _)) =>
      assert (keeps (@proceeds X) m) as H by (cbn [handle_message]; keeps_steps) end; apply H).
    right. split; [by eexists|]. cbn [handle_message]. rewrite bind_run. simpl in Hm. split.
    + by apply silent_start.
    + by apply start_ok.
  - left. destruct (_ && _); match goal with |- proceeds _ (snd (?m _)) =>
      assert (keeps (@proceeds X) m) as H by (cbn [handle_message]; keeps_steps) end; apply H.
Qed.

Lemma iteration_cases frame ready w :
  let w' := snd (main_iteration config frame ready w) in
  proceeds w w' \/ (exists f, frame = Some f /\ is_start f) /\ starts w w'.
Proof.
  destruct frame as [f|]; [|left; apply rest_proceeds].
  cbv zeta. rewrite main_iteration_some. pose proof (handle_frame_cases f ready w) as Hf.
  destruct (handle_frame config f ready w) as [out w1]. cbn [snd] in Hf.
  assert (proceeds w1 (snd (match out with ExitLoop => (false, w1) | NextIteration => (true, w1)
    | GoOn => iteration_rest config w1 end))) as H by (destruct out; [apply rest_proceeds|reflexivity..]).
  destruct Hf as [Hf|(Hs & C & O)]; [left; by etrans|right]. split; [by exists f|]. by apply (starts_then w w1).
Qed.
Lemma iterates_cases frame ready w :
  let w' := worker_iterates config frame ready w in
  proceeds w w' \/ (exists f, frame = Some f /\ is_start f) /\ starts w w'.
Proof.
  unfold worker_iterates. pose proof (iteration_cases frame ready w) as H.
  by destruct (main_iteration config frame ready w) as [[] w1].
Qed.

Lemma step_cases ready w w' :
  worker_step config ready w w' ->
  proceeds w w'
  \/ (exists f q, vw_worker_queue_pop (w_queue w) = (Some f, q) /\ is_start f) /\ starts w w'.
Proof.
  intros Hs. destruct Hs as [w f q _ Hq|w _ _|w type payload len|w|w a x' Ha].
  - destruct (iterates_cases (Some f) ready (w <| w_queue := q |>)) as [H|[(f' & [= <-] & Hf) H]]; [by left|].
    right. split; [by exists f, q|done].
  - destruct (iterates_cases None ready w) as [H|[(f & ? & _) _]]; [by left|done].
  - left. by apply upkeep_proceeds, up_quiet.
  - left. by apply upkeep_proceeds, up_quiet.
  - left. apply upkeep_proceeds.
    apply (up_session (fun s => s <| s_translator := Some (fst (translation_threads x' a)) |>)). same_session_ok.
Qed.
Lemma session_ok_step ready w w' : worker_step config ready w w' -> session_ok (w_session w) -> session_ok (w_session w').
Proof. intros Hs Hw. by destruct (step_cases ready w w' Hs) as [H|[_ H]]; apply H. Qed.
Lemma session_ok_reach ready w w' :
  rtc (worker_step config ready) w w' -> session_ok (w_session w) -> session_ok (w_session w').
Proof. induction 1; eauto using session_ok_step. Qed.

(** A created buffer. *)
Lemma create_buffer_ok n b : 0 < n -> vw_audio_buffer_create n = Some b -> abuf_inv b /\ ab_count b = 0.
Proof.
  intros Hn H. unfold vw_audio_buffer_create in H. case_ifs H. injection H as <-.
  split; [|done]. split; simpl; try lia. by rewrite zlen_replicate by lia.
Qed.
Lemma session_start_ok audio translator :
  vw_audio_buffer_create VW_LOOKAHEAD_BUFFER_SAMPLES = Some audio -> session_ok (session_start audio translator).
Proof.
  intros H. apply create_buffer_ok in H as [Hi Hc]; [|done]. by split.
Qed.

(** *** The end of the media *)

(** Calls that leave a part of the session alone. *)
Definition same_part {A} (part : session -> A) w w' : Prop := part (w_session w') = part (w_session w).
#[local] Instance same_part_preorder {A} (part : session -> A) : PreOrder (same_part part).
Proof. split; [done|]. unfold same_part. intros ? ? ? ? ?. congruence. Qed.
Lemma part_quiet {A B} (part : session -> A) (m : M (worker X) B) :
  (forall w, w_session (snd (m w)) = w_session w) -> keeps (same_part part) m.
Proof. intros H w. unfold same_part. by rewrite H. Qed.
Lemma part_external {A B} (part : session -> A) (f : X -> B * X) : keeps (same_part part) (external f).
Proof. apply part_quiet. intros w. unfold external. by destruct (f (w_ext w)). Qed.
Lemma part_message {A} (part : session -> A) m cap : 0 <= cap -> keeps (same_part part) (send_message m cap).
Proof. intros Hc. apply part_quiet. intros w. by apply send_message_log. Qed.
Hint Resolve part_external : keeps.
Lemma part_diag_send {A} (part : session -> A) code detail :
  keeps (same_part part) (vw_worker_translation_diag_send code detail).
Proof. apply part_quiet. intros w. by destruct (diag_send_log code detail w). Qed.
Hint Resolve part_diag_send : keeps.
Hint Extern 1 (keeps (same_part _) (modify _)) => intros ?; reflexivity : keeps.
Hint Extern 1 (keeps (same_part _) (ask _)) => intros ?; reflexivity : keeps.
Hint Extern 1 (keeps (same_part _) (on_session _)) => intros ?; reflexivity : keeps.
Hint Extern 1 (keeps (same_part _) (send_message _ _)) => apply part_message; done : keeps.
Lemma audio_transcribe samples : keeps (same_part s_audio) (transcribe samples).
Proof. unfold transcribe. keeps_steps. Qed.
Lemma audio_push_segments pts held : keeps (same_part s_audio) (push_segments pts held).
Proof. unfold push_segments, segment_indices, push_segment. keeps_steps. Qed.

Definition buffered w : Z := ab_count (s_audio (w_session w)).

Lemma window_length b n : abuf_inv b -> 0 < n -> zlen (fst (vw_audio_buffer_get_samples b n)) = Z.min n (ab_count b).
Proof.
  intros Hi Hn. pose proof (abuf_inv_count b Hi). unfold vw_audio_buffer_get_samples.
  destruct (Z.eqb_spec n 0); [lia|]. destruct (Z.eqb_spec (ab_count b) 0) as [E|]; cbn [orb fst]; [rewrite E; simpl; rewrite zlen_nil; lia|].
  rewrite zlen_ring_read. case_match; lia.
Qed.
Lemma drain_buffered n w :
  abuf_inv (s_audio (w_session w)) -> 0 <= n ->
  abuf_inv (s_audio (w_session (snd (drain_audio n w)))) /\ buffered (snd (drain_audio n w)) = buffered w - Z.min n (buffered w).
Proof. intros Hi Hn. by apply abuf_drain_ok. Qed.

(** An iteration of the flush ends it with nothing left, fails, or uses audio up. *)
Lemma flush_step_spec w :
  abuf_inv (s_audio (w_session w)) ->
  let w' := snd (flush_step w) in
  abuf_inv (s_audio (w_session w'))
  /\ match fst (flush_step w) with
     | Some true => buffered w' = 0
     | Some false => True
     | None => 0 <= buffered w' < buffered w
     end.
Proof.
  intros Hi. unfold flush_step. rewrite bind_run. change (snd (audio_count w)) with w. change (fst (audio_count w)) with (buffered w).
  pose proof (abuf_inv_count _ Hi) as Hb. fold (buffered w) in Hb.
  destruct (Z.leb_spec (buffered w) 0); [split; [done|]; simpl; lia|].
  rewrite bind_run. unfold read_window, ask, gets. rewrite bind_run. cbn [fst snd].
  pose proof (window_length (s_audio (w_session w)) VW_CHUNK_MAX_SAMPLES Hi ltac:(done)) as Hl. fold (buffered w) in Hl.
  destruct (vw_audio_buffer_get_samples _ _) as [raw pts]. cbn [fst snd mret M_ret] in *.
  set (samples := map f32_of_s16 raw). assert (zlen samples = zlen raw) as Hs by (subst samples; unfold zlen; by rewrite length_map).
  assert (0 < zlen samples <= buffered w) as Hpos by (rewrite Hs, Hl; unfold VW_CHUNK_MAX_SAMPLES; lia).
  destruct (Z.eqb_spec (zlen samples) 0); [lia|]. rewrite bind_run. set (r := external vad_ctx w).
  assert (w_session (snd r) = w_session w) as Er by apply (part_external (fun s => s)).
  clearbody r. cbv zeta.
  destruct (find_boundary_ok (fst r) samples true) as [Hok _]. unfold boundary_ok in Hok.
  set (bd := vw_vad_find_chunk_boundary _ _ _) in *. destruct (bd_found bd); cbn [negb orb mret M_ret fst snd]; [|rewrite Er; by split].
  destruct (Z.eqb_spec (bd_cut bd) 0), (Z.eqb_spec (bd_drain bd) 0); cbn [andb mret M_ret fst snd]; try (rewrite Er; by split); try lia.
  - destruct (Z.ltb_spec 0 (bd_drain bd)); [|lia]. rewrite bind_run. cbn [fst snd mret M_ret].
    destruct (drain_buffered (bd_drain bd) (snd r)) as [H1 H2]; [by rewrite Er|lia|]. split; [done|].
    change (buffered (snd r)) with (ab_count (s_audio (w_session (snd r)))) in H2. rewrite Er in H2. fold (buffered w) in H2. lia.
  - destruct (Z.ltb_spec 0 (bd_drain bd)); [lia|]. rewrite bind_run. set (r2 := transcribe _ (snd r)).
    assert (s_audio (w_session (snd r2)) = s_audio (w_session w)) as E2 by (rewrite <- Er; apply audio_transcribe).
    clearbody r2. destruct (fst r2); cbn [negb mret M_ret fst snd]; [|rewrite E2; by split]. rewrite !bind_run. cbn [fst snd mret M_ret].
    set (w3 := snd (push_segments _ _ _)). assert (s_audio (w_session w3) = s_audio (w_session w)) as E3 by (rewrite <- E2; apply audio_push_segments).
    destruct (drain_buffered (bd_cut bd) w3) as [H1 H2]; [by rewrite E3|lia|]. split; [done|].
    change (buffered w3) with (ab_count (s_audio (w_session w3))) in H2. rewrite E3 in H2. fold (buffered w) in H2. lia.
Qed.
Lemma flush_loop_spec fuel : forall w,
  abuf_inv (s_audio (w_session w)) -> buffered w < Z.of_nat fuel ->
  fst (flush_loop fuel w) = true -> buffered (snd (flush_loop fuel w)) = 0.
Proof.
  induction fuel as [|fuel IH]; intros w Hi Hf; cbn [flush_loop].
  { pose proof (abuf_inv_count _ Hi). unfold buffered in *. lia. }
  rewrite bind_run. destruct (flush_step_spec w Hi) as [H1 H2].
  destruct (fst (flush_step w)) as [[]|]; [done|done|]. apply IH; [done|lia].
Qed.
Lemma flush_complete w :
  abuf_inv (s_audio (w_session w)) -> fst (vw_worker_flush_audio_tail w) = true ->
  buffered (snd (vw_worker_flush_audio_tail w)) = 0.
Proof.
  intros Hi. unfold vw_worker_flush_audio_tail, gets. rewrite bind_run. cbn [fst snd].
  destruct (w_engine w); [|done]. rewrite bind_run. change (snd (audio_count w)) with w. change (fst (audio_count w)) with (buffered w).
  apply flush_loop_spec; [done|]. pose proof (abuf_inv_count _ Hi). unfold buffered in *. lia.
Qed.

Definition pending w : Z := sb_count (s_builder (w_session w)).
Lemma builder_submit seg : keeps (same_part s_builder) (submit_segment seg).
Proof. unfold_submit. keeps_steps. Qed.
Lemma builder_caption seg : keeps (same_part s_builder) (vw_worker_send_caption_segment seg).
Proof. unfold vw_worker_send_caption_segment. keeps_steps. Qed.
Hint Resolve builder_submit builder_caption : keeps.

Lemma emit_tail_step_spec w :
  session_ok (w_session w) ->
  match fst (emit_tail_step w) with
  | Some true => pending (snd (emit_tail_step w)) = 0
  | Some false => True
  | None => pending (snd (emit_tail_step w)) = pending w - 1
  end.
Proof.
  intros Hw. unfold emit_tail_step. rewrite bind_run.
  destruct (pop_segment_cases w Hw) as [[E ->]|(seg & w1 & -> & _ & _ & _ & Hp)]; cbn [fst snd]; [exact E|].
  unfold pending. rewrite <- Hp. rewrite ask_bind. cbv beta zeta. rewrite bind_run. set (r := submit_segment _ w1).
  assert (s_builder (w_session (snd r)) = s_builder (w_session w1)) as E by apply builder_submit. rewrite <- E.
  rewrite bind_run. clearbody r. destruct (fst r); [done|]. set (r2 := vw_worker_send_caption_segment _ (snd r)).
  assert (s_builder (w_session (snd r2)) = s_builder (w_session (snd r))) as E2 by apply builder_caption.
  clearbody r2. cbn [mret M_ret fst snd]. rewrite E2. by destruct (fst r2).
Qed.
Lemma emit_tail_loop_spec fuel : forall w,
  session_ok (w_session w) -> pending w < Z.of_nat fuel ->
  fst (emit_tail_loop fuel w) = true -> pending (snd (emit_tail_loop fuel w)) = 0.
Proof.
  induction fuel as [|fuel IH]; intros w Hw Hf; cbn [emit_tail_loop].
  { pose proof (sb_inv_count _ (so_builder _ Hw)). unfold pending in *. lia. }
  rewrite bind_run. pose proof (emit_tail_step_spec w Hw) as H.
  destruct (fst (emit_tail_step w)) as [[]|]; [done|done|]. apply IH; [by apply up_emit_tail_step|lia].
Qed.
Lemma emit_tail_complete w :
  session_ok (w_session w) -> fst (vw_worker_emit_tail_segments w) = true ->
  pending (snd (vw_worker_emit_tail_segments w)) = 0.
Proof.
  intros Hw. unfold vw_worker_emit_tail_segments, ask, gets. rewrite bind_run. cbn [fst snd].
  apply emit_tail_loop_spec; [done|]. pose proof (sb_inv_count _ (so_builder _ Hw)). unfold pending in *. lia.
Qed.

(** Emission does not touch the audio. *)
Lemma audio_emit_tail_loop fuel : keeps (same_part s_audio) (emit_tail_loop fuel).
Proof.
  induction fuel as [|fuel IH]; cbn [emit_tail_loop emit_tail_step]; [apply (keeps_ret (same_part s_audio))|].
  unfold emit_tail_step, pop_segment, vw_worker_send_caption_segment. unfold_submit. keeps_steps.
Qed.
Lemma finish_tail_spec msg w :
  session_ok (w_session w) -> live (w_session w) ->
  let w' := snd (finish_tail msg skip w) in
  w_fatal w' = true /\ w_running w' = false \/ buffered w' = 0 /\ pending w' = 0.
Proof.
  intros Hw Hl. unfold finish_tail. rewrite bind_run. set (r := vw_worker_flush_audio_tail w).
  assert (session_ok (w_session (snd r))) as H1 by (by apply up_flush).
  pose proof (flush_complete w (so_audio _ Hw)) as Hf. fold r in Hf. clearbody r.
  destruct (fst r); cbn [negb]; [|left; rewrite ask_bind; cbv beta; by rewrite bind_run].
  rewrite bind_run. set (r2 := vw_worker_emit_tail_segments (snd r)).
  assert (s_audio (w_session (snd r2)) = s_audio (w_session (snd r))) as E.
  { subst r2. unfold vw_worker_emit_tail_segments, ask, gets. rewrite bind_run. apply audio_emit_tail_loop. }
  pose proof (emit_tail_complete (snd r) H1) as Hp. fold r2 in Hp. clearbody r2.
  destruct (fst r2); cbn [negb]; [right|by left]. split; [|by apply Hp].
  change (buffered (snd (skip (snd r2)))) with (ab_count (s_audio (w_session (snd r2)))). rewrite E. by apply Hf.
Qed.
End upkeep.

(** ** Properties *)

(** C3: Whatever frames arrive and however the threads interleave, the session
    stays well formed: its audio ring and its cue queue are consistent, the next
    inference is due within one window, a media source is open exactly while an
    active session plays from it, and neither audio nor cues are kept outside of
    an active, unpaused session. *)
Theorem worker_session_invariant {X} `{!WorkerEnv X} (config : vw_worker_config_t) (ready : bool)
    audio queue translator engine (x : X) w :
  vw_audio_buffer_create VW_LOOKAHEAD_BUFFER_SAMPLES = Some audio ->
  rtc (worker_step config ready) (worker_start audio queue translator engine x) w ->
  session_ok (w_session w).
Proof. intros Ha Hr. apply session_ok_reach in Hr; [done|]. by apply session_start_ok. Qed.

(** C8: No caption reaches the wrong session: every caption a step sends carries the
    identifier of the session the step is left in, and captions are only sent in a
    step that finds the session active or handles a START. *)
Theorem worker_captions_current {X} `{!WorkerEnv X} (config : vw_worker_config_t) (ready : bool)
    audio queue translator engine (x : X) w w' :
  vw_audio_buffer_create VW_LOOKAHEAD_BUFFER_SAMPLES = Some audio ->
  rtc (worker_step config ready) (worker_start audio queue translator engine x) w ->
  worker_step config ready w w' ->
  exists fs, w_sent w' = w_sent w ++ concat (map wire_log fs)
    /\ Forall (fun f => hdr_type (wire_header f) = VW_MSG_CAPTION_SEGMENT ->
         (exists seg, wire_payload f = layout (CAPTION_SEGMENT seg) /\ seg_session_id seg = s_id (w_session w'))
         /\ (s_active (w_session w) = true
             \/ exists frame q, vw_worker_queue_pop (w_queue w) = (Some frame, q) /\ is_start frame)) fs.
Proof.
  intros Ha Hr Hs. assert (session_ok (w_session w)) as Hw
    by (apply session_ok_reach in Hr; [done|by apply session_start_ok]).
  destruct (step_cases config ready w w' Hs) as [H|[Hf H]].
  - destruct (H Hw) as (_ & I & _ & fs & E & F). exists fs. split; [done|]. eapply Forall_impl; [|exact F].
    intros f Hc Ht. destruct (Hc Ht) as [Hac Hseg]. rewrite I. auto.
  - destruct (H Hw) as (_ & fs & E & F). exists fs. split; [done|]. eapply Forall_impl; [|exact F]. auto.
Qed.


(** The session a message is for, where it has one. *)
Definition message_session (m : message) : option vw_session_id_t :=
  match m with
  | POSITION p => Some (pos_session_id p)
  | AUDIO_PCM p => Some (audio_session_id p)
  | PAUSE c | RESUME c | STOP_SESSION c => Some (ctl_session_id c)
  | TRANSLATE_CTRL p => Some (tctl_session_id p)
  | _ => None
  end.

(** A message of another session changes nothing at all: not the session, not
    what was sent, not the environment. *)
Theorem foreign_message_ignored {X} `{!WorkerEnv X} (config : vw_worker_config_t) (ready : bool)
    (m : message) (id : vw_session_id_t) (w : worker X) :
  message_session m = Some id -> id <> s_id (w_session w) ->
  handle_message config m ready w = (tt, w).
Proof.
  intros Hm Hid. destruct m; try done; injection Hm as <-; cbn [handle_message];
    unfold handle_position, handle_audio, handle_pause, handle_resume, handle_stop, handle_translate_ctrl, for_session;
    rewrite ask_bind; cbv beta; rewrite bool_decide_false by done; cbn [negb]; by rewrite ?orb_true_r.
Qed.

(** ** Witnesses

    A worker whose engine hears one phrase, fed a HELLO, a START, four samples and
    a STOP at the end of the media. *)
#[local] Instance talking_env : WorkerEnv unit := {
  ipc_send x _ := (true, x);
  whisper_lang_id l := if bool_decide (l = str "en") then 0 else -1;
  whisper_full x _ _ _ := ((0, 1000, [mk_cpp_segment 0 100 (Some (str "Hello there")) 0]), x);
  vad_ctx x := (Some (mk_vad (fun _ => true) (fun _ => Some [(0, 1)])), x);
  vad_reset x := x;
  source_open x _ := (false, x);
  source_seek x _ := (false, x);
  source_read x _ := ((VW_SOURCE_DECODER_READ_EOF, [], -1), x);
  source_close x := x;
  download_start x _ := (false, x);
  download_poll x := (mk_progress 0 0 0 0 [], x);
  download_abort x := x;
  download_free x := x;
  monotonic_time_us x := (0, x);
  translation_threads x a := (a, x)
}.
#[local] Abbreviation demo_config := vw_worker_config_init_defaults.
Definition life_id : vw_session_id_t := zreplicate VW_SESSION_ID_BYTES 7.
Definition life_audio : vw_audio_buffer_t :=
  mk_abuf (zreplicate VW_LOOKAHEAD_BUFFER_SAMPLES 0) VW_LOOKAHEAD_BUFFER_SAMPLES 0 0 (-1) 0 0.
Definition life_queue : vw_worker_queue_t := default (mk_wq [] 1 0 0 0 0) (vw_worker_queue_create 4).
Definition life_engine : option vw_whisper_engine_t :=
  vw_whisper_engine_init (str "model.bin") VW_WORKER_BACKEND_CPU 0 true [] [].
Definition life_start : worker unit := worker_start life_audio life_queue None life_engine tt.

(** A message arrives; then it is handled. *)
Definition arrives (m : message) (w : worker unit) : worker unit :=
  w <| w_queue := snd (vw_worker_queue_push (w_queue w) (message_type m) (Some (layout m)) (zlen (layout m))) |>.
Definition handled (m : message) (w : worker unit) : worker unit :=
  worker_iterates demo_config (Some (mk_frame (message_type m) (zlen (layout m)) (Some (layout m)))) true
    (w <| w_queue := snd (vw_worker_queue_pop (w_queue w)) |>).
Definition life_messages : list message :=
  [HELLO (mk_hello 1 1 (cfg_auth_token demo_config) 0 (Some []));
   START_SESSION (mk_start life_id 0 16000 1 VW_SAMPLE_FORMAT_S16LE (cpad 64 (str "tiny")) (cpad 16 (str "en"))
                    VW_SOURCE_LIVE_AUDIO 0 (cpad 1024 []));
   AUDIO_PCM (mk_audio life_id 0 250 8 (Some [1; 0; 2; 0; 3; 0; 4; 0]))].
Definition life_stop : message := STOP_SESSION (mk_control life_id VW_CTRL_REASON_MEDIA_END).
Definition life_playing : worker unit := fold_left (fun w m => handled m (arrives m w)) life_messages life_start.
Definition life_stopping : worker unit := arrives life_stop life_playing.
Definition life_stopped : worker unit := handled life_stop life_stopping.


Lemma handled_step m w :
  w_running w = true ->
  fst (vw_worker_queue_pop (w_queue w)) = Some (mk_frame (message_type m) (zlen (layout m)) (Some (layout m))) ->
  worker_step demo_config true w (handled m w).
Proof. intros Hr Hp. apply step_frame; [done|]. by rewrite <- Hp, <- surjective_pairing. Qed.
Lemma handled_reach m w :
  w_running w = true ->
  fst (vw_worker_queue_pop (w_queue (arrives m w))) = Some (mk_frame (message_type m) (zlen (layout m)) (Some (layout m))) ->
  rtc (worker_step demo_config true) w (handled m (arrives m w)).
Proof.
  intros Hr Hp. eapply rtc_l; [apply step_receive|]. apply rtc_once. by apply handled_step.
Qed.
Lemma life_reach : rtc (worker_step demo_config true) life_start life_playing.
Proof.
  unfold life_playing, life_messages. cbn [fold_left].
  repeat (etrans; [|apply handled_reach; vm_compute; reflexivity]). reflexivity.
Qed.
Lemma life_stopping_reach : rtc (worker_step demo_config true) life_start life_stopping.
Proof. eapply rtc_r; [apply life_reach|apply step_receive]. Qed.

Lemma worker_session_invariant_witness :
  rtc (worker_step demo_config true) life_start life_playing
  /\ s_active (w_session life_playing) = true /\ buffered life_playing = 4
  /\ session_ok (w_session life_playing).
Proof.
  split_and!; [apply life_reach|vm_compute; reflexivity|vm_compute; reflexivity|].
  apply (worker_session_invariant demo_config true life_audio life_queue None life_engine tt life_playing);
    [reflexivity|apply life_reach].
Defined.

Lemma worker_captions_current_witness :
  w_sent life_stopping <> w_sent life_stopped
  /\ exists fs, w_sent life_stopped = w_sent life_stopping ++ concat (map wire_log fs)
     /\ Forall (fun f => hdr_type (wire_header f) = VW_MSG_CAPTION_SEGMENT ->
          (exists seg, wire_payload f = layout (CAPTION_SEGMENT seg) /\ seg_session_id seg = s_id (w_session life_stopped))
          /\ (s_active (w_session life_stopping) = true
              \/ exists frame q, vw_worker_queue_pop (w_queue life_stopping) = (Some frame, q) /\ is_start frame)) fs.
Proof.
  split; [intros E; apply (f_equal length) in E; vm_compute in E; discriminate|].
  apply (worker_captions_current demo_config true life_audio life_queue None life_engine tt);
    [reflexivity|apply life_stopping_reach|apply handled_step; vm_compute; reflexivity].
Defined.


Lemma foreign_message_ignored_witness :
  handle_message demo_config (PAUSE (mk_control (zreplicate VW_SESSION_ID_BYTES 8) 1)) true life_playing = (tt, life_playing).
Proof.
  apply (foreign_message_ignored demo_config true _ (zreplicate VW_SESSION_ID_BYTES 8));
    [reflexivity|vm_compute; discriminate].
Defined.
