(* ===== verification/WorkerStart.v ===== *)
(** * The worker from start to exit

    The rest of [vw_worker_run] of [src/worker/src/vw_worker.c]: what comes before and after
    the loop of [WorkerSession] - opening the endpoint, resolving and loading the models,
    allocating, starting the threads, and giving all of it back - with
    [vw_vad_init_default] of [src/worker/src/vw_vad.c]. *)

From stdpp Require Import relations.
From S2P Require Import Prelude.
From S2P Require Import CString.
From S2P Require Import State.
From S2P Require Import ProtocolTypes.
From S2P Require Import AudioBuffer.
From S2P Require Import WorkerQueue.
From S2P Require Import TranslateAsync.
From S2P Require Import ModelDownload.
From S2P Require Import WorkerConfig.
From S2P Require Import WhisperEngine.
From S2P Require Import WorkerSession.
From S2P Require Import WorkerLifecycle.
#[local] Open Scope Z_scope.

(** ** What it holds *)

(** The endpoint, the buffers and objects, and the two kinds of threads: [TTranslator] is
    the pipeline with its threads. *)
Inductive resource :=
  | THandle | TWindow | TEngine | TVad | TAudio | TBuilder | TQueue | TTranslator | TReader | TDecoder | TDownload.
#[global] Instance resource_eq_dec : EqDecision resource.
Proof. solve_decision. Defined.
Inductive resource_event := Acquired (r : resource) | Released (r : resource).
#[global] Instance resource_event_eq_dec : EqDecision resource_event.
Proof. solve_decision. Defined.

Class StartEnv (X : Type) := {
  getenv : X -> list Z -> option (list Z);
  fopen_ok : X -> list Z -> bool;
  self_exe : X -> option (list Z);
  ipc_listen : X -> list Z -> bool * X;
  (** [malloc] and the creation of an object or a thread: whether it succeeds. *)
  create : X -> resource -> bool * X;
  (** [free], [vw_ipc_close], joining a thread and the like. *)
  destroy : X -> resource -> X;
  (** [whisper_init_from_file_with_params] for a backend and a device. *)
  whisper_init : X -> list Z -> vw_worker_backend_t -> Z -> bool * X;
  gpu_devices : X -> list (bool * bool);
  (** [whisper_vad_default_context_params().use_gpu] and
      [whisper_vad_init_from_file_with_params]. *)
  vad_default_gpu : X -> bool;
  whisper_vad_init : X -> list Z -> bool -> bool * X
}.

(** ** Before the loop *)

Record start_state {X : Type} := mk_start_state { ss_log : list resource_event; ss_ext : X }.
Arguments start_state X : clear implicits.
Arguments mk_start_state {X}.
#[global] Instance settable_start_state {X} : Settable (start_state X) := fun s => mk_start_state (ss_log s) (ss_ext s).
#[global] Instance set_ss_log {X} : Setter (@ss_log X) := ltac:(setter).
#[global] Instance set_ss_ext {X} : Setter (@ss_ext X) := ltac:(setter).

(** What the loop is entered with: the worker, whether there is a download directory, and
    the pointers that the loop does not assign. *)
Record started {X : Type} := mk_started {
  sd_worker : worker X; sd_dir_ready : bool; sd_engine : bool; sd_vad : bool; sd_translator : bool
}.
Arguments started X : clear implicits.
Arguments mk_started {X}.

(** [p != NULL] *)
Definition present {A} (p : option A) : bool := match p with Some _ => true | None => false end.

Section start.
Context {X : Type} `{!WorkerEnv X} `{!StartEnv X} (config : vw_worker_config_t).
#[local] Abbreviation S := (M (start_state X)).

Definition sys {A} (f : X -> A * X) : S A := fun s => let '(a, x) := f (ss_ext s) in (a, s <| ss_ext := x |>).
Definition consult {A} (f : X -> A) : S A := gets (fun s => f (ss_ext s)).
Definition resource_note (e : resource_event) : S unit := modify (fun s => s <| ss_log := ss_log s ++ [e] |>).
Definition acquire (r : resource) : S bool :=
  ok ← sys (fun x => create x r);
  when ok (resource_note (Acquired r)) ;; mret ok.
Definition release (r : resource) : S unit := modify (fun s => s <| ss_ext := destroy (ss_ext s) r |>) ;; resource_note (Released r).
(** [if (p) free(p)] *)
Definition release_if (held : bool) (r : resource) : S unit := when held (release r).

Definition vw_vad_init_default (path_model : list Z) : S bool :=
  if zlen path_model =? 0 then mret false
  else
    default_gpu ← consult vad_default_gpu;
    force_cpu ← consult (fun x => getenv x (str "VW_FORCE_CPU"));
    let use_gpu := if bool_decide (force_cpu = Some (str "1")) then false else default_gpu in
    vctx ← sys (fun x => whisper_vad_init x path_model use_gpu);
    when vctx (sys (fun x => (tt, vad_reset x))) ;;
    mret vctx.

(** [vw_whisper_engine_init]: the context, the walk over the devices, the run on silence. *)
Definition load_engine (path : list Z) (backend : vw_worker_backend_t) (gpu_device : Z) : S (option vw_whisper_engine_t) :=
  if zlen path =? 0 then mret None
  else
    ctx ← sys (fun x => whisper_init x path backend gpu_device);
    if negb ctx then mret None
    else
      devices ← consult gpu_devices;
      '(_, _, warm_up) ← sys (fun x => whisper_full x (str "en") 4 (zreplicate 1600 0));
      resource_note (Acquired TEngine) ;;
      mret (vw_whisper_engine_init path backend gpu_device true devices warm_up).
Definition start_engine (path : list Z) : S (option vw_whisper_engine_t) :=
  force_cpu ← consult (fun x => getenv x (str "VW_FORCE_CPU"));
  let backend := if bool_decide (force_cpu = Some (str "1")) then VW_WORKER_BACKEND_CPU else cfg_backend config in
  let language := if zlen (cfg_language config) =? 0 then str "en" else cfg_language config in
  engine ← load_engine path backend (cfg_gpu_device config);
  match engine with
  | None => mret None
  | Some e =>
      let '(ok, e) := vw_whisper_engine_set_language whisper_lang_id e language in
      if negb ok then release TEngine ;; mret None
      else mret (Some (vw_whisper_engine_set_n_threads e (cfg_n_threads config)))
  end.

Definition model_path (x : X) : list Z :=
  default (cfg_model_path config)
    (vw_worker_config_resolve_model_path (fopen_ok x) (self_exe x) (getenv x (str "XDG_DATA_HOME")) (getenv x (str "HOME"))
       config VW_PATH_MAX_BYTES).
Definition start_vad (path : list Z) : S bool :=
  vad_path ← consult (fun x => vw_worker_config_resolve_vad_model_path (fopen_ok x) (self_exe x) config (Some path) VW_PATH_MAX_BYTES);
  match vad_path with
  | None => mret false
  | Some vad_path => loaded ← vw_vad_init_default vad_path; when loaded (resource_note (Acquired TVad)) ;; mret loaded
  end.
Definition dir_ready (x : X) : bool :=
  negb (zlen (cfg_model_dir config) =? 0)
  || bool_decide (vw_model_download_default_dir (getenv x (str "XDG_DATA_HOME")) (getenv x (str "HOME")) VW_PATH_MAX_BYTES <> None).

(** The releases of a start that fails, and of the end. *)
Definition release_objects (audio builder engine vad : bool) : S unit :=
  release_if audio TAudio ;; release_if builder TBuilder ;; release_if engine TEngine ;; release_if vad TVad.

(** [None]: it returns 1. *)
Definition vw_worker_start : S (option (started X)) :=
  handle ← sys (fun x => ipc_listen x (cfg_pipe_name config));
  if negb handle then mret None
  else
    resource_note (Acquired THandle) ;;
    window ← acquire TWindow;
    if negb window then release THandle ;; mret None
    else
      path ← consult model_path;
      engine ← start_engine path;
      let has_engine := present engine in
      vad ← start_vad path;
      ready ← consult dir_ready;
      audio ← acquire TAudio;
      builder ← acquire TBuilder;
      match (if audio && builder then vw_audio_buffer_create VW_LOOKAHEAD_BUFFER_SAMPLES else None) with
      | None => release_objects audio builder has_engine vad ;; release TWindow ;; release THandle ;; mret None
      | Some audio_buf =>
          queue ← acquire TQueue;
          match (if queue : bool then vw_worker_queue_create VW_WORKER_FRAME_QUEUE_CAPACITY else None) with
          | None => release TWindow ;; release_objects true true has_engine vad ;; release THandle ;; mret None
          | Some frames =>
              translator ← acquire TTranslator;
              reader ← acquire TReader;
              if negb reader then
                release_if translator TTranslator ;; release TQueue ;; release TWindow ;;
                release_objects true true has_engine vad ;; release THandle ;; mret None
              else
                x ← consult (fun x => x);
                mret (Some (mk_started
                  (worker_start audio_buf frames (if translator then Some vw_translate_async_create else None) engine x)
                  ready has_engine vad translator))
          end
      end.

(** ** After the loop *)

Definition vw_worker_exit (sd : started X) (w : worker X) : S Z :=
  release TReader ;;
  release_if (sd_translator sd) TTranslator ;;
  release TQueue ;;
  release_if (s_decoder (w_session w)) TDecoder ;;
  release_if (w_model_dl w) TDownload ;;
  release TWindow ;; release_objects true true (sd_engine sd) (sd_vad sd) ;;
  release THandle ;;
  mret (exit_code w).
End start.

(** ** What is held *)

Definition acquired (l : list resource_event) : list resource := omap (fun e => match e with Acquired r => Some r | _ => None end) l.
Definition released (l : list resource_event) : list resource := omap (fun e => match e with Released r => Some r | _ => None end) l.
Lemma acquired_app l k : acquired (l ++ k) = acquired l ++ acquired k.
Proof. apply omap_app. Qed.
Lemma released_app l k : released (l ++ k) = released l ++ released k.
Proof. apply omap_app. Qed.
Definition opt (b : bool) (r : resource) : list resource := if b then [r] else [].
(** What the pointers of the start stand for, and what the session has opened since. *)
Definition start_set {X} (sd : started X) : list resource :=
  opt (sd_translator sd) TTranslator ++ [TQueue; TWindow; TAudio; TBuilder] ++ opt (sd_engine sd) TEngine ++ opt (sd_vad sd) TVad ++ [TReader; THandle].
Definition session_set {X} (w : worker X) : list resource :=
  opt (s_decoder (w_session w)) TDecoder ++ opt (w_model_dl w) TDownload.

Section resources.
Context {X : Type} `{!WorkerEnv X} `{!StartEnv X} (config : vw_worker_config_t).
#[local] Abbreviation S := (M (start_state X)).

(** [base]: what was acquired elsewhere. *)
Context (base : list resource).
Definition holds (l : list resource) (s : start_state X) : Prop := acquired (ss_log s) ++ base ≡ₚ released (ss_log s) ++ l.
Definition same_resources (s s' : start_state X) : Prop := ss_log s' = ss_log s.
#[local] Instance same_resources_preorder : PreOrder same_resources.
Proof. split; [done|]. intros s1 s2 s3 A B. unfold same_resources in *. congruence. Qed.
Lemma holds_keep {A} l (m : S A) : keeps same_resources m -> triple (holds l) m (fun _ => holds l).
Proof. intros Hm s Hs. unfold holds. by rewrite (Hm s). Qed.
Lemma same_resources_sys {A} (f : X -> A * X) : keeps same_resources (sys f).
Proof. intros s. unfold sys. by destruct (f (ss_ext s)). Qed.
Lemma same_resources_consult {A} (f : X -> A) : keeps same_resources (consult f).
Proof. by intros s. Qed.
#[local] Hint Resolve same_resources_sys same_resources_consult : keeps.
#[local] Ltac step_keeps := eapply triple_bind; [apply holds_keep; keeps_steps|cbv beta].

Lemma note_acquired r l l' : l' ≡ₚ r :: l -> triple (holds l) (resource_note (X := X) (Acquired r)) (fun _ => holds l').
Proof.
  intros Hl s Hs. unfold holds in *. change (ss_log (snd (resource_note (Acquired r) s))) with (ss_log s ++ [Acquired r]).
  rewrite acquired_app, released_app, Hl. cbn. rewrite app_nil_r, <- app_assoc. cbn. rewrite <- Permutation_middle, Hs. apply Permutation_middle.
Qed.
Lemma note_released r l l' : l ≡ₚ r :: l' -> triple (holds l) (resource_note (X := X) (Released r)) (fun _ => holds l').
Proof.
  intros Hl s Hs. unfold holds in *. change (ss_log (snd (resource_note (Released r) s))) with (ss_log s ++ [Released r]).
  rewrite acquired_app, released_app. cbn. rewrite app_nil_r, Hs, Hl. by rewrite <- app_assoc.
Qed.
Lemma acquire_ok r l : triple (holds l) (acquire (X := X) r) (fun ok => holds (opt ok r ++ l)).
Proof.
  unfold acquire. step_keeps. intros ok.
  apply (triple_bind _ _ _ (fun _ => holds (opt ok r ++ l))); [|by intros ? s]. destruct ok; cbn [when]; [by apply note_acquired|].
  apply holds_keep. keeps_steps.
Qed.
Lemma release_ok r l l' : l ≡ₚ r :: l' -> triple (holds l) (release (X := X) r) (fun _ => holds l').
Proof.
  intros Hl. unfold release. apply (triple_bind _ _ _ (fun _ => holds l)); [by intros s|]. intros ?. by apply note_released.
Qed.
#[local] Ltac step_release := cbv beta; cbn [app]; eapply triple_bind; [by apply release_ok|]; intros ?.
Lemma release_if_ok b r l l' : l ≡ₚ opt b r ++ l' -> triple (holds l) (release_if (X := X) b r) (fun _ => holds l').
Proof.
  intros Hl. unfold release_if. destruct b; cbn [when]; [by apply release_ok|]. intros s Hs. unfold holds in *. by rewrite Hs, Hl.
Qed.
(** The releases of a list, in any order of it. *)
Lemma release_objects_ok audio builder engine vad l :
  triple (holds (opt audio TAudio ++ opt builder TBuilder ++ opt engine TEngine ++ opt vad TVad ++ l))
    (release_objects (X := X) audio builder engine vad) (fun _ => holds l).
Proof.
  unfold release_objects. do 3 (eapply triple_bind; [by apply release_if_ok|intros ?]). by apply release_if_ok.
Qed.

Lemma load_engine_ok path backend device l :
  triple (holds l) (load_engine (X := X) path backend device) (fun e => holds (opt (present e) TEngine ++ l)).
Proof.
  unfold load_engine. destruct (zlen path =? 0) eqn:Hp; [by intros s|]. step_keeps. intros []; cbn [negb]; [|by intros s].
  step_keeps. intros devices. step_keeps. intros [[? ?] warm_up]. eapply triple_bind; [by apply note_acquired|]. intros ? s Hs.
  cbn [fst snd mret M_ret]. unfold vw_whisper_engine_init. by rewrite Hp.
Qed.
Lemma start_engine_ok path l :
  triple (holds l) (start_engine (X := X) config path) (fun e => holds (opt (present e) TEngine ++ l)).
Proof.
  unfold start_engine. step_keeps. intros force_cpu. cbv zeta. eapply triple_bind; [apply load_engine_ok|]. cbv beta.
  intros [e|]; [|by intros s]. cbn [present opt app]. destruct (vw_whisper_engine_set_language _ _ _) as [[] e']; cbn [negb]; [by intros s|].
  eapply triple_bind; [by apply release_ok|]. by intros ? s.
Qed.
Lemma start_vad_ok path l : triple (holds l) (start_vad (X := X) config path) (fun vad => holds (opt vad TVad ++ l)).
Proof.
  unfold start_vad. step_keeps. intros [vad_path|]; [|by intros s].
  eapply triple_bind; [apply holds_keep; unfold vw_vad_init_default; keeps_steps|]. cbv beta.
  intros []; cbn [when]; [|by intros s]. eapply triple_bind; [by apply note_acquired|]. by intros ? s.
Qed.

(** The loop is entered in the state it is proved from. *)
Definition enters (sd : started X) : Prop :=
  exists audio queue translator engine x,
    vw_audio_buffer_create VW_LOOKAHEAD_BUFFER_SAMPLES = Some audio /\ sd_worker sd = worker_start audio queue translator engine x
    /\ present translator = sd_translator sd /\ present engine = sd_engine sd.
Lemma start_holds : triple (holds []) (vw_worker_start (X := X) config)
  (fun r s => match r with None => holds [] s | Some sd => holds (start_set sd) s /\ enters sd end).
Proof.
  unfold vw_worker_start. step_keeps. intros []; cbn [negb]; [|by intros s].
  eapply triple_bind; [by apply note_acquired|]. intros ?. eapply triple_bind; [apply acquire_ok|]. cbv beta.
  intros []; cbn [negb opt app]; [|eapply triple_bind; [by apply release_ok|]; by intros ? s].
  step_keeps. intros path. eapply triple_bind; [apply start_engine_ok|]. cbv beta. intros engine. cbv zeta.
  eapply triple_bind; [apply start_vad_ok|]. cbv beta. intros vad. step_keeps. intros ready.
  eapply triple_bind; [apply acquire_ok|]. cbv beta. intros audio. eapply triple_bind; [apply acquire_ok|]. cbv beta. intros builder.
  set (e := opt (present engine) TEngine). set (v := opt vad TVad).
  destruct (if audio && builder then vw_audio_buffer_create VW_LOOKAHEAD_BUFFER_SAMPLES else None) as [audio_buf|] eqn:Ha.
  2: {
    eapply triple_bind.
    { eapply triple_weaken; [apply (release_objects_ok audio builder (present engine) vad [TWindow; THandle])| |]; [|done].
      intros s Hs. unfold holds in *. rewrite Hs. apply Permutation_app_head. fold e v. solve_Permutation. }
    cbv beta. intros ?. eapply triple_bind; [by apply release_ok|]. intros ?. eapply triple_bind; [by apply release_ok|]. by intros ? s. }
  assert (audio = true /\ builder = true /\ vw_audio_buffer_create VW_LOOKAHEAD_BUFFER_SAMPLES = Some audio_buf) as (-> & -> & Hcreate)
    by (by destruct audio, builder).
  cbn [opt app]. eapply triple_bind; [apply acquire_ok|]. cbv beta. intros queue.
  assert (forall l k, l ≡ₚ [TAudio; TBuilder] ++ e ++ v ++ k -> triple (holds l) (release_objects (X := X) true true (present engine) vad) (fun _ => holds k)) as Hobjects.
  { intros l k Hl. eapply triple_weaken; [apply (release_objects_ok true true (present engine) vad k)| |]; [|done].
    intros s Hs. unfold holds in *. by rewrite Hs, Hl. }
  destruct (if queue : bool then vw_worker_queue_create VW_WORKER_FRAME_QUEUE_CAPACITY else None) as [frames|] eqn:Hq.
  2: {
    destruct queue; [done|]. cbn [opt app]. eapply triple_bind; [apply (release_ok TWindow _ ([TAudio; TBuilder] ++ e ++ v ++ [THandle])); solve_Permutation|]. intros ?.
    eapply triple_bind; [by apply Hobjects|]. intros ?. eapply triple_bind; [by apply release_ok|]. by intros ? s. }
  assert (queue = true) as -> by (by destruct queue). cbn [opt app].
  eapply triple_bind; [apply acquire_ok|]. cbv beta. intros translator. eapply triple_bind; [apply acquire_ok|]. cbv beta. intros reader.
  set (t := opt translator TTranslator). destruct reader; cbn [negb opt app].
  - step_keeps. intros x s Hs. cbn [fst snd mret M_ret]. split.
    + unfold holds in *. rewrite Hs. apply Permutation_app_head. unfold start_set. cbn [sd_engine sd_vad sd_translator]. fold e v t. solve_Permutation.
    + exists audio_buf, frames, (if translator then Some vw_translate_async_create else None), engine, x. by destruct translator.
  - eapply triple_bind; [apply (release_if_ok translator TTranslator _ ([TQueue; TWindow] ++ [TAudio; TBuilder] ++ e ++ v ++ [THandle])); fold t; solve_Permutation|]. intros ?.
    step_release. step_release. cbv beta; eapply triple_bind; [by apply (Hobjects _ [THandle])|]. intros ?. step_release. by intros s.
Qed.

(** The end gives everything back. *)
Lemma exit_ok (sd : started X) (w : worker X) :
  triple (holds (session_set w ++ start_set sd)) (vw_worker_exit sd w) (fun _ => holds []).
Proof.
  unfold vw_worker_exit, session_set, start_set. set (d := opt (s_decoder _) _). set (m := opt (w_model_dl w) _).
  set (t := opt (sd_translator sd) _). set (e := opt (sd_engine sd) _). set (v := opt (sd_vad sd) _).
  eapply triple_bind; [apply (release_ok TReader _ (t ++ TQueue :: d ++ m ++ TWindow :: [TAudio; TBuilder] ++ e ++ v ++ [THandle])); solve_Permutation|].
  intros ?. eapply triple_bind; [by apply release_if_ok|]. intros ?. step_release.
  eapply triple_bind; [by apply release_if_ok|]. intros ?. eapply triple_bind; [by apply release_if_ok|]. intros ?. step_release.
  eapply triple_bind; [apply (release_objects_ok true true (sd_engine sd) (sd_vad sd) [THandle])|]. intros ?. step_release. by intros s.
Qed.
End resources.

Section order.
Context {X : Type} `{!WorkerEnv X} `{!StartEnv X} (config : vw_worker_config_t).

(** The reader has ended before anything it uses goes, and the connection goes last. *)
Definition releases (s s' : start_state X) : Prop := exists l, ss_log s' = ss_log s ++ l.
#[local] Instance releases_preorder : PreOrder releases.
Proof.
  split; [intros s; exists []; by rewrite app_nil_r|]. intros s1 s2 s3 [l Hl] [k Hk]. exists (l ++ k). by rewrite Hk, Hl, app_assoc.
Qed.
Lemma releases_release r : keeps releases (release (X := X) r).
Proof. intros s. by exists [Released r]. Qed.
#[local] Hint Resolve releases_release : keeps.
Lemma releases_if b r : keeps releases (release_if (X := X) b r).
Proof. unfold release_if. keeps_steps. Qed.
#[local] Hint Resolve releases_if : keeps.
Lemma releases_objects audio builder engine vad : keeps releases (release_objects (X := X) audio builder engine vad).
Proof. unfold release_objects. keeps_steps. Qed.
#[local] Hint Resolve releases_objects : keeps.
Lemma exit_order (sd : started X) (w : worker X) s :
  exists between, ss_log (snd (vw_worker_exit sd w s)) = ss_log s ++ Released TReader :: between ++ [Released THandle].
Proof.
  set (middle := release_if (X := X) (sd_translator sd) TTranslator ;; release TQueue ;; release_if (s_decoder (w_session w)) TDecoder ;;
    release_if (w_model_dl w) TDownload ;; release TWindow ;; release_objects true true (sd_engine sd) (sd_vad sd)).
  assert (keeps releases middle) as Hm by (unfold middle; keeps_steps). set (s1 := snd (release TReader s)).
  destruct (Hm s1) as [between Hb]. exists between.
  assert (snd (vw_worker_exit sd w s) = snd (release THandle (snd (middle s1)))) as ->
    by (unfold vw_worker_exit, middle; by rewrite !bind_run).
  change (ss_log (snd (middle s1)) ++ [Released THandle] = ss_log s ++ Released TReader :: between ++ [Released THandle]).
  rewrite Hb. change (ss_log s1) with (ss_log s ++ [Released TReader]). by rewrite <- !app_assoc.
Qed.

(** C36: The worker gives back what it took, on every path: a start that fails releases all
    it had acquired; otherwise the loop is entered in the state its properties are proved
    from, and when it has ended - in whatever state the session is by then - exactly what the
    start or the session acquired is released, the reader thread joined before anything it
    uses goes and the connection closed last. *)
Theorem worker_gives_back (x : X) :
  let r := vw_worker_start config (mk_start_state [] x) in
  match fst r with
  | None => acquired (ss_log (snd r)) ≡ₚ released (ss_log (snd r))
  | Some sd =>
      forall w x', rtc (worker_step config (sd_dir_ready sd)) (sd_worker sd) w ->
        let log := ss_log (snd (vw_worker_exit sd w (mk_start_state (ss_log (snd r)) x'))) in
        session_ok (w_session w)
        /\ released log ≡ₚ acquired log ++ session_set w
        /\ exists between, log = ss_log (snd r) ++ Released TReader :: between ++ [Released THandle]
  end.
Proof.
  cbv zeta. assert (holds [] [] (mk_start_state [] x)) as Hs by (unfold holds; reflexivity). apply (start_holds config) in Hs. set (r := vw_worker_start config _) in *.
  destruct (fst r) as [sd|]; [|unfold holds in Hs; by rewrite !app_nil_r in Hs].
  destruct Hs as [Hs (audio & queue & translator & engine & x0 & Ha & Hw & _)]. intros w x' Hr. split_and!; [| |apply (exit_order sd w (mk_start_state (ss_log (snd r)) x'))].
  - rewrite Hw in Hr. apply session_ok_reach in Hr; [done|]. by apply session_start_ok.
  - pose proof (exit_ok (session_set w) sd w (mk_start_state (ss_log (snd r)) x')) as He. unfold holds in He, Hs. cbn [ss_log] in He.
    rewrite !app_nil_r in *. symmetry. apply He. rewrite Hs. solve_Permutation.
Qed.
End order.

(** ** A start *)

(** A machine without a GPU or a VAD model, where [missing] cannot be had. *)
Definition start_machine (missing : option resource) : StartEnv unit := {|
  getenv := fun _ _ => None;
  fopen_ok := fun _ path => bool_decide (path = str "models/ggml-tiny.bin");
  self_exe := fun _ => Some (str "/opt/worker");
  ipc_listen := fun x _ => (true, x);
  create := fun x r => (bool_decide (missing <> Some r), x);
  destroy := fun x _ => x;
  whisper_init := fun x _ _ _ => (true, x);
  gpu_devices := fun _ => [];
  vad_default_gpu := fun _ => false;
  whisper_vad_init := fun x _ _ => (false, x)
|}.
#[local] Abbreviation demo_config := vw_worker_config_init_defaults.
Lemma worker_gives_back_witness :
  exists sd, fst (vw_worker_start (StartEnv0 := start_machine None) demo_config (mk_start_state [] tt)) = Some sd
  /\ let log := ss_log (snd (vw_worker_exit (StartEnv0 := start_machine None) sd (sd_worker sd)
                   (mk_start_state (ss_log (snd (vw_worker_start (StartEnv0 := start_machine None) demo_config (mk_start_state [] tt)))) tt))) in
     released log ≡ₚ acquired log ++ session_set (sd_worker sd).
Proof.
  pose proof (worker_gives_back (StartEnv0 := start_machine None) demo_config tt) as H. cbv zeta in H.
  assert (present (fst (vw_worker_start (StartEnv0 := start_machine None) demo_config (mk_start_state [] tt))) = true) as Hp by reflexivity.
  revert H Hp. destruct (fst _) as [sd|]; [|discriminate]. intros H _. exists sd. split; [reflexivity|].
  exact (proj1 (proj2 (H (sd_worker sd) tt (rtc_refl _ _)))).
Defined.
(** Without memory for the queue. *)
Example no_queue :
  ss_log (snd (vw_worker_start (StartEnv0 := start_machine (Some TQueue)) demo_config (mk_start_state [] tt)))
  = map Acquired [THandle; TWindow; TEngine; TAudio; TBuilder] ++ map Released [TWindow; TAudio; TBuilder; TEngine; THandle].
Proof. reflexivity. Qed.
