(* ===== verification/WorkerBlame.v ===== *)
(** * Blame on the wire

    What the adapters of [vw_worker_translation_diag_override.h] do for the session loop
    of [WorkerSession]: a failed translation is blamed before its caption, and a blame
    that could not be written is the last the transport gets. *)

From stdpp Require Import relations.
From S2P Require Import Prelude.
From S2P Require Import CString.
From S2P Require Import ProtocolTypes.
From S2P Require Import Codec.
From S2P Require Import State.
From S2P Require Import AudioBuffer.
From S2P Require Import WorkerQueue.
From S2P Require Import Vad.
From S2P Require Import TranslateText.
From S2P Require Import TranslateTiers.
From S2P Require Import TranslateAsync.
From S2P Require Import WorkerConfig.
From S2P Require Import TranslationDiag.
From S2P Require Import WhisperEngine.
From S2P Require Import WorkerSession.
From S2P Require Import WorkerSafety.
#[local] Open Scope Z_scope.

Section blame.
Context {X : Type} `{!WorkerEnv X}.
Implicit Types w : worker X.

Definition is_blame (w : worker X) (r : vw_translate_async_result_t) (f : wire_frame) : Prop :=
  hdr_type (wire_header f) = VW_MSG_ERROR
  /\ exists detail, vw_worker_translation_diag_build r VW_MAX_ERROR_MSG_BYTES
       = Some (vw_worker_translation_error_code (fl_cause (ar_failure r)), detail)
     /\ wire_payload f
        = layout (blame_error (s_id (w_session w)) (vw_worker_translation_error_code (fl_cause (ar_failure r))) detail).
Definition written (f : wire_frame) : bool := wire_header_sent f && wire_payload_sent f.

(** The frame of a diagnostic. *)
Lemma diag_send_frame code detail w :
  id_ok w ->
  let r := vw_worker_translation_diag_send code detail w in
  exists f, w_sent (snd r) = w_sent w ++ wire_log f /\ fst r = written f /\ hdr_type (wire_header f) = VW_MSG_ERROR
    /\ wire_payload f = layout (blame_error (s_id (w_session w)) code detail)
    /\ w_session (snd r) = w_session w /\ withheld (snd r) = withheld w.
Proof.
  intros Hi. cbv zeta. rewrite diag_send_run, encode_payload_layout by done. rewrite blame_error_fits by done.
  cbv zeta. set (h := next_header _ _ w).
  destruct (write_pair_spec (fst h) (layout (blame_error (s_id (w_session w)) code detail)) (snd h)) as (ok1 & ok2 & S & F & _ & C).
  exists (mk_wire (fst h) (layout (blame_error (s_id (w_session w)) code detail)) ok1 ok2).
  rewrite (same_core_withheld _ _ C). split_and!; try done. apply C.
Qed.

(** A caption is at most one frame. *)
Lemma deliver_frame r w :
  let w' := snd (vw_worker_deliver_translation r w) in
  w_sent w' = w_sent w \/ exists f, w_sent w' = w_sent w ++ wire_log f /\ wire_payload f = layout (CAPTION_SEGMENT (ar_segment r)).
Proof.
  cbv zeta. unfold vw_worker_deliver_translation, ask, gets. rewrite bind_run. cbn [fst snd].
  destruct (_ || _); [by left|]. unfold or_fail. rewrite bind_run. set (r1 := vw_worker_send_caption_segment _ w).
  assert (w_sent (snd (when (negb (fst r1)) fail_exit (snd r1))) = w_sent (snd r1)) as -> by (by destruct (fst r1)).
  subst r1. unfold vw_worker_send_caption_segment, send_message. rewrite encode_payload_layout by done.
  destruct (_ && _); [|by left]. rewrite bind_run. set (h := next_header _ _ w).
  destruct (send_pair_spec (fst h) (layout (CAPTION_SEGMENT (ar_segment r))) (snd h)) as (_ & _ & S).
  destruct (withheld (snd h)); [by left|right]. destruct S as (ok1 & ok2 & S). eexists. by split; [exact S|].
Qed.

Lemma mark_quiet w : w_sent (snd (vw_worker_translation_diag_mark_transport_failed w)) = w_sent w.
Proof.
  unfold vw_worker_translation_diag_mark_transport_failed, modify, gets. rewrite !bind_run. cbn [fst snd].
  change (w_diag_registered (w <| w_diag_failed := true |>)) with (w_diag_registered w). by destruct (w_diag_registered w).
Qed.
Lemma try_deliver_blames a a' r w :
  id_ok w -> withheld w = false -> s_translator (w_session w) = Some a ->
  vw_translate_async_try_deliver a = (Some r, a') -> s_active (w_session w) = true ->
  seg_session_id (ar_segment r) = s_id (w_session w) -> failed_attempt r -> blame_fields_ok r ->
  let w' := snd (try_deliver w) in
  exists f rest, w_sent w' = w_sent w ++ wire_log f ++ rest /\ is_blame w r f
    /\ (written f = true -> rest = [] \/ exists c, rest = wire_log c /\ wire_payload c = layout (CAPTION_SEGMENT (ar_segment r)))
    /\ (written f = false -> rest = [] /\ w_fatal w' = true /\ w_running w' = false).
Proof.
  intros Hi Hg Ht Hd Ha Hid Hf Hok. cbv zeta. unfold try_deliver, ask, gets. rewrite bind_run. cbn [fst snd]. rewrite Ht, bind_run.
  set (w1 := snd (vw_worker_translation_diag_register_transport_state w)).
  assert (w_sent w1 = w_sent w /\ w_session w1 = w_session w /\ withheld w1 = false) as (E1 & E2 & E3).
  { subst w1. unfold vw_worker_translation_diag_register_transport_state, modify. cbn [snd].
    by destruct (w_diag_registered w) eqn:E. }
  clearbody w1. rewrite bind_run. cbn [fst snd]. rewrite E3, Hd, bind_run. set (w2 := snd (on_session _ w1)).
  assert (w_sent w2 = w_sent w /\ s_id (w_session w2) = s_id (w_session w) /\ withheld w2 = false /\ s_active (w_session w2) = true)
    as (F1 & F2 & F3 & F4) by (subst w2; simpl; by rewrite E2).
  clearbody w2. rewrite bind_run. unfold vw_worker_translation_diag_deliver, ask, gets. rewrite bind_run. cbn [fst snd].
  unfold session_blame. rewrite F4, F2, Hid, bool_decide_true by done. cbn [andb].
  destruct (blame_line r Hok Hf) as (detail & Hl & _). rewrite Hl, bind_run.
  destruct (diag_send_frame (vw_worker_translation_error_code (fl_cause (ar_failure r))) detail w2) as (f & S & W & T & P & _ & G).
  { unfold id_ok. by rewrite F2. }
  rewrite F1 in S. rewrite F2 in P. rewrite W.
  set (w3 := snd (vw_worker_translation_diag_send _ _ w2)) in *. exists f.
  assert (is_blame w r f) as Hb by (split; [done|]; by exists detail).
  destruct (written f) eqn:Ew.
  - destruct (deliver_frame r w3) as [E|(c & E & Ec)].
    + exists []. split_and!; [|done|by left|done]. cbn [mret M_ret snd]. by rewrite E, S, app_nil_r.
    + exists (wire_log c). split_and!; [|done| |done]; [cbn [mret M_ret snd]; by rewrite E, S, app_assoc|].
      intros _. right. by exists c.
  - exists []. rewrite app_nil_r. cbn [mret M_ret snd]. rewrite bind_run.
    set (w4 := snd (vw_worker_translation_diag_mark_transport_failed w3)).
    assert (w_sent w4 = w_sent w3) as E by (subst w4; apply mark_quiet).
    split_and!; [|done|done|by intros _; split_and!]. etrans; [exact E|exact S].
Qed.
End blame.

(** ** Properties *)

(** In any reachable state of a running worker, a failed translation of the active
    session that is due is blamed before its caption goes out: the next frame is an
    ERROR with its line, and at most its caption follows; when the blame cannot be
    written, nothing follows and the worker ends. *)
Theorem worker_blames_failures {X} `{!WorkerEnv X} (config : vw_worker_config_t) (ready : bool)
    audio queue translator engine (x : X) w a a' r :
  rtc (worker_step config ready) (worker_start audio queue translator engine x) w ->
  w_running w = true -> s_translator (w_session w) = Some a ->
  vw_translate_async_try_deliver a = (Some r, a') -> s_active (w_session w) = true ->
  seg_session_id (ar_segment r) = s_id (w_session w) -> failed_attempt r -> blame_fields_ok r ->
  let w' := snd (try_deliver w) in
  exists f rest, w_sent w' = w_sent w ++ wire_log f ++ rest /\ is_blame w r f
    /\ (written f = true -> rest = [] \/ exists c, rest = wire_log c /\ wire_payload c = layout (CAPTION_SEGMENT (ar_segment r)))
    /\ (written f = false -> rest = [] /\ w_fatal w' = true /\ w_running w' = false).
Proof.
  intros Hr Hrun Ht Hd Ha Hid Hf Hok. apply wire_inv_reach in Hr as [_ _ _ Hi Hh]; [|apply wire_inv_start].
  assert (withheld w = false) as Hg.
  { destruct (withheld w); [|done]. destruct (Hh eq_refl) as (_ & Hn & _). congruence. }
  by apply (try_deliver_blames a a' r w).
Qed.

(** The worker ends in an error and nothing is written any more, the last frame being the
    one that failed. *)
Definition silenced {X} (w w' : worker X) : Prop :=
  exit_code w' = 1 /\ w_sent w' = w_sent w /\ exists log bytes, w_sent w = log ++ [(bytes, false)].

(** Nothing is written after a blame that failed: once one has, the worker is to
    exit with an error and the last write of its transport is the failed one, now and
    after every further step. *)
Theorem worker_blame_guard {X} `{!WorkerEnv X} (config : vw_worker_config_t) (ready : bool)
    audio queue translator engine (x : X) w w' :
  rtc (worker_step config ready) (worker_start audio queue translator engine x) w ->
  withheld w = true -> rtc (worker_step config ready) w w' ->
  silenced w w'.
Proof.
  intros Hr Hg Hs. unfold silenced. apply wire_inv_reach in Hr as [_ _ _ _ Hh]; [|apply wire_inv_start].
  destruct (Hh Hg) as (Hf & Hn & Hl).
  assert (w_sent w' = w_sent w /\ w_fatal w' = true /\ w_running w' = false) as (E & Ef & _).
  { clear Hg Hl Hh. induction Hs as [w|w1 w2 w3 Hs _ IH]; [done|].
    assert (w_sent w2 = w_sent w1 /\ w_fatal w2 = true /\ w_running w2 = false) as (E1 & E2 & E3)
      by (destruct Hs; [congruence|congruence|by split_and!..]).
    destruct (IH E2 E3) as (-> & ?). by split. }
  split_and!; [|done..]. unfold exit_code. by rewrite Ef.
Qed.

(** ** Witnesses

    A worker that plays four samples of a source, whose engine hears one phrase in
    them, whose translations fail and whose transport takes [n] writes. *)
Definition failing_translation : translation :=
  mk_translation false [] VW_TRANSLATE_TIER_NONE (mk_failure VW_TRANSLATE_FAILURE_PROVIDER VW_TRANSLATE_TIER_MOBILE_SCRAPE 7 429).
#[local] Instance failing_env : WorkerEnv (nat * bool) := {
  ipc_send '(n, read) _ := match n with O => (false, (O, read)) | S n => (true, (n, read)) end;
  whisper_lang_id l := if bool_decide (l = str "en") then 0 else -1;
  whisper_full x _ _ _ := ((0, 1000, [mk_cpp_segment 0 100 (Some (str "Hello there")) 0]), x);
  vad_ctx x := (Some (mk_vad (fun _ => true) (fun _ => Some [(0, 1)])), x);
  vad_reset x := x;
  source_open x _ := (true, x);
  source_seek x _ := (true, x);
  source_read '(n, read) _ :=
    if read : bool then ((VW_SOURCE_DECODER_READ_EOF, [], -1), (n, read))
    else ((VW_SOURCE_DECODER_READ_OK, [1; 2; 3; 4], 0), (n, true));
  source_close x := x;
  download_start x _ := (false, x);
  download_poll x := (mk_progress 0 0 0 0 [], x);
  download_abort x := x;
  download_free x := x;
  monotonic_time_us x := (0, x);
  translation_threads x a :=
    (match async_take a with
     | Some (job, a) => async_complete a job (async_result job failing_translation 1234)
     | None => a
     end, x)
}.
#[local] Abbreviation demo_config := vw_worker_config_init_defaults.
#[local] Abbreviation demo_worker := (worker (nat * bool)).
Definition blame_id : vw_session_id_t := zreplicate VW_SESSION_ID_BYTES 7.
Definition blame_audio : vw_audio_buffer_t := mk_abuf (zreplicate 64 0) 64 0 0 (-1) 0 0.
Definition blame_queue : vw_worker_queue_t := default (mk_wq [] 1 0 0 0 0) (vw_worker_queue_create 4).
Definition blame_engine : option vw_whisper_engine_t := vw_whisper_engine_init (str "model.bin") VW_WORKER_BACKEND_CPU 0 true [] [].
Definition blame_start (writes : nat) : demo_worker :=
  worker_start blame_audio blame_queue (Some vw_translate_async_create) blame_engine (writes, false).
Definition blame_turn (m : message) (w : demo_worker) : demo_worker :=
  let w := w <| w_queue := snd (vw_worker_queue_push (w_queue w) (message_type m) (Some (layout m)) (zlen (layout m))) |> in
  worker_iterates demo_config (fst (vw_worker_queue_pop (w_queue w))) true (w <| w_queue := snd (vw_worker_queue_pop (w_queue w)) |>).
Definition blame_messages : list message :=
  [HELLO (mk_hello 1 1 (cfg_auth_token demo_config) 0 (Some []));
   START_SESSION (mk_start blame_id 0 16000 1 VW_SAMPLE_FORMAT_S16LE (cpad 64 (str "tiny")) (cpad 16 (str "en"))
                    VW_SOURCE_LOCAL_FILE 9 (cpad 1024 (str "/film.mkv")));
   TRANSLATE_CTRL (mk_translate_ctrl blame_id 1 (cpad 16 (str "en")) (cpad 16 (str "de")) 1)].
Definition blame_submitted (writes : nat) : demo_worker := fold_left (fun w m => blame_turn m w) blame_messages (blame_start writes).
(** The translation fails; then the loop delivers it. *)
Definition blame_due (writes : nat) : demo_worker :=
  let w := blame_submitted writes in
  match s_translator (w_session w) with
  | Some a => w <| w_session := (w_session w) <| s_translator := Some (fst (translation_threads (writes, true) a)) |> |>
  | None => w
  end.
Definition blame_delivered (writes : nat) : demo_worker := worker_iterates demo_config None true (blame_due writes).

Lemma blame_turn_step m w :
  w_running w = true ->
  is_Some (fst (vw_worker_queue_pop (snd (vw_worker_queue_push (w_queue w) (message_type m) (Some (layout m)) (zlen (layout m)))))) ->
  rtc (worker_step demo_config true) w (blame_turn m w).
Proof.
  intros Hr [f Hf]. eapply rtc_l; [apply step_receive|]. apply rtc_once. unfold blame_turn. cbv zeta. cbn [w_queue].
  set (q := snd (vw_worker_queue_push _ _ _ _)) in *. change (w_queue (w <| w_queue := q |>)) with q. rewrite Hf.
  apply step_frame; [done|]. change (w_queue (w <| w_queue := q |>)) with q. by rewrite <- Hf, <- surjective_pairing.
Qed.
Lemma blame_submitted_reach writes :
  writes = 100%nat \/ writes = 9%nat -> rtc (worker_step demo_config true) (blame_start writes) (blame_submitted writes).
Proof.
  intros [-> | ->]; unfold blame_submitted, blame_messages; cbn [fold_left];
    (repeat (etrans; [|apply blame_turn_step; [vm_compute; reflexivity|eexists; vm_compute; reflexivity]])); reflexivity.
Qed.
Lemma blame_due_reach writes :
  writes = 100%nat \/ writes = 9%nat -> rtc (worker_step demo_config true) (blame_start writes) (blame_due writes).
Proof.
  intros H. etrans; [by apply blame_submitted_reach|]. unfold blame_due. set (w := blame_submitted writes). cbv zeta.
  destruct (s_translator (w_session w)) as [a|] eqn:E; [|reflexivity]. apply rtc_once. by apply step_translates.
Qed.
Lemma blame_wakes writes :
  writes = 100%nat \/ writes = 9%nat -> w_running (blame_due writes) = true /\ idle_wakes (blame_due writes) = true.
Proof. intros [-> | ->]; split; vm_compute; reflexivity. Qed.
Lemma blame_delivered_reach writes :
  writes = 100%nat \/ writes = 9%nat -> rtc (worker_step demo_config true) (blame_start writes) (blame_delivered writes).
Proof. intros H. eapply rtc_r; [by apply blame_due_reach|]. destruct (blame_wakes writes H) as [Hr Hi]. exact (step_idle demo_config true _ Hr Hi). Qed.
Definition due_async : vw_translate_async := default vw_translate_async_create (s_translator (w_session (blame_due 100))).
Definition due_result : vw_translate_async_result_t := default no_result (fst (vw_translate_async_try_deliver due_async)).
Lemma due_async_there : s_translator (w_session (blame_due 100)) = Some due_async.
Proof. vm_compute. reflexivity. Qed.
Lemma due_result_there : vw_translate_async_try_deliver due_async = (Some due_result, snd (vw_translate_async_try_deliver due_async)).
Proof. vm_compute. reflexivity. Qed.

Lemma due_active : s_active (w_session (blame_due 100)) = true.
Proof. vm_compute. reflexivity. Qed.
Lemma due_session : seg_session_id (ar_segment due_result) = s_id (w_session (blame_due 100)).
Proof. vm_compute. reflexivity. Qed.
Lemma due_failed : failed_attempt due_result.
Proof. split_and!; vm_compute; congruence. Qed.
Lemma due_fields : blame_fields_ok due_result.
Proof. split_and!; vm_compute; (split; congruence). Qed.

Lemma worker_blames_failures_witness :
  let w := blame_due 100 in
  let w' := snd (try_deliver w) in
  seg_text_utf8 (ar_segment due_result) = Some (str "Hello there")
  /\ exists f rest, w_sent w' = w_sent w ++ wire_log f ++ rest /\ is_blame w due_result f
       /\ (written f = true -> rest = [] \/ exists c, rest = wire_log c /\ wire_payload c = layout (CAPTION_SEGMENT (ar_segment due_result)))
       /\ (written f = false -> rest = [] /\ w_fatal w' = true /\ w_running w' = false).
Proof.
  cbv zeta. split; [vm_compute; reflexivity|].
  refine (worker_blames_failures demo_config true blame_audio blame_queue (Some vw_translate_async_create) blame_engine
           (100%nat, false) (blame_due 100) due_async (snd (vw_translate_async_try_deliver due_async)) due_result
           (blame_due_reach 100 (or_introl eq_refl)) (proj1 (blame_wakes 100 (or_introl eq_refl))) due_async_there
           due_result_there due_active due_session due_failed due_fields).
Defined.

Lemma worker_blame_guard_witness :
  let w := blame_delivered 9 in
  withheld w = true /\ zlen (w_sent w) = 10
  /\ exists log bytes, w_sent w = log ++ [(bytes, false)].
Proof.
  intros w. split_and!; [vm_compute; reflexivity|vm_compute; reflexivity|].
  destruct (worker_blame_guard demo_config true blame_audio blame_queue (Some vw_translate_async_create) blame_engine
    (9%nat, false) w w) as (_ & _ & H).
  - apply blame_delivered_reach. by right.
  - vm_compute. reflexivity.
  - apply rtc_refl.
  - exact H.
Defined.
