(* ===== verification/WorkerReader.v ===== *)
(** * The worker's reader thread

    [vw_worker_reader_main] of [src/worker/src/vw_worker.c]: reassembles frames from
    whatever pieces the transport delivers, drops stale ones and pushes the others to
    the frame queue. A call of [vw_ipc_receive] is one step; [vw_ipc_receive] itself
    is a system call and its answer an argument. Memory is available. *)

From stdpp Require Import relations.
From S2P Require Import Prelude.
From S2P Require Import ProtocolTypes.
From S2P Require Import Validate.
From S2P Require Import Codec.
From S2P Require Import State.
From S2P Require Import WorkerQueue.
From S2P Require Import WorkerConfig.
From S2P Require Import WorkerSession.
From S2P Require Import WorkerSafety.
#[local] Open Scope Z_scope.

(** What [vw_ipc_receive] answers: at most as many bytes as were asked for and at
    least one, a timeout, or the end of the connection. *)
Inductive recv :=
  | Received (bytes : list Z)
  | RecvTimeout
  | RecvFatal.

(** Where the thread waits for bytes, with what it has got. *)
Inductive reader_phase :=
  | ReadHeader (header_buf : list Z)
  | Discard (header : vw_frame_header_t) (drained : Z)
  | ReadPayload (header : vw_frame_header_t) (payload_buf : list Z).

(** [rd_last] is [last_plugin_sequence], once valid. *)
Record reader := mk_reader { rd_phase : reader_phase; rd_last : option Z }.
Definition reader_start : reader := mk_reader (ReadHeader []) None.

(** How many bytes the next call asks for. *)
Definition reader_wants (r : reader) : Z :=
  match rd_phase r with
  | ReadHeader buf => sizeof_header - zlen buf
  | Discard header drained => hdr_payload_length header - drained
  | ReadPayload header buf => hdr_payload_length header - zlen buf
  end.

(** The frame to push, if any, and how the thread goes on. *)
Inductive reader_result :=
  | Reads (pushed : option vw_worker_frame_t) (r : reader)
  | Stops (pushed : option vw_worker_frame_t)
  | Fails.

(** The head of the loop. *)
Definition next_frame (running : bool) (pushed : option vw_worker_frame_t) (last : option Z) : reader_result :=
  if running then Reads pushed (mk_reader (ReadHeader []) last) else Stops pushed.

Definition stale (last : option Z) (sequence : Z) : bool :=
  match last with Some l => sequence <=? l | None => false end.

(** A complete header. *)
Definition reader_header (running : bool) (last : option Z) (header_buf : list Z) : reader_result :=
  match vw_protocol_decode_header header_buf with
  | None => Fails
  | Some header =>
      if negb (vw_protocol_validate_header header) then Fails
      else if stale last (hdr_sequence header) then
        if 0 <? hdr_payload_length header then Reads None (mk_reader (Discard header 0) last)
        else next_frame running None last
      else
        let last := Some (hdr_sequence header) in
        if 0 <? hdr_payload_length header then Reads None (mk_reader (ReadPayload header []) last)
        else next_frame running (Some (mk_frame (hdr_type header) 0 None)) last
  end.

Definition reader_bytes (running : bool) (r : reader) (bytes : list Z) : reader_result :=
  match rd_phase r with
  | ReadHeader buf =>
      let buf := buf ++ bytes in
      if zlen buf <? sizeof_header then Reads None (mk_reader (ReadHeader buf) (rd_last r))
      else reader_header running (rd_last r) buf
  | Discard header drained =>
      let drained := drained + zlen bytes in
      if drained <? hdr_payload_length header then Reads None (mk_reader (Discard header drained) (rd_last r))
      else next_frame running None (rd_last r)
  | ReadPayload header buf =>
      let buf := buf ++ bytes in
      if zlen buf <? hdr_payload_length header then Reads None (mk_reader (ReadPayload header buf) (rd_last r))
      else next_frame running (Some (mk_frame (hdr_type header) (hdr_payload_length header) (Some buf))) (rd_last r)
  end.

(** One call of [vw_ipc_receive], with what [running] says afterwards. *)
Definition reader_receive (running : bool) (r : reader) (res : recv) : reader_result :=
  match res with
  | Received bytes => reader_bytes running r bytes
  | RecvTimeout => if running then Reads None r else Stops None
  | RecvFatal => Fails
  end.

(** *** The effect on the worker *)

Definition push_frame {X} (f : vw_worker_frame_t) (w : worker X) : worker X :=
  w <| w_queue := snd (vw_worker_queue_push (w_queue w) (frame_type f) (frame_payload f) (frame_payload_len f)) |>.
Definition reader_fatal {X} (w : worker X) : worker X :=
  push_frame (mk_frame VW_MSG_SHUTDOWN 0 None) (w <| w_fatal := true |> <| w_running := false |>).
Definition reader_effect {X} (res : reader_result) (w : worker X) : worker X :=
  match res with
  | Reads (Some f) _ | Stops (Some f) => push_frame f w
  | Reads None _ | Stops None => w
  | Fails => reader_fatal w
  end.

(** A run while the worker is up: the frames pushed, and the state ([None]: failed). *)
Definition reader_push (pushed : option vw_worker_frame_t) (rest : list vw_worker_frame_t * option reader) :=
  (option_list pushed ++ fst rest, snd rest).
Fixpoint reader_run (r : reader) (answers : list recv) : list vw_worker_frame_t * option reader :=
  match answers with
  | [] => ([], Some r)
  | res :: answers =>
      match reader_receive true r res with
      | Reads pushed r => reader_push pushed (reader_run r answers)
      | Stops pushed => (option_list pushed, Some r)
      | Fails => ([], None)
      end
  end.

(** ** Specification

    The frames of a whole stream of bytes; whether the stream is broken by a header
    that is not one. [fuel] bounds the number of frames. *)

Definition stream_push (pushed : option vw_worker_frame_t) (rest : list vw_worker_frame_t * bool) :=
  (option_list pushed ++ fst rest, snd rest).
Fixpoint stream_frames (fuel : nat) (last : option Z) (s : list Z) : list vw_worker_frame_t * bool :=
  match fuel with
  | O => ([], false)
  | S fuel =>
      if zlen s <? sizeof_header then ([], false)
      else match vw_protocol_decode_header (ztake sizeof_header s) with
      | None => ([], true)
      | Some header =>
          let rest := zdrop sizeof_header s in
          let len := hdr_payload_length header in
          if zlen rest <? len then ([], false)
          else if stale last (hdr_sequence header) then stream_frames fuel last (zdrop len rest)
          else
            stream_push
              (Some (mk_frame (hdr_type header) len (if 0 <? len then Some (ztake len rest) else None)))
              (stream_frames fuel (Some (hdr_sequence header)) (zdrop len rest))
      end
  end.
Definition frames_of (last : option Z) (s : list Z) := stream_frames (S (length s)) last s.

Lemma post_header : dec_post decode_header_fields wf_header.
Proof. unfold decode_header_fields. post_steps. by split_and!. Qed.
Lemma decode_header_wf s h : is_bytes s -> vw_protocol_decode_header s = Some h -> wf_header h.
Proof.
  intros Hs H. unfold vw_protocol_decode_header in H. destruct (decode_header_fields s) as [[h' r]|] eqn:E; [|done].
  case_ifs H. injection H as <-. by eapply post_header.
Qed.
Lemma decode_header_length s h : is_bytes s -> vw_protocol_decode_header s = Some h -> 0 <= hdr_payload_length h.
Proof. intros Hs H. apply decode_header_wf in H as (_ & _ & _ & H & _); [|done]. apply H. Qed.

Lemma length_after_frame h (s : list Z) :
  sizeof_header <= zlen s -> (length (zdrop (hdr_payload_length h) (zdrop sizeof_header s)) < length s)%nat.
Proof. intros Hl. unfold zdrop, zlen, sizeof_header in *. rewrite !length_drop. lia. Qed.
Lemma stream_frames_fuel n : forall m last s,
  (length s < n)%nat -> (length s < m)%nat -> stream_frames n last s = stream_frames m last s.
Proof.
  induction n as [|n IH]; intros m last s Hn Hm; [lia|]. destruct m as [|m]; [lia|]. cbn [stream_frames].
  destruct (Z.ltb_spec (zlen s) sizeof_header) as [|Hl]; [done|].
  destruct (vw_protocol_decode_header _) as [h|]; [|done]. cbv zeta. case_match; [done|].
  pose proof (length_after_frame h s Hl). by rewrite !(IH m) by lia.
Qed.

(** One frame of the stream. *)
Lemma frames_of_unfold last s :
  frames_of last s =
  if zlen s <? sizeof_header then ([], false)
  else match vw_protocol_decode_header (ztake sizeof_header s) with
  | None => ([], true)
  | Some header =>
      let rest := zdrop sizeof_header s in
      let len := hdr_payload_length header in
      if zlen rest <? len then ([], false)
      else if stale last (hdr_sequence header) then frames_of last (zdrop len rest)
      else
        stream_push
          (Some (mk_frame (hdr_type header) len (if 0 <? len then Some (ztake len rest) else None)))
          (frames_of (Some (hdr_sequence header)) (zdrop len rest))
  end.
Proof.
  unfold frames_of at 1. cbn [stream_frames]. destruct (Z.ltb_spec (zlen s) sizeof_header) as [|Hl]; [done|].
  destruct (vw_protocol_decode_header _) as [h|]; [|done]. cbv zeta. case_match; [done|].
  pose proof (length_after_frame h s Hl). unfold frames_of.
  by rewrite !(stream_frames_fuel (length s) (S (length (zdrop (hdr_payload_length h) (zdrop sizeof_header s))))) by lia.
Qed.

(** What the thread makes of the rest of the stream from where it is. *)
Definition after_payload (header : vw_frame_header_t) (last : option Z) (stream : list Z) :=
  let len := hdr_payload_length header in
  if zlen stream <? len then ([], false)
  else stream_push (Some (mk_frame (hdr_type header) len (Some (ztake len stream)))) (frames_of last (zdrop len stream)).
Definition after_discard (len : Z) (last : option Z) (stream : list Z) :=
  if zlen stream <? len then ([], false) else frames_of last (zdrop len stream).
Definition resume (r : reader) (stream : list Z) : list vw_worker_frame_t * bool :=
  match rd_phase r with
  | ReadHeader buf => frames_of (rd_last r) (buf ++ stream)
  | Discard header drained => after_discard (hdr_payload_length header - drained) (rd_last r) stream
  | ReadPayload header buf => after_payload header (rd_last r) (buf ++ stream)
  end.
(** The thread has asked for less than is missing. *)
Definition reader_ok (r : reader) : Prop :=
  match rd_phase r with
  | ReadHeader buf => is_bytes buf /\ zlen buf < sizeof_header
  | Discard header drained => 0 <= drained < hdr_payload_length header
  | ReadPayload header buf => zlen buf < hdr_payload_length header
  end.

Lemma stream_push_none p : stream_push None p = p.
Proof. by destruct p. Qed.

Lemma reader_start_ok last : reader_ok (mk_reader (ReadHeader []) last).
Proof. split; [apply is_bytes_nil|done]. Qed.

(** The answer to a request for [wants] bytes. *)
Definition answer_ok (wants : Z) (bytes : list Z) : Prop := is_bytes bytes /\ zlen bytes <= wants.

Definition result_ok (res : reader_result) (stream : list Z) (expected : list vw_worker_frame_t * bool) : Prop :=
  match res with
  | Reads pushed r => reader_ok r /\ expected = stream_push pushed (resume r stream)
  | Stops _ => False
  | Fails => expected = ([], true)
  end.

Lemma reader_header_spec last buf stream :
  is_bytes buf -> zlen buf = sizeof_header ->
  result_ok (reader_header true last buf) stream (frames_of last (buf ++ stream)).
Proof.
  intros Hb Hl. rewrite frames_of_unfold, zlen_app. pose proof (zlen_nonneg stream).
  replace (zlen buf + zlen stream <? sizeof_header) with false by lia.
  rewrite ztake_app_exact, zdrop_app_exact by done. unfold reader_header.
  destruct (vw_protocol_decode_header buf) as [h|] eqn:Eh; [|done].
  pose proof (decode_header_length _ _ Hb Eh) as Hh.
  assert (vw_protocol_validate_header h = true) as ->.
  { unfold vw_protocol_decode_header in Eh. destruct (decode_header_fields _) as [[]|]; [|done]. case_ifs Eh. by injection Eh as <-. }
  cbn [negb]. cbv zeta. destruct (stale last (hdr_sequence h)).
  - destruct (Z.ltb_spec 0 (hdr_payload_length h)); cbn [result_ok next_frame].
    + split; [unfold reader_ok; simpl; lia|]. rewrite stream_push_none. unfold resume. simpl. by rewrite Z.sub_0_r.
    + replace (hdr_payload_length h) with 0 by lia. replace (zlen stream <? 0) with false by lia.
      split; [apply reader_start_ok|]. by rewrite stream_push_none.
  - destruct (Z.ltb_spec 0 (hdr_payload_length h)); cbn [result_ok next_frame].
    + split; [unfold reader_ok; simpl; by rewrite zlen_nil|]. by rewrite stream_push_none.
    + replace (hdr_payload_length h) with 0 by lia. replace (zlen stream <? 0) with false by lia.
      split; [apply reader_start_ok|done].
Qed.

Lemma reader_bytes_spec r bytes stream :
  reader_ok r -> answer_ok (reader_wants r) bytes ->
  result_ok (reader_bytes true r bytes) stream (resume r (bytes ++ stream)).
Proof.
  destruct r as [ph last]. unfold reader_ok, reader_wants, reader_bytes, resume. cbn [rd_phase rd_last].
  pose proof (zlen_nonneg bytes). pose proof (zlen_nonneg stream).
  destruct ph as [buf|h n|h buf]; intros Hr [Hb Hw].
  - rewrite app_assoc. destruct Hr as [Hbuf Hl]. destruct (Z.ltb_spec (zlen (buf ++ bytes)) sizeof_header) as [Hs|Hs].
    + split; [split; [by apply is_bytes_app|done]|]. by rewrite stream_push_none.
    + apply reader_header_spec; [by apply is_bytes_app|]. rewrite zlen_app in *. lia.
  - unfold after_discard. rewrite zlen_app. destruct (Z.ltb_spec (n + zlen bytes) (hdr_payload_length h)).
    + split; [unfold reader_ok; simpl; lia|]. rewrite stream_push_none. unfold resume, after_discard. simpl.
      replace (zlen stream <? hdr_payload_length h - (n + zlen bytes)) with (zlen bytes + zlen stream <? hdr_payload_length h - n) by lia.
      destruct (Z.ltb_spec (zlen bytes + zlen stream) (hdr_payload_length h - n)); [done|].
      replace (zdrop (hdr_payload_length h - n) (bytes ++ stream)) with (zdrop (hdr_payload_length h - (n + zlen bytes)) stream);
        [done|].
      replace (hdr_payload_length h - n) with (zlen bytes + (hdr_payload_length h - (n + zlen bytes))) by lia.
      unfold zdrop, zlen in *. rewrite Z2Nat.inj_add, <- drop_drop, Nat2Z.id, drop_app_length by lia. done.
    + assert (zlen bytes = hdr_payload_length h - n) as E by lia. cbn [next_frame result_ok].
      replace (zlen bytes + zlen stream <? hdr_payload_length h - n) with false by lia.
      split; [apply reader_start_ok|]. rewrite <- E, zdrop_app_exact by done. by rewrite stream_push_none.
  - rewrite app_assoc. unfold after_payload. rewrite (zlen_app (buf ++ bytes)).
    destruct (Z.ltb_spec (zlen (buf ++ bytes)) (hdr_payload_length h)).
    + split; [done|]. rewrite stream_push_none. unfold resume, after_payload.
      cbn [rd_phase rd_last]. by rewrite (zlen_app (buf ++ bytes)).
    + assert (zlen (buf ++ bytes) = hdr_payload_length h) as E by (rewrite zlen_app in *; lia). cbn [next_frame result_ok].
      replace (zlen (buf ++ bytes) + zlen stream <? hdr_payload_length h) with false by lia.
      split; [apply reader_start_ok|]. by rewrite ztake_app_exact, zdrop_app_exact by done.
Qed.

(** The bytes of a run of answers, each within what was asked for. *)
Fixpoint answers_ok (r : reader) (answers : list recv) : Prop :=
  match answers with
  | [] => True
  | res :: answers =>
      match res with
      | Received bytes => answer_ok (reader_wants r) bytes
      | RecvTimeout => True
      | RecvFatal => False
      end
      /\ match reader_receive true r res with Reads _ r => answers_ok r answers | _ => True end
  end.
Definition received (res : recv) : list Z := match res with Received bytes => bytes | _ => [] end.

Lemma reader_receive_spec r res stream :
  reader_ok r ->
  match res with Received bytes => answer_ok (reader_wants r) bytes | RecvTimeout => True | RecvFatal => False end ->
  result_ok (reader_receive true r res) stream (resume r (received res ++ stream)).
Proof.
  intros Hr Ha. destruct res as [bytes| |]; [by apply reader_bytes_spec|split; [done|by rewrite stream_push_none]|done].
Qed.
Lemma reader_run_spec answers : forall r more,
  reader_ok r -> answers_ok r answers ->
  resume r (concat (map received answers) ++ more) =
  let '(frames, r') := reader_run r answers in
  match r' with
  | Some r' => (frames ++ fst (resume r' more), snd (resume r' more))
  | None => (frames, true)
  end.
Proof.
  induction answers as [|res answers IH]; intros r more Hr Ha; [simpl; by destruct (resume r more)|].
  destruct Ha as [Hres Hrest]. cbn [map concat reader_run]. rewrite <- app_assoc.
  pose proof (reader_receive_spec r res (concat (map received answers) ++ more) Hr Hres) as Hs.
  destruct (reader_receive true r res) as [pushed r1|pushed|]; [|done|exact Hs].
  destruct Hs as [Hr1 ->]. rewrite (IH r1 more Hr1 Hrest). unfold stream_push, reader_push.
  destruct (reader_run r1 answers) as [frames [r'|]]; cbn [fst snd]; [|done]. by rewrite app_assoc.
Qed.

(** Nothing more comes out of what the thread has got. *)
Lemma resume_nothing r : reader_ok r -> resume r [] = ([], false).
Proof.
  destruct r as [[buf|h n|h buf] last]; unfold reader_ok, resume, after_discard, after_payload;
    cbn [rd_phase rd_last]; intros Hr; rewrite ?app_nil_r, ?zlen_nil.
  - rewrite frames_of_unfold. by replace (zlen buf <? sizeof_header) with true by lia.
  - by replace (0 <? hdr_payload_length h - n) with true by lia.
  - by replace (zlen buf <? hdr_payload_length h) with true by lia.
Qed.

(** Each effect of the thread is a step of the worker system. *)
Lemma reader_effect_step {X} `{!WorkerEnv X} config ready (res : reader_result) (w : worker X) :
  reader_effect res w = w \/ worker_step config ready w (reader_effect res w).
Proof.
  destruct res as [[f|] r|[f|]|]; cbn [reader_effect]; try (by left); right; [apply step_receive..|].
  exact (step_peer_gone config ready w).
Qed.

Lemma reader_run_ok answers : forall r r',
  reader_ok r -> answers_ok r answers -> snd (reader_run r answers) = Some r' -> reader_ok r'.
Proof.
  induction answers as [|res answers IH]; intros r r' Hr Ha; [by intros [= <-]|].
  destruct Ha as [Hres Hrest]. cbn [reader_run]. pose proof (reader_receive_spec r res [] Hr Hres) as Hs.
  destruct (reader_receive true r res) as [pushed r1|pushed|]; [|done|done]. destruct Hs as [Hr1 _]. by apply IH.
Qed.
(** A reader between two frames. *)
Definition reader_at (last : option Z) : reader := mk_reader (ReadHeader []) last.
Lemma reader_run_frames_at last answers :
  answers_ok (reader_at last) answers ->
  frames_of last (concat (map received answers)) =
  (fst (reader_run (reader_at last) answers),
   match snd (reader_run (reader_at last) answers) with None => true | Some _ => false end).
Proof.
  intros Ha. pose proof (reader_run_spec answers (reader_at last) [] (reader_start_ok last) Ha) as H.
  pose proof (fun r' => reader_run_ok answers (reader_at last) r' (reader_start_ok last) Ha) as Hok.
  rewrite app_nil_r in H. change (resume (reader_at last) ?s) with (frames_of last s) in H. rewrite H. clear H.
  destruct (reader_run (reader_at last) answers) as [frames [r'|]]; cbn [fst snd] in *; [|done].
  rewrite resume_nothing by auto. by rewrite app_nil_r.
Qed.
Lemma reader_run_frames answers :
  answers_ok reader_start answers ->
  frames_of None (concat (map received answers)) =
  (fst (reader_run reader_start answers),
   match snd (reader_run reader_start answers) with None => true | Some _ => false end).
Proof. apply reader_run_frames_at. Qed.

(** *** What a sender's stream becomes *)

Definition wire_bytes (fs : list (vw_frame_header_t * list Z)) : list Z :=
  concat (map (fun f => header_bytes (fst f) ++ snd f) fs).
Definition wire_frame_ok (f : vw_frame_header_t * list Z) : Prop :=
  wf_header (fst f) /\ vw_protocol_validate_header (fst f) = true /\ hdr_payload_length (fst f) = zlen (snd f).
Definition queued (f : vw_frame_header_t * list Z) : vw_worker_frame_t :=
  mk_frame (hdr_type (fst f)) (zlen (snd f)) (if 0 <? zlen (snd f) then Some (snd f) else None).
(** The frames whose number exceeds that of every one before. *)
Fixpoint fresh (last : option Z) (fs : list (vw_frame_header_t * list Z)) : list (vw_frame_header_t * list Z) :=
  match fs with
  | [] => []
  | f :: fs =>
      if stale last (hdr_sequence (fst f)) then fresh last fs else f :: fresh (Some (hdr_sequence (fst f))) fs
  end.

Lemma header_bytes_length h : zlen (header_bytes h) = sizeof_header.
Proof. unfold header_bytes. by rewrite !zlen_app, !zlen_le_enc. Qed.
Lemma frames_of_wire fs : forall last,
  Forall wire_frame_ok fs -> frames_of last (wire_bytes fs) = (map queued (fresh last fs), false).
Proof.
  induction fs as [|[h p] fs IH]; intros last Hf; [by rewrite frames_of_unfold|].
  apply Forall_cons_iff in Hf as [(Hwf & Hv & Hl) Hf]. cbn [fst snd] in *. unfold wire_bytes. cbn [map concat fst snd].
  fold (wire_bytes fs). rewrite <- app_assoc, frames_of_unfold.
  pose proof (header_bytes_length h) as Hh. pose proof (zlen_nonneg p). pose proof (zlen_nonneg (wire_bytes fs)).
  rewrite !zlen_app, Hh. replace (sizeof_header + (zlen p + zlen (wire_bytes fs)) <? sizeof_header) with false by lia.
  rewrite ztake_app_exact, zdrop_app_exact by done. unfold vw_protocol_decode_header.
  pose proof (decode_header_bytes h [] Hwf) as Hd. rewrite app_nil_r in Hd. rewrite Hd, Hv. cbv zeta. rewrite Hl, zlen_app.
  replace (zlen p + zlen (wire_bytes fs) <? zlen p) with false by lia.
  rewrite ztake_app_exact, zdrop_app_exact by done. cbn [fresh fst]. destruct (stale last _); [by apply IH|].
  by rewrite IH.
Qed.

Lemma reader_run_wire_at last fs answers :
  Forall wire_frame_ok fs -> answers_ok (reader_at last) answers ->
  concat (map received answers) = wire_bytes fs ->
  exists r, reader_run (reader_at last) answers = (map queued (fresh last fs), Some r).
Proof.
  intros Hf Ha Hb. pose proof (reader_run_frames_at last answers Ha) as H. rewrite Hb, frames_of_wire in H by done.
  destruct (reader_run (reader_at last) answers) as [frames [r|]]; cbn [fst snd] in H; [|done].
  exists r. by injection H as ->.
Qed.
Lemma reader_run_wire fs answers :
  Forall wire_frame_ok fs -> answers_ok reader_start answers ->
  concat (map received answers) = wire_bytes fs ->
  exists r, reader_run reader_start answers = (map queued (fresh None fs), Some r).
Proof. apply reader_run_wire_at. Qed.

(** ** Properties *)

(** However the transport cuts the stream into pieces and whenever it times out,
    the reader pushes exactly the frames the stream holds, in order, and fails
    exactly when the stream has a header that is not one. *)
Theorem reader_chunking (answers : list recv) :
  answers_ok reader_start answers ->
  frames_of None (concat (map received answers)) =
  (fst (reader_run reader_start answers),
   match snd (reader_run reader_start answers) with None => true | Some _ => false end).
Proof. apply reader_run_frames. Qed.

(** C10: What a sender puts on the wire reaches the queue: from the bytes of valid
    frames, in any pieces, the reader pushes the frames whose sequence number
    exceeds all before, each with its type and its whole payload, and goes on. *)
Theorem reader_delivers (fs : list (vw_frame_header_t * list Z)) (answers : list recv) :
  Forall wire_frame_ok fs -> answers_ok reader_start answers ->
  concat (map received answers) = wire_bytes fs ->
  exists r, reader_run reader_start answers = (map queued (fresh None fs), Some r).
Proof. apply reader_run_wire. Qed.

(** ** Witnesses: two frames, the second stale, in three pieces with a timeout *)

Definition two_frames : list (vw_frame_header_t * list Z) :=
  [(mk_header VW_PROTOCOL_MAGIC 1 VW_MSG_PAUSE 18 5, zreplicate 18 1);
   (mk_header VW_PROTOCOL_MAGIC 1 VW_MSG_SHUTDOWN 0 5, [])].
Definition three_pieces : list recv :=
  [Received (ztake 7 (wire_bytes two_frames)); RecvTimeout;
   Received (ztake 13 (zdrop 7 (wire_bytes two_frames)));
   Received (zreplicate 18 1); Received (ztake 20 (zdrop 38 (wire_bytes two_frames)))].

Lemma two_frames_ok : Forall wire_frame_ok two_frames.
Proof.
  apply Forall_cons; [|apply Forall_cons; [|apply Forall_nil]];
    (unfold wire_frame_ok, wf_header, is_unsigned; vm_compute; split_and!; congruence).
Qed.
Lemma three_pieces_ok : answers_ok reader_start three_pieces.
Proof. repeat split; try vm_decide; vm_compute; congruence. Qed.

Lemma reader_chunking_witness :
  reader_run reader_start three_pieces = ([mk_frame VW_MSG_PAUSE 18 (Some (zreplicate 18 1))], Some (mk_reader (ReadHeader []) (Some 5)))
  /\ frames_of None (concat (map received three_pieces)) = ([mk_frame VW_MSG_PAUSE 18 (Some (zreplicate 18 1))], false).
Proof.
  split; [vm_compute; reflexivity|]. exact (reader_chunking three_pieces three_pieces_ok).
Defined.
Lemma reader_delivers_witness :
  exists r, reader_run reader_start three_pieces = (map queued (fresh None two_frames), Some r).
Proof. apply (reader_delivers two_frames three_pieces two_frames_ok three_pieces_ok). vm_compute. reflexivity. Defined.

