(* ===== verification/IpcSocket.v ===== *)
(** * The local socket

    [src/protocol/src/vw_ipc_socket_linux.c]: the transport between plugin and worker on
    Linux, a [SOCK_SEQPACKET] socket in the file system. The system calls are the
    operations of [SockEnv]; descriptors, the endpoint and the records moved are recorded
    in a log. *)

From S2P Require Import Prelude.
From S2P Require Import State.
From S2P Require Import WorkerReader.

Definition sun_path_size : Z := 108.
Definition VW_IPC_MAX_RECORD_BYTES : Z := 65536.

(** ** What the transport calls *)

(** [poll] of one descriptor: no event in time, an event, or a failure. *)
Inductive sock_poll := SockTimeout | SockReady | SockPollError (e : errno).
Inductive send_answer := SendCount (n : Z) | SendError (e : errno).
(** [recvmsg]: the bytes that fit the buffer and [MSG_TRUNC]; no byte is the end. *)
Inductive recv_answer := RecvRecord (data : list Z) (truncated : bool) | RecvError (e : errno).

Class SockEnv (X : Type) := {
  socket : X -> option Z * X;
  bind : X -> Z -> list Z -> bool * X;
  (** [chmod(path, S_IRUSR | S_IWUSR)] *)
  chmod : X -> list Z -> bool * X;
  listen : X -> Z -> bool * X;
  accept : X -> Z -> option Z * X;
  (** [getsockopt(SO_PEERCRED)]: the user at the other end. *)
  peer_uid : X -> Z -> option Z * X;
  geteuid : X -> Z * X;
  connect : X -> Z -> list Z -> bool * X;
  (** [SO_RCVTIMEO] and [SO_SNDTIMEO] of three seconds. *)
  set_timeouts : X -> Z -> X;
  unlink : X -> list Z -> X;
  close : X -> Z -> X;
  (** [CLOCK_MONOTONIC], in seconds and nanoseconds. *)
  clock_gettime : X -> option (Z * Z) * X;
  (** To read ([false]) or to write ([true]), in milliseconds. *)
  poll : X -> Z -> bool -> Z -> sock_poll * X;
  send : X -> Z -> list Z -> send_answer * X;
  recvmsg : X -> Z -> Z -> recv_answer * X;
  (** Whether [calloc] has memory for the handle. *)
  calloc : X -> bool * X
}.

(** ** The state *)

Inductive sock_event :=
  | SockOpened (fd : Z)
  | SockClosed (fd : Z)
  | EndpointBound (path : list Z)
  | EndpointPrivate (path : list Z)
  | EndpointListens (path : list Z)
  | EndpointRemoved (path : list Z)
  | PeerIs (fd uid euid : Z)
  | RecordSent (data : list Z).

(** A loop that ran out of fuel is recorded in [ip_stuck]. *)
Record ipc {X : Type} := mk_ipc { ip_log : list sock_event; ip_stuck : bool; ip_ext : X }.
Arguments ipc X : clear implicits.
Arguments mk_ipc {X}.

#[global] Instance settable_ipc {X} : Settable (ipc X) := fun s => mk_ipc (ip_log s) (ip_stuck s) (ip_ext s).
#[global] Instance set_ip_log {X} : Setter (@ip_log X) := ltac:(setter).
#[global] Instance set_ip_stuck {X} : Setter (@ip_stuck X) := ltac:(setter).
#[global] Instance set_ip_ext {X} : Setter (@ip_ext X) := ltac:(setter).

Section transport.
Context {X : Type} `{!SockEnv X}.
#[local] Abbreviation I := (M (ipc X)).

Definition sys {A} (f : X -> A * X) : I A := fun s => let '(a, x) := f (ip_ext s) in (a, s <| ip_ext := x |>).
Definition sys_ (f : X -> X) : I unit := modify (fun s => s <| ip_ext := f (ip_ext s) |>).
Definition sock_note (e : sock_event) : I unit := modify (fun s => s <| ip_log := ip_log s ++ [e] |>).
Definition stuck {A} (a : A) : I A := modify (fun s => s <| ip_stuck := true |>) ;; mret a.

Definition close_sock (fd : Z) : I unit := sys_ (fun x => close x fd) ;; sock_note (SockClosed fd).
Definition remove_endpoint (path : list Z) : I unit := sys_ (fun x => unlink x path) ;; sock_note (EndpointRemoved path).
(** A call whose failure ends [vw_ipc_listen], and what it establishes. *)
Definition establishes (call : X -> bool * X) (e : sock_event) : I bool :=
  ok ← sys call; (if ok : bool then sock_note e else skip) ;; mret ok.

(** ** Opening *)

(** The endpoint's name, when it is one that fits [sun_path]. *)
Definition endpoint_of (endpoint_name : option (list Z)) : option (list Z) :=
  match endpoint_name with
  | None | Some [] => None
  | Some path => if sun_path_size <=? zlen path then None else Some path
  end.

Definition open_socket (next : Z -> I (option Z)) : I (option Z) :=
  fd ← sys socket;
  match fd with
  | None => mret None
  | Some fd => sock_note (SockOpened fd) ;; next fd
  end.

(** The connection's handle; its timeouts are set before. *)
Definition make_handle (client_fd : Z) : I (option Z) :=
  sys_ (fun x => set_timeouts x client_fd) ;;
  memory ← sys calloc;
  if memory : bool then mret (Some client_fd) else close_sock client_fd ;; mret None.

Definition elapsed_ms (started now : Z * Z) : Z :=
  (fst now - fst started) * 1000 + Z.quot (snd now - snd started) 1000000.
(** Whether a peer came within ten seconds. *)
Fixpoint wait_peer (fuel : nat) (server_fd : Z) (wait_started : Z * Z) (wait_ms : Z) : I bool :=
  match fuel with
  | O => stuck false
  | S fuel =>
      poll_result ← sys (fun x => poll x server_fd false wait_ms);
      match poll_result with
      | SockReady => mret true
      | SockPollError EINTR =>
          now ← sys clock_gettime;
          match now with
          | None => mret false
          | Some now =>
              let elapsed := elapsed_ms wait_started now in
              if 10000 <=? elapsed then mret false else wait_peer fuel server_fd wait_started (10000 - i32 elapsed)
          end
      | _ => mret false
      end
  end.

(** [getsockopt(...) == 0 && peer.uid == geteuid()] *)
Definition same_user (client_fd : Z) : I bool :=
  uid ← sys (fun x => peer_uid x client_fd);
  match uid with
  | None => mret false
  | Some uid => euid ← sys geteuid; sock_note (PeerIs client_fd uid euid) ;; mret (uid =? euid)
  end.

Definition accept_peer (path : list Z) (server_fd : Z) : I (option Z) :=
  client_fd ← sys (fun x => accept x server_fd);
  (match client_fd with Some fd => sock_note (SockOpened fd) | None => skip end) ;;
  close_sock server_fd ;;
  match client_fd with
  | None => remove_endpoint path ;; mret None
  | Some client_fd =>
      ok ← same_user client_fd;
      if negb ok then close_sock client_fd ;; remove_endpoint path ;; mret None
      else remove_endpoint path ;; make_handle client_fd
  end.

(** [unlink(endpoint_name); close(server_fd); return NULL;] *)
Definition withdraw (path : list Z) (server_fd : Z) : I (option Z) :=
  remove_endpoint path ;; close_sock server_fd ;; mret None.

Definition vw_ipc_listen (fuel : nat) (endpoint_name : option (list Z)) : I (option Z) :=
  match endpoint_of endpoint_name with
  | None => mret None
  | Some path =>
      open_socket (fun server_fd =>
        bound ← establishes (fun x => bind x server_fd path) (EndpointBound path);
        if negb bound then close_sock server_fd ;; mret None
        else
          made_private ← establishes (fun x => chmod x path) (EndpointPrivate path);
          if negb made_private then withdraw path server_fd
          else
            listening ← establishes (fun x => listen x server_fd) (EndpointListens path);
            if negb listening then withdraw path server_fd
            else
              wait_started ← sys clock_gettime;
              match wait_started with
              | None => withdraw path server_fd
              | Some wait_started =>
                  came ← wait_peer fuel server_fd wait_started 10000;
                  if negb came then withdraw path server_fd else accept_peer path server_fd
              end)
  end.

Definition vw_ipc_connect (endpoint_name : option (list Z)) : I (option Z) :=
  match endpoint_of endpoint_name with
  | None => mret None
  | Some path =>
      open_socket (fun client_fd =>
        ok ← sys (fun x => connect x client_fd path);
        if negb ok then close_sock client_fd ;; mret None else make_handle client_fd)
  end.

(** ** Sending *)

(** In microseconds, negative when the clock fails. *)
Definition vw_ipc_monotonic_us : I Z :=
  now ← sys clock_gettime;
  mret (match now with None => -1 | Some (sec, nsec) => sec * 1000000 + Z.quot nsec 1000 end).

(** One turn of the loop that sends a record: whether it is sent, or to go on ([None]). *)
Definition send_turn (fd : Z) (record : list Z) (deadline_us : Z) : I (option bool) :=
  now_us ← vw_ipc_monotonic_us;
  if (now_us <? 0) || (deadline_us <=? now_us) then mret (Some false)
  else
    let timeout_ms := Z.quot (deadline_us - now_us + 999) 1000 in
    poll_result ← sys (fun x => poll x fd true timeout_ms);
    match poll_result with
    | SockPollError EINTR => mret None
    | SockTimeout | SockPollError _ => mret (Some false)
    | SockReady =>
        sent ← sys (fun x => send x fd record);
        match sent with
        | SendCount n => sock_note (RecordSent (ztake n record)) ;; mret (Some (n =? zlen record))
        | SendError (EAGAIN | EINTR) => mret None
        | SendError _ => mret (Some false)
        end
    end.
Fixpoint send_record (fuel : nat) (fd : Z) (record : list Z) (deadline_us : Z) : I bool :=
  match fuel with
  | O => stuck false
  | S fuel =>
      r ← send_turn fd record deadline_us;
      match r with Some ok => mret ok | None => send_record fuel fd record deadline_us end
  end.

(** The loop over the records; [records] bounds their number. *)
Fixpoint send_records (records fuel : nat) (fd : Z) (bytes : list Z) (deadline_us : Z) : I bool :=
  if negb (0 <? zlen bytes) then mret true
  else match records with
  | O => stuck false
  | S records =>
      let record_size := if zlen bytes <? VW_IPC_MAX_RECORD_BYTES then zlen bytes else VW_IPC_MAX_RECORD_BYTES in
      ok ← send_record fuel fd (ztake record_size bytes) deadline_us;
      if negb ok then mret false else send_records records fuel fd (zdrop record_size bytes) deadline_us
  end.

(** [data] is not [NULL]; every record takes at least a byte of it. *)
Definition vw_ipc_send (fuel : nat) (handle : option Z) (data : list Z) : I bool :=
  match handle with
  | None => mret false
  | Some fd =>
      now_us ← vw_ipc_monotonic_us;
      if now_us <? 0 then mret false else send_records (length data) fuel fd data (now_us + 3000000)
  end.

(** ** Receiving *)

(** A record of at most [buffer_size] bytes; a longer one is an error ([EMSGSIZE]). *)
Fixpoint vw_ipc_recv_record (fuel : nat) (fd buffer_size : Z) : I (list Z + errno) :=
  match fuel with
  | O => stuck (inr OtherError)
  | S fuel =>
      answer ← sys (fun x => recvmsg x fd buffer_size);
      match answer with
      | RecvError EINTR => vw_ipc_recv_record fuel fd buffer_size
      | RecvError e => mret (inr e)
      | RecvRecord data truncated =>
          mret (if truncated : bool then inr OtherError else inl (ztake buffer_size data))
      end
  end.
Definition recv_result (record : list Z + errno) : recv :=
  match record with
  | inl [] => RecvFatal
  | inl bytes => Received bytes
  | inr EAGAIN => RecvTimeout
  | inr _ => RecvFatal
  end.
Definition vw_ipc_receive (fuel : nat) (handle : option Z) (buffer_size : Z) : I recv :=
  match handle with
  | None => mret RecvFatal
  | Some fd => record ← vw_ipc_recv_record fuel fd buffer_size; mret (recv_result record)
  end.

(** [do { poll } while (EINTR)] *)
Fixpoint poll_in (fuel : nat) (fd timeout_ms : Z) : I sock_poll :=
  match fuel with
  | O => stuck SockTimeout
  | S fuel =>
      ret ← sys (fun x => poll x fd false timeout_ms);
      match ret with SockPollError EINTR => poll_in fuel fd timeout_ms | _ => mret ret end
  end.
Definition vw_ipc_receive_timeout (fuel : nat) (handle : option Z) (buffer_size timeout_us : Z) : I recv :=
  match handle with
  | None => mret RecvFatal
  | Some fd =>
      ret ← poll_in fuel fd (i32 (u64 (timeout_us + 999) / 1000));
      match ret with
      | SockTimeout => mret RecvTimeout
      | SockPollError _ => mret RecvFatal
      | SockReady => record ← vw_ipc_recv_record fuel fd buffer_size; mret (recv_result record)
      end
  end.

Definition vw_ipc_close (handle : option Z) : I unit :=
  match handle with
  | None => skip
  | Some fd => when (0 <=? fd) (close_sock fd)
  end.

(** A frame on the wire: its header, then its payload, each in a call of its own. *)
Definition send_frame (fuel : nat) (handle : option Z) (header payload : list Z) : I bool :=
  ok ← vw_ipc_send fuel handle header;
  if ok : bool then vw_ipc_send fuel handle payload else mret false.
End transport.
