(* ===== verification/IpcSocketHandles.v ===== *)
(** * Nothing the socket opens is left behind

    The life of a connection of [IpcSocket]: what is open, what is in the file system and
    who is at the other end, read off the log of its calls; and a scripted system in which
    it can be run. *)

From stdpp Require Import relations.
From S2P Require Import Prelude.
From S2P Require Import CString.
From S2P Require Import State.
From S2P Require Import WorkerReader.
From S2P Require Import IpcSocket.
#[local] Open Scope Z_scope.

(** ** What the log says *)

(** The descriptors open, the endpoint in the file system and whether others are kept off
    it, and the descriptor whose other end was found to be the user's own. *)
Record holding := mk_holding {
  hd_fds : list Z;
  hd_endpoint : option (list Z);
  hd_private : bool;
  hd_trusted : option Z
}.
Definition no_holding : holding := mk_holding [] None false None.

(** An event on what is held; [None] when it has no business there: a descriptor or
    endpoint that is not held is given up, an endpoint listens before it is private, a
    second one is bound. *)
Definition hold (h : holding) (e : sock_event) : option holding :=
  let '(mk_holding fds endpoint private trusted) := h in
  match e with
  | SockOpened fd => Some (mk_holding (fd :: fds) endpoint private trusted)
  | SockClosed fd => fds ← take_out fd fds; Some (mk_holding fds endpoint private trusted)
  | EndpointBound path => if decide (endpoint = None) then Some (mk_holding fds (Some path) false trusted) else None
  | EndpointPrivate path => if decide (endpoint = Some path) then Some (mk_holding fds endpoint true trusted) else None
  | EndpointListens path => if decide (endpoint = Some path /\ private = true) then Some h else None
  | EndpointRemoved path => if decide (endpoint = Some path) then Some (mk_holding fds None false trusted) else None
  | PeerIs fd uid euid =>
      if decide (fd ∈ fds) then Some (mk_holding fds endpoint private (if uid =? euid then Some fd else None)) else None
  | RecordSent _ => Some h
  end.
Definition holdings (log : list sock_event) : option holding :=
  fold_left (fun h e => h ← h; hold h e) log (Some no_holding).

Lemma holdings_snoc log e : holdings (log ++ [e]) = (h ← holdings log; hold h e).
Proof. apply fold_left_app. Qed.

Section handles.
Context {X : Type} `{!SockEnv X}.
#[local] Abbreviation I := (M (ipc X)).

(** Held, in any order. *)
Definition holds (h : holding) (s : ipc X) : Prop :=
  exists fds, holdings (ip_log s) = Some (mk_holding fds (hd_endpoint h) (hd_private h) (hd_trusted h)) /\ fds ≡ₚ hd_fds h.

Lemma holds_log h s s' : ip_log s' = ip_log s -> holds h s -> holds h s'.
Proof. unfold holds. by intros ->. Qed.
Lemma holds_event e h h' s s' : ip_log s' = ip_log s ++ [e] -> holds h s ->
  (forall fds, fds ≡ₚ hd_fds h -> exists fds', hold (mk_holding fds (hd_endpoint h) (hd_private h) (hd_trusted h)) e
     = Some (mk_holding fds' (hd_endpoint h') (hd_private h') (hd_trusted h')) /\ fds' ≡ₚ hd_fds h') ->
  holds h' s'.
Proof.
  intros Hl (fds & Hh & Hp) He. destruct (He fds Hp) as (fds' & Hu & Hp'). exists fds'.
  by rewrite Hl, holdings_snoc, Hh.
Qed.
Lemma holds_note e fds endpoint private trusted h' :
  (forall l, l ≡ₚ fds -> exists l', hold (mk_holding l endpoint private trusted) e
     = Some (mk_holding l' (hd_endpoint h') (hd_private h') (hd_trusted h')) /\ l' ≡ₚ hd_fds h') ->
  triple (holds (mk_holding fds endpoint private trusted)) (sock_note (X := X) e) (fun _ => holds h').
Proof. intros He s Hs. by eapply holds_event. Qed.

Lemma holds_sys {A} h (f : X -> A * X) : triple (holds h) (sys f) (fun _ => holds h).
Proof. intros s Hs. unfold sys. by destruct (f (ip_ext s)). Qed.
Lemma holds_sys_ h (f : X -> X) : triple (holds h) (sys_ f) (fun _ => holds h).
Proof. by intros s Hs. Qed.
Lemma holds_stuck {A} h (a : A) : triple (holds h) (stuck a) (fun _ => holds h).
Proof. by intros s Hs. Qed.
Lemma holds_open fd fds endpoint private trusted :
  triple (holds (mk_holding fds endpoint private trusted)) (sock_note (X := X) (SockOpened fd))
    (fun _ => holds (mk_holding (fd :: fds) endpoint private trusted)).
Proof. apply holds_note. intros l Hl. exists (fd :: l). split; [done|]. cbn. by rewrite Hl. Qed.
Lemma holds_close fd fds endpoint private trusted :
  triple (holds (mk_holding (fd :: fds) endpoint private trusted)) (close_sock (X := X) fd)
    (fun _ => holds (mk_holding fds endpoint private trusted)).
Proof.
  unfold close_sock. eapply triple_bind; [apply holds_sys_|]. intros ?. apply holds_note. intros l Hl. cbn.
  destruct (take_out_in fd l) as (l' & -> & Hp); [rewrite Hl; left|]. exists l'. split; [done|].
  rewrite Hl in Hp. by apply (Permutation_cons_inv (a := fd)).
Qed.
Lemma holds_remove path fds private trusted :
  triple (holds (mk_holding fds (Some path) private trusted)) (remove_endpoint (X := X) path)
    (fun _ => holds (mk_holding fds None false trusted)).
Proof.
  unfold remove_endpoint. eapply triple_bind; [apply holds_sys_|]. intros ?. apply holds_note. intros l Hl. exists l.
  cbn. by rewrite decide_True by done.
Qed.
Lemma holds_establishes call e h h' :
  triple (holds h) (sock_note (X := X) e) (fun _ => holds h') ->
  triple (holds h) (establishes call e) (fun ok => holds (if ok : bool then h' else h)).
Proof.
  intros He. unfold establishes. eapply triple_bind; [apply holds_sys|]. cbv beta. intros ok.
  apply (triple_bind _ _ _ (fun _ => holds (if ok : bool then h' else h))); [destruct ok; [done|by intros s]|by intros ? s].
Qed.

(** ** Opening *)

(** What is held when opening ends: the handle if there is one, in [server]'s case of a
    peer that is the user's own, and no endpoint. *)
Definition opened (server : bool) (handle : option Z) (s : ipc X) : Prop :=
  exists trusted, holds (mk_holding (option_list handle) None false trusted) s
    /\ (server = true -> handle <> None -> trusted = handle).

Lemma fails_opened server trusted (m : I (option Z)) h :
  triple (holds h) m (fun r s => r = None /\ holds (mk_holding [] None false trusted) s) -> triple (holds h) m (opened server).
Proof. intros Hm s Hs. destruct (Hm s Hs) as [-> Hh]. by exists trusted. Qed.
Lemma close_none fd trusted :
  triple (holds (mk_holding [fd] None false trusted)) (close_sock (X := X) fd ;; mret (None : option Z))
    (fun r s => r = None /\ holds (mk_holding [] None false trusted) s).
Proof. eapply triple_bind; [apply holds_close|]. by intros ? s. Qed.
Lemma withdraw_none path fd private trusted :
  triple (holds (mk_holding [fd] (Some path) private trusted)) (withdraw (X := X) path fd)
    (fun r s => r = None /\ holds (mk_holding [] None false trusted) s).
Proof. unfold withdraw. eapply triple_bind; [apply holds_remove|]. intros ?. apply close_none. Qed.
Lemma make_handle_opened server fd trusted : (server = true -> trusted = Some fd) ->
  triple (holds (mk_holding [fd] None false trusted)) (make_handle (X := X) fd) (opened server).
Proof.
  intros Ht. unfold make_handle. eapply triple_bind; [apply holds_sys_|]. intros ?.
  eapply triple_bind; [apply holds_sys|]. cbv beta. intros []; [|by apply (fails_opened _ trusted), close_none].
  intros s Hs. exists trusted. split; [done|]. intros Hs' _. by apply Ht.
Qed.
Lemma open_socket_opened server next :
  (forall fd, triple (holds (mk_holding [fd] None false None)) (next fd) (opened server)) ->
  triple (holds no_holding) (open_socket (X := X) next) (opened server).
Proof.
  intros Hn. unfold open_socket. eapply triple_bind; [apply holds_sys|]. cbv beta. intros [fd|].
  - eapply triple_bind; [apply holds_open|]. intros ?. apply Hn.
  - intros s Hs. by exists None.
Qed.

Lemma wait_peer_holds h fuel fd started : forall wait_ms,
  triple (holds h) (wait_peer (X := X) fuel fd started wait_ms) (fun _ => holds h).
Proof.
  induction fuel as [|fuel IH]; intros wait_ms; cbn [wait_peer]; [apply holds_stuck|].
  eapply triple_bind; [apply holds_sys|]. cbv beta. intros [| |[]]; try by intros s.
  eapply triple_bind; [apply holds_sys|]. cbv beta. intros [now|]; [|by intros s]. cbv zeta.
  apply triple_if; [by intros _ s|]. intros _. apply IH.
Qed.
Lemma same_user_holds fd fds endpoint private :
  triple (holds (mk_holding (fd :: fds) endpoint private None)) (same_user (X := X) fd)
    (fun ok s => exists trusted, holds (mk_holding (fd :: fds) endpoint private trusted) s /\ (ok = true -> trusted = Some fd)).
Proof.
  unfold same_user. eapply triple_bind; [apply holds_sys|]. cbv beta. intros [uid|]; [|intros s Hs; by exists None].
  eapply triple_bind; [apply holds_sys|]. cbv beta. intros euid.
  eapply (triple_bind _ _ _ (fun _ => holds (mk_holding (fd :: fds) endpoint private (if uid =? euid then Some fd else None)))).
  - apply holds_note. intros l Hl. exists l. cbn. rewrite decide_True by (rewrite Hl; left). done.
  - intros ? s Hs. eexists. split; [exact Hs|]. cbn. by intros ->.
Qed.
Lemma accept_peer_opened path fd private :
  triple (holds (mk_holding [fd] (Some path) private None)) (accept_peer (X := X) path fd) (opened true).
Proof.
  unfold accept_peer. eapply triple_bind; [apply holds_sys|]. cbv beta. intros [client|].
  - eapply triple_bind; [apply holds_open|]. intros ?. apply (triple_bind _ _ _ (fun _ => holds (mk_holding [client] (Some path) private None))).
    { intros s (l & Hl & Hp). apply (holds_close fd [client]). exists l. split; [done|]. rewrite Hp. apply Permutation_swap. }
    intros ?. eapply triple_bind; [apply same_user_holds|]. cbv beta. intros ok s (trusted & Hs & Ht). revert s Hs.
    fold (triple (holds (mk_holding [client] (Some path) private trusted))
      (if negb ok then close_sock client ;; remove_endpoint path ;; mret None else remove_endpoint path ;; make_handle client)
      (opened true)).
    apply triple_if; intros Hok.
    + apply (fails_opened _ trusted). eapply triple_bind; [apply holds_close|]. intros ?.
      eapply triple_bind; [apply holds_remove|]. by intros ? s.
    + eapply triple_bind; [apply holds_remove|]. intros ?. apply make_handle_opened. intros _. apply Ht. by destruct ok.
  - eapply (triple_bind _ _ _ (fun _ => holds (mk_holding [fd] (Some path) private None))); [by intros s|]. intros ?.
    eapply triple_bind; [apply holds_close|]. intros ?. apply (fails_opened _ None).
    eapply triple_bind; [apply holds_remove|]. by intros ? s.
Qed.

Lemma listen_opened fuel name : triple (holds no_holding) (vw_ipc_listen (X := X) fuel name) (opened true).
Proof.
  unfold vw_ipc_listen. destruct (endpoint_of name) as [path|]; [|intros s Hs; by exists None].
  apply open_socket_opened. intros fd.
  eapply triple_bind; [apply (holds_establishes _ _ _ (mk_holding [fd] (Some path) false None)), holds_note; intros l Hl; by exists l|].
  cbv beta. intros []; cbn [negb]; [|apply (fails_opened _ None), close_none].
  eapply triple_bind; [apply (holds_establishes _ _ _ (mk_holding [fd] (Some path) true None)), holds_note; intros l Hl; exists l;
    cbn; by rewrite decide_True by done|].
  cbv beta. intros []; cbn [negb]; [|eapply fails_opened, withdraw_none].
  eapply triple_bind; [apply (holds_establishes _ _ _ (mk_holding [fd] (Some path) true None)), holds_note; intros l Hl; exists l;
    cbn; by rewrite decide_True by done|].
  cbv beta. intros []; cbn [negb]; [|eapply fails_opened, withdraw_none].
  eapply triple_bind; [apply holds_sys|]. cbv beta. intros [started|]; [|eapply fails_opened, withdraw_none].
  eapply triple_bind; [apply wait_peer_holds|]. cbv beta. intros []; cbn [negb]; [apply accept_peer_opened|].
  eapply fails_opened, withdraw_none.
Qed.
Lemma connect_opened name : triple (holds no_holding) (vw_ipc_connect (X := X) name) (opened false).
Proof.
  unfold vw_ipc_connect. destruct (endpoint_of name) as [path|]; [|intros s Hs; by exists None].
  apply open_socket_opened. intros fd. eapply triple_bind; [apply holds_sys|]. cbv beta.
  intros []; cbn [negb]; [by apply make_handle_opened|apply (fails_opened _ None), close_none].
Qed.

(** ** Using and closing *)

(** A call on the handle between opening and closing. *)
Inductive transport_call (handle : option Z) (s : ipc X) : ipc X -> Prop :=
  | call_send fuel data : transport_call handle s (snd (vw_ipc_send fuel handle data s))
  | call_receive fuel size : transport_call handle s (snd (vw_ipc_receive fuel handle size s))
  | call_receive_timeout fuel size timeout_us :
      transport_call handle s (snd (vw_ipc_receive_timeout fuel handle size timeout_us s)).

(** They hold and give up nothing. *)
Definition same_holdings (s s' : ipc X) : Prop := holdings (ip_log s') = holdings (ip_log s).
#[local] Instance same_holdings_preorder : PreOrder same_holdings.
Proof. split; [done|]. intros s1 s2 s3 A B. unfold same_holdings in *. congruence. Qed.
Lemma same_sys {A} (f : X -> A * X) : keeps same_holdings (sys f).
Proof. intros s. unfold sys. by destruct (f (ip_ext s)). Qed.
Lemma same_stuck {A} (a : A) : keeps same_holdings (stuck (X := X) a).
Proof. by intros s. Qed.
Lemma same_sent data : keeps same_holdings (sock_note (X := X) (RecordSent data)).
Proof.
  intros s. change (holdings (ip_log s ++ [RecordSent data]) = holdings (ip_log s)). rewrite holdings_snoc.
  by destruct (holdings (ip_log s)) as [[]|].
Qed.
#[local] Hint Resolve same_sys same_stuck same_sent : keeps.
Lemma same_send_record fuel fd record deadline_us : keeps same_holdings (send_record (X := X) fuel fd record deadline_us).
Proof.
  induction fuel as [|fuel IH]; cbn [send_record]; [auto with keeps|]. unfold send_turn, vw_ipc_monotonic_us. keeps_steps.
Qed.
#[local] Hint Resolve same_send_record : keeps.
Lemma same_send_records fuel fd deadline_us n : forall bytes, keeps same_holdings (send_records (X := X) n fuel fd bytes deadline_us).
Proof.
  induction n as [|n IH]; intros bytes; cbn [send_records]; keeps_steps.
Qed.
Lemma same_recv_record fuel fd size : keeps same_holdings (vw_ipc_recv_record (X := X) fuel fd size).
Proof. induction fuel as [|fuel IH]; cbn [vw_ipc_recv_record]; keeps_steps. Qed.
Lemma same_poll_in fuel fd timeout_ms : keeps same_holdings (poll_in (X := X) fuel fd timeout_ms).
Proof. induction fuel as [|fuel IH]; cbn [poll_in]; keeps_steps. Qed.
#[local] Hint Resolve same_send_records same_recv_record same_poll_in : keeps.
Lemma transport_call_same handle s s' : transport_call handle s s' -> same_holdings s s'.
Proof.
  intros []; match goal with |- same_holdings _ (snd (?m _)) => assert (keeps same_holdings m) as Hk; [|apply Hk] end.
  - unfold vw_ipc_send, vw_ipc_monotonic_us. keeps_steps.
  - unfold vw_ipc_receive. keeps_steps.
  - unfold vw_ipc_receive_timeout. keeps_steps.
Qed.
Lemma transport_calls_same handle s s' : rtc (transport_call handle) s s' -> same_holdings s s'.
Proof. induction 1 as [|s1 s2 s3 H _ IH]; [done|]. by etrans; [eapply transport_call_same|]. Qed.
Lemma close_holds handle trusted : (forall fd, handle = Some fd -> 0 <= fd) ->
  triple (holds (mk_holding (option_list handle) None false trusted)) (vw_ipc_close (X := X) handle)
    (fun _ => holds (mk_holding [] None false trusted)).
Proof.
  intros Hfd. unfold vw_ipc_close, when. destruct handle as [fd|]; [|by intros s].
  replace (0 <=? fd) with true by (specialize (Hfd fd eq_refl); lia). apply holds_close.
Qed.

Definition new_ipc (x : X) : ipc X := mk_ipc [] false x.
(** The side that listens, or the one that connects. *)
Definition open_transport (server : bool) (fuel : nat) (name : option (list Z)) : I (option Z) :=
  if server then vw_ipc_listen fuel name else vw_ipc_connect name.

(** C23: Over the life of a connection nothing is left behind: however the system answers,
    once opening has returned and while records are sent and received exactly the handle's
    descriptor is open and the endpoint is gone from the file system; it never listened
    before it was closed to other users; a connection that was accepted is one of the same
    user; closing leaves nothing. *)
Theorem connection_releases (server : bool) (fuel : nat) (name : option (list Z)) (x : X) (s : ipc X) :
  let r := open_transport server fuel name (new_ipc x) in
  rtc (transport_call (fst r)) (snd r) s -> (forall fd, fst r = Some fd -> 0 <= fd) ->
  exists trusted,
    holdings (ip_log s) = Some (mk_holding (option_list (fst r)) None false trusted)
    /\ (server = true -> fst r <> None -> trusted = fst r)
    /\ holdings (ip_log (snd (vw_ipc_close (fst r) s))) = Some (mk_holding [] None false trusted).
Proof.
  cbv zeta. intros Hcalls Hfd. assert (holds no_holding (new_ipc x)) as H0 by by exists [].
  assert (opened server (fst (open_transport server fuel name (new_ipc x))) (snd (open_transport server fuel name (new_ipc x))))
    as (trusted & Ho & Ht) by (destruct server; [by apply listen_opened|by apply connect_opened]).
  assert (holds (mk_holding (option_list (fst (open_transport server fuel name (new_ipc x)))) None false trusted) s) as Hs.
  { destruct Ho as (fds & Hh & Hp). exists fds. by rewrite (transport_calls_same _ _ _ Hcalls). }
  destruct (close_holds _ trusted Hfd s Hs) as (fds' & Hc & Hp'). apply Permutation_nil_r in Hp' as ->.
  exists trusted. split; [|by split]. destruct Hs as (fds & Hh & Hp). rewrite Hh. f_equal. f_equal.
  destruct (fst _) as [fd|]; [by apply Permutation_singleton_r in Hp|by apply Permutation_nil_r in Hp].
Qed.
End handles.

(** ** A scripted system

    A connection with records under way. Each call that waits takes the next of the
    moods; without one it finds what there is. Readings of the clock are a millisecond
    apart. *)

Inductive mood := Interrupts | Idles | Serves.
Record link := mk_link { lk_now : Z; lk_next_fd : Z; lk_peer : Z; lk_moods : list mood; lk_records : list (list Z) }.
#[global] Instance settable_link : Settable link :=
  fun l => mk_link (lk_now l) (lk_next_fd l) (lk_peer l) (lk_moods l) (lk_records l).
#[global] Instance set_lk_now : Setter lk_now := ltac:(setter).
#[global] Instance set_lk_next_fd : Setter lk_next_fd := ltac:(setter).
#[global] Instance set_lk_moods : Setter lk_moods := ltac:(setter).
#[global] Instance set_lk_records : Setter lk_records := ltac:(setter).

Definition mood_of (l : link) : mood := default Serves (head (lk_moods l)).
Definition pass (l : link) : link := l <| lk_moods := tail (lk_moods l) |>.
Definition new_fd (l : link) : option Z * link := (Some (lk_next_fd l), l <| lk_next_fd := lk_next_fd l + 1 |>).
(** Records arrive in order and whole, or cut to the buffer and marked. *)
Definition take_record (l : link) (n : Z) : recv_answer * link :=
  match lk_records l with
  | [] => (RecvError EAGAIN, l)
  | record :: records => (RecvRecord (ztake n record) (n <? zlen record), l <| lk_records := records |>)
  end.
#[global] Instance link_env : SockEnv link := {|
  socket := new_fd;
  bind := fun l _ _ => (true, l);
  chmod := fun l _ => (true, l);
  listen := fun l _ => (true, l);
  accept := fun l _ => new_fd l;
  peer_uid := fun l _ => (Some (lk_peer l), l);
  geteuid := fun l => (1000, l);
  connect := fun l _ _ => (true, l);
  set_timeouts := fun l _ => l;
  unlink := fun l _ => l;
  close := fun l _ => l;
  clock_gettime := fun l => (Some (lk_now l / 1000, lk_now l mod 1000 * 1000000), l <| lk_now := lk_now l + 1 |>);
  poll := fun l _ _ _ =>
    (match mood_of l with Interrupts => SockPollError EINTR | Idles => SockTimeout | Serves => SockReady end, pass l);
  send := fun l _ record => (SendCount (zlen record), l <| lk_records := lk_records l ++ [record] |>);
  recvmsg := fun l _ n =>
    match mood_of l with
    | Interrupts => (RecvError EINTR, pass l)
    | Idles => (RecvError EAGAIN, pass l)
    | Serves => take_record (pass l) n
    end;
  calloc := fun l => (true, l)
|}.
Definition sample_link (peer : Z) (moods : list mood) : link := mk_link 5 3 peer moods [].

(** A peer of another user is turned away, one of the same user is let in. *)
Example stranger_refused :
  fst (vw_ipc_listen 5 (Some (str "/tmp/s")) (new_ipc (sample_link 7 [Interrupts; Serves]))) = None.
Proof. reflexivity. Qed.
#[local] Abbreviation served := (open_transport true 5 (Some (str "/tmp/s")) (new_ipc (sample_link 1000 [Interrupts]))).
Lemma served_handle fd : fst served = Some fd -> 0 <= fd.
Proof. by intros [= <-]. Qed.
Lemma connection_releases_witness :
  holdings (ip_log (snd (vw_ipc_close (Some 4) (snd (vw_ipc_send 5 (Some 4) [1; 2] (snd served))))))
    = Some (mk_holding [] None false (Some 4)).
Proof.
  destruct (connection_releases true 5 (Some (str "/tmp/s")) (sample_link 1000 [Interrupts])
    (snd (vw_ipc_send 5 (fst served) [1; 2] (snd served)))
    (rtc_once _ _ (call_send _ _ 5 [1; 2])) served_handle) as (trusted & _ & Ht & Hc).
  rewrite Ht in Hc by done. exact Hc.
Defined.
