(* ===== verification/IpcSocketProperties.v ===== *)
(** * Frames cross the socket

    What [vw_ipc_send] of [IpcSocket] hands over is the data, cut into records of bounded
    size, and what the worker's reader gets from [vw_ipc_receive] at the other end is
    every frame that was sent: each record fits what the reader asks for. *)

From S2P Require Import Prelude.
From S2P Require Import ProtocolTypes.
From S2P Require Import Validate.
From S2P Require Import Codec.
From S2P Require Import State.
From S2P Require Import WorkerQueue.
From S2P Require Import WorkerReader.
From S2P Require Import IpcSocket.
From S2P Require Import IpcSocketHandles.
#[local] Open Scope Z_scope.

(** ** Records *)

(** [data] in pieces of [VW_IPC_MAX_RECORD_BYTES] and what is left. *)
Fixpoint cut (n : nat) (data : list Z) : list (list Z) :=
  if negb (0 <? zlen data) then []
  else match n with
  | O => []
  | S n =>
      let size := if zlen data <? VW_IPC_MAX_RECORD_BYTES then zlen data else VW_IPC_MAX_RECORD_BYTES in
      ztake size data :: cut n (zdrop size data)
  end.
Definition records_of (data : list Z) : list (list Z) := cut (length data) data.
Definition record_of (e : sock_event) : option (list Z) := match e with RecordSent record => Some record | _ => None end.
Definition sent_records (log : list sock_event) : list (list Z) := omap record_of log.

Lemma sent_records_snoc log e : sent_records (log ++ [e]) = sent_records log ++ option_list (record_of e).
Proof. unfold sent_records. rewrite omap_app. by destruct e. Qed.

(** The first record of some data. *)
Lemma first_record (data : list Z) :
  let size := if zlen data <? VW_IPC_MAX_RECORD_BYTES then zlen data else VW_IPC_MAX_RECORD_BYTES in
  0 < zlen data -> 0 < size <= zlen data /\ zlen (ztake size data) = size /\ zlen (zdrop size data) = zlen data - size
    /\ size <= VW_IPC_MAX_RECORD_BYTES.
Proof.
  cbv zeta. intros Hd. assert (0 < VW_IPC_MAX_RECORD_BYTES) by done.
  case_match; rewrite zlen_ztake, zlen_zdrop; lia.
Qed.
Lemma cut_none n data : zlen data <= 0 -> cut n data = [].
Proof. intros Hd. destruct n; cbn [cut]; by replace (0 <? zlen data) with false by lia. Qed.
Lemma cut_some n data : 0 < zlen data ->
  let size := if zlen data <? VW_IPC_MAX_RECORD_BYTES then zlen data else VW_IPC_MAX_RECORD_BYTES in
  cut (S n) data = ztake size data :: cut n (zdrop size data).
Proof. intros Hd. cbn [cut]. by replace (0 <? zlen data) with true by lia. Qed.
Lemma cut_spec n : forall data, (length data <= n)%nat ->
  concat (cut n data) = data /\ Forall (fun r => 0 < zlen r <= VW_IPC_MAX_RECORD_BYTES) (cut n data).
Proof.
  induction n as [|n IH]; intros data Hl.
  { destruct data; [by split; [|constructor]|simpl in Hl; lia]. }
  destruct (Z.ltb_spec 0 (zlen data)) as [Hd|Hd].
  - destruct (first_record data Hd) as (Hs & Ht & Hr & Hm). rewrite cut_some by done. cbv zeta.
    destruct (IH (zdrop (if zlen data <? VW_IPC_MAX_RECORD_BYTES then zlen data else VW_IPC_MAX_RECORD_BYTES) data)) as [Hc Hf];
      [zlia|]. split; [cbn [concat]; by rewrite Hc, ztake_zdrop|]. constructor; [lia|done].
  - rewrite cut_none by lia. pose proof (zlen_nonneg data). rewrite (zlen_zero data) by lia. by split; [|constructor].
Qed.

Lemma records_spec data : concat (records_of data) = data /\ Forall (fun record => record <> []) (records_of data).
Proof.
  destruct (cut_spec (length data) data ltac:(lia)) as [Hc Hf]. split; [done|]. eapply Forall_impl; [|exact Hf].
  intros [|b record] [Hr _]; [exfalso; revert Hr; by vm_compute|done].
Qed.

(** ** What is sent *)

Section send.
Context {X : Type} `{!SockEnv X}.
#[local] Abbreviation I := (M (ipc X)).

Definition sent (s : ipc X) : list (list Z) := sent_records (ip_log s).
(** A call that sends [records] or gives up after a part of them. *)
Definition hands_over (records : list (list Z)) (m : I bool) : Prop := forall s,
  (fst (m s) = true -> sent (snd (m s)) = sent s ++ records) /\
  (fst (m s) = false -> exists part, sent (snd (m s)) = sent s ++ part /\ concat part `prefix_of` concat records).

Lemma sys_sent {A} (f : X -> A * X) s : sent (snd (sys f s)) = sent s.
Proof. unfold sys. by destruct (f (ip_ext s)). Qed.
Lemma monotonic_sent s : sent (snd (vw_ipc_monotonic_us s)) = sent s.
Proof. unfold vw_ipc_monotonic_us. rewrite bind_run. cbn. apply sys_sent. Qed.
Lemma nothing_part (s s' : ipc X) records : sent s' = sent s ->
  exists part, sent s' = sent s ++ part /\ concat part `prefix_of` concat records.
Proof. intros Hs. exists []. rewrite app_nil_r. split; [done|]. apply prefix_nil. Qed.

Lemma send_turn_sent fd record deadline_us s :
  let r := send_turn (X := X) fd record deadline_us s in
  match fst r with
  | Some true => sent (snd r) = sent s ++ [record]
  | Some false => exists part, sent (snd r) = sent s ++ part /\ concat part `prefix_of` concat [record]
  | None => sent (snd r) = sent s
  end.
Proof.
  cbv zeta. unfold send_turn. rewrite bind_run. pose proof (monotonic_sent s) as E0. destruct (vw_ipc_monotonic_us s) as [now s0].
  cbn [fst snd] in *. case_goal; [by apply nothing_part|]. cbv zeta. rewrite bind_run.
  match goal with |- context [sys ?f s0] => pose proof (sys_sent f s0) as E1; destruct (sys f s0) as [[| |[]] s1] end.
  all: cbn [fst snd] in *; rewrite E0 in E1; try solve [done|by apply nothing_part].
  rewrite bind_run. match goal with |- context [sys ?f s1] => pose proof (sys_sent f s1) as E2; destruct (sys f s1) as [[n|[]] s2] end.
  all: cbn [fst snd] in *; rewrite E1 in E2; try solve [done|by apply nothing_part].
  assert (sent (snd (sock_note (RecordSent (ztake n record)) s2)) = sent s ++ [ztake n record]) as E3.
  { unfold sent in *. cbn. by rewrite sent_records_snoc, E2. }
  rewrite bind_run. cbn [fst snd mret M_ret]. destruct (Z.eqb_spec n (zlen record)) as [->|]; [by rewrite E3, ztake_all by lia|].
  eexists. split; [exact E3|]. cbn. rewrite !app_nil_r. apply prefix_take.
Qed.
Lemma send_record_hands fuel fd record deadline_us : hands_over [record] (send_record fuel fd record deadline_us).
Proof.
  induction fuel as [|fuel IH]; intros s; cbn [send_record]; [split; [done|intros _; by apply nothing_part]|].
  rewrite bind_run. pose proof (send_turn_sent fd record deadline_us s) as Hs. cbv zeta in Hs.
  destruct (send_turn fd record deadline_us s) as [[[]|] s']; cbn [fst snd] in *; [by split|by split|].
  destruct (IH s') as [Ht Hf]. rewrite Hs in Ht, Hf. by split.
Qed.
Lemma send_records_hands fuel fd deadline_us n : forall bytes,
  hands_over (cut n bytes) (send_records n fuel fd bytes deadline_us).
Proof.
  induction n as [|n IH]; intros bytes s; cbn [send_records cut]; (destruct (0 <? zlen bytes); cbn [negb];
    [|split; [by rewrite app_nil_r|done]]).
  - split; [done|intros _; by apply nothing_part].
  - rewrite bind_run. set (size := if _ <? _ then _ else _).
    destruct (send_record_hands fuel fd (ztake size bytes) deadline_us s) as [Ht Hf].
    destruct (send_record fuel fd (ztake size bytes) deadline_us s) as [[] s']; cbn [fst snd negb] in *.
    + destruct (IH (zdrop size bytes) s') as [Ht' Hf']. specialize (Ht eq_refl). rewrite Ht in Ht', Hf'.
      split; [intros H; rewrite (Ht' H), <- app_assoc; done|]. intros H. destruct (Hf' H) as (part & -> & Hp).
      exists (ztake size bytes :: part). rewrite <- app_assoc. split; [done|]. cbn. by apply prefix_app.
    + cbn [mret M_ret fst snd]. split; [done|]. intros _. destruct (Hf eq_refl) as (part & -> & Hp). exists part. split; [done|].
      cbn [concat] in *. rewrite app_nil_r in Hp. etrans; [exact Hp|]. by eexists.
Qed.
Lemma vw_ipc_send_hands fuel handle data : hands_over (records_of data) (vw_ipc_send fuel handle data).
Proof.
  intros s. unfold vw_ipc_send. destruct handle as [fd|]; [|split; [done|intros _; by apply nothing_part]].
  rewrite bind_run. pose proof (monotonic_sent s) as E0. destruct (vw_ipc_monotonic_us s) as [now s0]. cbn [fst snd] in *.
  case_goal; [split; [done|intros _; by apply nothing_part]|].
  destruct (send_records_hands fuel fd (now + 3000000) (length data) data s0) as [Ht Hf]. rewrite E0 in Ht, Hf. by split.
Qed.

(** The frames one after the other, until one cannot be sent. *)
Fixpoint send_frames (fuel : nat) (handle : option Z) (fs : list (vw_frame_header_t * list Z)) : I bool :=
  match fs with
  | [] => mret true
  | f :: fs => ok ← send_frame fuel handle (header_bytes (fst f)) (snd f); if ok : bool then send_frames fuel handle fs else mret false
  end.
Definition frame_records (f : vw_frame_header_t * list Z) : list (list Z) :=
  records_of (header_bytes (fst f)) ++ records_of (snd f).
Lemma send_frames_sent fuel handle fs : forall s,
  fst (send_frames fuel handle fs s) = true -> sent (snd (send_frames fuel handle fs s)) = sent s ++ concat (map frame_records fs).
Proof.
  induction fs as [|f fs IH]; intros s; cbn [send_frames map concat]; [intros _; by rewrite app_nil_r|].
  unfold send_frame. rewrite !bind_run.
  destruct (vw_ipc_send_hands fuel handle (header_bytes (fst f)) s) as [Hh _].
  destruct (vw_ipc_send fuel handle (header_bytes (fst f)) s) as [[] s1]; cbn [fst snd] in *; [|done]. specialize (Hh eq_refl).
  destruct (vw_ipc_send_hands fuel handle (snd f) s1) as [Hp _].
  destruct (vw_ipc_send fuel handle (snd f) s1) as [[] s2]; cbn [fst snd] in *; [|done]. specialize (Hp eq_refl).
  intros H. rewrite (IH s2 H), Hp, Hh. unfold frame_records. by rewrite <- !app_assoc.
Qed.
End send.

(** ** What is received *)

(** [calls] calls of [vw_ipc_receive] by the reader's thread, while the worker is up. *)
Fixpoint socket_reader {X} `{!SockEnv X} (calls fuel : nat) (handle : option Z) (r : reader)
    : M (ipc X) (list vw_worker_frame_t * option reader) :=
  match calls with
  | O => mret ([], Some r)
  | S calls =>
      res ← vw_ipc_receive fuel handle (reader_wants r);
      match reader_receive true r res with
      | Reads pushed r => rest ← socket_reader calls fuel handle r; mret (reader_push pushed rest)
      | Stops pushed => mret (option_list pushed, Some r)
      | Fails => mret ([], None)
      end
  end.

(** *** Every record fits *)

Lemma header_is_bytes h : is_bytes (header_bytes h).
Proof. unfold header_bytes. rewrite !is_bytes_app. split_and!; apply le_enc_bytes. Qed.
Lemma header_records h : records_of (header_bytes h) = [header_bytes h].
Proof.
  unfold records_of. pose proof (header_bytes_length h) as Hl. destruct (length (header_bytes h)) as [|n] eqn:E;
    [unfold zlen in Hl; rewrite E in Hl; done|].
  rewrite cut_some by (rewrite Hl; done). cbv zeta. rewrite Hl. cbn -[ztake zdrop header_bytes].
  rewrite ztake_all by (rewrite Hl; done). f_equal. apply cut_none. rewrite zlen_zdrop by (rewrite Hl; done). by rewrite Hl.
Qed.

(** The records of a payload, or of a stale one, from where the reader is in it. *)
Definition awaits (r : reader) (n : Z) : Prop :=
  match rd_phase r with
  | ReadHeader _ => False
  | Discard h drained => hdr_payload_length h - drained = n
  | ReadPayload h buf => hdr_payload_length h - zlen buf = n
  end.
Lemma payload_fits n rest : forall r data,
  (length data <= n)%nat -> 0 < zlen data -> is_bytes data -> awaits r (zlen data) ->
  answers_ok (mk_reader (ReadHeader []) (rd_last r)) rest -> answers_ok r (map Received (cut n data) ++ rest).
Proof.
  induction n as [|n IH]; intros r data Hl Hd Hb Hr Hrest; [zlia|].
  destruct (first_record data Hd) as (Hs & Ht & Hz & _). rewrite cut_some by done. cbv zeta.
  set (size := if _ <? _ then _ else _) in *. cbn [map app answers_ok reader_receive].
  assert (reader_wants r = zlen data) as Hw by (unfold awaits, reader_wants in *; destruct (rd_phase r); [done|lia..]).
  split; [split; [by apply is_bytes_take|lia]|].
  assert (size < zlen data \/ size = zlen data) as [Hlt|Heq] by lia.
  - destruct r as [[buf|h drained|h buf] last]; cbn in Hr, Hrest |- *; [done|..]; rewrite ?zlen_app, Ht.
    + replace (drained + size <? hdr_payload_length h) with true by lia.
      apply IH; [zlia|lia|by apply is_bytes_drop|cbn; lia|done].
    + replace (zlen buf + size <? hdr_payload_length h) with true by lia.
      apply IH; [zlia|lia|by apply is_bytes_drop|cbn; rewrite zlen_app; lia|done].
  - rewrite (cut_none n) by lia.
    destruct r as [[buf|h drained|h buf] last]; cbn in Hr, Hrest |- *; [done|..]; rewrite ?zlen_app, Ht.
    + by replace (drained + size <? hdr_payload_length h) with false by lia.
    + by replace (zlen buf + size <? hdr_payload_length h) with false by lia.
Qed.

Definition sendable (f : vw_frame_header_t * list Z) : Prop := wire_frame_ok f /\ is_bytes (snd f).
Lemma frames_fit fs : forall last, Forall sendable fs ->
  answers_ok (mk_reader (ReadHeader []) last) (map Received (concat (map frame_records fs))).
Proof.
  induction fs as [|[h p] fs IH]; intros last Hf; [done|].
  apply Forall_cons_iff in Hf as [[(Hwf & Hv & Hl) Hb] Hf]. cbn [fst snd] in *. cbn [map concat]. unfold frame_records.
  cbn [fst snd]. rewrite header_records, <- app_assoc. cbn [app map answers_ok reader_receive].
  pose proof (header_bytes_length h) as Hh.
  split; [split; [apply header_is_bytes|by cbn; rewrite zlen_nil, Hh]|].
  unfold reader_bytes. cbn [rd_phase rd_last]. rewrite app_nil_l, Hh. cbn -[header_bytes records_of concat map].
  unfold reader_header, vw_protocol_decode_header.
  pose proof (decode_header_bytes h [] Hwf) as Hd. rewrite app_nil_r in Hd. rewrite Hd, Hv, Hv. cbn [negb].
  rewrite Hl, map_app. pose proof (zlen_nonneg p). destruct (Z.ltb_spec 0 (zlen p)) as [Hp|Hp].
  - destruct (stale last _); (apply payload_fits; [done|done|done|cbn; rewrite ?zlen_nil; lia|by apply IH]).
  - unfold records_of. rewrite cut_none by lia. destruct (stale last _); by apply IH.
Qed.

(** *** Over a connection *)

Definition under_way (s : ipc link) : list (list Z) := lk_records (ip_ext s).
Definition moods (s : ipc link) : nat := length (lk_moods (ip_ext s)).

(** One call: nothing came in time, or the next record came. *)
Inductive receives (n : Z) (s : ipc link) : recv -> ipc link -> Prop :=
  | receives_nothing s' : under_way s' = under_way s -> (moods s' < moods s)%nat \/ (under_way s = [] /\ moods s' = 0 /\ moods s = 0)%nat ->
      receives n s RecvTimeout s'
  | receives_record record s' : under_way s = record :: under_way s' -> (moods s' <= moods s)%nat ->
      receives n s (recv_result (if n <? zlen record then inr OtherError else inl (ztake n (ztake n record)))) s'.
Lemma receives_earlier n s0 s res s' : under_way s = under_way s0 -> (moods s < moods s0)%nat ->
  receives n s res s' -> receives n s0 res s'.
Proof.
  intros Hu Hm []; [apply receives_nothing; [congruence|left; lia]|apply receives_record; [congruence|lia]].
Qed.
Lemma link_receives fd n fuel : forall s, (moods s < fuel)%nat ->
  receives n s (fst (vw_ipc_receive fuel (Some fd) n s)) (snd (vw_ipc_receive fuel (Some fd) n s)).
Proof.
  unfold vw_ipc_receive. induction fuel as [|fuel IH]; intros s Hf; [lia|].
  destruct s as [log b [now next peer ms records]]. unfold moods in *. cbn [ip_ext lk_moods] in *.
  destruct ms as [|[] ms].
  - destruct records as [|record records]; [apply receives_nothing; [done|by right]|].
    by apply (receives_record n _ record (mk_ipc log b (mk_link now next peer [] records))).
  - cbn [length] in Hf. specialize (IH (mk_ipc log b (mk_link now next peer ms records)) ltac:(cbn; lia)).
    refine (receives_earlier n (mk_ipc log b (mk_link now next peer (Interrupts :: ms) records))
      (mk_ipc log b (mk_link now next peer ms records)) _ _ eq_refl _ IH).
    unfold moods. cbn. lia.
  - apply (receives_nothing n _ (mk_ipc log b (mk_link now next peer ms records))); [done|left; unfold moods; cbn; lia].
  - destruct records as [|record records].
    { apply (receives_nothing n _ (mk_ipc log b (mk_link now next peer ms []))); [done|left; unfold moods; cbn; lia]. }
    apply (receives_record n _ record (mk_ipc log b (mk_link now next peer ms records))); [done|unfold moods; cbn; lia].
Qed.

(** The reader gets what is under way, in order, if it calls often enough. *)
Lemma socket_reader_spec fd fuel calls : forall r s,
  answers_ok r (map Received (under_way s)) -> Forall (fun record => record <> []) (under_way s) -> (moods s < fuel)%nat ->
  exists answers, fst (socket_reader calls fuel (Some fd) r s) = reader_run r answers /\ answers_ok r answers
    /\ ((moods s + length (under_way s) <= calls)%nat -> concat (map received answers) = concat (under_way s)).
Proof.
  induction calls as [|calls IH]; intros r s Ha Hn Hf.
  { exists []. split_and!; [done..|]. intros Hc. by destruct (under_way s); [|cbn in Hc; lia]. }
  cbn [socket_reader]. rewrite bind_run. pose proof (link_receives fd (reader_wants r) fuel s Hf) as Hr.
  destruct (vw_ipc_receive fuel (Some fd) (reader_wants r) s) as [res s1]. cbn [fst snd] in *. destruct Hr as [s1 Hu Hm|record s1 Hu Hm].
  - cbn [reader_receive]. rewrite <- Hu in Ha, Hn. destruct (IH r s1 Ha Hn ltac:(lia)) as (answers & He & Hok & Hall).
    exists (RecvTimeout :: answers). rewrite bind_run. cbn [fst snd mret M_ret reader_run reader_receive map concat received answers_ok].
    split_and!; [by rewrite He|done|done|]. intros Hc. rewrite app_nil_l, <- Hu. apply Hall. rewrite Hu.
    destruct Hm as [Hm|(Hm & ? & ?)]; [lia|]. rewrite Hm. cbn. lia.
  - rewrite Hu in Ha, Hn. cbn [map answers_ok] in Ha. destruct Ha as [[Hb Hfit] Hrest]. apply Forall_cons_iff in Hn as [Hne Hn].
    replace (reader_wants r <? zlen record) with false by lia. rewrite (ztake_all _ record Hfit), (ztake_all _ record Hfit).
    destruct record as [|b record]; [done|]. cbn [recv_result]. rewrite Hu. cbn [length concat].
    destruct (reader_receive true r (Received (b :: record))) as [pushed r1|pushed|] eqn:E.
    + destruct (IH r1 s1 Hrest Hn ltac:(lia)) as (answers & He & Hok & Hall).
      exists (Received (b :: record) :: answers). rewrite bind_run. cbn [fst snd mret M_ret reader_run].
      cbn [answers_ok]. rewrite E. split_and!; [by rewrite He|done|done|]. intros Hc. cbn [map concat received].
      f_equal. apply Hall. lia.
    + exists (Received (b :: record) :: map Received (under_way s1)). cbn [reader_run answers_ok]. rewrite E.
      split_and!; [done|done|done|]. intros _. cbn. do 2 f_equal. by rewrite map_map, map_id.
    + exists (Received (b :: record) :: map Received (under_way s1)). cbn [reader_run answers_ok]. rewrite E.
      split_and!; [done|done|done|]. intros _. cbn. do 2 f_equal. by rewrite map_map, map_id.
Qed.

(** C22: Frames cross the socket: when a side has sent valid frames, each as a header and a
    payload, whatever the system answered on the way, the worker's reader at the other end
    pushes them all (those whose number exceeds all before), however its calls are
    interrupted or time out, once it has called often enough for the records and what
    delays them. *)
Theorem frames_cross_socket {X} `{!SockEnv X} (fs : list (vw_frame_header_t * list Z)) (handle : option Z)
    (x : X) (send_fuel : nat) (now next peer fd : Z) (delays : list mood) (calls fuel : nat) :
  let sender := send_frames send_fuel handle fs (new_ipc x) in
  let receiver := new_ipc (mk_link now next peer delays (sent (snd sender))) in
  Forall sendable fs -> fst sender = true ->
  (length delays < fuel)%nat -> (length delays + length (sent (snd sender)) <= calls)%nat ->
  exists r, fst (socket_reader calls fuel (Some fd) reader_start receiver) = (map queued (fresh None fs), Some r).
Proof.
  cbv zeta. intros Hf Hok Hfuel Hcalls. pose proof (send_frames_sent send_fuel handle fs (new_ipc x) Hok) as Hs.
  change (sent (new_ipc x)) with (@nil (list Z)) in Hs. rewrite app_nil_l in Hs. rewrite Hs in *.
  set (records := concat (map frame_records fs)) in *.
  destruct (socket_reader_spec fd fuel calls reader_start (new_ipc (mk_link now next peer delays records)))
    as (answers & He & Hans & Hall); [by apply frames_fit| |done|].
  { apply Forall_concat, Forall_map, Forall_true. intros f. apply Forall_app. split; apply records_spec. }
  rewrite He. apply reader_run_wire; [|done|].
  - eapply Forall_impl; [|exact Hf]. by intros f [].
  - rewrite Hall by done. change (under_way _) with records. unfold records, wire_bytes.
    clear. induction fs as [|f fs IH]; [done|]. cbn [map concat]. unfold frame_records at 1. rewrite !concat_app, IH.
    by rewrite !(proj1 (records_spec _)).
Qed.

(** Two frames, with the second stale, over a connection that is interrupted and idle. *)
#[local] Abbreviation two_sent := (send_frames 3 (Some 4) two_frames (new_ipc (sample_link 1000 [Interrupts]))).
Lemma frames_cross_socket_witness :
  exists r, fst (socket_reader 6 4 (Some 7) reader_start
      (new_ipc (mk_link 0 8 1000 [Idles; Interrupts] (sent (snd two_sent)))))
    = (map queued (fresh None two_frames), Some r).
Proof.
  refine (frames_cross_socket two_frames (Some 4) (sample_link 1000 [Interrupts]) 3 0 8 1000 7 [Idles; Interrupts] 6 4 _ _ _ _).
  - pose proof two_frames_ok as Hok. repeat apply Forall_cons in Hok as [? Hok]. repeat constructor; try done; vm_decide.
  - vm_compute. reflexivity.
  - apply Nat.ltb_lt. reflexivity.
  - apply Nat.leb_le. vm_compute. reflexivity.
Defined.
