(* ===== verification/IpcSocketProgress.v ===== *)
(** * The socket's calls return

    Listening gives up after ten seconds and sending after three even if every wait is
    interrupted; a receive goes on only as often as it is interrupted. *)

From stdpp Require Import relations.
From S2P Require Import Prelude.
From S2P Require Import CString.
From S2P Require Import State.
From S2P Require Import WorkerReader.
From S2P Require Import IpcSocket.
From S2P Require Import IpcSocketHandles.
#[local] Open Scope Z_scope.

Definition clock_us (now : Z * Z) : Z := fst now * 1000000 + Z.quot (snd now) 1000.

Section progress.
Context {X : Type} `{!SockEnv X}.
#[local] Abbreviation I := (M (ipc X)).
Context (last : X -> Z) (signals : X -> nat) (tick : Z).

Definition idles (x x' : X) : Prop := last x' = last x /\ (signals x' <= signals x)%nat.

(** The clock moves: [last] is its last reading in microseconds, and the next one is at
    least [tick] later. [signals] bounds the calls of [recvmsg] and the polls before them
    that are interrupted. *)
Class Paced := {
  pc_tick : 0 < tick;
  pc_clock x : match fst (clock_gettime x) with
    | Some now => 0 <= snd now < 1000000000 /\ last x + tick <= clock_us now /\ last (snd (clock_gettime x)) = clock_us now
    | None => last (snd (clock_gettime x)) = last x
    end /\ (signals (snd (clock_gettime x)) <= signals x)%nat;
  pc_recvmsg x fd n : idles x (snd (recvmsg x fd n))
    /\ (fst (recvmsg x fd n) = RecvError EINTR -> (signals (snd (recvmsg x fd n)) < signals x)%nat);
  pc_poll x fd out ms : idles x (snd (poll x fd out ms))
    /\ (out = false -> fst (poll x fd out ms) = SockPollError EINTR -> (signals (snd (poll x fd out ms)) < signals x)%nat);
  pc_send x fd l : idles x (snd (send x fd l));
  pc_socket x : idles x (snd (socket x));
  pc_bind x fd p : idles x (snd (bind x fd p));
  pc_chmod x p : idles x (snd (chmod x p));
  pc_listen x fd : idles x (snd (listen x fd));
  pc_accept x fd : idles x (snd (accept x fd));
  pc_peer_uid x fd : idles x (snd (peer_uid x fd));
  pc_geteuid x : idles x (snd (geteuid x));
  pc_connect x fd p : idles x (snd (connect x fd p));
  pc_calloc x : idles x (snd (calloc x));
  pc_set_timeouts x fd : idles x (set_timeouts x fd);
  pc_unlink x p : idles x (unlink x p);
  pc_close x fd : idles x (close x fd)
}.
Context `{!Paced}.

(** No loop has run out of fuel, at a time not before [since]. *)
Definition timely (since : Z) (s : ipc X) : Prop := since <= last (ip_ext s) /\ ip_stuck s = false.
Definition goes (s s' : ipc X) : Prop :=
  last (ip_ext s) <= last (ip_ext s') /\ (signals (ip_ext s') <= signals (ip_ext s))%nat /\ ip_stuck s' = ip_stuck s.
#[local] Instance goes_preorder : PreOrder goes.
Proof. split; [by split|]. intros s1 s2 s3 (A & B & C) (D & E & F). split_and!; [lia|lia|congruence]. Qed.

Lemma goes_sys {A} (f : X -> A * X) : (forall x, idles x (snd (f x))) -> keeps goes (sys f).
Proof. intros Hf s. pose proof (Hf (ip_ext s)) as [Hl Hs]. revert Hl Hs. unfold sys, goes. destruct (f (ip_ext s)). cbn. intros. split_and!; [lia|done|done]. Qed.
Lemma goes_sys_ (f : X -> X) : (forall x, idles x (f x)) -> keeps goes (sys_ f).
Proof. intros Hf s. destruct (Hf (ip_ext s)) as [Hl Hs]. cbn. split_and!; cbn; [lia|lia|done]. Qed.
Lemma goes_clock : keeps goes (sys clock_gettime).
Proof.
  intros s. pose proof (pc_clock (ip_ext s)) as [Hc Hs]. pose proof pc_tick. revert Hc Hs. unfold sys.
  destruct (clock_gettime (ip_ext s)) as [[now|] x]; unfold goes; cbn; intros Hc Hs; split_and!; try done; lia.
Qed.
Lemma goes_note e : keeps goes (sock_note (X := X) e).
Proof. by intros s. Qed.
Lemma pc_poll_idles x fd out ms : idles x (snd (poll x fd out ms)).
Proof. apply pc_poll. Qed.
Lemma pc_recvmsg_idles x fd n : idles x (snd (recvmsg x fd n)).
Proof. apply pc_recvmsg. Qed.
Create HintDb paced.
#[local] Hint Resolve pc_poll_idles pc_recvmsg_idles pc_send pc_socket pc_bind pc_chmod pc_listen pc_accept pc_peer_uid pc_geteuid
  pc_connect pc_calloc pc_set_timeouts pc_unlink pc_close : paced.
#[local] Hint Resolve goes_clock goes_note : keeps.
#[local] Hint Extern 2 (keeps goes (sys _)) => (apply goes_sys; auto with paced) : keeps.
#[local] Hint Extern 2 (keeps goes (sys_ _)) => (apply goes_sys_; auto with paced) : keeps.

Lemma goes_close_sock fd : keeps goes (close_sock (X := X) fd).
Proof. unfold close_sock. keeps_steps. Qed.
Lemma goes_remove path : keeps goes (remove_endpoint (X := X) path).
Proof. unfold remove_endpoint. keeps_steps. Qed.
#[local] Hint Resolve goes_close_sock goes_remove : keeps.
Lemma goes_establishes call e : (forall x, idles x (snd (call x))) -> keeps goes (establishes (X := X) call e).
Proof. intros Hc. unfold establishes. keeps_steps. Qed.
Lemma goes_make_handle fd : keeps goes (make_handle (X := X) fd).
Proof. unfold make_handle. keeps_steps. Qed.
#[local] Hint Resolve goes_make_handle : keeps.
Lemma goes_accept path fd : keeps goes (accept_peer (X := X) path fd).
Proof. unfold accept_peer, same_user. keeps_steps. Qed.
Lemma goes_withdraw path fd : keeps goes (withdraw (X := X) path fd).
Proof. unfold withdraw. keeps_steps. Qed.
Lemma goes_monotonic : keeps goes (vw_ipc_monotonic_us (X := X)).
Proof. unfold vw_ipc_monotonic_us. keeps_steps. Qed.
#[local] Hint Resolve goes_accept goes_withdraw goes_monotonic : keeps.
#[local] Hint Extern 2 (keeps goes (establishes _ _)) => (apply goes_establishes; auto with paced) : keeps.

(** ** Loops that watch the clock *)

(** Fuel for what may happen until [deadline]. *)
Definition enough (deadline : Z) (fuel : nat) (s : ipc X) : Prop := deadline - last (ip_ext s) < Z.of_nat fuel * tick.
Lemma enough_goes deadline fuel s s' : goes s s' -> enough deadline fuel s -> enough deadline fuel s'.
Proof. unfold enough. intros [Hl _] He. lia. Qed.
Lemma enough_step deadline fuel s s' : last (ip_ext s) + tick <= last (ip_ext s') ->
  enough deadline (S fuel) s -> enough deadline fuel s'.
Proof. unfold enough. intros Hl He. lia. Qed.
Lemma enough_none deadline s : enough deadline O s -> deadline < last (ip_ext s).
Proof. unfold enough. lia. Qed.

Definition fine (s : ipc X) : Prop := ip_stuck s = false.
Lemma goes_fine s s' : goes s s' -> fine s -> fine s'.
Proof. intros (_ & _ & Hk) Hs. unfold fine in *. congruence. Qed.
Lemma triple_fine {A} (m : I A) : keeps goes m -> triple fine m (fun _ => fine).
Proof. intros Hm s. by apply goes_fine. Qed.

(** A reading of the clock. *)
Lemma clock_reads s :
  match fst (sys clock_gettime s) with
  | Some now => 0 <= snd now < 1000000000 /\ last (ip_ext s) + tick <= clock_us now
     /\ last (ip_ext (snd (sys clock_gettime s))) = clock_us now
  | None => True
  end.
Proof.
  pose proof (pc_clock (ip_ext s)) as [Hc _]. revert Hc. unfold sys. by destruct (clock_gettime (ip_ext s)) as [[now|] x].
Qed.

(** *** Listening *)

(** Ten seconds, and what the rounding to milliseconds adds. *)
Definition listen_us : Z := 10001001.
Lemma elapsed_bounds started now : 0 <= snd started < 1000000000 -> 0 <= snd now < 1000000000 ->
  elapsed_ms started now < 10000 -> clock_us now <= clock_us started + listen_us.
Proof.
  unfold elapsed_ms, clock_us, listen_us. destruct started as [s0 n0], now as [s1 n1]. cbn [fst snd]. intros H0 H1 He.
  Z.to_euclidean_division_equations; lia.
Qed.
Lemma wait_peer_fine fd started fuel : 0 <= snd started < 1000000000 -> forall wait_ms s, fine s ->
  last (ip_ext s) <= clock_us started + listen_us -> enough (clock_us started + listen_us) fuel s ->
  fine (snd (wait_peer fuel fd started wait_ms s)).
Proof.
  intros H0. induction fuel as [|fuel IH]; intros wait_ms s Hs Hl He; [apply enough_none in He; lia|].
  cbn [wait_peer]. rewrite bind_run. set (call := sys _). assert (goes s (snd (call s))) as Hg by
    (refine ((_ : keeps goes call) s); unfold call; auto with keeps).
  assert (last (ip_ext (snd (call s))) = last (ip_ext s)) as Hq.
  { unfold call, sys. pose proof (pc_poll_idles (ip_ext s) fd false wait_ms) as [Hp _]. revert Hp. by destruct (poll _ _ _ _). }
  pose proof (goes_fine _ _ Hg Hs) as Hs1. pose proof (enough_goes _ _ _ _ Hg He) as He1.
  destruct (fst (call s)) as [| |[]]; try done. rewrite bind_run. set (s1 := snd (call s)) in *.
  pose proof (clock_reads s1) as Hr. pose proof (goes_clock s1) as Hg2. pose proof (goes_fine _ _ Hg2 Hs1) as Hs2.
  destruct (fst (sys clock_gettime s1)) as [now|]; [|done]. destruct Hr as (Hn & Hnow & Hlast). cbv zeta.
  case_goal; [done|]. apply IH; [done| |].
  - rewrite Hlast. apply elapsed_bounds; [done|done|lia].
  - apply (enough_step _ _ s1); [by rewrite Hlast|done].
Qed.
Lemma listen_fine fuel name s : fine s -> listen_us < Z.of_nat fuel * tick -> fine (snd (vw_ipc_listen fuel name s)).
Proof.
  intros Hs Hf. revert s Hs. refine (_ : triple fine _ (fun _ => fine)). unfold vw_ipc_listen, open_socket.
  destruct (endpoint_of name) as [path|]; [|by intros s].
  eapply triple_bind; [apply triple_fine; auto with keeps|cbv beta]. intros [fd|]; [|by intros s].
  eapply triple_bind; [apply triple_fine; auto with keeps|intros ?].
  eapply triple_bind; [apply triple_fine; auto with keeps|cbv beta]. intros []; cbn [negb]; [|apply triple_fine; keeps_steps].
  eapply triple_bind; [apply triple_fine; auto with keeps|cbv beta]. intros []; cbn [negb]; [|apply triple_fine; keeps_steps].
  eapply triple_bind; [apply triple_fine; auto with keeps|cbv beta]. intros []; cbn [negb]; [|apply triple_fine; keeps_steps].
  intros s Hs. rewrite bind_run. pose proof (clock_reads s) as Hr. pose proof (goes_fine _ _ (goes_clock s) Hs) as Hs1.
  set (s1 := snd (sys clock_gettime s)) in *. destruct (fst (sys clock_gettime s)) as [started|].
  - destruct Hr as (Hn & _ & Hlast). rewrite bind_run. assert (0 < listen_us) by done.
    pose proof (wait_peer_fine fd started fuel Hn 10000 s1 Hs1 ltac:(lia) ltac:(unfold enough; lia)) as Hs2.
    destruct (fst (wait_peer _ _ _ _ s1)); cbn [negb]; (eapply goes_fine; [|exact Hs2]);
      first [apply goes_accept|apply goes_withdraw].
  - by eapply goes_fine; [apply goes_withdraw|].
Qed.

(** *** Sending *)

Lemma send_turn_time fd record deadline_us s :
  fst (send_turn fd record deadline_us s) <> Some false ->
  last (ip_ext s) + tick <= last (ip_ext (snd (send_turn fd record deadline_us s))) < deadline_us.
Proof.
  unfold send_turn, vw_ipc_monotonic_us. rewrite !bind_run. cbn [fst snd mret M_ret]. pose proof (clock_reads s) as Hr.
  set (s1 := snd (sys clock_gettime s)) in *. destruct (fst (sys clock_gettime s)) as [[sec nsec]|]; [|done].
  destruct Hr as (_ & Hnow & Hlast). fold (clock_us (sec, nsec)).
  change (sec * 1000000 + Z.quot nsec 1000) with (clock_us (sec, nsec)). destruct (_ || _) eqn:E; [done|]. cbv zeta.
  rewrite bind_run. set (call := sys _). assert (last (ip_ext (snd (call s1))) = last (ip_ext s1)) as Hq.
  { unfold call, sys. pose proof (pc_poll_idles (ip_ext s1) fd true (Z.quot (deadline_us - clock_us (sec, nsec) + 999) 1000)) as [Hp _].
    revert Hp. by destruct (poll _ _ _ _). }
  destruct (fst (call s1)) as [| |[]]; cbn [fst snd mret M_ret]; try done; [|intros _; lia].
  rewrite bind_run. set (s2 := snd (call s1)) in *. set (call2 := sys _).
  assert (last (ip_ext (snd (call2 s2))) = last (ip_ext s2)) as Hq2.
  { unfold call2, sys. pose proof (pc_send (ip_ext s2) fd record) as [Hp _]. revert Hp. by destruct (send _ _ _). }
  destruct (fst (call2 s2)) as [n|[]]; cbn [fst snd mret M_ret]; [rewrite bind_run; cbn; intros _; lia|intros _; lia..|done].
Qed.
Lemma goes_send_turn fd record deadline_us : keeps goes (send_turn (X := X) fd record deadline_us).
Proof. unfold send_turn. keeps_steps. Qed.
(** In time, with fuel for the rest. *)
Definition sending (deadline : Z) (fuel : nat) (s : ipc X) : Prop :=
  fine s /\ last (ip_ext s) <= deadline /\ enough deadline fuel s.
Lemma send_record_fine fd record deadline_us fuel : forall s, sending deadline_us fuel s ->
  let r := send_record fuel fd record deadline_us s in
  fine (snd r) /\ goes s (snd r) /\ (fst r = true -> last (ip_ext (snd r)) <= deadline_us).
Proof.
  induction fuel as [|fuel IH]; intros s (Hs & Hl & He); [apply enough_none in He; lia|]. cbv zeta. cbn [send_record].
  rewrite bind_run. pose proof (goes_send_turn fd record deadline_us s) as Hg. pose proof (send_turn_time fd record deadline_us s) as Hn.
  destruct (send_turn fd record deadline_us s) as [[ok|] s1]; cbn [fst snd mret M_ret] in *.
  - split_and!; [by eapply goes_fine|done|]. intros ->. destruct (Hn ltac:(done)). lia.
  - destruct (Hn ltac:(done)) as [Ht Hd]. destruct (IH s1) as (Hf & Hg2 & Hb); [|split_and!; [done|by etrans|done]].
    split; [by eapply goes_fine|]. split; [lia|]. by eapply enough_step.
Qed.
Lemma send_records_fine fd deadline_us fuel n : forall bytes s, (length bytes <= n)%nat -> sending deadline_us fuel s ->
  fine (snd (send_records n fuel fd bytes deadline_us s)).
Proof.
  induction n as [|n IH]; intros bytes s Hn Hs; cbn [send_records]; (destruct (Z.ltb_spec 0 (zlen bytes)) as [Hb|]; cbn [negb]; [|apply Hs]);
    [zlia|].
  rewrite bind_run. set (size := if _ <? _ then _ else _). assert (1 <= size <= zlen bytes) as Hz.
  { unfold size, VW_IPC_MAX_RECORD_BYTES. case_match; lia. }
  destruct (send_record_fine fd (ztake size bytes) deadline_us fuel s Hs) as (Hf & Hg & Hl).
  destruct (send_record fuel fd (ztake size bytes) deadline_us s) as [[] s1]; cbn [fst snd negb] in *; [|done].
  apply IH; [zlia|]. split; [done|]. split; [by apply Hl|]. by eapply enough_goes; [|apply Hs].
Qed.
Lemma send_fine fuel handle data s : fine s -> 3000000 < Z.of_nat fuel * tick -> fine (snd (vw_ipc_send fuel handle data s)).
Proof.
  intros Hs Hf. unfold vw_ipc_send, vw_ipc_monotonic_us. destruct handle as [fd|]; [|done]. rewrite !bind_run. cbn [fst snd mret M_ret].
  pose proof (clock_reads s) as Hr. pose proof (goes_fine _ _ (goes_clock s) Hs) as Hs1.
  set (s1 := snd (sys clock_gettime s)) in *. destruct (fst (sys clock_gettime s)) as [[sec nsec]|]; [|done].
  destruct Hr as (_ & _ & Hlast). change (sec * 1000000 + Z.quot nsec 1000) with (clock_us (sec, nsec)).
  case_goal; [done|]. apply send_records_fine; [done|]. split; [done|]. unfold enough. lia.
Qed.

(** *** Receiving *)

Lemma recv_record_fine fd n fuel : forall s, fine s -> (signals (ip_ext s) < fuel)%nat ->
  fine (snd (vw_ipc_recv_record fuel fd n s)).
Proof.
  induction fuel as [|fuel IH]; intros s Hs Hf; [lia|]. cbn [vw_ipc_recv_record]. rewrite bind_run.
  pose proof (pc_recvmsg (ip_ext s) fd n) as [_ Hr]. revert Hr. unfold sys.
  destruct (recvmsg (ip_ext s) fd n) as [[data truncated|[]] x]; cbn [fst snd]; intros Hr; try done.
  apply IH; [done|]. cbn. specialize (Hr eq_refl). lia.
Qed.
Lemma receive_fine fuel handle n s : fine s -> (signals (ip_ext s) < fuel)%nat -> fine (snd (vw_ipc_receive fuel handle n s)).
Proof. intros Hs Hf. unfold vw_ipc_receive. destruct handle as [fd|]; [|done]. rewrite bind_run. by apply recv_record_fine. Qed.
Lemma goes_poll_in fd ms fuel : (forall s, fine s -> (signals (ip_ext s) < fuel)%nat ->
  fine (snd (poll_in fuel fd ms s)) /\ (signals (ip_ext (snd (poll_in (X := X) fuel fd ms s))) <= signals (ip_ext s))%nat).
Proof.
  induction fuel as [|fuel IH]; intros s Hs Hf; [lia|]. cbn [poll_in]. rewrite bind_run.
  pose proof (pc_poll (ip_ext s) fd false ms) as [[_ Hq] Hr]. revert Hq Hr. unfold sys.
  destruct (poll (ip_ext s) fd false ms) as [[| |[]] x]; cbn [fst snd]; intros Hq Hr; try done.
  specialize (Hr eq_refl eq_refl). destruct (IH (mk_ipc (ip_log s) (ip_stuck s) x) Hs ltac:(cbn; lia)) as [Hf2 Hq2].
  cbn [ip_ext] in Hq2. split; [exact Hf2|]. etrans; [exact Hq2|lia].
Qed.
Lemma receive_timeout_fine fuel handle n us s : fine s -> (signals (ip_ext s) < fuel)%nat ->
  fine (snd (vw_ipc_receive_timeout fuel handle n us s)).
Proof.
  intros Hs Hf. unfold vw_ipc_receive_timeout. destruct handle as [fd|]; [|done]. rewrite bind_run.
  destruct (goes_poll_in fd (i32 (u64 (us + 999) / 1000)) fuel s Hs Hf) as [Hs1 Hq].
  destruct (fst (poll_in _ _ _ s)); [done| |done]. rewrite bind_run. apply recv_record_fine; [done|lia].
Qed.
End progress.


(** The scripted connection's clock moves by a millisecond, and its moods run out. *)
#[global] Instance link_paced : Paced (fun l : link => lk_now l * 1000 - 1000) (fun l => length (lk_moods l)) 1000.
Proof.
  split; try (by intros; split; cbn; lia).
  - intros [now next peer ms records]. cbn. split; [|lia]. split; [pose proof (Z.mod_pos_bound now 1000); lia|].
    assert (clock_us (now / 1000, now mod 1000 * 1000000) = now * 1000) as ->; [|lia].
    unfold clock_us. cbn [fst snd]. Z.to_euclidean_division_equations; lia.
  - intros [now next peer [|[] ms] [|record records]] fd n; cbn; (split; [split; cbn; lia|try done; lia]).
  - intros [now next peer [|[] ms] records] fd out n; cbn; (split; [split; cbn; lia|try done; lia]).
Qed.
