(* ===== verification/LogPolicy.v ===== *)
(** * The worker's log file

    [src/worker/src/vw_worker_log_policy.c]: where the log of a worker goes, the removal of
    old default logs, opening and closing it, and [src/worker/src/main.c], which calls
    them around [vw_worker_run]. *)

From stdpp Require Import relations sorting.
From S2P Require Import Prelude.
From S2P Require Import CString.
From S2P Require Import State.
From S2P Require Import WorkerConfig.
From S2P Require Import Log.
#[local] Open Scope Z_scope.

(** ** What it calls *)

Class LogEnv (X : Type) := {
  getenv : X -> list Z -> option (list Z);
  getpid : X -> Z;
  (** The names [readdir] gives, in its order. *)
  opendir : X -> list Z -> option (list (list Z)) * X;
  (** Whether the file is a regular one, and its time of modification. *)
  lstat : X -> list Z -> option (bool * Z) * X;
  stat_size : X -> list Z -> option Z * X;
  unlink : X -> list Z -> X;
  (** [open] with [O_EXCL]. *)
  open_excl : X -> list Z -> option Z * X;
  fdopen : X -> Z -> option Z * X;
  close : X -> Z -> X;
  fopen : X -> list Z -> option Z * X;
  fclose : X -> Z -> X;
  (** [signal(SIGPIPE, SIG_IGN)] *)
  ignore_sigpipe : X -> bool * X
}.

(** ** The state *)

Inductive policy_event :=
  | LogOpened (file : Z) (path : list Z) (exclusive : bool)
  | LogClosed (file : Z)
  | FdClosed (fd : Z)
  | LogRemoved (path : list Z)
  | OpenFailed (path : list Z).
#[global] Instance policy_event_eq_dec : EqDecision policy_event.
Proof. solve_decision. Defined.

(** [s_worker_log_file], [s_worker_log_path], [s_worker_default_log]. *)
Record log_policy {X : Type} := mk_policy {
  lp_file : option Z; lp_path : list Z; lp_default : bool; lp_log : vw_log; lp_events : list policy_event; lp_ext : X
}.
Arguments log_policy X : clear implicits.
Arguments mk_policy {X}.
#[global] Instance settable_log_policy {X} : Settable (log_policy X) :=
  fun s => mk_policy (lp_file s) (lp_path s) (lp_default s) (lp_log s) (lp_events s) (lp_ext s).
#[global] Instance set_lp_file {X} : Setter (@lp_file X) := ltac:(setter).
#[global] Instance set_lp_path {X} : Setter (@lp_path X) := ltac:(setter).
#[global] Instance set_lp_default {X} : Setter (@lp_default X) := ltac:(setter).
#[global] Instance set_lp_log {X} : Setter (@lp_log X) := ltac:(setter).
#[global] Instance set_lp_events {X} : Setter (@lp_events X) := ltac:(setter).
#[global] Instance set_lp_ext {X} : Setter (@lp_ext X) := ltac:(setter).
Definition new_policy {X} (x : X) : log_policy X := mk_policy None [] false new_log [] x.

(** ** The logs there are *)

Definition log_prefix : list Z := str "vlc-whisper-worker-".
Definition log_suffix : list Z := str ".log".
Definition default_log_name (name : list Z) : bool :=
  prefixb log_prefix name && negb (zlen name <? 5) && bool_decide (zdrop (zlen name - 4) name = log_suffix).

(** [strcmp], up to the sign the standard gives it. *)
Fixpoint strcmp (a b : list Z) : Z :=
  match a, b with
  | [], [] => 0
  | [], _ :: _ => -1
  | _ :: _, [] => 1
  | x :: a, y :: b => if x <? y then -1 else if y <? x then 1 else strcmp a b
  end.

(** [vw_posix_log_entry_t]: the path and the time. *)
Definition log_entry : Type := list Z * Z.
Definition vw_posix_log_cmp (ea eb : log_entry) : Z :=
  if snd ea <? snd eb then -1 else if snd eb <? snd ea then 1 else strcmp (fst ea) (fst eb).
(** Entries that compare as equal are equal: [qsort] has one result. *)
Definition entry_le (a b : log_entry) : Prop := vw_posix_log_cmp a b <= 0.
#[global] Instance entry_le_dec a b : Decision (entry_le a b).
Proof. unfold entry_le. apply _. Defined.
Definition qsort (entries : list log_entry) : list log_entry := merge_sort entry_le entries.

Definition LOG_ENTRIES : nat := 64.

Section policy.
Context {X : Type} `{!LogEnv X}.
#[local] Abbreviation P := (M (log_policy X)).

Definition env {A} (f : X -> A * X) : P A := fun s => let '(a, x) := f (lp_ext s) in (a, s <| lp_ext := x |>).
Definition env_ (f : X -> X) : P unit := modify (fun s => s <| lp_ext := f (lp_ext s) |>).
Definition policy_note (e : policy_event) : P unit := modify (fun s => s <| lp_events := lp_events s ++ [e] |>).
Definition on_log (f : vw_log -> vw_log) : P unit := modify (fun s => s <| lp_log := f (lp_log s) |>).

Definition vw_worker_default_log_dir (x : X) : list Z :=
  match getenv x (str "XDG_RUNTIME_DIR") with
  | Some ((_ :: _) as dir) => dir
  | _ => match getenv x (str "TMPDIR") with Some ((_ :: _) as dir) => dir | _ => str "/tmp" end
  end.

(** The loop over the directory. *)
Fixpoint scan_logs (dir : list Z) (names : list (list Z)) (entries : list log_entry) : P (list log_entry) :=
  match names with
  | [] => mret entries
  | name :: names =>
      if negb (default_log_name name) then scan_logs dir names entries
      else
        let full_path := dir ++ str "/" ++ name in
        if 1024 <=? zlen full_path then scan_logs dir names entries
        else
          st ← env (fun x => lstat x full_path);
          scan_logs dir names
            match st with
            | Some (true, mtime) => if bool_decide (length entries < LOG_ENTRIES)%nat then entries ++ [(full_path, mtime)] else entries
            | _ => entries
            end
  end.
Definition remove_log (path : list Z) : P unit := env_ (fun x => unlink x path) ;; policy_note (LogRemoved path).
Definition vw_worker_prune_default_logs (dir : list Z) (max_keep : nat) : P unit :=
  if bool_decide (dir = []) then skip
  else
    d ← env (fun x => opendir x dir);
    match d with
    | None => skip
    | Some names =>
        entries ← scan_logs dir names [];
        if bool_decide (length entries <= max_keep)%nat then skip
        else for_each (map fst (take (length entries - max_keep) (qsort entries))) remove_log
    end.

(** ** The log file *)

Definition open_exclusive (path : list Z) : P (option Z) :=
  fd ← env (fun x => open_excl x path);
  match fd with
  | None => mret None
  | Some fd =>
      f ← env (fun x => fdopen x fd);
      match f with
      | None => env_ (fun x => close x fd) ;; policy_note (FdClosed fd) ;; mret None
      | Some f => mret (Some f)
      end
  end.
Definition vw_worker_setup_log_file (config : vw_worker_config_t) : P unit :=
  if negb (cfg_logging_enabled config) then skip
  else
    let default_log := bool_decide (cfg_log_file config = []) in
    path ← (if default_log then
              dir ← gets (fun s => vw_worker_default_log_dir (lp_ext s));
              vw_worker_prune_default_logs dir 4 ;;
              pid ← gets (fun s => getpid (lp_ext s));
              mret (ztake 1023 (dir ++ str "/" ++ log_prefix ++ decimal pid ++ log_suffix))
            else mret (ztake 1023 (cfg_log_file config)));
    f ← (if default_log then open_exclusive path else env (fun x => fopen x path));
    match f with
    | Some f =>
        policy_note (LogOpened f path default_log) ;;
        modify (fun s => s <| lp_file := Some f |> <| lp_default := default_log |> <| lp_path := path |>) ;;
        on_log (vw_log_set_file (Some f))
    | None => policy_note (OpenFailed path)
    end.

Definition vw_worker_teardown_log_file : P unit :=
  file ← gets lp_file;
  match file with
  | None => skip
  | Some f =>
      on_log vw_log_flush ;;
      on_log (vw_log_set_file None) ;;
      env_ (fun x => fclose x f) ;; policy_note (LogClosed f) ;;
      modify (fun s => s <| lp_file := None |>) ;;
      default_log ← gets lp_default;
      path ← gets lp_path;
      (if default_log && negb (bool_decide (path = [])) then
         size ← env (fun x => stat_size x path);
         if bool_decide (size = Some 0) then remove_log path else skip
       else skip) ;;
      modify (fun s => s <| lp_path := [] |> <| lp_default := false |>)
  end.

(** ** The process *)

(** [vw_worker_run], and whisper's language table. *)
Context (vw_worker_run : vw_worker_config_t -> P Z) (whisper_lang_id : list Z -> Z).

(** [argv] without the program's name. *)
Definition main (argv : list (list Z)) : P Z :=
  installed ← env ignore_sigpipe;
  if negb installed then mret 2
  else
    match vw_worker_config_parse_args whisper_lang_id vw_worker_config_init_defaults argv with
    | None => mret 2
    | Some config =>
        on_log (vw_log_set_enabled (cfg_logging_enabled config)) ;;
        vw_worker_setup_log_file config ;;
        worker_rc ← vw_worker_run config;
        vw_worker_teardown_log_file ;;
        mret worker_rc
    end.
End policy.
