(* ===== verification/LogPolicyProperties.v ===== *)
(** * Old logs are removed, the worker's own is closed

    The removal of [LogPolicy] against the directory it works on, and the log file over
    the life of the worker's process. *)

From stdpp Require Import relations gmap sorting.
From S2P Require Import Prelude.
From S2P Require Import CString.
From S2P Require Import State.
From S2P Require Import WorkerConfig.
From S2P Require Import Log.
From S2P Require Import LogPolicy.
#[local] Open Scope Z_scope.

(** ** The directory *)

(** What the calls on files do to them: each has a kind and a time. *)
Class Files (X : Type) `{!LogEnv X} := {
  files : X -> gmap (list Z) (bool * Z);
  names_listed : forall x dir names, fst (opendir x dir) = Some names ->
    NoDup names /\ Forall (fun name => ~ 47 ∈ name) names
    /\ (forall name, is_Some (files x !! (dir ++ str "/" ++ name)) -> ~ 47 ∈ name -> name ∈ names);
  opendir_files : forall x dir, files (snd (opendir x dir)) = files x;
  lstat_files : forall x path, files (snd (lstat x path)) = files x;
  lstat_answer : forall x path, fst (lstat x path) = files x !! path;
  unlink_files : forall x path, files (unlink x path) = delete path (files x)
}.

(** The default logs of a directory: what the name of one is, and that of their paths. *)
Definition is_default_log (dir path : list Z) : bool :=
  let name := drop (length dir + 1) path in
  prefixb (dir ++ str "/") path && default_log_name name && bool_decide (~ 47 ∈ name) && (zlen path <? 1024).
Definition default_logs (dir : list Z) (fs : gmap (list Z) (bool * Z)) : gmap (list Z) Z :=
  map_imap (fun path f => if (fst f : bool) && is_default_log dir path then Some (snd f) else None) fs.

(** ** The order *)

Lemma strcmp_total a : forall b, strcmp a b <= 0 \/ strcmp b a <= 0.
Proof.
  induction a as [|x a IH]; intros [|y b]; cbn; [by left|by left|by right|].
  destruct (Z.ltb_spec x y); [left; lia|]. destruct (Z.ltb_spec y x); [right; lia|apply IH].
Qed.
Lemma strcmp_trans a : forall b c, strcmp a b <= 0 -> strcmp b c <= 0 -> strcmp a c <= 0.
Proof.
  induction a as [|x a IH]; intros [|y b] [|z c]; cbn; try lia. specialize (IH b c).
  destruct (Z.ltb_spec x y), (Z.ltb_spec y x), (Z.ltb_spec y z), (Z.ltb_spec z y), (Z.ltb_spec x z), (Z.ltb_spec z x); try lia; auto.
Qed.
#[global] Instance entry_le_total : Total entry_le.
Proof.
  intros [p m] [q n]. unfold entry_le, vw_posix_log_cmp. cbn [fst snd]. destruct (Z.ltb_spec m n), (Z.ltb_spec n m); try lia. apply strcmp_total.
Qed.
#[global] Instance entry_le_trans : Transitive entry_le.
Proof.
  intros [p m] [q n] [r o]. unfold entry_le, vw_posix_log_cmp. cbn [fst snd]. pose proof (strcmp_trans p q r).
  destruct (Z.ltb_spec m n), (Z.ltb_spec n m), (Z.ltb_spec n o), (Z.ltb_spec o n), (Z.ltb_spec m o), (Z.ltb_spec o m); try lia; auto.
Qed.

(** ** The loop over the directory *)

Section properties.
Context {X : Type} `{!LogEnv X} `{!Files X}.
#[local] Abbreviation P := (M (log_policy X)).

Definition entry_of (dir : list Z) (fs : gmap (list Z) (bool * Z)) (name : list Z) : option log_entry :=
  let path := dir ++ str "/" ++ name in
  if default_log_name name && (zlen path <? 1024) then
    match fs !! path with Some (true, mtime) => Some (path, mtime) | _ => None end
  else None.

Lemma env_run {A} (f : X -> A * X) s : env f s = (fst (f (lp_ext s)), s <| lp_ext := snd (f (lp_ext s)) |>).
Proof. unfold env. by destruct (f (lp_ext s)). Qed.

(** Only the first 64 count. *)
Lemma scan_logs_spec dir names : forall entries s, (length entries <= LOG_ENTRIES)%nat ->
  let r := scan_logs (X := X) dir names entries s in
  fst r = take LOG_ENTRIES (entries ++ omap (entry_of dir (files (lp_ext s))) names)
  /\ files (lp_ext (snd r)) = files (lp_ext s).
Proof.
  induction names as [|name names IH]; intros entries s Hn; cbv zeta; cbn [scan_logs].
  { split; [|done]. cbn. by rewrite app_nil_r, take_ge. }
  cbn [omap list_omap]. unfold entry_of at 1. destruct (default_log_name name); cbn [negb andb]; [|by apply IH].
  destruct (Z.leb_spec 1024 (zlen (dir ++ str "/" ++ name))); [replace (_ <? 1024) with false by lia; by apply IH|].
  replace (_ <? 1024) with true by lia. rewrite bind_run, env_run. cbn [fst snd]. rewrite lstat_answer.
  set (s1 := s <| lp_ext := _ |>). assert (files (lp_ext s1) = files (lp_ext s)) as Hf by apply lstat_files.
  rewrite <- Hf. clearbody s1. set (path := dir ++ str "/" ++ name). destruct (files (lp_ext s1) !! path) as [[[] mtime]|]; try by apply IH.
  case_bool_decide as Hlt.
  - specialize (IH (entries ++ [(path, mtime)]) s1). rewrite <- app_assoc in IH. apply IH. rewrite length_app. cbn. lia.
  - destruct (IH entries s1 Hn) as [IH1 IH2]. split; [|done]. rewrite IH1, !take_app_le by lia. done.
Qed.

(** ** Removing *)

Lemma remove_logs_files paths : forall s path,
  files (lp_ext (snd (for_each paths remove_log s))) !! path = if decide (path ∈ paths) then None else files (lp_ext s) !! path.
Proof.
  induction paths as [|p paths IH]; intros s path; [done|]. cbn [for_each]. rewrite bind_run, IH.
  change (lp_ext (snd (remove_log p s))) with (unlink (lp_ext s) p). rewrite unlink_files.
  destruct (decide (path ∈ paths)), (decide (path ∈ p :: paths)) as [Hin|Hin]; try done; [set_solver| |].
  - apply elem_of_cons in Hin as [->|]; [|done]. apply lookup_delete_eq.
  - apply lookup_delete_ne. set_solver.
Qed.

(** ** The entries are the default logs *)

Lemma drop_dir dir name : drop (length dir + 1) (dir ++ str "/" ++ name) = name.
Proof. rewrite drop_app_ge by lia. by replace (length dir + 1 - length dir)%nat with 1%nat by lia. Qed.
Lemma is_default_log_path dir name : ~ 47 ∈ name ->
  is_default_log dir (dir ++ str "/" ++ name) = default_log_name name && (zlen (dir ++ str "/" ++ name) <? 1024).
Proof.
  intros Hn. unfold is_default_log. rewrite drop_dir, bool_decide_eq_true_2, andb_true_r by done.
  by rewrite (app_assoc dir (str "/") name), prefixb_app.
Qed.
Lemma is_default_log_inv dir path : is_default_log dir path = true -> exists name, path = dir ++ str "/" ++ name /\ ~ 47 ∈ name.
Proof.
  unfold is_default_log. rewrite !andb_true_iff. intros [[[Hp _] Hn] _]. apply prefixb_inv in Hp as [name ->].
  rewrite <- app_assoc in Hn |- *. rewrite drop_dir in Hn. exists name. by apply bool_decide_eq_true in Hn.
Qed.
Lemma entry_of_fst dir fs name e : entry_of dir fs name = Some e -> fst e = dir ++ str "/" ++ name.
Proof. unfold entry_of. case_goal; [|done]. destruct (fs !! _) as [[[] m]|]; [|done|done]. by intros [= <-]. Qed.
(** The files found are the default logs, each once. *)
Lemma entries_are_logs dir x names : fst (opendir x dir) = Some names ->
  map_to_list (default_logs dir (files x)) ≡ₚ omap (entry_of dir (files x)) names.
Proof.
  intros Hnames. destruct (names_listed x dir names Hnames) as (Hnd & Hns & Hin). apply NoDup_Permutation.
  - apply NoDup_map_to_list.
  - clear Hin Hnames Hns. induction Hnd as [|name names Hno _ IH]; [constructor|]. cbn [omap list_omap].
    destruct (entry_of dir (files x) name) as [e|] eqn:He; [|exact IH]. constructor; [|exact IH].
    intros Hin. apply list_elem_of_omap in Hin as (name' & Hin & He'). apply entry_of_fst in He, He'. rewrite He in He'.
    apply app_inv_head in He'. injection He' as ->. done.
  - intros [path m]. rewrite elem_of_map_to_list, list_elem_of_omap. unfold default_logs. rewrite map_lookup_imap. split.
    + destruct (files x !! path) as [[regular m']|] eqn:Hp; cbn [mbind option_bind fst snd]; [|done].
      destruct regular; [|done]. cbn [andb]. destruct (is_default_log dir path) eqn:Hd; [|done]. intros [= <-].
      destruct (is_default_log_inv _ _ Hd) as (name & -> & Hno). exists name. split; [by apply Hin; [rewrite Hp|]|].
      unfold entry_of. rewrite is_default_log_path in Hd by done. by rewrite Hd, Hp.
    + intros (name & Hname & He). pose proof (entry_of_fst _ _ _ _ He) as Hpath. cbn [fst] in Hpath. subst path.
      rewrite list.Forall_forall in Hns. unfold entry_of in He. pose proof (is_default_log_path dir name (Hns _ Hname)) as Hd.
      destruct (default_log_name name && _); [|done].
      destruct (files x !! _) as [[[] m']|]; try done. injection He as ->. cbn [mbind option_bind fst snd andb]. by rewrite Hd.
Qed.

(** *** What remains *)

(** Taking entries of a map's list away leaves the others. *)
Lemma removed_logs (dir : list Z) (fs fs' : gmap (list Z) (bool * Z)) (gone rest : list log_entry) :
  map_to_list (default_logs dir fs) ≡ₚ gone ++ rest ->
  (forall path, fs' !! path = if decide (path ∈ map fst gone) then None else fs !! path) ->
  map_to_list (default_logs dir fs') ≡ₚ rest.
Proof.
  intros Hp Hfs. pose proof (NoDup_fst_map_to_list (default_logs dir fs)) as Hnd.
  pose proof (NoDup_map_to_list (default_logs dir fs)) as Hnd2.
  rewrite Hp in Hnd, Hnd2. rewrite fmap_app in Hnd. apply list.NoDup_app in Hnd as (_ & Hdis & _), Hnd2 as (_ & _ & Hr).
  apply NoDup_Permutation; [apply NoDup_map_to_list|done|]. intros [path m].
  assert ((path, m) ∈ map_to_list (default_logs dir fs) <-> (path, m) ∈ gone ++ rest) as Hm by (by rewrite Hp).
  rewrite elem_of_map_to_list in Hm |- *. unfold default_logs in Hm |- *. rewrite map_lookup_imap in Hm |- *. rewrite Hfs, elem_of_app in *.
  case_decide as Hg.
  - split; [done|]. intros Hrest. exfalso. apply (Hdis path Hg). by apply (list_elem_of_fmap_2 fst _ (path, m)).
  - rewrite Hm. split; [|by right]. intros [Hin|]; [|done]. destruct Hg. by apply (list_elem_of_fmap_2 fst _ (path, m)).
Qed.

(** What a removal takes away and what it leaves, of the entries it considers. *)
Lemma prune_files dir max_keep (s : log_policy X) names : dir <> [] -> fst (opendir (lp_ext s) dir) = Some names ->
  let qualifying := omap (entry_of dir (files (lp_ext s))) names in
  let sorted := qsort (take LOG_ENTRIES qualifying) in
  forall path, files (lp_ext (snd (vw_worker_prune_default_logs dir max_keep s))) !! path
    = if decide (path ∈ map fst (take (length sorted - max_keep) sorted)) then None else files (lp_ext s) !! path.
Proof.
  intros Hd Hn. cbv zeta. intros path. unfold vw_worker_prune_default_logs. rewrite bool_decide_eq_false_2 by done.
  rewrite bind_run, env_run. cbn [fst snd]. rewrite Hn. set (s1 := s <| lp_ext := _ |>).
  assert (files (lp_ext s1) = files (lp_ext s)) as Hf by apply opendir_files. rewrite bind_run.
  destruct (scan_logs_spec dir names [] s1 ltac:(cbn; lia)) as [He Hf2]. rewrite He. cbn [app]. rewrite Hf in He, Hf2 |- *.
  set (entries := take LOG_ENTRIES _). assert (length (qsort entries) = length entries) as ->
    by (apply Permutation_length, merge_sort_Permutation).
  case_bool_decide as Hlt.
  - replace (length entries - max_keep)%nat with O by lia. rewrite decide_False by (cbn; set_solver).
    change (files (lp_ext (snd (scan_logs dir names [] s1))) !! path = files (lp_ext s) !! path). by rewrite Hf2.
  - by rewrite remove_logs_files, Hf2.
Qed.

End properties.

(** ** Over the process *)

Definition opened_logs (l : list policy_event) : list Z := omap (fun e => match e with LogOpened f _ _ => Some f | _ => None end) l.
Definition closed_logs (l : list policy_event) : list Z := omap (fun e => match e with LogClosed f => Some f | _ => None end) l.
Lemma opened_logs_app l k : opened_logs (l ++ k) = opened_logs l ++ opened_logs k.
Proof. apply omap_app. Qed.
Lemma closed_logs_app l k : closed_logs (l ++ k) = closed_logs l ++ closed_logs k.
Proof. apply omap_app. Qed.

Section process.
Context {X : Type} `{!LogEnv X}.
#[local] Abbreviation P := (M (log_policy X)).

(** Calls that leave the log alone. *)
Definition same_log (s s' : log_policy X) : Prop :=
  lp_file s' = lp_file s /\ lg_file (lp_log s') = lg_file (lp_log s)
  /\ opened_logs (lp_events s') = opened_logs (lp_events s) /\ closed_logs (lp_events s') = closed_logs (lp_events s).
#[local] Instance same_log_preorder : PreOrder same_log.
Proof. split; [done|]. intros s1 s2 s3 (A & B & C & D) (E & F & G & H). unfold same_log. split_and!; congruence. Qed.
Lemma same_log_env {A} (f : X -> A * X) : keeps same_log (env f).
Proof. intros s. by rewrite env_run. Qed.
Lemma same_log_env_ (f : X -> X) : keeps same_log (env_ f).
Proof. by intros s. Qed.
Definition silent_event (e : policy_event) : Prop := match e with LogOpened _ _ _ | LogClosed _ => False | _ => True end.
Lemma same_log_note e : silent_event e -> keeps same_log (policy_note (X := X) e).
Proof.
  intros He s. unfold same_log. change (lp_events (snd (policy_note e s))) with (lp_events s ++ [e]).
  rewrite opened_logs_app, closed_logs_app. by destruct e; cbn; rewrite ?app_nil_r.
Qed.
#[local] Hint Resolve same_log_env same_log_env_ : keeps.
#[local] Hint Extern 1 (keeps same_log (policy_note _)) => (by apply same_log_note) : keeps.
Lemma same_log_enabled b : keeps same_log (on_log (X := X) (vw_log_set_enabled b)).
Proof. by intros s. Qed.
Lemma same_log_remove path : keeps same_log (remove_log (X := X) path).
Proof. unfold remove_log. keeps_steps. Qed.
#[local] Hint Resolve same_log_remove same_log_enabled : keeps.
Lemma same_log_scan dir names : forall entries, keeps same_log (scan_logs (X := X) dir names entries).
Proof. induction names as [|name names IH]; intros entries; cbn [scan_logs]; keeps_steps; apply IH. Qed.
#[local] Hint Resolve same_log_scan : keeps.
Lemma same_log_prune dir max_keep : keeps same_log (vw_worker_prune_default_logs (X := X) dir max_keep).
Proof. unfold vw_worker_prune_default_logs. keeps_steps. Qed.
#[local] Hint Resolve same_log_prune : keeps.
Lemma same_log_exclusive path : keeps same_log (open_exclusive (X := X) path).
Proof. unfold open_exclusive. keeps_steps. Qed.
#[local] Hint Resolve same_log_exclusive : keeps.

(** What [vw_log] writes to is the file that is open, and that alone is not yet closed. *)
Definition log_settled (s : log_policy X) : Prop :=
  lg_file (lp_log s) = lp_file s /\ opened_logs (lp_events s) = closed_logs (lp_events s) ++ option_list (lp_file s).
Lemma same_log_settled {A} (m : P A) (R : log_policy X -> Prop) :
  (forall s s', same_log s s' -> R s -> R s') -> keeps same_log m ->
  triple (fun s => log_settled s /\ R s) m (fun _ s => log_settled s /\ R s).
Proof.
  intros HR Hm s [[Hf Ho] Hs]. pose proof (Hm s) as Hk. split; [|by apply (HR s)].
  destruct Hk as (A1 & B & C & D). split; congruence.
Qed.
Definition no_log (s : log_policy X) : Prop := lp_file s = None.
Lemma no_log_same s s' : same_log s s' -> no_log s -> no_log s'.
Proof. intros (A & _). unfold no_log. by rewrite A. Qed.

Lemma setup_settled config : triple (fun s => log_settled s /\ no_log s) (vw_worker_setup_log_file (X := X) config) (fun _ => log_settled).
Proof.
  unfold vw_worker_setup_log_file. apply triple_if; intros _; [by intros s []|]. cbv zeta.
  eapply triple_bind; [apply same_log_settled; [exact no_log_same|keeps_steps]|]. cbv beta. intros path.
  eapply triple_bind; [apply same_log_settled; [exact no_log_same|keeps_steps]|]. cbv beta. intros [f|].
  - intros s [[Hf Ho] Hn]. unfold no_log in Hn. rewrite Hn in Hf, Ho. rewrite !bind_run. unfold log_settled.
    set (e := LogOpened f path _). set (s' := snd _).
    assert (lg_file (lp_log s') = Some f) as Hf' by done. assert (lp_file s' = Some f) as Hl by done.
    assert (lp_events s' = lp_events s ++ [e]) as He by done. clearbody s'. rewrite Hf', Hl, He, opened_logs_app, closed_logs_app, Ho.
    split; [done|]. cbn. by rewrite !app_nil_r.
  - eapply triple_weaken; [apply same_log_settled; [exact no_log_same|keeps_steps]| |]; [done|]. by intros ? s [].
Qed.
Lemma same_log_forget : keeps same_log (modify (fun s : log_policy X => s <| lp_path := [] |> <| lp_default := false |>)).
Proof. by intros s. Qed.
#[local] Hint Resolve same_log_forget : keeps.
Lemma teardown_settled : triple log_settled (vw_worker_teardown_log_file (X := X)) (fun _ s => log_settled s /\ no_log s).
Proof.
  intros s [Hf Ho]. unfold vw_worker_teardown_log_file. rewrite bind_run. cbn [gets fst snd]. destruct (lp_file s) as [f|] eqn:Hl.
  2: { unfold log_settled, no_log. cbn. by rewrite Hl. }
  do 5 rewrite bind_run. match goal with |- log_settled (snd (?m ?s1)) /\ _ => set (s' := s1); set (rest := m) end.
  assert (triple (fun s => log_settled s /\ no_log s) rest (fun _ s => log_settled s /\ no_log s)) as Hrest.
  { apply same_log_settled; [exact no_log_same|]. unfold rest. keeps_steps. }
  clearbody rest. apply (Hrest s'). assert (lp_file s' = None) as Hl' by done. assert (lg_file (lp_log s') = None) as Hf' by done.
  assert (lp_events s' = lp_events s ++ [LogClosed f]) as He by done. clearbody s'. split; [|done]. unfold log_settled.
  rewrite Hf', Hl', He, opened_logs_app, closed_logs_app, Ho. cbn. by rewrite !app_nil_r.
Qed.

(** Whatever the worker does in between, its process leaves no log file open and no
    event is written to a closed one: each that was opened is closed, after [vw_log] has
    let go of it; and while the worker runs, [vw_log] writes to the file that is open. *)
Theorem main_settles_log (vw_worker_run : vw_worker_config_t -> P Z) (whisper_lang_id : list Z -> Z) (argv : list (list Z)) (x : X) :
  (forall config, keeps same_log (vw_worker_run config)) ->
  let s := snd (main vw_worker_run whisper_lang_id argv (new_policy x)) in
  lp_file s = None /\ lg_file (lp_log s) = None /\ opened_logs (lp_events s) = closed_logs (lp_events s)
  /\ forall config, log_settled (snd (vw_worker_setup_log_file config (new_policy x))).
Proof.
  intros Hrun s. assert (log_settled (new_policy x) /\ no_log (new_policy x)) as H0 by done.
  assert (triple (fun s => log_settled s /\ no_log s) (main vw_worker_run whisper_lang_id argv) (fun _ s => log_settled s /\ no_log s)) as Hmain.
  { unfold main. eapply triple_bind; [apply same_log_settled; [exact no_log_same|keeps_steps]|]. cbv beta. intros installed.
    apply triple_if; intros _; [by intros t|]. destruct (vw_worker_config_parse_args _ _ _) as [config|]; [|by intros t].
    eapply triple_bind; [apply same_log_settled; [exact no_log_same|keeps_steps]|]. cbv beta. intros _.
    eapply triple_bind; [apply setup_settled|]. cbv beta. intros _.
    eapply triple_bind.
    { eapply triple_weaken; [apply (same_log_settled _ (fun _ => True)); [done|apply Hrun]| |]; [done|]. intros rc t [Ht _]. exact Ht. }
    cbv beta. intros rc. eapply triple_bind; [apply teardown_settled|]. by intros ? t. }
  destruct (Hmain _ H0) as [[Hf Ho] Hn]. fold s in Hf, Ho, Hn. unfold no_log in Hn. rewrite Hn in Hf, Ho. cbn in Ho. rewrite app_nil_r in Ho.
  split_and!; [done|done|done|]. intros config. by apply setup_settled.
Qed.
End process.

(** ** A directory *)

(** The name of a path in a directory. *)
Definition name_in (dir path : list Z) : option (list Z) :=
  let name := drop (length dir + 1) path in
  if prefixb (dir ++ str "/") path && bool_decide (~ 47 ∈ name) then Some name else None.
Lemma name_in_spec dir path name : name_in dir path = Some name <-> path = dir ++ str "/" ++ name /\ ~ 47 ∈ name.
Proof.
  unfold name_in. split.
  - destruct (prefixb _ path) eqn:Hp; [|done]. apply prefixb_inv in Hp as [t ->]. rewrite <- app_assoc, drop_dir. cbn [andb].
    case_bool_decide; [|done]. by intros [= <-].
  - intros [-> Hn]. rewrite drop_dir, bool_decide_eq_true_2 by done. by rewrite (app_assoc dir (str "/") name), prefixb_app.
Qed.

Lemma names_distinct dir (paths : list (list Z)) : NoDup paths -> NoDup (omap (name_in dir) paths).
Proof.
  induction 1 as [|path paths Hno _ IH]; [constructor|]. cbn [omap list_omap]. destruct (name_in dir path) as [name|] eqn:Hname; [|done].
  constructor; [|done]. intros Hin. apply list_elem_of_omap in Hin as (path' & Hin & Hname').
  apply name_in_spec in Hname as [-> _], Hname' as [-> _]. done.
Qed.

Definition directory : Type := gmap (list Z) (bool * Z).
Definition names_of (x : directory) (dir : list Z) : list (list Z) := omap (name_in dir) (map fst (map_to_list x)).
#[global] Instance directory_env : LogEnv directory := {|
  getenv := fun _ name => if bool_decide (name = str "TMPDIR") then Some (str "/t") else None;
  getpid := fun _ => 42;
  opendir := fun x dir => (Some (names_of x dir), x);
  lstat := fun x path => (x !! path, x);
  stat_size := fun x path => (Some 0, x);
  unlink := fun x path => delete path x;
  open_excl := fun x path => if bool_decide (x !! path = None) then (Some 3, <[path := (true, 100)]> x) else (None, x);
  fdopen := fun x fd => (Some fd, x);
  close := fun x _ => x;
  fopen := fun x path => (Some 3, <[path := (true, 100)]> x);
  fclose := fun x _ => x;
  ignore_sigpipe := fun x => (true, x)
|}.
#[global] Instance directory_files : Files directory.
Proof.
  refine {| files := fun x : directory => x |}; try done. intros x dir names [= <-]. unfold names_of. split_and!.
  - apply names_distinct. exact (NoDup_fst_map_to_list x).
  - apply list.Forall_forall. intros name Hin. apply list_elem_of_omap in Hin as (path & _ & Hname). by apply name_in_spec in Hname as [].
  - intros name [f Hf] Hno. apply list_elem_of_omap. exists (dir ++ str "/" ++ name). split; [|by apply name_in_spec].
    apply elem_of_map_to_list in Hf. by apply (list_elem_of_fmap_2 fst) in Hf.
Defined.

(** Six logs, a link and a file of another name. *)
Definition some_log (n m : Z) : list Z * (bool * Z) := (str "/t/vlc-whisper-worker-" ++ decimal n ++ str ".log", (true, m)).
Definition some_directory : directory :=
  list_to_map ([(str "/t/vlc-whisper-worker-9.log", (false, 1)); (str "/t/notes.log", (true, 1))]
               ++ [some_log 10 50; some_log 11 20; some_log 12 30; some_log 13 30; some_log 14 40; some_log 15 10]).
Definition some_pruned : log_policy directory := snd (vw_worker_prune_default_logs (str "/t") 4 (new_policy some_directory)).
Example two_oldest_removed :
  lp_events some_pruned = [LogRemoved (fst (some_log 15 10)); LogRemoved (fst (some_log 11 20))]
  /\ size (lp_ext some_pruned) = 6%nat.
Proof. split; vm_decide. Qed.
(** Of 74 logs 14 remain where 4 are to be kept. *)
Example more_than_64_logs :
  let x : directory := list_to_map (map (fun n => some_log n n) (seqZ 1 74)) in
  size (lp_ext (snd (vw_worker_prune_default_logs (str "/t") 4 (new_policy x)))) = 14%nat.
Proof. vm_compute. reflexivity. Qed.

(** A worker that writes one event. *)
Definition one_event_worker (config : vw_worker_config_t) : M (log_policy directory) Z :=
  on_log (vw_log_event 1 (Some (str "UP")) []) ;; mret 0.
Definition logging_args : list (list Z) := [str "--enable-logging"].
Example default_log_removed_when_empty :
  let s := snd (main one_event_worker (fun _ => 0) logging_args (new_policy ∅)) in
  let path := str "/t/vlc-whisper-worker-42.log" in
  lp_events s = [LogOpened 3 path true; LogClosed 3; LogRemoved path].
Proof. vm_compute. reflexivity. Qed.
Lemma main_settles_log_witness :
  lg_file (lp_log (snd (main one_event_worker (fun _ => 0) logging_args (new_policy (∅ : directory))))) = None.
Proof.
  refine (proj1 (proj2 (main_settles_log one_event_worker (fun _ => 0) logging_args ∅ _))).
  intros config s. unfold same_log, one_event_worker. rewrite bind_run. cbn [fst snd mret M_ret]. unfold on_log, vw_log_event. cbn.
  destruct (lg_enabled (lp_log s)); done.
Defined.
