(* ===== verification/Platform.v ===== *)
(** * Processes, clocks and random bytes

    [src/plugin/src/vw_platform_linux.c]: what the plugin's client takes from the system.
    Children that could not be reaped in time are kept in a table of 16 and tried again at
    every later call; the table's locked regions are each one step. *)

From stdpp Require Import relations.
From S2P Require Import Prelude.
From S2P Require Import CString.
From S2P Require Import State.
#[local] Open Scope Z_scope.

Definition VW_MAX_UNREAPED_PIDS : nat := 16.

(** ** What it calls *)

(** [waitpid]: the child is reaped, still runs, is none of ours ([ECHILD]), or the call
    fails otherwise. *)
Inductive reap_answer := Reaped | StillRuns | NoChild | ReapError (interrupted : bool).
(** [getrandom] and [read]: bytes, nothing, or a failure. *)
Inductive random_answer := RandomBytes (bytes : list Z) | RandomNone | RandomError (interrupted : bool).

Class PlatformEnv (X : Type) := {
  waitpid : X -> Z -> bool -> reap_answer * X;
  kill : X -> Z -> X;
  sleep_ms : X -> Z -> X;
  access : X -> list Z -> bool * X;
  posix_spawn : X -> list Z -> list (list Z) -> option Z * X;
  malloc : X -> bool * X;
  (** [pthread_create] of the detached reaper of a child. *)
  start_reaper : X -> Z -> bool * X;
  getrandom : X -> Z -> random_answer * X;
  open_urandom : X -> option Z * X;
  read_urandom : X -> Z -> Z -> random_answer * X;
  close : X -> Z -> X;
  (** [clock_gettime], in seconds and nanoseconds, and [time(NULL)]. *)
  clock_realtime : X -> option (Z * Z) * X;
  clock_monotonic : X -> option (Z * Z) * X;
  clock_monotonic_raw : X -> option (Z * Z) * X;
  time : X -> Z * X
}.

(** ** The state *)

Inductive platform_event :=
  | Spawned (pid : Z)
  | Killed (pid : Z)
  | WaitedFor (pid : Z) (gone : bool)   (* of [vw_platform_wait_process] *)
  | Registered (pid : Z)
  | TableFull (pid : Z)
  | Retried (pid : Z) (gone : bool)     (* of [vw_platform_reap_unreaped] *)
  | HandedOver (pid : Z)
  | UrandomOpened (fd : Z)
  | UrandomClosed (fd : Z)
  | RandomGot (urandom : bool) (bytes : list Z).
#[global] Instance platform_event_eq_dec : EqDecision platform_event.
Proof. solve_decision. Defined.

(** [vw_unreaped_pids] up to [vw_unreaped_count]. *)
Record platform {X : Type} := mk_platform { pf_unreaped : list Z; pf_log : list platform_event; pf_stuck : bool; pf_ext : X }.
Arguments platform X : clear implicits.
Arguments mk_platform {X}.
#[global] Instance settable_platform {X} : Settable (platform X) :=
  fun s => mk_platform (pf_unreaped s) (pf_log s) (pf_stuck s) (pf_ext s).
#[global] Instance set_pf_unreaped {X} : Setter (@pf_unreaped X) := ltac:(setter).
#[global] Instance set_pf_log {X} : Setter (@pf_log X) := ltac:(setter).
#[global] Instance set_pf_stuck {X} : Setter (@pf_stuck X) := ltac:(setter).
#[global] Instance set_pf_ext {X} : Setter (@pf_ext X) := ltac:(setter).

Section platform.
Context {X : Type} `{!PlatformEnv X}.
#[local] Abbreviation P := (M (platform X)).

Definition os {A} (f : X -> A * X) : P A := fun s => let '(a, x) := f (pf_ext s) in (a, s <| pf_ext := x |>).
Definition os_ (f : X -> X) : P unit := modify (fun s => s <| pf_ext := f (pf_ext s) |>).
Definition platform_note (e : platform_event) : P unit := modify (fun s => s <| pf_log := pf_log s ++ [e] |>).
Definition out_of_fuel : P unit := modify (fun s => s <| pf_stuck := true |>).

(** ** Children that are not reaped *)

Definition vw_platform_register_unreaped (pid : Z) : P unit :=
  if pid <=? 0 then skip
  else
    unreaped ← gets pf_unreaped;
    if bool_decide (length unreaped < VW_MAX_UNREAPED_PIDS)%nat then
      modify (fun s => s <| pf_unreaped := pf_unreaped s ++ [pid] |>) ;; platform_note (Registered pid)
    else platform_note (TableFull pid).

(** [pids[i] = pids[count - 1]; count--] *)
Definition swap_remove (i : nat) (l : list Z) : list Z := take (length l - 1) (<[i := nth (length l - 1) l 0]> l).
Definition is_gone (r : reap_answer) : bool := match r with Reaped | NoChild => true | _ => false end.
(** Every turn removes a child or goes on to the next: the table's length is fuel enough. *)
Fixpoint reap_loop (fuel i : nat) : P unit :=
  match fuel with
  | O => skip
  | S fuel =>
      unreaped ← gets pf_unreaped;
      match unreaped !! i with
      | None => skip
      | Some pid =>
          ret ← os (fun x => waitpid x pid false);
          platform_note (Retried pid (is_gone ret)) ;;
          if is_gone ret then modify (fun s => s <| pf_unreaped := swap_remove i (pf_unreaped s) |>) ;; reap_loop fuel i
          else reap_loop fuel (S i)
      end
  end.
Definition vw_platform_reap_unreaped : P unit := unreaped ← gets pf_unreaped; reap_loop (length unreaped) 0.

(** The detached thread: it ends when the child does. *)
Fixpoint vw_platform_detached_reaper (fuel : nat) (pid : Z) : P unit :=
  match fuel with
  | O => out_of_fuel
  | S fuel =>
      ret ← os (fun x => waitpid x pid true);
      match ret with ReapError true => vw_platform_detached_reaper fuel pid | _ => skip end
  end.
Definition vw_platform_reap_detached (pid : Z) : P unit :=
  memory ← os malloc;
  if negb memory then vw_platform_register_unreaped pid
  else
    created ← os (fun x => start_reaper x pid);
    if negb created then vw_platform_register_unreaped pid else platform_note (HandedOver pid).

(** ** Processes *)

(** [keep]: the caller wants the process. *)
Definition vw_platform_spawn_process (executable_path : list Z) (argv : list (list Z)) (keep : bool) : P (option Z) :=
  vw_platform_reap_unreaped ;;
  if negb (match executable_path with c :: _ => c =? 47 | [] => false end) then mret None
  else
    exists_ ← os (fun x => access x executable_path);
    if negb exists_ then mret None
    else
      pid ← os (fun x => posix_spawn x executable_path argv);
      match pid with
      | None => mret None
      | Some pid =>
          platform_note (Spawned pid) ;;
          (if keep : bool then skip else vw_platform_reap_detached pid) ;;
          mret (Some pid)
      end.

(** The loop over [elapsed_ms]; [fuel] bounds the sleeps of 10 ms. *)
Fixpoint wait_loop (fuel : nat) (pid timeout_ms elapsed_ms : Z) : P bool :=
  match fuel with
  | O => out_of_fuel ;; mret false
  | S fuel =>
      if negb (elapsed_ms <=? timeout_ms) then mret false
      else
        ret ← os (fun x => waitpid x pid false);
        platform_note (WaitedFor pid (is_gone ret)) ;;
        if is_gone ret then mret true
        else if timeout_ms <=? elapsed_ms then mret false
        else os_ (fun x => sleep_ms x 10) ;; wait_loop fuel pid timeout_ms (u32 (elapsed_ms + 10))
  end.
Definition vw_platform_wait_process (process timeout_ms : Z) : P bool :=
  if process <=? 0 then mret false
  else vw_platform_reap_unreaped ;; wait_loop (Z.to_nat (timeout_ms / 10 + 2)) process timeout_ms 0.

Definition vw_platform_terminate_process (process : Z) : P unit :=
  if negb (0 <? process) then skip
  else
    vw_platform_reap_unreaped ;;
    os_ (fun x => kill x process) ;; platform_note (Killed process) ;;
    ok ← vw_platform_wait_process process 1000;
    if negb ok then vw_platform_register_unreaped process else skip.

(** ** Random bytes *)

(** The two sources: [getrandom], and [/dev/urandom] open as [fd]. *)
Definition random_source (urandom : option Z) (n : Z) : P random_answer :=
  match urandom with
  | None => os (fun x => getrandom x n)
  | Some fd => os (fun x => read_urandom x fd n)
  end.
(** [buf] holds what was read so far. *)
Fixpoint random_loop (fuel : nat) (urandom : option Z) (size : Z) (buf : list Z) : P (list Z) :=
  match fuel with
  | O => out_of_fuel ;; mret buf
  | S fuel =>
      if negb (zlen buf <? size) then mret buf
      else
        ret ← random_source urandom (size - zlen buf);
        match ret with
        | RandomBytes ((_ :: _) as bytes) =>
            let bytes := ztake (size - zlen buf) bytes in
            platform_note (RandomGot (bool_decide (urandom <> None)) bytes) ;;
            random_loop fuel urandom size (buf ++ bytes)
        | RandomError true => random_loop fuel urandom size buf
        | _ => mret buf
        end
  end.
(** The buffer, when it could be filled. *)
Definition vw_platform_get_random_bytes (fuel : nat) (size : Z) : P (option (list Z)) :=
  if size <=? 0 then mret None
  else
    buf ← random_loop fuel None size [];
    if zlen buf =? size then mret (Some buf)
    else
      fd ← os open_urandom;
      match fd with
      | None => mret None
      | Some fd =>
          platform_note (UrandomOpened fd) ;;
          buf ← random_loop fuel (Some fd) size [];
          os_ (fun x => close x fd) ;; platform_note (UrandomClosed fd) ;;
          mret (if zlen buf =? size then Some buf else None)
      end.

(** ** Clocks *)

Definition time_us (t : Z * Z) : Z := fst t * 1000000 + Z.quot (snd t) 1000.
Definition vw_platform_get_time_us : P Z :=
  t ← os clock_realtime;
  match t with Some t => mret (time_us t) | None => now ← os time; mret (now * 1000000) end.
Definition vw_platform_get_monotonic_time_us : P Z :=
  t ← os clock_monotonic;
  match t with
  | Some t => mret (time_us t)
  | None => t ← os clock_monotonic_raw; mret (match t with Some t => time_us t | None => -1 end)
  end.

Definition new_platform (x : X) : platform X := mk_platform [] [] false x.
End platform.
