(* ===== verification/PlatformProperties.v ===== *)
(** * No child is forgotten

    The table of [Platform] holds the children that were killed and not yet reaped, each
    tried again at every call; random bytes come whole from one source or not at all; a
    wait returns in its time. *)

From stdpp Require Import relations.
From S2P Require Import Prelude.
From S2P Require Import CString.
From S2P Require Import State.
From S2P Require Import Platform.
#[local] Open Scope Z_scope.

Definition retry_of (e : platform_event) : option (Z * bool) := match e with Retried pid gone => Some (pid, gone) | _ => None end.
Definition retries (log : list platform_event) : list (Z * bool) := omap retry_of log.
Definition registered (log : list platform_event) : list Z :=
  omap (fun e => match e with Registered pid => Some pid | _ => None end) log.
(** The children of the table that were found gone, and those that were not. *)
Definition gone_of (l : list (Z * bool)) : list Z := omap (fun r => if snd r : bool then Some (fst r) else None) l.
Definition kept_of (l : list (Z * bool)) : list Z := omap (fun r => if snd r : bool then None else Some (fst r)) l.

Lemma retries_app l k : retries (l ++ k) = retries l ++ retries k.
Proof. apply omap_app. Qed.
Lemma gone_of_app l k : gone_of (l ++ k) = gone_of l ++ gone_of k.
Proof. apply omap_app. Qed.
Lemma registered_app l k : registered (l ++ k) = registered l ++ registered k.
Proof. apply omap_app. Qed.
Lemma split_retries l : fst <$> l ≡ₚ kept_of l ++ gone_of l.
Proof.
  induction l as [|[pid []] l IH]; [done| |]; cbn [fmap list_fmap fst]; rewrite IH.
  - apply Permutation_middle.
  - done.
Qed.
(** Removing from the table moves its last child to the free place. *)
Lemma swap_remove_spec before pid after :
  exists after', swap_remove (length before) (before ++ pid :: after) = before ++ after' /\ after' ≡ₚ after.
Proof.
  unfold swap_remove. destruct after as [|last rest _] using rev_ind.
  - exists []. rewrite length_app. cbn [length]. replace (length before + 1 - 1)%nat with (length before) by lia.
    split; [|done]. rewrite insert_app_r_alt by lia. rewrite Nat.sub_diag. cbn. by rewrite take_app_length, app_nil_r.
  - exists (last :: rest). split; [|apply Permutation_cons_append].
    rewrite length_app. cbn [length]. rewrite length_app. cbn [length].
    replace (length before + S (length rest + 1) - 1)%nat with (length (before ++ pid :: rest)) by (rewrite length_app; cbn; lia).
    replace (before ++ pid :: rest ++ [last]) with ((before ++ pid :: rest) ++ [last]) by (by rewrite <- app_assoc).
    rewrite app_nth2, Nat.sub_diag by lia. cbn [nth]. rewrite insert_app_l by (rewrite length_app; cbn; lia).
    rewrite insert_app_r_alt by lia. rewrite Nat.sub_diag. cbn [insert list_insert]. apply take_app_length'.
    rewrite !length_app. done.
Qed.

Section properties.
Context {X : Type} `{!PlatformEnv X}.
#[local] Abbreviation P := (M (platform X)).

Lemma os_run {A} (f : X -> A * X) s : os f s = (fst (f (pf_ext s)), s <| pf_ext := snd (f (pf_ext s)) |>).
Proof. unfold os. by destruct (f (pf_ext s)). Qed.

(** ** Trying again *)

Lemma reap_loop_spec fuel : forall before after s,
  pf_unreaped s = before ++ after -> (length after <= fuel)%nat ->
  let s' := snd (reap_loop fuel (length before) s) in
  exists tried, pf_log s' = pf_log s ++ map (fun r => Retried (fst r) (snd r)) tried /\ fst <$> tried ≡ₚ after
    /\ pf_unreaped s' ≡ₚ before ++ kept_of tried.
Proof.
  induction fuel as [|fuel IH]; intros before after s Hs Hf.
  { destruct after; [|cbn in Hf; lia]. exists []. rewrite !app_nil_r in *. cbn. by rewrite Hs. }
  cbv zeta. cbn [reap_loop]. rewrite bind_run. cbn [gets fst snd]. rewrite Hs.
  destruct after as [|pid after].
  { rewrite lookup_ge_None_2 by (rewrite app_nil_r; lia). exists []. cbn. rewrite !app_nil_r in *. by rewrite Hs. }
  rewrite list_lookup_middle by done. rewrite bind_run, os_run. cbn [fst snd].
  set (ret := fst (waitpid _ _ _)). set (s1 := s <| pf_ext := _ |>). rewrite bind_run. cbn [fst snd].
  set (s2 := snd (platform_note _ s1)). assert (pf_log s2 = pf_log s ++ [Retried pid (is_gone ret)]) as Hl2 by done.
  assert (pf_unreaped s2 = before ++ pid :: after) as Hu2 by done. destruct (is_gone ret).
  - rewrite bind_run. cbn [fst snd modify]. set (s3 := s2 <| pf_unreaped := _ |>).
    destruct (swap_remove_spec before pid after) as (after' & He & Hp).
    assert (pf_unreaped s3 = before ++ after') as Hu3 by (rewrite <- He, <- Hu2; done).
    destruct (IH before after' s3 Hu3) as (tried & Hl & Ht & Hk); [rewrite Hp; cbn in Hf; lia|].
    exists ((pid, true) :: tried). cbn [map fst snd fmap list_fmap]. split_and!.
    + rewrite Hl. change (pf_log s3) with (pf_log s2). rewrite Hl2. by rewrite <- app_assoc.
    + by rewrite Ht, Hp.
    + exact Hk.
  - destruct (IH (before ++ [pid]) after s2) as (tried & Hl & Ht & Hk); [by rewrite Hu2, <- app_assoc|cbn in Hf; lia|].
    rewrite length_app in Hl, Hk. cbn [length] in Hl, Hk. rewrite Nat.add_1_r in Hl, Hk.
    exists ((pid, false) :: tried). cbn [map fst snd fmap list_fmap]. split_and!.
    + rewrite Hl, Hl2. by rewrite <- app_assoc.
    + by rewrite Ht.
    + rewrite Hk. by rewrite <- app_assoc.
Qed.
Lemma retries_of_retried tried : retries (map (fun r => Retried (fst r) (snd r)) tried) = tried.
Proof. induction tried as [|[pid gone] tried IH]; [done|]. cbn. f_equal. exact IH. Qed.
Lemma registered_of_retried tried : registered (map (fun r => Retried (fst r) (snd r)) tried) = [].
Proof. by induction tried. Qed.

(** ** The table *)

(** It holds the children registered and not found gone, and is not too full. *)
Definition table_ok (s : platform X) : Prop :=
  (length (pf_unreaped s) <= VW_MAX_UNREAPED_PIDS)%nat
  /\ registered (pf_log s) ≡ₚ pf_unreaped s ++ gone_of (retries (pf_log s)).

Lemma reap_unreaped_ok : triple table_ok (vw_platform_reap_unreaped (X := X)) (fun _ => table_ok).
Proof.
  intros s [Hn Hr]. unfold vw_platform_reap_unreaped. rewrite bind_run. cbn [gets fst snd].
  destruct (reap_loop_spec (length (pf_unreaped s)) [] (pf_unreaped s) s eq_refl (le_n _)) as (tried & Hl & Ht & Hk).
  cbn [length app] in *. pose proof (split_retries tried) as Hsplit. rewrite Ht in Hsplit. split.
  - rewrite Hk. apply Permutation_length in Hsplit. rewrite length_app in Hsplit. lia.
  - rewrite Hl, registered_app, registered_of_retried, app_nil_r, retries_app, retries_of_retried, gone_of_app, Hr, Hk, Hsplit.
    rewrite <- !app_assoc. apply Permutation_app_head. apply Permutation_app_comm.
Qed.

(** Calls that do nothing to the table. *)
Definition same_table (s s' : platform X) : Prop :=
  pf_unreaped s' = pf_unreaped s /\ registered (pf_log s') = registered (pf_log s) /\ retries (pf_log s') = retries (pf_log s).
#[local] Instance same_table_preorder : PreOrder same_table.
Proof. split; [done|]. intros s1 s2 s3 (A & B & C) (D & E & F). unfold same_table. split_and!; congruence. Qed.
Lemma same_table_ok {A} (m : P A) : keeps same_table m -> triple table_ok m (fun _ => table_ok).
Proof. intros Hm s Hs. destruct (Hm s) as (Hu & Hr & Ht). unfold table_ok. by rewrite Hu, Hr, Ht. Qed.
Lemma same_table_os {A} (f : X -> A * X) : keeps same_table (os f).
Proof. intros s. by rewrite os_run. Qed.
Lemma same_table_os_ (f : X -> X) : keeps same_table (os_ f).
Proof. by intros s. Qed.
Definition other_event (e : platform_event) : Prop := match e with Registered _ | Retried _ _ => False | _ => True end.
Lemma same_table_note e : other_event e -> keeps same_table (platform_note (X := X) e).
Proof.
  intros He s. change (same_table s (s <| pf_log := pf_log s ++ [e] |>)). unfold same_table. cbn [pf_unreaped pf_log].
  split; [done|]. cbn. rewrite registered_app, retries_app. by destruct e; cbn; rewrite ?app_nil_r.
Qed.
Lemma same_table_fuel : keeps same_table (out_of_fuel (X := X)).
Proof. by intros s. Qed.
#[local] Hint Resolve same_table_os same_table_os_ same_table_fuel : keeps.
#[local] Hint Extern 1 (keeps same_table (platform_note _)) => (by apply same_table_note) : keeps.
Lemma same_table_wait_loop pid timeout_ms fuel : forall elapsed_ms, keeps same_table (wait_loop (X := X) fuel pid timeout_ms elapsed_ms).
Proof. induction fuel as [|fuel IH]; intros elapsed_ms; cbn [wait_loop]; keeps_steps. Qed.
Lemma same_table_random fuel urandom size : forall buf, keeps same_table (random_loop (X := X) fuel urandom size buf).
Proof. induction fuel as [|fuel IH]; intros buf; cbn [random_loop]; unfold random_source; keeps_steps. Qed.
#[local] Hint Resolve same_table_wait_loop same_table_random : keeps.
Lemma same_table_random_bytes fuel size : keeps same_table (vw_platform_get_random_bytes (X := X) fuel size).
Proof. unfold vw_platform_get_random_bytes. keeps_steps. Qed.

(** A child that is to be remembered: it is, or the table is full. *)
Definition remembered (pid : Z) (s : platform X) : Prop := pid ∈ registered (pf_log s) \/ TableFull pid ∈ pf_log s.
Lemma register_ok pid : 0 < pid ->
  triple table_ok (vw_platform_register_unreaped (X := X) pid) (fun _ s => table_ok s /\ remembered pid s).
Proof.
  intros Hp s [Hn Hr]. unfold vw_platform_register_unreaped. replace (pid <=? 0) with false by lia. rewrite bind_run.
  cbn [gets fst snd]. case_bool_decide as Hlt.
  - set (s1 := snd _). assert (pf_unreaped s1 = pf_unreaped s ++ [pid]) as Hu by done.
    assert (pf_log s1 = pf_log s ++ [Registered pid]) as Hl by done. clearbody s1. unfold table_ok, remembered.
    rewrite Hu, Hl, registered_app, retries_app, length_app. cbn. rewrite app_nil_r. split_and!.
    + lia.
    + rewrite Hr, <- !app_assoc. apply Permutation_app_head. apply Permutation_app_comm.
    + left. apply elem_of_app. right. by left.
  - split; [by apply (same_table_ok (platform_note (TableFull pid))); [apply same_table_note|]|].
    right. change (TableFull pid ∈ pf_log s ++ [TableFull pid]). apply elem_of_app. right. by left.
Qed.
Lemma register_table pid : triple table_ok (vw_platform_register_unreaped (X := X) pid) (fun _ => table_ok).
Proof.
  destruct (Z.leb_spec pid 0) as [Hp|Hp].
  - unfold vw_platform_register_unreaped. replace (pid <=? 0) with true by lia. by intros s.
  - eapply triple_weaken; [by apply register_ok|done|]. by intros _ s [].
Qed.
Lemma spawn_ok path argv keep : triple table_ok (vw_platform_spawn_process (X := X) path argv keep) (fun _ => table_ok).
Proof.
  unfold vw_platform_spawn_process. eapply triple_bind; [apply reap_unreaped_ok|]. intros ?.
  apply triple_if; intros _; [by intros s|]. eapply triple_bind; [apply same_table_ok; auto with keeps|]. cbv beta. intros ok.
  apply triple_if; intros _; [by intros s|]. eapply triple_bind; [apply same_table_ok; auto with keeps|]. cbv beta. intros [pid|]; [|by intros s].
  eapply triple_bind; [apply same_table_ok; auto with keeps|]. intros ?.
  apply (triple_bind _ _ _ (fun _ => table_ok)); [|by intros ? s]. apply triple_if; intros _; [by intros s|].
  unfold vw_platform_reap_detached. eapply triple_bind; [apply same_table_ok; auto with keeps|]. cbv beta. intros memory.
  apply triple_if; intros _; [apply register_table|]. eapply triple_bind; [apply same_table_ok; auto with keeps|]. cbv beta. intros created.
  apply triple_if; intros _; [apply register_table|]. apply same_table_ok. auto with keeps.
Qed.

(** What a wait reports, it saw. *)
Lemma wait_loop_true pid timeout_ms fuel : forall elapsed_ms s,
  fst (wait_loop fuel pid timeout_ms elapsed_ms s) = true -> WaitedFor pid true ∈ pf_log (snd (wait_loop fuel pid timeout_ms elapsed_ms s)).
Proof.
  induction fuel as [|fuel IH]; intros elapsed_ms s; cbn [wait_loop]; [done|]. case_goal; [done|].
  rewrite bind_run, os_run. cbn [fst snd]. rewrite bind_run. cbn [fst snd]. set (ret := fst (waitpid _ _ _)).
  set (s1 := snd (platform_note _ _)). assert (WaitedFor pid (is_gone ret) ∈ pf_log s1) as Hin.
  { change (WaitedFor pid (is_gone ret) ∈ pf_log s ++ [WaitedFor pid (is_gone ret)]). apply elem_of_app. right. by left. }
  destruct (is_gone ret); [by intros _|]. case_goal; [done|]. rewrite bind_run. apply IH.
Qed.
Lemma wait_process_ok pid timeout_ms : 
  triple table_ok (vw_platform_wait_process (X := X) pid timeout_ms)
    (fun ok s => table_ok s /\ (ok = true -> WaitedFor pid true ∈ pf_log s)).
Proof.
  unfold vw_platform_wait_process. apply triple_if; intros _; [by intros s|]. eapply triple_bind; [apply reap_unreaped_ok|]. intros ?.
  intros s Hs. split; [by apply (same_table_ok (wait_loop _ pid timeout_ms 0)); [apply same_table_wait_loop|]|]. apply wait_loop_true.
Qed.
(** A child that is terminated is reaped, or remembered. *)
Definition accounted (pid : Z) (s : platform X) : Prop := WaitedFor pid true ∈ pf_log s \/ remembered pid s.
Lemma terminate_ok pid : triple table_ok (vw_platform_terminate_process (X := X) pid)
  (fun _ s => table_ok s /\ (0 < pid -> accounted pid s)).
Proof.
  unfold vw_platform_terminate_process. destruct (Z.ltb_spec 0 pid) as [Hp|Hp]; cbn [negb]; [|intros s Hs; split; [done|lia]].
  eapply triple_bind; [apply reap_unreaped_ok|]. intros ?. eapply triple_bind; [apply same_table_ok; auto with keeps|]. intros ?.
  eapply triple_bind; [apply same_table_ok; auto with keeps|]. intros ?. eapply triple_bind; [apply wait_process_ok|]. cbv beta.
  intros []; cbn [negb].
  - intros s [Hs Hw]. split; [done|]. intros _. left. by apply Hw.
  - intros s [Hs _]. destruct (register_ok pid Hp s Hs) as [Ht Hr]. split; [done|]. intros _. by right.
Qed.

(** ** Over a life *)

Inductive platform_call (s : platform X) : platform X -> Prop :=
  | calls_spawn path argv keep : platform_call s (snd (vw_platform_spawn_process path argv keep s))
  | calls_wait pid timeout_ms : platform_call s (snd (vw_platform_wait_process pid timeout_ms s))
  | calls_terminate pid : platform_call s (snd (vw_platform_terminate_process pid s))
  | calls_random fuel size : platform_call s (snd (vw_platform_get_random_bytes fuel size s)).
Lemma platform_calls_ok s s' : rtc platform_call s s' -> table_ok s -> table_ok s'.
Proof.
  induction 1 as [|s1 s2 s3 Hc _ IH]; [done|]. intros Hs. apply IH. destruct Hc.
  - by apply spawn_ok.
  - by apply wait_process_ok.
  - by apply terminate_ok.
  - revert Hs. apply same_table_ok, same_table_random_bytes.
Qed.

(** No child is forgotten: at any time the table holds the children that were
    registered and have not since been found gone, at most 16; each call tries each of them
    once; and a child that is terminated is reaped, or registered, or the table was full. *)
Theorem platform_children (x : X) (s : platform X) (pid : Z) :
  rtc platform_call (new_platform x) s ->
  (length (pf_unreaped s) <= VW_MAX_UNREAPED_PIDS)%nat
  /\ registered (pf_log s) ≡ₚ pf_unreaped s ++ gone_of (retries (pf_log s))
  /\ (exists tried, retries (pf_log (snd (vw_platform_reap_unreaped s))) = retries (pf_log s) ++ tried
        /\ fst <$> tried ≡ₚ pf_unreaped s)
  /\ (0 < pid -> accounted pid (snd (vw_platform_terminate_process pid s))).
Proof.
  intros Hr. assert (table_ok s) as Hs by (apply (platform_calls_ok _ _ Hr); by split; [cbn; lia|]).
  destruct Hs as [Hn Ht]. split_and!; [done|done| |by apply terminate_ok].
  destruct (reap_loop_spec (length (pf_unreaped s)) [] (pf_unreaped s) s eq_refl (le_n _)) as (tried & Hl & Hp & _).
  exists tried. split; [|done]. change (snd (vw_platform_reap_unreaped s)) with (snd (reap_loop (length (pf_unreaped s)) 0 s)).
  cbn [length] in Hl. by rewrite Hl, retries_app, retries_of_retried.
Qed.

(** *** Waiting *)

Lemma wait_loop_returns pid timeout_ms fuel : forall elapsed_ms s,
  0 <= elapsed_ms <= timeout_ms + 10 -> timeout_ms + 10 < 2 ^ 32 -> timeout_ms - elapsed_ms < 10 * (Z.of_nat fuel - 1) ->
  pf_stuck (snd (wait_loop fuel pid timeout_ms elapsed_ms s)) = pf_stuck s.
Proof.
  induction fuel as [|fuel IH]; intros elapsed_ms s He Ht Hf; [lia|]. cbn [wait_loop]. case_goal; [done|].
  rewrite bind_run, os_run. cbn [fst snd]. rewrite bind_run. cbn [fst snd]. case_goal; [done|]. case_goal; [done|].
  rewrite bind_run. rewrite u32_id by (unfold is_unsigned; lia). rewrite IH by lia. done.
Qed.
(** A wait of any time that is in use returns: its sleeps are no more than the time holds. *)
Lemma wait_process_returns pid timeout_ms s : 0 <= timeout_ms -> timeout_ms + 10 < 2 ^ 32 ->
  pf_stuck (snd (vw_platform_wait_process pid timeout_ms s)) = pf_stuck (snd (vw_platform_reap_unreaped s)) \/ pid <= 0.
Proof.
  intros H0 Ht. unfold vw_platform_wait_process. destruct (Z.leb_spec pid 0); [by right|left]. rewrite bind_run.
  apply wait_loop_returns; [lia|done|]. rewrite Z2Nat.id by (pose proof (Z.div_pos timeout_ms 10); lia).
  pose proof (Z.div_mod timeout_ms 10). pose proof (Z.mod_pos_bound timeout_ms 10). lia.
Qed.

(** *** Random bytes *)

(** What a source has given. *)
Definition random_reads (urandom : bool) (log : list platform_event) : list Z :=
  concat (omap (fun e => match e with RandomGot u bytes => if bool_decide (u = urandom) then Some bytes else None | _ => None end) log).
Lemma random_reads_snoc u log e : random_reads u (log ++ [e]) = random_reads u log ++
  match e with RandomGot u' bytes => if bool_decide (u' = u) then bytes else [] | _ => [] end.
Proof.
  unfold random_reads. rewrite omap_app, concat_app. f_equal. destruct e; try done. cbn. case_bool_decide; cbn; by rewrite ?app_nil_r.
Qed.
Lemma random_loop_spec fuel urandom size : forall buf s,
  zlen buf <= size ->
  let r := random_loop fuel urandom size buf s in
  exists more, fst r = buf ++ more /\ zlen (fst r) <= size
    /\ random_reads (bool_decide (urandom <> None)) (pf_log (snd r)) = random_reads (bool_decide (urandom <> None)) (pf_log s) ++ more
    /\ random_reads (negb (bool_decide (urandom <> None))) (pf_log (snd r)) = random_reads (negb (bool_decide (urandom <> None))) (pf_log s).
Proof.
  set (u := bool_decide (urandom <> None)). induction fuel as [|fuel IH]; intros buf s Hb; cbv zeta; cbn [random_loop];
    [exists []; by rewrite !app_nil_r|].
  case_goal; [exists []; by rewrite !app_nil_r|]. rewrite bind_run.
  assert (pf_log (snd (random_source urandom (size - zlen buf) s)) = pf_log s) as Hl
    by (unfold random_source; destruct urandom; by rewrite os_run).
  destruct (random_source urandom (size - zlen buf) s) as [[[|b bytes]| |[]] s1]; cbn [fst snd] in Hl |- *;
    try (exists []; cbn; rewrite !app_nil_r; by rewrite Hl).
  - rewrite bind_run. fold u. set (got := ztake (size - zlen buf) (b :: bytes)). set (s2 := snd (platform_note _ s1)).
    assert (pf_log s2 = pf_log s ++ [RandomGot u got]) as Hl2 by (rewrite <- Hl; done). clearbody s2.
    destruct (IH (buf ++ got) s2) as (more & He & Hz & Hr & Ho).
    { rewrite zlen_app. pose proof (zlen_ztake_le (size - zlen buf) (b :: bytes)). unfold got. lia. }
    exists (got ++ more). rewrite app_assoc. split_and!; [done|done| |].
    + rewrite Hr, Hl2, random_reads_snoc, bool_decide_eq_true_2 by done. by rewrite <- app_assoc.
    + rewrite Ho, Hl2, random_reads_snoc, bool_decide_eq_false_2 by (by destruct u). by rewrite app_nil_r.
  - destruct (IH buf s1 Hb) as (more & He & Hz & Hr & Ho). exists more. rewrite Hl in Hr, Ho. by split_and!.
Qed.

(** Random bytes are what one source of the system gave, all of them and in order, or
    there are none: a buffer that a source filled in part is never handed out. *)
Theorem random_bytes_whole (fuel : nat) (size : Z) (x : X) :
  let r := vw_platform_get_random_bytes fuel size (new_platform x) in
  match fst r with
  | Some buf => 0 < zlen buf /\ zlen buf = size /\ exists urandom, buf = random_reads urandom (pf_log (snd r))
  | None => True
  end.
Proof.
  cbv zeta. unfold vw_platform_get_random_bytes. destruct (Z.leb_spec size 0) as [|Hs]; [done|]. rewrite bind_run.
  destruct (random_loop_spec fuel None size [] (new_platform x) ltac:(rewrite zlen_nil; lia)) as (buf & He & _ & Hr & Ho).
  set (r1 := random_loop fuel None size [] (new_platform x)) in *. cbn in He, Hr, Ho. rewrite He.
  destruct (Z.eqb_spec (zlen buf) size) as [Hz|]; [cbn; split_and!; [lia|done|by exists false]|].
  rewrite bind_run, os_run. cbn [fst snd]. destruct (fst (open_urandom _)) as [fd|]; [|done]. rewrite bind_run. cbn [fst snd].
  set (s2 := snd (platform_note _ _)). assert (random_reads true (pf_log s2) = []) as H2.
  { change (random_reads true (pf_log (snd r1) ++ [UrandomOpened fd]) = []). by rewrite random_reads_snoc, Ho. }
  clearbody s2. rewrite bind_run.
  destruct (random_loop_spec fuel (Some fd) size [] s2 ltac:(rewrite zlen_nil; lia)) as (buf2 & He2 & _ & Hr2 & _).
  set (r2 := random_loop fuel (Some fd) size [] s2) in *. cbn in He2, Hr2. rewrite H2 in Hr2. rewrite He2.
  rewrite !bind_run. cbn [fst snd mret M_ret].
  destruct (Z.eqb_spec (zlen buf2) size) as [Hz|]; [|done]. split_and!; [lia|done|]. exists true.
  change (buf2 = random_reads true (pf_log (snd r2) ++ [UrandomClosed fd])). by rewrite random_reads_snoc, app_nil_r.
Qed.
End properties.

(** ** Children that do not end *)

#[global] Instance stubborn_env : PlatformEnv unit := {|
  waitpid := fun x _ _ => (StillRuns, x);
  kill := fun x _ => x;
  sleep_ms := fun x _ => x;
  access := fun x _ => (true, x);
  posix_spawn := fun x _ _ => (Some 7, x);
  malloc := fun x => (false, x);
  start_reaper := fun x _ => (false, x);
  getrandom := fun x n => (RandomBytes (zreplicate n 5), x);
  open_urandom := fun x => (None, x);
  read_urandom := fun x _ _ => (RandomNone, x);
  close := fun x _ => x;
  clock_realtime := fun x => (None, x);
  clock_monotonic := fun x => (None, x);
  clock_monotonic_raw := fun x => (None, x);
  time := fun x => (0, x)
|}.
(** With 16 such children in the table a 17th that is killed is not remembered. *)
Example seventeenth_child_forgotten :
  let s := snd (for_each (seqZ 1 17) vw_platform_terminate_process (new_platform tt)) in
  pf_unreaped s = seqZ 1 16 /\ TableFull 17 ∈ pf_log s.
Proof.
  split; [vm_compute; reflexivity|]. vm_decide.
Qed.
Lemma platform_children_witness :
  accounted 9 (snd (vw_platform_terminate_process 9 (snd (vw_platform_spawn_process (str "/w") [] false (new_platform tt))))).
Proof.
  refine (proj2 (proj2 (proj2 (platform_children tt _ 9 (rtc_once _ _ (calls_spawn _ (str "/w") [] false))))) _).
  reflexivity.
Defined.
