(* ===== verification/WorkerClient.v ===== *)
(** * The plugin's side of the connection

    [src/plugin/src/vw_worker_client.c]: launching the worker, the HELLO handshake,
    starting and steering a session, and receiving the worker's frames. The
    transport, the clock, the random source and the processes are the operations of
    [ClientEnv]; what the worker sends is a script of pieces and timeouts after
    which the connection ends. Log calls are left out and memory is available. *)

From stdpp Require Import relations.
From S2P Require Import Prelude.
From S2P Require Import CString.
From S2P Require Import Float32.
From S2P Require Import ProtocolTypes.
From S2P Require Import Validate.
From S2P Require Import Codec.
From S2P Require Import State.
From S2P Require Import SpscQueue.
From S2P Require Import AudioCapture.
From S2P Require Import WorkerConfig.
From S2P Require Import WorkerReader.
#[local] Open Scope Z_scope.

Definition VW_CLIENT_VERSION : list Z := str "1.6.0".
Definition VW_WORKER_CLIENT_RETRY_COUNT : nat := 40.
Definition VW_HANDSHAKE_TIMEOUT_US : Z := 5 * 1000 * 1000.
Definition VW_MSG_STARTED_PAYLOAD_BYTES : Z := VW_SESSION_ID_BYTES + 1.

(** [0.05f] and [16.0f] *)
Definition f32_min_rate : Z := 0x3D4CCCCD.
Definition f32_sixteen : Z := 0x41800000.

Inductive recv_status := VW_IPC_RECV_OK | VW_IPC_RECV_TIMEOUT | VW_IPC_RECV_FATAL.

(** What the client calls outside of the program, on the state [X] of it all. *)
Class ClientEnv (X : Type) := {
  pipe_send : X -> list Z -> bool * X;
  pipe_close : X -> X;
  (** A connection comes with what will arrive on it. *)
  pipe_connect : X -> list Z -> option (list recv) * X;
  client_now : X -> Z * X;
  random_bytes : X -> Z -> option (list Z) * X;
  spawn_process : X -> list Z -> list (list Z) -> bool * X;
  wait_process : X -> Z -> bool * X;
  terminate_process : X -> X;
  close_process : X -> X;
  sleep_ms : X -> Z -> X
}.

(** [c_pipe]: [pipe_handle] is not NULL. [c_inbox] is what has yet to arrive and
    [c_sent] what was handed to the transport, with its verdict. *)
Record client {X : Type} := mk_client {
  c_pipe : bool;
  c_process : bool;
  c_session_id : list Z;                (* uint8_t[16] *)
  c_sequence : Z;                       (* uint64_t *)
  c_last_worker_sequence : Z;           (* uint64_t *)
  c_worker_sequence_valid : bool;
  c_session_active : bool;
  c_source_active : bool;
  c_capabilities : Z;                   (* uint32_t *)
  c_minor : Z;                          (* uint16_t *)
  c_model_id : list Z;                  (* char[64] *)
  c_source_url : list Z;                (* char[1024] *)
  c_language : list Z;                  (* char[16] *)
  c_translation_configured : bool;
  c_translate_enabled : bool;
  c_translate_source_lang : list Z;     (* char[16] *)
  c_translate_target_lang : list Z;     (* char[16] *)
  c_translate_mode : Z;                 (* uint8_t *)
  c_inbox : list recv;
  c_sent : list (list Z * bool);
  c_ext : X
}.
Arguments client X : clear implicits.
Arguments mk_client {X}.

#[global] Instance settable_client {X} : Settable (client X) :=
  fun s => mk_client (c_pipe s) (c_process s) (c_session_id s) (c_sequence s)
  (c_last_worker_sequence s) (c_worker_sequence_valid s) (c_session_active s) (c_source_active s)
  (c_capabilities s) (c_minor s) (c_model_id s) (c_source_url s) (c_language s)
  (c_translation_configured s) (c_translate_enabled s) (c_translate_source_lang s)
  (c_translate_target_lang s) (c_translate_mode s) (c_inbox s) (c_sent s) (c_ext s).
#[global] Instance set_c_pipe {X} : Setter (@c_pipe X) := ltac:(setter).
#[global] Instance set_c_process {X} : Setter (@c_process X) := ltac:(setter).
#[global] Instance set_c_session_id {X} : Setter (@c_session_id X) := ltac:(setter).
#[global] Instance set_c_sequence {X} : Setter (@c_sequence X) := ltac:(setter).
#[global] Instance set_c_last_worker_sequence {X} : Setter (@c_last_worker_sequence X) := ltac:(setter).
#[global] Instance set_c_worker_sequence_valid {X} : Setter (@c_worker_sequence_valid X) := ltac:(setter).
#[global] Instance set_c_session_active {X} : Setter (@c_session_active X) := ltac:(setter).
#[global] Instance set_c_source_active {X} : Setter (@c_source_active X) := ltac:(setter).
#[global] Instance set_c_capabilities {X} : Setter (@c_capabilities X) := ltac:(setter).
#[global] Instance set_c_minor {X} : Setter (@c_minor X) := ltac:(setter).
#[global] Instance set_c_model_id {X} : Setter (@c_model_id X) := ltac:(setter).
#[global] Instance set_c_source_url {X} : Setter (@c_source_url X) := ltac:(setter).
#[global] Instance set_c_language {X} : Setter (@c_language X) := ltac:(setter).
#[global] Instance set_c_translation_configured {X} : Setter (@c_translation_configured X) := ltac:(setter).
#[global] Instance set_c_translate_enabled {X} : Setter (@c_translate_enabled X) := ltac:(setter).
#[global] Instance set_c_translate_source_lang {X} : Setter (@c_translate_source_lang X) := ltac:(setter).
#[global] Instance set_c_translate_target_lang {X} : Setter (@c_translate_target_lang X) := ltac:(setter).
#[global] Instance set_c_translate_mode {X} : Setter (@c_translate_mode X) := ltac:(setter).
#[global] Instance set_c_inbox {X} : Setter (@c_inbox X) := ltac:(setter).
#[global] Instance set_c_sent {X} : Setter (@c_sent X) := ltac:(setter).
#[global] Instance set_c_ext {X} : Setter (@c_ext X) := ltac:(setter).

Section client.
Context {X : Type} `{!ClientEnv X}.
#[local] Abbreviation C := (M (client X)).

Definition calls {A} (f : X -> A * X) : C A := fun c =>
  let '(a, x) := f (c_ext c) in (a, c <| c_ext := x |>).
Definition now : C Z := calls client_now.

(** ** Transport *)

(** The next piece, at most [n] bytes of it; the time to wait is the environment's. *)
Definition pipe_receive (n : Z) : C recv := fun c =>
  match c_inbox c with
  | [] => (RecvFatal, c)
  | Received bytes :: inbox =>
      if zlen bytes <=? n then (Received bytes, c <| c_inbox := inbox |>)
      else (Received (ztake n bytes), c <| c_inbox := Received (zdrop n bytes) :: inbox |>)
  | res :: inbox => (res, c <| c_inbox := inbox |>)
  end.
(** The fuel of the loops that receive: every call takes a byte or an event off. *)
Definition inbox_size (inbox : list recv) : nat :=
  fold_right (fun res n => S (length (received res)) + n)%nat 0%nat inbox.
Definition receive_fuel : C nat := gets (fun c => S (inbox_size (c_inbox c))).

Definition timed_out (got : list Z) : recv_status :=
  if zlen got =? 0 then VW_IPC_RECV_TIMEOUT else VW_IPC_RECV_FATAL.
Fixpoint receive_loop (fuel : nat) (len deadline_us : Z) (got : list Z) : C (recv_status * list Z) :=
  match fuel with
  | O => mret (VW_IPC_RECV_FATAL, got)
  | S fuel =>
      if len <=? zlen got then mret (VW_IPC_RECV_OK, got)
      else
        now_us ← now;
        if now_us <? 0 then mret (VW_IPC_RECV_FATAL, got)
        else if deadline_us <=? now_us then mret (timed_out got, got)
        else
          res ← pipe_receive (len - zlen got);
          match res with
          | RecvTimeout =>
              now_us ← now;
              if deadline_us <=? now_us then mret (timed_out got, got)
              else receive_loop fuel len deadline_us got
          | RecvFatal => mret (VW_IPC_RECV_FATAL, got)
          | Received bytes => receive_loop fuel len deadline_us (got ++ bytes)
          end
  end.
Definition receive_all (len deadline_us : Z) : C (recv_status * list Z) :=
  fuel ← receive_fuel; receive_loop (S fuel) len deadline_us [].

(** [None]: the clock failed or the deadline does not fit. *)
Definition vw_worker_client_make_deadline (duration_us : Z) : C (option Z) :=
  if duration_us <? 0 then mret None
  else
    now_us ← now;
    mret (if (now_us <? 0) || (INT64_MAX - now_us <? duration_us) then None else Some (now_us + duration_us)).

Definition vw_worker_client_drop_transport : C unit :=
  pipe ← gets c_pipe;
  when pipe
    (calls (fun x => (tt, pipe_close x)) ;;
     modify (fun c => c <| c_pipe := false |> <| c_session_active := false |>)).

Definition client_bytes (bytes : list Z) : C bool :=
  ok ← calls (fun x => pipe_send x bytes);
  modify (fun c => c <| c_sent := c_sent c ++ [(bytes, ok)] |>) ;;
  mret ok.

(** The next frame's header: [++client->sequence]. *)
Definition client_header (type payload_length : Z) : C vw_frame_header_t :=
  modify (fun c => c <| c_sequence := u64 (c_sequence c + 1) |>) ;;
  sequence ← gets c_sequence;
  mret (mk_header VW_PROTOCOL_MAGIC VW_PROTOCOL_VERSION_MAJOR type (u32 payload_length) sequence).

(** [if (!vw_ipc_send(header) || !vw_ipc_send(payload)) { drop; return false; }] *)
Definition send_or_drop (hdr : vw_frame_header_t) (payload : list Z) : C bool :=
  match vw_protocol_encode_header hdr sizeof_header with
  | None => mret false
  | Some hdr_buf =>
      ok1 ← client_bytes hdr_buf;
      ok ← (if ok1 : bool then client_bytes payload else mret false);
      when (negb ok) vw_worker_client_drop_transport ;;
      mret ok
  end.
Definition client_message (m : message) (buffer_size : Z) : C bool :=
  match vw_protocol_encode_payload m buffer_size with
  | None => mret false
  | Some payload => hdr ← client_header (message_type m) (zlen payload); send_or_drop hdr payload
  end.

(** Receive a payload, or drop the transport. *)
Definition receive_payload (len deadline_us : Z) : C (option (list Z)) :=
  '(status, payload) ← receive_all len deadline_us;
  match status with
  | VW_IPC_RECV_OK => mret (Some payload)
  | _ => vw_worker_client_drop_transport ;; mret None
  end.

(** ** Launching the worker *)

Definition eff_backend (backend : option (list Z)) : list Z :=
  match backend with Some ((_ :: _) as b) => b | _ => str "auto" end.
Definition eff_language (language : option (list Z)) : list Z :=
  match language with Some ((_ :: _) as l) => l | _ => str "en" end.
Definition eff_threads (n_threads : Z) : Z := if (n_threads <? 1) || (16 <? n_threads) then 4 else n_threads.

Definition launch_argv (executable_path endpoint_name auth_token : list Z)
    (model_path backend language : option (list Z)) (n_threads gpu_device : Z)
    (model_dir : option (list Z)) (logging_enabled : bool) : list (list Z) :=
  [executable_path; str "--pipe"; endpoint_name; str "--token"; token_to_hex auth_token]
  ++ match model_path with Some m => [str "--model"; m] | None => [] end
  ++ [str "--backend"; eff_backend backend]
  ++ (if 0 <=? gpu_device then [str "--gpu-device"; decimal gpu_device] else [])
  ++ [str "--language"; eff_language language; str "--n-threads"; decimal (eff_threads n_threads)]
  ++ match model_dir with Some ((_ :: _) as d) => [str "--model-dir"; d] | _ => [] end
  ++ (if logging_enabled then [str "--enable-logging"] else []).

Fixpoint connect_loop (retries : nat) (endpoint_name : list Z) (x : X) : option (list recv) * X :=
  match retries with
  | O => (None, x)
  | S retries =>
      let '(inbox, x) := pipe_connect x endpoint_name in
      match inbox with
      | Some inbox => (Some inbox, x)
      | None => connect_loop retries endpoint_name (sleep_ms x 50)
      end
  end.

(** Wait for a process to exit by itself, or terminate it. *)
Definition reap_process (timeout_ms : Z) (x : X) : X :=
  let '(exited, x) := wait_process x timeout_ms in
  if exited : bool then close_process x else terminate_process x.

Definition hello_message (auth_token : list Z) : message :=
  HELLO (mk_hello VW_PROTOCOL_VERSION_MAJOR VW_PROTOCOL_VERSION_MAJOR auth_token 5 (Some VW_CLIENT_VERSION)).

(** The acknowledgement's payload. *)
Definition accept_ack (payload : list Z) : C bool :=
  match vw_protocol_decode_payload VW_MSG_HELLO_ACK payload with
  | Some (HELLO_ACK ack) =>
      if vw_protocol_validate_payload (HELLO_ACK ack)
         && (ack_selected_major ack =? VW_PROTOCOL_VERSION_MAJOR)
         && negb (Z.land (ack_capability_flags ack) VW_CAPABILITY_PCM_S16LE_16K_MONO =? 0)
      then
        modify (fun c => c <| c_capabilities := ack_capability_flags ack |> <| c_minor := ack_selected_minor ack |>) ;;
        mret true
      else mret false
  | _ => mret false
  end.

Definition handshake (auth_token : list Z) : C bool :=
  match vw_protocol_encode_payload (hello_message auth_token) 256 with
  | None => mret false
  | Some payload =>
      match vw_protocol_encode_header (mk_header VW_PROTOCOL_MAGIC VW_PROTOCOL_VERSION_MAJOR VW_MSG_HELLO
              (u32 (zlen payload)) 1) sizeof_header with
      | None => mret false
      | Some hdr_buf =>
          ok1 ← client_bytes hdr_buf;
          ok2 ← (if ok1 : bool then client_bytes payload else mret false);
          if negb ok2 then mret false
          else
            deadline ← vw_worker_client_make_deadline VW_HANDSHAKE_TIMEOUT_US;
            match deadline with
            | None => mret false
            | Some deadline_us =>
                '(status, ack_hdr_buf) ← receive_all sizeof_header deadline_us;
                match status, vw_protocol_decode_header ack_hdr_buf with
                | VW_IPC_RECV_OK, Some ack_hdr =>
                    if negb (hdr_type ack_hdr =? VW_MSG_HELLO_ACK)
                       || (hdr_payload_length ack_hdr =? 0) || (1024 <? hdr_payload_length ack_hdr)
                    then mret false
                    else
                      '(status, payload) ← receive_all (hdr_payload_length ack_hdr) deadline_us;
                      match status with
                      | VW_IPC_RECV_OK =>
                          ack_ok ← accept_ack payload;
                          mret (ack_ok && (hdr_major ack_hdr =? VW_PROTOCOL_VERSION_MAJOR))
                      | _ => mret false
                      end
                | _, _ => mret false
                end
            end
      end
  end.

Definition client_start (process : bool) (language : list Z) (inbox : list recv) (x : X) : client X :=
  mk_client true process (zreplicate VW_SESSION_ID_BYTES 0) 1 0 false false false 0 0 [] []
    (ztake 15 language) false false [] [] 0 inbox [] x.

Definition vw_worker_client_disconnect (c : client X) : X :=
  let x := if c_pipe c then pipe_close (c_ext c) else c_ext c in
  if c_process c then reap_process 5000 x else x.

Definition vw_worker_client_launch_and_connect_ex (executable_path : option (list Z)) (endpoint_name auth_token : list Z)
    (model_path backend language : option (list Z)) (n_threads gpu_device : Z)
    (model_dir : option (list Z)) (logging_enabled : bool) (x : X) : option (client X) * X :=
  let '(spawned, x) :=
    match executable_path with
    | None => (Some false, x)
    | Some path =>
        let '(ok, x) := spawn_process x path (launch_argv path endpoint_name auth_token model_path backend language
                                                n_threads gpu_device model_dir logging_enabled) in
        (if ok : bool then Some true else None, x)
    end in
  match spawned with
  | None => (None, x)
  | Some process =>
      let '(inbox, x) := connect_loop VW_WORKER_CLIENT_RETRY_COUNT endpoint_name x in
      match inbox with
      | None => (None, if process : bool then reap_process 1000 x else x)
      | Some inbox =>
          let '(ok, c) := handshake auth_token (client_start process (eff_language language) inbox x) in
          if ok : bool then (Some c, c_ext c) else (None, vw_worker_client_disconnect c)
      end
  end.

(** ** Starting a session *)

Definition sizeof_model_id : Z := 64.
Definition sizeof_source_url : Z := 1024.

Definition start_payload (session_id language : list Z) (timeline_origin_pts_us : Z)
    (model_id source_url : option (list Z)) : vw_msg_start_t :=
  mk_start session_id timeline_origin_pts_us 16000 1 VW_SAMPLE_FORMAT_S16LE
    (cpad sizeof_model_id (default [] model_id))
    (cpad 16 (ztake 15 (eff_language (Some language))))
    (match source_url with Some _ => VW_SOURCE_LOCAL_FILE | None => VW_SOURCE_LIVE_AUDIO end)
    (u16 (zlen (default [] source_url))) (cpad sizeof_source_url (default [] source_url)).

(** What a reply leaves to the loop: an answer, or to wait for the next frame. *)
Definition fail_start : C (option bool) := vw_worker_client_drop_transport ;; mret (Some false).

Definition stale_sequence (c : client X) (sequence : Z) : bool :=
  c_worker_sequence_valid c && (sequence <=? c_last_worker_sequence c).
Definition note_sequence (sequence : Z) : C unit :=
  modify (fun c => c <| c_last_worker_sequence := sequence |> <| c_worker_sequence_valid := true |>).

(** The payload of a STARTED: its [source_active], if it is one for the session. *)
Definition started_source (session_id payload : list Z) : option bool :=
  match vw_protocol_decode_payload VW_MSG_STARTED payload with
  | Some (STARTED m) =>
      if (zlen payload =? VW_MSG_STARTED_PAYLOAD_BYTES) && negb (bool_decide (started_session_id m = session_id))
         || negb (zlen payload =? VW_MSG_STARTED_PAYLOAD_BYTES) && negb (zlen payload =? 1)
      then None
      else Some (started_source_active m =? VW_SOURCE_ACTIVE_ACTIVE)
  | _ => None
  end.

Definition session_started (start : vw_msg_start_t) : C (option bool) :=
  modify (fun c => c <| c_session_active := true |> <| c_model_id := cstr (start_model_id start) |>
                     <| c_source_url := cstr (start_source_url start) |>) ;;
  mret (Some true).

Definition on_started (start : vw_msg_start_t) (resp_hdr : vw_frame_header_t) (deadline_us : Z) : C (option bool) :=
  c ← gets (fun c => c);
  if stale_sequence c (hdr_sequence resp_hdr) then fail_start
  else
    note_sequence (hdr_sequence resp_hdr) ;;
    if (6 <=? c_minor c) && negb (hdr_payload_length resp_hdr =? VW_MSG_STARTED_PAYLOAD_BYTES) then fail_start
    else if 0 <? hdr_payload_length resp_hdr then
      payload ← receive_payload (hdr_payload_length resp_hdr) deadline_us;
      match payload with
      | None => mret (Some false)
      | Some payload =>
          match started_source (c_session_id c) payload with
          | None => fail_start
          | Some source_active =>
              modify (fun c => c <| c_source_active := source_active |>) ;; session_started start
          end
      end
    else modify (fun c => c <| c_source_active := false |>) ;; session_started start.

Definition is_translation_error (code : Z) : bool :=
  (code =? E_TRANSLATION_PROVIDER) || (code =? E_TRANSLATION_TRANSPORT) || (code =? E_TRANSLATION_PARSE)
  || (code =? E_TRANSLATION_DEADLINE) || (code =? E_TRANSLATION_LOCAL).
(** An error that does not end the handshake: a late translation diagnostic of an
    earlier session, or the fallback to live audio. *)
Definition passing_error (session_id : list Z) (err : vw_msg_error_t) : bool :=
  negb (err_recoverable err =? 0)
  && (is_translation_error (err_error_code err) && negb (bool_decide (err_session_id err = session_id))
      || (err_error_code err =? E_SOURCE_OPEN)).

Definition on_start_error (resp_hdr : vw_frame_header_t) (deadline_us : Z) : C (option bool) :=
  if 0 <? hdr_payload_length resp_hdr then
    payload ← receive_payload (hdr_payload_length resp_hdr) deadline_us;
    c ← gets (fun c => c);
    match payload with
    | None => mret (Some false)
    | Some payload =>
        match vw_protocol_decode_payload VW_MSG_ERROR payload with
        | Some (ERROR err) =>
            if negb (vw_protocol_validate_payload (ERROR err)) then fail_start
            else if passing_error (c_session_id c) err then mret None
            else mret (Some false)
        | _ => fail_start
        end
    end
  else mret (Some false).

(** The body of the loop that waits for STARTED. *)
Definition start_reply (start : vw_msg_start_t) (deadline_us : Z) : C (option bool) :=
  '(status, resp_hdr_buf) ← receive_all sizeof_header deadline_us;
  match status, vw_protocol_decode_header resp_hdr_buf with
  | VW_IPC_RECV_OK, Some resp_hdr =>
      if hdr_type resp_hdr =? VW_MSG_STARTED then on_started start resp_hdr deadline_us
      else if hdr_type resp_hdr =? VW_MSG_ERROR then on_start_error resp_hdr deadline_us
      else if 0 <? hdr_payload_length resp_hdr then
        payload ← receive_payload (hdr_payload_length resp_hdr) deadline_us;
        mret (match payload with Some _ => None | None => Some false end)
      else mret None
  | _, _ => fail_start
  end.
Fixpoint start_wait (fuel : nat) (start : vw_msg_start_t) (deadline_us : Z) : C bool :=
  match fuel with
  | O => vw_worker_client_drop_transport ;; mret false
  | S fuel =>
      now_us ← now;
      if deadline_us <=? now_us then vw_worker_client_drop_transport ;; mret false
      else
        reply ← start_reply start deadline_us;
        match reply with
        | Some ok => mret ok
        | None => start_wait fuel start deadline_us
        end
  end.

Definition vw_worker_client_start_session (timeline_origin_pts_us : Z) (model_id source_url : option (list Z)) : C bool :=
  pipe ← gets c_pipe;
  if negb pipe then mret false
  else if sizeof_model_id <=? zlen (default [] model_id) then mret false
  else
    modify (fun c => c <| c_session_active := false |> <| c_source_active := false |>) ;;
    id ← calls (fun x => random_bytes x VW_SESSION_ID_BYTES);
    match id with
    | None => mret false
    | Some id =>
        modify (fun c => c <| c_session_id := id |>) ;;
        if sizeof_source_url <=? zlen (default [] source_url) then mret false
        else
          c ← gets (fun c => c);
          let start := start_payload id (c_language c) timeline_origin_pts_us model_id source_url in
          sent ← client_message (START_SESSION start) 2048;
          if negb sent then mret false
          else
            deadline ← vw_worker_client_make_deadline 5000000;
            match deadline with
            | None => mret false
            | Some deadline_us => fuel ← receive_fuel; start_wait fuel start deadline_us
            end
    end.

(** ** Steering it *)

Definition eff_rate (playback_rate : Z) : Z :=
  let rate := if f32_gt_const playback_rate 0 then playback_rate else f32_one in
  if f32_ltb rate f32_min_rate then f32_min_rate
  else if f32_gt_const rate 16 then f32_sixteen else rate.

Definition vw_worker_client_send_position_frame (current_pts_us input_time_us playback_rate flags : Z) : C bool :=
  c ← gets (fun c => c);
  client_message (POSITION (mk_position (c_session_id c) current_pts_us input_time_us (eff_rate playback_rate) flags)) 64.

(** PAUSE, RESUME and STOP: both writes are attempted. *)
Definition send_control_frame (wrap : vw_msg_control_t -> message) (reason : Z) : C bool :=
  c ← gets (fun c => c);
  if negb (c_pipe c) then mret false
  else
    let m := wrap (mk_control (c_session_id c) reason) in
    match vw_protocol_encode_payload m 64 with
    | None => mret false
    | Some payload =>
        hdr ← client_header (message_type m) (zlen payload);
        match vw_protocol_encode_header hdr sizeof_header with
        | None => mret false
        | Some hdr_buf =>
            ok1 ← client_bytes hdr_buf;
            ok2 ← client_bytes payload;
            if ok1 && ok2 then mret true else vw_worker_client_drop_transport ;; mret false
        end
    end.

Definition translate_fields (enabled : bool) (source_lang target_lang : list Z) (mode : Z) (c : client X) : client X :=
  c <| c_translation_configured := true |> <| c_translate_enabled := enabled |>
    <| c_translate_source_lang := ztake 15 source_lang |> <| c_translate_target_lang := ztake 15 target_lang |>
    <| c_translate_mode := mode |>.

Definition vw_worker_client_send_translate_ctrl (enabled : bool) (source_lang target_lang : option (list Z)) (mode : Z)
  : C bool :=
  c ← gets (fun c => c);
  let source := default (str "auto") source_lang in
  let target := default (str "en") target_lang in
  if negb (c_pipe c) then mret false
  else if Z.land (c_capabilities c) VW_CAPABILITY_TRANSLATION =? 0 then
    when (negb enabled) (modify (translate_fields false source target mode)) ;; mret (negb enabled)
  else
    ok ← client_message (TRANSLATE_CTRL (mk_translate_ctrl (c_session_id c) (if enabled then 1 else 0)
           (cpad 16 (ztake 15 source)) (cpad 16 (ztake 15 target)) mode)) VW_MSG_TRANSLATE_CTRL_PAYLOAD_BYTES;
    when ok (modify (translate_fields enabled source target mode)) ;; mret ok.

(** A seek of a source session ends its caption epoch and starts another. *)
Definition restart_epoch (c : client X) (current_pts_us : Z) : C bool :=
  stopped ← send_control_frame STOP_SESSION VW_CTRL_REASON_SEEK_DISCONTINUITY;
  if negb stopped then mret false
  else
    modify (fun c => c <| c_session_active := false |> <| c_source_active := false |>) ;;
    started ← vw_worker_client_start_session current_pts_us
                (if 0 <? zlen (c_model_id c) then Some (c_model_id c) else None) (Some (c_source_url c));
    if negb started then mret false
    else
      source_active ← gets c_source_active;
      if negb source_active then vw_worker_client_drop_transport ;; mret false
      else
        capabilities ← gets c_capabilities;
        if c_translation_configured c && negb (Z.land capabilities VW_CAPABILITY_TRANSLATION =? 0)
        then vw_worker_client_send_translate_ctrl (c_translate_enabled c) (Some (c_translate_source_lang c))
               (Some (c_translate_target_lang c)) (c_translate_mode c)
        else mret true.

Definition vw_worker_client_send_position (current_pts_us input_time_us playback_rate flags : Z) : C bool :=
  c ← gets (fun c => c);
  if negb (c_pipe c) || negb (c_session_active c) then mret false
  else if negb (Z.land flags VW_POSITION_FLAG_SEEK =? 0) && c_source_active c && (0 <? zlen (c_source_url c)) then
    ok ← restart_epoch c current_pts_us;
    if negb ok then mret false
    else vw_worker_client_send_position_frame current_pts_us input_time_us playback_rate
           (Z.ldiff flags VW_POSITION_FLAG_SEEK)
  else vw_worker_client_send_position_frame current_pts_us input_time_us playback_rate flags.

Definition vw_worker_client_send_audio (chunk : vw_audio_chunk_t) : C bool :=
  c ← gets (fun c => c);
  if negb (c_pipe c) || negb (c_session_active c) then mret false
  else
    client_message (AUDIO_PCM (mk_audio (c_session_id c) (chunk_start_pts_us chunk) (chunk_duration_us chunk)
      (chunk_bytes chunk) (Some (s16_bytes (chunk_pcm chunk))))) (2 * VW_AUDIO_CHUNK_MAX_PCM_BYTES).

(** The request carries no session. *)
Definition vw_worker_client_send_model_ctrl (action : Z) (model_id : option (list Z)) : C bool :=
  pipe ← gets c_pipe;
  if negb pipe then mret false
  else if 32 <=? zlen (default [] model_id) then mret false
  else client_message (MODEL_CTRL (mk_model_ctrl (zreplicate VW_SESSION_ID_BYTES 0) action
                         (cpad 32 (default [] model_id)))) 128.

Definition in_client_session (m : C unit) : C unit :=
  c ← gets (fun c => c); if negb (c_pipe c) || negb (c_session_active c) then skip else m.
Definition vw_worker_client_stop_session (reason : Z) : C unit :=
  in_client_session
    (sent ← send_control_frame STOP_SESSION (if reason =? 0 then VW_CTRL_REASON_USER_STOP else reason);
     when sent (modify (fun c => c <| c_session_active := false |>))).
Definition vw_worker_client_pause_session : C unit :=
  in_client_session (send_control_frame PAUSE VW_CTRL_REASON_USER_PAUSE ;; skip).
Definition vw_worker_client_resume_session : C unit :=
  in_client_session (send_control_frame RESUME VW_CTRL_REASON_USER_RESUME ;; skip).

Definition vw_worker_client_shutdown : C unit :=
  pipe ← gets c_pipe;
  when pipe
    (hdr ← client_header VW_MSG_SHUTDOWN 0;
     match vw_protocol_encode_header hdr sizeof_header with
     | None => skip
     | Some hdr_buf => client_bytes hdr_buf ;; skip
     end).

Definition vw_worker_client_is_source_active (c : client X) : bool := c_session_active c && c_source_active c.

(** ** Receiving *)

(** The texts are copied out of the payload. *)
Definition owned_segment (seg : vw_caption_segment_t) : vw_caption_segment_t :=
  let translated :=
    match seg_translated_text_utf8 seg with
    | Some t => if 0 <? seg_translated_text_bytes seg then Some (ztake (seg_translated_text_bytes seg) t) else None
    | None => None
    end in
  mk_segment (seg_session_id seg) (seg_segment_id seg) (seg_start_pts_us seg) (seg_end_pts_us seg)
    (seg_is_final seg) (Some (ztake (seg_text_bytes seg) (default [] (seg_text_utf8 seg)))) (seg_text_bytes seg)
    translated (match translated with Some _ => seg_translated_text_bytes seg | None => 0 end) (seg_translation_attempted seg)
    (seg_translation_latency_us seg) (seg_translation_tier seg).

(** The message of a frame, for the types a worker sends. *)
Definition received_message (type : Z) (payload : list Z) : option message :=
  m ← vw_protocol_decode_payload type payload;
  if negb (vw_protocol_validate_payload m) then None
  else match m with
  | CAPTION_SEGMENT seg => Some (CAPTION_SEGMENT (owned_segment seg))
  | STATUS _ | ERROR _ | MODEL_PROGRESS _ => Some m
  | _ => None
  end.

Definition fatal_frame : C (option (recv_status * option message)) :=
  vw_worker_client_drop_transport ;; mret (Some (VW_IPC_RECV_FATAL, None)).

(** A payload within three seconds of now. *)
Definition receive_bounded (len : Z) : C (option (list Z)) :=
  deadline ← vw_worker_client_make_deadline 3000000;
  match deadline with
  | None => mret None
  | Some deadline_us =>
      if len <=? 0 then mret (Some [])
      else
        '(status, payload) ← receive_all len deadline_us;
        mret (match status with VW_IPC_RECV_OK => Some payload | _ => None end)
  end.

Definition fresh_frame (hdr : vw_frame_header_t) : C (option (recv_status * option message)) :=
  note_sequence (hdr_sequence hdr) ;;
  payload ← receive_bounded (hdr_payload_length hdr);
  match payload with
  | None => fatal_frame
  | Some payload =>
      mret (match received_message (hdr_type hdr) payload with
            | Some m => Some (VW_IPC_RECV_OK, Some m)
            | None => None
            end)
  end.

(** The body of the receive loop; [None] goes on. *)
Definition receive_step (deadline_us : Z) : C (option (recv_status * option message)) :=
  '(status, hdr_buf) ← receive_all sizeof_header deadline_us;
  match status with
  | VW_IPC_RECV_TIMEOUT => mret (Some (VW_IPC_RECV_TIMEOUT, None))
  | VW_IPC_RECV_FATAL => fatal_frame
  | VW_IPC_RECV_OK =>
      match vw_protocol_decode_header hdr_buf with
      | None => fatal_frame
      | Some hdr =>
          if negb (vw_protocol_validate_header hdr) then fatal_frame
          else
            c ← gets (fun c => c);
            if stale_sequence c (hdr_sequence hdr) then
              if 0 <? hdr_payload_length hdr then
                drained ← receive_bounded (hdr_payload_length hdr);
                match drained with Some _ => mret None | None => fatal_frame end
              else mret None
            else fresh_frame hdr
      end
  end.
Fixpoint receive_frame_loop (fuel : nat) (deadline_us : Z) : C (recv_status * option message) :=
  match fuel with
  | O => mret (VW_IPC_RECV_TIMEOUT, None)
  | S fuel =>
      now_us ← now;
      if deadline_us <=? now_us then mret (VW_IPC_RECV_TIMEOUT, None)
      else
        r ← receive_step deadline_us;
        match r with
        | Some r => mret r
        | None => receive_frame_loop fuel deadline_us
        end
  end.
Definition vw_worker_client_receive_frame (timeout_us : Z) : C (recv_status * option message) :=
  pipe ← gets c_pipe;
  if negb pipe then mret (VW_IPC_RECV_FATAL, None)
  else
    deadline ← vw_worker_client_make_deadline timeout_us;
    match deadline with
    | None => mret (VW_IPC_RECV_FATAL, None)
    | Some deadline_us => fuel ← receive_fuel; receive_frame_loop fuel deadline_us
    end.
End client.
