(* ===== verification/WorkerClientWire.v ===== *)
(** * What the plugin's client sends

    Everything the client of [WorkerClient] hands to its transport over any calls of
    its interface, and what the worker's reader makes of it. *)

From stdpp Require Import relations.
From S2P Require Import Prelude.
From S2P Require Import ProtocolTypes.
From S2P Require Import Validate.
From S2P Require Import Codec.
From S2P Require Import State.
From S2P Require Import AudioCapture.
From S2P Require Import WorkerQueue.
From S2P Require Import WorkerSession.
From S2P Require Import WorkerSafety.
From S2P Require Import WorkerReader.
From S2P Require Import WorkerClient.
#[local] Open Scope Z_scope.

(** ** The interface of an open client *)

Inductive client_call :=
  | StartSession (timeline_origin_pts_us : Z) (model_id source_url : option (list Z))
  | SendPosition (current_pts_us input_time_us playback_rate flags : Z)
  | SendAudio (chunk : SpscQueue.vw_audio_chunk_t)
  | SendModelCtrl (action : Z) (model_id : option (list Z))
  | SendTranslateCtrl (enabled : bool) (source_lang target_lang : option (list Z)) (mode : Z)
  | StopSession (reason : Z)
  | PauseSession
  | ResumeSession
  | ReceiveFrame (timeout_us : Z).

(** A frame passes the receiver's checks, announces its payload, and the payload is
    laid out as a message of its type. *)
Definition frame_ok (f : vw_frame_header_t * list Z) : Prop := wire_ok (mk_wire (fst f) (snd f) true true).
Definition numbered (fs : list (vw_frame_header_t * list Z)) : Prop :=
  map (fun f => hdr_sequence (fst f)) fs = map u64 (seqZ 1 (zlen fs)).

(** The bytes taken by the transport before it first failed. *)
Fixpoint delivered (sent : list (list Z * bool)) : list Z :=
  match sent with
  | (bytes, true) :: sent => bytes ++ delivered sent
  | _ => []
  end.
Definition all_taken (sent : list (list Z * bool)) : Prop := Forall (fun p => snd p = true) sent.

Section calls.
Context {X : Type} `{!ClientEnv X}.

Definition client_do (call : client_call) (c : client X) : client X :=
  match call with
  | StartSession pts model url => snd (vw_worker_client_start_session pts model url c)
  | SendPosition pts time rate flags => snd (vw_worker_client_send_position pts time rate flags c)
  | SendAudio chunk => snd (vw_worker_client_send_audio chunk c)
  | SendModelCtrl action model => snd (vw_worker_client_send_model_ctrl action model c)
  | SendTranslateCtrl enabled source target mode => snd (vw_worker_client_send_translate_ctrl enabled source target mode c)
  | StopSession reason => snd (vw_worker_client_stop_session reason c)
  | PauseSession => snd (vw_worker_client_pause_session c)
  | ResumeSession => snd (vw_worker_client_resume_session c)
  | ReceiveFrame timeout => snd (vw_worker_client_receive_frame timeout c)
  end.
Definition client_run (calls : list client_call) (c : client X) : client X := fold_left (fun c call => client_do call c) calls c.

(** ** The invariant *)

(** The frames sent so far: what was taken is a prefix of them, and all of them while
    no write failed, which is the case as long as the transport is open. *)
Record wire_of (fs : list (vw_frame_header_t * list Z)) (c : client X) : Prop := {
  wo_frames : Forall frame_ok fs;
  wo_numbered : numbered fs;
  wo_sequence : c_sequence c = u64 (zlen fs);
  wo_delivered : delivered (c_sent c) `prefix_of` wire_bytes fs;
  wo_all : all_taken (c_sent c) -> delivered (c_sent c) = wire_bytes fs;
  wo_open : c_pipe c = true -> all_taken (c_sent c)
}.
Definition wires (c c' : client X) : Prop := forall fs, wire_of fs c -> exists more, wire_of (fs ++ more) c'.
#[local] Instance wires_preorder : PreOrder wires.
Proof.
  split; [intros c fs W; exists []; by rewrite app_nil_r|]. intros c1 c2 c3 H1 H2 fs W.
  destruct (H1 fs W) as [m1 W1]. destruct (H2 _ W1) as [m2 W2]. exists (m1 ++ m2). by rewrite app_assoc.
Qed.
Lemma wires_refl c fs : wire_of fs c -> exists more, wire_of (fs ++ more) c.
Proof. intros W. exists []. by rewrite app_nil_r. Qed.

Lemma delivered_all sent more : all_taken sent -> delivered (sent ++ more) = delivered sent ++ delivered more.
Proof.
  induction 1 as [|[b ok] sent Hok _ IH]; [done|]. simpl in *. subst ok. by rewrite IH, app_assoc.
Qed.
Lemma delivered_failed sent more : ~ all_taken sent -> delivered (sent ++ more) = delivered sent.
Proof.
  induction sent as [|[b []] sent IH]; simpl; intros H; [by destruct H; apply Forall_nil| |done].
  rewrite IH; [done|]. intros Ha. apply H. by apply Forall_cons.
Qed.
#[global] Instance all_taken_dec sent : Decision (all_taken sent).
Proof. unfold all_taken. apply _. Defined.

Lemma frames_numbered_snoc fs f :
  numbered fs -> hdr_sequence (fst f) = u64 (zlen fs + 1) -> numbered (fs ++ [f]).
Proof.
  unfold numbered. intros H Hf. rewrite map_app, H, zlen_app. pose proof (zlen_nonneg fs).
  change (zlen [f]) with 1. rewrite seqZ_app, map_app by lia. simpl. rewrite Hf.
  by rewrite (Z.add_comm 1).
Qed.
Lemma wire_bytes_app fs f : wire_bytes (fs ++ [f]) = wire_bytes fs ++ header_bytes (fst f) ++ snd f.
Proof. unfold wire_bytes. rewrite map_app, concat_app. simpl. by rewrite app_nil_r. Qed.

(** Sending one frame [f]: the pieces of it handed over, and how the pipe is left. *)
Lemma wire_of_frame fs f pieces (c c' : client X) :
  wire_of fs c -> frame_ok f -> hdr_sequence (fst f) = u64 (c_sequence c + 1) ->
  c_sequence c' = u64 (c_sequence c + 1) ->
  c_sent c' = c_sent c ++ pieces ->
  delivered pieces `prefix_of` header_bytes (fst f) ++ snd f ->
  (all_taken pieces -> delivered pieces = header_bytes (fst f) ++ snd f) ->
  (c_pipe c' = true -> c_pipe c = true /\ all_taken pieces) ->
  wire_of (fs ++ [f]) c'.
Proof.
  intros [W1 W2 W3 W4 W5 W6] Hf Hn Hq Hs Hd Ha Hp. rewrite W3, u64_add in Hn. split.
  - apply Forall_app. split; [done|]. by apply Forall_cons.
  - by apply frames_numbered_snoc.
  - rewrite Hq, W3, u64_add, zlen_app. done.
  - rewrite Hs, wire_bytes_app. destruct (decide (all_taken (c_sent c))) as [T|T].
    + rewrite delivered_all, W5 by done. by apply prefix_app.
    + rewrite delivered_failed by done. by apply prefix_app_r.
  - rewrite Hs, wire_bytes_app. intros [T1 T2]%Forall_app. rewrite delivered_all, W5 by done. by rewrite Ha.
  - intros O. destruct (Hp O) as [O1 O2]. rewrite Hs. apply Forall_app. split; [by apply W6|done].
Qed.

(** A call that sends nothing. *)
Lemma quiet_wires (c c' : client X) :
  c_sent c' = c_sent c -> c_sequence c' = c_sequence c -> (c_pipe c' = true -> c_pipe c = true) -> wires c c'.
Proof.
  intros E1 E2 E3 fs [W1 W2 W3 W4 W5 W6]. exists []. rewrite app_nil_r. split; rewrite ?E1, ?E2; auto.
Qed.
Lemma keeps_quiet_wires {A} (m : M (client X) A) :
  (forall c, c_sent (snd (m c)) = c_sent c /\ c_sequence (snd (m c)) = c_sequence c
             /\ (c_pipe (snd (m c)) = true -> c_pipe c = true)) ->
  keeps wires m.
Proof. intros H c. destruct (H c) as (? & ? & ?). by apply quiet_wires. Qed.

Lemma wires_calls {A} (f : X -> A * X) : keeps wires (calls f).
Proof. apply keeps_quiet_wires. intros c. unfold calls. by destruct (f (c_ext c)). Qed.
Lemma wires_modify (f : client X -> client X) :
  (forall c, c_sent (f c) = c_sent c /\ c_sequence (f c) = c_sequence c /\ (c_pipe (f c) = true -> c_pipe c = true)) ->
  keeps wires (modify f).
Proof. intros H. apply keeps_quiet_wires, H. Qed.
Lemma wires_pipe_receive n : keeps wires (pipe_receive (X := X) n).
Proof.
  apply keeps_quiet_wires. intros c. unfold pipe_receive.
  destruct (c_inbox c) as [|[bytes| |] inbox]; try done. by destruct (zlen bytes <=? n).
Qed.
#[local] Hint Resolve wires_calls wires_pipe_receive : keeps.
#[local] Hint Extern 1 (keeps wires (modify _)) => apply wires_modify; done : keeps.

(** ** Frames *)

Lemma client_message_run m cap (c : client X) :
  0 <= cap ->
  client_message m cap c =
  if encodable m && (zlen (layout m) <=? cap) then
    (hdr ← client_header (message_type m) (zlen (layout m)); send_or_drop hdr (layout m)) c
  else (false, c).
Proof. intros Hc. unfold client_message. rewrite encode_payload_layout by done. by destruct (_ && _). Qed.

(** Writes of a frame, and what dropping leaves. *)
Lemma client_bytes_run bytes (c : client X) :
  exists ok x, client_bytes bytes c = (ok, c <| c_ext := x |> <| c_sent := c_sent c ++ [(bytes, ok)] |>).
Proof.
  unfold client_bytes, calls, modify. rewrite !bind_run. simpl. destruct (pipe_send (c_ext c) bytes) as [ok x].
  by exists ok, x.
Qed.
Lemma drop_run (c : client X) :
  exists x, snd (vw_worker_client_drop_transport c) =
  (if c_pipe c then c <| c_ext := x |> <| c_pipe := false |> <| c_session_active := false |> else c).
Proof.
  unfold vw_worker_client_drop_transport, gets, calls, modify. rewrite bind_run. simpl.
  destruct (c_pipe c); simpl; [by eexists|by exists (c_ext c)].
Qed.
Lemma drop_sent (c : client X) : c_sent (snd (vw_worker_client_drop_transport c)) = c_sent c.
Proof. destruct (drop_run c) as [x ->]. by destruct (c_pipe c). Qed.
Lemma drop_sequence (c : client X) : c_sequence (snd (vw_worker_client_drop_transport c)) = c_sequence c.
Proof. destruct (drop_run c) as [x ->]. by destruct (c_pipe c). Qed.
Lemma drop_pipe (c : client X) : c_pipe (snd (vw_worker_client_drop_transport c)) = false.
Proof. destruct (drop_run c) as [x ->]. by destruct (c_pipe c) eqn:E. Qed.
Lemma wires_drop : keeps wires (vw_worker_client_drop_transport (X := X)).
Proof.
  intros c. apply quiet_wires; rewrite ?drop_sent, ?drop_sequence, ?drop_pipe; done.
Qed.
#[local] Hint Resolve wires_drop : keeps.

(** One frame, both of its pieces handed over in turn. *)
Definition next_sequence (c : client X) : client X := c <| c_sequence := u64 (c_sequence c + 1) |>.
Definition next_hdr (type payload_length : Z) (c : client X) : vw_frame_header_t :=
  mk_header VW_PROTOCOL_MAGIC VW_PROTOCOL_VERSION_MAJOR type (u32 payload_length) (u64 (c_sequence c + 1)).
Lemma client_header_run type len (c : client X) : client_header type len c = (next_hdr type len c, next_sequence c).
Proof. done. Qed.

Lemma all_taken_one b ok : all_taken [(b, ok)] -> ok = true.
Proof. by intros [H _]%Forall_cons_iff. Qed.
Lemma all_taken_two b1 ok1 b2 ok2 : all_taken [(b1, ok1); (b2, ok2)] <-> ok1 = true /\ ok2 = true.
Proof. unfold all_taken. rewrite !Forall_cons_iff. split; [by intros (? & ? & _)|by intros [-> ->]; repeat constructor]. Qed.
Lemma delivered_pieces (h p : list Z) ok1 ok2 :
  delivered [(h, ok1); (p, ok2)] `prefix_of` h ++ p
  /\ (all_taken [(h, ok1); (p, ok2)] -> delivered [(h, ok1); (p, ok2)] = h ++ p).
Proof.
  rewrite all_taken_two. destruct ok1, ok2; simpl; rewrite ?app_nil_r;
    (split; [solve [apply prefix_nil|by exists []; rewrite app_nil_r|by exists p]|by intros [? ?]]).
Qed.

Lemma send_or_drop_wire fs hdr payload (c : client X) :
  wire_of fs c -> frame_ok (hdr, payload) -> hdr_sequence hdr = u64 (c_sequence c + 1) ->
  wire_of (fs ++ [(hdr, payload)]) (snd (send_or_drop hdr payload (next_sequence c))).
Proof.
  intros W Hok Hn. unfold send_or_drop, vw_protocol_encode_header. simpl. rewrite bind_run.
  destruct (client_bytes_run (header_bytes hdr) (next_sequence c)) as (ok1 & x1 & ->). cbn [fst snd].
  rewrite bind_run. destruct ok1; cbn [fst snd].
  - match goal with |- context [client_bytes payload ?c2] => destruct (client_bytes_run payload c2) as (ok2 & x2 & ->) end.
    destruct (delivered_pieces (header_bytes hdr) payload true ok2) as [D1 D2]. rewrite bind_run.
    apply (wire_of_frame fs (hdr, payload) [(header_bytes hdr, true); (payload, ok2)] c); try done;
      destruct ok2; simpl; rewrite ?drop_sequence, ?drop_sent, ?drop_pipe; simpl; rewrite <- ?app_assoc; try done.
    intros O. by rewrite all_taken_two.
  - rewrite bind_run. simpl.
    apply (wire_of_frame fs (hdr, payload) [(header_bytes hdr, false)] c); try done; simpl;
      rewrite ?drop_sequence, ?drop_sent, ?drop_pipe; try done; [apply prefix_nil|].
    by intros T%all_taken_one.
Qed.
Lemma message_frame_ok m (c : client X) :
  encodable m = true -> zlen (layout m) <= VW_MAX_PAYLOAD_BYTES ->
  frame_ok (next_hdr (message_type m) (zlen (layout m)) c, layout m).
Proof. apply message_header_ok. Qed.
Lemma wires_message m cap : 0 <= cap <= VW_MAX_PAYLOAD_BYTES -> keeps wires (client_message (X := X) m cap).
Proof.
  intros Hc c fs W. rewrite client_message_run by lia.
  destruct (encodable m) eqn:He; [|by apply wires_refl]. destruct (Z.leb_spec (zlen (layout m)) cap); [|by apply wires_refl]. simpl.
  rewrite bind_run, client_header_run. eexists. apply (send_or_drop_wire fs); try done. apply message_frame_ok; [done|lia].
Qed.

(** A control frame, both writes attempted. *)
Lemma wires_control wrap reason :
  keeps wires (send_control_frame (X := X) wrap reason).
Proof.
  intros c fs W. unfold send_control_frame. rewrite bind_run. simpl.
  destruct (c_pipe c) eqn:Ep; [|by apply wires_refl]. simpl. set (m := wrap _). rewrite encode_payload_layout by done.
  destruct (encodable m) eqn:He; [|by apply wires_refl]. destruct (Z.leb_spec (zlen (layout m)) 64); [|by apply wires_refl]. simpl.
  rewrite bind_run, client_header_run. unfold vw_protocol_encode_header. simpl. rewrite bind_run.
  pose proof (message_frame_ok m c He ltac:(unfold VW_MAX_PAYLOAD_BYTES; lia)) as Hok.
  set (hdr := next_hdr _ _ _) in *.
  destruct (client_bytes_run (header_bytes hdr) (next_sequence c)) as (ok1 & x1 & ->). cbn [fst snd]. rewrite bind_run.
  match goal with |- context [client_bytes (layout m) ?c2] => destruct (client_bytes_run (layout m) c2) as (ok2 & x2 & ->) end.
  destruct (delivered_pieces (header_bytes hdr) (layout m) ok1 ok2) as [D1 D2].
  exists [(hdr, layout m)].
  apply (wire_of_frame fs (hdr, layout m) [(header_bytes hdr, ok1); (layout m, ok2)] c); try done;
    destruct ok1, ok2; simpl; rewrite ?bind_run; simpl; rewrite ?drop_sequence, ?drop_sent, ?drop_pipe; simpl;
    rewrite <- ?app_assoc; try done.
  intros _. by rewrite all_taken_two.
Qed.
#[local] Hint Resolve wires_control : keeps.
#[local] Hint Extern 1 (keeps wires (client_message _ _)) => apply wires_message; done : keeps.

(** ** Every call *)

Lemma wires_receive_loop fuel len deadline : forall got, keeps wires (receive_loop (X := X) fuel len deadline got).
Proof.
  induction fuel as [|fuel IH]; intros got; cbn [receive_loop]; unfold now; keeps_steps; done.
Qed.
#[local] Hint Resolve wires_receive_loop : keeps.
Lemma wires_receive_all len deadline : keeps wires (receive_all (X := X) len deadline).
Proof. unfold receive_all, receive_fuel. keeps_steps. Qed.
Lemma wires_deadline d : keeps wires (vw_worker_client_make_deadline (X := X) d).
Proof. unfold vw_worker_client_make_deadline, now. keeps_steps. Qed.
#[local] Hint Resolve wires_receive_all wires_deadline : keeps.
Lemma wires_payload len deadline : keeps wires (receive_payload (X := X) len deadline).
Proof. unfold receive_payload. keeps_steps. Qed.
Lemma wires_fail_start : keeps wires (fail_start (X := X)).
Proof. unfold fail_start. keeps_steps. Qed.
Lemma wires_note n : keeps wires (note_sequence (X := X) n).
Proof. unfold note_sequence. keeps_steps. Qed.
Lemma wires_started start : keeps wires (session_started (X := X) start).
Proof. unfold session_started. keeps_steps. Qed.
#[local] Hint Resolve wires_payload wires_fail_start wires_note wires_started : keeps.
Lemma wires_start_reply start deadline : keeps wires (start_reply (X := X) start deadline).
Proof. unfold start_reply, on_started, on_start_error. keeps_steps. Qed.
#[local] Hint Resolve wires_start_reply : keeps.
Lemma wires_start_wait fuel start deadline : keeps wires (start_wait (X := X) fuel start deadline).
Proof. induction fuel as [|fuel IH]; cbn [start_wait]; unfold now; keeps_steps. Qed.
#[local] Hint Resolve wires_start_wait : keeps.
Lemma wires_start_session pts model url : keeps wires (vw_worker_client_start_session (X := X) pts model url).
Proof. unfold vw_worker_client_start_session, receive_fuel. keeps_steps. Qed.
#[local] Hint Resolve wires_start_session : keeps.
Lemma wires_translate_ctrl e s t mode : keeps wires (vw_worker_client_send_translate_ctrl (X := X) e s t mode).
Proof. unfold vw_worker_client_send_translate_ctrl, translate_fields. keeps_steps. Qed.
#[local] Hint Resolve wires_translate_ctrl : keeps.
Lemma wires_position_frame pts time rate flags : keeps wires (vw_worker_client_send_position_frame (X := X) pts time rate flags).
Proof. unfold vw_worker_client_send_position_frame. keeps_steps. Qed.
#[local] Hint Resolve wires_position_frame : keeps.
Lemma wires_position pts time rate flags : keeps wires (vw_worker_client_send_position (X := X) pts time rate flags).
Proof. unfold vw_worker_client_send_position, restart_epoch. keeps_steps. Qed.
Lemma wires_audio chunk : keeps wires (vw_worker_client_send_audio (X := X) chunk).
Proof. unfold vw_worker_client_send_audio. keeps_steps. Qed.
Lemma wires_model_ctrl a m : keeps wires (vw_worker_client_send_model_ctrl (X := X) a m).
Proof. unfold vw_worker_client_send_model_ctrl. keeps_steps. Qed.
Lemma wires_bounded len : keeps wires (receive_bounded (X := X) len).
Proof. unfold receive_bounded. keeps_steps. Qed.
#[local] Hint Resolve wires_bounded : keeps.
Lemma wires_receive_step deadline : keeps wires (receive_step (X := X) deadline).
Proof. unfold receive_step, fresh_frame, fatal_frame. keeps_steps. Qed.
#[local] Hint Resolve wires_receive_step : keeps.
Lemma wires_receive_frame timeout : keeps wires (vw_worker_client_receive_frame (X := X) timeout).
Proof.
  assert (forall fuel deadline, keeps wires (receive_frame_loop (X := X) fuel deadline)) as Hloop.
  { induction fuel as [|fuel IH]; intros deadline; cbn [receive_frame_loop]; unfold now; keeps_steps. }
  unfold vw_worker_client_receive_frame, receive_fuel. keeps_steps.
Qed.

Lemma client_do_wires call c : wires c (client_do call c).
Proof.
  destruct call; cbn [client_do]; [apply wires_start_session|apply wires_position|apply wires_audio
    |apply wires_model_ctrl|apply wires_translate_ctrl|..|apply wires_receive_frame]; revert c;
    change (keeps wires (vw_worker_client_stop_session (X := X) reason)) ||
    change (keeps wires (vw_worker_client_pause_session (X := X))) ||
    change (keeps wires (vw_worker_client_resume_session (X := X)));
    unfold vw_worker_client_stop_session, vw_worker_client_pause_session, vw_worker_client_resume_session, in_client_session;
    keeps_steps.
Qed.
Lemma client_run_wires calls : forall c, wires c (client_run calls c).
Proof.
  induction calls as [|call calls IH]; intros c; [reflexivity|]. etrans; [apply client_do_wires|apply IH].
Qed.

(** ** The first frame *)

Definition hello_frame (auth_token : list Z) : vw_frame_header_t * list Z :=
  let payload := layout (hello_message auth_token) in
  (mk_header VW_PROTOCOL_MAGIC VW_PROTOCOL_VERSION_MAJOR VW_MSG_HELLO (u32 (zlen payload)) 1, payload).

(** What the client has of the connection when it starts. *)
Lemma handshake_wire auth_token process language inbox (x : X) ok c :
  handshake auth_token (client_start process language inbox x) = (ok, c) -> ok = true ->
  exists more, wire_of (hello_frame auth_token :: more) c.
Proof.
  unfold handshake. rewrite encode_payload_layout by done.
  destruct (encodable (hello_message auth_token)) eqn:He; [|by intros [= <-]].
  destruct (Z.leb_spec (zlen (layout (hello_message auth_token))) 256); [|by intros [= <-]].
  cbn [andb]. set (p := layout (hello_message auth_token)). unfold vw_protocol_encode_header. simpl. rewrite bind_run.
  set (c0 := client_start process language inbox x).
  change (mk_header _ _ _ _ 1) with (next_hdr VW_MSG_HELLO (zlen p) (c0 <| c_sequence := 0 |>)). set (hdr := next_hdr _ _ _).
  destruct (client_bytes_run (header_bytes hdr) c0) as (ok1 & x1 & ->). cbn [fst snd]. rewrite bind_run.
  destruct ok1; [|by intros [= <-]].
  match goal with |- context [client_bytes p ?c2] => destruct (client_bytes_run p c2) as (ok2 & x2 & ->) end.
  cbn [fst snd]. destruct ok2; [|by intros [= <-]]. cbn [negb]. intros H' _. revert H'.
  match goal with |- ?m ?c2 = _ -> _ =>
    assert (wire_of ([] ++ [(hdr, p)]) c2) as W;
    [|assert (keeps wires m) as Hm by (unfold accept_ack; keeps_steps); intros E;
      destruct (Hm c2 _ W) as [more Hw]; exists more; by rewrite E in Hw]
  end.
  apply (wire_of_frame [] (hdr, p) [(header_bytes hdr, true); (p, true)] (c0 <| c_sequence := 0 |>)); try done.
  - split; try done. intros _. apply Forall_nil.
  - apply (message_frame_ok (hello_message auth_token)); [done|unfold VW_MAX_PAYLOAD_BYTES; lia].
  - simpl. by rewrite app_nil_r.
  - intros _. simpl. by rewrite app_nil_r.
  - intros _. split; [done|]. by rewrite all_taken_two.
Qed.

Lemma launched_handshake exe endpoint tok model backend lang threads gpu dir log (x x' : X) c :
  vw_worker_client_launch_and_connect_ex exe endpoint tok model backend lang threads gpu dir log x = (Some c, x') ->
  exists process inbox x0, handshake tok (client_start process (eff_language lang) inbox x0) = (true, c).
Proof.
  unfold vw_worker_client_launch_and_connect_ex. destruct (match exe with Some _ => _ | None => _ end) as [[process|] x1]; [|done].
  destruct (connect_loop _ _ _) as [[inbox|] x2]; [|done].
  destruct (handshake tok _) as [[] c1] eqn:E; [|done]. intros [= <- _]. by exists process, inbox, x2.
Qed.

(** A client whose transport is closed does nothing any more. *)
Lemma client_do_closed call (c : client X) : c_pipe c = false -> client_do call c = c.
Proof.
  intros Hp. destruct call; cbn [client_do];
    unfold vw_worker_client_start_session, vw_worker_client_send_position, vw_worker_client_send_audio,
      vw_worker_client_send_model_ctrl, vw_worker_client_send_translate_ctrl, vw_worker_client_stop_session,
      vw_worker_client_pause_session, vw_worker_client_resume_session, in_client_session, vw_worker_client_receive_frame;
    rewrite bind_run; cbn [gets fst snd]; by rewrite Hp.
Qed.
Lemma client_run_closed calls : forall c : client X, c_pipe c = false -> client_run calls c = c.
Proof.
  induction calls as [|call calls IH]; intros c Hp; [done|]. unfold client_run. simpl. rewrite client_do_closed by done.
  by apply IH.
Qed.
End calls.

(** *** At the other end *)

Lemma fresh_numbered fs : forall k last,
  map (fun f => hdr_sequence (fst f)) fs = map u64 (seqZ k (zlen fs)) ->
  0 <= k -> k + zlen fs <= 2 ^ 64 -> match last with Some l => l < k | None => True end ->
  fresh last fs = fs.
Proof.
  induction fs as [|f fs IH]; intros k last Hn Hk Hb Hl; [done|]. pose proof (zlen_nonneg fs). rewrite zlen_cons in *.
  rewrite seqZ_cons in Hn by lia. cbn [map] in Hn. injection Hn as Hf Hn.
  rewrite u64_id in Hf by (unfold is_unsigned; lia). cbn [fresh]. rewrite Hf.
  replace (stale last k) with false by (destruct last; simpl; lia). f_equal.
  apply (IH (k + 1)); [|lia..]. rewrite <- Z.add_1_r in Hn. rewrite Hn. do 2 f_equal. lia.
Qed.
Lemma wire_of_received {X} fs (c : client X) answers :
  wire_of fs c -> c_pipe c = true -> zlen fs < 2 ^ 64 -> answers_ok reader_start answers ->
  concat (map received answers) = concat (map fst (c_sent c)) ->
  exists r, reader_run reader_start answers = (map queued fs, Some r).
Proof.
  intros [W1 W2 _ _ W5 W6] Ho Hl Ha Hc. pose proof (zlen_nonneg fs).
  rewrite <- (fresh_numbered fs 1 None W2) by (done || lia). apply reader_run_wire; [|done|].
  - apply Forall_lookup_2. intros i f Hf. rewrite Forall_lookup in W1. pose proof (W1 i f Hf) as Hok.
    assert (is_unsigned 64 (hdr_sequence (fst f))) as Hs.
    { assert (map (fun f => hdr_sequence (fst f)) fs !! i = Some (hdr_sequence (fst f))) as Hi by (by rewrite list_lookup_fmap, Hf).
      rewrite W2 in Hi. apply list_lookup_fmap_Some in Hi as (k & -> & _). apply mod_unsigned. lia. }
    pose proof (wire_ok_wf _ Hok Hs). destruct Hok as (? & ? & _). by split_and!.
  - rewrite Hc, <- W5 by auto. specialize (W6 Ho). clear Hc W5. induction W6 as [|[b ok] sent Hok _ IH]; [done|].
    simpl in *. subst ok. by rewrite IH.
Qed.

(** ** Properties *)


(** ** Witness: a session that is started, paused and resumed, then a write fails *)

(** The transport's verdicts to come, and what will arrive. *)
#[local] Instance scripted_env : ClientEnv (list bool * list recv) := {
  pipe_send x _ := match fst x with ok :: oks => (ok, (oks, snd x)) | [] => (true, x) end;
  pipe_close x := x;
  pipe_connect x _ := (Some (snd x), x);
  client_now x := (0, x);
  random_bytes x n := (Some (zreplicate n 7), x);
  spawn_process x _ _ := (true, x);
  wait_process x _ := (true, x);
  terminate_process x := x;
  close_process x := x;
  sleep_ms x _ := x
}.
Definition reply (seq : Z) (m : message) : recv :=
  Received (header_bytes (mk_header VW_PROTOCOL_MAGIC 1 (message_type m) (zlen (layout m)) seq) ++ layout m).
Definition demo_replies : list recv :=
  [reply 1 (HELLO_ACK (mk_hello_ack 1 6 VW_CAPABILITY_PCM_S16LE_16K_MONO 5 (Some VW_CLIENT_VERSION)));
   RecvTimeout; reply 2 (STARTED (mk_started (zreplicate 16 7) 0))].
#[local] Abbreviation demo_launch oks :=
  (vw_worker_client_launch_and_connect_ex (X := list bool * list recv) None (str "pipe") (zreplicate 32 1)
    None None None 4 0 None false (oks, demo_replies)).
Definition demo_client (oks : list bool) : client (list bool * list recv) :=
  match fst (demo_launch oks) with Some c => c | None => client_start false [] [] ([], []) end.
Definition demo_calls : list client_call := [StartSession 0 None None; PauseSession; ResumeSession; StopSession 0].

Lemma demo_launched oks : firstn 2 oks = [true; true] \/ oks = [] ->
  exists x, demo_launch oks = (Some (demo_client oks), x).
Proof.
  intros [H| ->]; [|eexists; vm_compute; reflexivity]. destruct oks as [|[] [|[] oks]]; try done.
  eexists. vm_compute. reflexivity.
Qed.
