(* ===== verification/AudioPath.v ===== *)
(** * The way of the sound, from VLC's callback to the worker's buffer

    The files the audio passes through, put together: a block converted by
    [vw_audio_capture_process_block] into the queue, its chunks sent by
    [vw_worker_client_send_audio], the bytes read back by the worker's receiving
    thread in whatever pieces the transport delivers, each frame decoded and validated
    by the worker's loop, and the samples its [AUDIO_PCM] handler appends. *)

From stdpp Require Import relations.
From S2P Require Import Prelude.
From S2P Require Import ProtocolTypes.
From S2P Require Import Validate.
From S2P Require Import Codec.
From S2P Require Import State.
From S2P Require Import SpscQueue.
From S2P Require Import AudioCapture.
From S2P Require Import AudioBuffer.
From S2P Require Import WorkerQueue.
From S2P Require Import WorkerConfig.
From S2P Require Import WorkerSession.
From S2P Require Import WorkerSafety.
From S2P Require Import WorkerReader.
From S2P Require Import WorkerClient.
From S2P Require Import WorkerClientWire.
#[local] Open Scope Z_scope.

(** ** What the worker hears *)

(** The last presentation time the worker takes, ten years. *)
Definition MAX_AUDIO_PTS_US : Z := 315360000000000.

(** The samples of a frame off the queue and their time, when the loop and the
    [AUDIO_PCM] handler let it through in session [id]. *)
Definition hear (id : vw_session_id_t) (f : vw_worker_frame_t) : option (Z * list Z) :=
  match decode_frame f with
  | Some (AUDIO_PCM p) =>
      if vw_protocol_validate_payload (AUDIO_PCM p) && bool_decide (audio_session_id p = id)
         && negb ((audio_start_pts_us p <? 0) || (MAX_AUDIO_PTS_US <? audio_start_pts_us p))
      then match pcm_samples <$> audio_pcm_data p with
           | Some (x :: samples) => Some (audio_start_pts_us p, x :: samples)
           | _ => None
           end
      else None
  | _ => None
  end.

(** What a listening worker does with such a frame: append, and infer over the
    windows that are complete. *)
Section listening.
Context {X : Type} `{!WorkerEnv X} (config : vw_worker_config_t).

Definition append_heard (pts_us : Z) (samples : list Z) : M (worker X) unit :=
  on_session (fun s => s <| s_audio := snd (vw_audio_buffer_append_s16le (s_audio s) (Some samples) pts_us) |>) ;;
  count ← audio_count;
  loop (S (Z.to_nat count)) (audio_window_step config).

Lemma heard_is_appended (f : vw_worker_frame_t) (ready : bool) (pts_us : Z) (samples : list Z) (w : worker X) :
  w_authenticated w = true ->
  s_active (w_session w) = true -> s_paused (w_session w) = false -> s_source_mode (w_session w) = false ->
  hear (s_id (w_session w)) f = Some (pts_us, samples) ->
  handle_frame config f ready w = (append_heard pts_us samples ;; mret GoOn) w.
Proof.
  intros Ha Hs Hp Hm H. unfold hear in H. unfold handle_frame. rewrite bind_run. cbn [gets fst snd]. rewrite Ha.
  destruct (decode_frame f) as [[| | |p| | | | | | | | | | | |]|]; try discriminate H.
  destruct (vw_protocol_validate_payload _); [|discriminate H]. cbn [andb] in H.
  destruct (bool_decide_reflect (audio_session_id p = s_id (w_session w))) as [Hid|]; [|discriminate H]. cbn [andb] in H.
  destruct (_ || _) eqn:Hpts in H; [discriminate H|]. cbn [negb] in H.
  destruct (pcm_samples <$> _) as [[|x l]|] eqn:El; try discriminate H. injection H as <- <-.
  cbn [negb handle_message]. rewrite !(bind_run _ (fun _ => mret GoOn)).
  assert (handle_audio config p w = append_heard (audio_start_pts_us p) (x :: l) w) as ->; [|done].
  unfold handle_audio. rewrite bind_run. cbn [ask gets fst snd].
  unfold MAX_AUDIO_PTS_US in Hpts. rewrite Hs, Hp, Hm, Hid, El, bool_decide_eq_true_2, Hpts by done. done.
Qed.
End listening.

(** ** Samples *)

Lemma pcm_samples_roundtrip samples : Forall (is_signed 16) samples -> pcm_samples (s16_bytes samples) = samples.
Proof.
  induction 1 as [|x samples Hx _ IH]; [done|]. unfold s16_bytes in *. cbn [flat_map].
  unfold le_enc at 1. cbn [app pcm_samples]. rewrite IH. f_equal.
  unfold i16, swrap. unfold is_signed in Hx. cbn in *.
  Z.to_euclidean_division_equations; lia.
Qed.

Lemma mono_sample_signed input pcm i : is_signed 16 (mono_sample input pcm i).
Proof. unfold mono_sample, is_signed. cbn. repeat case_match; lia. Qed.
Lemma resampled_signed f T R n : forall acc i,
  (forall i, is_signed 16 (f i)) -> Forall (is_signed 16) (resampled f T R acc i n).
Proof.
  induction n as [|n IH]; intros acc i Hf; cbn [resampled]; [constructor|].
  apply Forall_app. split; [|by apply IH]. by apply Forall_replicate.
Qed.

(** Rounding up the duration of a chunk keeps it within what the validator takes:
    at 16 kHz it announces exactly the bytes it has. *)
Lemma chunk_duration_bytes n :
  0 < n <= max_out_frames_per_chunk ->
  let d := chunk_duration 16000 n in 0 < d <= 512000 /\ d * 32 / 1000 = 2 * n.
Proof.
  unfold max_out_frames_per_chunk, VW_AUDIO_CHUNK_MAX_PCM_BYTES, chunk_duration. cbv zeta.
  change (16384 / 2) with 8192. intros Hn. split; [Z.to_euclidean_division_equations; lia|].
  set (d := (n * 1000000 + 16000 - 1) / 16000).
  assert (125 * n <= 2 * d <= 125 * n + 1) by (subst d; Z.to_euclidean_division_equations; lia).
  clearbody d. Z.to_euclidean_division_equations; lia.
Qed.

(** ** One chunk *)

(** What the client can send and the worker take. *)
Record sendable_chunk (c : vw_audio_chunk_t) : Prop := {
  sc_duration : chunk_duration_us c = chunk_duration 16000 (zlen (chunk_pcm c));
  sc_bytes : chunk_bytes c = 2 * zlen (chunk_pcm c);
  sc_size : 0 < chunk_bytes c <= VW_AUDIO_CHUNK_MAX_PCM_BYTES;
  sc_samples : Forall (is_signed 16) (chunk_pcm c);
  sc_pts : 0 <= chunk_start_pts_us c <= MAX_AUDIO_PTS_US
}.
Definition audio_message (id : vw_session_id_t) (c : vw_audio_chunk_t) : message :=
  AUDIO_PCM (mk_audio id (chunk_start_pts_us c) (chunk_duration_us c) (chunk_bytes c) (Some (s16_bytes (chunk_pcm c)))).

Section chunk.
Context (id : vw_session_id_t) (Hid : is_array 16 id) (c : vw_audio_chunk_t) (Hc : sendable_chunk c).

Lemma chunk_frames_bound : 0 < zlen (chunk_pcm c) <= max_out_frames_per_chunk.
Proof.
  destruct Hc as [_ Hb Hs _ _]. unfold max_out_frames_per_chunk, VW_AUDIO_CHUNK_MAX_PCM_BYTES in *.
  change (16384 / 2) with 8192. lia.
Qed.
Lemma audio_bytes_whole : ptr_bytes (Some (s16_bytes (chunk_pcm c))) (chunk_bytes c) = s16_bytes (chunk_pcm c).
Proof. unfold ptr_bytes. simpl. apply ztake_all. rewrite s16_bytes_length, (sc_bytes c Hc). lia. Qed.
Lemma audio_message_layout :
  encodable (audio_message id c) = true /\ zlen (layout (audio_message id c)) = 36 + chunk_bytes c.
Proof.
  split; [unfold audio_message; cbn; unfold ptr_ok; by rewrite bool_decide_eq_false_2, andb_false_r by done|]. unfold audio_message. cbn [layout audio_session_id audio_start_pts_us
    audio_duration_us audio_pcm_bytes audio_pcm_data].
  rewrite audio_bytes_whole, !zlen_app, !zlen_le_enc, s16_bytes_length, (proj1 Hid), (sc_bytes c Hc). lia.
Qed.
Lemma audio_message_wf : wf_message (audio_message id c).
Proof.
  destruct (chunk_duration_bytes _ chunk_frames_bound) as [Hd _]. pose proof (sc_pts c Hc) as Hp.
  destruct Hc as [Ed Eb Hs _ _]. unfold MAX_AUDIO_PTS_US, VW_AUDIO_CHUNK_MAX_PCM_BYTES in *.
  unfold audio_message, wf_message, wf_ptr, is_signed, is_unsigned. cbn [audio_session_id audio_start_pts_us
    audio_duration_us audio_pcm_bytes audio_pcm_data].
  rewrite s16_bytes_length, <- Eb, Ed. split_and!; try apply Hid; try lia. apply s16_bytes_are_bytes.
Qed.
Lemma audio_message_view : wire_view (audio_message id c) = audio_message id c.
Proof.
  unfold audio_message. cbn [wire_view audio_session_id audio_start_pts_us audio_duration_us audio_pcm_bytes audio_pcm_data].
  unfold ptr_view. by rewrite audio_bytes_whole.
Qed.
Lemma audio_message_valid : vw_protocol_validate_payload (audio_message id c) = true.
Proof.
  destruct (chunk_duration_bytes _ chunk_frames_bound) as [Hd He].
  destruct Hc as [Ed Eb Hs _ _]. unfold VW_AUDIO_CHUNK_MAX_PCM_BYTES in Hs.
  unfold audio_message. cbn [vw_protocol_validate_payload]. unfold validate_audio.
  cbn [audio_duration_us audio_pcm_bytes audio_pcm_data]. rewrite Ed, He, <- Eb.
  replace (_ || _) with false by lia.
  assert (chunk_bytes c mod 2 = 0) as -> by (rewrite Eb, Z.mul_comm; apply Z.mod_mul; lia). cbn [negb Z.eqb].
  rewrite !u32_id by (unfold is_unsigned; lia).
  replace ((_ <? _) || (_ <? _)) with false by lia. by rewrite andb_false_r.
Qed.

(** The frame of a sendable chunk is heard as the chunk. *)
Lemma chunk_heard seq :
  hear id (queued (mk_header VW_PROTOCOL_MAGIC VW_PROTOCOL_VERSION_MAJOR VW_MSG_AUDIO_PCM
                     (u32 (zlen (layout (audio_message id c)))) seq, layout (audio_message id c)))
  = Some (chunk_start_pts_us c, chunk_pcm c).
Proof.
  destruct audio_message_layout as [He Hl]. pose proof (sc_size c Hc). pose proof (sc_pts c Hc).
  unfold hear, decode_frame, queued. cbn [fst snd hdr_type frame_type frame_payload frame_payload_len].
  replace (0 <? zlen (layout (audio_message id c))) with true by lia. cbn [mbind option_bind].
  rewrite ztake_all by lia. unfold vw_protocol_decode_payload.
  change VW_MSG_AUDIO_PCM with (message_type (audio_message id c)).
  rewrite decode_layout by (try apply audio_message_wf; done). rewrite audio_message_view. unfold audio_message at 1.
  fold (audio_message id c). rewrite audio_message_valid.
  cbn [audio_session_id audio_start_pts_us audio_pcm_data]. rewrite bool_decide_eq_true_2 by done. cbn [andb].
  replace (_ || _) with false by lia. cbn [negb fmap option_fmap option_map].
  rewrite pcm_samples_roundtrip by apply Hc. destruct chunk_frames_bound as [Hn _].
  revert Hn. by destruct (chunk_pcm c).
Qed.
End chunk.

(** ** The client *)

Section client.
Context {X : Type} `{!ClientEnv X}.
Implicit Types c : client X.

(** A client in a session: what it stays while its transport is open. *)
Record in_session (id : vw_session_id_t) c : Prop := {
  is_open : c_pipe c = true;
  is_active : c_session_active c = true;
  is_session : c_session_id c = id
}.

(** The frame of a chunk, numbered after [c]. *)
Definition audio_frame (id : vw_session_id_t) (sequence : Z) (chunk : vw_audio_chunk_t) : vw_frame_header_t * list Z :=
  (mk_header VW_PROTOCOL_MAGIC VW_PROTOCOL_VERSION_MAJOR VW_MSG_AUDIO_PCM
     (u32 (zlen (layout (audio_message id chunk)))) sequence, layout (audio_message id chunk)).

Lemma send_or_drop_open hdr payload c :
  c_pipe (snd (send_or_drop hdr payload c)) = true ->
  exists x, snd (send_or_drop hdr payload c)
            = c <| c_ext := x |> <| c_sent := c_sent c ++ [(header_bytes hdr, true); (payload, true)] |>.
Proof.
  unfold send_or_drop, vw_protocol_encode_header. simpl. rewrite bind_run.
  destruct (client_bytes_run (header_bytes hdr) c) as (ok1 & x1 & ->). cbn [fst snd]. rewrite bind_run.
  destruct ok1; [|by rewrite bind_run; simpl; rewrite drop_pipe].
  match goal with |- context [client_bytes payload ?c2] => destruct (client_bytes_run payload c2) as (ok2 & x2 & ->) end.
  cbn [fst snd]. rewrite bind_run. destruct ok2; simpl; [|by rewrite drop_pipe].
  intros _. exists x2. by rewrite <- app_assoc.
Qed.
Lemma send_audio_closed chunk c :
  c_pipe c = false -> snd (vw_worker_client_send_audio chunk c) = c.
Proof. intros H. unfold vw_worker_client_send_audio. rewrite bind_run. cbn [gets fst snd]. by rewrite H. Qed.
Lemma send_audio_open id chunk c :
  is_array 16 id -> sendable_chunk chunk -> in_session id c ->
  let c' := snd (vw_worker_client_send_audio chunk c) in
  c_pipe c' = true ->
  in_session id c' /\ c_sequence c' = u64 (c_sequence c + 1)
  /\ let f := audio_frame id (u64 (c_sequence c + 1)) chunk in
     c_sent c' = c_sent c ++ [(header_bytes (fst f), true); (snd f, true)].
Proof.
  intros Hid Hc [Ho Ha Hs] c'. unfold c', vw_worker_client_send_audio. clear c'. rewrite bind_run. cbn [gets fst snd]. rewrite Ho, Ha.
  cbn [negb orb]. rewrite Hs. fold (audio_message id chunk). rewrite client_message_run by done.
  destruct (audio_message_layout id Hid chunk Hc) as [He Hl]. rewrite He.
  pose proof (sc_size chunk Hc). unfold VW_AUDIO_CHUNK_MAX_PCM_BYTES in *.
  replace (zlen _ <=? _) with true by lia. cbn [andb]. rewrite bind_run, client_header_run. cbn [fst snd].
  intros Hp.
  destruct (send_or_drop_open _ _ _ Hp) as [x ->]. by split_and!.
Qed.

(** The frames of chunks sent one after the other, after number [sequence]. *)
Fixpoint audio_frames (id : vw_session_id_t) (sequence : Z) (chunks : list vw_audio_chunk_t)
  : list (vw_frame_header_t * list Z) :=
  match chunks with
  | [] => []
  | chunk :: chunks => audio_frame id (sequence + 1) chunk :: audio_frames id (sequence + 1) chunks
  end.
Definition pieces (fs : list (vw_frame_header_t * list Z)) : list (list Z * bool) :=
  flat_map (fun f => [(header_bytes (fst f), true); (snd f, true)]) fs.
Lemma pieces_bytes fs : concat (map fst (pieces fs)) = wire_bytes fs.
Proof.
  induction fs as [|f fs IH]; [done|]. unfold pieces, wire_bytes in *. cbn. by rewrite IH, app_assoc.
Qed.

Lemma send_chunks_closed chunks : forall c, c_pipe c = false -> client_run (map SendAudio chunks) c = c.
Proof.
  induction chunks as [|chunk chunks IH]; intros c H; [done|]. cbn [map client_run fold_left client_do].
  rewrite send_audio_closed by done. by apply IH.
Qed.
Lemma send_chunks_open id chunks :
  is_array 16 id -> Forall sendable_chunk chunks -> forall c,
  in_session id c -> 0 <= c_sequence c -> c_sequence c + zlen chunks < 2 ^ 64 ->
  let c' := client_run (map SendAudio chunks) c in
  c_pipe c' = true -> c_sent c' = c_sent c ++ pieces (audio_frames id (c_sequence c) chunks).
Proof.
  intros Hid. induction 1 as [|chunk chunks Hc _ IH]; intros c Hs H0 Hq; [by intros; rewrite app_nil_r|].
  rewrite zlen_cons in Hq. pose proof (zlen_nonneg chunks). cbn [map client_run fold_left client_do]. set (c1 := snd _).
  change (fold_left _ (map SendAudio chunks) c1) with (client_run (map SendAudio chunks) c1).
  destruct (c_pipe c1) eqn:E1; [|rewrite send_chunks_closed by done; intros ?; congruence].
  intros Hp. destruct (send_audio_open id chunk c Hid Hc Hs E1) as (Hs1 & Hn & Ht). fold c1 in Hs1, Hn, Ht.
  assert (u64 (c_sequence c + 1) = c_sequence c + 1) as Hu by (apply u64_id; unfold is_unsigned; lia).
  rewrite Hu in *. rewrite IH, Hn, Ht by (done || lia). cbn [audio_frames pieces flat_map].
  by rewrite <- app_assoc.
Qed.
End client.

(** ** The worker's side *)

Section worker.
Context (id : vw_session_id_t) (Hid : is_array 16 id).

Lemma audio_frames_ok chunks :
  Forall sendable_chunk chunks -> forall sequence, 0 <= sequence -> sequence + zlen chunks < 2 ^ 64 ->
  Forall wire_frame_ok (audio_frames id sequence chunks).
Proof.
  induction 1 as [|chunk chunks Hc _ IH]; intros n H0 Hn; cbn [audio_frames]; [constructor|].
  rewrite zlen_cons in Hn. pose proof (zlen_nonneg chunks). constructor; [|apply IH; lia].
  destruct (audio_message_layout id Hid chunk Hc) as [He Hl]. pose proof (sc_size chunk Hc).
  unfold VW_AUDIO_CHUNK_MAX_PCM_BYTES in *.
  assert (u32 (zlen (layout (audio_message id chunk))) = zlen (layout (audio_message id chunk))) as Eu
    by (apply u32_id; unfold is_unsigned; lia).
  destruct (message_header_ok (audio_message id chunk) (n + 1) He) as (Hv & _); [unfold VW_MAX_PAYLOAD_BYTES; lia|].
  unfold audio_frame, wire_frame_ok, wf_header, is_unsigned. cbn in *. rewrite Eu in *.
  split_and!; try done; try lia.
Qed.
Lemma audio_frames_fresh chunks : forall sequence last,
  (forall l, last = Some l -> l <= sequence) ->
  fresh last (audio_frames id sequence chunks) = audio_frames id sequence chunks.
Proof.
  induction chunks as [|chunk chunks IH]; intros n last Hl; [done|]. cbn [audio_frames fresh audio_frame fst hdr_sequence].
  assert (stale last (n + 1) = false) as ->.
  { destruct last as [l|]; [|done]. specialize (Hl l eq_refl). simpl. lia. }
  rewrite IH; [done|]. by intros l [= <-].
Qed.
Lemma audio_frames_heard chunks :
  Forall sendable_chunk chunks -> forall sequence,
  mapM (hear id) (map queued (audio_frames id sequence chunks))
  = Some (map (fun c => (chunk_start_pts_us c, chunk_pcm c)) chunks).
Proof.
  induction 1 as [|chunk chunks Hc _ IH]; intros n; [done|]. cbn [audio_frames map mapM]. unfold audio_frame at 1.
  rewrite chunk_heard by done. cbn [mbind option_bind]. by rewrite IH.
Qed.
End worker.

(** ** The block *)

Lemma contiguous_later chunks : forall pts finish,
  contiguous 16000 pts chunks finish -> pts <= finish.
Proof.
  induction chunks as [|c chunks IH]; intros pts finish; cbn [contiguous]; [lia|].
  intros (_ & Hd & Hb & Hs & _ & _ & H%IH).
  destruct (chunk_duration_bytes (zlen (chunk_pcm c))) as [? _]; [|lia].
  unfold max_out_frames_per_chunk, VW_AUDIO_CHUNK_MAX_PCM_BYTES in *. change (16384 / 2) with 8192. lia.
Qed.
Lemma contiguous_sendable chunks finish :
  Forall (is_signed 16) (concat (map chunk_pcm chunks)) -> finish <= MAX_AUDIO_PTS_US ->
  forall pts, 0 <= pts -> contiguous 16000 pts chunks finish -> Forall sendable_chunk chunks.
Proof.
  intros Hs Hf. induction chunks as [|c chunks IH]; intros pts H0; [constructor|].
  intros H. pose proof (contiguous_later _ _ _ H). cbn [map concat] in Hs. apply Forall_app in Hs as [Hc Hs].
  cbn [contiguous] in H. destruct H as (<- & Hd & Hb & Hl & _ & _ & H). constructor; [by split; try lia|].
  apply (IH Hs (chunk_start_pts_us c + chunk_duration_us c)); [|done].
  rewrite Hd. unfold chunk_duration. pose proof (zlen_nonneg (chunk_pcm c)). Z.to_euclidean_division_equations; lia.
Qed.

Lemma push_all_room chunks : forall q,
  spsc_inv q -> spsc_count q + zlen chunks <= sq_capacity_chunks q ->
  spsc_contents (push_all q chunks) = spsc_contents q ++ chunks.
Proof.
  induction chunks as [|c chunks IH]; intros q Hq Hr; [by rewrite app_nil_r|].
  rewrite zlen_cons in Hr. pose proof (zlen_nonneg chunks). pose proof (spsc_push_spec q c Hq) as [Hq' Hc].
  unfold push_all in *. cbn [fold_left]. unfold vw_spsc_queue_push in *. rewrite spsc_full_iff in * by done.
  replace (spsc_count q =? sq_capacity_chunks q) with false in * by lia. cbn [fst snd] in *.
  assert (spsc_count (spsc_publish (spsc_write q c)) = spsc_count q + 1) as En.
  { rewrite spsc_count_publish; [done|by apply spsc_inv_write|]. change (spsc_count q <> sq_capacity_chunks q). lia. }
  rewrite IH, Hc, <- app_assoc; [done..|]. rewrite En. simpl. lia.
Qed.

(** ** Property *)

Section path.
Context {X : Type} `{!ClientEnv X}.

(** C6: The sound the user plays is the sound the worker hears. Of an accepted block
    the chunks fit the queue in order when it has room; when a client in a session
    sends them and its transport stays open, then in whatever pieces the bytes reach
    the worker, its reader goes on and every frame it queues decodes, validates and
    passes the session's checks, with the samples and the time of one chunk, in order.
    The times run from the block's without gap or overlap, and the samples heard are
    exactly the downmixed and resampled block. *)
Theorem audio_reaches_worker (cap : vw_audio_capture_t) (input : vw_audio_input_t) (q : vw_spsc_queue_t)
    (pcm : list Z) (id : vw_session_id_t) (c : client X) (last : option Z) (answers : list recv) :
  accepted_block cap input q pcm ->
  0 <= capture_start_acc (capture_reset cap) input < in_sample_rate input ->
  cap_target_rate cap = 16000 -> spsc_inv q ->
  is_array 16 id -> in_session id c -> 0 <= c_sequence c -> (forall l, last = Some l -> l <= c_sequence c) ->
  let cap' := snd (vw_audio_capture_process_block cap input) in
  let chunks := cv_pushed (capture_convert (capture_reset cap) input pcm) in
  let c' := client_run (map SendAudio chunks) c in
  0 <= in_pts_us input -> cap_last_pts_us cap' <= MAX_AUDIO_PTS_US ->
  c_sequence c + zlen chunks < 2 ^ 64 -> c_pipe c' = true ->
  cap_queue cap' = Some (push_all q chunks)
  /\ contiguous 16000 (in_pts_us input) chunks (cap_last_pts_us cap')
  /\ (spsc_count q + zlen chunks <= sq_capacity_chunks q -> spsc_contents (push_all q chunks) = spsc_contents q ++ chunks)
  /\ exists sent, c_sent c' = c_sent c ++ sent
  /\ (answers_ok (reader_at last) answers -> concat (map received answers) = concat (map fst sent) ->
      exists frames r heard,
        reader_run (reader_at last) answers = (frames, Some r)
        /\ mapM (hear id) frames = Some heard
        /\ heard = map (fun ch => (chunk_start_pts_us ch, chunk_pcm ch)) chunks
        /\ concat (map snd heard)
           = resampled (mono_sample input pcm) 16000 (in_sample_rate input)
               (capture_start_acc (capture_reset cap) input) 0 (Z.to_nat (in_frame_count input))).
Proof.
  intros Ha Hacc Et Hq Hid Hc Hn Hl cap' chunks c' H0 Hend Hseq Hp.
  destruct (capture_convert_spec cap input q pcm (capture_reset cap) Ha (reset_target cap) Hacc) as (H1 & H2 & _ & _).
  fold chunks in H1, H2. rewrite Et in H1, H2. unfold cap' in *. rewrite (process_block_accepted cap input q pcm Ha) in *.
  assert (Forall sendable_chunk chunks) as Hs.
  { eapply contiguous_sendable; [|exact Hend|exact H0|exact H1]. rewrite H2. apply resampled_signed, mono_sample_signed. }
  split; [done|]. split; [done|]. split; [by apply push_all_room|].
  exists (pieces (audio_frames id (c_sequence c) chunks)). split; [by apply send_chunks_open|]. intros Hr Hb.
  rewrite pieces_bytes in Hb.
  destruct (reader_run_wire_at last _ answers (audio_frames_ok id Hid chunks Hs _ Hn Hseq) Hr Hb) as [r Hrun].
  rewrite audio_frames_fresh in Hrun by done. eexists _, r, _. split; [exact Hrun|].
  split; [by apply audio_frames_heard|]. split; [done|]. rewrite map_map. exact H2.
Qed.
End path.

(** ** Witness: a block of one output sample, its frame in three pieces *)

#[local] Instance open_pipe_env : ClientEnv unit := {
  pipe_send x _ := (true, x);
  pipe_close x := x;
  pipe_connect x _ := (Some [], x);
  client_now x := (0, x);
  random_bytes x n := (Some (zreplicate n 7), x);
  spawn_process x _ _ := (true, x);
  wait_process x _ := (true, x);
  terminate_process x := x;
  close_process x := x;
  sleep_ms x _ := x
}.
Definition session_client : client unit :=
  (client_start false [] [] tt) <| c_pipe := true |> <| c_session_active := true |>
    <| c_session_id := zreplicate 16 7 |> <| c_sequence := 4 |>.
Definition one_slot : vw_spsc_queue_t := mk_spsc [empty_chunk; empty_chunk] 1 0 0 0.
Definition block_chunks : list vw_audio_chunk_t :=
  cv_pushed (capture_convert (capture_reset fresh_capture) stereo_block [100; 300; 0; 0; -50; -51]).
Definition block_bytes : list Z :=
  wire_bytes (audio_frames (zreplicate 16 7) 4 block_chunks).
Definition block_answers : list recv :=
  [Received (ztake 20 block_bytes); RecvTimeout; Received (ztake 4 (zdrop 20 block_bytes));
   Received (zdrop 24 block_bytes)].

Lemma audio_reaches_worker_witness :
  spsc_contents (push_all one_slot block_chunks) = block_chunks
  /\ exists frames r heard,
    reader_run (reader_at (Some 4)) block_answers = (frames, Some r)
    /\ mapM (hear (zreplicate 16 7)) frames = Some heard
    /\ heard = [(1000, [200])] /\ concat (map snd heard) = [200].
Proof.
  destruct (audio_reaches_worker fresh_capture stereo_block one_slot [100; 300; 0; 0; -50; -51] (zreplicate 16 7)
              session_client (Some 4) block_answers) as (_ & _ & Hq & sent & Hs & H).
  - exact fresh_accepted.
  - vm_compute. split; done.
  - reflexivity.
  - split; vm_compute; repeat split; done.
  - vm_decide.
  - split; reflexivity.
  - vm_compute. discriminate.
  - intros l [= <-]. vm_compute. discriminate.
  - vm_compute. discriminate.
  - vm_compute. discriminate.
  - vm_compute. reflexivity.
  - vm_compute. reflexivity.
  - split; [apply Hq; vm_compute; discriminate|].
    assert (sent = pieces (audio_frames (zreplicate 16 7) 4 block_chunks)) as -> by (rewrite app_nil_l in Hs; by rewrite <- Hs).
    destruct H as (frames & r & heard & H1 & H2 & -> & H4).
    + repeat split; try vm_decide; vm_compute; congruence.
    + vm_compute. reflexivity.
    + eexists frames, r, _. split; [exact H1|]. split; [exact H2|]. split; [vm_compute; reflexivity|exact H4].
Defined.
