(* ===== verification/WorkerClientLaunch.v ===== *)
(** * The command line between the plugin and the worker

    [vw_worker_client_launch_and_connect_ex] prints the options the worker's
    [vw_worker_config_parse_args] reads. *)

From S2P Require Import Prelude.
From S2P Require Import CString.
From S2P Require Import ProtocolTypes.
From S2P Require Import WorkerConfig.
From S2P Require Import WorkerClient.
#[local] Open Scope Z_scope.

(** What the worker understands by the plugin's backend setting. *)
Definition backend_of (backend : option (list Z)) : option vw_worker_backend_t :=
  let b := eff_backend backend in
  if bool_decide (b = str "auto") then Some VW_WORKER_BACKEND_AUTO
  else if bool_decide (b = str "gpu") then Some VW_WORKER_BACKEND_GPU
  else if bool_decide (b = str "cpu") then Some VW_WORKER_BACKEND_CPU
  else None.

Section launch.
(** [whisper_lang_id] of whisper.cpp. *)
Context (whisper_lang_id : list Z -> Z).
#[local] Abbreviation parse := (vw_worker_config_parse_args whisper_lang_id).

(** Settings the worker has room for and knows. *)
Record launchable (endpoint tok : list Z) (model backend language : option (list Z)) (gpu_device : Z)
    (model_dir : option (list Z)) : Prop := {
  la_endpoint : zlen endpoint < sizeof_pipe_name;
  la_token : is_array VW_AUTH_TOKEN_BYTES tok;
  la_model : zlen (default [] model) < VW_PATH_MAX_BYTES;
  la_backend : backend_of backend <> None;
  la_language : zlen (eff_language language) < sizeof_language;
  la_not_auto : eff_language language <> str "auto";
  la_known : 0 <= whisper_lang_id (eff_language language);
  la_gpu : gpu_device <= 65535;
  la_dir : zlen (default [] model_dir) < VW_PATH_MAX_BYTES
}.

(** *** One option and its value *)

Lemma parse_value c c' opt v rest :
  parse_option whisper_lang_id c opt (Some v) = Some (c', true) -> parse c (opt :: v :: rest) = parse c' rest.
Proof. intros H. cbn [vw_worker_config_parse_args head]. by rewrite H. Qed.

(** Decide which option it is. *)
Ltac which_option :=
  unfold parse_option;
  repeat match goal with
  | |- context [bool_decide (str ?a = str ?b)] =>
      let v := eval vm_compute in (bool_decide (str a = str b)) in change (bool_decide (str a = str b)) with v
  end; cbv iota; cbn [mbind option_bind].

Lemma sized_fits n s : zlen s < n -> sized n s = Some s.
Proof. intros H. unfold sized. by replace (zlen s <? n) with true by lia. Qed.

Lemma parse_pipe c v rest :
  zlen v < sizeof_pipe_name ->
  parse c (str "--pipe" :: v :: rest) =
  parse (mk_config (cfg_model_path c) (cfg_model_dir c) (cfg_vad_model_path c) (cfg_language c) (cfg_n_threads c)
    (cfg_sample_rate c) v (cfg_log_file c) (cfg_logging_enabled c) (cfg_auth_token c) (cfg_backend c) (cfg_gpu_device c)) rest.
Proof. intros H. apply parse_value. destruct c. which_option. by rewrite sized_fits. Qed.
Lemma parse_token c tok rest :
  is_array VW_AUTH_TOKEN_BYTES tok ->
  parse c (str "--token" :: token_to_hex tok :: rest) =
  parse (mk_config (cfg_model_path c) (cfg_model_dir c) (cfg_vad_model_path c) (cfg_language c) (cfg_n_threads c)
    (cfg_sample_rate c) (cfg_pipe_name c) (cfg_log_file c) (cfg_logging_enabled c) tok (cfg_backend c) (cfg_gpu_device c)) rest.
Proof.
  intros [Hl Hb]. apply parse_value. destruct c. which_option. unfold vw_token_from_hex.
  by rewrite zlen_token_to_hex, Hl, hex_pairs_to_hex.
Qed.
Lemma parse_model c v rest :
  zlen v < VW_PATH_MAX_BYTES ->
  parse c (str "--model" :: v :: rest) =
  parse (mk_config v (cfg_model_dir c) (cfg_vad_model_path c) (cfg_language c) (cfg_n_threads c) (cfg_sample_rate c)
    (cfg_pipe_name c) (cfg_log_file c) (cfg_logging_enabled c) (cfg_auth_token c) (cfg_backend c) (cfg_gpu_device c)) rest.
Proof. intros H. apply parse_value. destruct c. which_option. by rewrite sized_fits. Qed.
Lemma parse_model_dir c v rest :
  zlen v < VW_PATH_MAX_BYTES ->
  parse c (str "--model-dir" :: v :: rest) =
  parse (mk_config (cfg_model_path c) v (cfg_vad_model_path c) (cfg_language c) (cfg_n_threads c) (cfg_sample_rate c)
    (cfg_pipe_name c) (cfg_log_file c) (cfg_logging_enabled c) (cfg_auth_token c) (cfg_backend c) (cfg_gpu_device c)) rest.
Proof. intros H. apply parse_value. destruct c. which_option. by rewrite sized_fits. Qed.
Lemma parse_backend c b backend rest :
  backend_of backend = Some b ->
  parse c (str "--backend" :: eff_backend backend :: rest) =
  parse (mk_config (cfg_model_path c) (cfg_model_dir c) (cfg_vad_model_path c) (cfg_language c) (cfg_n_threads c)
    (cfg_sample_rate c) (cfg_pipe_name c) (cfg_log_file c) (cfg_logging_enabled c) (cfg_auth_token c) b (cfg_gpu_device c)) rest.
Proof.
  unfold backend_of. intros H. apply parse_value. destruct c. which_option. cbv zeta in H. by rewrite H.
Qed.
Lemma parse_gpu c n rest :
  0 <= n <= 65535 ->
  parse c (str "--gpu-device" :: decimal n :: rest) =
  parse (mk_config (cfg_model_path c) (cfg_model_dir c) (cfg_vad_model_path c) (cfg_language c) (cfg_n_threads c)
    (cfg_sample_rate c) (cfg_pipe_name c) (cfg_log_file c) (cfg_logging_enabled c) (cfg_auth_token c) (cfg_backend c) n) rest.
Proof.
  intros H. apply parse_value. destruct c. which_option. rewrite strtol_decimal by (unfold INT64_MAX; lia). cbn.
  by replace ((n <? 0) || (65535 <? n)) with false by lia.
Qed.
Lemma parse_language c v rest :
  v <> [] -> zlen v < sizeof_language -> v <> str "auto" -> 0 <= whisper_lang_id v ->
  parse c (str "--language" :: v :: rest) =
  parse (mk_config (cfg_model_path c) (cfg_model_dir c) (cfg_vad_model_path c) v (cfg_n_threads c)
    (cfg_sample_rate c) (cfg_pipe_name c) (cfg_log_file c) (cfg_logging_enabled c) (cfg_auth_token c) (cfg_backend c)
    (cfg_gpu_device c)) rest.
Proof.
  intros Hne Hl Ha Hk. apply parse_value. destruct c. which_option.
  assert (zlen v <> 0) by (by intros ?%zlen_zero).
  replace ((zlen v =? 0) || (sizeof_language <=? zlen v)) with false by lia. rewrite bool_decide_eq_false_2 by done.
  by replace (whisper_lang_id v <? 0) with false by lia.
Qed.
Lemma parse_threads c n rest :
  1 <= n <= 16 ->
  parse c (str "--n-threads" :: decimal n :: rest) =
  parse (mk_config (cfg_model_path c) (cfg_model_dir c) (cfg_vad_model_path c) (cfg_language c) n
    (cfg_sample_rate c) (cfg_pipe_name c) (cfg_log_file c) (cfg_logging_enabled c) (cfg_auth_token c) (cfg_backend c)
    (cfg_gpu_device c)) rest.
Proof.
  intros H. apply parse_value. destruct c. which_option. rewrite strtol_decimal by (unfold INT64_MAX; lia). cbn.
  replace (n <? 1) with false by lia. by replace (16 <? n) with false by lia.
Qed.
Lemma parse_logging c (enabled : bool) :
  cfg_logging_enabled c = false ->
  parse c (if enabled then [str "--enable-logging"] else []) =
  Some (mk_config (cfg_model_path c) (cfg_model_dir c) (cfg_vad_model_path c) (cfg_language c) (cfg_n_threads c)
    (cfg_sample_rate c) (cfg_pipe_name c) (cfg_log_file c) enabled (cfg_auth_token c) (cfg_backend c) (cfg_gpu_device c)).
Proof. destruct c. simpl. intros ->. destruct enabled; [|done]. cbn [vw_worker_config_parse_args]. by which_option. Qed.

(** *** Options that may be absent *)

Lemma parse_opt_model c model rest :
  zlen (default [] model) < VW_PATH_MAX_BYTES ->
  parse c (match model with Some m => [str "--model"; m] | None => [] end ++ rest) =
  parse (mk_config (default (cfg_model_path c) model) (cfg_model_dir c) (cfg_vad_model_path c) (cfg_language c)
    (cfg_n_threads c) (cfg_sample_rate c) (cfg_pipe_name c) (cfg_log_file c) (cfg_logging_enabled c) (cfg_auth_token c)
    (cfg_backend c) (cfg_gpu_device c)) rest.
Proof. intros H. destruct model as [m|]; [by apply parse_model|by destruct c]. Qed.
Lemma parse_opt_gpu c n rest :
  n <= 65535 -> cfg_gpu_device c = 0 ->
  parse c ((if 0 <=? n then [str "--gpu-device"; decimal n] else []) ++ rest) =
  parse (mk_config (cfg_model_path c) (cfg_model_dir c) (cfg_vad_model_path c) (cfg_language c) (cfg_n_threads c)
    (cfg_sample_rate c) (cfg_pipe_name c) (cfg_log_file c) (cfg_logging_enabled c) (cfg_auth_token c) (cfg_backend c)
    (Z.max 0 n)) rest.
Proof.
  intros H Hc. destruct (Z.leb_spec 0 n); [rewrite Z.max_r by lia; by apply parse_gpu|].
  rewrite Z.max_l by lia. rewrite <- Hc. by destruct c.
Qed.
Lemma parse_opt_dir c dir rest :
  zlen (default [] dir) < VW_PATH_MAX_BYTES -> cfg_model_dir c = [] ->
  parse c (match dir with Some ((_ :: _) as d) => [str "--model-dir"; d] | _ => [] end ++ rest) =
  parse (mk_config (cfg_model_path c) (default [] dir) (cfg_vad_model_path c) (cfg_language c) (cfg_n_threads c)
    (cfg_sample_rate c) (cfg_pipe_name c) (cfg_log_file c) (cfg_logging_enabled c) (cfg_auth_token c) (cfg_backend c)
    (cfg_gpu_device c)) rest.
Proof.
  intros H Hc. destruct dir as [[|x d]|]; [|by apply parse_model_dir|]; simpl; rewrite <- Hc; by destruct c.
Qed.

Lemma eff_language_nonempty language : eff_language language <> [].
Proof. by destruct language as [[|]|]. Qed.
Lemma eff_threads_range n : 1 <= eff_threads n <= 16.
Proof. unfold eff_threads. case_goal; bool_to_prop; lia. Qed.

(** Evaluate the fields of the configuration so far. *)
Ltac read_fields :=
  cbn [app cfg_model_path cfg_model_dir cfg_vad_model_path cfg_language cfg_n_threads cfg_sample_rate cfg_pipe_name
       cfg_log_file cfg_logging_enabled cfg_auth_token cfg_backend cfg_gpu_device vw_worker_config_init_defaults].

(** ** Properties *)

(** The worker is configured as the plugin launched it: it accepts the command
    line the plugin prints for settings in range and reads back the endpoint, the
    token, the model, the backend, the language, the number of threads brought
    into 1..16, the device, the model directory and the logging switch, and leaves
    everything else at its default. *)
Theorem launch_options_parsed path endpoint tok model backend language n_threads gpu_device model_dir logging :
  launchable endpoint tok model backend language gpu_device model_dir ->
  parse vw_worker_config_init_defaults
    (tail (launch_argv path endpoint tok model backend language n_threads gpu_device model_dir logging)) =
  Some (mk_config (default (str "models/ggml-tiny.bin") model) (default [] model_dir) [] (eff_language language)
    (eff_threads n_threads) 16000 endpoint [] logging tok (default VW_WORKER_BACKEND_AUTO (backend_of backend))
    (Z.max 0 gpu_device)).
Proof.
  intros [L1 L2 L3 L4 L5 L6 L7 L8 L9]. destruct (backend_of backend) as [b|] eqn:Eb; [|done].
  unfold launch_argv. cbn [tail app]. rewrite parse_pipe, parse_token by done. read_fields.
  rewrite parse_opt_model by done. read_fields. rewrite (parse_backend _ b) by done. read_fields.
  rewrite parse_opt_gpu by done. read_fields. rewrite parse_language by (done || apply eff_language_nonempty).
  read_fields. rewrite parse_threads by apply eff_threads_range. read_fields.
  rewrite parse_opt_dir by done. read_fields. by rewrite parse_logging.
Qed.
End launch.

(** ** Witness *)

Lemma launch_options_parsed_witness :
  vw_worker_config_parse_args (fun _ => 0) vw_worker_config_init_defaults
    (tail (launch_argv (str "worker") (str "pipe-7") (zreplicate 32 171) None (Some (str "gpu")) (Some (str "de")) 99 (-1) None true)) =
  Some (mk_config (str "models/ggml-tiny.bin") [] [] (str "de") 4 16000 (str "pipe-7") [] true (zreplicate 32 171)
    VW_WORKER_BACKEND_GPU 0).
Proof.
  apply (launch_options_parsed (fun _ => 0) (str "worker") (str "pipe-7") (zreplicate 32 171) None (Some (str "gpu"))
    (Some (str "de")) 99 (-1) None true).
  split; vm_decide.
Defined.
