(* ===== verification/WorkerClientReceive.v ===== *)
(** * What the plugin's client receives

    The receive loops of [WorkerClient] on what arrives over the connection: they
    stay at frame boundaries, or give the transport up. *)

From S2P Require Import Prelude.
From S2P Require Import ProtocolTypes.
From S2P Require Import Validate.
From S2P Require Import Codec.
From S2P Require Import State.
From S2P Require Import WorkerReader.
From S2P Require Import WorkerClient.
From S2P Require Import WorkerClientWire.
#[local] Open Scope Z_scope.

Section receive.
Context {X : Type} `{!ClientEnv X}.
Implicit Types c : client X.

(** The bytes still to arrive. *)
Definition stream c : list Z := concat (map received (c_inbox c)).
Definition left c : nat := inbox_size (c_inbox c).

(** Only the connection has moved on. *)
Definition quiet c c' : Prop := exists inbox x, c' = c <| c_inbox := inbox |> <| c_ext := x |>.
#[local] Instance quiet_preorder : PreOrder quiet.
Proof.
  split; [intros c; exists (c_inbox c), (c_ext c); by destruct c|].
  intros c1 c2 c3 (i1 & x1 & ->) (i2 & x2 & ->). by exists i2, x2.
Qed.
Lemma quiet_pipe c c' : quiet c c' -> c_pipe c' = c_pipe c.
Proof. by intros (i & x & ->). Qed.

Lemma calls_run {A} (f : X -> A * X) c : calls f c = (fst (f (c_ext c)), c <| c_ext := snd (f (c_ext c)) |>).
Proof. unfold calls. by destruct (f (c_ext c)). Qed.
Lemma now_run c : now c = (fst (client_now (c_ext c)), c <| c_ext := snd (client_now (c_ext c)) |>).
Proof. apply calls_run. Qed.
Lemma now_quiet c : quiet c (snd (now c)) /\ stream (snd (now c)) = stream c /\ left (snd (now c)) = left c.
Proof. rewrite now_run. split_and!; try done. exists (c_inbox c), (snd (client_now (c_ext c))). by destruct c. Qed.

Lemma inbox_size_cons res inbox : inbox_size (res :: inbox) = S (length (received res) + inbox_size inbox).
Proof. done. Qed.
Lemma pipe_receive_spec n c :
  0 < n ->
  let r := pipe_receive n c in
  quiet c (snd r) /\ stream c = received (fst r) ++ stream (snd r) /\ zlen (received (fst r)) <= n
  /\ (left (snd r) + length (received (fst r)) <= left c)%nat
  /\ (fst r = RecvFatal \/ (left (snd r) < left c)%nat).
Proof.
  intros Hn. assert (forall i, quiet c (c <| c_inbox := i |>)) as Hq by (intros i; exists i, (c_ext c); by destruct c).
  unfold pipe_receive, stream, left. destruct (c_inbox c) as [|res inbox] eqn:E.
  { simpl. rewrite E, zlen_nil. simpl. split_and!; [reflexivity|done|lia|lia|by left]. }
  destruct res as [bytes| |];
    [|by simpl; rewrite zlen_nil; split_and!; try apply Hq; try done; try lia; right; lia..].
  destruct (Z.leb_spec (zlen bytes) n); cbn [fst snd c_inbox]; (split; [apply Hq|]); simpl.
  - split_and!; try done; lia.
  - rewrite app_assoc, ztake_zdrop. unfold zlen, zdrop, ztake in *. rewrite length_drop, length_take.
    split_and!; try done; lia.
Qed.

(** *** [receive_all] *)

Definition clean (status : recv_status) (got : list Z) : Prop :=
  match status with VW_IPC_RECV_TIMEOUT => got = [] | _ => True end.

Lemma timed_out_clean got : timed_out got <> VW_IPC_RECV_OK /\ clean (timed_out got) got.
Proof. unfold timed_out. destruct (Z.eqb_spec (zlen got) 0); (split; [done|]); simpl; [by apply zlen_zero|done]. Qed.

(** What the loop returns is what it had and what it took. *)
Definition took (len : Z) (got : list Z) c (r : (recv_status * list Z) * client X) : Prop :=
  exists taken, snd (fst r) = got ++ taken /\ quiet c (snd r) /\ stream c = taken ++ stream (snd r)
    /\ (left (snd r) + length taken <= left c)%nat
    /\ zlen (got ++ taken) <= Z.max (zlen got) len
    /\ clean (fst (fst r)) (got ++ taken)
    /\ (fst (fst r) = VW_IPC_RECV_OK -> len <= zlen (got ++ taken)).
Lemma took_stop len got c c1 status :
  quiet c c1 -> stream c1 = stream c -> (left c1 <= left c)%nat -> clean status got ->
  (status = VW_IPC_RECV_OK -> len <= zlen got) -> took len got c ((status, got), c1).
Proof. intros Hq Hs Hl Hc Ho. exists []. rewrite !app_nil_r. simpl. split_and!; try done; try lia. Qed.
Lemma took_more len got more c c1 r :
  quiet c c1 -> stream c = more ++ stream c1 -> (left c1 + length more <= left c)%nat -> zlen (got ++ more) <= Z.max (zlen got) len ->
  took len (got ++ more) c1 r -> took len got c r.
Proof.
  intros Hq Hs Hl Hz (taken & H1 & H2 & H3 & H4 & H5 & H6 & H7). exists (more ++ taken). rewrite app_assoc, length_app.
  split_and!; try done; try lia; [by etrans|]. rewrite Hs, H3. by rewrite app_assoc.
Qed.
Lemma receive_loop_spec fuel len deadline : forall got c,
  took len got c (receive_loop fuel len deadline got c).
Proof.
  induction fuel as [|fuel IH]; intros got c; cbn [receive_loop]; [by apply took_stop|].
  destruct (Z.leb_spec len (zlen got)); [by apply took_stop|].
  rewrite bind_run. destruct (now_quiet c) as (Q1 & S1 & L1). destruct (now c) as [t1 c1]. cbn [fst snd] in *.
  destruct (t1 <? 0); [by apply took_stop; try lia|].
  destruct (timed_out_clean got) as [Hto Hcl].
  destruct (deadline <=? t1); [by apply took_stop; try lia|].
  rewrite bind_run. pose proof (pipe_receive_spec (len - zlen got) c1 ltac:(lia)) as (Q2 & S2 & Z2 & L2 & _).
  destruct (pipe_receive (len - zlen got) c1) as [res c2]. cbn [fst snd] in *.
  assert (quiet c c2) as Q by (by etrans). rewrite S1 in S2. rewrite L1 in L2.
  destruct res as [bytes| |]; simpl in S2, L2, Z2.
  - apply (took_more len got bytes c c2); [done..|rewrite zlen_app; lia|apply IH].
  - rewrite bind_run. destruct (now_quiet c2) as (Q3 & S3 & L3). destruct (now c2) as [t2 c3]. cbn [fst snd] in *.
    assert (quiet c c3) as Q' by (by etrans). rewrite <- S2 in S3.
    destruct (deadline <=? t2); [by apply took_stop; try lia|].
    apply (took_more len got [] c c3); rewrite ?app_nil_r; [done|done|simpl; lia|lia|apply IH].
  - by apply took_stop; try lia.
Qed.
Lemma receive_all_spec len deadline c :
  let r := receive_all len deadline c in
  exists taken, snd (fst r) = taken /\ quiet c (snd r) /\ stream c = taken ++ stream (snd r)
    /\ (left (snd r) + length taken <= left c)%nat /\ clean (fst (fst r)) taken
    /\ (fst (fst r) = VW_IPC_RECV_OK -> zlen taken = Z.max 0 len).
Proof.
  unfold receive_all, receive_fuel, gets. rewrite bind_run. simpl.
  destruct (receive_loop_spec (S (S (inbox_size (c_inbox c)))) len deadline [] c) as (taken & H1 & H2 & H3 & H4 & H5 & H6 & H7).
  simpl in *. rewrite zlen_nil in H5. pose proof (zlen_nonneg taken).
  exists taken. split_and!; try done. intros Ho. specialize (H7 Ho). lia.
Qed.

(** More fuel than there is to receive changes nothing. *)
Lemma receive_loop_fuel n : forall m len deadline got c,
  (left c < n)%nat -> (left c < m)%nat -> receive_loop n len deadline got c = receive_loop m len deadline got c.
Proof.
  induction n as [|n IH]; intros m len deadline got c Hn Hm; [lia|]. destruct m as [|m]; [lia|]. cbn [receive_loop].
  destruct (Z.leb_spec len (zlen got)); [done|]. rewrite !bind_run.
  destruct (now_quiet c) as (_ & _ & L1). destruct (now c) as [t1 c1]. cbn [fst snd] in *.
  destruct (t1 <? 0); [done|]. destruct (deadline <=? t1); [done|]. rewrite !bind_run.
  pose proof (pipe_receive_spec (len - zlen got) c1 ltac:(lia)) as (_ & _ & _ & _ & L2).
  destruct (pipe_receive (len - zlen got) c1) as [res c2]. cbn [fst snd] in *.
  destruct res as [bytes| |]; [|rewrite !bind_run|done].
  - apply IH; destruct L2 as [|]; try done; lia.
  - destruct (now_quiet c2) as (_ & _ & L3). destruct (now c2) as [t2 c3]. cbn [fst snd] in *.
    destruct (deadline <=? t2); [done|]. apply IH; destruct L2 as [|]; try done; lia.
Qed.

(** *** Frames *)

(** The bytes of a whole frame with header [h] and payload [p]. *)
Definition frame_bytes (h : vw_frame_header_t) (p bytes : list Z) : Prop :=
  exists hdr_buf, bytes = hdr_buf ++ p /\ zlen hdr_buf = sizeof_header
    /\ vw_protocol_decode_header hdr_buf = Some h /\ zlen p = Z.max 0 (hdr_payload_length h).
Definition last_of c : option Z := if c_worker_sequence_valid c then Some (c_last_worker_sequence c) else None.

(** Whole frames that are stale or hold no message the client takes, with the number
    of the last one before and after. *)
Inductive passed_over : option Z -> list Z -> option Z -> Prop :=
  | pass_none last : passed_over last [] last
  | pass_stale last h p bytes rest last' :
      frame_bytes h p bytes -> stale last (hdr_sequence h) = true ->
      passed_over last rest last' -> passed_over last (bytes ++ rest) last'
  | pass_other last h p bytes rest last' :
      frame_bytes h p bytes -> stale last (hdr_sequence h) = false -> received_message (hdr_type h) p = None ->
      passed_over (Some (hdr_sequence h)) rest last' -> passed_over last (bytes ++ rest) last'.

(** Besides the connection, the number of the last frame. *)
Definition heard c c' : Prop := exists seq valid, quiet (c <| c_last_worker_sequence := seq |> <| c_worker_sequence_valid := valid |>) c'.
#[local] Instance heard_preorder : PreOrder heard.
Proof.
  split; [intros c; exists (c_last_worker_sequence c), (c_worker_sequence_valid c); destruct c; reflexivity|].
  intros c1 c2 c3 (s1 & v1 & i1 & x1 & ->) (s2 & v2 & i2 & x2 & ->). by exists s2, v2, i2, x2.
Qed.
Lemma quiet_heard c c' : quiet c c' -> heard c c'.
Proof. intros (i & x & ->). exists (c_last_worker_sequence c), (c_worker_sequence_valid c), i, x. by destruct c. Qed.
Lemma quiet_last c c' : quiet c c' -> last_of c' = last_of c.
Proof. by intros (i & x & ->). Qed.
Lemma stale_last c seq : stale_sequence c seq = stale (last_of c) seq.
Proof. unfold stale_sequence, last_of. by destruct (c_worker_sequence_valid c). Qed.

Lemma deadline_spec d c :
  let r := vw_worker_client_make_deadline d c in
  quiet c (snd r) /\ stream (snd r) = stream c /\ left (snd r) = left c.
Proof.
  unfold vw_worker_client_make_deadline. destruct (d <? 0); [by split_and!; [reflexivity|..]|]. rewrite bind_run.
  apply now_quiet.
Qed.
Lemma bounded_spec len c :
  let r := receive_bounded len c in
  quiet c (snd r) /\ (left (snd r) <= left c)%nat
  /\ (forall payload, fst r = Some payload -> stream c = payload ++ stream (snd r) /\ zlen payload = Z.max 0 len).
Proof.
  unfold receive_bounded. rewrite bind_run. destruct (deadline_spec 3000000 c) as (Q1 & S1 & L1).
  destruct (vw_worker_client_make_deadline 3000000 c) as [deadline c1]. cbn [fst snd] in *.
  destruct deadline as [d|]; [|by simpl; split_and!; try done; lia].
  destruct (Z.leb_spec len 0).
  - simpl. split_and!; [done|lia|]. intros p [= <-]. rewrite S1, zlen_nil. split; [done|lia].
  - rewrite bind_run. destruct (receive_all_spec len d c1) as (taken & T1 & T2 & T3 & T4 & _ & T6).
    destruct (receive_all len d c1) as [[status got] c2]. cbn [fst snd] in *. subst got. simpl.
    split_and!; [by etrans|lia|]. intros p Hp. rewrite <- S1. destruct status; simplify_eq. split; [done|]. by apply T6.
Qed.

(** One turn of the loop. *)
Definition turn_ok c (r : option (recv_status * option message) * client X) : Prop :=
  match fst r with
  | None =>
      exists h p bytes, frame_bytes h p bytes /\ stream c = bytes ++ stream (snd r) /\ heard c (snd r) /\ (left (snd r) < left c)%nat
      /\ (if stale (last_of c) (hdr_sequence h) then last_of (snd r) = last_of c
          else last_of (snd r) = Some (hdr_sequence h) /\ received_message (hdr_type h) p = None)
  | Some (VW_IPC_RECV_OK, Some m) =>
      exists h p bytes, frame_bytes h p bytes /\ stream c = bytes ++ stream (snd r) /\ heard c (snd r)
      /\ stale (last_of c) (hdr_sequence h) = false /\ last_of (snd r) = Some (hdr_sequence h)
      /\ received_message (hdr_type h) p = Some m
  | Some (VW_IPC_RECV_TIMEOUT, None) => quiet c (snd r) /\ stream (snd r) = stream c
  | Some (VW_IPC_RECV_FATAL, None) => c_pipe (snd r) = false
  | _ => False
  end.

Lemma fatal_turn c c1 : turn_ok c (fatal_frame c1).
Proof.
  unfold fatal_frame. rewrite bind_run. unfold turn_ok. simpl. apply drop_pipe.
Qed.
Lemma receive_step_spec deadline c : turn_ok c (receive_step deadline c).
Proof.
  unfold receive_step. rewrite bind_run.
  destruct (receive_all_spec sizeof_header deadline c) as (hb & T1 & Q1 & S1 & L1 & Hcl & Ho).
  destruct (receive_all sizeof_header deadline c) as [[status got] c1]. cbn [fst snd] in *. subst got.
  destruct status; [|simpl in Hcl; subst hb; by unfold turn_ok|apply fatal_turn].
  specialize (Ho eq_refl). change (zlen hb = sizeof_header) in Ho.
  destruct (vw_protocol_decode_header hb) as [h|] eqn:Eh; [|apply fatal_turn].
  destruct (vw_protocol_validate_header h); [|apply fatal_turn]. cbn [negb]. rewrite bind_run. simpl.
  assert (forall p, zlen p = Z.max 0 (hdr_payload_length h) -> frame_bytes h p (hb ++ p)) as Hf by (intros p Hp; by exists hb).
  assert (left c1 < left c)%nat as Hl by (unfold zlen, sizeof_header in Ho; lia).
  rewrite stale_last, (quiet_last c c1 Q1). destruct (stale (last_of c) (hdr_sequence h)) eqn:Est.
  - destruct (Z.ltb_spec 0 (hdr_payload_length h)).
    + rewrite bind_run. destruct (bounded_spec (hdr_payload_length h) c1) as (Q2 & L2 & P2).
      destruct (receive_bounded _ c1) as [[p|] c2]; cbn [fst snd] in *; [|apply fatal_turn].
      destruct (P2 p eq_refl) as [S2 Z2]. unfold turn_ok. cbn [fst snd]. assert (quiet c c2) as Q by (by etrans).
      exists h, p, (hb ++ p). rewrite Est, S1, S2, app_assoc. split_and!; auto using quiet_heard, quiet_last. simpl. lia.
    + unfold turn_ok. cbn [fst snd mret M_ret]. exists h, [], (hb ++ []). rewrite Est, app_nil_r.
      split_and!; auto using quiet_heard, quiet_last. rewrite <- (app_nil_r hb). apply Hf. rewrite zlen_nil. lia.
  - unfold fresh_frame, note_sequence, modify. rewrite !bind_run. cbn [snd fst].
    set (c1' := c1 <| c_last_worker_sequence := _ |> <| c_worker_sequence_valid := true |>).
    assert (heard c c1') as H1.
    { etrans; [by apply quiet_heard|]. exists (hdr_sequence h), true. reflexivity. }
    destruct (bounded_spec (hdr_payload_length h) c1') as (Q2 & L2 & P2).
    destruct (receive_bounded _ c1') as [[p|] c2]; cbn [fst snd] in *; [|apply fatal_turn].
    destruct (P2 p eq_refl) as [S2 Z2]. change (stream c1') with (stream c1) in S2. change (left c1') with (left c1) in L2.
    assert (heard c c2) as H2 by (etrans; [done|by apply quiet_heard]).
    pose proof (quiet_last _ _ Q2) as Hlast. change (last_of c1') with (Some (hdr_sequence h)) in Hlast.
    unfold turn_ok. cbn [fst snd mret M_ret]. destruct (received_message _ p) as [m|] eqn:Em;
      exists h, p, (hb ++ p); rewrite ?Est, S1, S2, app_assoc; split_and!; auto. lia.
Qed.

(** *** The whole call *)

Definition received_ok c (r : (recv_status * option message) * client X) : Prop :=
  match fst r with
  | (VW_IPC_RECV_OK, Some m) =>
      exists skipped last h p bytes,
        stream c = skipped ++ bytes ++ stream (snd r) /\ passed_over (last_of c) skipped last
        /\ frame_bytes h p bytes /\ stale last (hdr_sequence h) = false /\ last_of (snd r) = Some (hdr_sequence h)
        /\ received_message (hdr_type h) p = Some m /\ heard c (snd r)
  | (VW_IPC_RECV_TIMEOUT, None) =>
      exists skipped, stream c = skipped ++ stream (snd r) /\ passed_over (last_of c) skipped (last_of (snd r))
        /\ heard c (snd r)
  | (VW_IPC_RECV_FATAL, None) => c_pipe (snd r) = false
  | _ => False
  end.

Lemma passed_over_step c c1 h p bytes skipped last :
  frame_bytes h p bytes -> stream c = bytes ++ stream c1 ->
  (if stale (last_of c) (hdr_sequence h) then last_of c1 = last_of c
   else last_of c1 = Some (hdr_sequence h) /\ received_message (hdr_type h) p = None) ->
  passed_over (last_of c1) skipped last -> passed_over (last_of c) (bytes ++ skipped) last.
Proof.
  intros Hf _ Hif Hp. destruct (stale _ _) eqn:E.
  - rewrite Hif in Hp. by apply (pass_stale _ h p).
  - destruct Hif as [Hl Hm]. rewrite Hl in Hp. by apply (pass_other _ h p).
Qed.
Lemma received_ok_stop c c1 : quiet c c1 -> stream c1 = stream c -> received_ok c ((VW_IPC_RECV_TIMEOUT, None), c1).
Proof.
  intros Q S. exists []. simpl. rewrite S, (quiet_last c c1 Q). split_and!; [done|constructor|by apply quiet_heard].
Qed.
Lemma received_ok_quiet c c1 r : quiet c c1 -> stream c1 = stream c -> received_ok c1 r -> received_ok c r.
Proof.
  intros Q S. unfold received_ok. rewrite S, (quiet_last c c1 Q).
  assert (heard c1 (snd r) -> heard c (snd r)) by (intros; etrans; [by apply quiet_heard|done]).
  destruct (fst r) as [[] [m|]]; try done.
  - intros (sk & l & h & p & b & Hr). exists sk, l, h, p, b. destruct_and!. split_and!; auto.
  - intros (sk & Hr). exists sk. destruct_and!. split_and!; auto.
Qed.
Lemma receive_frame_loop_spec deadline fuel : forall c, received_ok c (receive_frame_loop fuel deadline c).
Proof.
  induction fuel as [|fuel IH]; intros c; cbn [receive_frame_loop]; [by apply received_ok_stop; [reflexivity|]|].
  rewrite bind_run. destruct (now_quiet c) as (Q1 & S1 & _). destruct (now c) as [t c1]. cbn [fst snd] in *.
  destruct (deadline <=? t); [by apply received_ok_stop|]. apply (received_ok_quiet c c1); [done..|].
  rewrite bind_run. pose proof (receive_step_spec deadline c1) as H. unfold turn_ok in H.
  destruct (receive_step deadline c1) as [[[st om]|] c2]; cbn [fst snd] in *; [destruct st, om as [m|]; try done|].
  - destruct H as (h & p & bytes & Hf & Hs & Hh & Hst & Hl & Hm). exists [], (last_of c1), h, p, bytes.
    split_and!; try done. constructor.
  - destruct H as [Q2 S2]. by apply received_ok_stop.
  - destruct H as (h & p & bytes & Hf & Hs & Hh & _ & Hif). specialize (IH c2). unfold received_ok in *.
    destruct (receive_frame_loop fuel deadline c2) as [[[] [m|]] c3]; cbn [fst snd] in *; try done.
    + destruct IH as (sk & last & h' & p' & b' & H1 & H2 & H3 & H4 & H5 & H6 & H7).
      exists (bytes ++ sk), last, h', p', b'. rewrite Hs, H1, <- app_assoc. split_and!; try done; [|by etrans].
      by eapply (passed_over_step c1 c2).
    + destruct IH as (sk & H1 & H2 & H3). exists (bytes ++ sk). rewrite Hs, H1, <- app_assoc.
      split_and!; [done|by eapply (passed_over_step c1 c2)|by etrans].
Qed.
Lemma receive_frame_loop_fuel n : forall m deadline c,
  (left c < n)%nat -> (left c < m)%nat -> receive_frame_loop n deadline c = receive_frame_loop m deadline c.
Proof.
  induction n as [|n IH]; intros m deadline c Hn Hm; [lia|]. destruct m as [|m]; [lia|]. cbn [receive_frame_loop].
  rewrite !bind_run. destruct (now_quiet c) as (_ & _ & L1). destruct (now c) as [t c1]. cbn [fst snd] in *.
  destruct (deadline <=? t); [done|]. rewrite !bind_run. pose proof (receive_step_spec deadline c1) as H.
  destruct (receive_step deadline c1) as [[r|] c2]; [done|]. cbn [fst snd] in *.
  destruct H as (h & p & bytes & _ & _ & _ & L2 & _). apply IH; simpl in L2; lia.
Qed.

(** *** The reply to START_SESSION *)

Inductive whole_frames : list Z -> Prop :=
  | no_frames : whole_frames []
  | one_more h p bytes rest : frame_bytes h p bytes -> whole_frames rest -> whole_frames (bytes ++ rest).

Definition cleared c : Prop := c_session_active c = false /\ c_source_active c = false.

(** [c'] is [c] with the session that the frame [h], [p] confirms. *)
Record confirms (start : vw_msg_start_t) (h : vw_frame_header_t) (p : list Z) c c' : Prop := {
  cf_type : hdr_type h = VW_MSG_STARTED;
  cf_fresh : stale (last_of c) (hdr_sequence h) = false;
  cf_last : last_of c' = Some (hdr_sequence h);
  cf_length : 6 <= c_minor c -> hdr_payload_length h = VW_MSG_STARTED_PAYLOAD_BYTES;
  cf_source : if 0 <? hdr_payload_length h then started_source (c_session_id c) p = Some (c_source_active c')
              else c_source_active c' = false;
  cf_active : c_session_active c' = true;
  cf_model : c_model_id c' = cstr (start_model_id start);
  cf_url : c_source_url c' = cstr (start_source_url start);
  cf_same : c_pipe c' = c_pipe c /\ c_session_id c' = c_session_id c /\ c_sent c' = c_sent c /\ c_minor c' = c_minor c
}.

Definition reply_ok start c (r : option bool * client X) : Prop :=
  match fst r with
  | None => exists h p bytes, frame_bytes h p bytes /\ stream c = bytes ++ stream (snd r) /\ quiet c (snd r) /\ (left (snd r) < left c)%nat
  | Some true => exists h p bytes, frame_bytes h p bytes /\ stream c = bytes ++ stream (snd r) /\ confirms start h p c (snd r)
  | Some false => cleared (snd r)
  end.

Lemma drop_cleared c : cleared c -> cleared (snd (vw_worker_client_drop_transport c)).
Proof. intros [H1 H2]. destruct (drop_run c) as [x ->]. by destruct (c_pipe c). Qed.
Lemma fail_start_ok start c c1 : cleared c1 -> reply_ok start c (fail_start c1).
Proof. intros H. unfold fail_start. rewrite bind_run. by apply drop_cleared. Qed.
Lemma quiet_cleared c c' : quiet c c' -> cleared c -> cleared c'.
Proof. by intros (i & x & ->). Qed.

Lemma receive_payload_spec len deadline c :
  let r := receive_payload len deadline c in
  match fst r with
  | Some p => quiet c (snd r) /\ stream c = p ++ stream (snd r) /\ zlen p = Z.max 0 len /\ (left (snd r) + length p <= left c)%nat
  | None => cleared c -> cleared (snd r)
  end.
Proof.
  unfold receive_payload. rewrite bind_run. destruct (receive_all_spec len deadline c) as (p & T & Q & S & L & _ & O).
  destruct (receive_all len deadline c) as [[status got] c1]. cbn [fst snd] in *. subst got.
  destruct status; simpl; [by split_and!; auto| |]; rewrite bind_run; simpl;
    intros; by apply drop_cleared, (quiet_cleared c c1).
Qed.

Lemma modify_run (f : client X -> client X) c : modify f c = (tt, f c).
Proof. done. Qed.
Lemma session_started_ok start h p bytes c c2 source :
  quiet (c <| c_last_worker_sequence := hdr_sequence h |> <| c_worker_sequence_valid := true |>) c2 ->
  frame_bytes h p bytes -> stream c = bytes ++ stream c2 ->
  hdr_type h = VW_MSG_STARTED -> stale (last_of c) (hdr_sequence h) = false ->
  (6 <= c_minor c -> hdr_payload_length h = VW_MSG_STARTED_PAYLOAD_BYTES) ->
  (if 0 <? hdr_payload_length h then started_source (c_session_id c) p = Some source else source = false) ->
  reply_ok start c ((modify (fun c => c <| c_source_active := source |>) ;; session_started start) c2).
Proof.
  intros (i & x & ->) Hf Hs H1 H2 H3 H4. unfold session_started, modify. rewrite !bind_run. simpl.
  exists h, p, bytes. split_and!; [done|done|]. by split.
Qed.

Lemma on_started_spec start h hb c c1 deadline :
  quiet c c1 -> stream c = hb ++ stream c1 -> (forall p, zlen p = Z.max 0 (hdr_payload_length h) -> frame_bytes h p (hb ++ p)) ->
  hdr_type h = VW_MSG_STARTED -> cleared c -> reply_ok start c (on_started start h deadline c1).
Proof.
  intros Q S Hf Ht Hc. unfold on_started. rewrite bind_run. simpl. pose proof (quiet_cleared _ _ Q Hc) as Hc1.
  rewrite stale_last, (quiet_last c c1 Q). destruct (stale (last_of c) (hdr_sequence h)) eqn:Est; [by apply fail_start_ok|].
  unfold note_sequence. rewrite bind_run, modify_run. cbn [fst snd]. set (c1' := c1 <| c_last_worker_sequence := _ |> <| _ := _ |>).
  assert (cleared c1') as Hc1' by done.
  assert (c_minor c1 = c_minor c /\ c_session_id c1 = c_session_id c) as [Em Ei] by (by destruct Q as (? & ? & ->)).
  assert (quiet (c <| c_last_worker_sequence := hdr_sequence h |> <| c_worker_sequence_valid := true |>) c1') as Q'
    by (destruct Q as (i & x & ->); by exists i, x).
  rewrite Em. destruct ((6 <=? c_minor c) && negb (hdr_payload_length h =? VW_MSG_STARTED_PAYLOAD_BYTES)) eqn:El;
    [by apply fail_start_ok|].
  assert (6 <= c_minor c -> hdr_payload_length h = VW_MSG_STARTED_PAYLOAD_BYTES) as Hlen by lia.
  destruct (Z.ltb_spec 0 (hdr_payload_length h)) as [Hp|Hp].
  - rewrite bind_run. pose proof (receive_payload_spec (hdr_payload_length h) deadline c1') as P. cbv zeta in P.
    destruct (receive_payload _ deadline c1') as [[p|] c2]; cbn [fst snd] in *; [|by apply P].
    destruct P as (Q2 & S2 & Z2 & _). rewrite Ei. destruct (started_source (c_session_id c) p) as [source|] eqn:Es;
      [|by apply fail_start_ok, (quiet_cleared c1' c2)].
    apply (session_started_ok start h p (hb ++ p)); auto; [by etrans| |by replace (0 <? hdr_payload_length h) with true by lia].
    rewrite S, <- app_assoc. change (stream c1) with (stream c1'). by rewrite S2.
  - apply (session_started_ok start h [] (hb ++ [])); auto; [apply Hf; rewrite zlen_nil; lia|by rewrite app_nil_r|].
    by replace (0 <? hdr_payload_length h) with false by lia.
Qed.

(** A frame the loop passes over. *)
Lemma passed_frame start h hb p c c1 c2 :
  quiet c c1 -> stream c = hb ++ stream c1 -> (left c1 < left c)%nat ->
  (forall p, zlen p = Z.max 0 (hdr_payload_length h) -> frame_bytes h p (hb ++ p)) ->
  quiet c1 c2 -> stream c1 = p ++ stream c2 -> zlen p = Z.max 0 (hdr_payload_length h) -> (left c2 <= left c1)%nat ->
  reply_ok start c (None, c2).
Proof.
  intros Q S L Hf Q2 S2 Z2 L2. exists h, p, (hb ++ p). rewrite S, S2, app_assoc. simpl.
  split_and!; [by apply Hf|done|by etrans|lia].
Qed.
Lemma start_reply_spec start deadline c : cleared c -> reply_ok start c (start_reply start deadline c).
Proof.
  intros Hc. unfold start_reply. rewrite bind_run.
  destruct (receive_all_spec sizeof_header deadline c) as (hb & T1 & Q1 & S1 & L1 & _ & Ho).
  destruct (receive_all sizeof_header deadline c) as [[status got] c1]. cbn [fst snd] in *. subst got.
  pose proof (quiet_cleared _ _ Q1 Hc) as Hc1.
  destruct status; [|by apply fail_start_ok..]. specialize (Ho eq_refl). change (zlen hb = sizeof_header) in Ho.
  destruct (vw_protocol_decode_header hb) as [h|] eqn:Eh; [|by apply fail_start_ok].
  assert (forall p, zlen p = Z.max 0 (hdr_payload_length h) -> frame_bytes h p (hb ++ p)) as Hf by (intros p Hp; by exists hb).
  assert (left c1 < left c)%nat as Hl by (unfold zlen, sizeof_header in Ho; lia).
  destruct (Z.eqb_spec (hdr_type h) VW_MSG_STARTED); [by apply (on_started_spec start h hb)|].
  pose proof (receive_payload_spec (hdr_payload_length h) deadline c1) as P. cbv zeta in P.
  destruct (hdr_type h =? VW_MSG_ERROR).
  - unfold on_start_error. destruct (0 <? hdr_payload_length h); [|done]. rewrite !bind_run.
    destruct (receive_payload _ deadline c1) as [[p|] c2]; cbn [fst snd gets] in *; [|by apply P].
    destruct P as (Q2 & S2 & Z2 & L2). pose proof (quiet_cleared _ _ Q2 Hc1) as Hc2.
    destruct (vw_protocol_decode_payload VW_MSG_ERROR p) as [[]|]; try by apply fail_start_ok.
    destruct (vw_protocol_validate_payload _); [|by apply fail_start_ok]. cbn [negb].
    destruct (passing_error _ _); [|done]. apply (passed_frame start h hb p c c1 c2); auto. lia.
  - destruct (Z.ltb_spec 0 (hdr_payload_length h)).
    + rewrite bind_run. destruct (receive_payload _ deadline c1) as [[p|] c2]; cbn [fst snd] in *; [|by apply P].
      destruct P as (Q2 & S2 & Z2 & L2). apply (passed_frame start h hb p c c1 c2); auto. lia.
    + apply (passed_frame start h hb [] c c1 c1); [done|done|done|done|reflexivity|done|rewrite zlen_nil; lia|done].
Qed.

Definition wait_ok start c (r : bool * client X) : Prop :=
  if fst r then
    exists skipped h p bytes c1, stream c = skipped ++ stream c1 /\ whole_frames skipped /\ quiet c c1
      /\ frame_bytes h p bytes /\ stream c1 = bytes ++ stream (snd r) /\ confirms start h p c1 (snd r)
  else cleared (snd r).
Lemma wait_ok_quiet start c c1 bytes r :
  quiet c c1 -> stream c = bytes ++ stream c1 -> (forall rest, whole_frames rest -> whole_frames (bytes ++ rest)) ->
  wait_ok start c1 r -> wait_ok start c r.
Proof.
  intros Q S W. unfold wait_ok. destruct (fst r); [|done]. intros (sk & h & p & b & c2 & H1 & H2 & H3 & H4 & H5 & H6).
  exists (bytes ++ sk), h, p, b, c2. rewrite S, H1, app_assoc. split_and!; auto. by etrans.
Qed.
Lemma start_wait_spec fuel start deadline : forall c, cleared c -> wait_ok start c (start_wait fuel start deadline c).
Proof.
  induction fuel as [|fuel IH]; intros c Hc; cbn [start_wait]; rewrite bind_run; [by apply drop_cleared|].
  destruct (now_quiet c) as (Q1 & S1 & _). destruct (now c) as [t c1]. cbn [fst snd] in *.
  pose proof (quiet_cleared _ _ Q1 Hc) as Hc1. apply (wait_ok_quiet start c c1 []); auto.
  destruct (deadline <=? t); rewrite bind_run; [by apply drop_cleared|].
  pose proof (start_reply_spec start deadline c1 Hc1) as R. unfold reply_ok in R.
  destruct (start_reply start deadline c1) as [[[]|] c2]; cbn [fst snd] in *; [|done|].
  - destruct R as (h & p & b & H1 & H2 & H3). exists [], h, p, b, c1. split_and!; [done|constructor|reflexivity|done|done|done].
  - destruct R as (h & p & b & H1 & H2 & H3 & _). apply (wait_ok_quiet start c1 c2 b); auto.
    + intros rest Hr. by eapply one_more.
    + apply IH. by apply (quiet_cleared c1).
Qed.
Lemma start_wait_fuel n : forall m start deadline c,
  (left c < n)%nat -> (left c < m)%nat -> cleared c -> start_wait n start deadline c = start_wait m start deadline c.
Proof.
  induction n as [|n IH]; intros m start deadline c Hn Hm Hc; [lia|]. destruct m as [|m]; [lia|]. cbn [start_wait].
  rewrite !bind_run. destruct (now_quiet c) as (Q1 & _ & L1). destruct (now c) as [t c1]. cbn [fst snd] in *.
  pose proof (quiet_cleared _ _ Q1 Hc) as Hc1. destruct (deadline <=? t); [done|]. rewrite !bind_run.
  pose proof (start_reply_spec start deadline c1 Hc1) as R. destruct (start_reply start deadline c1) as [[ok|] c2]; [done|].
  destruct R as (h & p & bytes & _ & _ & Q2 & L2). cbn [fst snd] in *. apply IH; [lia..|by apply (quiet_cleared c1)].
Qed.

(** *** Starting *)

Lemma client_message_cases m cap c :
  0 <= cap ->
  let r := client_message m cap c in
  if fst r then
    exists x, snd r = (next_sequence c) <| c_ext := x |>
      <| c_sent := c_sent c ++ [(header_bytes (next_hdr (message_type m) (zlen (layout m)) c), true); (layout m, true)] |>
  else cleared c -> cleared (snd r).
Proof.
  intros Hc. cbv zeta. rewrite client_message_run by done. destruct (encodable m && _); cbn [fst snd]; [|done].
  rewrite bind_run, client_header_run. cbn [fst snd]. set (hdr := next_hdr _ _ _).
  unfold send_or_drop, vw_protocol_encode_header. simpl. rewrite bind_run.
  destruct (client_bytes_run (header_bytes hdr) (next_sequence c)) as (ok1 & x1 & ->). cbn [fst snd]. rewrite bind_run.
  destruct ok1; cbn [fst snd]; [|rewrite bind_run; simpl; intros; by apply drop_cleared].
  match goal with |- context [client_bytes (layout m) ?c2] => destruct (client_bytes_run (layout m) c2) as (ok2 & x2 & ->) end.
  cbn [fst snd]. rewrite bind_run. destruct ok2; simpl; [|intros; by apply drop_cleared].
  exists x2. by rewrite <- app_assoc.
Qed.
Lemma started_source_named id p source :
  started_source id p = Some source -> zlen p = VW_MSG_STARTED_PAYLOAD_BYTES ->
  exists m, vw_protocol_decode_payload VW_MSG_STARTED p = Some (STARTED m) /\ started_session_id m = id
    /\ source = (started_source_active m =? VW_SOURCE_ACTIVE_ACTIVE).
Proof.
  unfold started_source. intros H Hl. destruct (vw_protocol_decode_payload _ p) as [[]|]; try done.
  rewrite Hl in H. simpl in H. case_bool_decide; [|done]. injection H as <-. by eexists.
Qed.

(** The session of the START message that was sent. *)
Record session_confirmed (pts : Z) (model url : option (list Z)) c (id : list Z) c' : Prop := {
  sc_random : fst (random_bytes (c_ext c) VW_SESSION_ID_BYTES) = Some id;
  sc_open : c_pipe c = true /\ c_pipe c' = true;
  sc_active : c_session_active c' = true;
  sc_id : c_session_id c' = id;
  sc_sent : let l := layout (START_SESSION (start_payload id (c_language c) pts model url)) in
    c_sent c' = c_sent c ++ [(header_bytes (next_hdr VW_MSG_START_SESSION (zlen l) c), true); (l, true)];
  sc_started : exists skipped h p bytes,
    stream c = skipped ++ bytes ++ stream c' /\ whole_frames skipped /\ frame_bytes h p bytes
    /\ hdr_type h = VW_MSG_STARTED /\ stale (last_of c) (hdr_sequence h) = false /\ last_of c' = Some (hdr_sequence h)
    /\ (6 <= c_minor c -> exists m, vw_protocol_decode_payload VW_MSG_STARTED p = Some (STARTED m)
          /\ started_session_id m = id /\ c_source_active c' = (started_source_active m =? VW_SOURCE_ACTIVE_ACTIVE))
}.
Lemma start_session_spec pts model url c ok c' :
  vw_worker_client_start_session pts model url c = (ok, c') ->
  if ok then exists id, session_confirmed pts model url c id c'
  else c' = c /\ (c_pipe c = false \/ sizeof_model_id <= zlen (default [] model)) \/ cleared c'.
Proof.
  unfold vw_worker_client_start_session. rewrite bind_run. cbn [fst snd gets].
  destruct (c_pipe c) eqn:Ep; [|intros [= <- <-]; left; by auto]. cbn [negb].
  destruct (Z.leb_spec sizeof_model_id (zlen (default [] model))); [intros [= <- <-]; left; by auto|].
  rewrite !bind_run. cbn [fst snd modify]. set (c1 := c <| c_session_active := _ |> <| _ := _ |>).
  rewrite calls_run. change (c_ext c1) with (c_ext c).
  destruct (random_bytes (c_ext c) VW_SESSION_ID_BYTES) as [[id|] x1] eqn:Er; cbn [fst snd]; [|intros [= <- <-]; by right].
  rewrite bind_run. cbn [fst snd modify]. destruct (sizeof_source_url <=? _); [intros [= <- <-]; by right|].
  rewrite bind_run. cbn [fst snd gets]. set (c2 := c1 <| _ := _ |> <| _ := _ |>). change (c_language c2) with (c_language c).
  set (start := start_payload id (c_language c) pts model url). rewrite bind_run.
  pose proof (client_message_cases (START_SESSION start) 2048 c2 ltac:(lia)) as Hm. cbv zeta in Hm.
  destruct (client_message _ 2048 c2) as [[] c3]; cbn [fst snd] in *; [|intros [= <- <-]; right; by apply Hm]. destruct Hm as (x3 & ->).
  cbn [negb]. set (c3 := _ <| c_sent := _ |>). rewrite bind_run.
  destruct (deadline_spec 5000000 c3) as (Q4 & S4 & _). destruct (vw_worker_client_make_deadline _ c3) as [dl c4]. cbn [fst snd] in *.
  assert (cleared c4) as H4 by (by apply (quiet_cleared c3)). destruct dl as [dl|]; [|intros [= <- <-]; by right].
  rewrite bind_run. cbn [fst snd receive_fuel gets].
  pose proof (start_wait_spec (S (inbox_size (c_inbox c4))) start dl c4 H4) as W. unfold wait_ok in W.
  destruct (start_wait _ start dl c4) as [[] c5]; cbn [fst snd] in *; [|intros [= <- <-]; by right].
  intros [= <- <-]. destruct W as (sk & h & p & b & c' & W1 & W2 & W3 & W4 & W5 & [F1 F2 F3 F4 F5 F6 F7 F8 (F9 & F10 & F11 & F12)]).
  assert (quiet c3 c') as (i & x & ->) by (by etrans). exists id. split.
  - by rewrite Er.
  - split; [done|]. by rewrite F9.
  - done.
  - by rewrite F10.
  - by rewrite F11.
  - exists sk, h, p, b. change (stream c3) with (stream c) in S4. rewrite <- S4, W1, W5. split_and!; try done.
    intros H6. specialize (F4 H6). destruct W4 as (hb & _ & _ & _ & Hl). rewrite F4 in Hl, F5. simpl in F5.
    apply (started_source_named _ p) in F5; [done|]. by rewrite Hl.
Qed.
End receive.

(** ** Properties *)

(** C21: START_SESSION succeeds only on an open transport over which the START message of
    a session with a fresh random identifier was written whole and a STARTED frame
    with a number beyond every earlier one came back, all frames before it read
    whole; from protocol minor 6 on that frame names this very session. When it
    fails no session is active, or the call was refused and changed nothing. *)
Theorem start_session_confirmed {X} `{!ClientEnv X} pts model url (c c' : client X) ok :
  vw_worker_client_start_session pts model url c = (ok, c') ->
  if ok then exists id, session_confirmed pts model url c id c'
  else c' = c /\ (c_pipe c = false \/ sizeof_model_id <= zlen (default [] model)) \/ cleared c'.
Proof. apply start_session_spec. Qed.

(** C20: Every outcome of receiving a frame leaves the stream where it can go on. A
    message is that of the first whole frame which is neither stale nor foreign; a
    timeout comes after whole frames only, with the transport still to be used; and
    a fatal answer means that the transport was given up, or that the clock failed
    before anything was read. *)
Theorem receive_frame_outcomes {X} `{!ClientEnv X} timeout_us (c : client X) :
  c_pipe c = true ->
  let r := vw_worker_client_receive_frame timeout_us c in
  match fst r with
  | (VW_IPC_RECV_OK, Some m) =>
      c_pipe (snd r) = true /\
      exists skipped last h p bytes,
        stream c = skipped ++ bytes ++ stream (snd r) /\ passed_over (last_of c) skipped last
        /\ frame_bytes h p bytes /\ stale last (hdr_sequence h) = false /\ last_of (snd r) = Some (hdr_sequence h)
        /\ received_message (hdr_type h) p = Some m
  | (VW_IPC_RECV_TIMEOUT, None) =>
      c_pipe (snd r) = true /\
      exists skipped, stream c = skipped ++ stream (snd r) /\ passed_over (last_of c) skipped (last_of (snd r))
  | (VW_IPC_RECV_FATAL, None) =>
      c_pipe (snd r) = false \/ (quiet c (snd r) /\ stream (snd r) = stream c)
  | _ => False
  end.
Proof.
  intros Ho. unfold vw_worker_client_receive_frame. rewrite bind_run. cbn [fst snd gets]. rewrite Ho. cbn [negb].
  rewrite bind_run. destruct (deadline_spec timeout_us c) as (Q & Hs & _).
  destruct (vw_worker_client_make_deadline timeout_us c) as [[d|] c1]; cbn [fst snd] in *; [|by right].
  rewrite bind_run. cbn [fst snd receive_fuel gets].
  pose proof (received_ok_quiet c c1 _ Q Hs (receive_frame_loop_spec d (S (inbox_size (c_inbox c1))) c1)) as R.
  destruct (receive_frame_loop _ d c1) as [[st om] c2]. unfold received_ok in R. cbn [fst snd] in *.
  assert (heard c c2 -> c_pipe c2 = true) as Hp by (intros (? & ? & ? & ? & ->); done).
  destruct st, om as [m|]; try done.
  - destruct R as (sk & l & h & p & b & ? & ? & ? & ? & ? & ? & ?). split; [auto|]. by exists sk, l, h, p, b.
  - destruct R as (sk & ? & ? & ?). split; [auto|]. by exists sk.
  - by left.
Qed.

(** The receive loops end by themselves: giving them more iterations than the
    connection has bytes and events left changes no result, so that the bound cuts
    none of them short. *)
Theorem client_loops_end {X} `{!ClientEnv X} (n : nat) (c : client X) deadline_us :
  (inbox_size (c_inbox c) < n)%nat ->
  (forall len, receive_loop (S (S n)) len deadline_us [] c = receive_all len deadline_us c)
  /\ receive_frame_loop n deadline_us c = (fuel ← receive_fuel; receive_frame_loop fuel deadline_us) c
  /\ (cleared c -> forall start, start_wait n start deadline_us c = (fuel ← receive_fuel; start_wait fuel start deadline_us) c).
Proof.
  intros Hn. unfold receive_all, receive_fuel. rewrite !bind_run. cbn [fst snd gets]. split_and!.
  - intros len. rewrite bind_run. apply receive_loop_fuel; unfold left; simpl; lia.
  - apply receive_frame_loop_fuel; unfold left; lia.
  - intros Hc start. rewrite bind_run. apply start_wait_fuel; unfold left; simpl; try lia. done.
Qed.

(** ** Witnesses *)

(** A stale frame, a STARTED that comes late, and a status. *)
Definition demo_status : message := STATUS (mk_status (zreplicate 16 7) 1 0 0 0 (cpad 16 (str "cpu"))).
#[local] Existing Instance WorkerClientWire.scripted_env.
Definition demo_inbox : list recv :=
  [reply 3 (ERROR (mk_error (zreplicate 16 9) E_TRANSLATION_LOCAL 1 (zreplicate 256 0)));
   RecvTimeout; reply 5 (STARTED (mk_started (zreplicate 16 7) 0)); reply 6 demo_status].
Definition demo_open : client (list bool * list recv) :=
  (client_start false (str "en") demo_inbox ([], [])) <| c_last_worker_sequence := 4 |> <| c_worker_sequence_valid := true |>.

Lemma start_session_confirmed_witness :
  exists id c', vw_worker_client_start_session 0 None None demo_open = (true, c')
    /\ session_confirmed 0 None None demo_open id c' /\ c_last_worker_sequence c' = 5.
Proof.
  destruct (vw_worker_client_start_session 0 None None demo_open) as [ok c'] eqn:E.
  pose proof (start_session_confirmed 0 None None demo_open c' ok E) as H.
  assert (ok = true) as -> by (apply (f_equal fst) in E; cbn [fst] in E; rewrite <- E; vm_compute; reflexivity).
  destruct H as [id H]. exists id, c'. split; [done|]. split; [done|].
  apply (f_equal snd) in E. cbn [snd] in E. rewrite <- E. vm_compute. reflexivity.
Defined.
Lemma receive_frame_outcomes_witness :
  fst (vw_worker_client_receive_frame 1000 demo_open) = (VW_IPC_RECV_OK, Some demo_status)
  /\ c_pipe (snd (vw_worker_client_receive_frame 1000 demo_open)) = true.
Proof.
  assert (fst (vw_worker_client_receive_frame 1000 demo_open) = (VW_IPC_RECV_OK, Some demo_status)) as E by (vm_compute; reflexivity).
  split; [done|]. pose proof (receive_frame_outcomes 1000 demo_open eq_refl) as H. cbv zeta in H. rewrite E in H. apply H.
Defined.
Lemma client_loops_end_witness :
  receive_frame_loop 1000 1000 demo_open = (fuel ← receive_fuel; receive_frame_loop fuel 1000) demo_open.
Proof. apply (client_loops_end 1000 demo_open 1000). vm_decide. Defined.
