(* ===== verification/Presenter.v ===== *)
(** * The caption presenter

    [src/plugin/src/vw_caption_presenter.c]: one cue is held back so that its
    successor can end it, then put on a subpicture channel of the video output found
    from the filter, or on the OSD. VLC's object tree, clock, channels and settings
    are the operations of [VlcEnv]; every call that counts a reference or draws is an
    event of a log. Objects and strings can always be allocated. *)

From stdpp Require Import relations.
From S2P Require Import Prelude.
From S2P Require Import CString.
From S2P Require Import Float32.
From S2P Require Import ProtocolTypes.
From S2P Require Import ProtocolUtil.
From S2P Require Import WorkerClient.
From S2P Require Import State.
#[local] Open Scope Z_scope.

Definition VW_CAPTION_MIN_DISPLAY_DURATION_US : Z := 1000000.
Definition VW_MODEL_PROGRESS_DISPLAY_DURATION_US : Z := 2000000.
Definition VW_PRESENTER_MAX_TEXT_BYTES : Z := VW_MAX_TEXT_BYTES + 1.
Definition VW_OSD_BLANK_DURATION_US : Z := 1000.

(** ** VLC *)

(** A video output, by its address. *)
Definition vout : Type := nat.

(** An input: whether [input_GetState] is PAUSE_S, the URI of its item and its time,
    where there are any. *)
Record vlc_input := mk_vlc_input {
  vi_paused : bool;
  vi_uri : option (list Z);
  vi_time : option Z
}.
(** An object of the tree: its type if it has one, the video output it is or, for an
    input, the one [input_GetVout] finds, its "rate" variable if it has one, and what
    an input answers. *)
Record vlc_object := mk_object {
  ob_type : option (list Z);
  ob_vout : option vout;
  ob_rate : option Z;                (* float *)
  ob_input : vlc_input
}.
(** An ancestor with its children; [vlc_list_children] may give none. *)
Record vlc_node := mk_node { nd_object : vlc_object; nd_children : list vlc_object }.

Record subpicture := mk_subpicture {
  sp_text : list Z;
  sp_top : bool;                     (* SUBPICTURE_ALIGN_TOP, else BOTTOM *)
  sp_start : Z;
  sp_stop : Z;
  sp_ephemer : bool
}.

Inductive vlc_event :=
  | Held (v : vout)
  | Released (v : vout)
  | Registered (v : vout) (channel : Z)
  | FlushedChannel (v : vout) (channel : Z)
  | PutSubpicture (v : vout) (channel : Z) (s : subpicture)
  | OSDText (v : vout) (duration : Z) (text : list Z).

Class VlcEnv (X : Type) := {
  (** The filter and its ancestors. *)
  vlc_ancestors : X -> list vlc_node * X;
  register_channel : X -> vout -> Z * X;
  mdate : X -> Z * X;
  translate_mode : X -> Z * X
}.

(** ** State *)

(** [pr_pending]: [pending_segment] while [has_pending]. A [void*] is a video output or
    NULL; [pr_filter_ctx] is whether there is a filter. *)
Record vw_caption_presenter_t := mk_presenter {
  pr_filter_ctx : bool;
  pr_held_vout : option vout;
  pr_channel_id : Z;
  pr_registered : bool;
  pr_progress_vout : option vout;
  pr_progress_channel_id : Z;
  pr_progress_registered : bool;
  pr_pending : option vw_caption_segment_t
}.
Record pstate {X : Type} := mk_pstate {
  p_presenter : vw_caption_presenter_t;
  p_log : list vlc_event;
  p_ext : X
}.
Arguments pstate X : clear implicits.
Arguments mk_pstate {X}.

#[global] Instance settable_vw_caption_presenter_t : Settable vw_caption_presenter_t :=
  fun s => mk_presenter (pr_filter_ctx s) (pr_held_vout s) (pr_channel_id s) (pr_registered s)
  (pr_progress_vout s) (pr_progress_channel_id s) (pr_progress_registered s) (pr_pending s).
#[global] Instance set_pr_filter_ctx : Setter pr_filter_ctx := ltac:(setter).
#[global] Instance set_pr_held_vout : Setter pr_held_vout := ltac:(setter).
#[global] Instance set_pr_channel_id : Setter pr_channel_id := ltac:(setter).
#[global] Instance set_pr_registered : Setter pr_registered := ltac:(setter).
#[global] Instance set_pr_progress_vout : Setter pr_progress_vout := ltac:(setter).
#[global] Instance set_pr_progress_channel_id : Setter pr_progress_channel_id := ltac:(setter).
#[global] Instance set_pr_progress_registered : Setter pr_progress_registered := ltac:(setter).
#[global] Instance set_pr_pending : Setter pr_pending := ltac:(setter).
#[global] Instance settable_pstate {X} : Settable (@pstate X) :=
  fun s => mk_pstate (p_presenter s) (p_log s) (p_ext s).
#[global] Instance set_p_presenter {X} : Setter (@p_presenter X) := ltac:(setter).
#[global] Instance set_p_log {X} : Setter (@p_log X) := ltac:(setter).
#[global] Instance set_p_ext {X} : Setter (@p_ext X) := ltac:(setter).

(** ** Time in doubles *)

(** [(int64_t)x] of a [double]: truncation, and [INT64_MIN] where x86 yields it. *)
Definition double_to_i64 (x : spec_float) : Z :=
  match x with
  | S754_zero _ => 0
  | S754_finite s m e =>
      let t := spec_trunc x in if (INT64_MIN <=? t) && (t <=? INT64_MAX) then t else INT64_MIN
  | _ => INT64_MIN
  end.
(** [(int64_t)((double)n / (double)rate)] and [(int64_t)((double)n * (double)rate)]. *)
Definition rate_double (rate : Z) : spec_float := spec_convert 53 1024 (f32_to_spec rate).
Definition div_rate (n rate : Z) : Z := double_to_i64 (SFdiv 53 1024 (spec_of_Z n) (rate_double rate)).
Definition mul_rate (n rate : Z) : Z := double_to_i64 (SFmul 53 1024 (spec_of_Z n) (rate_double rate)).

(** ** Walking the object tree *)

Definition has_type (o : vlc_object) (name : list Z) : bool :=
  match ob_type o with Some t => bool_decide (t = name) | None => false end.
(** The video output an input has or a vout is; a held reference. *)
Definition object_vout (o : vlc_object) : option vout :=
  if has_type o (str "input") || has_type o (str "vout") then ob_vout o else None.
Fixpoint first_some {A B} (f : A -> option B) (l : list A) : option B :=
  match l with
  | [] => None
  | a :: l => match f a with Some b => Some b | None => first_some f l end
  end.
(** A node without a type is passed over with its children. *)
Definition node_vout (n : vlc_node) : option vout :=
  match ob_type (nd_object n) with
  | None => None
  | Some _ => first_some object_vout (nd_object n :: nd_children n)
  end.

(** [rval.f_float > 0.05f] *)
Definition usable_rate (o : vlc_object) : option Z :=
  match ob_rate o with Some r => if f32_ltb f32_min_rate r then Some r else None | None => None end.
Definition node_rate (n : vlc_node) : option Z := first_some usable_rate (nd_object n :: nd_children n).

Section presenter.
Context {X : Type} `{!VlcEnv X}.
#[local] Abbreviation P := (M (pstate X)).

Definition vlc {A} (f : X -> A * X) : P A := fun p => let '(a, x) := f (p_ext p) in (a, p <| p_ext := x |>).
Definition emit (e : vlc_event) : P unit := modify (fun p => p <| p_log := p_log p ++ [e] |>).
Definition self : P vw_caption_presenter_t := gets p_presenter.
Definition on_presenter (f : vw_caption_presenter_t -> vw_caption_presenter_t) : P unit :=
  modify (fun p => p <| p_presenter := f (p_presenter p) |>).

Definition vw_caption_presenter_find_vout : P (option vout) :=
  pr ← self;
  if negb (pr_filter_ctx pr) then mret None
  else
    nodes ← vlc vlc_ancestors;
    match first_some node_vout nodes with
    | Some v => emit (Held v) ;; mret (Some v)
    | None => mret None
    end.

Definition vw_caption_presenter_get_rate : P Z :=
  pr ← self;
  if negb (pr_filter_ctx pr) then mret f32_one
  else nodes ← vlc vlc_ancestors; mret (default f32_one (first_some node_rate nodes)).

Definition register (v : vout) : P Z :=
  channel_id ← vlc (fun x => register_channel x v);
  emit (Registered v channel_id) ;;
  mret channel_id.
Definition flush_channel (held : option vout) (channel : Z) : P unit :=
  match held with Some v => emit (FlushedChannel v channel) | None => skip end.
Definition release (held : option vout) : P unit :=
  match held with Some v => emit (Released v) | None => skip end.

(** ** Drawing *)

Definition stop_after (start_tick stop_tick : Z) : Z :=
  if stop_tick <=? start_tick then vw_saturating_add_i64 start_tick VW_CAPTION_MIN_DISPLAY_DURATION_US else stop_tick.
Definition vw_caption_presenter_render_spu (v : vout) (channel_id : Z) (text : list Z) (top : bool)
    (start_tick stop_tick : Z) (replace_existing persistent : bool) : P bool :=
  if channel_id <? 0 then mret false
  else
    when replace_existing (emit (FlushedChannel v channel_id)) ;;
    emit (PutSubpicture v channel_id (mk_subpicture text top start_tick (stop_after start_tick stop_tick) persistent)) ;;
    mret true.

(** Without a filter only the duration is judged. *)
Definition vw_caption_presenter_display (text : list Z) (duration_us : Z) : P bool :=
  if duration_us <=? 0 then mret false
  else
    let duration_us := if duration_us <? VW_CAPTION_MIN_DISPLAY_DURATION_US then VW_CAPTION_MIN_DISPLAY_DURATION_US else duration_us in
    pr ← self;
    if negb (pr_filter_ctx pr) then mret true
    else
      v ← vw_caption_presenter_find_vout;
      match v with
      | None => mret false
      | Some v => emit (OSDText v duration_us text) ;; emit (Released v) ;; mret true
      end.

(** *** Model progress *)

Definition vw_caption_presenter_register_model_progress_channel (v : vout) : P bool :=
  pr ← self;
  if pr_progress_registered pr && bool_decide (pr_progress_vout pr = Some v) then mret true
  else
    when (bool_decide (pr_progress_vout pr <> None))
      (when (pr_progress_registered pr && (0 <=? pr_progress_channel_id pr))
         (flush_channel (pr_progress_vout pr) (pr_progress_channel_id pr)) ;;
       release (pr_progress_vout pr) ;;
       on_presenter (fun pr => pr <| pr_progress_vout := None |>)) ;;
    channel_id ← register v;
    if channel_id <? 0 then
      on_presenter (fun pr => pr <| pr_progress_channel_id := -1 |> <| pr_progress_registered := false |>) ;;
      mret false
    else
      emit (Held v) ;;
      on_presenter (fun pr => pr <| pr_progress_vout := Some v |> <| pr_progress_channel_id := channel_id |>
                                 <| pr_progress_registered := true |>) ;;
      mret true.

Definition stage_name (stage : Z) : list Z :=
  if stage =? VW_MODEL_STAGE_DOWNLOADING then str "downloading"
  else if stage =? VW_MODEL_STAGE_VERIFYING then str "verifying"
  else if stage =? VW_MODEL_STAGE_DONE then str "done"
  else if stage =? VW_MODEL_STAGE_FAILED then str "failed"
  else if stage =? VW_MODEL_STAGE_ABORTING then str "aborting"
  else str "idle".
Definition progress_text (progress : vw_msg_model_progress_t) : list Z :=
  ztake 127 (str "Model " ++ cstr (mprog_model_id progress) ++ str ": " ++ stage_name (mprog_stage progress)
             ++ str " (" ++ decimal (if 100 <? mprog_pct progress then 100 else mprog_pct progress) ++ str "%)").

Definition vw_caption_presenter_show_model_progress (progress : vw_msg_model_progress_t) : P bool :=
  pr ← self;
  if negb (pr_filter_ctx pr) then mret false
  else
    v ← vw_caption_presenter_find_vout;
    match v with
    | None => mret false
    | Some v =>
        registered ← vw_caption_presenter_register_model_progress_channel v;
        if negb registered then emit (Released v) ;; mret false
        else
          pr ← self;
          start_tick ← vlc mdate;
          rendered ← vw_caption_presenter_render_spu v (pr_progress_channel_id pr) (progress_text progress) true start_tick
            (vw_saturating_add_i64 start_tick VW_MODEL_PROGRESS_DISPLAY_DURATION_US) true false;
          emit (Released v) ;; mret rendered
    end.

Definition vw_caption_presenter_clear_model_progress : P unit :=
  pr ← self;
  when (bool_decide (pr_progress_vout pr <> None))
    (when (pr_progress_registered pr && (0 <=? pr_progress_channel_id pr))
       (flush_channel (pr_progress_vout pr) (pr_progress_channel_id pr)) ;;
     release (pr_progress_vout pr)) ;;
  on_presenter (fun pr => pr <| pr_progress_vout := None |> <| pr_progress_channel_id := -1 |>
                             <| pr_progress_registered := false |>).

(** *** Captions *)

(** The lines of a cue; [mode] 0 shows the translation alone. *)
Definition translated_text (seg : vw_caption_segment_t) : option (list Z) :=
  match seg_translated_text_utf8 seg with
  | Some t => if (0 <? seg_translated_text_bytes seg) && negb (zlen (cstr t) =? 0) then Some (cstr t) else None
  | None => None
  end.
Definition combined (text translated : list Z) : list Z :=
  ztake (VW_PRESENTER_MAX_TEXT_BYTES * 2 + 8 - 1) (text ++ 10 :: translated).
Definition text_to_render (text : list Z) (seg : vw_caption_segment_t) : P (list Z) :=
  match translated_text seg with
  | None => mret (cstr text)
  | Some t =>
      pr ← self;
      mode ← (if pr_filter_ctx pr then vlc translate_mode else mret 1);
      mret (if mode =? 0 then t else combined (cstr text) t)
  end.

(** The channel follows the video output. *)
Definition ensure_channel (v : vout) : P unit :=
  pr ← self;
  when (negb (pr_registered pr) || negb (bool_decide (pr_held_vout pr = Some v)) || (pr_channel_id pr <? 0))
    (when (bool_decide (pr_held_vout pr <> None))
       (when (0 <=? pr_channel_id pr) (flush_channel (pr_held_vout pr) (pr_channel_id pr)) ;;
        release (pr_held_vout pr) ;;
        on_presenter (fun pr => pr <| pr_held_vout := None |>)) ;;
     channel_id ← register v;
     if 0 <=? channel_id then
       emit (Held v) ;;
       on_presenter (fun pr => pr <| pr_held_vout := Some v |> <| pr_channel_id := channel_id |> <| pr_registered := true |>)
     else
       on_presenter (fun pr => pr <| pr_channel_id := -1 |> <| pr_registered := false |> <| pr_held_vout := None |>)).

Definition lead_time (seg : vw_caption_segment_t) (input_time_us rate : Z) (media_timeline : bool) : Z :=
  if media_timeline && (0 <=? input_time_us) && (input_time_us <? seg_start_pts_us seg) then
    let lead_us := div_rate (vw_saturating_sub_i64 (seg_start_pts_us seg) input_time_us) rate in
    if 60000000 <? lead_us then 60000000 else lead_us
  else 0.

Definition vw_render (seg : vw_caption_segment_t) (duration_us input_time_us : Z) (media_timeline persistent : bool) : P bool :=
  match seg_text_utf8 seg with
  | None => mret false
  | Some text =>
      text ← text_to_render text seg;
      rate ← vw_caption_presenter_get_rate;
      pr ← self;
      if negb (pr_filter_ctx pr) then vw_caption_presenter_display text duration_us
      else
        v ← vw_caption_presenter_find_vout;
        match v with
        | None => mret false
        | Some v =>
            ensure_channel v ;;
            pr ← self;
            let dur_wallclock_us := div_rate duration_us rate in
            rendered ← (if pr_registered pr && (0 <=? pr_channel_id pr) then
                          now_tick ← vlc mdate;
                          let start_tick := vw_saturating_add_i64 now_tick (lead_time seg input_time_us rate media_timeline) in
                          vw_caption_presenter_render_spu v (pr_channel_id pr) text false start_tick
                            (vw_saturating_add_i64 start_tick dur_wallclock_us) (negb media_timeline || persistent) persistent
                        else mret false);
            when (negb rendered) (emit (OSDText v dur_wallclock_us text)) ;;
            emit (Released v) ;; mret true
        end
  end.

(** ** Pacing *)

(** How long a cue is shown: its own time, never less than the floor. *)
Definition own_duration (floor_us : Z) (seg : vw_caption_segment_t) : Z :=
  let raw_duration_us := seg_end_pts_us seg - seg_start_pts_us seg in
  if raw_duration_us <=? 0 then 2000000
  else if raw_duration_us <? floor_us then floor_us else raw_duration_us.
(** ... and not beyond the start of its successor, unless that is too close. *)
Definition clipped_end (floor_us : Z) (pending : vw_caption_segment_t) (next_start_pts_us : Z) : Z :=
  let target_end_us := seg_start_pts_us pending + own_duration floor_us pending in
  if (seg_start_pts_us pending <? next_start_pts_us) && (next_start_pts_us <? target_end_us) then
    if floor_us <=? next_start_pts_us - seg_start_pts_us pending then next_start_pts_us
    else seg_start_pts_us pending + floor_us
  else target_end_us.
Definition paced_duration (floor_us : Z) (pending : vw_caption_segment_t) (next_start_pts_us : Z) : Z :=
  let raw_duration_us := seg_end_pts_us pending - seg_start_pts_us pending in
  let duration_us := clipped_end floor_us pending next_start_pts_us - seg_start_pts_us pending in
  let duration_us :=
    if duration_us <=? 0 then
      let d := if 0 <? raw_duration_us then raw_duration_us else 2000000 in if d <? floor_us then floor_us else d
    else duration_us in
  if duration_us <? floor_us then floor_us else duration_us.

(** The cue with its texts copied, cut at a character. *)
Definition own_text (text : list Z) (bytes : Z) : list Z :=
  ztake (vw_utf8_safe_len (Some text) (if bytes <? VW_MAX_TEXT_BYTES then bytes else VW_MAX_TEXT_BYTES)) text.
Definition buffered_cue (seg : vw_caption_segment_t) (text : list Z) : vw_caption_segment_t :=
  let own := own_text text (if seg_text_bytes seg =? 0 then strlen text else seg_text_bytes seg) in
  let translated :=
    match seg_translated_text_utf8 seg with
    | Some t => if 0 <? seg_translated_text_bytes seg then Some (own_text t (seg_translated_text_bytes seg)) else None
    | None => None
    end in
  mk_segment (seg_session_id seg) (seg_segment_id seg) (seg_start_pts_us seg) (seg_end_pts_us seg) (seg_is_final seg)
    (Some (own ++ [0])) (u16 (zlen own)) (option_map (fun t => t ++ [0]) translated) (u16 (zlen (default [] translated)))
    (seg_translation_attempted seg) (seg_translation_latency_us seg) (seg_translation_tier seg).

Definition media_floor (rate : Z) : Z := mul_rate VW_CAPTION_MIN_DISPLAY_DURATION_US rate.

Definition vw_caption_presenter_show_segment (seg : vw_caption_segment_t) (input_time_us : Z) (media_timeline : bool) : P bool :=
  match seg_text_utf8 seg with
  | None => mret false
  | Some text =>
      rate ← vw_caption_presenter_get_rate;
      pr ← self;
      match pr_pending pr with
      | Some pending =>
          vw_render pending (paced_duration (media_floor rate) pending (seg_start_pts_us seg)) input_time_us media_timeline false ;; skip
      | None => skip
      end ;;
      on_presenter (fun pr => pr <| pr_pending := Some (buffered_cue seg text) |>) ;;
      mret true
  end.

Definition vw_caption_presenter_flush (input_time_us : Z) (media_timeline : bool) : P bool :=
  pr ← self;
  match pr_pending pr with
  | None => mret false
  | Some pending =>
      rate ← vw_caption_presenter_get_rate;
      rendered ← vw_render pending (own_duration (media_floor rate) pending) input_time_us media_timeline false;
      on_presenter (fun pr => pr <| pr_pending := None |>) ;;
      mret rendered
  end.

Definition vw_caption_presenter_show_paused (seg : vw_caption_segment_t) : P bool :=
  match seg_text_utf8 seg with
  | None => mret false
  | Some _ =>
      on_presenter (fun pr => pr <| pr_pending := None |>) ;;
      let duration_us := seg_end_pts_us seg - seg_start_pts_us seg in
      vw_render seg (if duration_us <? VW_CAPTION_MIN_DISPLAY_DURATION_US then VW_CAPTION_MIN_DISPLAY_DURATION_US else duration_us)
        (-1) false true
  end.

Definition vw_caption_presenter_blank : P unit :=
  on_presenter (fun pr => pr <| pr_pending := None |>) ;;
  pr ← self;
  if negb (pr_filter_ctx pr) then skip
  else
    let on_channel := pr_registered pr && (0 <=? pr_channel_id pr) in
    match pr_held_vout pr with
    | Some held =>
        if on_channel then emit (FlushedChannel held (pr_channel_id pr)) else
        v ← vw_caption_presenter_find_vout;
        match v with
        | None => skip
        | Some v =>
            emit (FlushedChannel v 1) ;; emit (OSDText v VW_OSD_BLANK_DURATION_US []) ;; emit (Released v)
        end
    | None =>
        v ← vw_caption_presenter_find_vout;
        match v with
        | None => skip
        | Some v =>
            (if on_channel then emit (FlushedChannel v (pr_channel_id pr))
             else emit (FlushedChannel v 1) ;; emit (OSDText v VW_OSD_BLANK_DURATION_US [])) ;;
            emit (Released v)
        end
    end.

(** The last lines of [clear]: the output and its channel are given up. *)
Definition let_go : P unit :=
  pr ← self;
  release (pr_held_vout pr) ;;
  on_presenter (fun pr => mk_presenter false None (-1) false (pr_progress_vout pr) (pr_progress_channel_id pr)
                            (pr_progress_registered pr) None).
Definition vw_caption_presenter_clear : P unit :=
  vw_caption_presenter_clear_model_progress ;; vw_caption_presenter_blank ;; let_go.

(** ** References and channels *)

(** The references held on [v] after the events, and those an event needs. *)
Definition ref_change (v : vout) (e : vlc_event) : Z :=
  match e with
  | Held w => if bool_decide (w = v) then 1 else 0
  | Released w => if bool_decide (w = v) then -1 else 0
  | _ => 0
  end.
Definition refs (v : vout) (log : list vlc_event) : Z := fold_right (fun e n => ref_change v e + n) 0 log.

(** An event is right after [before]: its output is held, and a subpicture goes to a
    channel of that very output and ends after it starts, unless the clock is at its
    end; channel 1 is VLC's own. *)
Definition lasting (s : subpicture) : Prop :=
  sp_start s < sp_stop s \/ INT64_MAX - VW_CAPTION_MIN_DISPLAY_DURATION_US < sp_start s.
Definition event_ok (before : list vlc_event) (e : vlc_event) : Prop :=
  match e with
  | Held _ => True
  | Released v | Registered v _ | OSDText v _ _ => 0 < refs v before
  | FlushedChannel v ch => 0 < refs v before /\ (ch = 1 \/ Registered v ch ∈ before)
  | PutSubpicture v ch s => 0 < refs v before /\ Registered v ch ∈ before /\ lasting s
  end.
Definition log_ok (log : list vlc_event) : Prop :=
  forall before e after, log = before ++ e :: after -> event_ok before e.

Definition count (o : option vout) (v : vout) : Z := if bool_decide (o = Some v) then 1 else 0.
Definition counts (l : list vout) (v : vout) : Z := fold_right (fun w n => count (Some w) v + n) 0 l.

(** The presenter's references are those it stores and, within a call, those of [found]. *)
Record inv (found : list vout) (p : pstate X) : Prop := {
  inv_refs v : refs v (p_log p) =
    count (pr_held_vout (p_presenter p)) v + count (pr_progress_vout (p_presenter p)) v + counts found v;
  inv_log : log_ok (p_log p);
  inv_channel v : pr_held_vout (p_presenter p) = Some v ->
    Registered v (pr_channel_id (p_presenter p)) ∈ p_log p;
  inv_progress v : pr_progress_vout (p_presenter p) = Some v ->
    Registered v (pr_progress_channel_id (p_presenter p)) ∈ p_log p
}.
(** Between calls the channel's flag tells that there is an output. *)
Definition settled (p : pstate X) : Prop :=
  pr_registered (p_presenter p) = true -> pr_held_vout (p_presenter p) <> None.
Definition pinv (p : pstate X) : Prop := inv [] p /\ settled p.

Lemma refs_app v l k : refs v (l ++ k) = refs v l + refs v k.
Proof. induction l as [|e l IH]; simpl; [done|]. unfold refs in *. simpl. lia. Qed.
Lemma log_ok_snoc log e : log_ok log -> event_ok log e -> log_ok (log ++ [e]).
Proof.
  intros Hl He before e' after E. destruct after as [|a after _] using rev_ind.
  - apply app_inj_tail in E as [-> ->]. done.
  - rewrite app_comm_cons, app_assoc in E. apply app_inj_tail in E as [E _]. by apply (Hl before e' after).
Qed.
Lemma count_nonneg o v : 0 <= count o v.
Proof. unfold count. by case_bool_decide. Qed.
Lemma counts_nonneg l v : 0 <= counts l v.
Proof. induction l as [|w l IH]; [done|]. change (counts (w :: l) v) with (count (Some w) v + counts l v).
  pose proof (count_nonneg (Some w) v). lia.
Qed.
Lemma counts_cons w l v : counts (w :: l) v = count (Some w) v + counts l v.
Proof. done. Qed.
Lemma refs_cons v e l : refs v (e :: l) = ref_change v e + refs v l.
Proof. done. Qed.
Lemma refs_snoc v l e : refs v (l ++ [e]) = refs v l + ref_change v e.
Proof. rewrite refs_app, refs_cons. unfold refs at 2. simpl. lia. Qed.
Lemma count_some v w : count (Some v) w = if bool_decide (v = w) then 1 else 0.
Proof. unfold count. repeat case_bool_decide; by simplify_eq. Qed.
Lemma count_self v : count (Some v) v = 1.
Proof. unfold count. by rewrite bool_decide_eq_true_2. Qed.

(** What may be used: what was found, and what is stored. *)
Lemma found_held v found p : inv (v :: found) p -> 0 < refs v (p_log p).
Proof.
  intros [H _ _ _]. rewrite H, counts_cons, count_self.
  pose proof (count_nonneg (pr_held_vout (p_presenter p)) v). pose proof (count_nonneg (pr_progress_vout (p_presenter p)) v).
  pose proof (counts_nonneg found v). lia.
Qed.
Lemma stored_held v found p : inv found p -> pr_held_vout (p_presenter p) = Some v -> 0 < refs v (p_log p).
Proof.
  intros [H _ _ _] E. rewrite H, E, count_self. pose proof (count_nonneg (pr_progress_vout (p_presenter p)) v).
  pose proof (counts_nonneg found v). lia.
Qed.
Lemma progress_held v found p : inv found p -> pr_progress_vout (p_presenter p) = Some v -> 0 < refs v (p_log p).
Proof.
  intros [H _ _ _] E. rewrite H, E, count_self. pose proof (count_nonneg (pr_held_vout (p_presenter p)) v).
  pose proof (counts_nonneg found v). lia.
Qed.

Definition logged (e : vlc_event) (p : pstate X) : pstate X := p <| p_log := p_log p ++ [e] |>.
Lemma emit_run e p : emit e p = (tt, logged e p).
Proof. done. Qed.
Lemma in_logged e' e p : e' ∈ p_log p -> e' ∈ p_log (logged e p).
Proof. intros H. simpl. apply elem_of_app. by left. Qed.

Lemma inv_other found e p :
  (forall v, ref_change v e = 0) -> event_ok (p_log p) e -> inv found p -> inv found (logged e p).
Proof.
  intros Hr He [H1 H2 H3 H4]. split.
  - intros v. simpl. rewrite refs_snoc, Hr, H1. lia.
  - by apply log_ok_snoc.
  - intros v Hv. by apply in_logged, H3.
  - intros v Hv. by apply in_logged, H4.
Qed.
Lemma inv_hold found v p : inv found p -> inv (v :: found) (logged (Held v) p).
Proof.
  intros [H1 H2 H3 H4]. split.
  - intros w. simpl. rewrite refs_snoc, H1. simpl. rewrite count_some. case_bool_decide; lia.
  - by apply log_ok_snoc.
  - intros w Hw. by apply in_logged, H3.
  - intros w Hw. by apply in_logged, H4.
Qed.
Lemma inv_release found v p : inv (v :: found) p -> inv found (logged (Released v) p).
Proof.
  intros H. pose proof (found_held v found p H) as Hp. destruct H as [H1 H2 H3 H4]. split.
  - intros w. simpl. rewrite refs_snoc, H1. simpl.
    rewrite count_some. case_bool_decide; lia.
  - by apply log_ok_snoc.
  - intros w Hw. by apply in_logged, H3.
  - intros w Hw. by apply in_logged, H4.
Qed.
Lemma inv_ext found x p : inv found p -> inv found (p <| p_ext := x |>).
Proof. by intros [H1 H2 H3 H4]. Qed.
(** A change of the presenter that keeps its references. *)
Lemma inv_presenter found f p :
  pr_held_vout (f (p_presenter p)) = pr_held_vout (p_presenter p) ->
  pr_progress_vout (f (p_presenter p)) = pr_progress_vout (p_presenter p) ->
  pr_channel_id (f (p_presenter p)) = pr_channel_id (p_presenter p) ->
  pr_progress_channel_id (f (p_presenter p)) = pr_progress_channel_id (p_presenter p) ->
  inv found p -> inv found (p <| p_presenter := f (p_presenter p) |>).
Proof.
  intros E1 E2 E3 E4 [H1 H2 H3 H4]. split; simpl.
  - intros v. by rewrite E1, E2, H1.
  - done.
  - intros v. rewrite E1, E3. apply H3.
  - intros v. rewrite E2, E4. apply H4.
Qed.

(** Moving a reference out of the presenter and into it. *)
Lemma inv_take_held found w f p :
  pr_held_vout (p_presenter p) = Some w ->
  pr_held_vout (f (p_presenter p)) = None ->
  pr_progress_vout (f (p_presenter p)) = pr_progress_vout (p_presenter p) ->
  pr_progress_channel_id (f (p_presenter p)) = pr_progress_channel_id (p_presenter p) ->
  inv found p -> inv (w :: found) (p <| p_presenter := f (p_presenter p) |>).
Proof.
  intros E E1 E2 E3 [H1 H2 H3 H4]. split; simpl; [|done| |].
  - intros v. rewrite E1, E2, H1, E. change (count None v) with 0. lia.
  - intros v. by rewrite E1.
  - intros v. rewrite E2, E3. apply H4.
Qed.
Lemma inv_take_progress found w f p :
  pr_progress_vout (p_presenter p) = Some w ->
  pr_progress_vout (f (p_presenter p)) = None ->
  pr_held_vout (f (p_presenter p)) = pr_held_vout (p_presenter p) ->
  pr_channel_id (f (p_presenter p)) = pr_channel_id (p_presenter p) ->
  inv found p -> inv (w :: found) (p <| p_presenter := f (p_presenter p) |>).
Proof.
  intros E E1 E2 E3 [H1 H2 H3 H4]. split; simpl; [|done| |].
  - intros v. rewrite E1, E2, H1, E. change (count None v) with 0. lia.
  - intros v. rewrite E2, E3. apply H3.
  - intros v. by rewrite E1.
Qed.
Lemma inv_store_held found w f p :
  pr_held_vout (p_presenter p) = None -> pr_held_vout (f (p_presenter p)) = Some w ->
  Registered w (pr_channel_id (f (p_presenter p))) ∈ p_log p ->
  pr_progress_vout (f (p_presenter p)) = pr_progress_vout (p_presenter p) ->
  pr_progress_channel_id (f (p_presenter p)) = pr_progress_channel_id (p_presenter p) ->
  inv (w :: found) p -> inv found (p <| p_presenter := f (p_presenter p) |>).
Proof.
  intros E E1 Hr E2 E3 [H1 H2 H3 H4]. split; simpl; [|done| |].
  - intros v. rewrite E1, E2, H1, E, counts_cons. change (count None v) with 0. lia.
  - intros v. rewrite E1. by intros [= <-].
  - intros v. rewrite E2, E3. apply H4.
Qed.
Lemma inv_store_progress found w f p :
  pr_progress_vout (p_presenter p) = None -> pr_progress_vout (f (p_presenter p)) = Some w ->
  Registered w (pr_progress_channel_id (f (p_presenter p))) ∈ p_log p ->
  pr_held_vout (f (p_presenter p)) = pr_held_vout (p_presenter p) ->
  pr_channel_id (f (p_presenter p)) = pr_channel_id (p_presenter p) ->
  inv (w :: found) p -> inv found (p <| p_presenter := f (p_presenter p) |>).
Proof.
  intros E E1 Hr E2 E3 [H1 H2 H3 H4]. split; simpl; [|done| |].
  - intros v. rewrite E1, E2, H1, E, counts_cons. change (count None v) with 0. lia.
  - intros v. rewrite E2, E3. apply H3.
  - intros v. rewrite E1. by intros [= <-].
Qed.
(** Nothing stored, nothing to keep track of. *)
Lemma inv_no_held found f p :
  pr_held_vout (p_presenter p) = None -> pr_held_vout (f (p_presenter p)) = None ->
  pr_progress_vout (f (p_presenter p)) = pr_progress_vout (p_presenter p) ->
  pr_progress_channel_id (f (p_presenter p)) = pr_progress_channel_id (p_presenter p) ->
  inv found p -> inv found (p <| p_presenter := f (p_presenter p) |>).
Proof.
  intros E E1 E2 E3 [H1 H2 H3 H4]. split; simpl; [|done| |].
  - intros v. by rewrite E1, E2, H1, E.
  - intros v. by rewrite E1.
  - intros v. rewrite E2, E3. apply H4.
Qed.
Lemma inv_no_progress found f p :
  pr_progress_vout (p_presenter p) = None -> pr_progress_vout (f (p_presenter p)) = None ->
  pr_held_vout (f (p_presenter p)) = pr_held_vout (p_presenter p) ->
  pr_channel_id (f (p_presenter p)) = pr_channel_id (p_presenter p) ->
  inv found p -> inv found (p <| p_presenter := f (p_presenter p) |>).
Proof.
  intros E E1 E2 E3 [H1 H2 H3 H4]. split; simpl; [|done| |].
  - intros v. by rewrite E1, E2, H1, E.
  - intros v. rewrite E2, E3. apply H3.
  - intros v. by rewrite E1.
Qed.

(** *** The calls, one by one *)

Lemma vlc_run {A} (f : X -> A * X) p : vlc f p = (fst (f (p_ext p)), p <| p_ext := snd (f (p_ext p)) |>).
Proof. unfold vlc. by destruct (f (p_ext p)). Qed.
Lemma on_presenter_run f p : on_presenter f p = (tt, p <| p_presenter := f (p_presenter p) |>).
Proof. done. Qed.

Lemma find_vout_spec found p :
  inv found p ->
  let r := vw_caption_presenter_find_vout p in
  p_presenter (snd r) = p_presenter p /\ inv (option_list (fst r) ++ found) (snd r).
Proof.
  intros H. unfold vw_caption_presenter_find_vout. rewrite bind_run. cbn [fst snd self gets].
  destruct (pr_filter_ctx (p_presenter p)); [|done]. cbn [negb]. rewrite bind_run, vlc_run. cbn [fst snd].
  destruct (first_some _ _) as [v|]; [|by split; [|apply inv_ext]].
  rewrite bind_run, emit_run. cbn [fst snd]. split; [done|]. by apply inv_hold, inv_ext.
Qed.
Lemma get_rate_spec found p :
  inv found p ->
  let r := vw_caption_presenter_get_rate p in p_presenter (snd r) = p_presenter p /\ inv found (snd r).
Proof.
  intros H. unfold vw_caption_presenter_get_rate. rewrite bind_run. cbn [fst snd self gets].
  destruct (pr_filter_ctx (p_presenter p)); [|done]. cbn [negb]. rewrite bind_run, vlc_run. by split; [|apply inv_ext].
Qed.
Lemma stop_after_lasting start stop text top ephemer :
  lasting (mk_subpicture text top start (stop_after start stop) ephemer).
Proof.
  unfold lasting, stop_after. cbn [sp_start sp_stop]. destruct (Z.leb_spec stop start) as [Hs|Hs]; [|by left].
  destruct (Z.le_gt_cases start (INT64_MAX - VW_CAPTION_MIN_DISPLAY_DURATION_US)) as [Hm|Hm]; [|right; lia]. left.
  unfold vw_saturating_add_i64, VW_CAPTION_MIN_DISPLAY_DURATION_US, INT64_MAX in *.
  destruct (Z.eqb_spec (i64 (start + 1000000)) (start + 1000000)) as [E|_]; cbn [negb]; [rewrite E; lia|]. change (0 <? 1000000) with true. change (if true then ?a else _) with a; unfold INT64_MAX; lia.
Qed.
Lemma render_spu_spec found v ch text top start stop replace persistent p :
  inv (v :: found) p -> Registered v ch ∈ p_log p ->
  let r := vw_caption_presenter_render_spu v ch text top start stop replace persistent p in
  p_presenter (snd r) = p_presenter p /\ inv (v :: found) (snd r).
Proof.
  intros H Hr. unfold vw_caption_presenter_render_spu. destruct (ch <? 0); [done|]. rewrite !bind_run.
  assert (exists p', snd (when replace (emit (FlushedChannel v ch)) p) = p' /\ p_presenter p' = p_presenter p
          /\ inv (v :: found) p' /\ Registered v ch ∈ p_log p') as (p' & -> & E & H' & Hr').
  { destruct replace; [|by eexists]. eexists. split; [done|]. cbn [when]. rewrite emit_run. cbn [snd].
    split_and!; [done| |by apply in_logged]. apply inv_other; [done| |done]. split; [by eapply found_held|by right]. }
  rewrite !emit_run. cbn [fst snd]. split; [done|]. apply inv_other; [done| |done].
  split_and!; [by eapply found_held|done|apply stop_after_lasting].
Qed.
Lemma register_spec found v p :
  inv (v :: found) p ->
  let r := register v p in
  p_presenter (snd r) = p_presenter p /\ inv (v :: found) (snd r) /\ Registered v (fst r) ∈ p_log (snd r).
Proof.
  intros H. unfold register. rewrite bind_run, vlc_run. cbn [fst snd]. rewrite bind_run, emit_run. cbn [fst snd].
  split_and!; [done| |apply elem_of_app; right; by apply list_elem_of_singleton].
  apply inv_other; [done| |by apply inv_ext]. by eapply (found_held v found), inv_ext.
Qed.

(** A stored reference given up. *)
Lemma give_up_progress found w (b : bool) f p :
  pr_progress_vout (p_presenter p) = Some w -> inv found p ->
  pr_progress_vout (f (p_presenter p)) = None ->
  pr_held_vout (f (p_presenter p)) = pr_held_vout (p_presenter p) ->
  pr_channel_id (f (p_presenter p)) = pr_channel_id (p_presenter p) ->
  let p' := snd (release (Some w) (snd (when b (flush_channel (Some w) (pr_progress_channel_id (p_presenter p))) p))) in
  p_presenter p' = p_presenter p /\ inv found (p' <| p_presenter := f (p_presenter p) |>).
Proof.
  intros E H F1 F2 F3. cbn [flush_channel release].
  assert (exists p1, snd (when b (emit (FlushedChannel w (pr_progress_channel_id (p_presenter p)))) p) = p1
      /\ p_presenter p1 = p_presenter p /\ inv found p1) as (p1 & -> & Ep & H1).
  { destruct b; [|by eexists]. eexists. split; [done|]. cbn [when]. rewrite emit_run. cbn [snd]. split; [done|].
    apply inv_other; [done| |done]. split; [by eapply progress_held|right]. by apply (inv_progress _ _ H). }
  rewrite emit_run. cbn [snd]. split; [done|]. rewrite <- Ep in *.
  change (inv found (logged (Released w) (p1 <| p_presenter := f (p_presenter p1) |>))).
  apply inv_release. by apply inv_take_progress.
Qed.
Lemma give_up_held found w (b : bool) f p :
  pr_held_vout (p_presenter p) = Some w -> inv found p ->
  pr_held_vout (f (p_presenter p)) = None ->
  pr_progress_vout (f (p_presenter p)) = pr_progress_vout (p_presenter p) ->
  pr_progress_channel_id (f (p_presenter p)) = pr_progress_channel_id (p_presenter p) ->
  let p' := snd (release (Some w) (snd (when b (flush_channel (Some w) (pr_channel_id (p_presenter p))) p))) in
  p_presenter p' = p_presenter p /\ inv found (p' <| p_presenter := f (p_presenter p) |>).
Proof.
  intros E H F1 F2 F3. cbn [flush_channel release].
  assert (exists p1, snd (when b (emit (FlushedChannel w (pr_channel_id (p_presenter p)))) p) = p1
      /\ p_presenter p1 = p_presenter p /\ inv found p1) as (p1 & -> & Ep & H1).
  { destruct b; [|by eexists]. eexists. split; [done|]. cbn [when]. rewrite emit_run. cbn [snd]. split; [done|].
    apply inv_other; [done| |done]. split; [by eapply stored_held|right]. by apply (inv_channel _ _ H). }
  rewrite emit_run. cbn [snd]. split; [done|]. rewrite <- Ep in *.
  change (inv found (logged (Released w) (p1 <| p_presenter := f (p_presenter p1) |>))).
  apply inv_release. by apply inv_take_held.
Qed.

Lemma drop_progress_spec found p :
  inv found p ->
  let r := (when (bool_decide (pr_progress_vout (p_presenter p) <> None))
      (when (pr_progress_registered (p_presenter p) && (0 <=? pr_progress_channel_id (p_presenter p)))
         (flush_channel (pr_progress_vout (p_presenter p)) (pr_progress_channel_id (p_presenter p))) ;;
       release (pr_progress_vout (p_presenter p)) ;;
       on_presenter (fun pr => pr <| pr_progress_vout := None |>))) p in
  p_presenter (snd r) = (p_presenter p) <| pr_progress_vout := None |> /\ inv found (snd r).
Proof.
  intros H. destruct (pr_progress_vout (p_presenter p)) as [w|] eqn:E.
  2:{ rewrite bool_decide_eq_false_2 by auto. cbn [when skip mret M_ret snd]. split; [|done].
      destruct (p_presenter p). simpl in *. by subst. }
  rewrite bool_decide_eq_true_2 by done. cbn [when]. rewrite !bind_run, on_presenter_run.
  destruct (give_up_progress found w (pr_progress_registered (p_presenter p) && (0 <=? pr_progress_channel_id (p_presenter p)))
    (fun pr => pr <| pr_progress_vout := None |>) p E H) as [Ep H']; try done.
  cbn [snd]. rewrite Ep. by split.
Qed.
Lemma register_progress_spec found v p :
  inv (v :: found) p ->
  let r := vw_caption_presenter_register_model_progress_channel v p in
  inv (v :: found) (snd r)
  /\ pr_held_vout (p_presenter (snd r)) = pr_held_vout (p_presenter p)
  /\ pr_registered (p_presenter (snd r)) = pr_registered (p_presenter p)
  /\ (fst r = true -> pr_progress_vout (p_presenter (snd r)) = Some v).
Proof.
  intros H. unfold vw_caption_presenter_register_model_progress_channel. rewrite bind_run. cbn [fst snd self gets].
  destruct (pr_progress_registered (p_presenter p) && _) eqn:Eb.
  { apply andb_prop in Eb as [_ Eb%bool_decide_eq_true]. done. }
  rewrite bind_run. destruct (drop_progress_spec _ _ H) as [Ep H1].
  destruct (when _ _ p) as [[] p1]. cbn [fst snd] in *. rewrite bind_run.
  destruct (register_spec found v p1 H1) as (Ep2 & H2 & R2). destruct (register v p1) as [ch p2]. cbn [fst snd] in *.
  assert (p_presenter p2 = (p_presenter p) <| pr_progress_vout := None |>) as Ep' by congruence.
  destruct (ch <? 0).
  - rewrite bind_run, on_presenter_run. cbn [fst snd]. simpl. rewrite Ep'. split_and!; try done.
    apply (inv_no_progress _ (fun pr => pr <| pr_progress_channel_id := -1 |> <| pr_progress_registered := false |>)) in H2;
      try done; by rewrite Ep' in *.
  - rewrite !bind_run, emit_run, on_presenter_run. cbn [fst snd]. simpl. rewrite Ep'. split_and!; try done.
    apply (inv_hold _ v) in H2.
    apply (inv_store_progress _ v (fun pr => pr <| pr_progress_vout := Some v |> <| pr_progress_channel_id := ch |>
                                 <| pr_progress_registered := true |>)) in H2; try done; simpl in *; [by rewrite Ep' in H2| | ].
    + by rewrite Ep'.
    + apply elem_of_app. by left.
Qed.

(** What concerns captions is unchanged. *)
Definition same_captions (pr pr' : vw_caption_presenter_t) : Prop :=
  pr_held_vout pr' = pr_held_vout pr /\ pr_registered pr' = pr_registered pr.
Lemma settled_same p p' : same_captions (p_presenter p) (p_presenter p') -> settled p -> settled p'.
Proof. unfold settled. intros [-> ->]. done. Qed.

Lemma release_found_spec found v p : inv (v :: found) p ->
  p_presenter (snd (emit (Released v) p)) = p_presenter p /\ inv found (snd (emit (Released v) p)).
Proof. intros H. rewrite emit_run. split; [done|by apply inv_release]. Qed.

Lemma show_progress_pinv progress p : pinv p -> pinv (snd (vw_caption_presenter_show_model_progress progress p)).
Proof.
  intros [H S]. unfold vw_caption_presenter_show_model_progress. rewrite bind_run. cbn [fst snd self gets].
  destruct (pr_filter_ctx (p_presenter p)); [|done]. cbn [negb]. rewrite bind_run.
  destruct (find_vout_spec [] p H) as [E1 H1]. destruct (vw_caption_presenter_find_vout p) as [[v|] p1]; cbn [fst snd option_list app] in *.
  2:{ split; [done|]. apply (settled_same p); [by split; cbn [snd mret M_ret]; rewrite E1|done]. }
  rewrite bind_run. destruct (register_progress_spec [] v p1 H1) as (H2 & E2 & E3 & R2).
  destruct (vw_caption_presenter_register_model_progress_channel v p1) as [ok p2]. cbn [fst snd] in *.
  assert (same_captions (p_presenter p) (p_presenter p2)) as Ec by (split; congruence). destruct ok; cbn [negb].
  - rewrite bind_run. cbn [fst snd self gets]. rewrite bind_run, vlc_run. cbn [fst snd]. rewrite bind_run.
    match goal with |- context [vw_caption_presenter_render_spu ?v ?ch ?t ?b ?s ?e ?r ?q ?p] =>
      destruct (render_spu_spec [] v ch t b s e r q p) as [E4 H4];
        [by apply inv_ext|apply (inv_progress _ _ H2), R2; done|];
      destruct (vw_caption_presenter_render_spu v ch t b s e r q p) as [rendered p3]
    end.
    cbn [fst snd] in *. rewrite bind_run. destruct (release_found_spec _ _ _ H4) as [E5 H5].
    destruct (emit (Released v) p3) as [[] p4]. cbn [fst snd] in *. split; [done|].
    apply (settled_same p); [|done]. unfold same_captions. cbn [snd mret M_ret]. by rewrite E5, E4.
  - rewrite bind_run. destruct (release_found_spec _ _ _ H2) as [E5 H5].
    destruct (emit (Released v) p2) as [[] p4]. cbn [fst snd] in *. split; [done|].
    apply (settled_same p); [|done]. unfold same_captions. cbn [snd mret M_ret]. by rewrite E5.
Qed.
Lemma clear_progress_spec p :
  inv [] p ->
  let p' := snd (vw_caption_presenter_clear_model_progress p) in
  inv [] p' /\ same_captions (p_presenter p) (p_presenter p') /\ pr_progress_vout (p_presenter p') = None.
Proof.
  intros H. unfold vw_caption_presenter_clear_model_progress. rewrite bind_run. cbn [fst snd self gets].
  rewrite bind_run, on_presenter_run. cbn [fst snd].
  set (f := fun pr => pr <| pr_progress_vout := None |> <| pr_progress_channel_id := -1 |> <| pr_progress_registered := false |>).
  destruct (pr_progress_vout (p_presenter p)) as [w|] eqn:E.
  - rewrite bool_decide_eq_true_2 by done. cbn [when]. rewrite !bind_run.
    destruct (give_up_progress [] w (pr_progress_registered (p_presenter p) && (0 <=? pr_progress_channel_id (p_presenter p)))
      f p E H) as [Ep H']; try done. rewrite Ep. by split_and!.
  - rewrite bool_decide_eq_false_2 by auto. cbn [when skip mret M_ret snd]. split_and!; [|done..].
    by apply (inv_no_progress [] f).
Qed.

Lemma ensure_channel_spec v p :
  inv [v] p ->
  let p' := snd (ensure_channel v p) in
  inv [v] p' /\ (pr_registered (p_presenter p') = true -> 0 <= pr_channel_id (p_presenter p') -> pr_held_vout (p_presenter p') = Some v)
  /\ (settled p -> settled p').
Proof.
  intros H. unfold ensure_channel. rewrite bind_run. cbn [fst snd self gets].
  destruct (negb (pr_registered (p_presenter p)) || _ || _) eqn:Eb; cbn [when].
  2:{ cbn [skip mret M_ret snd]. apply orb_false_elim in Eb as [Eb _]. apply orb_false_elim in Eb as [_ Eb].
      apply negb_false_iff, bool_decide_eq_true in Eb. by split_and!. }
  rewrite bind_run.
  assert (exists p1, snd (when (bool_decide (pr_held_vout (p_presenter p) <> None))
       (when (0 <=? pr_channel_id (p_presenter p)) (flush_channel (pr_held_vout (p_presenter p)) (pr_channel_id (p_presenter p))) ;;
        release (pr_held_vout (p_presenter p)) ;;
        on_presenter (fun pr => pr <| pr_held_vout := None |>)) p) = p1
    /\ inv [v] p1 /\ pr_held_vout (p_presenter p1) = None) as (p1 & -> & H1 & N1).
  { eexists. split; [done|]. destruct (pr_held_vout (p_presenter p)) as [w|] eqn:E.
    - rewrite bool_decide_eq_true_2 by done. cbn [when]. rewrite !bind_run, on_presenter_run.
      destruct (give_up_held [v] w (0 <=? pr_channel_id (p_presenter p)) (fun pr => pr <| pr_held_vout := None |>) p E H)
        as [Ep H']; try done. cbn [snd]. rewrite Ep. by split.
    - rewrite bool_decide_eq_false_2 by auto. done. }
  rewrite bind_run. destruct (register_spec [] v p1 H1) as (E2 & H2 & R2). destruct (register v p1) as [ch p2].
  cbn [fst snd] in *. rewrite <- E2 in N1. destruct (Z.leb_spec 0 ch).
  - rewrite bind_run, emit_run, on_presenter_run. cbn [fst snd]. split_and!; [|done|done].
    apply (inv_store_held [v] v (fun pr => pr <| pr_held_vout := Some v |> <| pr_channel_id := ch |> <| pr_registered := true |>));
      try done; [by apply in_logged|by apply inv_hold].
  - rewrite on_presenter_run. cbn [fst snd]. split_and!; [|done|done].
    by apply (inv_no_held [v] (fun pr => pr <| pr_channel_id := -1 |> <| pr_registered := false |> <| pr_held_vout := None |>)).
Qed.

Lemma text_spec text seg p :
  inv [] p ->
  let p' := snd (text_to_render text seg p) in inv [] p' /\ p_presenter p' = p_presenter p.
Proof.
  intros H. unfold text_to_render. destruct (translated_text seg); [|done]. rewrite bind_run. cbn [fst snd self gets].
  rewrite bind_run. destruct (pr_filter_ctx (p_presenter p)); [|done]. rewrite vlc_run. split; [|done]. by apply inv_ext.
Qed.
Lemma display_spec text d p :
  inv [] p ->
  let p' := snd (vw_caption_presenter_display text d p) in inv [] p' /\ p_presenter p' = p_presenter p.
Proof.
  intros H. unfold vw_caption_presenter_display. destruct (d <=? 0); [done|]. rewrite bind_run. cbn [fst snd self gets].
  destruct (pr_filter_ctx (p_presenter p)); [|done]. cbn [negb]. rewrite bind_run.
  destruct (find_vout_spec [] p H) as [E1 H1]. destruct (vw_caption_presenter_find_vout p) as [[v|] p1]; cbn [fst snd option_list app] in *; [|done].
  rewrite !bind_run, !emit_run. cbn [fst snd]. split; [|done]. apply inv_release.
  apply inv_other; [done| |done]. by eapply (found_held v []).
Qed.

Lemma render_pinv seg d t media persistent p : pinv p -> pinv (snd (vw_render seg d t media persistent p)).
Proof.
  intros [H S]. unfold vw_render. destruct (seg_text_utf8 seg) as [text|]; [|done]. rewrite bind_run.
  destruct (text_spec text seg p H) as [H1 E1]. destruct (text_to_render text seg p) as [txt p1]. cbn [fst snd] in *.
  rewrite bind_run. destruct (get_rate_spec [] p1 H1) as [E2 H2]. destruct (vw_caption_presenter_get_rate p1) as [rate p2].
  cbn [fst snd] in *. rewrite bind_run. cbn [fst snd self gets].
  assert (p_presenter p2 = p_presenter p) as E by congruence.
  assert (forall p', inv [] p' -> same_captions (p_presenter p) (p_presenter p') -> pinv p') as Hdone
    by (intros p' ? ?; split; [done|by apply (settled_same p)]).
  destruct (pr_filter_ctx (p_presenter p2)); cbn [negb].
  2:{ destruct (display_spec txt d p2 H2) as [H3 E3]. apply Hdone; [done|]. unfold same_captions. by rewrite E3, E. }
  rewrite bind_run. destruct (find_vout_spec [] p2 H2) as [E3 H3].
  destruct (vw_caption_presenter_find_vout p2) as [[v|] p3]; cbn [fst snd option_list app] in *.
  2:{ apply Hdone; [done|]. unfold same_captions. cbn [snd mret M_ret]. by rewrite E3, E. }
  rewrite bind_run. destruct (ensure_channel_spec v p3 H3) as (H4 & C4 & S4). destruct (ensure_channel v p3) as [[] p4].
  cbn [fst snd] in *. rewrite bind_run. cbn [fst snd self gets].
  assert (settled p4) as Hs4 by (apply S4, (settled_same p); [by unfold same_captions; rewrite E3, E|done]).
  rewrite bind_run.
  match goal with |- context [(if ?b then ?m else mret false) p4] =>
    assert (exists rendered p5, (if b then m else mret false) p4 = (rendered, p5) /\ p_presenter p5 = p_presenter p4 /\ inv [v] p5)
      as (rendered & p5 & -> & E5 & H5)
  end.
  { destruct (pr_registered (p_presenter p4) && (0 <=? pr_channel_id (p_presenter p4))) eqn:Eb; [|by eexists _, _].
    apply andb_prop in Eb as [Er Ec]. rewrite bind_run, vlc_run. cbn [fst snd].
    match goal with |- context [vw_caption_presenter_render_spu ?v ?ch ?t ?b ?s ?e ?r ?q ?p] =>
      destruct (render_spu_spec [] v ch t b s e r q p) as [E5 H5];
        [by apply inv_ext|apply (inv_channel _ _ H4), C4; [done|lia]|];
      destruct (vw_caption_presenter_render_spu v ch t b s e r q p) as [rendered p5]
    end.
    by exists rendered, p5. }
  cbn [fst snd]. rewrite !bind_run.
  assert (exists p6, snd (when (negb rendered) (emit (OSDText v (div_rate d rate) txt)) p5) = p6
    /\ p_presenter p6 = p_presenter p5 /\ inv [v] p6) as (p6 & -> & E6 & H6).
  { eexists. split; [done|]. destruct rendered; [done|]. cbn [negb when]. rewrite emit_run. split; [done|].
    apply inv_other; [done| |done]. by eapply (found_held v []). }
  rewrite emit_run. cbn [fst snd]. split; [by apply inv_release|]. apply (settled_same p4); [|done].
  unfold same_captions. cbn [snd mret M_ret]. change (p_presenter (logged (Released v) p6)) with (p_presenter p6).
  by rewrite E6, E5.
Qed.

(** A change of what is buffered_cue. *)
Lemma pinv_pending o p : pinv p -> pinv (p <| p_presenter := (p_presenter p) <| pr_pending := o |> |>).
Proof. intros [H S]. split; [|done]. by apply (inv_presenter [] (fun pr => pr <| pr_pending := o |>)). Qed.
Lemma get_rate_pinv p : pinv p -> pinv (snd (vw_caption_presenter_get_rate p)).
Proof.
  intros [H S]. destruct (get_rate_spec [] p H) as [E H']. split; [done|].
  apply (settled_same p); [|done]. unfold same_captions. by rewrite E.
Qed.

Lemma show_segment_pinv seg t media p : pinv p -> pinv (snd (vw_caption_presenter_show_segment seg t media p)).
Proof.
  intros H. unfold vw_caption_presenter_show_segment. destruct (seg_text_utf8 seg) as [text|]; [|done]. rewrite !bind_run.
  apply get_rate_pinv in H. destruct (vw_caption_presenter_get_rate p) as [rate p1]. cbn [fst snd self gets] in *.
  rewrite ?bind_run, on_presenter_run. cbn [fst snd]. apply pinv_pending.
  destruct (pr_pending (p_presenter p1)); [|done]. rewrite bind_run. by apply render_pinv.
Qed.
Lemma flush_pinv t media p : pinv p -> pinv (snd (vw_caption_presenter_flush t media p)).
Proof.
  intros H. unfold vw_caption_presenter_flush. rewrite bind_run. cbn [fst snd self gets].
  destruct (pr_pending (p_presenter p)) as [pending|]; [|done]. rewrite bind_run. apply get_rate_pinv in H.
  destruct (vw_caption_presenter_get_rate p) as [rate p1]. cbn [fst snd] in *. rewrite !bind_run, on_presenter_run.
  by apply pinv_pending, render_pinv.
Qed.
Lemma paused_pinv seg p : pinv p -> pinv (snd (vw_caption_presenter_show_paused seg p)).
Proof.
  intros H. unfold vw_caption_presenter_show_paused. destruct (seg_text_utf8 seg); [|done]. rewrite bind_run, on_presenter_run.
  by apply render_pinv, pinv_pending.
Qed.

Lemma settled_on_channel p : settled p -> pr_registered (p_presenter p) = true -> exists v, pr_held_vout (p_presenter p) = Some v.
Proof. intros S R. specialize (S R). destruct (pr_held_vout (p_presenter p)); [by eexists|done]. Qed.
(** Blanking VLC's own channel of an output that was found. *)
Lemma blank_osd_spec v p :
  inv [v] p ->
  let p' := snd ((emit (FlushedChannel v 1) ;; emit (OSDText v VW_OSD_BLANK_DURATION_US [])) p) in
  inv [v] p' /\ p_presenter p' = p_presenter p.
Proof.
  intros H. rewrite bind_run, !emit_run. cbn [fst snd]. split; [|done].
  assert (inv [v] (logged (FlushedChannel v 1) p)) as H1
    by (apply inv_other; [done|split; [by eapply (found_held v [])|by left]|done]).
  apply inv_other; [done| |done]. by eapply (found_held v []).
Qed.
Lemma blank_spec p :
  pinv p ->
  let p' := snd (vw_caption_presenter_blank p) in
  inv [] p' /\ same_captions (p_presenter p) (p_presenter p') /\ pr_progress_vout (p_presenter p') = pr_progress_vout (p_presenter p).
Proof.
  intros H0. unfold vw_caption_presenter_blank. rewrite bind_run, on_presenter_run. cbn [fst snd].
  apply (pinv_pending None) in H0. set (p0 := p <| _ := _ |>) in *. destruct H0 as [H S].
  assert (same_captions (p_presenter p) (p_presenter p0) /\ pr_progress_vout (p_presenter p0) = pr_progress_vout (p_presenter p))
    as [Hc Hp] by done. clearbody p0. rewrite bind_run. cbn [fst snd self gets].
  assert (forall p', inv [] p' -> p_presenter p' = p_presenter p0 ->
    inv [] p' /\ same_captions (p_presenter p) (p_presenter p') /\ pr_progress_vout (p_presenter p') = pr_progress_vout (p_presenter p))
    as Hdone by (intros p' Hi ->; done).
  destruct (pr_filter_ctx (p_presenter p0)); cbn [negb]; [|by apply Hdone].
  destruct (find_vout_spec [] p0 H) as [E1 H1].
  destruct (pr_held_vout (p_presenter p0)) as [held|] eqn:Eh.
  - destruct (pr_registered (p_presenter p0) && (0 <=? pr_channel_id (p_presenter p0))).
    + rewrite emit_run. apply Hdone; [|done]. apply inv_other; [done| |done].
      split; [by eapply stored_held|right]. by apply (inv_channel _ _ H).
    + rewrite bind_run. destruct (vw_caption_presenter_find_vout p0) as [[v|] p1]; cbn [fst snd option_list app] in *; [|by apply Hdone].
      destruct (blank_osd_spec v p1 H1) as [H2 E2]. rewrite !bind_run in *. rewrite !emit_run in *. cbn [fst snd] in *.
      apply Hdone; [by apply inv_release|done].
  - rewrite bind_run. destruct (vw_caption_presenter_find_vout p0) as [[v|] p1]; cbn [fst snd option_list app] in *; [|by apply Hdone].
    destruct (pr_registered (p_presenter p0)) eqn:Er; [destruct (settled_on_channel p0 S Er); congruence|]. cbn [andb].
    destruct (blank_osd_spec v p1 H1) as [H2 E2]. rewrite !bind_run in *. rewrite !emit_run in *. cbn [fst snd] in *.
    apply Hdone; [by apply inv_release|done].
Qed.
Lemma let_go_spec p :
  inv [] p -> pr_progress_vout (p_presenter p) = None ->
  pinv (snd (let_go p)) /\ forall v, refs v (p_log (snd (let_go p))) = 0.
Proof.
  intros H P. unfold let_go. rewrite bind_run. cbn [fst snd self gets]. rewrite bind_run, on_presenter_run. cbn [snd].
  set (f := fun pr => mk_presenter false None (-1) false (pr_progress_vout pr) (pr_progress_channel_id pr) (pr_progress_registered pr) None).
  assert (inv [] ((snd (release (pr_held_vout (p_presenter p)) p)) <| p_presenter := f (p_presenter p) |>)
          /\ p_presenter (snd (release (pr_held_vout (p_presenter p)) p)) = p_presenter p) as [H3 ->].
  { destruct (pr_held_vout (p_presenter p)) as [w|] eqn:E.
    - by destruct (give_up_held [] w false f p E H).
    - split; [|done]. by apply (inv_no_held [] f). }
  split; [by split|]. intros v. rewrite (inv_refs _ _ H3). simpl. by rewrite P.
Qed.
Lemma clear_spec p :
  pinv p -> pinv (snd (vw_caption_presenter_clear p)) /\ forall v, refs v (p_log (snd (vw_caption_presenter_clear p))) = 0.
Proof.
  intros [H S]. unfold vw_caption_presenter_clear. rewrite bind_run. destruct (clear_progress_spec p H) as (H1 & C1 & P1).
  destruct (vw_caption_presenter_clear_model_progress p) as [[] p1]. cbn [fst snd] in *. rewrite bind_run.
  destruct (blank_spec p1) as (H2 & C2 & P2); [split; [done|by apply (settled_same p)]|].
  apply let_go_spec; [done|]. by rewrite P2, P1.
Qed.

(** ** Runs *)

Inductive presenter_call :=
  | ShowSegment (seg : vw_caption_segment_t) (input_time_us : Z) (media_timeline : bool)
  | FlushPending (input_time_us : Z) (media_timeline : bool)
  | ShowPaused (seg : vw_caption_segment_t)
  | ShowProgress (progress : vw_msg_model_progress_t)
  | ClearProgress
  | Blank.
Definition present (call : presenter_call) (p : pstate X) : pstate X :=
  match call with
  | ShowSegment seg t media => snd (vw_caption_presenter_show_segment seg t media p)
  | FlushPending t media => snd (vw_caption_presenter_flush t media p)
  | ShowPaused seg => snd (vw_caption_presenter_show_paused seg p)
  | ShowProgress progress => snd (vw_caption_presenter_show_model_progress progress p)
  | ClearProgress => snd (vw_caption_presenter_clear_model_progress p)
  | Blank => snd (vw_caption_presenter_blank p)
  end.
Definition present_all (calls : list presenter_call) (p : pstate X) : pstate X := fold_left (fun p call => present call p) calls p.

(** As [vw_plugin_open] leaves it. *)
Definition presenter_start (x : X) : pstate X := mk_pstate (mk_presenter true None (-1) false None (-1) false None) [] x.

Lemma start_pinv x : pinv (presenter_start x).
Proof.
  split; [split; simpl; try done|done]. intros before e after E. by destruct before.
Qed.
Lemma present_pinv call p : pinv p -> pinv (present call p).
Proof.
  intros H. destruct call; cbn [present]; auto using show_segment_pinv, flush_pinv, paused_pinv, show_progress_pinv.
  - destruct H as [H S]. destruct (clear_progress_spec p H) as (H1 & C1 & _). split; [done|by apply (settled_same p)].
  - destruct (blank_spec p H) as (H1 & C1 & _). split; [done|]. by apply (settled_same p); [|apply H].
Qed.
Lemma present_all_pinv calls : forall p, pinv p -> pinv (present_all calls p).
Proof. induction calls as [|call calls IH]; intros p H; [done|]. by apply IH, present_pinv. Qed.
End presenter.

(** ** Pacing *)

Lemma own_duration_positive floor_us seg : 0 < floor_us -> 0 < own_duration floor_us seg.
Proof. unfold own_duration. intros. repeat case_goal; bool_to_prop; lia. Qed.
Lemma paced_clipped floor_us pending next :
  0 < floor_us ->
  paced_duration floor_us pending next = Z.max floor_us (clipped_end floor_us pending next - seg_start_pts_us pending).
Proof.
  intros Hf. pose proof (own_duration_positive floor_us pending Hf).
  assert (0 < clipped_end floor_us pending next - seg_start_pts_us pending) as Hc
    by (unfold clipped_end; repeat case_goal; bool_to_prop; lia).
  unfold paced_duration. replace (_ <=? 0) with false by lia. case_goal; bool_to_prop; lia.
Qed.

(** A cue without a length of its own, flushed at more than twice the speed, falls
    below the floor. *)
Lemma flush_below_floor seg :
  seg_end_pts_us seg = seg_start_pts_us seg -> media_floor 0x40400000 = 3000000 /\ own_duration 3000000 seg = 2000000.
Proof. intros E. unfold own_duration. rewrite E, Z.sub_diag. split; [vm_compute; reflexivity|done]. Qed.

(** ** Properties *)

(** C25: The presenter's use of VLC objects is sound over every run: an output is held
    whenever it is used, a cue is only put on a channel registered with that very
    output and ends after it starts, the references counted are exactly those the
    presenter stores, and after teardown none is left. *)
Theorem presenter_references {X} `{!VlcEnv X} (x : X) calls :
  let p := present_all calls (presenter_start x) in
  log_ok (p_log p)
  /\ (forall v, refs v (p_log p) = count (pr_held_vout (p_presenter p)) v + count (pr_progress_vout (p_presenter p)) v)
  /\ let p' := snd (vw_caption_presenter_clear p) in
     log_ok (p_log p') /\ forall v, refs v (p_log p') = 0.
Proof.
  intros p. assert (pinv p) as Hp by apply present_all_pinv, start_pinv. destruct (clear_spec p Hp) as [[Hc _] Hz].
  destruct Hp as [Hp _]. split_and!; [apply Hp|intros v; rewrite (inv_refs _ _ Hp); simpl; lia|split; [apply Hc|done]].
Qed.


