(* ===== verification/Benchmark.v ===== *)
(** * The plugin's session report

    [src/plugin/src/vw_benchmark.c]: the counters of a session, their percentiles and
    the report written from them to a directory only the user can read (the POSIX
    branch). The file system, the environment and the user are the operations of
    [OsEnv]; an allocated report is [vw_benchmark_t] with its samples as lists. *)

From stdpp Require Import relations sorting.
From S2P Require Import Prelude.
From S2P Require Import CString.
From S2P Require Import Float32.
From S2P Require Import ProtocolTypes.
From S2P Require Import State.
#[local] Open Scope Z_scope.

Definition VW_BENCHMARK_MAX_LATENCY_SAMPLES : Z := 1024.
Definition VW_BENCHMARK_REPORT_FILENAME : list Z := str "vlc-whisper-benchmark.txt".

(** ** The operating system *)

(** [struct stat]: [fi_mode] are the permission bits. *)
Record file_info := mk_file_info { fi_directory : bool; fi_uid : Z; fi_mode : Z }.
Inductive mkdir_result := MkdirMade | MkdirExists | MkdirFailed.

Class OsEnv (X : Type) := {
  getenv : X -> list Z -> option (list Z) * X;
  getuid : X -> Z * X;
  stat : X -> list Z -> option file_info * X;
  lstat : X -> list Z -> option file_info * X;
  access_wx : X -> list Z -> bool * X;
  access_exists : X -> list Z -> bool * X;
  mkdir_private : X -> list Z -> mkdir_result * X;
  chmod_private : X -> list Z -> bool * X;
  (** [mkstemp], [fchmod] and [fdopen] on the descriptor, the text with [fflush] and
      [fclose], [rename] and [remove]. *)
  mkstemp : X -> list Z -> option (list Z) * X;
  fchmod_private : X -> list Z -> bool * X;
  fdopen : X -> list Z -> bool * X;
  write_and_close : X -> list Z -> list Z -> bool * X;
  rename : X -> list Z -> list Z -> bool * X;
  remove : X -> list Z -> X
}.

(** ** State *)

Record vw_benchmark_t := mk_benchmark {
  bm_active : bool;
  bm_finalized : bool;
  bm_started_us : Z;
  bm_ended_us : Z;
  bm_last_flush_us : Z;
  bm_report_path : list Z;
  bm_model_id : list Z;
  bm_backend : list Z;
  bm_audio_chunks_sent : Z;
  bm_audio_duration_us : Z;
  bm_worker_frames_received : Z;
  bm_captions_received : Z;
  bm_captions_sent : Z;
  bm_captions_filtered : Z;
  bm_captions_paused : Z;
  bm_captions_stale : Z;
  bm_captions_presenter_rejected : Z;
  bm_segment_audio_duration_us : Z;
  bm_segment_text_bytes : Z;
  bm_inference_us : Z;
  bm_dropped_audio_us : Z;
  bm_last_worker_inference_us : Z;
  bm_last_worker_dropped_audio_us : Z;
  bm_latency_samples_dropped : Z;
  bm_last_segment_id : Z;
  bm_last_segment_start_pts_us : Z;
  bm_last_segment_end_pts_us : Z;
  bm_first_caption_elapsed_us : Z;
  bm_live_pts_to_monotonic_us : Z;
  bm_latency_samples : list Z;
  bm_translation_requests_sent : Z;
  bm_translation_success_count : Z;
  bm_translation_tier1_count : Z;
  bm_translation_tier2_count : Z;
  bm_translation_tier3_count : Z;
  bm_translation_failure_count : Z;
  bm_translation_provider_failure_count : Z;
  bm_translation_transport_failure_count : Z;
  bm_translation_parse_failure_count : Z;
  bm_translation_timeout_count : Z;
  bm_translation_duration_us : Z;
  bm_translation_latency_samples : list Z;
  bm_first_caption_recorded : bool;
  bm_live_clock_valid : bool
}.
#[global] Instance settable_vw_benchmark_t : Settable vw_benchmark_t :=
  fun s => mk_benchmark (bm_active s) (bm_finalized s) (bm_started_us s) (bm_ended_us s)
  (bm_last_flush_us s) (bm_report_path s) (bm_model_id s) (bm_backend s) (bm_audio_chunks_sent s)
  (bm_audio_duration_us s) (bm_worker_frames_received s) (bm_captions_received s)
  (bm_captions_sent s) (bm_captions_filtered s) (bm_captions_paused s) (bm_captions_stale s)
  (bm_captions_presenter_rejected s) (bm_segment_audio_duration_us s) (bm_segment_text_bytes s)
  (bm_inference_us s) (bm_dropped_audio_us s) (bm_last_worker_inference_us s)
  (bm_last_worker_dropped_audio_us s) (bm_latency_samples_dropped s) (bm_last_segment_id s)
  (bm_last_segment_start_pts_us s) (bm_last_segment_end_pts_us s) (bm_first_caption_elapsed_us s)
  (bm_live_pts_to_monotonic_us s) (bm_latency_samples s) (bm_translation_requests_sent s)
  (bm_translation_success_count s) (bm_translation_tier1_count s) (bm_translation_tier2_count s)
  (bm_translation_tier3_count s) (bm_translation_failure_count s)
  (bm_translation_provider_failure_count s) (bm_translation_transport_failure_count s)
  (bm_translation_parse_failure_count s) (bm_translation_timeout_count s)
  (bm_translation_duration_us s) (bm_translation_latency_samples s) (bm_first_caption_recorded s)
  (bm_live_clock_valid s).
#[global] Instance set_bm_active : Setter bm_active := ltac:(setter).
#[global] Instance set_bm_finalized : Setter bm_finalized := ltac:(setter).
#[global] Instance set_bm_started_us : Setter bm_started_us := ltac:(setter).
#[global] Instance set_bm_ended_us : Setter bm_ended_us := ltac:(setter).
#[global] Instance set_bm_last_flush_us : Setter bm_last_flush_us := ltac:(setter).
#[global] Instance set_bm_report_path : Setter bm_report_path := ltac:(setter).
#[global] Instance set_bm_model_id : Setter bm_model_id := ltac:(setter).
#[global] Instance set_bm_backend : Setter bm_backend := ltac:(setter).
#[global] Instance set_bm_audio_chunks_sent : Setter bm_audio_chunks_sent := ltac:(setter).
#[global] Instance set_bm_audio_duration_us : Setter bm_audio_duration_us := ltac:(setter).
#[global] Instance set_bm_worker_frames_received : Setter bm_worker_frames_received := ltac:(setter).
#[global] Instance set_bm_captions_received : Setter bm_captions_received := ltac:(setter).
#[global] Instance set_bm_captions_sent : Setter bm_captions_sent := ltac:(setter).
#[global] Instance set_bm_captions_filtered : Setter bm_captions_filtered := ltac:(setter).
#[global] Instance set_bm_captions_paused : Setter bm_captions_paused := ltac:(setter).
#[global] Instance set_bm_captions_stale : Setter bm_captions_stale := ltac:(setter).
#[global] Instance set_bm_captions_presenter_rejected : Setter bm_captions_presenter_rejected := ltac:(setter).
#[global] Instance set_bm_segment_audio_duration_us : Setter bm_segment_audio_duration_us := ltac:(setter).
#[global] Instance set_bm_segment_text_bytes : Setter bm_segment_text_bytes := ltac:(setter).
#[global] Instance set_bm_inference_us : Setter bm_inference_us := ltac:(setter).
#[global] Instance set_bm_dropped_audio_us : Setter bm_dropped_audio_us := ltac:(setter).
#[global] Instance set_bm_last_worker_inference_us : Setter bm_last_worker_inference_us := ltac:(setter).
#[global] Instance set_bm_last_worker_dropped_audio_us : Setter bm_last_worker_dropped_audio_us := ltac:(setter).
#[global] Instance set_bm_latency_samples_dropped : Setter bm_latency_samples_dropped := ltac:(setter).
#[global] Instance set_bm_last_segment_id : Setter bm_last_segment_id := ltac:(setter).
#[global] Instance set_bm_last_segment_start_pts_us : Setter bm_last_segment_start_pts_us := ltac:(setter).
#[global] Instance set_bm_last_segment_end_pts_us : Setter bm_last_segment_end_pts_us := ltac:(setter).
#[global] Instance set_bm_first_caption_elapsed_us : Setter bm_first_caption_elapsed_us := ltac:(setter).
#[global] Instance set_bm_live_pts_to_monotonic_us : Setter bm_live_pts_to_monotonic_us := ltac:(setter).
#[global] Instance set_bm_latency_samples : Setter bm_latency_samples := ltac:(setter).
#[global] Instance set_bm_translation_requests_sent : Setter bm_translation_requests_sent := ltac:(setter).
#[global] Instance set_bm_translation_success_count : Setter bm_translation_success_count := ltac:(setter).
#[global] Instance set_bm_translation_tier1_count : Setter bm_translation_tier1_count := ltac:(setter).
#[global] Instance set_bm_translation_tier2_count : Setter bm_translation_tier2_count := ltac:(setter).
#[global] Instance set_bm_translation_tier3_count : Setter bm_translation_tier3_count := ltac:(setter).
#[global] Instance set_bm_translation_failure_count : Setter bm_translation_failure_count := ltac:(setter).
#[global] Instance set_bm_translation_provider_failure_count : Setter bm_translation_provider_failure_count := ltac:(setter).
#[global] Instance set_bm_translation_transport_failure_count : Setter bm_translation_transport_failure_count := ltac:(setter).
#[global] Instance set_bm_translation_parse_failure_count : Setter bm_translation_parse_failure_count := ltac:(setter).
#[global] Instance set_bm_translation_timeout_count : Setter bm_translation_timeout_count := ltac:(setter).
#[global] Instance set_bm_translation_duration_us : Setter bm_translation_duration_us := ltac:(setter).
#[global] Instance set_bm_translation_latency_samples : Setter bm_translation_latency_samples := ltac:(setter).
#[global] Instance set_bm_first_caption_recorded : Setter bm_first_caption_recorded := ltac:(setter).
#[global] Instance set_bm_live_clock_valid : Setter bm_live_clock_valid := ltac:(setter).
(** [memset(benchmark, 0, sizeof *benchmark)] *)
Definition benchmark_zero : vw_benchmark_t :=
  mk_benchmark false false 0 0 0 [] [] [] 0 0 0 0 0 0 0 0 0 0 0 0 0 0 0 0 0 0 0 0 0 [] 0 0 0 0 0 0
  0 0 0 0 0 [] false false.

(** ** Formatting *)

Definition VALUE_BYTES : Z := 64.

Definition vw_benchmark_i64_magnitude (value : Z) : Z := if 0 <=? value then value else u64 (- (value + 1)) + 1.
Definition sign (value : Z) : list Z := if value <? 0 then str "-" else [].

Definition vw_benchmark_format_ms (duration_us : Z) : option (list Z) :=
  let magnitude := vw_benchmark_i64_magnitude duration_us in
  sized VALUE_BYTES (sign duration_us ++ decimal (magnitude / 1000) ++ str "." ++ padded 3 (magnitude mod 1000)).
Definition rounded_ms (magnitude : Z) : Z :=
  let total_ms := magnitude / 1000 in if 500 <=? magnitude mod 1000 then total_ms + 1 else total_ms.
Definition vw_benchmark_format_s (duration_us : Z) : option (list Z) :=
  let total_ms := rounded_ms (vw_benchmark_i64_magnitude duration_us) in
  sized VALUE_BYTES (sign duration_us ++ decimal (total_ms / 1000) ++ str "." ++ padded 3 (total_ms mod 1000)).
Definition vw_benchmark_format_u64_ms (duration_us : Z) : option (list Z) :=
  sized VALUE_BYTES (decimal (duration_us / 1000) ++ str "." ++ padded 3 (duration_us mod 1000)).
Definition vw_benchmark_format_u64_s (duration_us : Z) : option (list Z) :=
  let total_ms := rounded_ms duration_us in
  sized VALUE_BYTES (decimal (total_ms / 1000) ++ str "." ++ padded 3 (total_ms mod 1000)).

(** [long double] is the 80-bit format of x86: a mantissa of 64 bits. *)
Definition long_double (n : Z) : spec_float := binary_normalize 64 16384 n 0 false.
Definition long_half : spec_float := S754_finite false (Z.to_pos (2 ^ 63)) (-64).
Definition vw_benchmark_format_ratio (numerator denominator : Z) : option (list Z) :=
  if denominator =? 0 then Some (str "0.000000")
  else
    let ratio := SFdiv 64 16384 (long_double numerator) (long_double denominator) in
    let whole := spec_trunc ratio in
    let fractional := spec_trunc (SFadd 64 16384 (SFmul 64 16384 (SFsub 64 16384 ratio (long_double whole))
                                                   (long_double 1000000)) long_half) in
    let '(whole, fractional) :=
      if (fractional =? 1000000) && (whole <? UINT64_MAX) then (whole + 1, 0) else (whole, fractional) in
    sized VALUE_BYTES (decimal whole ++ str "." ++ padded 6 fractional).

(** ** Percentiles *)

(** [qsort] leaves the samples in order. *)
Definition sorted_samples (samples : list Z) : list Z := merge_sort Z.le samples.
Definition sample_rank (percentile n : Z) : Z := (percentile * (n - 1) + 99) / 100.
Definition percentile_of (samples : list Z) (percentile : Z) : Z :=
  match samples with
  | [] => 0
  | _ => znth (sorted_samples samples) (sample_rank percentile (zlen samples))
  end.
Definition vw_benchmark_percentile (b : vw_benchmark_t) (percentile : Z) : Z :=
  percentile_of (bm_latency_samples b) percentile.
Definition vw_benchmark_trans_percentile (b : vw_benchmark_t) (percentile : Z) : Z :=
  percentile_of (bm_translation_latency_samples b) percentile.

(** ** The report *)

Definition line (key : list Z) (value : option (list Z)) : list Z :=
  match value with Some v => key ++ str "=" ++ v ++ [10] | None => [] end.
Definition counter (key : list Z) (n : Z) : list Z := line key (Some (decimal n)).
Definition or_unknown (name : list Z) : list Z := match name with [] => str "unknown" | _ => name end.

Definition processing_audio_us (b : vw_benchmark_t) : Z :=
  if bm_audio_duration_us b =? 0 then bm_segment_audio_duration_us b else bm_audio_duration_us b.
Definition report_session (b : vw_benchmark_t) (finalized : bool) (end_us : Z) : list Z :=
  line (str "report_version") (Some (str "2"))
  ++ line (str "state") (Some (if finalized then str "finalized" else str "active"))
  ++ line (str "model") (Some (or_unknown (bm_model_id b)))
  ++ line (str "backend") (Some (or_unknown (bm_backend b)))
  ++ line (str "session_duration_sec")
       (vw_benchmark_format_s (if bm_started_us b <? end_us then end_us - bm_started_us b else 0))
  ++ counter (str "audio_chunks_sent") (bm_audio_chunks_sent b)
  ++ line (str "audio_duration_sec") (vw_benchmark_format_u64_s (bm_audio_duration_us b))
  ++ counter (str "worker_frames_received") (bm_worker_frames_received b)
  ++ counter (str "captions_received") (bm_captions_received b)
  ++ counter (str "captions_sent") (bm_captions_sent b)
  ++ counter (str "captions_filtered") (bm_captions_filtered b)
  ++ counter (str "captions_paused") (bm_captions_paused b)
  ++ counter (str "captions_stale") (bm_captions_stale b)
  ++ counter (str "captions_presenter_rejected") (bm_captions_presenter_rejected b)
  ++ counter (str "segment_count") (bm_captions_received b).
Definition report_speed (b : vw_benchmark_t) : list Z :=
  line (str "segment_audio_duration_sec") (vw_benchmark_format_u64_s (bm_segment_audio_duration_us b))
  ++ counter (str "segment_text_bytes") (bm_segment_text_bytes b)
  ++ line (str "segment_transcription_duration_sec") (vw_benchmark_format_u64_s (bm_inference_us b))
  ++ line (str "inference_processing_duration_sec") (vw_benchmark_format_u64_s (bm_inference_us b))
  ++ line (str "processing_audio_duration_sec") (vw_benchmark_format_u64_s (processing_audio_us b))
  ++ line (str "real_time_factor") (vw_benchmark_format_ratio (bm_inference_us b) (processing_audio_us b))
  ++ line (str "processing_speed_ratio") (vw_benchmark_format_ratio (processing_audio_us b) (bm_inference_us b))
  ++ line (str "first_sent_caption_elapsed_ms")
       (vw_benchmark_format_ms (if bm_first_caption_recorded b then bm_first_caption_elapsed_us b else 0))
  ++ counter (str "utterance_latency_samples") (zlen (bm_latency_samples b))
  ++ counter (str "utterance_latency_samples_dropped") (bm_latency_samples_dropped b)
  ++ line (str "utterance_latency_min_ms") (vw_benchmark_format_ms (vw_benchmark_percentile b 0))
  ++ line (str "utterance_latency_p50_ms") (vw_benchmark_format_ms (vw_benchmark_percentile b 50))
  ++ line (str "utterance_latency_p95_ms") (vw_benchmark_format_ms (vw_benchmark_percentile b 95))
  ++ line (str "utterance_latency_max_ms") (vw_benchmark_format_ms (vw_benchmark_percentile b 100))
  ++ line (str "queue_audio_dropped_ms") (vw_benchmark_format_u64_ms (bm_dropped_audio_us b)).
Definition report_translation (b : vw_benchmark_t) : list Z :=
  counter (str "translation_requests_sent") (bm_translation_requests_sent b)
  ++ counter (str "translation_success_count") (bm_translation_success_count b)
  ++ counter (str "translation_tier1_count") (bm_translation_tier1_count b)
  ++ counter (str "translation_tier2_count") (bm_translation_tier2_count b)
  ++ counter (str "translation_tier3_count") (bm_translation_tier3_count b)
  ++ counter (str "translation_failure_count") (bm_translation_failure_count b)
  ++ counter (str "translation_provider_failure_count") (bm_translation_provider_failure_count b)
  ++ counter (str "translation_transport_failure_count") (bm_translation_transport_failure_count b)
  ++ counter (str "translation_parse_failure_count") (bm_translation_parse_failure_count b)
  ++ counter (str "translation_timeout_count") (bm_translation_timeout_count b)
  ++ line (str "translation_duration_sec") (vw_benchmark_format_u64_s (bm_translation_duration_us b))
  ++ counter (str "translation_latency_samples") (zlen (bm_translation_latency_samples b))
  ++ line (str "translation_latency_min_ms") (vw_benchmark_format_ms (vw_benchmark_trans_percentile b 0))
  ++ line (str "translation_latency_p50_ms") (vw_benchmark_format_ms (vw_benchmark_trans_percentile b 50))
  ++ line (str "translation_latency_p95_ms") (vw_benchmark_format_ms (vw_benchmark_trans_percentile b 95))
  ++ line (str "translation_latency_max_ms") (vw_benchmark_format_ms (vw_benchmark_trans_percentile b 100))
  ++ line (str "latency_clock") (Some (str "live_pts_to_monotonic_only"))
  ++ line (str "post_filtering_included_in_speed") (Some (str "false")).
Definition report_text (b : vw_benchmark_t) (finalized : bool) (end_us : Z) : list Z :=
  report_session b finalized end_us ++ report_speed b ++ report_translation b.

(** ** Where it is written *)

Section report_file.
Context {X : Type} `{!OsEnv X}.
#[local] Abbreviation O := (M X).

Definition os {A} (f : X -> A * X) : O A := f.

Definition vw_benchmark_directory_is_usable (path : option (list Z)) : O bool :=
  match path with
  | Some ((_ :: _) as path) =>
      info ← os (fun x => stat x path);
      match info with
      | Some info => if fi_directory info then os (fun x => access_wx x path) else mret false
      | None => mret false
      end
  | _ => mret false
  end.
(** [mode & (S_IRWXG | S_IRWXO)]: any of the bits 077. *)
Definition shared_mode (mode : Z) : bool := negb (Z.land mode 63 =? 0).
Definition vw_benchmark_directory_is_private_runtime (path : option (list Z)) : O bool :=
  usable ← vw_benchmark_directory_is_usable path;
  if negb usable then mret false
  else
    info ← os (fun x => stat x (default [] path));
    match info with
    | None => mret false
    | Some info => uid ← os getuid; mret ((fi_uid info =? uid) && negb (shared_mode (fi_mode info)))
    end.

Definition vw_benchmark_resolve_private_fallback (base_dir : list Z) : O (option (list Z)) :=
  uid ← os getuid;
  match sized VW_PATH_MAX_BYTES (base_dir ++ str "/vlc-whisper-" ++ decimal uid) with
  | None => mret None
  | Some path =>
      made ← os (fun x => mkdir_private x path);
      match made with
      | MkdirMade => mret (Some path)
      | MkdirFailed => mret None
      | MkdirExists =>
          info ← os (fun x => lstat x path);
          match info with
          | None => mret None
          | Some info =>
              if negb (fi_directory info) then mret None
              else
                uid ← os getuid;
                if negb (fi_uid info =? uid) then mret None
                else
                  private ← (if shared_mode (fi_mode info) then os (fun x => chmod_private x path) else mret true);
                  if negb private then mret None
                  else usable ← os (fun x => access_wx x path); mret (if usable : bool then Some path else None)
          end
      end
  end.

Definition vw_benchmark_resolve_report_path : O (option (list Z)) :=
  runtime_dir ← os (fun x => getenv x (str "XDG_RUNTIME_DIR"));
  private ← vw_benchmark_directory_is_private_runtime runtime_dir;
  dir ← (if private : bool then mret runtime_dir
         else
           tmpdir ← os (fun x => getenv x (str "TMPDIR"));
           usable ← vw_benchmark_directory_is_usable tmpdir;
           let base_dir := if (usable : bool) then default [] tmpdir else str "/tmp" in
           fallback_dir ← vw_benchmark_resolve_private_fallback base_dir;
           match fallback_dir with
           | Some dir => mret (Some dir)
           | None =>
               if bool_decide (base_dir = str "/tmp") then mret None
               else vw_benchmark_resolve_private_fallback (str "/tmp")
           end);
  mret (match dir with
        | Some dir => sized VW_PATH_MAX_BYTES (dir ++ str "/" ++ VW_BENCHMARK_REPORT_FILENAME)
        | None => None
        end).

(** The staging file, private before a byte is written. *)
Definition vw_benchmark_open_staging_report (report_path : list Z) : O (option (list Z)) :=
  match sized VW_PATH_MAX_BYTES (report_path ++ str ".XXXXXX") with
  | None => mret None
  | Some template =>
      file ← os (fun x => mkstemp x template);
      match file with
      | None => mret None
      | Some staging_path =>
          private ← os (fun x => fchmod_private x staging_path);
          opened ← (if private : bool then os (fun x => fdopen x staging_path) else mret false);
          if opened : bool then mret (Some staging_path)
          else os (fun x => (tt, remove x staging_path)) ;; mret None
      end
  end.

(** The report is published by renaming a file that is complete. *)
Definition vw_benchmark_write (b : vw_benchmark_t) (finalized : bool) (end_us : Z) : O bool :=
  if negb (bm_active b) || (zlen (bm_report_path b) =? 0) then mret false
  else
    staging ← vw_benchmark_open_staging_report (bm_report_path b);
    match staging with
    | None => mret false
    | Some staging_path =>
        written ← os (fun x => write_and_close x staging_path (report_text b finalized end_us));
        success ← (if written : bool then os (fun x => rename x staging_path (bm_report_path b)) else mret false);
        when (negb success) (os (fun x => (tt, remove x staging_path))) ;;
        mret success
    end.

Definition vw_benchmark_begin (model_id backend : list Z) (now_us : Z) (b : vw_benchmark_t) : O (bool * vw_benchmark_t) :=
  if now_us <? 0 then mret (false, b)
  else
    path ← vw_benchmark_resolve_report_path;
    match path with
    | None => mret (false, benchmark_zero)
    | Some path =>
        let b := benchmark_zero <| bm_report_path := path |> <| bm_active := true |> <| bm_started_us := now_us |>
                   <| bm_model_id := ztake (VW_MAX_MODEL_ID_BYTES - 1) model_id |> <| bm_backend := ztake 15 backend |> in
        written ← vw_benchmark_write b false now_us;
        if written : bool then mret (true, b <| bm_last_flush_us := now_us |>) else mret (false, benchmark_zero)
    end.

Definition vw_benchmark_finalize (now_us : Z) (b : vw_benchmark_t) : O vw_benchmark_t :=
  if negb (bm_active b) || bm_finalized b then mret b
  else
    let b := b <| bm_ended_us := now_us |> in
    written ← vw_benchmark_write b true now_us;
    mret (if written : bool then b <| bm_finalized := true |> else b).

Definition vw_benchmark_flush_if_due (now_us : Z) (b : vw_benchmark_t) : O vw_benchmark_t :=
  if negb (bm_active b) || bm_finalized b then mret b
  else if now_us - bm_last_flush_us b <? 1000000 then mret b
  else
    written ← vw_benchmark_write b false now_us;
    mret (if written : bool then b <| bm_last_flush_us := now_us |> else b).
End report_file.

(** ** Recording *)

(** [counter++] and [counter += n] of [uint64_t]. *)
Definition bump (proj : vw_benchmark_t -> Z) `{!Setter proj} (n : Z) (b : vw_benchmark_t) : vw_benchmark_t :=
  b <| proj := u64 (proj b + n) |>.

Definition vw_benchmark_record_audio (start_pts_us duration_us now_us : Z) (b : vw_benchmark_t) : vw_benchmark_t :=
  if negb (bm_active b) || (duration_us <=? 0) then b
  else
    let b := bump bm_audio_duration_us duration_us (bump bm_audio_chunks_sent 1 b) in
    if bm_live_clock_valid b then b
    else b <| bm_live_pts_to_monotonic_us := now_us - start_pts_us |> <| bm_live_clock_valid := true |>.

Definition vw_benchmark_record_frame (b : vw_benchmark_t) : vw_benchmark_t :=
  if bm_active b then bump bm_worker_frames_received 1 b else b.

Definition vw_benchmark_reset_live_clock (b : vw_benchmark_t) : vw_benchmark_t := b <| bm_live_clock_valid := false |>.

(** A latency sample, or a count of the samples that found no room. *)
Definition record_latency (now_us : Z) (seg : vw_caption_segment_t) (source_mode : bool) (b : vw_benchmark_t) : vw_benchmark_t :=
  if negb source_mode && bm_live_clock_valid b then
    if zlen (bm_latency_samples b) <? VW_BENCHMARK_MAX_LATENCY_SAMPLES then
      b <| bm_latency_samples := bm_latency_samples b
              ++ [now_us - (seg_end_pts_us seg + bm_live_pts_to_monotonic_us b)] |>
    else bump bm_latency_samples_dropped 1 b
  else b.
Definition vw_benchmark_record_caption_received (seg : vw_caption_segment_t) (now_us : Z) (source_mode : bool)
    (b : vw_benchmark_t) : vw_benchmark_t :=
  let b := b <| bm_last_segment_id := seg_segment_id seg |> <| bm_last_segment_start_pts_us := seg_start_pts_us seg |>
             <| bm_last_segment_end_pts_us := seg_end_pts_us seg |> in
  if negb (bm_active b) then b
  else
    let b := bump bm_captions_received 1 b in
    let b := if seg_start_pts_us seg <? seg_end_pts_us seg
             then bump bm_segment_audio_duration_us (seg_end_pts_us seg - seg_start_pts_us seg) b else b in
    record_latency now_us seg source_mode (bump bm_segment_text_bytes (seg_text_bytes seg) b).

Definition vw_benchmark_record_caption_filtered (paused stale presenter_rejected : bool) (b : vw_benchmark_t) : vw_benchmark_t :=
  if negb (bm_active b) then b
  else
    let b := bump bm_captions_filtered 1 b in
    let b := if paused then bump bm_captions_paused 1 b else b in
    let b := if stale then bump bm_captions_stale 1 b else b in
    if presenter_rejected then bump bm_captions_presenter_rejected 1 b else b.

Definition vw_benchmark_record_translation (tier latency_us : Z) (success : bool) (b : vw_benchmark_t) : vw_benchmark_t :=
  if negb (bm_active b) then b
  else
    let b := bump bm_translation_duration_us latency_us (bump bm_translation_requests_sent 1 b) in
    let b := if (0 <? latency_us) && (zlen (bm_translation_latency_samples b) <? VW_BENCHMARK_MAX_LATENCY_SAMPLES)
             then b <| bm_translation_latency_samples := bm_translation_latency_samples b ++ [latency_us] |> else b in
    if success then
      let b := bump bm_translation_success_count 1 b in
      if tier =? 1 then bump bm_translation_tier1_count 1 b
      else if tier =? 2 then bump bm_translation_tier2_count 1 b
      else if tier =? 3 then bump bm_translation_tier3_count 1 b
      else b
    else bump bm_translation_failure_count 1 b.

Definition vw_benchmark_record_translation_failure (error_code : Z) (b : vw_benchmark_t) : vw_benchmark_t :=
  if negb (bm_active b) then b
  else if error_code =? E_TRANSLATION_PROVIDER then bump bm_translation_provider_failure_count 1 b
  else if error_code =? E_TRANSLATION_TRANSPORT then bump bm_translation_transport_failure_count 1 b
  else if error_code =? E_TRANSLATION_PARSE then bump bm_translation_parse_failure_count 1 b
  else if error_code =? E_TRANSLATION_DEADLINE then bump bm_translation_timeout_count 1 b
  else b.

Definition vw_benchmark_record_caption_sent (now_us : Z) (b : vw_benchmark_t) : vw_benchmark_t :=
  if negb (bm_active b) then b
  else
    let b := bump bm_captions_sent 1 b in
    if bm_first_caption_recorded b then b
    else b <| bm_first_caption_recorded := true |> <| bm_first_caption_elapsed_us := now_us - bm_started_us b |>.

(** What a cumulative counter of the worker adds: all of it, when it went back. *)
Definition counter_increment (last current : Z) : Z := if last <=? current then current - last else current.
Definition record_inference (current : Z) (b : vw_benchmark_t) : vw_benchmark_t :=
  if current <? 0 then b
  else (bump bm_inference_us (counter_increment (bm_last_worker_inference_us b) current) b)
         <| bm_last_worker_inference_us := current |>.
Definition record_dropped_audio (current : Z) (b : vw_benchmark_t) : vw_benchmark_t :=
  if current <? 0 then b
  else (bump bm_dropped_audio_us (counter_increment (bm_last_worker_dropped_audio_us b) current) b)
         <| bm_last_worker_dropped_audio_us := current |>.
Definition vw_benchmark_update_status (status : vw_msg_status_t) (b : vw_benchmark_t) : vw_benchmark_t :=
  if negb (bm_active b) then b
  else
    let b := record_dropped_audio (status_dropped_audio_us status) (record_inference (status_inference_us status) b) in
    if strlen (status_resolved_backend status) =? 0 then b
    else b <| bm_backend := ztake 15 (cstr (status_resolved_backend status)) |>.

(** ** Lemmas *)

Lemma sorted_samples_permutation samples : sorted_samples samples ≡ₚ samples.
Proof. apply merge_sort_Permutation. Qed.
Lemma sorted_samples_sorted samples : StronglySorted Z.le (sorted_samples samples).
Proof. apply StronglySorted_merge_sort; [intros ????; lia|intros x y; lia]. Qed.
Lemma sample_rank_bounds percentile n :
  0 <= percentile <= 100 -> 0 < n ->
  0 <= sample_rank percentile n < n
  /\ 100 * (sample_rank percentile n - 1) < percentile * (n - 1) <= 100 * sample_rank percentile n.
Proof.
  intros Hp Hn. unfold sample_rank. pose proof (Z.div_mod (percentile * (n - 1) + 99) 100 ltac:(lia)).
  pose proof (Z.mod_pos_bound (percentile * (n - 1) + 99) 100 ltac:(lia)). nia.
Qed.

(** The digits of [n], padded or not, are those of [n]. *)
Lemma digits_val_acc ds a : fold_left (fun a c => a * 10 + (c - 48)) ds a = a * 10 ^ zlen ds + digits_val ds.
Proof.
  unfold digits_val. revert a. induction ds as [|d ds IH]; intros a; [rewrite zlen_nil; simpl; lia|].
  cbn [fold_left]. rewrite IH, (IH (0 * 10 + (d - 48))), zlen_cons, Z.pow_add_r by (pose proof (zlen_nonneg ds); lia). lia.
Qed.
Lemma digits_val_app ds es : digits_val (ds ++ es) = digits_val ds * 10 ^ zlen es + digits_val es.
Proof. unfold digits_val at 1. rewrite fold_left_app. apply digits_val_acc. Qed.
Lemma digits_val_zeros n : digits_val (replicate n 48) = 0.
Proof. induction n as [|n IH]; [done|]. cbn [replicate]. unfold digits_val. cbn [fold_left]. by rewrite digits_val_acc, IH. Qed.
Lemma padded_val width n : 0 <= n < 10 ^ 20 -> digits_val (padded width n) = n.
Proof.
  intros Hn. unfold padded. rewrite digits_val_app. unfold zreplicate. rewrite digits_val_zeros.
  by destruct (decimal_spec n) as (_ & _ & ->).
Qed.
Lemma magnitude_spec value : is_signed 64 value -> vw_benchmark_i64_magnitude value = Z.abs value.
Proof.
  unfold is_signed. intros Hv. unfold vw_benchmark_i64_magnitude. case_goal; bool_to_prop; [lia|].
  rewrite u64_id; [lia|]. unfold is_unsigned. lia.
Qed.

(** *** Cumulative counters *)

(** A worker's readings never go back; a new worker's first reading does. *)
Definition last_reading (life : list Z) : Z := List.last life 0.
Definition nondecreasing (life : list Z) : Prop := Sorted Z.le (0 :: life).
Fixpoint lives (last : Z) (ls : list (list Z)) : Prop :=
  match ls with
  | [] => True
  | life :: ls => nondecreasing life /\ life <> [] /\ (hd 0 life < last \/ last = 0) /\ lives (last_reading life) ls
  end.
Definition life_total (ls : list (list Z)) : Z := fold_right (fun life n => last_reading life + n) 0 ls.

(** What the readings add, from the last one. *)
Fixpoint added (last : Z) (readings : list Z) : Z :=
  match readings with
  | [] => 0
  | r :: readings => counter_increment last r + added r readings
  end.
Lemma added_app last rs ss : added last (rs ++ ss) = added last rs + added (List.last rs last) ss.
Proof.
  revert last. induction rs as [|r rs IH]; intros last; [done|]. cbn [added app]. rewrite IH. destruct rs; cbn [List.last]; [lia|].
  rewrite Z.add_assoc. do 2 f_equal. clear. revert z. induction rs as [|s rs IH]; intros z; [done|]. apply IH.
Qed.
Lemma added_life last rs : Sorted Z.le (last :: rs) -> added last rs = List.last rs last - last.
Proof.
  revert last. induction rs as [|r rs IH]; intros last H; [simpl; lia|].
  apply Sorted_inv in H as [H Hd]. apply HdRel_inv in Hd. cbn [added]. rewrite (IH r H). unfold counter_increment.
  replace (last <=? r) with true by lia. destruct rs as [|s rs]; [simpl; lia|].
  cbn [List.last]. enough (List.last (s :: rs) r = List.last (s :: rs) last) as E by (cbn [List.last] in E; rewrite E; lia).
  clear. revert s. induction rs as [|s' rs IH]; intros s; [done|]. apply IH.
Qed.
Lemma last_nonempty (rs : list Z) d e : rs <> [] -> List.last rs d = List.last rs e.
Proof. induction rs as [|r rs IH]; [done|]. intros _. destruct rs as [|s rs]; [done|]. by apply IH. Qed.
Lemma added_lives last ls : 0 <= last -> lives last ls -> added last (concat ls) = life_total ls.
Proof.
  revert last. induction ls as [|life ls IH]; intros last Hl H; [done|]. destruct H as (Hs & Hne & Hr & H).
  change (concat (life :: ls)) with (life ++ concat ls). change (life_total (life :: ls)) with (last_reading life + life_total ls).
  rewrite added_app, (last_nonempty life last 0) by done. fold (last_reading life).
  destruct life as [|r rs]; [done|]. unfold nondecreasing in Hs. apply Sorted_inv in Hs as [Hs Hd]. apply HdRel_inv in Hd.
  pose proof (added_life r rs Hs) as Ha. cbn [added hd] in *.
  assert (List.last rs r = last_reading (r :: rs)) as E.
  { destruct rs as [|s rs]; [done|]. change (List.last (s :: rs) r = List.last (s :: rs) 0). by apply last_nonempty. }
  assert (r <= last_reading (r :: rs)).
  { rewrite <- E. clear - Hs. revert r Hs. induction rs as [|s rs IH]; intros r Hs; [simpl; lia|].
    apply Sorted_inv in Hs as [Hs Hd]. apply HdRel_inv in Hd. specialize (IH s Hs).
    destruct rs as [|s' rs]; [done|]. rewrite (last_nonempty (s' :: rs) s r) in IH by done. change (r <= List.last (s' :: rs) r). lia. }
  rewrite IH by (done || lia). rewrite Ha, E. unfold counter_increment. case_goal; bool_to_prop; lia.
Qed.
Lemma lives_nonneg last ls : lives last ls -> Forall (fun r => 0 <= r) (concat ls).
Proof.
  revert last. induction ls as [|life ls IH]; intros last H; [constructor|]. destruct H as (Hs & _ & _ & H).
  apply Forall_app. split; [|by eapply IH]. unfold nondecreasing in Hs. apply Sorted_StronglySorted in Hs; [|intros ????; lia].
  by apply StronglySorted_cons in Hs as [Hs _].
Qed.

Lemma record_inference_run r b :
  0 <= r ->
  bm_inference_us (record_inference r b) = u64 (bm_inference_us b + counter_increment (bm_last_worker_inference_us b) r)
  /\ bm_last_worker_inference_us (record_inference r b) = r.
Proof. intros Hr. unfold record_inference. by replace (r <? 0) with false by lia. Qed.
Lemma update_status_run status b :
  bm_active b = true -> 0 <= status_inference_us status ->
  bm_active (vw_benchmark_update_status status b) = true
  /\ bm_inference_us (vw_benchmark_update_status status b)
     = u64 (bm_inference_us b + counter_increment (bm_last_worker_inference_us b) (status_inference_us status))
  /\ bm_last_worker_inference_us (vw_benchmark_update_status status b) = status_inference_us status.
Proof.
  intros Ha Hr. unfold vw_benchmark_update_status. rewrite Ha. cbn [negb]. destruct (record_inference_run _ b Hr) as [E1 E2].
  assert (bm_active (record_inference (status_inference_us status) b) = true) as E3
    by (unfold record_inference, bump; by case_goal).
  destruct (record_inference _ b); simpl in *. subst. unfold record_dropped_audio. repeat case_goal; done.
Qed.
Definition update_all (statuses : list vw_msg_status_t) (b : vw_benchmark_t) : vw_benchmark_t :=
  fold_left (fun b status => vw_benchmark_update_status status b) statuses b.
Lemma update_all_run statuses b :
  bm_active b = true -> Forall (fun status => 0 <= status_inference_us status) statuses -> is_unsigned 64 (bm_inference_us b) ->
  bm_inference_us (update_all statuses b)
  = u64 (bm_inference_us b + added (bm_last_worker_inference_us b) (map status_inference_us statuses)).
Proof.
  revert b. induction statuses as [|s statuses IH]; intros b Ha Hr Hu; [simpl; rewrite u64_id; lia || (unfold is_unsigned in *; lia)|].
  apply Forall_cons_iff in Hr as [Hr Hrs]. destruct (update_status_run s b Ha Hr) as (E1 & E2 & E3).
  cbn [update_all fold_left map added]. fold (update_all statuses (vw_benchmark_update_status s b)).
  rewrite IH, E2, E3; [|done..|rewrite E2; by apply mod_unsigned]. unfold u64. rewrite Zplus_mod_idemp_l. f_equal. lia.
Qed.

(** ** Properties *)

(** A percentile of the report is an order statistic: the recorded samples are, in
    some order, as many as the percentile's rank not above it, itself, and the rest
    not below it; the rank is the percentile of the last position rounded up. *)
Theorem benchmark_percentile_rank samples percentile :
  samples <> [] -> 0 <= percentile <= 100 ->
  let v := percentile_of samples percentile in
  exists below above,
    samples ≡ₚ below ++ v :: above
    /\ zlen below = sample_rank percentile (zlen samples)
    /\ 100 * (zlen below - 1) < percentile * (zlen samples - 1) <= 100 * zlen below
    /\ Forall (fun s => s <= v) below /\ Forall (fun s => v <= s) above.
Proof.
  intros Hne Hp v. assert (0 < zlen samples) as Hn by (destruct samples; [done|]; rewrite zlen_cons; pose proof (zlen_nonneg samples); lia).
  destruct (sample_rank_bounds percentile (zlen samples) Hp Hn) as [Hr Hc].
  assert (zlen (sorted_samples samples) = zlen samples) as El by (unfold zlen; by rewrite sorted_samples_permutation).
  set (r := Z.to_nat (sample_rank percentile (zlen samples))).
  assert (sorted_samples samples !! r = Some v) as Ev.
  { subst v. unfold percentile_of. destruct samples; [done|]. unfold znth. fold r.
    assert (r < length (sorted_samples (z :: samples)))%nat as Hlt by (unfold zlen in *; subst r; lia).
    destruct (lookup_lt_is_Some_2 _ _ Hlt) as [x Ex]. by rewrite Ex, (nth_lookup_Some _ _ _ _ Ex). }
  pose proof (sorted_samples_sorted samples) as Hs. rewrite <- (take_drop_middle _ _ _ Ev) in Hs.
  exists (take r (sorted_samples samples)), (drop (S r) (sorted_samples samples)).
  assert (zlen (take r (sorted_samples samples)) = sample_rank percentile (zlen samples)) as Eb.
  { unfold zlen in *. rewrite length_take. subst r. lia. }
  apply StronglySorted_app in Hs as (Hb & _ & Ha). apply StronglySorted_cons in Ha as [Ha _].
  rewrite take_drop_middle by done. rewrite Eb. split_and!; try lia; try done; [symmetry; apply sorted_samples_permutation|].
  apply Forall_forall. intros s Hin. apply Hb; [by apply list_elem_of_In|by left].
Qed.

(** The middle and the top of five samples. *)
Lemma benchmark_percentile_rank_witness :
  percentile_of [70; 10; 50; 30; 90] 50 = 50
  /\ exists below above, [70; 10; 50; 30; 90] ≡ₚ below ++ 90 :: above /\ zlen below = 4.
Proof.
  split; [by vm_compute|].
  destruct (benchmark_percentile_rank [70; 10; 50; 30; 90] 100) as (below & above & Hp & Hl & _); [done|lia|].
  exists below, above. split; [exact Hp|rewrite Hl; reflexivity].
Defined.

(** Whatever workers a session goes through, the inference time reported is the
    sum of what each of them reached: a worker's counter only grows, and one that
    starts below where its predecessor ended is recognised as new. *)
Theorem benchmark_worker_totals (statuses : list vw_msg_status_t) ls b :
  bm_active b = true -> bm_inference_us b = 0 -> bm_last_worker_inference_us b = 0 ->
  map status_inference_us statuses = concat ls -> lives 0 ls ->
  bm_inference_us (update_all statuses b) = u64 (life_total ls).
Proof.
  intros Ha H0 Hl Es Hls.
  assert (Forall (fun status => 0 <= status_inference_us status) statuses) as Hr.
  { apply (Forall_map status_inference_us (fun r => 0 <= r)). rewrite Es. by apply (lives_nonneg 0). }
  rewrite update_all_run by (done || (rewrite H0; unfold is_unsigned; lia)).
  by rewrite H0, Hl, Es, added_lives.
Qed.

(** Two workers: 150 µs and, after a crash, 90. *)
Lemma benchmark_worker_totals_witness :
  let status n := mk_status [] 0 0 n 0 [] in
  bm_inference_us (update_all (map status [100; 150; 40; 90]) (benchmark_zero <| bm_active := true |>)) = u64 240.
Proof.
  intros status.
  apply (benchmark_worker_totals (map status [100; 150; 40; 90]) [[100; 150]; [40; 90]]); try reflexivity.
  cbn. unfold nondecreasing, last_reading. cbn. split_and!; try done; try lia; repeat constructor; lia.
Defined.

(** A duration is printed to the microsecond: the text is the sign, the whole
    milliseconds, a point and exactly three digits, and its digits are the duration. *)
Theorem benchmark_format_exact duration_us :
  is_signed 64 duration_us ->
  exists whole fraction,
    vw_benchmark_format_ms duration_us = Some (sign duration_us ++ whole ++ str "." ++ fraction)
    /\ whole <> [] /\ zlen fraction = 3 /\ digits_val (whole ++ fraction) = Z.abs duration_us.
Proof.
  intros Hd. unfold vw_benchmark_format_ms. rewrite magnitude_spec by done. unfold is_signed in Hd.
  pose proof (Z.mod_pos_bound (Z.abs duration_us) 1000 ltac:(lia)) as Hm.
  pose proof (Z.div_mod (Z.abs duration_us) 1000 ltac:(lia)) as Hdm.
  assert (0 <= Z.abs duration_us / 1000 < 10 ^ 20) as Hw by (split; [apply Z.div_pos|apply Z.div_lt_upper_bound]; lia).
  exists (decimal (Z.abs duration_us / 1000)), (padded 3 (Z.abs duration_us mod 1000)).
  destruct (decimal_spec _ Hw) as (Hne & _ & Hv). split_and!; [|done|by apply zlen_padded|].
  - unfold sized. rewrite !zlen_app, zlen_padded by done. pose proof (decimal_length _ (proj1 Hw)).
    assert (zlen (sign duration_us) <= 1) by (unfold sign; case_goal; vm_compute; discriminate).
    change (zlen (str ".")) with 1. unfold VALUE_BYTES. by replace (_ <? 64) with true by lia.
  - rewrite digits_val_app, Hv, zlen_padded, padded_val by lia. lia.
Qed.

Lemma benchmark_format_exact_witness :
  vw_benchmark_format_ms (-1234567) = Some (str "-1234.567")
  /\ exists whole fraction, vw_benchmark_format_ms (-1234567) = Some (sign (-1234567) ++ whole ++ str "." ++ fraction).
Proof.
  split; [by vm_compute|]. destruct (benchmark_format_exact (-1234567)) as (w & f & E & _); [unfold is_signed; lia|].
  exists w, f. exact E.
Defined.
