(* ===== verification/PluginPaths.v ===== *)
(** * Finding the worker and its models

    [src/plugin/src/vw_whisper_module.c], lines 107 to 482, as built for Linux: the
    model directory and catalog of the plugin, the search for executables and models
    next to the plugin and the player, and the launch that falls back to the CPU
    worker. What the dynamic linker and [/proc] say is [ModuleEnv]. *)

From stdpp Require Import relations.
From S2P Require Import Prelude.
From S2P Require Import CString.
From S2P Require Import ProtocolTypes.
From S2P Require Import ModelDownload.
From S2P Require Import State.
From S2P Require Import WorkerClient.
From S2P Require Import Benchmark.
#[local] Open Scope Z_scope.

Class ModuleEnv (X : Type) := {
  dladdr_path : X -> option (list Z) * X;
  self_exe : X -> option (list Z) * X
}.

(** ** The catalog *)

Definition kMap : list (list Z * list Z) :=
  [(str "tiny.en", str "ggml-tiny.en.bin"); (str "tiny", str "ggml-tiny.bin"); (str "base.en", str "ggml-base.en.bin");
   (str "base", str "ggml-base.bin"); (str "small", str "ggml-small.bin"); (str "medium", str "ggml-medium.bin");
   (str "large", str "ggml-large-v3.bin")].

Definition vw_plugin_catalog_filename (id : list Z) : option (list Z) :=
  option_map snd (List.find (fun e => bool_decide (fst e = id)) kMap).

(** The last separator, and what follows it. *)
Fixpoint last_sep (path : list Z) : option Z :=
  match path with
  | [] => None
  | c :: path =>
      match last_sep path with
      | Some i => Some (i + 1)
      | None => if is_sep c then Some 0 else None
      end
  end.
Definition basename (path : list Z) : list Z :=
  match last_sep path with Some i => zdrop (i + 1) path | None => path end.

Definition vw_plugin_catalog_id_from_path (path : list Z) : list Z :=
  match path with
  | [] => str "tiny"
  | _ => match List.find (fun e => bool_decide (snd e = basename path)) kMap with Some e => fst e | None => str "tiny" end
  end.

(** ** Probing *)

(** The length of the directory [up] levels above a file, 0 when there is none. *)
Fixpoint ancestor_len (file_path : list Z) (dir_len : Z) (up : nat) : Z :=
  match up with
  | O => dir_len
  | S up => default 0 (last_sep (ztake (ancestor_len file_path dir_len up) file_path))
  end.
Definition candidate (file_path : list Z) (try_len : Z) (name : list Z) : list Z := ztake try_len file_path ++ 47 :: name.

Section paths.
Context {X : Type} `{!OsEnv X} `{!ModuleEnv X} `{!ClientEnv X}.
#[local] Abbreviation O := (M X).

Definition vw_plugin_get_model_dir (out_size : Z) : O (list Z) :=
  xdg ← os (fun x => getenv x (str "XDG_DATA_HOME"));
  match xdg with
  | Some ((_ :: _) as xdg) => mret (ztake (out_size - 1) (ztake 4095 (xdg ++ str "/vlc-whisper/models")))
  | _ =>
      home ← os (fun x => getenv x (str "HOME"));
      mret (ztake (out_size - 1)
              (match home with
               | Some ((_ :: _) as home) => ztake 4095 (home ++ str "/.local/share/vlc-whisper/models")
               | _ => str "/tmp/vlc-whisper/models"
               end))
  end.

Definition vw_plugin_path_exists (path : list Z) : O bool := os (fun x => access_exists x path).

Fixpoint probe_names (file_path : list Z) (try_len : Z) (names : list (list Z)) (out_size : Z) : O (option (list Z)) :=
  match names with
  | [] => mret None
  | name :: names =>
      if out_size <? try_len + 1 + zlen name + 1 then probe_names file_path try_len names out_size
      else
        exists_ ← vw_plugin_path_exists (candidate file_path try_len name);
        if exists_ : bool then mret (Some (candidate file_path try_len name))
        else probe_names file_path try_len names out_size
  end.
Fixpoint probe_levels (file_path : list Z) (dir_len : Z) (ups : list nat) (names : list (list Z)) (out_size : Z)
  : O (option (list Z)) :=
  match ups with
  | [] => mret None
  | up :: ups =>
      let try_len := ancestor_len file_path dir_len up in
      if try_len =? 0 then probe_levels file_path dir_len ups names out_size
      else
        found ← probe_names file_path try_len names out_size;
        match found with
        | Some path => mret (Some path)
        | None => probe_levels file_path dir_len ups names out_size
        end
  end.
Definition vw_plugin_probe_ancestors (file_path : list Z) (max_up : nat) (names : list (list Z)) (out_size : Z)
  : O (option (list Z)) :=
  match last_sep file_path with
  | None | Some 0 => mret None
  | Some dir_len => probe_levels file_path dir_len (seq 0 (S max_up)) names out_size
  end.

Definition probe_from (file : option (list Z)) (max_up : nat) (names : list (list Z)) (out_size : Z) : O (option (list Z)) :=
  match file with
  | Some ((_ :: _) as path) => vw_plugin_probe_ancestors path max_up names out_size
  | _ => mret None
  end.
(** Next to the plugin and above, then next to the player. *)
Definition resolve_names (names : list (list Z)) (out_size : Z) : O (option (list Z)) :=
  plugin ← os dladdr_path;
  found ← probe_from plugin 4 names out_size;
  match found with
  | Some path => mret (Some path)
  | None => exe ← os self_exe; probe_from (option_map (ztake 4095) exe) 0 names out_size
  end.

Definition worker_names : list (list Z) := [str "vlc-whisper-worker"; str "vlc-whisper-worker-cpu"].
Definition cpu_names : list (list Z) := [str "vlc-whisper-worker-cpu"].
Definition vw_plugin_resolve_worker_path (out_size : Z) : O (option (list Z)) := resolve_names worker_names out_size.
Definition vw_plugin_resolve_cpu_worker_path (out_size : Z) : O (option (list Z)) := resolve_names cpu_names out_size.

Definition model_names : list (list Z) :=
  map str ["ggml-tiny.bin"; "models/ggml-tiny.bin"; "ggml-tiny.en.bin"; "models/ggml-tiny.en.bin";
           "ggml-base.bin"; "models/ggml-base.bin"; "ggml-base.en.bin"; "models/ggml-base.en.bin";
           "ggml-small.bin"; "models/ggml-small.bin"; "ggml-medium.bin"; "models/ggml-medium.bin";
           "ggml-large-v3.bin"; "models/ggml-large-v3.bin"]%string.
Definition model_files : list (list Z) :=
  map str ["ggml-tiny.bin"; "ggml-tiny.en.bin"; "ggml-base.bin"; "ggml-base.en.bin"; "ggml-small.bin";
           "ggml-medium.bin"; "ggml-large-v3.bin"]%string.
Fixpoint probe_files (dir : list Z) (files : list (list Z)) (out_size : Z) : O (option (list Z)) :=
  match files with
  | [] => mret None
  | file :: files =>
      let cand := dir ++ 47 :: file in
      exists_ ← vw_plugin_path_exists cand;
      if exists_ : bool then mret (Some (ztake (out_size - 1) cand)) else probe_files dir files out_size
  end.
Definition vw_plugin_resolve_model_path (out_size : Z) : O (option (list Z)) :=
  found ← resolve_names model_names out_size;
  match found with
  | Some path => mret (Some path)
  | None => dir ← vw_plugin_get_model_dir VW_PATH_MAX_BYTES; probe_files dir model_files out_size
  end.

(** ** Launching with a fallback *)

Definition is_cpu_worker (worker_path : list Z) : bool :=
  bool_decide (basename worker_path = str "vlc-whisper-worker-cpu")
  || bool_decide (basename worker_path = str "vlc-whisper-worker-cpu.exe").

(** [launch] is [vw_worker_client_launch_and_connect_ex] with the settings. *)
Definition launch_or_cpu (launch : option (list Z) -> O (option (client X))) (worker_path : list Z)
    (backend : option (list Z)) (worker_path_was_configured : bool) : O (option (client X)) :=
  client ← launch (match worker_path with [] => None | _ => Some worker_path end);
  match client with
  | Some c => mret (Some c)
  | None =>
      if negb (bool_decide (eff_backend backend = str "auto")) || worker_path_was_configured then mret None
      else if is_cpu_worker worker_path then mret None
      else
        cpu ← vw_plugin_resolve_cpu_worker_path VW_PATH_MAX_BYTES;
        match cpu with
        | None | Some [] => mret None
        | Some cpu_path => if bool_decide (cpu_path = worker_path) then mret None else launch (Some cpu_path)
        end
  end.
Definition vw_plugin_launch_with_auto_retry (worker_path pipe_name auth_token : list Z) (model_path backend language : option (list Z))
    (n_threads gpu_device : Z) (model_dir : option (list Z)) (logging_enabled worker_path_was_configured : bool)
  : O (option (client X)) :=
  launch_or_cpu (fun path => vw_worker_client_launch_and_connect_ex path pipe_name auth_token model_path backend language
                               n_threads gpu_device model_dir logging_enabled)
    worker_path backend worker_path_was_configured.
End paths.

(** ** Lemmas *)

Lemma last_sep_app path c name : is_sep c = true -> Forall (fun c => is_sep c = false) name ->
  last_sep (path ++ c :: name) = Some (zlen path).
Proof.
  intros Hc Hn. assert (last_sep name = None) as E.
  { induction Hn as [|d name Hd Hn IH]; [done|]. cbn [last_sep]. by rewrite IH, Hd. }
  induction path as [|d path IH]; cbn [app last_sep]; [by rewrite E, Hc|]. rewrite IH, zlen_cons. f_equal. lia.
Qed.
Lemma basename_app path name : Forall (fun c => is_sep c = false) name -> basename (path ++ 47 :: name) = name.
Proof.
  intros Hn. unfold basename. rewrite last_sep_app by done. change (47 :: name) with ([47] ++ name).
  rewrite app_assoc. apply zdrop_app_exact. by rewrite zlen_app.
Qed.
Definition plain_name (name : list Z) : bool := forallb (fun c => negb (is_sep c)) name.
Lemma plain_name_spec name : plain_name name = true -> Forall (fun c => is_sep c = false) name.
Proof.
  unfold plain_name. induction name as [|c name IH]; [constructor|]. cbn [forallb]. intros [H1 H2]%andb_prop.
  constructor; [by destruct (is_sep c)|by apply IH].
Qed.
Lemma is_cpu_basename path : basename path = str "vlc-whisper-worker-cpu" -> is_cpu_worker path = true.
Proof. unfold is_cpu_worker. intros ->. reflexivity. Qed.

Section proofs.
Context {X : Type} `{!OsEnv X} `{!ModuleEnv X} `{!ClientEnv X}.

(** What a search finds is a candidate of one of its names. *)
Lemma probe_names_name file_path try_len names out_size x path :
  fst (probe_names file_path try_len names out_size x) = Some path ->
  exists dir name, path = dir ++ 47 :: name /\ name ∈ names.
Proof.
  revert x. induction names as [|name names IH]; intros x; cbn [probe_names]; [done|].
  assert (forall x', fst (probe_names file_path try_len names out_size x') = Some path ->
    exists dir n, path = dir ++ 47 :: n /\ n ∈ name :: names) as Hrec.
  { intros x' H. destruct (IH x' H) as (dir & n & -> & Hn). exists dir, n. split; [done|by right]. }
  case_goal; [apply Hrec|]. rewrite bind_run. destruct (fst (vw_plugin_path_exists _ _)); [|apply Hrec].
  intros [= <-]. eexists _, name. split; [done|by left].
Qed.
Lemma probe_ancestors_name file_path max_up names out_size x path :
  fst (vw_plugin_probe_ancestors file_path max_up names out_size x) = Some path ->
  exists dir name, path = dir ++ 47 :: name /\ name ∈ names.
Proof.
  unfold vw_plugin_probe_ancestors. destruct (last_sep file_path) as [dir_len|]; [|done].
  assert (forall ups x, fst (probe_levels file_path dir_len ups names out_size x) = Some path ->
    exists dir name, path = dir ++ 47 :: name /\ name ∈ names) as Hl.
  { induction ups as [|up ups IH]; intros x'; cbn [probe_levels]; [done|]. case_goal; [apply IH|]. rewrite bind_run.
    destruct (fst (probe_names _ _ _ _ _)) as [p|] eqn:E; [intros [= ->]; by eapply probe_names_name|apply IH]. }
  destruct dir_len; try apply Hl. done.
Qed.
Lemma resolve_names_name names out_size x path :
  fst (resolve_names names out_size x) = Some path -> exists dir name, path = dir ++ 47 :: name /\ name ∈ names.
Proof.
  assert (forall file max_up x, fst (probe_from file max_up names out_size x) = Some path ->
    exists dir name, path = dir ++ 47 :: name /\ name ∈ names) as Hp.
  { intros [[|c file]|] max_up x'; try done. apply probe_ancestors_name. }
  unfold resolve_names. rewrite !bind_run. destruct (fst (probe_from _ _ _ _ _)) as [p|] eqn:E.
  - intros [= ->]. by eapply Hp.
  - rewrite bind_run. apply Hp.
Qed.

(** *** The search, as a search of a list *)

(** The candidates in order: nearest directory first, and there by preference. *)
Definition candidates (file_path : list Z) (max_up : nat) (names : list (list Z)) (out_size : Z) : list (list Z) :=
  match last_sep file_path with
  | None | Some 0 => []
  | Some dir_len =>
      concat (map (fun up =>
        let try_len := ancestor_len file_path dir_len up in
        if try_len =? 0 then []
        else map (candidate file_path try_len)
               (List.filter (fun name => try_len + 1 + zlen name + 1 <=? out_size) names)) (seq 0 (S max_up)))
  end.

Context (exists_file : list Z -> bool) (access_pure : forall x path, access_exists x path = (exists_file path, x)).

Lemma find_app {A} (f : A -> bool) l k :
  List.find f (l ++ k) = match List.find f l with Some a => Some a | None => List.find f k end.
Proof. induction l as [|a l IH]; [done|]. cbn [List.find app]. destruct (f a); [done|apply IH]. Qed.
Lemma probe_names_find file_path try_len names out_size x :
  probe_names file_path try_len names out_size x
  = (List.find exists_file (map (candidate file_path try_len)
       (List.filter (fun name => try_len + 1 + zlen name + 1 <=? out_size) names)), x).
Proof.
  induction names as [|name names IH]; [done|]. cbn [probe_names List.filter].
  rewrite Z.ltb_antisym. destruct (_ <=? out_size); cbn [negb]; [|done]. rewrite bind_run.
  unfold vw_plugin_path_exists, os. rewrite access_pure. cbn [fst snd map List.find]. by destruct (exists_file _).
Qed.
End proofs.

(** *** Where the models are *)

Lemma default_dir_shape xdg home dir :
  vw_model_download_default_dir xdg home VW_PATH_MAX_BYTES = Some dir ->
  exists base, dir = base ++ str "models" /\ zlen dir < VW_PATH_MAX_BYTES.
Proof.
  unfold vw_model_download_default_dir. intros H.
  destruct (match xdg with Some (_ :: _) => _ | _ => _ end) as [tmp|] eqn:E; [|done].
  apply sized_inv in H as [-> H].
  enough (exists base, tmp = base ++ str "models") as [base ->] by eauto.
  destruct xdg as [[|c xdg]|]; [destruct home as [[|d home]|]| |destruct home as [[|d home]|]]; apply sized_inv in E as [-> _].
  all: try (by exists (str "/tmp/vlc-whisper/")).
  all: first [exists ((c :: xdg) ++ str "/vlc-whisper/")|exists ((d :: home) ++ str "/.local/share/vlc-whisper/")];
    by rewrite <- app_assoc.
Qed.
Lemma final_in_models base file part final lock :
  download_paths (base ++ str "models") file = Some (part, final, lock) -> final = (base ++ str "models") ++ 47 :: file.
Proof.
  unfold download_paths. destruct (sized path_max (base ++ str "models")); [|done].
  destruct (vw_path_join path_max (base ++ str "models") file) as [p|] eqn:E; [|done].
  case_goal; [done|]. destruct (sized path_max (p ++ str ".lock")); [|done]. intros [= _ <- _].
  unfold vw_path_join in E.
  assert (znth (base ++ str "models") (zlen (base ++ str "models") - 1) = 115) as Es.
  { change (str "models") with (str "model" ++ [115]). rewrite app_assoc. unfold znth, zlen.
    rewrite length_app. simpl length. rewrite app_nth2 by lia.
    replace (Z.to_nat _ - _)%nat with 0%nat by lia. done. }
  rewrite Es in E. change (negb (is_sep 115)) with true in E. cbv iota in E.
  destruct (base ++ str "models") eqn:Eb; [by destruct base|]. by apply sized_inv in E as [-> _].
Qed.
Lemma model_dir_agrees {X} `{!OsEnv X} xdg home dir (x : X) :
  (forall y, getenv y (str "XDG_DATA_HOME") = (xdg, y)) -> (forall y, getenv y (str "HOME") = (home, y)) ->
  vw_model_download_default_dir xdg home VW_PATH_MAX_BYTES = Some dir ->
  fst (vw_plugin_get_model_dir VW_PATH_MAX_BYTES x) = dir.
Proof.
  intros Hx Hh. unfold vw_model_download_default_dir, vw_plugin_get_model_dir, os. rewrite bind_run, Hx. cbn [fst snd].
  intros H. destruct (match xdg with Some (_ :: _) => _ | _ => _ end) as [tmp|] eqn:E; [|done].
  apply sized_inv in H as [-> H]. unfold VW_PATH_MAX_BYTES in *.
  assert (forall l : list Z, zlen l < 4096 -> ztake (4096 - 1) (ztake 4095 l) = l) as Ht.
  { intros l Hl. rewrite (ztake_all (4096 - 1)) by (etrans; [by apply zlen_ztake_le|lia]). apply ztake_all. lia. }
  destruct xdg as [[|c xdg]|]; [|by apply sized_inv in E as [-> _]; apply Ht|];
    rewrite bind_run, Hh; cbn [fst snd mret M_ret];
    (destruct home as [[|d home]|]; apply sized_inv in E as [-> _]; [|by apply Ht|]; apply ztake_all; lia).
Qed.

(** ** Properties *)

(** The search for a worker or model takes the first file that exists, of the
    candidates in order of nearness and then of preference that fit the buffer, and
    changes nothing. *)
Theorem probe_first {X} `{!OsEnv X} (exists_file : list Z -> bool) file_path max_up names out_size (x : X) :
  (forall x path, access_exists x path = (exists_file path, x)) ->
  vw_plugin_probe_ancestors file_path max_up names out_size x
  = (List.find exists_file (candidates file_path max_up names out_size), x).
Proof.
  intros Hpure. unfold vw_plugin_probe_ancestors, candidates. destruct (last_sep file_path) as [dir_len|]; [|done].
  assert (forall ups, probe_levels file_path dir_len ups names out_size x
    = (List.find exists_file (concat (map (fun up =>
        let try_len := ancestor_len file_path dir_len up in
        if try_len =? 0 then []
        else map (candidate file_path try_len)
               (List.filter (fun name => try_len + 1 + zlen name + 1 <=? out_size) names)) ups)), x)) as Hl.
  { induction ups as [|up ups IH]; [done|]. cbn [probe_levels map]. cbv zeta. cbn [concat]. case_goal; [apply IH|].
    rewrite find_app, bind_run, (probe_names_find _ Hpure). cbn [fst snd].
    destruct (List.find exists_file (map _ _)); [done|apply IH]. }
  destruct dir_len; [done|apply Hl..].
Qed.

(** Only the CPU worker exists, two levels above the plugin. *)
#[local] Instance witness_os : OsEnv unit := {
  getenv x _ := (None, x); getuid x := (1000, x); stat x _ := (None, x); lstat x _ := (None, x);
  access_wx x _ := (false, x); access_exists x path := (bool_decide (path = str "/opt/vlc/vlc-whisper-worker-cpu"), x);
  mkdir_private x _ := (MkdirFailed, x); chmod_private x _ := (false, x); mkstemp x _ := (None, x);
  fchmod_private x _ := (false, x); fdopen x _ := (false, x); write_and_close x _ _ := (false, x);
  rename x _ _ := (false, x); remove x _ := x
}.
Lemma probe_first_witness :
  let find := List.find (fun path => bool_decide (path = str "/opt/vlc/vlc-whisper-worker-cpu"))
                (candidates (str "/opt/vlc/plugins/audio/lib.so") 4 worker_names 4096) in
  find = Some (str "/opt/vlc/vlc-whisper-worker-cpu")
  /\ vw_plugin_probe_ancestors (str "/opt/vlc/plugins/audio/lib.so") 4 worker_names 4096 tt = (find, tt).
Proof. intros find. split; [by vm_compute|]. apply probe_first. intros x path. reflexivity. Defined.

(** The plugin and the worker agree on where a model is: for every model of the
    worker's catalog the plugin knows the same file name, and the file the worker
    publishes in its default directory is the one the plugin activates. *)
Theorem model_location_agrees {X} `{!OsEnv X} xdg home entry dir part final lock (x : X) :
  (forall y, getenv y (str "XDG_DATA_HOME") = (xdg, y)) -> (forall y, getenv y (str "HOME") = (home, y)) ->
  entry ∈ kVWModelCatalogEntries ->
  vw_model_download_default_dir xdg home VW_PATH_MAX_BYTES = Some dir ->
  download_paths dir (ent_filename entry) = Some (part, final, lock) ->
  vw_plugin_catalog_filename (ent_id entry) = Some (ent_filename entry)
  /\ fst (vw_plugin_get_model_dir VW_PATH_MAX_BYTES x) = dir
  /\ final = dir ++ 47 :: ent_filename entry
  /\ vw_plugin_catalog_id_from_path final = ent_id entry.
Proof.
  intros Hx Hh He Hd Hp. destruct (default_dir_shape _ _ _ Hd) as (base & -> & Hl).
  apply (final_in_models base) in Hp as ->.
  assert (vw_plugin_catalog_filename (ent_id entry) = Some (ent_filename entry)
          /\ plain_name (ent_filename entry) = true
          /\ List.find (fun e => bool_decide (snd e = ent_filename entry)) kMap = Some (ent_id entry, ent_filename entry))
    as (Ef & Hn & Ei).
  { apply list_elem_of_In in He. repeat destruct He as [<-|He]; [by split_and!; vm_compute..|done]. }
  split_and!; [done| |done|].
  - by apply (model_dir_agrees xdg home).
  - unfold vw_plugin_catalog_id_from_path. rewrite basename_app by by apply plain_name_spec. rewrite Ei. by destruct base.
Qed.

(** Without XDG_DATA_HOME, for the user's home directory. *)
#[local] Instance home_os : OsEnv (list Z) := {
  getenv home name := (if bool_decide (name = str "HOME") then Some (str "/home/u") else None, home);
  getuid x := (1000, x); stat x _ := (None, x); lstat x _ := (None, x); access_wx x _ := (false, x);
  access_exists x path := (false, x); mkdir_private x _ := (MkdirFailed, x); chmod_private x _ := (false, x);
  mkstemp x _ := (None, x); fchmod_private x _ := (false, x); fdopen x _ := (false, x);
  write_and_close x _ _ := (false, x); rename x _ _ := (false, x); remove x _ := x
}.
Lemma model_location_agrees_witness :
  let entry := List.nth 3 kVWModelCatalogEntries (mk_entry [] [] [] [] 0 false) in
  let final := str "/home/u/.local/share/vlc-whisper/models/ggml-base.bin" in
  ent_id entry = str "base"
  /\ vw_plugin_catalog_filename (ent_id entry) = Some (str "ggml-base.bin")
  /\ vw_plugin_catalog_id_from_path final = ent_id entry.
Proof.
  intros entry final. split; [by vm_compute|].
  destruct (model_location_agrees None (Some (str "/home/u")) entry (str "/home/u/.local/share/vlc-whisper/models")
    (final ++ str ".part") final (final ++ str ".lock") ([] : list Z)) as (E1 & _ & _ & E2);
    [intros y; vm_compute; reflexivity|intros y; vm_compute; reflexivity| | | |split; [exact E1|exact E2]].
  - apply list_elem_of_In. right. right. right. left. reflexivity.
  - vm_compute. reflexivity.
  - vm_compute. reflexivity.
Defined.

(** A launch fails closed: with a backend the user chose, an executable the user
    chose, or the CPU worker itself, it is exactly one launch of that executable; only
    otherwise may a failed launch be followed by one of another executable, whose name
    is the CPU worker's. *)
Theorem launch_fails_closed {X} `{!OsEnv X} `{!ModuleEnv X} `{!ClientEnv X} (worker_path pipe_name auth_token : list Z)
    (model_path backend language : option (list Z)) (n_threads gpu_device : Z) (model_dir : option (list Z))
    (logging_enabled configured : bool) (x : X) :
  let launch path := vw_worker_client_launch_and_connect_ex path pipe_name auth_token model_path backend language n_threads
                       gpu_device model_dir logging_enabled in
  let first := launch (match worker_path with [] => None | _ => Some worker_path end) x in
  let result := vw_plugin_launch_with_auto_retry worker_path pipe_name auth_token model_path backend language n_threads
                  gpu_device model_dir logging_enabled configured x in
  result = first
  \/ eff_backend backend = str "auto" /\ configured = false /\ is_cpu_worker worker_path = false /\ fst first = None
     /\ (fst result = None
         \/ exists cpu_path x', is_cpu_worker cpu_path = true /\ cpu_path <> worker_path /\ result = launch (Some cpu_path) x').
Proof.
  intros launch first result. subst first result. unfold vw_plugin_launch_with_auto_retry. fold launch. clearbody launch.
  unfold launch_or_cpu. rewrite bind_run. destruct (launch (match worker_path with [] => None | _ => Some worker_path end) x) as [[c|] x1]; cbn [fst snd]; [by left|].
  destruct (bool_decide_reflect (eff_backend backend = str "auto")) as [Eb|_]; [|by left]. destruct configured; [by left|].
  cbn [negb orb]. destruct (is_cpu_worker worker_path) eqn:Ew; [by left|]. right. split_and!; try done.
  rewrite bind_run. destruct (fst (vw_plugin_resolve_cpu_worker_path VW_PATH_MAX_BYTES x1)) as [[|c cpu]|] eqn:Ec; [by left| |by left].
  destruct (bool_decide_reflect (c :: cpu = worker_path)) as [E|Hne]; [by left|]. right. exists (c :: cpu).
  eexists. split_and!; [|done|reflexivity]. apply resolve_names_name in Ec as (dir & name & -> & Hn).
  unfold cpu_names in Hn. apply list_elem_of_singleton in Hn as ->. apply is_cpu_basename, basename_app, plain_name_spec. reflexivity.
Qed.
