(* ===== verification/Sender.v ===== *)
(** * The plugin's sender thread

    [src/plugin/src/vw_whisper_module.c], lines 484 to 1562, and
    [vw_paused_preview_policy.h]: the thread that starts the worker's session, follows
    the player (settings, pause, seeks, media), forwards the captured audio and shows
    the captions, with the receive wrapper the build puts around the client
    ([vw_translation_failure_module_override.h]). The clock is the client's; VLC's
    settings are [ConfigEnv]. What an input answers is read together with its place in
    the object tree; log calls and the switch for them are left out; the callback
    thread of [PluginModule] runs between the iterations. *)

From stdpp Require Import relations.
From S2P Require Import Prelude.
From S2P Require Import CString.
From S2P Require Import Float32.
From S2P Require Import ProtocolTypes.
From S2P Require Import ProtocolUtil.
From S2P Require Import SpscQueue.
From S2P Require Import AudioCapture.
From S2P Require Import State.
From S2P Require Import WorkerClient.
From S2P Require Import Presenter.
From S2P Require Import Benchmark.
From S2P Require Import PluginPaths.
#[local] Open Scope Z_scope.

Definition VW_INPUT_JUMP_DISCONTINUITY_US : Z := 5000000.
Definition VW_PTS_JUMP_THRESHOLD_US : Z := 500000.
Definition VW_MAX_WORKER_RESPAWNS : Z := 3.
Definition VW_WORKER_RESPAWN_DELAY_MS : Z := 1000.

(** VLC's settings. *)
Class ConfigEnv (X : Type) := {
  config_psz : X -> list Z -> option (list Z) * X;
  config_int : X -> list Z -> Z * X;
  config_find : X -> list Z -> bool * X;
  config_put_psz : X -> list Z -> list Z -> X;
  config_put_int : X -> list Z -> Z -> X
}.
Class PluginEnv (X : Type) := {
  plugin_client_env :: ClientEnv X;
  plugin_vlc_env :: VlcEnv X;
  plugin_os_env :: OsEnv X;
  plugin_module_env :: ModuleEnv X;
  plugin_config_env :: ConfigEnv X
}.

(** ** State *)

(** The [cfg_...] fields of [vw_plugin_sys]: the settings last applied. *)
Record config_snapshot := mk_snapshot {
  snap_worker_path : list Z;   (* char[VW_PATH_MAX_BYTES] *)
  snap_model_path : list Z;   (* char[VW_PATH_MAX_BYTES] *)
  snap_backend : list Z;   (* char[16] *)
  snap_language : list Z;   (* char[16] *)
  snap_model_download : list Z;   (* char[40] *)
  snap_threads : Z;
  snap_logging : bool;
  snap_translate_enabled : bool;
  snap_translate_from : list Z;   (* char[16] *)
  snap_translate_to : list Z;   (* char[16] *)
  snap_translate_mode : Z
}.
#[global] Instance settable_config_snapshot : Settable config_snapshot :=
  fun s => mk_snapshot (snap_worker_path s) (snap_model_path s) (snap_backend s) (snap_language s)
  (snap_model_download s) (snap_threads s) (snap_logging s) (snap_translate_enabled s)
  (snap_translate_from s) (snap_translate_to s) (snap_translate_mode s).
#[global] Instance set_snap_worker_path : Setter snap_worker_path := ltac:(setter).
#[global] Instance set_snap_model_path : Setter snap_model_path := ltac:(setter).
#[global] Instance set_snap_backend : Setter snap_backend := ltac:(setter).
#[global] Instance set_snap_language : Setter snap_language := ltac:(setter).
#[global] Instance set_snap_model_download : Setter snap_model_download := ltac:(setter).
#[global] Instance set_snap_threads : Setter snap_threads := ltac:(setter).
#[global] Instance set_snap_logging : Setter snap_logging := ltac:(setter).
#[global] Instance set_snap_translate_enabled : Setter snap_translate_enabled := ltac:(setter).
#[global] Instance set_snap_translate_from : Setter snap_translate_from := ltac:(setter).
#[global] Instance set_snap_translate_to : Setter snap_translate_to := ltac:(setter).
#[global] Instance set_snap_translate_mode : Setter snap_translate_mode := ltac:(setter).

Record sender_counts := mk_counts {
  ct_chunks_sent : Z;   (* uint64_t *)
  ct_frames_received : Z;   (* uint32_t *)
  ct_segments_received : Z;   (* uint32_t *)
  ct_status_received : Z;   (* uint32_t *)
  ct_errors_received : Z;   (* uint32_t *)
  ct_respawn_count : Z   (* uint32_t *)
}.
#[global] Instance settable_sender_counts : Settable sender_counts :=
  fun s => mk_counts (ct_chunks_sent s) (ct_frames_received s) (ct_segments_received s)
  (ct_status_received s) (ct_errors_received s) (ct_respawn_count s).
#[global] Instance set_ct_chunks_sent : Setter ct_chunks_sent := ltac:(setter).
#[global] Instance set_ct_frames_received : Setter ct_frames_received := ltac:(setter).
#[global] Instance set_ct_segments_received : Setter ct_segments_received := ltac:(setter).
#[global] Instance set_ct_status_received : Setter ct_status_received := ltac:(setter).
#[global] Instance set_ct_errors_received : Setter ct_errors_received := ltac:(setter).
#[global] Instance set_ct_respawn_count : Setter ct_respawn_count := ltac:(setter).

(** The variables of [vw_plugin_sender_main]. *)
Record sender_locals := mk_locals {
  ln_paused : bool;
  ln_last_pause_poll_us : Z;
  ln_last_position_us : Z;
  ln_paused_position_us : Z;
  ln_current_position_us : Z;
  ln_last_playback_rate : Z;   (* float *)
  ln_last_source_seek_us : Z
}.
#[global] Instance settable_sender_locals : Settable sender_locals :=
  fun s => mk_locals (ln_paused s) (ln_last_pause_poll_us s) (ln_last_position_us s)
  (ln_paused_position_us s) (ln_current_position_us s) (ln_last_playback_rate s)
  (ln_last_source_seek_us s).
#[global] Instance set_ln_paused : Setter ln_paused := ltac:(setter).
#[global] Instance set_ln_last_pause_poll_us : Setter ln_last_pause_poll_us := ltac:(setter).
#[global] Instance set_ln_last_position_us : Setter ln_last_position_us := ltac:(setter).
#[global] Instance set_ln_paused_position_us : Setter ln_paused_position_us := ltac:(setter).
#[global] Instance set_ln_current_position_us : Setter ln_current_position_us := ltac:(setter).
#[global] Instance set_ln_last_playback_rate : Setter ln_last_playback_rate := ltac:(setter).
#[global] Instance set_ln_last_source_seek_us : Setter ln_last_source_seek_us := ltac:(setter).

(** What the sender does that is heard or seen: a chunk handed to the client; a cue
    given to the screen, with the session it was drawn for and whether playback was
    paused; the preview of a paused seek made ready; a cue drawn while closing. *)
Inductive deed :=
  | SentChunk (chunk : vw_audio_chunk_t)
  | DrewCue (cue : vw_caption_segment_t) (session : option (list Z)) (paused : bool)
  | ArmedPreview
  | DrewTail (cue : vw_caption_segment_t) (session : option (list Z)).

(** [vw_plugin_sys_t] with the sender's variables. The queue and two of the atomics are
    the capture's, which points to them; [sy_inputs_held] counts the references to
    input objects, [sy_captured] is the history of the chunks the callback queued and
    [sy_deeds] of what the sender did. *)
Record plugin {X : Type} := mk_plugin {
  sy_capture : vw_audio_capture_t;
  sy_client : option (client X);
  sy_presenter : vw_caption_presenter_t;
  sy_vlc_log : list vlc_event;
  sy_pipe_name : list Z;   (* char[256] *)
  sy_auth_token : list Z;   (* uint8_t[32] *)
  sy_worker_path : list Z;   (* char[VW_PATH_MAX_BYTES] *)
  sy_model_path : list Z;   (* char[VW_PATH_MAX_BYTES] *)
  sy_active_source_url : list Z;   (* char[VW_PATH_MAX_BYTES] *)
  sy_model_download_id : list Z;   (* char[40] *)
  sy_worker_dead : bool;   (* _Atomic *)
  sy_discontinuity_pending : bool;   (* _Atomic *)
  sy_resume_pts_us : Z;   (* _Atomic int64_t *)
  sy_source_mode_active : bool;   (* _Atomic *)
  sy_session_active : bool;   (* _Atomic *)
  sy_paused_preview : bool;   (* vw_paused_preview_state_t *)
  sy_invalid_pts_pending : bool;   (* _Atomic *)
  sy_last_pts_was_invalid : bool;
  sy_respawn_in_progress : bool;   (* _Atomic *)
  sy_sender_started : bool;
  sy_cfg_snapshot_valid : bool;
  sy_last_config_poll_us : Z;
  sy_last_cfg_respawn_attempt_us : Z;
  sy_counts : sender_counts;
  sy_cfg : config_snapshot;
  sy_locals : sender_locals;
  sy_benchmark : vw_benchmark_t;
  sy_inputs_held : Z;
  sy_captured : list vw_audio_chunk_t;
  sy_deeds : list deed;
  sy_ext : X
}.
Arguments plugin X : clear implicits.
Arguments mk_plugin {X}.
#[global] Instance settable_plugin {X} : Settable (plugin X) :=
  fun s => mk_plugin (sy_capture s) (sy_client s) (sy_presenter s) (sy_vlc_log s) (sy_pipe_name s)
  (sy_auth_token s) (sy_worker_path s) (sy_model_path s) (sy_active_source_url s)
  (sy_model_download_id s) (sy_worker_dead s) (sy_discontinuity_pending s) (sy_resume_pts_us s)
  (sy_source_mode_active s) (sy_session_active s) (sy_paused_preview s) (sy_invalid_pts_pending s)
  (sy_last_pts_was_invalid s) (sy_respawn_in_progress s) (sy_sender_started s) (sy_cfg_snapshot_valid s)
  (sy_last_config_poll_us s) (sy_last_cfg_respawn_attempt_us s) (sy_counts s) (sy_cfg s)
  (sy_locals s) (sy_benchmark s) (sy_inputs_held s) (sy_captured s)
  (sy_deeds s) (sy_ext s).
#[global] Instance set_sy_capture {X} : Setter (@sy_capture X) := ltac:(setter).
#[global] Instance set_sy_client {X} : Setter (@sy_client X) := ltac:(setter).
#[global] Instance set_sy_presenter {X} : Setter (@sy_presenter X) := ltac:(setter).
#[global] Instance set_sy_vlc_log {X} : Setter (@sy_vlc_log X) := ltac:(setter).
#[global] Instance set_sy_pipe_name {X} : Setter (@sy_pipe_name X) := ltac:(setter).
#[global] Instance set_sy_auth_token {X} : Setter (@sy_auth_token X) := ltac:(setter).
#[global] Instance set_sy_worker_path {X} : Setter (@sy_worker_path X) := ltac:(setter).
#[global] Instance set_sy_model_path {X} : Setter (@sy_model_path X) := ltac:(setter).
#[global] Instance set_sy_active_source_url {X} : Setter (@sy_active_source_url X) := ltac:(setter).
#[global] Instance set_sy_model_download_id {X} : Setter (@sy_model_download_id X) := ltac:(setter).
#[global] Instance set_sy_worker_dead {X} : Setter (@sy_worker_dead X) := ltac:(setter).
#[global] Instance set_sy_discontinuity_pending {X} : Setter (@sy_discontinuity_pending X) := ltac:(setter).
#[global] Instance set_sy_resume_pts_us {X} : Setter (@sy_resume_pts_us X) := ltac:(setter).
#[global] Instance set_sy_source_mode_active {X} : Setter (@sy_source_mode_active X) := ltac:(setter).
#[global] Instance set_sy_session_active {X} : Setter (@sy_session_active X) := ltac:(setter).
#[global] Instance set_sy_paused_preview {X} : Setter (@sy_paused_preview X) := ltac:(setter).
#[global] Instance set_sy_invalid_pts_pending {X} : Setter (@sy_invalid_pts_pending X) := ltac:(setter).
#[global] Instance set_sy_last_pts_was_invalid {X} : Setter (@sy_last_pts_was_invalid X) := ltac:(setter).
#[global] Instance set_sy_respawn_in_progress {X} : Setter (@sy_respawn_in_progress X) := ltac:(setter).
#[global] Instance set_sy_sender_started {X} : Setter (@sy_sender_started X) := ltac:(setter).
#[global] Instance set_sy_cfg_snapshot_valid {X} : Setter (@sy_cfg_snapshot_valid X) := ltac:(setter).
#[global] Instance set_sy_last_config_poll_us {X} : Setter (@sy_last_config_poll_us X) := ltac:(setter).
#[global] Instance set_sy_last_cfg_respawn_attempt_us {X} : Setter (@sy_last_cfg_respawn_attempt_us X) := ltac:(setter).
#[global] Instance set_sy_counts {X} : Setter (@sy_counts X) := ltac:(setter).
#[global] Instance set_sy_cfg {X} : Setter (@sy_cfg X) := ltac:(setter).
#[global] Instance set_sy_locals {X} : Setter (@sy_locals X) := ltac:(setter).
#[global] Instance set_sy_benchmark {X} : Setter (@sy_benchmark X) := ltac:(setter).
#[global] Instance set_sy_inputs_held {X} : Setter (@sy_inputs_held X) := ltac:(setter).
#[global] Instance set_sy_captured {X} : Setter (@sy_captured X) := ltac:(setter).
#[global] Instance set_sy_deeds {X} : Setter (@sy_deeds X) := ltac:(setter).
#[global] Instance set_sy_ext {X} : Setter (@sy_ext X) := ltac:(setter).


(** ** The preview of a paused seek *)

(** [vw_paused_preview_capture_target] *)
Definition vw_paused_preview_capture_target (source_preview : bool) (sampled_position_us : Z) : option Z :=
  if negb source_preview || (sampled_position_us <? 0) then None else Some sampled_position_us.
Definition vw_paused_preview_seek_flags (paused preview_after_paused_seek : bool) : Z :=
  if paused && negb preview_after_paused_seek then Z.lor VW_POSITION_FLAG_SEEK VW_POSITION_FLAG_PAUSED else VW_POSITION_FLAG_SEEK.

(** ** Numbers and names *)

(** [snprintf(field, sizeof field, "%s", value)] *)
Definition copied (size : Z) (value : list Z) : list Z := ztake (size - 1) value.
Definition nonempty (value : option (list Z)) (or_else : list Z) : list Z :=
  match value with Some ((_ :: _) as v) => v | _ => or_else end.

(** A URI the worker may open itself. *)
Definition is_local_media (uri : list Z) : bool :=
  prefixb (str "file://") uri || (znth uri 0 =? 47)
  || ((3 <=? zlen uri) && (znth uri 1 =? 58) && ((znth uri 2 =? 92) || (znth uri 2 =? 47))).

(** Arithmetic of [float]. *)
Definition float_sub (a b : Z) : spec_float := SFsub 24 128 (f32_to_spec a) (f32_to_spec b).
Definition f32_two_percent : Z := 0x3CA3D70A.
Definition f32_one_and_half : Z := 0x3FC00000.
Definition rate_changed (rate last_rate : Z) : bool :=
  SFltb (f32_to_spec f32_two_percent) (SFabs (float_sub rate last_rate)).
(** [(int64_t)(VW_INPUT_JUMP_DISCONTINUITY_US * (rate > 1.0f ? rate * 1.5f : 1.0f))] *)
Definition seek_threshold (rate : Z) : Z :=
  let scale := if f32_gt_const rate 1 then SFmul 24 128 (f32_to_spec rate) (f32_to_spec f32_one_and_half)
               else f32_to_spec f32_one in
  double_to_i64 (SFmul 24 128 (binary_normalize 24 128 VW_INPUT_JUMP_DISCONTINUITY_US 0 false) scale).

(** [memcmp(recv.segment.session_id.bytes, client->session_id, 16) != 0] *)
Definition foreign_segment (session : option (list Z)) (seg : vw_caption_segment_t) : bool :=
  negb (bool_decide (Some (seg_session_id seg) = session)).

(** ** Settings *)

Record settings := mk_settings {
  set_wp : option (list Z); set_mp : option (list Z); set_be : option (list Z); set_lg : option (list Z);
  set_dl : option (list Z); set_thr : Z; set_logging : bool; set_trans_en : bool;
  set_trans_from : option (list Z); set_trans_to : option (list Z); set_trans_mode : Z
}.
Definition eff_thr (thr : Z) : Z := if (thr <? 1) || (16 <? thr) then 4 else thr.
Definition eff_mode (mode : Z) : Z := if mode =? 0 then 0 else 1.

(** The first snapshot. *)
Definition snapshot_of (c : settings) : config_snapshot :=
  mk_snapshot (copied VW_PATH_MAX_BYTES (default [] (set_wp c))) (copied VW_PATH_MAX_BYTES (default [] (set_mp c)))
    (copied 16 (nonempty (set_be c) (str "auto"))) (copied 16 (nonempty (set_lg c) (str "en")))
    (copied 40 (default [] (set_dl c))) (eff_thr (set_thr c)) (set_logging c) (set_trans_en c)
    (copied 16 (nonempty (set_trans_from c) (str "auto"))) (copied 16 (nonempty (set_trans_to c) (str "en")))
    (eff_mode (set_trans_mode c)).

(** The language to compare: "auto" keeps the one in use. *)
Definition lg_cmp (c : settings) (snap : config_snapshot) : list Z :=
  let raw := nonempty (set_lg c) (str "en") in if bool_decide (raw = str "auto") then snap_language snap else raw.
Definition trans_diff (c : settings) (snap : config_snapshot) : bool :=
  negb (Bool.eqb (set_trans_en c) (snap_translate_enabled snap))
  || negb (bool_decide (nonempty (set_trans_from c) (str "auto") = snap_translate_from snap))
  || negb (bool_decide (nonempty (set_trans_to c) (str "en") = snap_translate_to snap))
  || negb (eff_mode (set_trans_mode c) =? snap_translate_mode snap).
Definition worker_diff (c : settings) (snap : config_snapshot) : bool :=
  negb (bool_decide (default [] (set_wp c) = snap_worker_path snap))
  || negb (bool_decide (default [] (set_mp c) = snap_model_path snap))
  || negb (bool_decide (nonempty (set_be c) (str "auto") = snap_backend snap))
  || negb (bool_decide (lg_cmp c snap = snap_language snap))
  || negb (eff_thr (set_thr c) =? snap_threads snap)
  || negb (Bool.eqb (set_logging c) (snap_logging snap)).
Definition translate_snapshot (c : settings) (snap : config_snapshot) : config_snapshot :=
  snap <| snap_translate_enabled := set_trans_en c |>
       <| snap_translate_from := copied 16 (nonempty (set_trans_from c) (str "auto")) |>
       <| snap_translate_to := copied 16 (nonempty (set_trans_to c) (str "en")) |>
       <| snap_translate_mode := eff_mode (set_trans_mode c) |>.
Definition worker_snapshot (c : settings) (snap : config_snapshot) : config_snapshot :=
  snap <| snap_worker_path := copied VW_PATH_MAX_BYTES (default [] (set_wp c)) |>
       <| snap_model_path := copied VW_PATH_MAX_BYTES (default [] (set_mp c)) |>
       <| snap_backend := copied 16 (nonempty (set_be c) (str "auto")) |>
       <| snap_language := copied 16 (lg_cmp c snap) |>
       <| snap_threads := eff_thr (set_thr c) |> <| snap_logging := set_logging c |>.

Section sender.
Context {X : Type} `{!PluginEnv X}.
#[local] Abbreviation S := (M (plugin X)).

(** *** The components' calls *)

Definition sys {A} (f : X -> A * X) : S A := fun s => let '(a, x) := f (sy_ext s) in (a, s <| sy_ext := x |>).
Definition act (f : X -> X) : S unit := modify (fun s => s <| sy_ext := f (sy_ext s) |>).
Definition monotonic : S Z := sys client_now.
(** A call on the client; with none it fails as [none]. *)
Definition with_client {A} (none : A) (m : M (client X) A) : S A := fun s =>
  match sy_client s with
  | None => (none, s)
  | Some c => let '(a, c) := m (c <| c_ext := sy_ext s |>) in (a, s <| sy_client := Some c |> <| sy_ext := c_ext c |>)
  end.
Definition with_presenter {A} (m : M (pstate X) A) : S A := fun s =>
  let '(a, p) := m (mk_pstate (sy_presenter s) (sy_vlc_log s) (sy_ext s)) in
  (a, s <| sy_presenter := p_presenter p |> <| sy_vlc_log := p_log p |> <| sy_ext := p_ext p |>).
Definition bench (f : vw_benchmark_t -> vw_benchmark_t) : S unit := modify (fun s => s <| sy_benchmark := f (sy_benchmark s) |>).
(** An operation that also writes the report. *)
Definition bench_io (f : vw_benchmark_t -> M X vw_benchmark_t) : S unit :=
  b ← gets sy_benchmark; b ← sys (f b); bench (fun _ => b).
Definition on_cfg (f : config_snapshot -> config_snapshot) : S unit := modify (fun s => s <| sy_cfg := f (sy_cfg s) |>).
Definition on_counts (f : sender_counts -> sender_counts) : S unit := modify (fun s => s <| sy_counts := f (sy_counts s) |>).
Definition on_locals (f : sender_locals -> sender_locals) : S unit := modify (fun s => s <| sy_locals := f (sy_locals s) |>).
Definition did (d : deed) : S unit := modify (fun s => s <| sy_deeds := sy_deeds s ++ [d] |>).
Definition worker_died : S unit := modify (fun s => s <| sy_worker_dead := true |>).
Definition put_psz (name value : list Z) : S unit := act (fun x => config_put_psz x name value).
Definition put_int (name : list Z) (value : Z) : S unit := act (fun x => config_put_int x name value).
Definition psz (name : list Z) : S (option (list Z)) := sys (fun x => config_psz x name).
Definition int (name : list Z) : S Z := sys (fun x => config_int x name).

(** The session of the client, and a cue drawn for it. *)
Definition session_of (s : plugin X) : option (list Z) := option_map c_session_id (sy_client s).
Definition drew (cue : option vw_caption_segment_t) : S unit := fun s =>
  match cue with
  | Some cue => did (DrewCue cue (session_of s) (ln_paused (sy_locals s))) s
  | None => (tt, s)
  end.
Definition show_segment (seg : vw_caption_segment_t) (input_time_us : Z) (media_timeline : bool) : S bool :=
  pending ← gets (fun s => pr_pending (sy_presenter s));
  drew pending ;;
  with_presenter (vw_caption_presenter_show_segment seg input_time_us media_timeline).
Definition flush_pending (input_time_us : Z) (media_timeline : bool) : S bool :=
  pending ← gets (fun s => pr_pending (sy_presenter s));
  drew pending ;;
  with_presenter (vw_caption_presenter_flush input_time_us media_timeline).
Definition show_paused (seg : vw_caption_segment_t) : S bool :=
  drew (Some seg) ;; with_presenter (vw_caption_presenter_show_paused seg).
Definition blank : S unit := with_presenter vw_caption_presenter_blank.
Definition clear_progress : S unit := with_presenter vw_caption_presenter_clear_model_progress.
Definition reset_preview : S unit := modify (fun s => s <| sy_paused_preview := false |>).

(** *** The queue *)

Definition queue_pop : S (option vw_audio_chunk_t) := fun s =>
  match cap_queue (sy_capture s) with
  | None => (None, s)
  | Some q =>
      let '(chunk, q) := vw_spsc_queue_pop q in
      let cap := sy_capture s in
      (chunk, s <| sy_capture := mk_capture (cap_target_sample_rate cap) (cap_target_channels cap) (cap_sample_remainder cap)
         (cap_last_pts_us cap) (cap_total_samples_processed cap) (cap_total_input_frames cap) (cap_resample_acc cap)
         (cap_resample_source_rate cap) (cap_reset_pending cap) (Some q) (cap_playback_rate cap) |>)
  end.
(** The fuel of the loops that empty the queue. *)
Definition queue_length (s : plugin X) : nat :=
  match cap_queue (sy_capture s) with Some q => length (spsc_contents q) | None => 0%nat end.
Fixpoint drain_loop (fuel : nat) : S unit :=
  match fuel with
  | O => skip
  | Datatypes.S fuel => chunk ← queue_pop; match chunk with Some _ => drain_loop fuel | None => skip end
  end.
Definition drain_queue : S unit := n ← gets queue_length; drain_loop (Datatypes.S n).

Definition set_capture_atomics (reset : option bool) (rate : option Z) : S unit :=
  modify (fun s => let cap := sy_capture s in
    s <| sy_capture := mk_capture (cap_target_sample_rate cap) (cap_target_channels cap) (cap_sample_remainder cap)
         (cap_last_pts_us cap) (cap_total_samples_processed cap) (cap_total_input_frames cap) (cap_resample_acc cap)
         (cap_resample_source_rate cap) (match reset with Some _ => reset | None => cap_reset_pending cap end)
         (cap_queue cap) (match rate with Some _ => rate | None => cap_playback_rate cap end) |>).
Definition request_capture_reset : S unit := set_capture_atomics (Some true) None.
Definition store_playback_rate (rate : Z) : S unit := set_capture_atomics None (Some rate).

(** *** The input *)

Definition is_input (o : vlc_object) : bool := has_type o (str "input").
Definition node_input (n : vlc_node) : option vlc_object := List.find is_input (nd_object n :: nd_children n).
(** The object found is held. *)
Definition vw_plugin_find_input : S (option vlc_object) :=
  nodes ← sys vlc_ancestors;
  match first_some node_input nodes with
  | Some o => modify (fun s => s <| sy_inputs_held := sy_inputs_held s + 1 |>) ;; mret (Some o)
  | None => mret None
  end.
Definition release_input (input : option vlc_object) : S unit :=
  match input with
  | Some _ => modify (fun s => s <| sy_inputs_held := sy_inputs_held s - 1 |>)
  | None => skip
  end.
Definition vw_plugin_input_position_us (input : option vlc_object) : Z :=
  match input with Some o => default (-1) (vi_time (ob_input o)) | None => -1 end.
Definition input_uri (o : vlc_object) : option (list Z) := vi_uri (ob_input o).

(** The medium the worker can decode by itself, when it can. *)
Definition source_url : S (option (list Z)) :=
  input ← vw_plugin_find_input;
  client ← gets sy_client;
  release_input input ;;
  mret (match input, client with
        | Some o, Some c =>
            if Z.land (c_capabilities c) VW_CAPABILITY_SOURCE_MODE =? 0 then None
            else match input_uri o with Some uri => if is_local_media uri then Some uri else None | None => None end
        | _, _ => None
        end).

(** *** The client *)

Definition start_session (url : option (list Z)) : S bool :=
  model_path ← gets sy_model_path;
  with_client false (vw_worker_client_start_session 0 (Some (vw_plugin_catalog_id_from_path model_path)) url).
Definition source_active (s : plugin X) : bool :=
  match sy_client s with Some c => vw_worker_client_is_source_active c | None => false end.
(** [session_active] and [source_mode_active] after an attempt to start. *)
Definition note_started (started : bool) : S unit :=
  modify (fun s => s <| sy_session_active := started |> <| sy_source_mode_active := started && source_active s |>).
Definition send_translate : S bool :=
  cfg ← gets sy_cfg;
  with_client false (vw_worker_client_send_translate_ctrl (snap_translate_enabled cfg) (Some (snap_translate_from cfg))
    (Some (snap_translate_to cfg)) (snap_translate_mode cfg)).
Definition send_position (position_us rate flags : Z) : S bool :=
  with_client false (vw_worker_client_send_position position_us position_us rate flags).

Definition vw_plugin_is_translation_error_code (code : Z) : bool := is_translation_error code.
(** The client's receive in its wrapper: a recoverable translation error is counted
    there and not given on. *)
Definition receive (timeout_us : Z) : S (recv_status * option message) :=
  r ← with_client (VW_IPC_RECV_FATAL, None) (vw_worker_client_receive_frame timeout_us);
  match r with
  | (VW_IPC_RECV_OK, Some (ERROR err)) =>
      if negb (err_recoverable err =? 0) && vw_plugin_is_translation_error_code (err_error_code err) then
        bench (vw_benchmark_record_translation_failure (err_error_code err)) ;;
        on_counts (fun c => c <| ct_errors_received := u32 (ct_errors_received c + 1) |>) ;;
        mret (VW_IPC_RECV_OK, None)
      else mret r
  | _ => mret r
  end.
(** ** Model requests *)

Definition begin_benchmark : S unit :=
  s ← gets (fun s => s);
  now_us ← monotonic;
  bench_io (fun b =>
    '(_, b) ← vw_benchmark_begin (vw_plugin_catalog_id_from_path (sy_model_path s)) (snap_backend (sy_cfg s)) now_us b; mret b).

Definition vw_plugin_send_model_request (request : list Z) : S bool :=
  client ← gets sy_client;
  match client, request with
  | None, _ | _, [] => mret false
  | Some _, _ =>
      let abort := bool_decide (request = str "abort") in
      let model_id := if abort then [] else request in
      sent ← with_client false (vw_worker_client_send_model_ctrl
               (if abort then VW_MODEL_ACTION_ABORT else VW_MODEL_ACTION_DOWNLOAD) (Some model_id));
      if negb sent then mret false
      else
        put_psz (str "whisper-model-download") [] ;;
        put_int (str "whisper-model-progress") 0 ;;
        put_psz (str "whisper-model-status") (if abort then str "aborting" else str "downloading") ;;
        modify (fun s => s <| sy_model_download_id := copied 40 model_id |>) ;;
        on_cfg (fun c => c <| snap_model_download := [] |>) ;;
        mret true
  end.
Definition fail_request : S unit := worker_died ;; put_psz (str "whisper-model-status") (str "failed:worker").

(** ** Replacing the worker *)

Definition give_up_client : S unit :=
  s ← gets (fun s => s);
  match sy_client s with
  | None => skip
  | Some c =>
      when (negb (zlen (sy_model_download_id s) =? 0))
        (modify (fun s => s <| sy_model_download_id := [] |>) ;;
         put_psz (str "whisper-model-status") (str "failed:worker") ;;
         clear_progress) ;;
      act (fun x => vw_worker_client_disconnect (c <| c_ext := x |>)) ;;
      modify (fun s => s <| sy_client := None |>)
  end.

(** The worker as the settings are now; the executable is looked for again when none
    is known. *)
Definition launch_again : S unit :=
  be ← psz (str "whisper-backend");
  lg ← psz (str "whisper-language");
  thr ← int (str "whisper-threads");
  logging ← int (str "whisper-logging");
  has_gpu ← sys (fun x => config_find x (str "whisper-gpu-device"));
  gpu ← (if has_gpu : bool then int (str "whisper-gpu-device") else mret (-1));
  model_dir ← sys (vw_plugin_get_model_dir VW_PATH_MAX_BYTES);
  worker_path ← gets sy_worker_path;
  when (zlen worker_path =? 0)
    (found ← sys (vw_plugin_resolve_worker_path VW_PATH_MAX_BYTES);
     modify (fun s => s <| sy_worker_path := nonempty found (str "vlc-whisper-worker") |>)) ;;
  s ← gets (fun s => s);
  client ← sys (vw_plugin_launch_with_auto_retry (sy_worker_path s) (sy_pipe_name s) (sy_auth_token s)
             (match sy_model_path s with [] => None | m => Some m end) be lg (i32 thr) (i32 gpu)
             (match model_dir with [] => None | d => Some d end) (negb (logging =? 0))
             (negb (zlen (snap_worker_path (sy_cfg s)) =? 0)));
  modify (fun s => s <| sy_client := client |>).

(** The session of a new worker, with the medium that is playing. *)
Definition restart_session (paused : bool) : S bool :=
  url ← source_url;
  blank ;;
  started ← start_session url;
  modify (fun s => s <| sy_active_source_url := copied VW_PATH_MAX_BYTES (default [] url) |>) ;;
  note_started started ;;
  if negb started then mret false
  else
    send_translate ;;
    active ← gets (fun s => bm_active (sy_benchmark s));
    when (negb active) begin_benchmark ;;
    when paused (with_client tt vw_worker_client_pause_session) ;;
    on_counts (fun c => c <| ct_chunks_sent := 0 |> <| ct_frames_received := 0 |> <| ct_segments_received := 0 |>) ;;
    mret true.

Definition vw_plugin_respawn_worker (paused transport_recovery : bool) : S bool :=
  reset_preview ;;
  respawn_count ← gets (fun s => ct_respawn_count (sy_counts s));
  if transport_recovery && (VW_MAX_WORKER_RESPAWNS <=? respawn_count) then mret false
  else
    when transport_recovery (on_counts (fun c => c <| ct_respawn_count := u32 (ct_respawn_count c + 1) |>)) ;;
    give_up_client ;;
    modify (fun s => s <| sy_worker_dead := false |>) ;;
    act (fun x => sleep_ms x VW_WORKER_RESPAWN_DELAY_MS) ;;
    launch_again ;;
    client ← gets sy_client;
    match client with
    | None => mret false
    | Some _ => restart_session paused
    end.

Definition vw_plugin_activate_downloaded_model (model_id : list Z) (paused : bool) : S bool :=
  match model_id, vw_plugin_catalog_filename model_id with
  | _ :: _, Some filename =>
      model_dir ← sys (vw_plugin_get_model_dir VW_PATH_MAX_BYTES);
      match sized VW_PATH_MAX_BYTES (model_dir ++ 47 :: filename) with
      | None => mret false
      | Some model_path =>
          exists_ ← sys (vw_plugin_path_exists model_path);
          if negb exists_ then mret false
          else
            put_psz (str "model-path") model_path ;;
            modify (fun s => s <| sy_model_path := model_path |>) ;;
            on_cfg (fun c => c <| snap_model_path := model_path |>) ;;
            clear_progress ;;
            vw_plugin_respawn_worker paused false
      end
  | _, _ => mret false
  end.

(** ** Starting *)

Definition has_source_mode (s : plugin X) : bool :=
  match sy_client s with Some c => negb (Z.land (c_capabilities c) VW_CAPABILITY_SOURCE_MODE =? 0) | None => false end.
(** [vw_plugin_sender_main] up to its loop: the first session, and the variables. *)
Definition first_session : S unit :=
  able ← gets has_source_mode;
  url ← (if able : bool then source_url else mret None);
  match url with
  | Some url => modify (fun s => s <| sy_active_source_url := copied VW_PATH_MAX_BYTES url |>)
  | None => skip
  end ;;
  started ← start_session url;
  note_started started ;;
  when started begin_benchmark.
Definition sender_start : S unit :=
  first_session ;; modify (fun s => s <| sy_locals := mk_locals false 0 (-1) (-1) (-1) f32_one (-1) |>).

(** ** Settings *)

Definition read_settings : S settings :=
  wp ← psz (str "worker-path");
  mp ← psz (str "model-path");
  be ← psz (str "whisper-backend");
  lg ← psz (str "whisper-language");
  dl ← psz (str "whisper-model-download");
  thr ← int (str "whisper-threads");
  logging ← int (str "whisper-logging");
  trans_en ← int (str "whisper-translate-enabled");
  trans_from ← psz (str "whisper-translate-from");
  trans_to ← psz (str "whisper-translate-to");
  trans_mode ← int (str "whisper-translate-mode");
  mret (mk_settings wp mp be lg dl thr (negb (logging =? 0)) (negb (trans_en =? 0)) trans_from trans_to trans_mode).

(** Tell the worker of the translation settings; one that cannot translate has them
    switched off. *)
Definition push_translation (forget : bool) : S unit :=
  s ← gets (fun s => s);
  match sy_client s with
  | Some _ =>
      if sy_session_active s then
        sent ← send_translate;
        if sent : bool then skip
        else
          s ← gets (fun s => s);
          when (match sy_client s with Some c => negb (Z.land (c_capabilities c) VW_CAPABILITY_TRANSLATION =? 0) | None => false end)
            worker_died ;;
          when forget (on_cfg (fun c => c <| snap_translate_enabled := false |>)) ;;
          put_int (str "whisper-translate-enabled") 0
      else skip
  | None => skip
  end.

Definition first_snapshot (now_us : Z) : S unit :=
  c ← read_settings;
  on_cfg (fun _ => snapshot_of c) ;;
  push_translation true ;;
  modify (fun s => s <| sy_last_config_poll_us := now_us |> <| sy_cfg_snapshot_valid := true |>) ;;
  cfg ← gets sy_cfg;
  if zlen (snap_model_download cfg) =? 0 then skip
  else
    sent ← vw_plugin_send_model_request (snap_model_download cfg);
    when (negb sent) fail_request.

(** A changed request is passed on; an empty one only noted. *)
Definition poll_model_request (c : settings) : S unit :=
  cfg ← gets sy_cfg;
  let dl := default [] (set_dl c) in
  if bool_decide (dl = snap_model_download cfg) then skip
  else if negb (zlen dl =? 0) then
    sent ← vw_plugin_send_model_request dl;
    when (negb sent) fail_request
  else on_cfg (fun cfg => cfg <| snap_model_download := copied 40 dl |>).

(** The paths of the next worker; one that is too long changes nothing. *)
Definition configured_paths (c : settings) (s : plugin X) : plugin X :=
  let s := match set_wp c with
           | Some ((_ :: _) as wp) => if zlen wp <? VW_PATH_MAX_BYTES then s <| sy_worker_path := wp |> else s
           | _ => s <| sy_worker_path := [] |>
           end in
  match set_mp c with
  | Some mp => if zlen mp <? VW_PATH_MAX_BYTES then s <| sy_model_path := mp |> else s
  | None => s
  end.
Definition apply_settings (c : settings) : S unit :=
  busy ← gets sy_respawn_in_progress;
  if busy : bool then skip
  else
    modify (fun s => s <| sy_respawn_in_progress := true |>) ;;
    on_cfg (worker_snapshot c) ;;
    modify (configured_paths c) ;;
    now_us ← monotonic;
    modify (fun s => s <| sy_last_cfg_respawn_attempt_us := now_us |>) ;;
    paused ← gets (fun s => ln_paused (sy_locals s));
    vw_plugin_respawn_worker paused false ;;
    modify (fun s => s <| sy_respawn_in_progress := false |>).

Definition poll_settings : S unit :=
  c ← read_settings;
  cfg ← gets sy_cfg;
  when (trans_diff c cfg) (on_cfg (translate_snapshot c) ;; push_translation false) ;;
  cfg ← gets sy_cfg;
  let diff := worker_diff c cfg in
  poll_model_request c ;;
  when diff (apply_settings c).
Definition config_step : S unit :=
  now_us ← monotonic;
  s ← gets (fun s => s);
  if negb (sy_cfg_snapshot_valid s) then first_snapshot now_us
  else if 2000000 <=? now_us - sy_last_config_poll_us s then
    modify (fun s => s <| sy_last_config_poll_us := now_us |>) ;;
    if sy_respawn_in_progress s then skip else poll_settings
  else skip.
(** ** Following the player *)

(** What an iteration knows of playback. *)
Record playback := mk_playback { pb_paused : bool; pb_preview : bool; pb_position_us : Z }.

(** [normalized_uri]: empty for what only the player can read. *)
Definition normalized_uri (uri : list Z) : list Z :=
  if (zlen uri <? VW_MAX_SOURCE_URL_BYTES) && is_local_media uri then uri else [].

(** Another medium: its own session. *)
Definition swap_media (uri : list Z) : S unit :=
  on_locals (fun l => l <| ln_last_source_seek_us := -1 |>) ;;
  bench vw_benchmark_reset_live_clock ;;
  reset_preview ;;
  blank ;;
  with_client tt (vw_worker_client_stop_session VW_CTRL_REASON_MEDIA_END) ;;
  drain_queue ;;
  modify (fun s => s <| sy_active_source_url := uri |>) ;;
  started ← start_session (match uri with [] => None | _ => Some uri end);
  if started : bool then
    note_started true ;;
    on_locals (fun l => l <| ln_last_position_us := -1 |> <| ln_paused_position_us := -1 |>)
  else note_started false.
Definition detect_swap (input : option vlc_object) : S unit :=
  s ← gets (fun s => s);
  match input with
  | Some o =>
      if has_source_mode s then
        match input_uri o with
        | Some uri => when (negb (bool_decide (normalized_uri uri = sy_active_source_url s))) (swap_media (normalized_uri uri))
        | None => skip
        end
      else skip
  | None => skip
  end.

(** The position goes to the worker; [false] when the worker is lost. *)
Definition report_position (pb : playback) (rate : Z) : S bool :=
  s ← gets (fun s => s);
  if (0 <=? pb_position_us pb) && sy_session_active s then
    on_locals (fun l => l <| ln_current_position_us := pb_position_us pb |>) ;;
    sent ← send_position (pb_position_us pb) rate (if pb_paused pb && negb (pb_preview pb) then VW_POSITION_FLAG_PAUSED else 0);
    when (negb sent) worker_died ;;
    mret sent
  else mret true.
Definition follow_rate (pb : playback) (rate : Z) : S bool :=
  l ← gets sy_locals;
  if rate_changed rate (ln_last_playback_rate l) then
    blank ;;
    on_locals (fun l => l <| ln_last_source_seek_us := -1 |>) ;;
    ok ← report_position pb rate;
    on_locals (fun l => l <| ln_last_playback_rate := rate |>) ;;
    mret ok
  else report_position pb rate.

Definition signal_seek (position_us : Z) : S unit :=
  modify (fun s => s <| sy_discontinuity_pending := true |> <| sy_resume_pts_us := position_us |>).
Definition jumped (from to forward_us : Z) : bool :=
  (0 <=? from) && (0 <=? to) && ((forward_us <=? to - from) || (VW_PTS_JUMP_THRESHOLD_US <? from - to)).
(** A seek made while paused shows on resuming. *)
Definition pause_edge (now_paused : bool) (position_us : Z) : S unit :=
  l ← gets sy_locals;
  if negb (Bool.eqb now_paused (ln_paused l)) then
    if now_paused then
      on_locals (fun l => l <| ln_paused_position_us := if 0 <=? position_us then position_us else -1 |>)
    else
      when (jumped (ln_paused_position_us l) position_us VW_INPUT_JUMP_DISCONTINUITY_US) (signal_seek position_us) ;;
      on_locals (fun l => l <| ln_paused_position_us := -1 |>)
  else
    when (now_paused && (0 <=? position_us) && (ln_paused_position_us l <? 0))
      (on_locals (fun l => l <| ln_paused_position_us := position_us |>)).
Definition watch_position (now_paused : bool) (position_us rate : Z) : S unit :=
  l ← gets sy_locals;
  let is_paused_seek := now_paused && jumped (ln_paused_position_us l) position_us (VW_PTS_JUMP_THRESHOLD_US + 1) in
  when (jumped (ln_last_position_us l) position_us (seek_threshold rate) || is_paused_seek)
    (signal_seek position_us ;;
     when is_paused_seek (on_locals (fun l => l <| ln_paused_position_us := position_us |>))) ;;
  when (0 <=? position_us) (on_locals (fun l => l <| ln_last_position_us := position_us |>)).

(** One look at the input; [None] when the worker was lost over it. *)
Definition examine_input (input : option vlc_object) (show_paused_subtitles : bool) : S (option playback) :=
  let now_paused := match input with Some o => vi_paused (ob_input o) | None => false end in
  let rate := match input with Some o => default f32_one (usable_rate o) | None => f32_one end in
  when (bool_decide (input <> None)) (store_playback_rate rate) ;;
  detect_swap input ;;
  let position_us := vw_plugin_input_position_us input in
  source_mode ← gets sy_source_mode_active;
  let pb := mk_playback now_paused (now_paused && show_paused_subtitles && source_mode) position_us in
  ok ← follow_rate pb rate;
  if negb ok then mret None
  else pause_edge now_paused position_us ;; watch_position now_paused position_us rate ;; mret (Some pb).
(** The input is given back on every way out. *)
Definition poll_input (now_us : Z) (show_paused_subtitles : bool) : S (option playback) :=
  on_locals (fun l => l <| ln_last_pause_poll_us := now_us |>) ;;
  input ← vw_plugin_find_input;
  pb ← examine_input input show_paused_subtitles;
  release_input input ;;
  mret pb.
Definition look (show_paused_subtitles : bool) : S (option playback) :=
  s ← gets (fun s => s);
  now_us ← monotonic;
  let l := sy_locals s in
  if 100000 <=? now_us - ln_last_pause_poll_us l then poll_input now_us show_paused_subtitles
  else mret (Some (mk_playback (ln_paused l) (ln_paused l && show_paused_subtitles && sy_source_mode_active s) (-1))).

(** Playback stopped or went on. *)
Definition pause_transition (pb : playback) : S unit :=
  paused ← gets (fun s => ln_paused (sy_locals s));
  if Bool.eqb (pb_paused pb) paused then skip
  else
    (if pb_paused pb then
       if pb_preview pb then
         match vw_paused_preview_capture_target (pb_preview pb) (pb_position_us pb) with
         | Some target => on_locals (fun l => l <| ln_current_position_us := target |>) ;; signal_seek target
         | None => skip
         end
       else blank ;; with_client tt vw_worker_client_pause_session
     else reset_preview ;; blank ;; with_client tt vw_worker_client_resume_session) ;;
    on_locals (fun l => l <| ln_paused := pb_paused pb |>).

(** ** Seeks *)

(** Live: another session, even without a position. *)
Definition restart_live (seek_target_us : Z) : S unit :=
  with_client tt (vw_worker_client_stop_session VW_CTRL_REASON_SEEK_DISCONTINUITY) ;;
  on_locals (fun l => l <| ln_last_position_us := -1 |> <| ln_paused_position_us := -1 |>
                        <| ln_current_position_us := if 0 <=? seek_target_us then seek_target_us else ln_current_position_us l |>
                        <| ln_last_source_seek_us := -1 |>) ;;
  client ← gets sy_client;
  match client with
  | None => skip
  | Some _ =>
      started ← start_session None;
      note_started started ;;
      when started
        (send_translate ;;
         l ← gets sy_locals;
         when (0 <=? seek_target_us)
           (send_position seek_target_us (ln_last_playback_rate l) (if ln_paused l then VW_POSITION_FLAG_PAUSED else 0) ;; skip))
  end.
(** Source: the worker seeks. *)
Definition seek_source (seek_target_us : Z) (preview : bool) : S unit :=
  if 0 <=? seek_target_us then
    on_locals (fun l => l <| ln_last_source_seek_us := seek_target_us |>) ;;
    l ← gets sy_locals;
    sent ← send_position seek_target_us (ln_last_playback_rate l) (vw_paused_preview_seek_flags (ln_paused l) preview);
    when (negb sent) worker_died
  else skip.
Definition handle_discontinuity (show_paused_subtitles : bool) : S unit :=
  s ← gets (fun s => s);
  when (sy_discontinuity_pending s)
    (let l := sy_locals s in
     let seek_target_us := if 0 <=? ln_current_position_us l then ln_current_position_us l else sy_resume_pts_us s in
     let preview := ln_paused l && sy_source_mode_active s && show_paused_subtitles in
     modify (fun s => s <| sy_discontinuity_pending := false |>) ;;
     (if preview then modify (fun s => s <| sy_paused_preview := true |>) ;; did ArmedPreview
      else blank ;; reset_preview) ;;
     bench vw_benchmark_reset_live_clock ;;
     drain_queue ;;
     request_capture_reset ;;
     if sy_source_mode_active s then seek_source seek_target_us preview else restart_live seek_target_us).

Definition drain_invalid : S unit :=
  pending ← gets sy_invalid_pts_pending;
  when pending (drain_queue ;; modify (fun s => s <| sy_invalid_pts_pending := false |>)).

(** ** Audio *)

(** One chunk off the queue: dropped, or sent. [None] ends the loop. *)
Definition send_chunk (forward : bool) : S (option bool) :=
  chunk ← queue_pop;
  match chunk with
  | None => mret None
  | Some chunk =>
      if negb forward then mret (Some false)
      else
        did (SentChunk chunk) ;;
        on_counts (fun c => c <| ct_chunks_sent := u64 (ct_chunks_sent c + 1) |>) ;;
        sent ← with_client false (vw_worker_client_send_audio chunk);
        if negb sent then worker_died ;; mret None
        else
          now_us ← monotonic;
          bench (vw_benchmark_record_audio (chunk_start_pts_us chunk) (chunk_duration_us chunk) now_us) ;;
          mret (Some true)
  end.
Fixpoint send_loop (fuel : nat) (forward sent_any : bool) : S bool :=
  match fuel with
  | O => mret sent_any
  | Datatypes.S fuel =>
      r ← send_chunk forward;
      match r with
      | None => mret sent_any
      | Some sent => send_loop fuel forward (sent_any || sent)
      end
  end.
Definition forwarding (s : plugin X) : bool :=
  negb (ln_paused (sy_locals s) || sy_source_mode_active s || negb (sy_session_active s)).
Definition send_queue : S bool := s ← gets (fun s => s); send_loop (Datatypes.S (queue_length s)) (forwarding s) false.

(** ** The worker's frames *)

Definition count_shown (shown : bool) : S unit :=
  if shown then now_us ← monotonic; bench (vw_benchmark_record_caption_sent now_us)
  else bench (vw_benchmark_record_caption_filtered false false true).
(** A caption of this session, not from before the last seek. *)
Definition current_segment (seg : vw_caption_segment_t) (is_source_mode : bool) (s : plugin X) : bool :=
  negb (foreign_segment (session_of s) seg)
  && negb (is_source_mode && (0 <=? ln_last_source_seek_us (sy_locals s))
           && (seg_start_pts_us seg <? ln_last_source_seek_us (sy_locals s))).
Definition on_segment (seg : vw_caption_segment_t) (is_source_mode show_paused_subtitles : bool) : S unit :=
  s ← gets (fun s => s);
  if negb (current_segment seg is_source_mode s) then bench (vw_benchmark_record_caption_filtered false true false)
  else
    on_counts (fun c => c <| ct_segments_received := u32 (ct_segments_received c + 1) |>) ;;
    now_us ← monotonic;
    bench (vw_benchmark_record_caption_received seg now_us is_source_mode) ;;
    when (seg_translation_attempted seg)
      (bench (vw_benchmark_record_translation (seg_translation_tier seg) (seg_translation_latency_us seg)
                (0 <? seg_translated_text_bytes seg))) ;;
    if negb (ln_paused (sy_locals s)) then
      shown ← show_segment seg (ln_current_position_us (sy_locals s)) is_source_mode;
      count_shown shown
    else if is_source_mode && show_paused_subtitles && sy_paused_preview s then
      reset_preview ;;
      shown ← show_paused seg;
      count_shown shown
    else bench (vw_benchmark_record_caption_filtered true false false).

Definition on_status (status : vw_msg_status_t) : S unit :=
  on_counts (fun c => c <| ct_status_received := u32 (ct_status_received c + 1) |>) ;;
  bench (vw_benchmark_update_status status) ;;
  when (negb (strlen (status_resolved_backend status) =? 0))
    (put_psz (str "whisper-backend-active") (cstr (status_resolved_backend status))).

(** The stage of a download, in VLC's settings and on the screen; a finished download
    that was asked for is put to use. *)
Definition on_progress (progress : vw_msg_model_progress_t) : S unit :=
  put_int (str "whisper-model-progress") (mprog_pct progress) ;;
  put_psz (str "whisper-model-status")
    (copied 80 (stage_name (mprog_stage progress) ++ str ":" ++ cstr (mprog_model_id progress))) ;;
  (if mprog_stage progress =? VW_MODEL_STAGE_IDLE then clear_progress
   else with_presenter (vw_caption_presenter_show_model_progress progress) ;; skip) ;;
  when (mprog_stage progress =? VW_MODEL_STAGE_FAILED)
    (clear_progress ;; modify (fun s => s <| sy_model_download_id := [] |>)) ;;
  s ← gets (fun s => s);
  when ((mprog_stage progress =? VW_MODEL_STAGE_DONE)
        && bool_decide (sy_model_download_id s = cstr (mprog_model_id progress)))
    (clear_progress ;;
     modify (fun s => s <| sy_model_download_id := [] |>) ;;
     activated ← vw_plugin_activate_downloaded_model (cstr (mprog_model_id progress)) (ln_paused (sy_locals s));
     when (negb activated) (put_psz (str "whisper-model-status") (str "failed:activation") ;; clear_progress)).

Definition on_error (err : vw_msg_error_t) : S unit :=
  on_counts (fun c => c <| ct_errors_received := u32 (ct_errors_received c + 1) |>) ;;
  when (err_recoverable err =? 0) worker_died.

Definition on_frame (m : option message) (is_source_mode show_paused_subtitles : bool) : S unit :=
  on_counts (fun c => c <| ct_frames_received := u32 (ct_frames_received c + 1) |>) ;;
  bench vw_benchmark_record_frame ;;
  match m with
  | Some (CAPTION_SEGMENT seg) => on_segment seg is_source_mode show_paused_subtitles
  | Some (STATUS status) => on_status status
  | Some (MODEL_PROGRESS progress) => on_progress progress
  | Some (ERROR err) => on_error err
  | _ => skip
  end.
Definition lost_worker : S unit :=
  worker_died ;;
  modify (fun s => s <| sy_model_download_id := [] |>) ;;
  put_psz (str "whisper-model-status") (str "failed:worker") ;;
  clear_progress.

(** A cue held back is shown when its time comes. *)
Definition flush_due (is_source_mode : bool) : S unit :=
  s ← gets (fun s => s);
  let position_us := ln_current_position_us (sy_locals s) in
  match pr_pending (sy_presenter s) with
  | Some pending =>
      when (negb (ln_paused (sy_locals s))
            && (negb is_source_mode || (position_us <? 0) || (seg_start_pts_us pending <=? position_us + 100000)))
        (flush_pending position_us is_source_mode ;; skip)
  | None => skip
  end.

(** ** An iteration *)

(** With a worker; the rest of the body after the look at the player. *)
Definition serve (show_paused_subtitles : bool) : S unit :=
  pb ← look show_paused_subtitles;
  match pb with
  | None => skip
  | Some pb =>
      pause_transition pb ;;
      handle_discontinuity show_paused_subtitles ;;
      drain_invalid ;;
      is_source_mode ← gets sy_source_mode_active;
      sent_any ← send_queue;
      dead ← gets sy_worker_dead;
      if dead : bool then skip
      else
        '(status, m) ← receive (if sent_any : bool then 5000 else 20000);
        match status with
        | VW_IPC_RECV_FATAL => lost_worker
        | _ =>
            match status with
            | VW_IPC_RECV_OK => on_frame m is_source_mode show_paused_subtitles
            | _ => skip
            end ;;
            flush_due is_source_mode ;;
            now_us ← monotonic;
            bench_io (vw_benchmark_flush_if_due now_us)
        end
  end.
(** No worker: try again every ten seconds. *)
Definition idle : S unit :=
  now_us ← monotonic;
  s ← gets (fun s => s);
  if 10000000 <=? now_us - sy_last_cfg_respawn_attempt_us s then
    modify (fun s => s <| sy_last_cfg_respawn_attempt_us := now_us |>) ;;
    vw_plugin_respawn_worker (ln_paused (sy_locals s)) false ;; skip
  else act (fun x => sleep_ms x 20).

(** The body of the loop; [false] leaves it. *)
Definition sender_iteration : S bool :=
  config_step ;;
  s ← gets (fun s => s);
  if sy_worker_dead s then
    respawned ← vw_plugin_respawn_worker (ln_paused (sy_locals s)) true;
    if negb respawned then mret false
    else
      on_locals (fun l => l <| ln_last_source_seek_us := -1 |>) ;;
      bench vw_benchmark_reset_live_clock ;;
      mret true
  else
    match sy_client s with
    | None => idle ;; mret true
    | Some _ =>
        show ← int (str "whisper-show-paused");
        serve (negb (show =? 0)) ;;
        mret true
    end.
End sender.
