(* ===== verification/SenderSafety.v ===== *)
(** * What holds of the sender at all times

    The invariant of the plugin's state over the iterations of [Sender]: what every
    call keeps, and what the calls that change the session restore. *)

From stdpp Require Import relations.
From S2P Require Import Prelude.
From S2P Require Import CString.
From S2P Require Import ProtocolTypes.
From S2P Require Import SpscQueue.
From S2P Require Import AudioCapture.
From S2P Require Import State.
From S2P Require Import WorkerClient.
From S2P Require Import WorkerClientWire.
From S2P Require Import Presenter.
From S2P Require Import Benchmark.
From S2P Require Import PluginPaths.
From S2P Require Import Sender.
#[local] Open Scope Z_scope.

Create HintDb accounts.

(** ** The client keeps its session *)

Section client_session.
Context {X : Type} `{!ClientEnv X}.

Definition same_id (c c' : client X) : Prop := c_session_id c' = c_session_id c.
#[local] Instance same_id_preorder : PreOrder same_id.
Proof. unfold same_id. split; [done|]. intros c1 c2 c3 E1 E2. congruence. Qed.

Lemma id_calls {A} (f : X -> A * X) : keeps same_id (calls f).
Proof. intros c. unfold calls. by destruct (f (c_ext c)). Qed.
Lemma id_modify (f : client X -> client X) : (forall c, c_session_id (f c) = c_session_id c) -> keeps same_id (modify f).
Proof. intros H c. apply H. Qed.
Lemma id_pipe_receive n : keeps same_id (pipe_receive (X := X) n).
Proof. intros c. unfold pipe_receive. destruct (c_inbox c) as [|[bytes| |] inbox]; try done. by case_goal. Qed.
#[local] Hint Resolve id_calls id_pipe_receive : keeps.
#[local] Hint Extern 1 (keeps same_id (modify _)) => (apply id_modify; reflexivity) : keeps.

Lemma id_drop : keeps same_id (vw_worker_client_drop_transport (X := X)).
Proof. unfold vw_worker_client_drop_transport. keeps_steps. Qed.
Lemma id_bytes bytes : keeps same_id (client_bytes (X := X) bytes).
Proof. unfold client_bytes. keeps_steps. Qed.
Lemma id_header type len : keeps same_id (client_header (X := X) type len).
Proof. unfold client_header. keeps_steps. Qed.
#[local] Hint Resolve id_drop id_bytes id_header : keeps.
Lemma id_message m cap : keeps same_id (client_message (X := X) m cap).
Proof. unfold client_message, send_or_drop. keeps_steps. Qed.
Lemma id_control wrap reason : keeps same_id (send_control_frame (X := X) wrap reason).
Proof. unfold send_control_frame. keeps_steps. Qed.
#[local] Hint Resolve id_message id_control : keeps.
Lemma id_receive_all len deadline : keeps same_id (receive_all (X := X) len deadline).
Proof.
  assert (forall fuel got, keeps same_id (receive_loop (X := X) fuel len deadline got)) as H.
  { induction fuel as [|fuel IH]; intros got; cbn [receive_loop]; unfold now; keeps_steps. }
  unfold receive_all, receive_fuel. keeps_steps.
Qed.
#[local] Hint Resolve id_receive_all : keeps.

Lemma id_translate e s t mode : keeps same_id (vw_worker_client_send_translate_ctrl (X := X) e s t mode).
Proof. unfold vw_worker_client_send_translate_ctrl. keeps_steps. Qed.
Lemma id_audio chunk : keeps same_id (vw_worker_client_send_audio (X := X) chunk).
Proof. unfold vw_worker_client_send_audio. keeps_steps. Qed.
Lemma id_model_ctrl a m : keeps same_id (vw_worker_client_send_model_ctrl (X := X) a m).
Proof. unfold vw_worker_client_send_model_ctrl. keeps_steps. Qed.
Lemma id_stop reason : keeps same_id (vw_worker_client_stop_session (X := X) reason).
Proof. unfold vw_worker_client_stop_session, in_client_session. keeps_steps. Qed.
Lemma id_pause : keeps same_id (vw_worker_client_pause_session (X := X)).
Proof. unfold vw_worker_client_pause_session, in_client_session. keeps_steps. Qed.
Lemma id_resume : keeps same_id (vw_worker_client_resume_session (X := X)).
Proof. unfold vw_worker_client_resume_session, in_client_session. keeps_steps. Qed.
Lemma id_shutdown : keeps same_id (vw_worker_client_shutdown (X := X)).
Proof. unfold vw_worker_client_shutdown. keeps_steps. Qed.
(** A position that is not a seek. *)
Lemma id_position pts time rate flags :
  Z.land flags VW_POSITION_FLAG_SEEK = 0 -> keeps same_id (vw_worker_client_send_position (X := X) pts time rate flags).
Proof.
  intros H. unfold vw_worker_client_send_position, vw_worker_client_send_position_frame. rewrite H. cbn [Z.eqb negb andb]. keeps_steps.
Qed.
Lemma id_receive_frame timeout : keeps same_id (vw_worker_client_receive_frame (X := X) timeout).
Proof.
  assert (forall len, keeps same_id (receive_bounded (X := X) len)) as Hb
    by (intros len; unfold receive_bounded, vw_worker_client_make_deadline, now; keeps_steps).
  assert (forall deadline, keeps same_id (receive_step (X := X) deadline)) as Hs
    by (intros deadline; unfold receive_step, fresh_frame, note_sequence, fatal_frame; keeps_steps).
  assert (forall fuel deadline, keeps same_id (receive_frame_loop (X := X) fuel deadline)) as Hl.
  { induction fuel as [|fuel IH]; intros deadline; cbn [receive_frame_loop]; unfold now; keeps_steps. }
  unfold vw_worker_client_receive_frame, receive_fuel, vw_worker_client_make_deadline, now. keeps_steps.
Qed.
End client_session.

(** ** The presenter and its pending cue *)

Section presenter_pending.
Context {X : Type} `{!VlcEnv X}.

Definition same_pending (p p' : pstate X) : Prop := pr_pending (p_presenter p') = pr_pending (p_presenter p).
#[local] Instance same_pending_preorder : PreOrder same_pending.
Proof. unfold same_pending. split; [done|]. intros p1 p2 p3 E1 E2. congruence. Qed.
Lemma pending_vlc {A} (f : X -> A * X) : keeps same_pending (vlc f).
Proof. intros p. by rewrite vlc_run. Qed.
Lemma pending_emit e : keeps same_pending (emit (X := X) e).
Proof. intros p. by rewrite emit_run. Qed.
Lemma pending_on (f : vw_caption_presenter_t -> vw_caption_presenter_t) :
  (forall pr, pr_pending (f pr) = pr_pending pr) -> keeps same_pending (on_presenter (X := X) f).
Proof. intros H p. apply H. Qed.
#[local] Hint Resolve pending_vlc pending_emit : keeps.
#[local] Hint Extern 1 (keeps same_pending (on_presenter _)) => (apply pending_on; reflexivity) : keeps.
Lemma pending_find_vout : keeps same_pending (vw_caption_presenter_find_vout (X := X)).
Proof. unfold vw_caption_presenter_find_vout, self. keeps_steps. Qed.
Lemma pending_render_spu v ch text top start stop replace persistent :
  keeps same_pending (vw_caption_presenter_render_spu (X := X) v ch text top start stop replace persistent).
Proof. unfold vw_caption_presenter_render_spu. keeps_steps. Qed.
Lemma pending_release held : keeps same_pending (release (X := X) held).
Proof. unfold release. keeps_steps. Qed.
Lemma pending_flush_channel held ch : keeps same_pending (flush_channel (X := X) held ch).
Proof. unfold flush_channel. keeps_steps. Qed.
#[local] Hint Resolve pending_find_vout pending_render_spu pending_release pending_flush_channel : keeps.
Lemma pending_render seg d t media persistent : keeps same_pending (vw_render (X := X) seg d t media persistent).
Proof.
  unfold vw_render, text_to_render, vw_caption_presenter_get_rate, vw_caption_presenter_display, ensure_channel, register, self.
  keeps_steps.
Qed.
Lemma pending_clear_progress : keeps same_pending (vw_caption_presenter_clear_model_progress (X := X)).
Proof. unfold vw_caption_presenter_clear_model_progress, self. keeps_steps. Qed.
Lemma pending_show_progress progress : keeps same_pending (vw_caption_presenter_show_model_progress (X := X) progress).
Proof.
  unfold vw_caption_presenter_show_model_progress, vw_caption_presenter_register_model_progress_channel, register, self. keeps_steps.
Qed.

Lemma blank_pending p : pr_pending (p_presenter (snd (vw_caption_presenter_blank p))) = None.
Proof.
  unfold vw_caption_presenter_blank. rewrite bind_run, on_presenter_run. cbn [fst snd].
  match goal with |- pr_pending (p_presenter (snd (?m ?q))) = None => assert (keeps same_pending m) as H end.
  { unfold self. keeps_steps. }
  apply H.
Qed.
Lemma flush_pending_none t media p : pr_pending (p_presenter (snd (vw_caption_presenter_flush t media p))) = None.
Proof.
  unfold vw_caption_presenter_flush, self. rewrite bind_run. cbn [fst snd gets].
  destruct (pr_pending (p_presenter p)) as [cue|] eqn:E; [|done]. by rewrite bind_run, bind_run, bind_run, on_presenter_run.
Qed.
Lemma show_paused_pending seg p :
  pr_pending (p_presenter (snd (vw_caption_presenter_show_paused seg p))) = None
  \/ pr_pending (p_presenter (snd (vw_caption_presenter_show_paused seg p))) = pr_pending (p_presenter p).
Proof.
  unfold vw_caption_presenter_show_paused. destruct (seg_text_utf8 seg); [|by right]. left.
  rewrite bind_run, on_presenter_run. cbn [fst snd]. apply pending_render.
Qed.
Lemma show_segment_pending seg t media p cue :
  pr_pending (p_presenter (snd (vw_caption_presenter_show_segment seg t media p))) = Some cue ->
  seg_session_id cue = seg_session_id seg \/ pr_pending (p_presenter p) = Some cue.
Proof.
  unfold vw_caption_presenter_show_segment. destruct (seg_text_utf8 seg); [|by right].
  rewrite !bind_run, on_presenter_run. intros [= <-]. by left.
Qed.
End presenter_pending.

(** ** The invariant *)

(** Each caption counted as received, or as stale, is counted as sent or filtered;
    [k] are still to come. *)
Definition accounts (k : Z) (b : vw_benchmark_t) : Prop :=
  u64 (bm_captions_sent b + bm_captions_filtered b + (if bm_active b then k else 0))
  = u64 (bm_captions_received b + bm_captions_stale b).

(** A cue is drawn while paused only for a seek made since the last one. *)
Fixpoint preview_run (ready : bool) (deeds : list deed) : option bool :=
  match deeds with
  | [] => Some ready
  | ArmedPreview :: deeds => preview_run true deeds
  | DrewCue _ _ true :: deeds => if ready then preview_run false deeds else None
  | _ :: deeds => preview_run ready deeds
  end.
(** The chunks handed to the client. *)
Definition sent_chunks (deeds : list deed) : list vw_audio_chunk_t :=
  omap (fun d => match d with SentChunk chunk => Some chunk | _ => None end) deeds.
(** A cue drawn is of the session of the worker there is, if there is one. *)
Definition drawn_ok (d : deed) : Prop :=
  match d with DrewCue cue (Some session) _ | DrewTail cue (Some session) => seg_session_id cue = session | _ => True end.

Section plugin.
Context {X : Type} `{!PluginEnv X}.
Implicit Types s : plugin X.

Definition presenter_of s : pstate X := mk_pstate (sy_presenter s) (sy_vlc_log s) (sy_ext s).

(** What was captured was taken off the queue, in that order, or is still in it; what
    was sent was taken. *)
Definition queued s : Prop := exists q taken,
  cap_queue (sy_capture s) = Some q /\ spsc_inv q /\ sy_captured s = taken ++ spsc_contents q
  /\ sublist (sent_chunks (sy_deeds s)) taken.

(** With [n] inputs held and [k] captions received and not yet counted. *)
Record sound0 (k n : Z) s : Prop := {
  so_wire c : sy_client s = Some c -> exists fs, wire_of (hello_frame (sy_auth_token s) :: fs) c;
  so_presenter : pinv (presenter_of s);
  so_inputs : sy_inputs_held s = n;
  so_budget : 0 <= ct_respawn_count (sy_counts s) <= VW_MAX_WORKER_RESPAWNS;
  so_accounts : accounts k (sy_benchmark s);
  so_preview : exists ready, preview_run false (sy_deeds s) = Some ready /\ (sy_paused_preview s = true -> ready = true);
  so_drawn : Forall drawn_ok (sy_deeds s);
  so_queue : queued s
}.
(** The cue held back is of this session, unless playback is paused. *)
Definition pending_ok s : Prop :=
  ln_paused (sy_locals s) = false -> forall cue session, pr_pending (sy_presenter s) = Some cue ->
  session_of s = Some session -> seg_session_id cue = session.
(** Nothing is held back that could be drawn. *)
Definition at_rest s : Prop := pr_pending (sy_presenter s) = None \/ ln_paused (sy_locals s) = true.
Lemma rest_pending s : at_rest s -> pending_ok s.
Proof. intros [E|E]; unfold pending_ok; rewrite E; [done|done]. Qed.

(** A call that leaves the session alone. *)
Record calm k s s' : Prop := {
  calm_sound n : sound0 k n s -> sound0 k n s';
  calm_paused : ln_paused (sy_locals s') = ln_paused (sy_locals s);
  calm_pending : pr_pending (sy_presenter s') = None \/ pr_pending (sy_presenter s') = pr_pending (sy_presenter s);
  calm_session : session_of s' = session_of s
}.
(** One that may change it. *)
Record shift k s s' : Prop := {
  shift_sound n : sound0 k n s -> sound0 k n s';
  shift_paused : ln_paused (sy_locals s') = ln_paused (sy_locals s);
  shift_pending : pr_pending (sy_presenter s') = None \/ pr_pending (sy_presenter s') = pr_pending (sy_presenter s)
}.
#[local] Instance calm_preorder k : PreOrder (calm k).
Proof.
  split; [intros s; split; auto|]. intros s1 s2 s3 [A1 A2 A3 A4] [B1 B2 B3 B4].
  split; [eauto|congruence| |congruence]. destruct B3 as [B3|B3]; [by left|]. rewrite B3. destruct A3; auto.
Qed.
#[local] Instance shift_preorder k : PreOrder (shift k).
Proof.
  split; [intros s; split; auto|]. intros s1 s2 s3 [A1 A2 A3] [B1 B2 B3].
  split; [eauto|congruence|]. destruct B3 as [B3|B3]; [by left|]. rewrite B3. destruct A3; auto.
Qed.
Lemma calm_shift {A} k (m : M (plugin X) A) : keeps (calm k) m -> keeps (shift k) m.
Proof. intros H s. destruct (H s). by split. Qed.
Lemma calm_pending_ok k s s' : calm k s s' -> pending_ok s -> pending_ok s'.
Proof.
  intros [_ C2 C3 C4] H. unfold pending_ok in *. rewrite C2, C4. intros Hp cue session. destruct C3 as [->| ->]; [done|]. by apply H.
Qed.
Lemma shift_rest k s s' : shift k s s' -> at_rest s -> at_rest s'.
Proof. intros [_ C2 C3]. unfold at_rest. rewrite C2. intros [H|H]; [left; rewrite <- H; destruct C3; congruence|by right]. Qed.

(** *** Primitive calls *)

Lemma calm_same k s s' :
  sy_client s' = sy_client s -> sy_auth_token s' = sy_auth_token s -> sy_presenter s' = sy_presenter s ->
  sy_vlc_log s' = sy_vlc_log s -> sy_inputs_held s' = sy_inputs_held s ->
  ct_respawn_count (sy_counts s') = ct_respawn_count (sy_counts s) ->
  sy_benchmark s' = sy_benchmark s -> sy_deeds s' = sy_deeds s ->
  cap_queue (sy_capture s') = cap_queue (sy_capture s) -> sy_captured s' = sy_captured s ->
  (sy_paused_preview s' = true -> sy_paused_preview s = true) ->
  ln_paused (sy_locals s') = ln_paused (sy_locals s) -> calm k s s'.
Proof.
  intros E1 E2 E3 E4 E5 E6 E7 E8 E11 E12 E9 E10. split; [|done|right; by rewrite E3|unfold session_of; by rewrite E1].
  intros n [H1 H2 H3 H4 H5 (ready & H6 & H6') H7 H8].
  split; rewrite ?E1, ?E2, ?E5, ?E6, ?E7, ?E8; try done.
  - unfold pinv, presenter_of in *. rewrite E3, E4. destruct H2 as [[I1 I2 I3 I4] S]. by split; [split|].
  - exists ready. auto.
  - unfold queued in *. by rewrite E8, E11, E12.
Qed.
Lemma calm_modify k (f : plugin X -> plugin X) : (forall s, calm k s (f s)) -> keeps (calm k) (modify f).
Proof. intros H s. apply H. Qed.
Lemma calm_sys {A} k (f : X -> A * X) : keeps (calm k) (sys f).
Proof. intros s. unfold sys. destruct (f (sy_ext s)). by apply calm_same. Qed.
Lemma calm_act k (f : X -> X) : keeps (calm k) (act f).
Proof. intros s. by apply calm_same. Qed.
Lemma calm_locals k f : (forall l, ln_paused (f l) = ln_paused l) -> keeps (calm k) (on_locals f).
Proof. intros H s. apply calm_same; try done; apply H. Qed.
Lemma calm_counts k f : (forall c, ct_respawn_count (f c) = ct_respawn_count c) -> keeps (calm k) (on_counts f).
Proof. intros H s. apply calm_same; try done; apply H. Qed.
Lemma calm_cfg k f : keeps (calm k) (on_cfg f).
Proof. intros s. by apply calm_same. Qed.
Lemma calm_bench k f : (forall b, accounts k b -> accounts k (f b)) -> keeps (calm k) (bench f).
Proof.
  intros H s. split; [|done|by right|done]. intros n [H1 H2 H3 H4 H5 H6 H7 H8]. split; try done. by apply H.
Qed.
(** A chunk taken off the queue, and one also sent. *)
Lemma pop_run s q :
  cap_queue (sy_capture s) = Some q ->
  fst (queue_pop s) = fst (vw_spsc_queue_pop q) /\ cap_queue (sy_capture (snd (queue_pop s))) = Some (snd (vw_spsc_queue_pop q))
  /\ sy_captured (snd (queue_pop s)) = sy_captured s /\ sy_deeds (snd (queue_pop s)) = sy_deeds s.
Proof. intros E. unfold queue_pop. rewrite E. by destruct (vw_spsc_queue_pop q). Qed.
Lemma queued_pop s : queued s -> queued (snd (queue_pop s)).
Proof.
  intros (q & taken & E & Hq & Ec & Hs). destruct (pop_run s q E) as (_ & P2 & P3 & P4). pose proof (spsc_pop_spec q Hq) as Hp.
  unfold queued. rewrite P2, P3, P4. destruct (vw_spsc_queue_pop q) as [[c|] q']; cbn [fst snd] in *; destruct Hp as [Hp Hq'].
  - exists q', (taken ++ [c]). split_and!; [done|done|by rewrite Ec, Hp, <- app_assoc|]. etrans; [exact Hs|]. by apply sublist_inserts_r.
  - subst q'. by exists q, taken.
Qed.
Lemma sent_app ds d : sent_chunks (ds ++ [d]) = sent_chunks ds ++ (match d with SentChunk c => [c] | _ => [] end).
Proof. unfold sent_chunks. rewrite omap_app. by destruct d. Qed.
Lemma queued_send s chunk :
  fst (queue_pop s) = Some chunk -> queued s -> queued (snd (did (SentChunk chunk) (snd (queue_pop s)))).
Proof.
  intros Ef (q & taken & E & Hq & Ec & Hs). destruct (pop_run s q E) as (P1 & P2 & P3 & P4). pose proof (spsc_pop_spec q Hq) as Hp.
  rewrite P1 in Ef. unfold queued, did. simpl. rewrite P2, P3, P4, sent_app.
  destruct (vw_spsc_queue_pop q) as [[c|] q']; cbn [fst snd] in *; [|done]. simplify_eq. destruct Hp as [Hp Hq'].
  exists q', (taken ++ [chunk]). split_and!; [done|done|by rewrite Ec, Hp, <- app_assoc|]. by apply sublist_app.
Qed.
Lemma queued_other s d : match d with SentChunk _ => False | _ => True end -> queued s -> queued (snd (did d s)).
Proof. intros Hd. unfold queued, did. simpl. rewrite sent_app. destruct d; [done|by rewrite app_nil_r..]. Qed.
Lemma preview_run_app ready ds es :
  preview_run ready (ds ++ es) = match preview_run ready ds with Some r => preview_run r es | None => None end.
Proof.
  revert ready. induction ds as [|[c|cue o []| |cue o] ds IH]; intros ready; simpl; try done; try apply IH.
  destruct ready; [apply IH|done].
Qed.
Lemma calm_pop k : keeps (calm k) (queue_pop (X := X)).
Proof.
  intros s. assert (forall n, sound0 k n s -> sound0 k n (snd (queue_pop s))) as Hs.
  { intros n [H1 H2 H3 H4 H5 H6 H7 H8]. pose proof (queued_pop s H8) as Hq. unfold queue_pop in *.
    destruct (cap_queue (sy_capture s)) as [q|]; [|done]. by destruct (vw_spsc_queue_pop q). }
  split; [done|..]; unfold queue_pop; destruct (cap_queue (sy_capture s)) as [q|]; try (by destruct (vw_spsc_queue_pop q)); auto.
  destruct (vw_spsc_queue_pop q). by right.
Qed.
Lemma calm_take k s chunk :
  fst (queue_pop s) = Some chunk -> calm k s (snd (did (SentChunk chunk) (snd (queue_pop s)))).
Proof.
  intros Ef. destruct (calm_pop k s) as [C1 C2 C3 C4]. split; [|done..]. intros n H.
  assert (queued s) as Hq by apply H. apply C1 in H. destruct H as [H1 H2 H3 H4 H5 (ready & H6 & H6') H7 _].
  split; try done; [| |by apply queued_send].
  - exists ready. split; [|done]. simpl. by rewrite preview_run_app, H6.
  - simpl. apply Forall_app. by rewrite Forall_singleton.
Qed.

Lemma wire_ext fs (c : client X) x : wire_of fs c -> wire_of fs (c <| c_ext := x |>).
Proof. intros [W1 W2 W3 W4 W5 W6]. by split. Qed.
Lemma client_sound k n s (c c' : client X) :
  sy_client s = Some c -> wires (c <| c_ext := sy_ext s |>) c' -> sound0 k n s ->
  sound0 k n (s <| sy_client := Some c' |> <| sy_ext := c_ext c' |>).
Proof.
  intros Ec Hw [H1 [H2 H2'] H3 H4 H5 H6 H7 H8]. split; try done.
  - intros c0 [= <-]. destruct (H1 c Ec) as [fs W]. apply (wire_ext _ _ (sy_ext s)), Hw in W as [more W]. eexists. exact W.
  - split; [|done]. destruct H2 as [I1 I2 I3 I4]. by split.
Qed.
Lemma calm_client {A} k (none : A) (m : M (client X) A) : keeps wires m -> keeps same_id m -> keeps (calm k) (with_client none m).
Proof.
  intros Hw Hi s. unfold with_client. destruct (sy_client s) as [c|] eqn:Ec; [|reflexivity].
  specialize (Hw (c <| c_ext := sy_ext s |>)). specialize (Hi (c <| c_ext := sy_ext s |>)).
  destruct (m _) as [a c']. cbn [fst snd] in *. split; [intros n; by apply (client_sound _ _ _ c)|done|by right|].
  unfold session_of. rewrite Ec. simpl. by rewrite Hi.
Qed.
Lemma shift_client {A} k (none : A) (m : M (client X) A) : keeps wires m -> keeps (shift k) (with_client none m).
Proof.
  intros Hw s. unfold with_client. destruct (sy_client s) as [c|] eqn:Ec; [|reflexivity].
  specialize (Hw (c <| c_ext := sy_ext s |>)). destruct (m _) as [a c']. cbn [fst snd] in *.
  split; [intros n; by apply (client_sound _ _ _ c)|done|by right].
Qed.
Lemma presenter_sound {A} k n (m : M (pstate X) A) s :
  (forall p, pinv p -> pinv (snd (m p))) -> sound0 k n s -> sound0 k n (snd (with_presenter m s)).
Proof.
  intros Hm [H1 H2 H3 H4 H5 H6 H7 H8]. unfold with_presenter. pose proof (Hm _ H2) as Hp. unfold presenter_of in *.
  destruct (m _) as [a p]. cbn [fst snd] in *. split; try done. by destruct p.
Qed.
Lemma calm_with_presenter {A} k (m : M (pstate X) A) :
  (forall p, pinv p -> pinv (snd (m p))) ->
  (forall p, pr_pending (p_presenter (snd (m p))) = None \/ pr_pending (p_presenter (snd (m p))) = pr_pending (p_presenter p)) ->
  keeps (calm k) (with_presenter m).
Proof.
  intros Hm Hp s. specialize (Hp (presenter_of s)).
  split; [intros n; by apply presenter_sound|..]; unfold with_presenter; unfold presenter_of in Hp; destruct (m _) as [a p]; done.
Qed.
#[local] Hint Resolve calm_sys calm_act calm_cfg calm_pop : keeps.
#[local] Hint Extern 1 (keeps (calm _) (modify _)) => (apply calm_modify; intros; by apply calm_same) : keeps.
#[local] Hint Extern 1 (keeps (calm _) (on_locals _)) => (apply calm_locals; reflexivity) : keeps.
#[local] Hint Extern 1 (keeps (calm _) (on_counts _)) => (apply calm_counts; reflexivity) : keeps.
#[local] Hint Extern 9 (keeps (shift _) _) => (apply calm_shift) : keeps.

(** *** The client's calls *)

Lemma calm_stop k reason : keeps (calm k) (with_client (X := X) tt (vw_worker_client_stop_session reason)).
Proof. apply calm_client; [exact (client_do_wires (StopSession reason))|apply id_stop]. Qed.
Lemma calm_pause k : keeps (calm k) (with_client (X := X) tt vw_worker_client_pause_session).
Proof. apply calm_client; [exact (client_do_wires PauseSession)|apply id_pause]. Qed.
Lemma calm_resume k : keeps (calm k) (with_client (X := X) tt vw_worker_client_resume_session).
Proof. apply calm_client; [exact (client_do_wires ResumeSession)|apply id_resume]. Qed.
Lemma calm_audio k chunk : keeps (calm k) (with_client (X := X) false (vw_worker_client_send_audio chunk)).
Proof. apply calm_client; [apply wires_audio|apply id_audio]. Qed.
Lemma calm_model_ctrl k a m : keeps (calm k) (with_client (X := X) false (vw_worker_client_send_model_ctrl a m)).
Proof. apply calm_client; [apply wires_model_ctrl|apply id_model_ctrl]. Qed.
Lemma calm_receive_frame k timeout :
  keeps (calm k) (with_client (X := X) (VW_IPC_RECV_FATAL, None) (vw_worker_client_receive_frame timeout)).
Proof. apply calm_client; [apply wires_receive_frame|apply id_receive_frame]. Qed.
Lemma calm_translate k : keeps (calm k) (send_translate (X := X)).
Proof. unfold send_translate. keeps_steps. apply calm_client; [apply wires_translate_ctrl|apply id_translate]. Qed.
Lemma calm_position k position_us rate flags :
  Z.land flags VW_POSITION_FLAG_SEEK = 0 -> keeps (calm k) (send_position (X := X) position_us rate flags).
Proof. intros H. apply calm_client; [apply wires_position|by apply id_position]. Qed.
Lemma shift_position k position_us rate flags : keeps (shift k) (send_position (X := X) position_us rate flags).
Proof. apply shift_client, wires_position. Qed.
Lemma shift_start_session k url : keeps (shift k) (start_session (X := X) url).
Proof. unfold start_session. keeps_steps. apply shift_client, wires_start_session. Qed.

(** *** The presenter's *)

Lemma calm_blank k : keeps (calm k) (blank (X := X)).
Proof.
  apply calm_with_presenter; [intros p H; exact (present_pinv Presenter.Blank p H)|intros p; left; apply blank_pending].
Qed.
Lemma calm_clear_progress k : keeps (calm k) (clear_progress (X := X)).
Proof.
  apply calm_with_presenter; [intros p H; exact (present_pinv ClearProgress p H)|intros p; right; apply pending_clear_progress].
Qed.
Lemma calm_show_progress k progress : keeps (calm k) (with_presenter (X := X) (vw_caption_presenter_show_model_progress progress)).
Proof.
  apply calm_with_presenter; [intros p; apply show_progress_pinv|intros p; right; apply pending_show_progress].
Qed.
#[local] Hint Resolve calm_stop calm_pause calm_resume calm_audio calm_model_ctrl calm_receive_frame calm_translate
  calm_blank calm_clear_progress calm_show_progress shift_position shift_start_session : keeps.

(** *** The report *)


Lemma accounts_same k b b' :
  bm_captions_sent b' = bm_captions_sent b -> bm_captions_filtered b' = bm_captions_filtered b ->
  bm_captions_received b' = bm_captions_received b -> bm_captions_stale b' = bm_captions_stale b ->
  bm_active b' = bm_active b -> accounts k b -> accounts k b'.
Proof. unfold accounts. by intros -> -> -> -> ->. Qed.
Ltac same_accounts := apply accounts_same; unfold bump; repeat (case_goal || case_match); simpl; congruence.
Lemma accounts_reset k b : accounts k b -> accounts k (vw_benchmark_reset_live_clock b).
Proof. same_accounts. Qed.
Lemma accounts_audio k start d now b : accounts k b -> accounts k (vw_benchmark_record_audio start d now b).
Proof. unfold vw_benchmark_record_audio. same_accounts. Qed.
Lemma accounts_frame k b : accounts k b -> accounts k (vw_benchmark_record_frame b).
Proof. unfold vw_benchmark_record_frame. same_accounts. Qed.
Lemma accounts_translation k tier latency ok b : accounts k b -> accounts k (vw_benchmark_record_translation tier latency ok b).
Proof. unfold vw_benchmark_record_translation. same_accounts. Qed.
Lemma accounts_failure k code b : accounts k b -> accounts k (vw_benchmark_record_translation_failure code b).
Proof. unfold vw_benchmark_record_translation_failure. same_accounts. Qed.
Lemma accounts_status k status b : accounts k b -> accounts k (vw_benchmark_update_status status b).
Proof. unfold vw_benchmark_update_status, record_dropped_audio, record_inference. same_accounts. Qed.

Lemma accounts_zero : accounts 0 benchmark_zero.
Proof. done. Qed.
Lemma accounts_begin model backend now b x :
  accounts 0 b -> accounts 0 (snd (fst (vw_benchmark_begin (X := X) model backend now b x))).
Proof.
  intros H. unfold vw_benchmark_begin. case_goal; [done|]. rewrite bind_run.
  destruct (fst (vw_benchmark_resolve_report_path x)) as [path|]; [|done]. rewrite bind_run.
  destruct (fst (vw_benchmark_write _ _ _ _)); done.
Qed.
Lemma accounts_flush k now b x : accounts k b -> accounts k (fst (vw_benchmark_flush_if_due (X := X) now b x)).
Proof.
  intros H. unfold vw_benchmark_flush_if_due. repeat (case_goal; [done|]). rewrite bind_run.
  cbn [fst snd mret M_ret]. destruct (fst (vw_benchmark_write _ _ _ _)); done.
Qed.
Lemma u64_congr a b n : u64 a = u64 b -> u64 (a + n) = u64 (b + n).
Proof. unfold u64. intros H. by rewrite <- Zplus_mod_idemp_l, H, Zplus_mod_idemp_l. Qed.
Lemma accounts_stale b : accounts 0 b -> accounts 0 (vw_benchmark_record_caption_filtered false true false b).
Proof.
  unfold accounts, vw_benchmark_record_caption_filtered. destruct (bm_active b) eqn:E; cbn [negb]; [|by rewrite E].
  unfold bump. cbn -[u64]. rewrite E. intros H. apply (u64_congr _ _ 1) in H. rewrite !Z.add_0_r in *.
  unfold u64 in *. rewrite Zplus_mod_idemp_r, Zplus_mod_idemp_r, !Z.add_assoc. exact H.
Qed.
Lemma accounts_done b (f : vw_benchmark_t -> vw_benchmark_t) :
  (bm_active b = false -> f b = b) ->
  (bm_active b = true -> bm_active (f b) = true
    /\ u64 (bm_captions_sent (f b) + bm_captions_filtered (f b)) = u64 (bm_captions_sent b + bm_captions_filtered b + 1)
    /\ bm_captions_received (f b) = bm_captions_received b /\ bm_captions_stale (f b) = bm_captions_stale b) ->
  accounts 1 b -> accounts 0 (f b).
Proof.
  unfold accounts. intros Hf Ht. destruct (bm_active b) eqn:E; [|rewrite Hf, E by done; done].
  destruct Ht as (-> & E1 & -> & ->); [done|]. by rewrite Z.add_0_r, E1.
Qed.
Lemma accounts_sent now b : accounts 1 b -> accounts 0 (vw_benchmark_record_caption_sent now b).
Proof.
  apply accounts_done; unfold vw_benchmark_record_caption_sent; intros E; rewrite E; cbn [negb]; [done|].
  unfold bump. case_goal; cbn -[u64]; rewrite E; split_and!; try done; unfold u64; rewrite Zplus_mod_idemp_l; f_equal; lia.
Qed.
Lemma accounts_filtered paused rejected b : accounts 1 b -> accounts 0 (vw_benchmark_record_caption_filtered paused false rejected b).
Proof.
  apply accounts_done; unfold vw_benchmark_record_caption_filtered; intros E; rewrite E; cbn [negb]; [done|].
  unfold bump. destruct paused, rejected; cbn -[u64]; rewrite E; split_and!; try done; unfold u64; rewrite Zplus_mod_idemp_r; f_equal; lia.
Qed.
Lemma accounts_received seg now source b : accounts 0 b -> accounts 1 (vw_benchmark_record_caption_received seg now source b).
Proof.
  unfold vw_benchmark_record_caption_received. set (b0 := b <| bm_last_segment_id := _ |> <| _ := _ |> <| _ := _ |>).
  intros H. assert (accounts 0 b0) as H0 by exact H. clearbody b0. clear H. destruct (bm_active b0) eqn:E; cbn [negb].
  2:{ unfold accounts in *. by rewrite E in *. }
  enough (accounts 1 (bump bm_captions_received 1 b0)) as H1.
  { unfold record_latency. revert H1. generalize (bump bm_captions_received 1 b0) as b1. intros b1 H1.
    repeat (case_goal || case_match); revert H1; same_accounts. }
  unfold accounts, bump in *. cbn -[u64]. rewrite E in *. rewrite Z.add_0_r in H0. apply (u64_congr _ _ 1) in H0. rewrite H0.
  unfold u64. rewrite <- (Zplus_mod_idemp_l (_ mod _)), Zmod_mod, Zplus_mod_idemp_l. f_equal. lia.
Qed.
Lemma calm_bench_io k (f : vw_benchmark_t -> M X vw_benchmark_t) :
  (forall b x, accounts k b -> accounts k (fst (f b x))) -> keeps (calm k) (bench_io f).
Proof.
  intros Hf s. unfold bench_io. rewrite bind_run. cbn [fst snd gets]. rewrite bind_run.
  assert (calm k s (snd (sys (f (sy_benchmark s)) s))) as [H1 H2 H3 H4] by apply calm_sys.
  pose proof (Hf (sy_benchmark s) (sy_ext s)) as Ha. unfold sys in *. destruct (f (sy_benchmark s) (sy_ext s)) as [b x].
  cbn [fst snd] in *. split; [|done..]. intros n H. destruct (H1 n H) as [? ? ? ? Hb ? ? ?]. split; try done. by apply Ha.
Qed.
Lemma calm_begin : keeps (calm 0) (begin_benchmark (X := X)).
Proof.
  unfold begin_benchmark, monotonic. keeps_steps. apply calm_bench_io. intros b x Hb. rewrite bind_run.
  pose proof (accounts_begin (vw_plugin_catalog_id_from_path (sy_model_path a)) (snap_backend (sy_cfg a)) a0 b x Hb) as H.
  by destruct (vw_benchmark_begin _ _ _ _ _) as [[ok b'] x'].
Qed.
Lemma calm_flush_report k now : keeps (calm k) (bench_io (X := X) (vw_benchmark_flush_if_due now)).
Proof. apply calm_bench_io. intros b x. apply accounts_flush. Qed.
#[local] Hint Resolve calm_begin calm_flush_report : keeps.
#[local] Hint Resolve accounts_reset accounts_audio accounts_frame accounts_translation accounts_failure accounts_status
  accounts_stale : accounts.
#[local] Hint Extern 1 (keeps (calm _) (bench _)) => (apply calm_bench; auto with accounts; done) : keeps.

(** ** The sender's operations *)

Lemma calm_drain k : keeps (calm k) (drain_queue (X := X)).
Proof.
  assert (forall fuel, keeps (calm k) (drain_loop (X := X) fuel)) as H.
  { induction fuel as [|fuel IH]; cbn [drain_loop]; keeps_steps. }
  unfold drain_queue. keeps_steps.
Qed.
#[local] Hint Resolve calm_drain : keeps.
Lemma calm_request k request : keeps (calm k) (vw_plugin_send_model_request (X := X) request).
Proof. unfold vw_plugin_send_model_request, put_psz, put_int. keeps_steps. Qed.
Lemma calm_fail_request k : keeps (calm k) (fail_request (X := X)).
Proof. unfold fail_request, worker_died, put_psz. keeps_steps. Qed.
Lemma calm_note_started k started : keeps (calm k) (note_started (X := X) started).
Proof. unfold note_started. keeps_steps. Qed.
#[local] Hint Resolve calm_request calm_fail_request calm_note_started : keeps.
Lemma calm_push k forget : keeps (calm k) (push_translation (X := X) forget).
Proof. unfold push_translation, worker_died, put_int. keeps_steps. Qed.
Lemma calm_read_settings k : keeps (calm k) (read_settings (X := X)).
Proof. unfold read_settings, psz, int. keeps_steps. Qed.
#[local] Hint Resolve calm_push calm_read_settings : keeps.
Lemma calm_first_snapshot k now : keeps (calm k) (first_snapshot (X := X) now).
Proof. unfold first_snapshot. keeps_steps. Qed.
Lemma calm_poll_request k c : keeps (calm k) (poll_model_request (X := X) c).
Proof. unfold poll_model_request. keeps_steps. Qed.
Lemma calm_report_position k pb rate : keeps (calm k) (report_position (X := X) pb rate).
Proof.
  unfold report_position, worker_died. keeps_steps. apply calm_position. by case_goal.
Qed.
#[local] Hint Resolve calm_first_snapshot calm_poll_request calm_report_position : keeps.
Lemma calm_follow_rate k pb rate : keeps (calm k) (follow_rate (X := X) pb rate).
Proof. unfold follow_rate. keeps_steps. Qed.
Lemma calm_pause_edge k paused position : keeps (calm k) (pause_edge (X := X) paused position).
Proof. unfold pause_edge, signal_seek. keeps_steps. Qed.
Lemma calm_watch k paused position rate : keeps (calm k) (watch_position (X := X) paused position rate).
Proof. unfold watch_position, signal_seek. keeps_steps. Qed.
Lemma calm_drain_invalid k : keeps (calm k) (drain_invalid (X := X)).
Proof. unfold drain_invalid. keeps_steps. Qed.
#[local] Hint Resolve calm_follow_rate calm_pause_edge calm_watch calm_drain_invalid : keeps.
Lemma calm_send_queue k : keeps (calm k) (send_queue (X := X)).
Proof.
  assert (forall forward, keeps (calm k) (send_chunk (X := X) forward)) as Hc.
  { intros forward s. unfold send_chunk. rewrite bind_run. destruct (fst (queue_pop s)) as [chunk|] eqn:E; [|apply calm_pop].
    destruct forward; [|apply calm_pop]. cbn [negb]. rewrite bind_run. etrans; [apply (calm_take k s chunk E)|].
    match goal with |- calm _ _ (snd (?m _)) => assert (keeps (calm k) m) as Hm by (unfold worker_died, monotonic; keeps_steps) end.
    apply Hm. }
  assert (forall fuel forward any, keeps (calm k) (send_loop (X := X) fuel forward any)) as Hl.
  { induction fuel as [|fuel IH]; intros forward any; cbn [send_loop]; keeps_steps. }
  unfold send_queue. keeps_steps.
Qed.
Lemma calm_receive k timeout : keeps (calm k) (receive (X := X) timeout).
Proof. unfold receive. keeps_steps. Qed.
Lemma calm_status k status : keeps (calm k) (on_status (X := X) status).
Proof. unfold on_status, put_psz. keeps_steps. Qed.
Lemma calm_error k err : keeps (calm k) (on_error (X := X) err).
Proof. unfold on_error, worker_died. keeps_steps. Qed.
Lemma calm_lost k : keeps (calm k) (lost_worker (X := X)).
Proof. unfold lost_worker, worker_died, put_psz. keeps_steps. Qed.
#[local] Hint Resolve calm_send_queue calm_receive calm_status calm_error calm_lost : keeps.

(** *** Inputs *)

Lemma sound_inputs k n d s : sound0 k n s -> sound0 k (n + d) (s <| sy_inputs_held := sy_inputs_held s + d |>).
Proof. intros [H1 H2 H3 H4 H5 H6 H7 H8]. split; try done. simpl. by rewrite H3. Qed.
(** Finding an input counts it, and nothing else. *)
Lemma find_input_spec k s :
  let r := vw_plugin_find_input s in
  exists s', calm k s s' /\ snd r = match fst r with Some _ => s' <| sy_inputs_held := sy_inputs_held s' + 1 |> | None => s' end.
Proof.
  unfold vw_plugin_find_input. rewrite bind_run. exists (snd (sys vlc_ancestors s)). split; [apply calm_sys|].
  by destruct (first_some node_input _).
Qed.
Lemma release_input_spec input s :
  snd (release_input input s) = match input with Some _ => s <| sy_inputs_held := sy_inputs_held s - 1 |> | None => s end.
Proof. by destruct input. Qed.

(** What keeps the invariant, and what is held back in order. *)
Definition steady s s' : Prop := forall n, sound0 0 n s /\ pending_ok s -> sound0 0 n s' /\ pending_ok s'.
#[local] Instance steady_preorder : PreOrder steady.
Proof. split; [intros s n H; exact H|]. intros s1 s2 s3 H1 H2 n H. apply H2, H1, H. Qed.
Lemma calm_steady {A} (m : M (plugin X) A) : keeps (calm 0) m -> keeps steady m.
Proof. intros H s n [Hs Hp]. destruct (H s) as [H1 H2 H3 H4] eqn:E. split; [auto|]. eapply calm_pending_ok; [|done]. by split. Qed.
#[local] Hint Extern 9 (keeps steady _) => (apply calm_steady) : keeps.

(** Between finding an input and giving it back. *)
Lemma steady_input {A} (body : option vlc_object -> M (plugin X) A) :
  (forall input, keeps steady (body input)) ->
  keeps steady (input ← vw_plugin_find_input; r ← body input; release_input input ;; mret r).
Proof.
  intros Hb s n H. rewrite !bind_run. destruct (find_input_spec 0 s) as (s1 & Hc & E). cbn [fst snd] in *. rewrite E.
  assert (sound0 0 n s1 /\ pending_ok s1) as [H1 P1] by (destruct H; split; [by apply Hc|by eapply calm_pending_ok]).
  cbn [snd mret M_ret]. rewrite release_input_spec. destruct (fst (vw_plugin_find_input s)) as [o|]; [|by apply Hb].
  destruct (Hb (Some o) (s1 <| sy_inputs_held := sy_inputs_held s1 + 1 |>) (n + 1)) as [H2 P2]; [split; [by apply sound_inputs|done]|].
  split; [|done]. apply (sound_inputs _ _ (-1)) in H2. replace (n + 1 + -1) with n in H2 by lia. exact H2.
Qed.
Lemma calm_source_url k : keeps (calm k) (source_url (X := X)).
Proof.
  intros s. unfold source_url. rewrite !bind_run. destruct (find_input_spec k s) as (s1 & Hc & E). cbn [fst snd gets mret M_ret] in *.
  rewrite E, release_input_spec. destruct (fst (vw_plugin_find_input s)) as [o|]; [|done].
  destruct Hc as [C1 C2 C3 C4]. split; [|done..]. intros n H. apply C1, (sound_inputs _ _ 1), (sound_inputs _ _ (-1)) in H.
  replace (n + 1 + -1) with n in H by lia. exact H.
Qed.
#[local] Hint Resolve calm_source_url : keeps.

(** *** Sessions *)

Lemma calm_clears k s s' : calm k s s' -> pr_pending (sy_presenter s) = None -> pr_pending (sy_presenter s') = None.
Proof. intros [_ _ C3 _] H. destruct C3; congruence. Qed.
(** After the screen is blanked the session may change. *)
Lemma blank_clears s : pr_pending (sy_presenter (snd (blank s))) = None.
Proof.
  unfold blank, with_presenter. pose proof (blank_pending (mk_pstate (sy_presenter s) (sy_vlc_log s) (sy_ext s))) as H.
  by destruct (vw_caption_presenter_blank _).
Qed.
Lemma blank_rest s : at_rest (snd (blank s)).
Proof. left. apply blank_clears. Qed.
Lemma blank_then {A} (m : M (plugin X) A) s n :
  keeps (shift 0) m -> sound0 0 n s -> sound0 0 n (snd ((blank ;; m) s)) /\ pending_ok (snd ((blank ;; m) s)).
Proof.
  intros Hm H. rewrite bind_run. destruct (calm_blank 0 s) as [B1 _ _ _]. pose proof (blank_rest s) as Hr.
  pose proof (Hm (snd (blank s))) as Hs. split; [by apply Hs, B1|]. eapply rest_pending, shift_rest; [exact Hs|done].
Qed.
Lemma steady_blank {A} (m : M (plugin X) A) : keeps (shift 0) m -> keeps steady (blank ;; m).
Proof. intros Hm s n [H _]. by apply blank_then. Qed.

Lemma shift_swap_session uri : keeps (shift 0)
  (with_client (X := X) tt (vw_worker_client_stop_session VW_CTRL_REASON_MEDIA_END) ;;
   drain_queue ;;
   modify (fun s => s <| sy_active_source_url := uri |>) ;;
   started ← start_session (match uri with [] => None | _ => Some uri end);
   if started : bool then
     note_started true ;;
     on_locals (fun l => l <| ln_last_position_us := -1 |> <| ln_paused_position_us := -1 |>)
   else note_started false).
Proof. keeps_steps. Qed.
#[local] Hint Extern 1 (keeps steady (blank ;; _)) => (apply steady_blank) : keeps.
Lemma steady_swap uri : keeps steady (swap_media (X := X) uri).
Proof.
  unfold swap_media, reset_preview. do 3 (apply (keeps_bind steady); [solve [auto with keeps]|intros []]).
  apply steady_blank, shift_swap_session.
Qed.
#[local] Hint Resolve steady_swap : keeps.
Lemma steady_poll now show : keeps steady (poll_input (X := X) now show).
Proof.
  unfold poll_input. apply (keeps_bind steady); [auto with keeps|intros []]. apply steady_input. intros input.
  unfold examine_input, detect_swap, store_playback_rate, set_capture_atomics. keeps_steps.
Qed.
#[local] Hint Resolve steady_poll : keeps.
Lemma steady_look show : keeps steady (look (X := X) show).
Proof. unfold look, monotonic. keeps_steps. Qed.

(** Pausing and going on. *)
Lemma sound_locals k n f s : sound0 k n s -> sound0 k n (s <| sy_locals := f (sy_locals s) |>).
Proof. intros [H1 H2 H3 H4 H5 H6 H7 H8]. by split. Qed.
Lemma steady_pause_transition pb : keeps steady (pause_transition (X := X) pb).
Proof.
  intros s n [H P]. unfold pause_transition. rewrite bind_run. cbn [fst snd gets].
  destruct (Bool.eqb (pb_paused pb) _); [done|]. rewrite bind_run. destruct (pb_paused pb) eqn:Ep.
  - match goal with |- context [snd ((if pb_preview pb then ?a else ?b) s)] => set (m := if pb_preview pb then a else b) end.
    assert (keeps (calm 0) m) as Hm by (subst m; unfold signal_seek; keeps_steps).
    split; [by apply sound_locals, Hm|]. by apply rest_pending; right.
  - rewrite bind_run.
    destruct (blank_then (with_client tt vw_worker_client_resume_session) (snd (reset_preview s)) n) as [H2 _];
      [keeps_steps|by apply (calm_modify 0); [intros; by apply calm_same|]|].
    split; [by apply sound_locals|]. apply rest_pending. left. rewrite !bind_run.
    change (pr_pending (sy_presenter (snd (with_client tt vw_worker_client_resume_session
      (snd (blank (snd (reset_preview s))))))) = None).
    apply (calm_clears 0 (snd (blank (snd (reset_preview s))))); [apply calm_resume|apply blank_clears].
Qed.
#[local] Hint Resolve steady_look steady_pause_transition : keeps.

(** *** Seeks *)

(** The preview is made ready and that is noted. *)
Lemma calm_arm k : keeps (calm k) (modify (fun s => s <| sy_paused_preview := true |>) ;; did (X := X) ArmedPreview).
Proof.
  intros s. split; [|done|by right|done]. intros n [H1 H2 H3 H4 H5 (ready & H6 & H6') H7 H8]. split; try done; simpl.
  - exists true. by rewrite preview_run_app, H6.
  - apply Forall_app. by rewrite Forall_singleton.
  - by apply (queued_other s ArmedPreview).
Qed.
Lemma shift_restart_live target : keeps (shift 0) (restart_live (X := X) target).
Proof. unfold restart_live. keeps_steps. Qed.
Lemma shift_seek_source target preview : keeps (shift 0) (seek_source (X := X) target preview).
Proof. unfold seek_source, worker_died. keeps_steps. Qed.
#[local] Hint Resolve calm_arm shift_restart_live shift_seek_source : keeps.

Lemma rest_then {A} (m : M (plugin X) A) s n :
  keeps (shift 0) m -> at_rest s -> sound0 0 n s -> sound0 0 n (snd (m s)) /\ pending_ok (snd (m s)).
Proof. intros Hm Hr H. split; [by apply Hm|]. eapply rest_pending, shift_rest; [apply Hm|done]. Qed.
Lemma steady_discontinuity show : keeps steady (handle_discontinuity (X := X) show).
Proof.
  intros s n [H P]. unfold handle_discontinuity. rewrite bind_run. cbn [fst snd gets].
  destruct (sy_discontinuity_pending s); [|done]. cbn [when]. cbv zeta.
  set (preview := ln_paused (sy_locals s) && sy_source_mode_active s && show).
  set (s1 := s <| sy_discontinuity_pending := false |>).
  assert (sound0 0 n s1) as H1 by (revert H; apply (calm_same 0 s s1); done).
  rewrite bind_run. change (snd (modify _ s)) with s1. rewrite bind_run.
  match goal with |- context [snd ((if preview then ?a else ?b) s1)] => set (m := if preview then a else b) end.
  assert (keeps (calm 0) m) as Hm by (subst m; destruct preview; [apply calm_arm|unfold reset_preview; keeps_steps]).
  assert (at_rest (snd (m s1))) as Hr.
  { subst m. destruct preview eqn:E.
    - right. apply andb_prop in E as [[E _]%andb_prop _]. simpl. done.
    - left. rewrite bind_run. change (pr_pending (sy_presenter (snd (blank s1))) = None). apply blank_clears. }
  apply rest_then; [|done|by apply Hm]. unfold request_capture_reset, set_capture_atomics. keeps_steps.
Qed.
#[local] Hint Resolve steady_discontinuity : keeps.

(** *** Replacing the worker *)

Lemma launched_wire (x x' : X) exe endpoint tok model backend lang threads gpu dir log c :
  vw_worker_client_launch_and_connect_ex exe endpoint tok model backend lang threads gpu dir log x = (Some c, x') ->
  exists fs, wire_of (hello_frame tok :: fs) c.
Proof.
  intros H. apply launched_handshake in H as (process & inbox & x0 & H). by eapply handshake_wire.
Qed.
Lemma auto_retry_wire worker endpoint tok model backend lang threads gpu dir log configured (x x' : X) c :
  vw_plugin_launch_with_auto_retry worker endpoint tok model backend lang threads gpu dir log configured x = (Some c, x') ->
  exists fs, wire_of (hello_frame tok :: fs) c.
Proof.
  unfold vw_plugin_launch_with_auto_retry, launch_or_cpu. rewrite bind_run.
  destruct (vw_worker_client_launch_and_connect_ex (match worker with [] => _ | _ => _ end) _ _ _ _ _ _ _ _ _ x) as [[c1|] x1] eqn:E;
    cbn [fst snd]; [intros [= -> ->]; by eapply launched_wire|].
  case_goal; [done|]. case_goal; [done|]. rewrite bind_run.
  destruct (fst (vw_plugin_resolve_cpu_worker_path _ x1)) as [[|z cpu]|]; [done| |done].
  destruct (bool_decide (z :: cpu = worker)); [done|]. apply launched_wire.
Qed.

Lemma shift_give_up : keeps (shift 0) (give_up_client (X := X)).
Proof.
  intros s. unfold give_up_client. rewrite bind_run. cbn [fst snd gets]. destruct (sy_client s) as [c|]; [|reflexivity].
  rewrite bind_run. match goal with |- context [snd (when ?b ?m s)] => assert (keeps (calm 0) (when b m)) as Hm end.
  { unfold put_psz. keeps_steps. }
  specialize (Hm s). match goal with |- context [snd (when ?b ?m s)] => set (s1 := snd (when b m s)) in * end.
  clearbody s1. destruct Hm as [C1 C2 C3 _]. rewrite bind_run. split; [|done|done]. intros n H.
  apply C1 in H. destruct H as [H1 [[I1 I2 I3 I4] S1] H3 H4 H5 H6 H7 H8]. by split; [|split; [split|]|..].
Qed.
(** A new worker has its greeting behind it. *)
Lemma shift_set_client client s :
  (forall c, client = Some c -> exists fs, wire_of (hello_frame (sy_auth_token s) :: fs) c) ->
  shift 0 s (s <| sy_client := client |>).
Proof. intros Hc. split; [|done|by right]. intros n [H1 [[I1 I2 I3 I4] S1] H3 H4 H5 H6 H7 H8]. by split; [|split; [split|]|..]. Qed.
Lemma shift_launch : keeps (shift 0) (launch_again (X := X)).
Proof.
  unfold launch_again, psz, int. do 8 (apply (keeps_bind (shift 0)); [keeps_steps|intros ?]).
  apply (keeps_bind (shift 0)); [keeps_steps|intros []]. intros s. rewrite bind_run. cbn [fst snd gets]. rewrite bind_run.
  unfold sys. destruct (vw_plugin_launch_with_auto_retry _ _ _ _ _ _ _ _ _ _ _ _) as [client x] eqn:E. cbn [fst snd].
  etrans; [|apply shift_set_client; intros c ->; by eapply auto_retry_wire].
  apply (calm_shift 0 (act (fun _ => x))); [apply calm_act].
Qed.
Lemma shift_restart_session paused : keeps (shift 0) (restart_session (X := X) paused).
Proof. unfold restart_session. keeps_steps. Qed.
Lemma shift_first_session : keeps (shift 0) (first_session (X := X)).
Proof. unfold first_session. keeps_steps. Qed.
Lemma restart_session_spec paused s n :
  sound0 0 n s -> sound0 0 n (snd (restart_session paused s)) /\ pending_ok (snd (restart_session paused s)).
Proof.
  intros H. unfold restart_session. rewrite bind_run. apply blank_then; [|by apply calm_source_url]. keeps_steps.
Qed.
Lemma sound_count k n s :
  sound0 k n s -> ct_respawn_count (sy_counts s) < VW_MAX_WORKER_RESPAWNS ->
  sound0 k n (snd (on_counts (fun c => c <| ct_respawn_count := u32 (ct_respawn_count c + 1) |>) s)).
Proof.
  intros [H1 H2 H3 H4 H5 H6 H7 H8] Hlt. split; try done. simpl. unfold VW_MAX_WORKER_RESPAWNS in *. rewrite u32_id; [lia|].
  unfold is_unsigned. lia.
Qed.
Lemma steady_respawn paused recovery : keeps steady (vw_plugin_respawn_worker (X := X) paused recovery).
Proof.
  intros s n [H P]. unfold vw_plugin_respawn_worker. rewrite bind_run. set (s1 := snd (reset_preview s)).
  assert (calm 0 s s1) as Hc by by apply calm_same.
  assert (sound0 0 n s1 /\ pending_ok s1) as [H1 P1] by (split; [by apply Hc|by eapply calm_pending_ok]). clearbody s1.
  rewrite bind_run. cbn [fst snd gets].
  destruct (recovery && (VW_MAX_WORKER_RESPAWNS <=? ct_respawn_count (sy_counts s1))) eqn:Eb; [done|]. rewrite bind_run.
  match goal with |- context [snd (when recovery ?m s1)] => set (s2 := snd (when recovery m s1)) end.
  assert (sound0 0 n s2) as H2.
  { subst s2. destruct recovery; [|done]. cbn [when andb] in *. apply Z.leb_gt in Eb. by apply sound_count. }
  clearbody s2. clear s H P Hc s1 H1 P1 Eb. rewrite !bind_run.
  match goal with |- context [snd (launch_again ?q)] => assert (sound0 0 n (snd (launch_again q))) as H3 end.
  { apply shift_launch. apply (calm_act 0). apply (calm_modify 0); [intros; by apply calm_same|]. by apply shift_give_up. }
  match goal with |- context [snd (launch_again ?q)] => set (s3 := snd (launch_again q)) in * end. clearbody s3.
  cbn [fst snd gets]. destruct (sy_client s3) as [c|] eqn:Ec; [by apply restart_session_spec|].
  split; [done|]. unfold pending_ok, session_of. simpl. by rewrite Ec.
Qed.
#[local] Hint Resolve steady_respawn : keeps.
Lemma steady_activate model paused : keeps steady (vw_plugin_activate_downloaded_model (X := X) model paused).
Proof. unfold vw_plugin_activate_downloaded_model, put_psz. keeps_steps. Qed.
#[local] Hint Resolve steady_activate : keeps.
Lemma steady_progress progress : keeps steady (on_progress (X := X) progress).
Proof. unfold on_progress, put_psz, put_int. keeps_steps. Qed.
Lemma calm_paths k c : keeps (calm k) (modify (configured_paths (X := X) c)).
Proof.
  apply calm_modify. intros s. unfold configured_paths.
  destruct (set_wp c) as [[|z wp]|], (set_mp c) as [mp|]; repeat case_goal; by apply calm_same.
Qed.
#[local] Hint Resolve calm_paths : keeps.
Lemma steady_config : keeps steady (config_step (X := X)).
Proof. unfold config_step, poll_settings, apply_settings, monotonic. keeps_steps. Qed.
Lemma steady_idle : keeps steady (idle (X := X)).
Proof. unfold idle, monotonic. keeps_steps. Qed.
#[local] Hint Resolve steady_progress steady_config steady_idle : keeps.

(** *** Captions *)

(** A cue drawn while playing, of the session there is. *)
Lemma sound_drew k n cue s :
  sound0 k n s -> ln_paused (sy_locals s) = false ->
  (forall session, session_of s = Some session -> seg_session_id cue = session) ->
  sound0 k n (snd (drew (Some cue) s)).
Proof.
  intros [H1 H2 H3 H4 H5 (ready & H6 & H6') H7 H8] Hp Hs. unfold drew, did. rewrite Hp. split; try done; simpl.
  - exists ready. by rewrite preview_run_app, H6.
  - apply Forall_app. rewrite Forall_singleton. split; [done|]. simpl. by destruct (session_of s); [apply Hs|].
  - by apply (queued_other s (DrewCue cue (session_of s) false)).
Qed.
(** One drawn in a pause, with the preview that was ready. *)
Lemma sound_drew_preview k n cue s :
  sound0 k n s -> ln_paused (sy_locals s) = true -> sy_paused_preview s = true ->
  (forall session, session_of s = Some session -> seg_session_id cue = session) ->
  sound0 k n (snd ((reset_preview ;; drew (Some cue)) s)).
Proof.
  intros [H1 H2 H3 H4 H5 (ready & H6 & H6') H7 H8] Hp Hv Hs. rewrite bind_run. unfold drew, did, reset_preview. simpl. rewrite Hp.
  split; try done; simpl.
  - exists false. by rewrite preview_run_app, H6, (H6' Hv).
  - apply Forall_app. rewrite Forall_singleton. split; [done|]. simpl. unfold session_of in *. simpl.
    destruct (option_map _ _); [by apply Hs|done].
  - by apply (queued_other s (DrewCue cue (session_of s) true)).
Qed.
Lemma drew_state cue s :
  pr_pending (sy_presenter (snd (drew cue s))) = pr_pending (sy_presenter s)
  /\ ln_paused (sy_locals (snd (drew cue s))) = ln_paused (sy_locals s) /\ session_of (snd (drew cue s)) = session_of s.
Proof. by destruct cue. Qed.
Lemma with_presenter_state {A} (m : M (pstate X) A) s :
  ln_paused (sy_locals (snd (with_presenter m s))) = ln_paused (sy_locals s)
  /\ session_of (snd (with_presenter m s)) = session_of s
  /\ pr_pending (sy_presenter (snd (with_presenter m s))) = pr_pending (p_presenter (snd (m (presenter_of s)))).
Proof. unfold with_presenter, presenter_of. by destruct (m _). Qed.

(** What is held back, when playing. *)
Lemma sound_drew_pending k n s :
  sound0 k n s -> pending_ok s -> ln_paused (sy_locals s) = false -> sound0 k n (snd (drew (pr_pending (sy_presenter s)) s)).
Proof.
  intros H P Hp. destruct (pr_pending (sy_presenter s)) as [cue|] eqn:E; [|done]. apply sound_drew; try done.
  intros session. by apply P.
Qed.
Lemma flush_pending_spec k n t media s :
  sound0 k n s -> pending_ok s -> ln_paused (sy_locals s) = false ->
  sound0 k n (snd (flush_pending t media s)) /\ pending_ok (snd (flush_pending t media s)).
Proof.
  intros H P Hp. unfold flush_pending. rewrite !bind_run. cbn [fst snd gets]. split.
  - apply presenter_sound; [intros p; apply flush_pinv|by apply sound_drew_pending].
  - apply rest_pending. left. destruct (with_presenter_state (vw_caption_presenter_flush t media)
      (snd (drew (pr_pending (sy_presenter s)) s))) as (_ & _ & ->). apply flush_pending_none.
Qed.
Lemma show_segment_spec k n seg t media s :
  sound0 k n s -> pending_ok s -> ln_paused (sy_locals s) = false ->
  (forall session, session_of s = Some session -> seg_session_id seg = session) ->
  sound0 k n (snd (show_segment seg t media s)) /\ pending_ok (snd (show_segment seg t media s)).
Proof.
  intros H P Hp Hs. unfold show_segment. rewrite !bind_run. cbn [fst snd gets]. split.
  - apply presenter_sound; [intros p; apply show_segment_pinv|by apply sound_drew_pending].
  - destruct (drew_state (pr_pending (sy_presenter s)) s) as (D1 & D2 & D3).
    destruct (with_presenter_state (vw_caption_presenter_show_segment seg t media)
      (snd (drew (pr_pending (sy_presenter s)) s))) as (E1 & E2 & E3).
    intros _ cue session. rewrite E3, E2, D3. intros [E|E]%show_segment_pending Es; [rewrite E; by apply Hs|].
    simpl in E. rewrite D1 in E. by apply P.
Qed.
Lemma show_preview_spec k n seg s :
  sound0 k n s -> ln_paused (sy_locals s) = true -> sy_paused_preview s = true ->
  (forall session, session_of s = Some session -> seg_session_id seg = session) ->
  sound0 k n (snd ((reset_preview ;; show_paused seg) s)) /\ pending_ok (snd ((reset_preview ;; show_paused seg) s)).
Proof.
  intros H Hp Hv Hs. unfold show_paused. rewrite !bind_run. split.
  - apply presenter_sound; [intros p; apply paused_pinv|]. pose proof (sound_drew_preview _ _ seg _ H Hp Hv Hs) as Hd.
    by rewrite bind_run in Hd.
  - apply rest_pending. right. destruct (with_presenter_state (vw_caption_presenter_show_paused seg)
      (snd (drew (Some seg) (snd (reset_preview s))))) as (-> & _). done.
Qed.

(** What is counted of a caption. *)
Lemma sound_bench k k' n f s :
  (forall b, accounts k b -> accounts k' (f b)) -> sound0 k n s -> sound0 k' n (snd (bench f s)).
Proof. intros Hf [H1 H2 H3 H4 H5 H6 H7 H8]. split; try done. by apply Hf. Qed.
Lemma bench_pending f s : pending_ok s -> pending_ok (snd (bench f s)).
Proof. done. Qed.
Lemma count_shown_spec n shown s :
  sound0 1 n s -> pending_ok s -> sound0 0 n (snd (count_shown shown s)) /\ pending_ok (snd (count_shown shown s)).
Proof.
  intros H P. unfold count_shown. destruct shown.
  - rewrite bind_run. unfold monotonic. destruct (calm_sys 1 client_now s) as [C1 C2 C3 C4] eqn:E. split.
    + apply (sound_bench 1); [intros b; apply accounts_sent|by apply C1].
    + apply bench_pending. eapply calm_pending_ok; [|exact P]. by split.
  - split; [|done]. apply (sound_bench 1); [intros b; apply accounts_filtered|done].
Qed.

(** Of what is shown and not, given that the caption was counted. *)
Lemma shown_spec n seg source show s :
  sound0 1 n s -> pending_ok s -> (forall session, session_of s = Some session -> seg_session_id seg = session) ->
  forall paused preview, ln_paused (sy_locals s) = paused -> sy_paused_preview s = preview ->
  let m := if negb paused then
             shown ← show_segment seg (ln_current_position_us (sy_locals s)) source; count_shown shown
           else if source && show && preview then
             reset_preview ;; shown ← show_paused seg; count_shown shown
           else bench (vw_benchmark_record_caption_filtered true false false) in
  sound0 0 n (snd (m s)) /\ pending_ok (snd (m s)).
Proof.
  intros H P Hs paused preview Ep Ev m. subst m. destruct paused; cbn [negb].
  - destruct (source && show && preview) eqn:E.
    + assert (sy_paused_preview s = true) as Ev' by (destruct preview; [done|by rewrite andb_false_r in E]).
      destruct (show_preview_spec 1 n seg s H Ep Ev' Hs) as [H1 P1]. rewrite bind_run in *. rewrite bind_run.
      by apply count_shown_spec.
    + split; [|done]. apply (sound_bench 1); [intros b; apply accounts_filtered|done].
  - rewrite bind_run. destruct (show_segment_spec 1 n seg (ln_current_position_us (sy_locals s)) source s H P Ep Hs) as [H1 P1].
    by apply count_shown_spec.
Qed.
(** The caption is counted. *)
Lemma heard_spec n seg now source s :
  sound0 0 n s -> pending_ok s ->
  let m := bench (vw_benchmark_record_caption_received seg now source) ;;
           when (seg_translation_attempted seg)
             (bench (vw_benchmark_record_translation (seg_translation_tier seg) (seg_translation_latency_us seg)
                (0 <? seg_translated_text_bytes seg))) in
  sound0 1 n (snd (m s)) /\ pending_ok (snd (m s)) /\ session_of (snd (m s)) = session_of s
  /\ sy_locals (snd (m s)) = sy_locals s /\ sy_paused_preview (snd (m s)) = sy_paused_preview s.
Proof.
  intros H P m. subst m. rewrite bind_run.
  apply (sound_bench 0 1 n (vw_benchmark_record_caption_received seg now source)) in H; [|intros b; apply accounts_received].
  destruct (seg_translation_attempted seg); [|done]. split; [|done].
  apply (sound_bench 1); [intros b; apply accounts_translation|done].
Qed.
Lemma current_session seg source s session :
  current_segment seg source s = true -> session_of s = Some session -> seg_session_id seg = session.
Proof.
  intros [Ec _]%andb_prop E. unfold foreign_segment in Ec. apply negb_true_iff, negb_false_iff, bool_decide_eq_true in Ec. congruence.
Qed.
Lemma steady_segment seg source show : keeps steady (on_segment (X := X) seg source show).
Proof.
  intros s n [H P]. unfold on_segment. rewrite bind_run. cbn [fst snd gets].
  destruct (current_segment seg source s) eqn:Ec; cbn [negb]; [|by apply (calm_steady (bench _)); [auto with keeps|]].
  pose proof (fun session => current_session seg source s session Ec) as Hs. rewrite !bind_run.
  set (s1 := snd (monotonic (snd (on_counts _ s)))). set (now := fst (monotonic (snd (on_counts _ s)))).
  assert (sy_locals s1 = sy_locals s /\ session_of s1 = session_of s /\ sy_paused_preview s1 = sy_paused_preview s) as (E1 & E2 & E3)
    by (subst s1; unfold monotonic, sys; by destruct (client_now _)).
  assert (calm 0 s s1) as Hc.
  { subst s1. etrans; [|apply (calm_sys 0 client_now)].
    apply (calm_counts 0 (fun c => c <| ct_segments_received := u32 (ct_segments_received c + 1) |>)). reflexivity. }
  clearbody s1 now. destruct (heard_spec n seg now source s1) as (H2 & P2 & F1 & F2 & F3);
    [by apply Hc|by eapply calm_pending_ok|]. rewrite bind_run in H2, P2, F1, F2, F3.
  set (s2 := snd (when _ _ _)) in *. clearbody s2. rewrite <- E1, <- E3, <- F2, <- F3.
  apply (shown_spec n seg source show s2); try done. by rewrite F1, E2.
Qed.
#[local] Hint Resolve steady_segment : keeps.
Lemma steady_frame m source show : keeps steady (on_frame (X := X) m source show).
Proof. unfold on_frame. keeps_steps. Qed.
Lemma steady_flush_due source : keeps steady (flush_due (X := X) source).
Proof.
  intros s n [H P]. unfold flush_due. rewrite bind_run. cbn [fst snd gets].
  destruct (pr_pending (sy_presenter s)); [|done]. destruct (ln_paused (sy_locals s)) eqn:Ep; [done|].
  destruct (negb source || _ || _); [|done]. cbn [when andb negb]. rewrite bind_run. by apply flush_pending_spec.
Qed.
#[local] Hint Resolve steady_frame steady_flush_due steady_discontinuity : keeps.
Lemma steady_serve show : keeps steady (serve (X := X) show).
Proof. unfold serve, monotonic. keeps_steps. Qed.
#[local] Hint Resolve steady_serve : keeps.
Lemma steady_iteration : keeps steady (sender_iteration (X := X)).
Proof. unfold sender_iteration, int. keeps_steps. Qed.
End plugin.

#[export] Existing Instance calm_preorder.
#[export] Existing Instance shift_preorder.
#[export] Existing Instance steady_preorder.
