(* ===== verification/PluginModule.v ===== *)
(** * The audio filter's callbacks

    [src/plugin/src/vw_whisper_module.c] from line 1571 on: the callback that taps the
    audio, opening and closing the filter, as built for Linux, with the adapters that
    [plugin/CMakeLists.txt] puts around the close path
    ([vw_plugin_log_scope_override.h]). The block itself always passes through
    unchanged. Only the close path binds [vw_plugin_teardown_presenter], so the
    sender's own stops are the client's. *)

From stdpp Require Import relations.
From S2P Require Import Prelude.
From S2P Require Import CString.
From S2P Require Import Float32.
From S2P Require Import ProtocolTypes.
From S2P Require Import SpscQueue.
From S2P Require Import AudioCapture.
From S2P Require Import State.
From S2P Require Import WorkerConfig.
From S2P Require Import WorkerClient.
From S2P Require Import Presenter.
From S2P Require Import Benchmark.
From S2P Require Import PluginPaths.
From S2P Require Import Sender.
#[local] Open Scope Z_scope.

Definition VLC_TS_0 : Z := 1.
Definition MAX_PTS_US : Z := 315360000000000.

(** [block_t] with the format the filter was opened for; [bl_codec] is [None] for one
    the filter does not read. *)
Record block := mk_block {
  bl_codec : option vw_audio_format_t;
  bl_buffer : option (list Z);
  bl_nb_samples : Z;
  bl_pts : Z;
  bl_discontinuity : bool;
  bl_rate : Z;
  bl_channels : Z
}.
Definition block_input (b : block) (fmt : vw_audio_format_t) : vw_audio_input_t :=
  mk_input (bl_buffer b) (bl_nb_samples b) (bl_pts b) fmt (bl_rate b) (bl_channels b).

(** Threads and the effective user. *)
Class ThreadEnv (X : Type) := {
  geteuid : X -> Z * X;
  thread_create : X -> bool * X
}.

(** ** The callback *)

Definition pts_valid (pts : Z) : bool := (VLC_TS_0 <=? pts) && (0 <=? pts) && (pts <=? MAX_PTS_US).
(** A jump of the timestamps, or a block flagged as one. *)
Definition pts_jump (last_pts_us : Z) (b : block) : bool :=
  if (VLC_TS_0 <=? bl_pts b) && (0 <? last_pts_us) then
    let diff := bl_pts b - last_pts_us in
    let is_forward_seek := VW_INPUT_JUMP_DISCONTINUITY_US <=? diff in
    (diff <? - VW_PTS_JUMP_THRESHOLD_US) || (is_forward_seek && bl_discontinuity b) || is_forward_seek
  else bl_discontinuity b && (VLC_TS_0 <=? bl_pts b).
(** A new conversion phase. *)
Definition capture_phase_reset (cap : vw_audio_capture_t) : vw_audio_capture_t :=
  mk_capture (cap_target_sample_rate cap) (cap_target_channels cap) 0 (cap_last_pts_us cap)
    (cap_total_samples_processed cap) (cap_total_input_frames cap) 0 0 (cap_reset_pending cap) (cap_queue cap)
    (cap_playback_rate cap).
Definition capture_seen (pts : Z) (cap : vw_audio_capture_t) : vw_audio_capture_t :=
  mk_capture (cap_target_sample_rate cap) (cap_target_channels cap) (cap_sample_remainder cap) pts
    (cap_total_samples_processed cap) (cap_total_input_frames cap) (cap_resample_acc cap)
    (cap_resample_source_rate cap) (cap_reset_pending cap) (cap_queue cap) (cap_playback_rate cap).

Definition capture_contents (cap : vw_audio_capture_t) : list vw_audio_chunk_t :=
  match cap_queue cap with Some q => spsc_contents q | None => [] end.
Definition process {X} (input : vw_audio_input_t) (s : plugin X) : plugin X :=
  let cap := snd (vw_audio_capture_process_block (sy_capture s) input) in
  s <| sy_capture := cap |>
    <| sy_captured := sy_captured s ++ drop (length (capture_contents (sy_capture s))) (capture_contents cap) |>.

Definition vw_plugin_filter {X} (b : block) (s : plugin X) : plugin X :=
  match bl_codec b with
  | None => s
  | Some fmt =>
      if negb (pts_valid (bl_pts b)) then s <| sy_last_pts_was_invalid := true |>
      else if sy_last_pts_was_invalid s then
        s <| sy_capture := capture_phase_reset (sy_capture s) |> <| sy_invalid_pts_pending := true |>
          <| sy_last_pts_was_invalid := false |>
      else
        let s := if pts_jump (cap_last_pts_us (sy_capture s)) b then s <| sy_discontinuity_pending := true |> else s in
        let s := if VLC_TS_0 <=? bl_pts b then s <| sy_capture := capture_seen (bl_pts b) (sy_capture s) |> else s in
        if f32_gt_const (default f32_one (cap_playback_rate (sy_capture s))) 4 then s
        else if sy_source_mode_active s then s
        else process (block_input b fmt) s
  end.

Section module.
Context {X : Type} `{!PluginEnv X} `{!ThreadEnv X}.
#[local] Abbreviation S := (M (plugin X)).
#[local] Abbreviation I := (M X).

(** ** Opening *)

Definition sizeof_pipe_name : Z := 256.
Definition sizeof_sun_path : Z := 108.

(** A runtime directory that is the user's and that no one else writes to. *)
Definition runtime_dir : I (list Z) :=
  configured ← os (fun x => getenv x (str "XDG_RUNTIME_DIR"));
  match configured with
  | Some ((47 :: _) as dir) =>
      info ← os (fun x => stat x dir);
      match info with
      | Some info =>
          if fi_directory info then
            uid ← os geteuid;
            mret (if (fi_uid info =? uid) && (Z.land (fi_mode info) 18 =? 0) then dir else str "/tmp")
          else mret (str "/tmp")
      | None => mret (str "/tmp")
      end
  | _ => mret (str "/tmp")
  end.
Definition socket_name (dir hex : list Z) : list Z := dir ++ str "/vlc-whisper-" ++ hex ++ str ".sock".
Definition endpoint (dir hex : list Z) : list Z :=
  if sizeof_sun_path <=? zlen (socket_name dir hex) then socket_name (str "/tmp") hex
  else copied sizeof_pipe_name (socket_name dir hex).

(** The state with nothing decided yet. *)
Definition plugin_init (q : vw_spsc_queue_t) (x : X) : plugin X :=
  mk_plugin
    (mk_capture VW_AUDIO_TARGET_RATE 1 0 0 0 0 0 0 (Some false) (Some q) (Some f32_one))
    None (p_presenter (presenter_start x)) [] [] [] [] [] [] [] false false (-1) false false false false false false false
    false 0 0 (mk_counts 0 0 0 0 0 0)
    (mk_snapshot [] [] [] [] [] 4 false false [] [] 0)
    (mk_locals false 0 (-1) (-1) (-1) f32_one (-1)) benchmark_zero 0 [] [] x.

(** The worker to launch: the one configured, unless its path is too long, or the one
    found; [None] fails the open. *)
Definition open_worker_path : I (option (list Z * bool)) :=
  configured ← os (fun x => config_psz x (str "worker-path"));
  match configured with
  | Some ((_ :: _) as path) => mret (if VW_PATH_MAX_BYTES <=? zlen path then None else Some (path, true))
  | _ => found ← vw_plugin_resolve_worker_path VW_PATH_MAX_BYTES; mret (Some (default [] found, false))
  end.
Definition open_model_path : I (option (list Z)) :=
  configured ← os (fun x => config_psz x (str "model-path"));
  match configured with
  | Some ((_ :: _) as path) => mret (if VW_PATH_MAX_BYTES <=? zlen path then None else Some path)
  | _ => found ← vw_plugin_resolve_model_path VW_PATH_MAX_BYTES; mret (Some (default [] found))
  end.
(** The launch; then the thread. *)
Definition open_launch (s : plugin X) (logging configured : bool) : I (plugin X) :=
  be ← os (fun x => config_psz x (str "whisper-backend"));
  lg ← os (fun x => config_psz x (str "whisper-language"));
  thr ← os (fun x => config_int x (str "whisper-threads"));
  has_gpu ← os (fun x => config_find x (str "whisper-gpu-device"));
  gpu ← (if has_gpu : bool then os (fun x => config_int x (str "whisper-gpu-device")) else mret (-1));
  model_dir ← vw_plugin_get_model_dir VW_PATH_MAX_BYTES;
  client ← vw_plugin_launch_with_auto_retry (sy_worker_path s) (sy_pipe_name s) (sy_auth_token s)
             (match sy_model_path s with [] => None | m => Some m end) be lg (i32 thr) (i32 gpu)
             (match model_dir with [] => None | d => Some d end) logging configured;
  started ← os thread_create;
  mret (s <| sy_client := client |> <| sy_cfg := (sy_cfg s) <| snap_logging := logging |> |> <| sy_sender_started := started |>).

(** [None] is [VLC_EGENERIC]: nothing is left behind. *)
Definition vw_plugin_open : I (option (plugin X)) :=
  match vw_spsc_queue_create 16 with
  | None => mret None
  | Some q =>
      logging ← os (fun x => config_int x (str "whisper-logging"));
      rnd ← os (fun x => random_bytes x 16);
      match rnd with
      | None => mret None
      | Some endpoint_random =>
          dir ← runtime_dir;
          worker ← open_worker_path;
          match worker with
          | None => mret None
          | Some (worker_path, configured) =>
              model ← open_model_path;
              match model with
              | None => mret None
              | Some model_path =>
                  token ← os (fun x => random_bytes x VW_AUTH_TOKEN_BYTES);
                  match token with
                  | None => mret None
                  | Some token =>
                      x0 ← os (fun x => (x, x));
                      s ← open_launch ((plugin_init q x0) <| sy_pipe_name := endpoint dir (token_to_hex endpoint_random) |>
                             <| sy_auth_token := token |> <| sy_worker_path := worker_path |> <| sy_model_path := model_path |>)
                             (negb (logging =? 0)) configured;
                      x ← os (fun x => (x, x));
                      mret (Some (s <| sy_ext := x |>))
                  end
              end
          end
      end
  end.

(** ** Closing *)

Definition set_filter_ctx (live : bool) : S unit :=
  with_presenter (on_presenter (fun pr => pr <| pr_filter_ctx := live |>)).
Definition drew_tail (cue : option vw_caption_segment_t) : S unit := fun s =>
  match cue with Some cue => did (DrewTail cue (session_of s)) s | None => (tt, s) end.

(** [vw_plugin_drain_close_audio] *)
Fixpoint drain_close_audio (fuel : nat) : S unit :=
  match fuel with
  | O => skip
  | Datatypes.S fuel =>
      chunk ← queue_pop;
      match chunk with
      | None => skip
      | Some chunk =>
          did (SentChunk chunk) ;;
          sent ← with_client false (vw_worker_client_send_audio chunk);
          if negb sent then skip
          else
            on_counts (fun c => c <| ct_chunks_sent := u64 (ct_chunks_sent c + 1) |>) ;;
            now_us ← monotonic;
            bench (vw_benchmark_record_audio (chunk_start_pts_us chunk) (chunk_duration_us chunk) now_us) ;;
            drain_close_audio fuel
      end
  end.
(** The sender is gone; what it left of live audio is sent. *)
Definition vw_close_join : S unit :=
  s ← gets (fun s => s);
  match sy_client s with
  | Some c => if negb (c_session_active c) || source_active s then skip else drain_close_audio (Datatypes.S (queue_length s))
  | None => skip
  end.

(** A caption after the stop; [true] when it reached the presenter. *)
Definition tail_segment (seg : vw_caption_segment_t) (source : bool) : S bool :=
  s ← gets (fun s => s);
  if foreign_segment (session_of s) seg then mret false
  else
    on_counts (fun c => c <| ct_segments_received := u32 (ct_segments_received c + 1) |>) ;;
    now_us ← monotonic;
    bench (vw_benchmark_record_caption_received seg now_us source) ;;
    when (seg_translation_attempted seg)
      (bench (vw_benchmark_record_translation (seg_translation_tier seg) (seg_translation_latency_us seg)
                (0 <? seg_translated_text_bytes seg))) ;;
    set_filter_ctx true ;;
    pending ← gets (fun s => pr_pending (sy_presenter s));
    drew_tail pending ;;
    shown ← with_presenter (vw_caption_presenter_show_segment seg (-1) false);
    bench (if shown : bool then vw_benchmark_record_caption_sent now_us
           else vw_benchmark_record_caption_filtered false false true) ;;
    mret shown.
Definition tail_frame (m : option message) (source : bool) : S bool :=
  on_counts (fun c => c <| ct_frames_received := u32 (ct_frames_received c + 1) |>) ;;
  bench vw_benchmark_record_frame ;;
  match m with
  | Some (STATUS status) =>
      on_counts (fun c => c <| ct_status_received := u32 (ct_status_received c + 1) |>) ;;
      bench (vw_benchmark_update_status status) ;; mret false
  | Some (ERROR _) => on_counts (fun c => c <| ct_errors_received := u32 (ct_errors_received c + 1) |>) ;; mret false
  | Some (CAPTION_SEGMENT seg) => tail_segment seg source
  | _ => mret false
  end.
(** Until the worker hangs up, or the watchdog's deadline. *)
Fixpoint tail_loop (fuel : nat) (deadline_us : Z) (source received_tail : bool) : S bool :=
  match fuel with
  | O => mret received_tail
  | Datatypes.S fuel =>
      now_us ← monotonic;
      if (now_us <? 0) || (deadline_us <=? now_us) then mret received_tail
      else
        '(status, m) ← receive (Z.min 250000 (deadline_us - now_us));
        match status with
        | VW_IPC_RECV_FATAL => mret received_tail
        | VW_IPC_RECV_OK => shown ← tail_frame m source; tail_loop fuel deadline_us source (received_tail || shown)
        | VW_IPC_RECV_TIMEOUT => tail_loop fuel deadline_us source received_tail
        end
  end.
(** Each turn takes something off the connection, or its 250 ms of the 120 s. *)
Definition WATCHDOG_US : Z := 120000000.
Definition tail_fuel (s : plugin X) : nat :=
  (482 + match sy_client s with Some c => inbox_size (c_inbox c) | None => 0 end)%nat.

Definition vw_plugin_presenter_release_preserving_caption : M (pstate X) unit :=
  vw_caption_presenter_clear_model_progress ;;
  on_presenter (fun pr => pr <| pr_pending := None |>) ;;
  let_go.
(** The last captions are asked for and shown. *)
Definition vw_plugin_stop_session_scoped : S unit :=
  source ← gets source_active;
  with_client tt (vw_worker_client_stop_session VW_CTRL_REASON_MEDIA_END) ;;
  with_client tt vw_worker_client_shutdown ;;
  started_us ← monotonic;
  fuel ← gets tail_fuel;
  received_tail ← (if started_us <? 0 then mret false else tail_loop fuel (started_us + WATCHDOG_US) source false);
  when received_tail
    (set_filter_ctx true ;;
     pending ← gets (fun s => pr_pending (sy_presenter s));
     drew_tail pending ;;
     with_presenter (vw_caption_presenter_flush (-1) false) ;;
     with_presenter vw_plugin_presenter_release_preserving_caption).

Definition close_client : S unit :=
  s ← gets (fun s => s);
  match sy_client s with
  | None => skip
  | Some _ =>
      (if sy_worker_dead s then with_client tt vw_worker_client_shutdown else vw_plugin_stop_session_scoped) ;;
      s ← gets (fun s => s);
      match sy_client s with
      | Some c => act (fun x => vw_worker_client_disconnect (c <| c_ext := x |>))
      | None => skip
      end ;;
      modify (fun s => s <| sy_client := None |>)
  end.
Definition vw_plugin_close : S unit :=
  started ← gets sy_sender_started;
  when started vw_close_join ;;
  with_presenter vw_caption_presenter_clear ;;
  close_client ;;
  active ← gets (fun s => bm_active (sy_benchmark s));
  when active (now_us ← monotonic; bench_io (vw_benchmark_finalize now_us)).

(** ** The plugin's life *)

(** The callback's thread and the sender's, an operation of each at a time. *)
Inductive plugin_event := Callback (b : block) | SenderTurn.
Definition plugin_step (e : plugin_event) (s : plugin X) : plugin X :=
  match e with
  | Callback b => vw_plugin_filter b s
  | SenderTurn => if sy_sender_started s then snd (sender_iteration s) else s
  end.
Definition plugin_run (events : list plugin_event) (s : plugin X) : plugin X := fold_left (fun s e => plugin_step e s) events s.
(** From opening on: the blocks before the sender runs, its start, then both. *)
Definition plugin_life (early : list block) (events : list plugin_event) (s : plugin X) : plugin X :=
  let s := plugin_run (map Callback early) s in
  plugin_run events (if sy_sender_started s then snd (sender_start s) else s).
End module.
