(* ===== verification/PluginSafety.v ===== *)
(** * The plugin from opening to closing

    The invariant of [SenderSafety] over the whole life of a filter instance: opening
    establishes it, the callback and the sender keep it, and closing gives back what
    is held. *)

From stdpp Require Import relations.
From S2P Require Import Prelude.
From S2P Require Import CString.
From S2P Require Import Float32.
From S2P Require Import ProtocolTypes.
From S2P Require Import SpscQueue.
From S2P Require Import AudioCapture.
From S2P Require Import State.
From S2P Require Import WorkerConfig.
From S2P Require Import WorkerClient.
From S2P Require Import WorkerClientWire.
From S2P Require Import Presenter.
From S2P Require Import Benchmark.
From S2P Require Import PluginPaths.
From S2P Require Import Sender.
From S2P Require Import SenderSafety.
From S2P Require Import PluginModule.
#[local] Open Scope Z_scope.

(** ** The callback *)

Lemma push_all_spec cs : forall q, spsc_inv q ->
  spsc_inv (push_all q cs) /\ exists new, spsc_contents (push_all q cs) = spsc_contents q ++ new.
Proof.
  unfold push_all. induction cs as [|c cs IH]; intros q Hq; cbn [fold_left].
  - split; [done|]. exists []. by rewrite app_nil_r.
  - destruct (spsc_push_spec q c Hq) as [Hq' E]. destruct (IH _ Hq') as [H (new & En)]. split; [done|].
    eexists. by rewrite En, E, <- app_assoc.
Qed.
Lemma process_block_queue cap input q :
  cap_queue cap = Some q -> spsc_inv q ->
  exists q' new, cap_queue (snd (vw_audio_capture_process_block cap input)) = Some q' /\ spsc_inv q'
    /\ spsc_contents q' = spsc_contents q ++ new.
Proof.
  intros E Hq. assert (cap_queue (capture_reset cap) = Some q) as Er
    by (unfold capture_reset; by destruct (cap_reset_pending cap) as [[]|]).
  assert (exists q' new, Some q = Some q' /\ spsc_inv q' /\ spsc_contents q' = spsc_contents q ++ new) as Hsame
    by (exists q, []; by rewrite app_nil_r).
  unfold vw_audio_capture_process_block. rewrite E. destruct (in_pcm_data input) as [pcm|]; [|cbn [snd]; by rewrite E].
  repeat (case_goal; [cbn [snd capture_throttled cap_queue]; by rewrite ?E, ?Er|]). cbn [snd capture_done cap_queue].
  destruct (push_all_spec (cv_pushed (capture_convert (capture_reset cap) input pcm)) q Hq) as [H (new & En)].
  by exists (push_all q (cv_pushed (capture_convert (capture_reset cap) input pcm))), new.
Qed.

Section plugin.
Context {X : Type} `{!PluginEnv X} `{!ThreadEnv X}.
Implicit Types s : plugin X.

Lemma calm_process k input s : calm k s (process input s).
Proof.
  split; [|done|by right|done]. intros n [H1 H2 H3 H4 H5 H6 H7 H8]. split; try done.
  destruct H8 as (q & taken & E & Hq & Ec & Hs).
  destruct (process_block_queue (sy_capture s) input q E Hq) as (q' & new & E' & Hq' & En).
  exists q', taken. split; [done|]. split; [done|]. split; [|done]. unfold process. cbv zeta. simpl.
  unfold capture_contents. by rewrite E, E', En, drop_app_length, Ec, <- app_assoc.
Qed.
Lemma calm_filter k b s : calm k s (vw_plugin_filter b s).
Proof.
  unfold vw_plugin_filter. destruct (bl_codec b) as [fmt|]; [|reflexivity].
  repeat (case_goal; [by apply calm_same|]). cbv zeta.
  match goal with |- calm _ _ (if ?c then ?s2 else if ?d then ?s2 else process ?i ?s2) =>
    set (s' := s2); assert (calm k s s') as Hstep by (subst s'; repeat case_goal; by apply calm_same) end.
  clearbody s'. case_goal; [done|]. case_goal; [done|]. etrans; [exact Hstep|apply calm_process].
Qed.

(** ** Opening *)

Lemma start_sound q (x : X) token pipe worker model cfg started client :
  vw_spsc_queue_create 16 = Some q ->
  (forall c, client = Some c -> exists fs, wire_of (hello_frame token :: fs) c) ->
  sound0 0 0 ((plugin_init q x) <| sy_pipe_name := pipe |> <| sy_auth_token := token |> <| sy_worker_path := worker |>
                <| sy_model_path := model |> <| sy_client := client |> <| sy_cfg := cfg |> <| sy_sender_started := started |>).
Proof.
  intros Eq Hc. split; try done; simpl.
  - apply start_pinv.
  - by exists false.
  - destruct (spsc_create_inv 16 q ltac:(lia) Eq) as [H1 H2]. exists q, []. split; [done|]. split; [done|]. by rewrite H2.
Qed.
(** As [vw_plugin_open] leaves the state. *)
Record opened s : Prop := {
  op_sound : sound0 0 0 s;
  op_pending : pr_pending (sy_presenter s) = None;
  op_playing : ln_paused (sy_locals s) = false
}.

Lemma sound_ext k n s x : sound0 k n s -> sound0 k n (s <| sy_ext := x |>).
Proof. apply (calm_act k (fun _ => x) s). Qed.
Lemma open_launch_spec s logging configured x s' x' :
  open_launch s logging configured x = (s', x') ->
  exists client cfg started, s' = s <| sy_client := client |> <| sy_cfg := cfg |> <| sy_sender_started := started |>
    /\ forall c, client = Some c -> exists fs, wire_of (hello_frame (sy_auth_token s) :: fs) c.
Proof.
  unfold open_launch. do 7 rewrite bind_run. match goal with |- context [vw_plugin_launch_with_auto_retry ?a ?b ?c ?d ?e ?f ?g ?h ?i ?j ?k ?y] =>
    destruct (vw_plugin_launch_with_auto_retry a b c d e f g h i j k y) as [client y'] eqn:E end.
  rewrite bind_run. intros [= <- <-]. do 3 eexists. split; [done|]. intros c ->. by eapply auto_retry_wire.
Qed.
Lemma open_opened x s x' : vw_plugin_open x = (Some s, x') -> opened s.
Proof.
  unfold vw_plugin_open. destruct (vw_spsc_queue_create 16) as [q|] eqn:Eq; [|done]. do 2 rewrite bind_run.
  destruct (fst (os (fun x => random_bytes x 16) _)) as [rnd|]; [|done]. do 2 rewrite bind_run.
  destruct (fst (open_worker_path _)) as [[worker configured]|]; [|done]. rewrite bind_run.
  destruct (fst (open_model_path _)) as [model|]; [|done]. rewrite bind_run.
  destruct (fst (os (fun x => random_bytes x VW_AUTH_TOKEN_BYTES) _)) as [token|]; [|done]. rewrite bind_run.
  match goal with |- context [(open_launch ?a ?b ?c ≫= _) ?y] => rewrite bind_run; destruct (open_launch a b c y) as [s1 x1] eqn:E end.
  rewrite bind_run. intros [= <- _]. destruct (open_launch_spec _ _ _ _ _ _ E) as (client & cfg & started & -> & Hc).
  split; [|done|done]. apply sound_ext. by apply start_sound.
Qed.

(** ** Running *)

Lemma steady_event e : forall s, steady s (plugin_step e s).
Proof.
  intros s n [H P]. destruct e as [b|]; cbn [plugin_step].
  - pose proof (calm_filter 0 b s) as C. split; [by apply C|by eapply calm_pending_ok].
  - destruct (sy_sender_started s); [|done]. by apply steady_iteration.
Qed.
Lemma steady_run events : forall s, steady s (plugin_run events s).
Proof.
  unfold plugin_run. induction events as [|e events IH]; intros s; cbn [fold_left]; [reflexivity|].
  etrans; [apply steady_event|apply IH].
Qed.
Lemma shift_callbacks blocks : forall s, calm 0 s (plugin_run (map Callback blocks) s).
Proof.
  unfold plugin_run. induction blocks as [|b blocks IH]; intros s; cbn [map fold_left]; [reflexivity|].
  etrans; [apply (calm_filter 0 b)|apply IH].
Qed.
(** The sender's start: the first session, with nothing held back. *)
Lemma start_spec s :
  sound0 0 0 s -> pr_pending (sy_presenter s) = None -> sound0 0 0 (snd (sender_start s)) /\ pending_ok (snd (sender_start s)).
Proof.
  intros H P. unfold sender_start. rewrite bind_run. destruct (shift_first_session s) as [S1 _ S3]. split.
  - by apply (sound_locals 0 0 (fun _ => mk_locals false 0 (-1) (-1) (-1) f32_one (-1))), S1.
  - apply rest_pending. left. simpl. destruct S3 as [->| ->]; done.
Qed.
Lemma life_sound early events (x x' : X) s :
  vw_plugin_open x = (Some s, x') -> sound0 0 0 (plugin_life early events s) /\ pending_ok (plugin_life early events s).
Proof.
  intros [H P L]%open_opened. unfold plugin_life. cbv zeta. destruct (shift_callbacks early s) as [C1 C2 C3 C4]. apply C1 in H.
  assert (pr_pending (sy_presenter (plugin_run (map Callback early) s)) = None) as P1 by (destruct C3 as [->| ->]; done).
  apply steady_run. destruct (sy_sender_started _); [by apply start_spec|]. split; [done|]. apply rest_pending. by left.
Qed.

(** ** Closing *)

(** What is left when the worker does not count. *)
Definition bare s : plugin X := s <| sy_client := None |>.
Lemma sound_bare k n s : sound0 k n s -> sound0 k n (bare s).
Proof. by intros [H1 H2 H3 H4 H5 H6 H7 H8]; split. Qed.

(** A call that leaves the presenter and the session alone. *)
Record fade k s s' : Prop := {
  fade_sound n : sound0 k n (bare s) -> sound0 k n (bare s');
  fade_presenter : sy_presenter s' = sy_presenter s;
  fade_session : session_of s' = session_of s
}.
#[local] Instance fade_preorder k : PreOrder (fade k).
Proof. split; [intros s; by split|]. intros s1 s2 s3 [A1 A2 A3] [B1 B2 B3]. split; [eauto|congruence..]. Qed.
Lemma fade_sys {A} k (f : X -> A * X) : keeps (fade k) (sys f).
Proof.
  intros s. pose proof (calm_sys k f (bare s)) as [C _ _ _]. unfold sys in *. change (sy_ext (bare s)) with (sy_ext s) in C.
  by destruct (f (sy_ext s)).
Qed.
Lemma fade_counts k f : (forall c, ct_respawn_count (f c) = ct_respawn_count c) -> keeps (fade k) (on_counts f).
Proof. intros H s. split; [|done..]. apply (calm_counts k f H (bare s)). Qed.
Lemma fade_bench k f : (forall b, accounts k b -> accounts k (f b)) -> keeps (fade k) (bench f).
Proof. intros H s. split; [|done..]. apply (calm_bench k f H (bare s)). Qed.
Lemma fade_client {A} k (none : A) (m : M (client X) A) : keeps same_id m -> keeps (fade k) (with_client none m).
Proof.
  intros Hi s. unfold with_client. destruct (sy_client s) as [c|] eqn:Ec; [|reflexivity].
  specialize (Hi (c <| c_ext := sy_ext s |>)). destruct (m _) as [a c']. cbn [snd] in *. split; [|done|].
  - intros n. apply (calm_act k (fun _ => c_ext c') (bare s)).
  - unfold session_of. rewrite Ec. simpl. by rewrite Hi.
Qed.
#[local] Hint Resolve fade_sys : keeps.
#[local] Hint Extern 1 (keeps (fade _) (on_counts _)) => (apply fade_counts; reflexivity) : keeps.
Lemma fade_receive k timeout : keeps (fade k) (receive (X := X) timeout).
Proof.
  unfold receive. keeps_steps; [apply fade_client, id_receive_frame|apply fade_bench; intros b; apply accounts_failure].
Qed.

(** While the last captions arrive; [received] when one was shown. *)
Record tail_ok (received : bool) s : Prop := {
  tl_sound : sound0 0 0 (bare s);
  tl_pending cue session :
    pr_pending (sy_presenter s) = Some cue -> session_of s = Some session -> seg_session_id cue = session;
  tl_idle : received = false -> pr_held_vout (sy_presenter s) = None /\ pr_progress_vout (sy_presenter s) = None
}.
Lemma tail_fade received s s' : fade 0 s s' -> tail_ok received s -> tail_ok received s'.
Proof. intros [F1 F2 F3] [H1 H2 H3]. split; rewrite ?F2, ?F3; auto. Qed.

Lemma bare_presenter {A} k n (m : M (pstate X) A) s :
  (forall p, pinv p -> pinv (snd (m p))) -> sound0 k n (bare s) -> sound0 k n (bare (snd (with_presenter m s))).
Proof.
  intros Hm H. apply (presenter_sound k n m _ Hm) in H. unfold with_presenter in *. simpl in *. by destruct (m _).
Qed.
Lemma bare_drew k n cue s :
  (forall c session, cue = Some c -> session_of s = Some session -> seg_session_id c = session) ->
  sound0 k n (bare s) -> sound0 k n (bare (snd (drew_tail cue s))).
Proof.
  intros Hc [H1 H2 H3 H4 H5 (ready & H6 & H6') H7 H8]. destruct cue as [c|]; [|split; try done; by exists ready].
  change (sy_deeds (bare s)) with (sy_deeds s) in *. split; try done; simpl.
  - exists ready. by rewrite preview_run_app, H6.
  - apply Forall_app. rewrite Forall_singleton. split; [done|]. simpl. destruct (session_of s) eqn:E; [by apply Hc|done].
  - apply (queued_other (bare s) (DrewTail c (session_of s))); [done|exact H8].
Qed.
Lemma drew_tail_state cue s :
  sy_presenter (snd (drew_tail cue s)) = sy_presenter s /\ session_of (snd (drew_tail cue s)) = session_of s.
Proof. by destruct cue. Qed.
Lemma filter_ctx_state live s :
  sy_presenter (snd (set_filter_ctx live s)) = (sy_presenter s) <| pr_filter_ctx := live |>
  /\ session_of (snd (set_filter_ctx live s)) = session_of s.
Proof. done. Qed.
Lemma filter_ctx_pinv live (p : pstate X) : pinv p -> pinv (snd (on_presenter (fun pr => pr <| pr_filter_ctx := live |>) p)).
Proof. intros [H S]. split; [|exact S]. by apply (inv_presenter [] (fun pr => pr <| pr_filter_ctx := live |>)). Qed.

(** The cue held back is drawn, and the new one held back. *)
Lemma tail_show seg s :
  sound0 1 0 (bare s) ->
  (forall cue session, pr_pending (sy_presenter s) = Some cue -> session_of s = Some session -> seg_session_id cue = session) ->
  (forall session, session_of s = Some session -> seg_session_id seg = session) ->
  let m := set_filter_ctx true ;;
           pending ← gets (fun s => pr_pending (sy_presenter s));
           drew_tail pending ;;
           with_presenter (vw_caption_presenter_show_segment seg (-1) false) in
  sound0 1 0 (bare (snd (m s)))
  /\ (forall cue session, pr_pending (sy_presenter (snd (m s))) = Some cue -> session_of (snd (m s)) = Some session ->
        seg_session_id cue = session)
  /\ (fst (m s) = false -> pr_held_vout (sy_presenter (snd (m s))) = pr_held_vout (sy_presenter s)
        /\ pr_progress_vout (sy_presenter (snd (m s))) = pr_progress_vout (sy_presenter s)).
Proof.
  intros H P Hs m. subst m. rewrite bind_run. apply (bare_presenter _ _ _ _ (filter_ctx_pinv true)) in H.
  change (with_presenter _ s) with (set_filter_ctx true s) in H. destruct (filter_ctx_state true s) as [F1 F2].
  set (s1 := snd (set_filter_ctx true s)) in *. rewrite bind_run. cbn [fst snd gets]. rewrite bind_run.
  assert (pr_pending (sy_presenter s1) = pr_pending (sy_presenter s) /\ pr_held_vout (sy_presenter s1) = pr_held_vout (sy_presenter s)
          /\ pr_progress_vout (sy_presenter s1) = pr_progress_vout (sy_presenter s)) as (G1 & G2 & G3) by by rewrite F1.
  rewrite <- G2, <- G3. clearbody s1. apply (bare_drew _ _ (pr_pending (sy_presenter s1))) in H; [|by rewrite G1, F2].
  destruct (drew_tail_state (pr_pending (sy_presenter s1)) s1) as [D1 D2].
  set (s2 := snd (drew_tail _ s1)) in *. clearbody s2.
  destruct (with_presenter_state (vw_caption_presenter_show_segment seg (-1) false) s2) as (_ & E2 & E3).
  split_and!.
  - apply bare_presenter; [intros p; apply show_segment_pinv|done].
  - intros cue session. rewrite E3, E2, D2, F2. intros [E|E]%show_segment_pending Es; [rewrite E; by apply Hs|].
    simpl in E. rewrite D1, G1 in E. by apply P.
  - rewrite <- D1. unfold with_presenter, vw_caption_presenter_show_segment. destruct (seg_text_utf8 seg); [|done]. rewrite !bind_run.
    done.
Qed.
Lemma tail_segment_spec received seg source s :
  tail_ok received s -> tail_ok (received || fst (tail_segment seg source s)) (snd (tail_segment seg source s)).
Proof.
  intros [H P I]. unfold tail_segment. rewrite bind_run. cbn [fst snd gets].
  destruct (foreign_segment (session_of s) seg) eqn:Ef; [cbn [fst snd mret M_ret]; rewrite orb_false_r; by split|].
  assert (forall session, session_of s = Some session -> seg_session_id seg = session) as Hs.
  { intros session E. unfold foreign_segment in Ef. apply negb_false_iff, bool_decide_eq_true in Ef. congruence. }
  clear Ef. rewrite bind_run. rewrite bind_run.
  set (s1 := snd (monotonic (snd (on_counts _ s)))). set (now := fst (monotonic (snd (on_counts _ s)))).
  assert (fade 0 s s1) as Hf.
  { subst s1. etrans; [|apply (fade_sys 0 client_now)].
    apply (fade_counts 0 (fun c => c <| ct_segments_received := u32 (ct_segments_received c + 1) |>)). reflexivity. }
  clearbody s1 now. rewrite bind_run. destruct Hf as [F1 F2 F3]. apply F1 in H.
  apply (sound_bench 0 1 0 (vw_benchmark_record_caption_received seg now source)) in H; [|intros b; apply accounts_received].
  set (s2 := snd (bench (vw_benchmark_record_caption_received seg now source) s1)).
  change (snd (bench _ (bare s1))) with (bare s2) in H. rewrite bind_run. set (s3 := snd (when _ _ s2)).
  assert (fade 1 s2 s3) as Hf.
  { subst s3. destruct (seg_translation_attempted seg); [|reflexivity]. apply fade_bench. intros b. apply accounts_translation. }
  destruct Hf as [L1 L2 L3]. apply L1 in H. clearbody s3.
  assert (sy_presenter s3 = sy_presenter s) as Ep by (rewrite L2; exact F2).
  assert (session_of s3 = session_of s) as Es by (rewrite L3; exact F3). clearbody s2.
  rewrite <- Ep in P, I. rewrite <- Es in P, Hs. destruct (tail_show seg s3 H P Hs) as (T1 & T2 & T3).
  rewrite !bind_run in T1, T2, T3. rewrite !bind_run.
  set (r := with_presenter (vw_caption_presenter_show_segment seg (-1) false) _) in *. destruct r as [shown s4].
  cbn [fst snd mret M_ret] in *. clear - T1 T2 T3 I. split.
  - apply (sound_bench 1 0 0 (if shown then vw_benchmark_record_caption_sent now else vw_benchmark_record_caption_filtered false false true)
      (bare s4)); [|done]. intros b. destruct shown; [apply accounts_sent|apply accounts_filtered].
  - exact T2.
  - intros [Er E]%orb_false_elim. destruct (T3 E) as [E1 E2]. destruct (I Er) as [I1 I2]. split; [exact (eq_trans E1 I1)|exact (eq_trans E2 I2)].
Qed.
Lemma tail_frame_spec received m source s :
  tail_ok received s -> tail_ok (received || fst (tail_frame m source s)) (snd (tail_frame m source s)).
Proof.
  intros H. unfold tail_frame. rewrite !bind_run.
  set (s1 := snd (bench vw_benchmark_record_frame _)). assert (tail_ok received s1) as H1.
  { revert H. apply tail_fade. subst s1. etrans; [apply (fade_counts 0 (fun c => c <| ct_frames_received := u32 (ct_frames_received c + 1) |>)); reflexivity|].
    apply fade_bench. intros b. apply accounts_frame. }
  clearbody s1. assert (forall (q : M (plugin X) bool), keeps (fade 0) q -> fst (q s1) = false ->
    tail_ok (received || fst (q s1)) (snd (q s1))) as Hq.
  { intros q Hk ->. rewrite orb_false_r. revert H1. apply tail_fade, Hk. }
  destruct m as [[]|]; try (apply (Hq (mret false)); [keeps_steps|done]).
  - by apply tail_segment_spec.
  - apply (Hq (on_counts _ ;; bench _ ;; mret false)); [|done]. keeps_steps. apply fade_bench. intros b. apply accounts_status.
  - apply (Hq (on_counts _ ;; mret false)); [keeps_steps|done].
Qed.
Lemma tail_loop_spec fuel deadline source : forall received s,
  tail_ok received s -> tail_ok (fst (tail_loop fuel deadline source received s)) (snd (tail_loop fuel deadline source received s)).
Proof.
  induction fuel as [|fuel IH]; intros received s H; cbn [tail_loop]; [done|]. rewrite bind_run.
  assert (tail_ok received (snd (monotonic s))) as H1 by (revert H; apply tail_fade, fade_sys).
  set (s1 := snd (monotonic s)) in *. clearbody s1. case_goal; [done|]. rewrite bind_run.
  match goal with |- context [receive ?t s1] => pose proof (fade_receive 0 t s1) as Hr; destruct (receive t s1) as [[status m] s2] end.
  cbn [fst snd] in *. apply (tail_fade received _ _ Hr) in H1. destruct status; [|by apply IH|done].
  rewrite bind_run. apply IH. by apply tail_frame_spec.
Qed.

(** Everything that was held is given back. *)
Record closed s : Prop := {
  cl_sound : sound0 0 0 (bare s);
  cl_refs v : refs v (sy_vlc_log s) = 0
}.
Lemma refs_idle (p : pstate X) :
  inv [] p -> pr_held_vout (p_presenter p) = None -> pr_progress_vout (p_presenter p) = None -> forall v, refs v (p_log p) = 0.
Proof. intros H E1 E2 v. rewrite (inv_refs _ _ H), E1, E2. done. Qed.
Lemma idle_refs (p : pstate X) :
  inv [] p -> (forall v, refs v (p_log p) = 0) -> pr_held_vout (p_presenter p) = None /\ pr_progress_vout (p_presenter p) = None.
Proof.
  intros H R. assert (forall v, count (pr_held_vout (p_presenter p)) v = 0 /\ count (pr_progress_vout (p_presenter p)) v = 0) as Hz.
  { intros v. specialize (R v). rewrite (inv_refs _ _ H) in R. simpl in R.
    pose proof (count_nonneg (pr_held_vout (p_presenter p)) v). pose proof (count_nonneg (pr_progress_vout (p_presenter p)) v). lia. }
  split; [destruct (pr_held_vout _) as [v|]|destruct (pr_progress_vout _) as [v|]]; try done;
    destruct (Hz v) as [H1 H2]; rewrite count_self in *; done.
Qed.
Lemma release_preserving_spec (p : pstate X) :
  pinv p -> let p' := snd (vw_plugin_presenter_release_preserving_caption p) in
  pinv p' /\ forall v, refs v (p_log p') = 0.
Proof.
  intros [H S]. unfold vw_plugin_presenter_release_preserving_caption. rewrite bind_run.
  destruct (clear_progress_spec p H) as (H1 & _ & E1). destruct (vw_caption_presenter_clear_model_progress p) as [[] p1].
  cbn [fst snd] in *. rewrite bind_run, on_presenter_run. cbn [fst snd]. apply let_go_spec; [|done].
  by apply (inv_presenter [] (fun pr => pr <| pr_pending := None |>)).
Qed.
Lemma presenter_refs {A} (m : M (pstate X) A) s :
  (forall v, refs v (p_log (snd (m (presenter_of s)))) = 0) -> forall v, refs v (sy_vlc_log (snd (with_presenter m s))) = 0.
Proof. unfold with_presenter, presenter_of. by destruct (m _). Qed.
Lemma bare_pinv k n s : sound0 k n (bare s) -> pinv (presenter_of s).
Proof. intros [_ H _ _ _ _ _ _]. exact H. Qed.

Lemma tail_end_spec received s :
  tail_ok received s ->
  let m := when received
    (set_filter_ctx true ;;
     pending ← gets (fun s => pr_pending (sy_presenter s));
     drew_tail pending ;;
     with_presenter (vw_caption_presenter_flush (-1) false) ;;
     with_presenter vw_plugin_presenter_release_preserving_caption) in
  closed (snd (m s)).
Proof.
  intros [H P I] m. subst m. destruct received; cbn [when].
  2:{ split; [done|]. destruct (I eq_refl) as [E1 E2]. apply bare_pinv in H as [H _]. by apply (refs_idle (presenter_of s)). }
  rewrite bind_run. apply (bare_presenter _ _ _ _ (filter_ctx_pinv true)) in H.
  change (with_presenter _ s) with (set_filter_ctx true s) in H.
  assert (forall cue session, pr_pending (sy_presenter (snd (set_filter_ctx true s))) = Some cue ->
    session_of (snd (set_filter_ctx true s)) = Some session -> seg_session_id cue = session) as P1 by exact P.
  set (s1 := snd (set_filter_ctx true s)) in *. clearbody s1. rewrite bind_run. cbn [fst snd gets]. rewrite bind_run.
  apply (bare_drew _ _ (pr_pending (sy_presenter s1))) in H; [|exact P1].
  set (s2 := snd (drew_tail _ s1)) in *. clearbody s2. rewrite bind_run.
  apply (bare_presenter _ _ (vw_caption_presenter_flush (-1) false)) in H; [|intros p; apply flush_pinv].
  set (s3 := snd (with_presenter _ s2)) in *. clearbody s3. split.
  - apply bare_presenter; [|done]. intros p Hp. by apply release_preserving_spec.
  - apply presenter_refs. apply bare_pinv in H. by apply release_preserving_spec.
Qed.
Lemma stop_scoped_spec s :
  tail_ok false s -> closed (snd (vw_plugin_stop_session_scoped s)).
Proof.
  intros H. unfold vw_plugin_stop_session_scoped. rewrite bind_run. cbn [fst snd gets]. rewrite bind_run.
  apply (tail_fade _ _ _ (fade_client 0 tt _ (id_stop VW_CTRL_REASON_MEDIA_END) s)) in H.
  set (s1 := snd (with_client tt (vw_worker_client_stop_session _) s)) in *. clearbody s1. rewrite bind_run.
  apply (tail_fade _ _ _ (fade_client 0 tt _ id_shutdown s1)) in H.
  set (s2 := snd (with_client tt vw_worker_client_shutdown s1)) in *. clearbody s2. rewrite bind_run.
  apply (tail_fade _ _ _ (fade_sys 0 client_now s2)) in H. change (sys client_now) with (monotonic (X := X)) in H.
  set (s3 := snd (monotonic s2)) in *. clearbody s3. rewrite bind_run. cbn [fst snd gets]. rewrite bind_run.
  case_goal; [by apply (tail_end_spec false)|]. apply tail_end_spec. by apply tail_loop_spec.
Qed.

Lemma close_join_spec : keeps (calm 0) (vw_close_join (X := X)).
Proof.
  assert (forall fuel, keeps (calm 0) (drain_close_audio (X := X) fuel)) as Hd.
  { induction fuel as [|fuel IH]; intros s; cbn [drain_close_audio]; [reflexivity|]. rewrite bind_run.
    destruct (fst (queue_pop s)) as [chunk|] eqn:E; [|apply calm_pop]. rewrite bind_run.
    etrans; [apply (calm_take 0 s chunk E)|].
    match goal with |- calm _ _ (snd (?m _)) => assert (keeps (calm 0) m) as Hm end; [|apply Hm].
    unfold monotonic. keeps_steps; [apply calm_audio|apply calm_counts; reflexivity|apply calm_sys|].
    apply calm_bench. intros b. apply accounts_audio. }
  unfold vw_close_join. keeps_steps.
Qed.
Lemma close_client_spec s :
  sound0 0 0 s -> (forall v, refs v (sy_vlc_log s) = 0) -> pr_pending (sy_presenter s) = None ->
  closed (snd (close_client s)) /\ sy_client (snd (close_client s)) = None.
Proof.
  intros H R P. unfold close_client. rewrite bind_run. cbn [fst snd gets].
  destruct (sy_client s) as [c|] eqn:Ec; [|split; [|done]; split; [by apply sound_bare|done]]. rewrite bind_run.
  assert (tail_ok false s) as Ht.
  { split; [by apply sound_bare|by rewrite P|]. intros _. destruct (so_presenter _ _ _ H) as [Hp _]. by apply (idle_refs (presenter_of s)). }
  set (stop := if sy_worker_dead s then with_client tt vw_worker_client_shutdown else vw_plugin_stop_session_scoped).
  assert (closed (snd (stop s))) as Hc.
  { subst stop. destruct (sy_worker_dead s); [|by apply stop_scoped_spec].
    apply (tail_fade _ _ _ (fade_client 0 tt _ id_shutdown s)) in Ht. by apply (tail_end_spec false). }
  set (s1 := snd (stop s)) in *. clearbody s1. destruct Hc as [Hs Hr].
  rewrite bind_run. cbn [fst snd gets]. rewrite bind_run. split; [|done]. destruct (sy_client s1) as [c1|]; [|by split].
  split; [|exact Hr]. by apply (calm_act 0 (fun x => vw_worker_client_disconnect (c1 <| c_ext := x |>)) (bare s1)).
Qed.
Lemma accounts_finalize k now b (x : X) : accounts k b -> accounts k (fst (vw_benchmark_finalize now b x)).
Proof.
  intros H. unfold vw_benchmark_finalize. case_goal; [done|]. rewrite bind_run. cbn [fst snd mret M_ret].
  destruct (fst (vw_benchmark_write _ _ _ _)); revert H; by apply accounts_same.
Qed.
Lemma finalize_spec s :
  closed s -> sy_client s = None ->
  let m := when (bm_active (sy_benchmark s)) (now_us ← monotonic; bench_io (vw_benchmark_finalize now_us)) in
  closed (snd (m s)) /\ sy_client (snd (m s)) = None.
Proof.
  intros [H R] E m. subst m. destruct (bm_active (sy_benchmark s)); [|by split; [split|]]. cbn [when]. rewrite bind_run.
  pose proof (fade_sys 0 client_now s) as [F _ _]. change (sys client_now) with (monotonic (X := X)) in *.
  set (now := fst (monotonic s)). apply F in H.
  assert (sy_vlc_log (snd (monotonic s)) = sy_vlc_log s /\ sy_client (snd (monotonic s)) = None) as [L1 L2]
    by (unfold monotonic, sys; destruct (client_now _); by rewrite <- E).
  set (s1 := snd (monotonic s)) in *. clearbody s1 now.
  apply (calm_bench_io 0 (vw_benchmark_finalize now)) in H; [|intros b x; apply accounts_finalize].
  unfold bench_io, sys in *. rewrite !bind_run in H. rewrite !bind_run. cbn [fst snd gets] in *. simpl in H.
  destruct (vw_benchmark_finalize now (sy_benchmark s1) (sy_ext s1)). split; [split|]; [exact H| |exact L2].
  simpl. by rewrite L1.
Qed.
Lemma close_spec s :
  sound0 0 0 s -> closed (snd (vw_plugin_close s)) /\ sy_client (snd (vw_plugin_close s)) = None.
Proof.
  intros H. unfold vw_plugin_close. rewrite bind_run. cbn [fst snd gets]. rewrite bind_run.
  assert (sound0 0 0 (snd (when (sy_sender_started s) vw_close_join s))) as H1.
  { destruct (sy_sender_started s); [by apply close_join_spec|done]. }
  set (s1 := snd (when _ _ s)) in *. clearbody s1. rewrite bind_run.
  destruct (clear_spec (presenter_of s1) (so_presenter _ _ _ H1)) as [_ Hr]. pose proof (presenter_refs _ s1 Hr) as Hr1.
  assert (sound0 0 0 (snd (with_presenter vw_caption_presenter_clear s1))) as H2
    by (apply presenter_sound; [intros p Hp; by apply clear_spec|done]).
  set (s2 := snd (with_presenter vw_caption_presenter_clear s1)) in *.
  assert (pr_pending (sy_presenter s2) = None) as P2.
  { subst s2. destruct (with_presenter_state vw_caption_presenter_clear s1) as (_ & _ & ->).
    unfold vw_caption_presenter_clear, let_go. rewrite !bind_run. by rewrite on_presenter_run. }
  clearbody s2. rewrite bind_run. destruct (close_client_spec s2 H2 Hr1 P2) as [H3 E3].
  rewrite bind_run. by apply finalize_spec.
Qed.
End plugin.
