(* ===== verification/PluginProperties.v ===== *)
(** * What the plugin promises

    The properties of a filter instance from opening to closing, over every order of
    the callback's and the sender's operations and every behaviour of the worker, the
    player, the settings and the system, with a scripted environment in which they
    are seen at work. *)

From stdpp Require Import relations.
From S2P Require Import Prelude.
From S2P Require Import CString.
From S2P Require Import Float32.
From S2P Require Import ProtocolTypes.
From S2P Require Import Validate.
From S2P Require Import Codec.
From S2P Require Import SpscQueue.
From S2P Require Import AudioCapture.
From S2P Require Import State.
From S2P Require Import WorkerConfig.
From S2P Require Import WorkerReader.
From S2P Require Import WorkerClient.
From S2P Require Import WorkerClientWire.
From S2P Require Import Presenter.
From S2P Require Import Benchmark.
From S2P Require Import PluginPaths.
From S2P Require Import Sender.
From S2P Require Import SenderSafety.
From S2P Require Import PluginModule.
From S2P Require Import PluginSafety.
#[local] Open Scope Z_scope.

(** ** A scripted environment *)

(** The clock, which a reading moves on by a millisecond; the worker's frames; when
    playback is paused and when the position jumps from 4 s to 60 s. *)
Record demo := mk_demo { dm_clock : Z; dm_inbox : list recv; dm_pause_at : Z; dm_seek_at : Z }.
Definition ticked (us : Z) (x : demo) : demo := mk_demo (dm_clock x + us) (dm_inbox x) (dm_pause_at x) (dm_seek_at x).
#[local] Instance demo_client_env : ClientEnv demo := {
  pipe_send x _ := (true, x);
  pipe_close x := x;
  pipe_connect x _ := (Some (dm_inbox x), x);
  client_now x := (dm_clock x, ticked 1000 x);
  random_bytes x n := (Some (zreplicate n 7), x);
  spawn_process x _ _ := (true, x);
  wait_process x _ := (true, x);
  terminate_process x := x;
  close_process x := x;
  sleep_ms x ms := ticked (1000 * ms) x
}.
#[local] Instance demo_vlc_env : VlcEnv demo := {
  vlc_ancestors x :=
    ([mk_node (mk_object (Some (str "input")) (Some 5%nat) (Some f32_one)
                 (mk_vlc_input (dm_pause_at x <=? dm_clock x) (Some (str "file:///film.mkv"))
                    (Some (if dm_seek_at x <=? dm_clock x then 60000000 else 4000000)))) []], x);
  register_channel x _ := (3, x);
  mdate x := (dm_clock x, x);
  translate_mode x := (1, x)
}.
#[local] Instance demo_os_env : OsEnv demo := {
  getenv x name := (if bool_decide (name = str "XDG_RUNTIME_DIR") then Some (str "/run/user/1000") else None, x);
  getuid x := (1000, x);
  stat x _ := (Some (mk_file_info true 1000 0x1C0), x);
  lstat x _ := (None, x);
  access_wx x _ := (true, x);
  access_exists x path := (true, x);
  mkdir_private x _ := (MkdirMade, x);
  chmod_private x _ := (true, x);
  mkstemp x template := (Some template, x);
  fchmod_private x _ := (true, x);
  fdopen x _ := (true, x);
  write_and_close x _ _ := (true, x);
  rename x _ _ := (true, x);
  remove x _ := x
}.
#[local] Instance demo_module_env : ModuleEnv demo := {
  dladdr_path x := (Some (str "/usr/lib/vlc/plugins/audio_filter/libvlc_whisper_plugin.so"), x);
  self_exe x := (Some (str "/usr/bin/vlc"), x)
}.
#[local] Instance demo_config_env : ConfigEnv demo := {
  config_psz x _ := (None, x);
  config_int x name := (if bool_decide (name = str "whisper-show-paused") then 1 else 0, x);
  config_find x _ := (false, x);
  config_put_psz x _ _ := x;
  config_put_int x _ _ := x
}.
#[local] Instance demo_plugin_env : PluginEnv demo := {}.
#[local] Instance demo_thread_env : ThreadEnv demo := { geteuid x := (1000, x); thread_create x := (true, x) }.

Definition demo_caption (id start : Z) : vw_caption_segment_t :=
  mk_segment (zreplicate 16 7) id start (start + 2000000) 0 (Some [72; 105]) 2 None 0 false 0 0.
Definition demo_frame (seq : Z) (m : message) : recv :=
  Received (header_bytes (mk_header VW_PROTOCOL_MAGIC 1 (message_type m) (zlen (layout m)) seq) ++ layout m).
(** A live session with three captions, and one in source mode with a caption that
    comes after a seek made while paused. *)
Definition live_replies : list recv :=
  [demo_frame 1 (HELLO_ACK (mk_hello_ack 1 6 VW_CAPABILITY_PCM_S16LE_16K_MONO 5 (Some VW_CLIENT_VERSION)));
   demo_frame 2 (STARTED (mk_started (zreplicate 16 7) 0));
   demo_frame 3 (CAPTION_SEGMENT (demo_caption 1 1000000)); demo_frame 4 (CAPTION_SEGMENT (demo_caption 2 3000000));
   demo_frame 5 (CAPTION_SEGMENT (demo_caption 3 5000000))].
Definition source_replies : list recv :=
  [demo_frame 1 (HELLO_ACK (mk_hello_ack 1 6 (Z.lor VW_CAPABILITY_PCM_S16LE_16K_MONO VW_CAPABILITY_SOURCE_MODE) 5
                              (Some VW_CLIENT_VERSION)));
   demo_frame 2 (STARTED (mk_started (zreplicate 16 7) 1))] ++ replicate 40 RecvTimeout ++
  [demo_frame 3 (STARTED (mk_started (zreplicate 16 7) 1)); demo_frame 4 (CAPTION_SEGMENT (demo_caption 1 61000000));
   demo_frame 5 (CAPTION_SEGMENT (demo_caption 2 63000000))].
Definition demo_block (pts : Z) : block := mk_block (Some VW_AUDIO_FORMAT_S16) (Some [100; -100; 50; -50]) 4 pts false 16000 1.
Definition demo_live : demo := mk_demo 0 live_replies 1000000000 1000000000.
Definition demo_source : demo := mk_demo 0 source_replies 50000 100000.
Definition demo_opened (x : demo) : plugin demo :=
  match fst (vw_plugin_open x) with Some s => s | None => plugin_init (mk_spsc [] 0 0 0 0) x end.
Definition live_events : list plugin_event := [Callback (demo_block 1000); SenderTurn; Callback (demo_block 11000); SenderTurn].
Definition source_events : list plugin_event := replicate 6 SenderTurn.
Lemma demo_opens x : x = demo_live \/ x = demo_source -> exists x', vw_plugin_open x = (Some (demo_opened x), x').
Proof. intros [-> | ->]; eexists; vm_compute; reflexivity. Qed.
Definition shown (d : deed) : option (Z * bool) :=
  match d with
  | DrewCue cue _ paused => Some (seg_segment_id cue, paused)
  | DrewTail cue _ => Some (seg_segment_id cue, false)
  | _ => None
  end.

(** ** The history as text *)

Definition not_paused_cue (d : deed) : Prop := match d with DrewCue _ _ paused => paused = false | _ => True end.
(** The last preview made ready before a paused cue has shown none yet. *)
Lemma preview_split ds : forall ready r before cue session after,
  preview_run ready ds = Some r -> ds = before ++ DrewCue cue session true :: after ->
  exists armed quiet, (before = armed ++ ArmedPreview :: quiet \/ ready = true /\ before = quiet)
    /\ Forall not_paused_cue quiet.
Proof.
  induction ds as [|d ds IH]; intros ready r before cue session after Hr E; [by destruct before|].
  destruct before as [|d' before]; injection E as -> E.
  - cbn [preview_run] in Hr. destruct ready; [|done]. exists [], []. split; [by right|constructor].
  - assert (forall b, preview_run b ds = Some r -> (b = true -> ready = true \/ d' = ArmedPreview) ->
      not_paused_cue d' \/ b = false ->
      exists armed quiet, (d' :: before = armed ++ ArmedPreview :: quiet \/ ready = true /\ d' :: before = quiet)
        /\ Forall not_paused_cue quiet) as H.
    { intros b Hb Hready Hd. destruct (IH b r before cue session after Hb E) as (armed & quiet & [-> |[-> ->]] & Hq).
      - exists (d' :: armed), quiet. split; [by left|done].
      - destruct Hd as [Hd|]; [|done]. destruct (Hready eq_refl) as [->| ->].
        + exists [], (d' :: quiet). split; [by right|by constructor].
        + exists [], quiet. split; [by left|done]. }
    cbn [preview_run] in Hr. destruct d' as [c|c o []| |c o]; try (apply (H ready); [done|by left|by left]).
    + destruct ready; [|done]. apply (H false); [done|done|by right].
    + apply (H true); [done|by right|by left].
Qed.

Section promises.
Context {X : Type} `{!PluginEnv X} `{!ThreadEnv X}.
Implicit Types s : plugin X.

(** A client was greeted with [token] and sent well-formed frames without a gap since,
    which were all delivered while the connection is up. *)
Definition greeted (token : list Z) (c : client X) : Prop := exists fs,
  let fs := hello_frame token :: fs in
  Forall frame_ok fs /\ numbered fs /\ delivered (c_sent c) `prefix_of` wire_bytes fs
  /\ (c_pipe c = true -> delivered (c_sent c) = wire_bytes fs).

(** The state during the life of the instance and after it. *)
Definition closed_life early events s : plugin X := snd (vw_plugin_close (plugin_life early events s)).
Lemma life_or_closed (P : plugin X -> Prop) early events (x x' : X) s :
  (forall s, sound0 0 0 s -> P s) -> (forall s, P (bare s) -> P s) ->
  vw_plugin_open x = (Some s, x') -> P (plugin_life early events s) /\ P (closed_life early events s).
Proof.
  intros HP Hb Ho. destruct (life_sound early events _ _ _ Ho) as [H _]. split; [by apply HP|].
  apply Hb, HP. by apply close_spec.
Qed.
End promises.

(** C1: A caption is only put on the screen while the session it belongs to is the
    client's, or no worker has followed: over every life of a filter instance, whatever the worker sends and
    however sessions are replaced by seeks, other media and new workers, and also for
    the last captions shown while closing. *)
Theorem plugin_captions_current {X} `{!PluginEnv X} `{!ThreadEnv X} early events (x x' : X) (s : plugin X) :
  vw_plugin_open x = (Some s, x') ->
  let current := Forall (fun d => match d with
    | DrewCue cue (Some session) _ | DrewTail cue (Some session) => seg_session_id cue = session
    | _ => True
    end) in
  current (sy_deeds (plugin_life early events s)) /\ current (sy_deeds (closed_life early events s)).
Proof. intros Ho. apply (life_or_closed (fun s => Forall drawn_ok (sy_deeds s)) _ _ x x'); [intros q H; apply H|done|done]. Qed.

(** Three captions, the last one while closing. *)
Lemma plugin_captions_current_witness :
  omap shown (sy_deeds (closed_life [] live_events (demo_opened demo_live))) = [(1, false); (2, false); (3, false)]
  /\ Forall (fun d => match d with
       | DrewCue cue (Some session) _ | DrewTail cue (Some session) => seg_session_id cue = session
       | _ => True
       end) (sy_deeds (closed_life [] live_events (demo_opened demo_live))).
Proof.
  split; [by vm_compute|]. destruct (demo_opens demo_live) as [x' Ho]; [by left|].
  destruct (plugin_captions_current [] live_events _ _ _ Ho) as [_ H]. exact H.
Defined.



(** C13: The session report accounts for every caption: modulo the counters' 64 bits,
    the captions sent to the screen and those filtered are together the captions
    received and those found stale, at any time and in the final report. *)
Theorem plugin_accounts {X} `{!PluginEnv X} `{!ThreadEnv X} early events (x x' : X) (s : plugin X) :
  vw_plugin_open x = (Some s, x') ->
  let balanced b := u64 (bm_captions_sent b + bm_captions_filtered b) = u64 (bm_captions_received b + bm_captions_stale b) in
  balanced (sy_benchmark (plugin_life early events s)) /\ balanced (sy_benchmark (closed_life early events s)).
Proof.
  intros Ho. apply (life_or_closed (fun s => u64 (bm_captions_sent (sy_benchmark s) + bm_captions_filtered (sy_benchmark s))
    = u64 (bm_captions_received (sy_benchmark s) + bm_captions_stale (sy_benchmark s))) _ _ x x'); [|done|done].
  intros q H. pose proof (so_accounts _ _ _ H) as Ha. unfold accounts in Ha. rewrite <- Ha. f_equal. by destruct (bm_active _); lia.
Qed.

(** Two captions, one shown and one not. *)
Lemma plugin_accounts_witness :
  let b := sy_benchmark (plugin_life [] (replicate 7 SenderTurn) (demo_opened demo_source)) in
  (bm_captions_sent b, bm_captions_filtered b, bm_captions_received b, bm_captions_stale b) = (1, 1, 2, 0)
  /\ u64 (bm_captions_sent b + bm_captions_filtered b) = u64 (bm_captions_received b + bm_captions_stale b).
Proof.
  intros b. split; [vm_compute; reflexivity|]. destruct (demo_opens demo_source) as [x' Ho]; [by right|].
  destruct (plugin_accounts [] (replicate 7 SenderTurn) _ _ _ Ho) as [H _]. exact H.
Defined.

(** C9: What is held is given back: between the sender's turns no input object is held,
    at all times every use of a video output is of one that is held, and after closing
    no video output is and there is no client left. *)
Theorem plugin_releases {X} `{!PluginEnv X} `{!ThreadEnv X} early events (x x' : X) (s : plugin X) :
  vw_plugin_open x = (Some s, x') ->
  sy_inputs_held (plugin_life early events s) = 0 /\ log_ok (sy_vlc_log (plugin_life early events s))
  /\ let s' := closed_life early events s in
     sy_inputs_held s' = 0 /\ log_ok (sy_vlc_log s') /\ (forall v, refs v (sy_vlc_log s') = 0) /\ sy_client s' = None.
Proof.
  intros Ho. destruct (life_sound early events _ _ _ Ho) as [H _]. destruct (close_spec _ H) as [[Hc Hr] Hn].
  cbv zeta. split_and!; [apply H|apply (so_presenter _ _ _ H)|apply Hc|apply (so_presenter _ _ _ Hc)|exact Hr|exact Hn].
Qed.

(** The output is held five times and given back as often. *)
Lemma plugin_releases_witness :
  length (List.filter (fun e => match e with Held _ => true | _ => false end) (sy_vlc_log (closed_life [] live_events (demo_opened demo_live)))) = 5%nat
  /\ refs 5%nat (sy_vlc_log (closed_life [] live_events (demo_opened demo_live))) = 0.
Proof.
  split; [vm_compute; reflexivity|]. destruct (demo_opens demo_live) as [x' Ho]; [by left|].
  destruct (plugin_releases [] live_events _ _ _ Ho) as (_ & _ & _ & _ & H & _). exact (H 5%nat).
Defined.

(** C5: The audio handed to the worker is the audio captured, in its order: each chunk
    sent, during the session and while closing, is one the callback queued, and none
    is sent twice or before an earlier one. What was captured is what was taken out
    of the queue and what is still in it. *)
Theorem plugin_audio_order {X} `{!PluginEnv X} `{!ThreadEnv X} early events (x x' : X) (s : plugin X) :
  vw_plugin_open x = (Some s, x') ->
  let ordered s := exists taken, sublist (sent_chunks (sy_deeds s)) taken
    /\ sy_captured s = taken ++ capture_contents (sy_capture s) in
  ordered (plugin_life early events s) /\ ordered (closed_life early events s).
Proof.
  intros Ho. apply (life_or_closed (fun s => exists taken, sublist (sent_chunks (sy_deeds s)) taken
    /\ sy_captured s = taken ++ capture_contents (sy_capture s)) _ _ x x'); [|done|done].
  intros q H. destruct (so_queue _ _ _ H) as (queue & taken & E & _ & Ec & Hs). exists taken. split; [done|].
  unfold capture_contents. by rewrite E.
Qed.

(** Two blocks. *)
Lemma plugin_audio_order_witness :
  let s' := plugin_life [] live_events (demo_opened demo_live) in
  map chunk_start_pts_us (sent_chunks (sy_deeds s')) = [1000; 11000]
  /\ exists taken, sublist (sent_chunks (sy_deeds s')) taken /\ sy_captured s' = taken ++ capture_contents (sy_capture s').
Proof.
  intros s'. split; [vm_compute; reflexivity|]. destruct (demo_opens demo_live) as [x' Ho]; [by left|].
  destruct (plugin_audio_order [] live_events _ _ _ Ho) as [H _]. exact H.
Defined.


